(* ===== verification/_CoqProject ===== *)
-Q . S2P
Prelude.v
Layout.v
Types.v
ServerList.v
ConfigFile.v
ClientData.v
JobQueue.v
Environment.v
PulseChannelManager.v
NotificationPool.v
MessageContext.v
State.v
Notifications.v
Registration.v
Notify.v
Attach.v
Jobs.v
Dispatch.v
System.v
Frames.v
ServerInv.v
Safety.v
Protocol.v
Registry.v
Delivery.v
Answers.v
Access.v
Lists.v
JobOrder.v
Worker.v
Utf8.v
Buffer.v
Stream.v
Serial.v
Message.v
Runtime.v
Stub.v
Replies.v
Cleanup.v
Proxy.v
Connect.v
Engine.v
Hosting.v
Handshake.v
Wire.v
AutoBuffer.v
Requests.v
ClientHandle.v
ClientIo.v
ClientLib.v
ClientCalls.v
WholeCall.v
Slist.v
Devices.v
Dispatcher.v
IoDevices.v
Http.v
Waiting.v
Hosts.v
Faultless.v
Accept.v
Startup.v
Attributes.v
Variant.v
