(* ===== verification/Prelude.v ===== *)
(** * A verification development for DSI

    DSI is an interprocess communication framework: applications offer interfaces
    (servers) and attach to them (clients).  The servicebroker is the daemon that
    brings them together: servers register their interfaces with it, clients attach
    through it, and both ask it for notifications, delivered as pulses, about servers
    and clients coming and going.  A servicebroker may be the slave of another one, its
    master, to which it forwards what it cannot answer itself.  An application talks to
    the servicebroker through a C library, and to other applications through the base
    library: its engine hosts clients and servers, connects them and carries their
    messages.  Both rest on a common library of sockets, events and containers.  The
    development models these three layers as executable definitions and proves the
    properties that make them correct.

    ** The servicebroker: [src/servicebroker/], [include/dsi/private/servicebroker.h]

    - Prelude: machine integers, bytes, record update, the state monad with the relations
      [preserves], [keeps] and [triple], C++ containers and C strings, automation.
    - Layout: the layout of the protocol's structs, the [DCMD_*] codes; [sizeof] is computed
      from the member lists, since the command codes and the length tests of [dispatch]
      contain it.  The program is a 32-bit program.
    - Types: the protocol's data and [InterfaceDescription.{hpp,cpp}], [Servicebroker::check].
    - ServerList, ConfigFile, ClientData ([IDList.hpp], [ClientSpecificData], [ClientList]),
      JobQueue, PulseChannelManager, NotificationPool, MessageContext: one file per class,
      independent of each other.
    - Environment: class [Env], everything outside the program the broker reads: sockets,
      the user and group databases, regular expressions, uninitialised memory.
    - State: the record [SB] of all globals of the servicebroker's thread, connections,
      faults and outputs, with the elementary accesses in the monad [M].
    - Notifications ([Notification], [NotificationList]), Registration, Notify, Attach, Jobs:
      the handlers of [Servicebroker.cpp] in the order of the file.
    - Dispatch: [Servicebroker::dispatch] for requests and pulses, what a client handle does
      to the broker, and its clean-up [ClientSpecificData::clear].
    - System: the event loop as a transition system.  [run] is the reaction to one event,
      [enabled] says when the event can occur, [reachable] is the closure from the state
      [main] starts in.
    - Wire, AutoBuffer, Requests, ClientHandle: the same requests as bytes.  Wire gives each
      struct its offsets and round trip; AutoBuffer the buffer of a handle with its memory;
      Requests what [dispatch] decodes and [SocketMessageContext] writes; ClientHandle the
      state machine that reads a request and writes a response in pieces.

    - Accept, Startup: the acceptors with the loop of [ServicebrokerServer::run] that binds
      them, what a new connection must say, how TCP clients are supervised, the pulses of
      the master, and what the options of [main] make of all this.
    - JobOrder, Worker: the worker thread that connects a slave to its master and executes the
      jobs, with the pipe through which it reports, and the two threads as one system.
    - Http: the status service, [HTTPClient] and the commands of [setup].

    How they interact: an [Ev_request] runs [eval_request], which sets up the message
    context and calls [dispatch], which calls one handler; handlers use the server table,
    the client list, the four notification lists and the pool, queue jobs for the master
    with [master_eval] and end by preparing or deferring the response.  The worker thread
    takes jobs off the queue in FIFO order; [Ev_job] is the return of the oldest one,
    handled by [handleJobFinished], which answers the waiting client.  [Ev_link] and
    [Ev_pulse] are the other signals of the worker thread and of the master.

    ** The client library: [clientlib.c], [clientIo.cpp]

    - ClientIo: sending and receiving whole frames on a socket that cuts the stream and
      interrupts calls.  ClientLib: the [SB...] calls, as memory that is filled and read.
    - ClientCalls: the bytes of every call are the request the dispatcher expects.
      WholeCall: [SBAttachInterface] from the caller's variables through the handler of the
      broker and back.

    ** The base library: [src/base/], [include/dsi/]

    - Utf8, Buffer ([CBuffer]), Stream and Serial ([COStream], [CIStream], containers and
      variants), Message (frames of [CRequestWriter] and [CRequestReader]).
    - Attributes: server and client attributes, and the partial updates of vectors.
    - Variant: the operations of [TVariant] on its storage, and the algorithms on type lists.
    - Runtime: what servers, clients and the engine share: a monad whose computations may
      abort the process, the wrappers of the servicebroker calls, channels and their caches.
    - Stub ([CServer] with the generated stub), Replies and Cleanup; Proxy ([CClient] and
      [CClientConnectSM]) and Connect; Engine ([CCommEngine]) and Hosting.  The user's methods
      and callbacks are arbitrary programs over the functions the library offers them.
    - Handshake: the engines of two processes, one with a client and one with its server.

    ** The common library: [src/common/]

    - Slist: the intrusive list on a heap of hooks.  Devices: error codes and the loops that
      move a whole buffer.  Dispatcher: the tables of [Dispatcher], the event classes, [poll]
      and [run].  IoDevices: the devices that arm events and own descriptors.

    ** What the theorems show

    - Frames, ServerInv, Safety: what each operation of the broker leaves alone; in every
      reachable state the server table is well formed, the pool is never misused and
      [master()] is only called when there is one.
    - Protocol, Answers: every request is answered exactly once or deferred, wrong versions and
      lengths have no effect.
    - Waiting: in every reachable state a deferred client waits for exactly one job, those that
      extended attaches deferred excepted; it stays
      deferred until the jobs before its own are back and is answered by its own, unless it is
      closed; a TCP client that the supervision timer closes leaves its job dangling.  JobOrder
      carries the class [Growing] of predicates every handler preserves, with which both are
      proved.
    - Hosts, Faultless: the notifications' pointers to their hosts and the jobs' pointers to
      their clients are sound, so that a run in which no waiting connection is closed has no
      fault of any kind; two lemmas show what happens otherwise.
    - JobOrder, Worker: the broker's accesses to what the threads share (the job queue and the
      state of the connection) are steps of their own, in the order of its reaction; every
      interleaving of them with the steps of the worker is a run of [System], so that all of
      the above holds for the program with both.  Tests of the connection within one reaction
      see its state at the beginning of the reaction.  No job is lost, repeated or overtaken,
      and each is reported within a bounded number of steps.
    - Registry, Access, Lists, Delivery: the functional contracts of registering,
      unregistering, hanging up, attaching (with the access rule), listing, announcing to
      the master and of the notification triggers (with their access rule), the latter against
      an executable specification ([tell_all]) of the connections made and the pulses sent.
    - ServerList, JobQueue, ClientData, NotificationPool, PulseChannelManager, ConfigFile,
      Slist: each class implements its contract (a finite map, a FIFO, a set, a life cycle,
      reference counts, round trips, a list).  [ServerList] publishes its contract as the
      class [NameTable].
    - ClientHandle, ClientCalls, WholeCall: however the stream is cut, a request is evaluated
      once and its response sent whole; every call is decoded as its caller meant it.
    - Accept: in which round the servicebroker begins to serve when it has no list of addresses,
      and when it never does; who is let in, and as whom.
    - Http: a [GET] request is answered however it is cut; a request of less than 511 bytes
      overruns memory only when it is a POST request with an overlong command.
    - Utf8, Buffer, Serial, Message: the conversion to UTF-8 is that of RFC 3629 except for
      surrogates, which it accepts ([surrogates_accepted]); the buffer's capacity is computed
      for the sizes given; values and messages arrive as sent and reading never leaves the
      payload, within the bounds the theorems name ([sp_ok], [small_variants], the capacity of
      the message buffer).
    - Attributes: a client that registers sees every value the server's attribute takes,
      although only the changes are sent, and only while the attribute is valid.
    - Variant: every program on variants does what it does on variables that hold nothing or an
      object ([variants_refine_unions]).
    - Replies, Cleanup, Connect, Hosting, Handshake: responses reach exactly their listeners, a
      client that goes leaves nothing behind unless the user's code adds it or aborts, clients
      follow their life cycle under the events the engine can deliver and give their ids back
      except where the code leaks one, a message, good or bad, changes the object it names or
      those of its channel only, a connection and a request complete.
    - Dispatcher: whatever is armed and removed during a poll by [well_behaved] routines, no
      deleted event is used, every event is deleted once, and the ready events are evaluated in
      order, each at most once, and none is left out but by a routine evaluated before; the
      ghost field [dp_trace] records the evaluations and the calls of routines.

    Lemmas state the defects the model exposed, each with the smallest input that shows it,
    among them an unfinished extended attach ([Safety.extended_attach_refused]),
    [std::remove] without [erase] ([ClientData.removeNotification_without_erase]), a read past
    the end of an array ([Types.check_name_reads_past_end]), a buffer that is overrun
    ([Message.receive_overflows]), a call that reports success without an answer
    ([WholeCall.broken_answer_reported_as_success]) and an event that outlives its device
    ([IoDevices.close_leaves_event]).

    ** Conventions

    A [w]-bit integer is a [Z] with its wrap-around written out ([u16], [u32], [i32]).  In the
    broker a pointer to a client handle, its context and its data is the connection's id.  A
    failed assertion or an invalid dereference of the broker does not stop the model: it is
    recorded in the ghost list [sb_faults], and theorems show which kinds cannot occur; in
    the other layers it ends the computation ([None] or a fault).  When the 32-bit
    notification counter wraps, the reserved id could be handed out; the ghost flag
    [sb_exhausted] records it.  The default build is modelled: without [USE_SERVER_CACHE],
    with HTTP service.

    Loops over lists are structural; loops bounded by a count of the request take that count
    as fuel ([registerEx_loop], [notifyAvailableEx_loop], [registerMaster_loop]), which is
    their exact number of iterations; [lower_bound] has the length of the range plus one as
    fuel, and [lower_bound_correct] shows it is enough; the loops of the intrusive list have
    the size of the heap plus one ([slist_fuel]), and [Slist_refines_list] shows that they
    end.  A step of the worker thread needs no fuel; its theorem bounds the number of steps.
    Loops on a socket recurse on the script of its results: that they return is part of
    the theorems about them.  The main loops, [Engine.run] and [dispatcher_loop], may run
    for ever and have any fuel.

    ** Not modelled

    The [dump] functions (text for humans), logging and traces, the lock file, the signal
    handlers, daemonizing, mutexes (the order of the operations they protect is the order of
    the steps), socket options and datagrams (single system calls), [sbcat], generic devices and timeouts of the
    engine, exceptions that leave a handler, and the code generator ([src/gen/], Java) except
    for the templates of the stub.

    ** Possible extensions

    The whole-call theorem for the other calls of the client library. *)

From stdpp Require Export base functions tactics option list gmap sets strings.
From stdpp Require Import options.
From Stdlib Require Export ZArith.

Declare Scope dsi_scope.
Delimit Scope dsi_scope with dsi.
#[global] Open Scope dsi_scope.
#[global] Open Scope Z_scope.

(** ** Machine integers

    C++ [uint16_t], [uint32_t], [uint64_t] and [int32_t] are [Z] values kept in
    range by the wrap-around functions below. *)

Definition u16 (x : Z) : Z := x mod 2 ^ 16.

Definition u32 (x : Z) : Z := x mod 2 ^ 32.

Definition u64 (x : Z) : Z := x mod 2 ^ 64.

(** Two's complement reinterpretation, [static_cast<int32_t>(x)]. *)
Definition i32 (x : Z) : Z := (x + 2 ^ 31) mod 2 ^ 32 - 2 ^ 31.

Definition is_u32 (x : Z) : Prop := 0 <= x < 2 ^ 32.

(** ** Field update for records

    [r <| f := v |>] and [r <| f ::= g |>].  A record opts in with one [Eta]
    instance, the record rebuilt from its own projections; the setter of a
    projection is then found by abstracting that projection in it. *)

Class Eta (R : Type) := eta_expand : R -> R.

Class Update {R F : Type} (proj : R -> F) := update : (F -> F) -> R -> R.
Arguments update {R F} proj {_} _ _ /.

Ltac derive_update :=
  match goal with
  | |- @Update ?R ?F ?proj =>
    let upd := fresh "upd" in let r := fresh "r" in
    unfold Update; intros upd r;
    let inst := constr:(_ : Eta R) in
    let full := eval red in (inst r) in
    let body := eval pattern (proj r) in full in
    match body with
    | ?ctx (proj r) => let t := eval cbv beta in (ctx (upd (proj r))) in exact t
    end
  end.

#[export] Hint Extern 0 (Update _) => derive_update : typeclass_instances.

Notation "r <| f ::= g |>" := (update f g r)
  (at level 12, left associativity, f at level 11, g at level 99) : dsi_scope.
Notation "r <| f := v |>" := (update f (fun _ => v) r)
  (at level 12, left associativity, f at level 11, v at level 99) : dsi_scope.

(** ** The state monad

    Stateful C++ code over a state [S] becomes [StateM S A]; stdpp's [mret],
    [x ← c; k] and [c ;; k] notations are used for it. *)

Definition StateM (S A : Type) : Type := S -> A * S.

#[export] Instance StateM_ret S : MRet (StateM S) := fun A a s => (a, s).

#[export] Instance StateM_bind S : MBind (StateM S) :=
  fun A B f m s => let '(a, s') := m s in f a s'.

Definition getS {S} : StateM S S := fun s => (s, s).

Definition gets {S A} (f : S -> A) : StateM S A := fun s => (f s, s).

Definition modify {S} (f : S -> S) : StateM S unit := fun s => (tt, f s).

Definition skip {S} : StateM S unit := fun s => (tt, s).

(** [if (b) c] with no else branch. *)
Definition whenM {S} (b : bool) (c : StateM S unit) : StateM S unit :=
  if b then c else skip.

(** A loop over a list whose body acts on the state. *)
Fixpoint forM_ {S A} (l : list A) (body : A -> StateM S unit) : StateM S unit :=
  match l with
  | [] => skip
  | x :: l' => body x ;; forM_ l' body
  end.

Definition exec {S A} (m : StateM S A) (s : S) : S := snd (m s).

Definition eval {S A} (m : StateM S A) (s : S) : A := fst (m s).

(** [preserves I m]: running [m] from a state satisfying [I] ends in one. *)
Record preserves {S A} (I : S -> Prop) (m : StateM S A) : Prop :=
  mk_preserves { run_preserves : forall s, I s -> I (exec m s) }.
Coercion run_preserves : preserves >-> Funclass.

(** [keeps f m]: running [m] leaves the component [f] of the state alone. *)
Record keeps {S A F} (f : S -> F) (m : StateM S A) : Prop :=
  mk_keeps { run_keeps : forall s, f (exec m s) = f s }.
Coercion run_keeps : keeps >-> Funclass.

(** [triple P m Q]: from [P], [m] ends with result and state in [Q]. *)
Definition triple {S A} (P : S -> Prop) (m : StateM S A) (Q : A -> S -> Prop) : Prop :=
  forall s, P s -> Q (eval m s) (exec m s).

(** ** C++ containers *)

(** [std::remove(v.begin(), v.end(), x)] on a vector: the kept elements are
    moved to the front and the tail keeps its old values; the vector's length
    does not change. *)
Definition std_remove {A} `{EqDecision A} (x : A) (l : list A) : list A :=
  let kept := filter (fun y => y <> x) l in
  kept ++ drop (length kept) l.

(** Erase the first element that satisfies [p], as the search loops with
    [erase(iter); break;] do. *)
Fixpoint erase_first {A} (p : A -> bool) (l : list A) : list A :=
  match l with
  | [] => []
  | x :: l' => if p x then l' else x :: erase_first p l'
  end.

(** The first element that satisfies [p]: a forward search loop. *)
Fixpoint find_first {A} (p : A -> bool) (l : list A) : option A :=
  match l with
  | [] => None
  | x :: l' => if p x then Some x else find_first p l'
  end.

(** Update the first element that satisfies [p] (a write through the pointer a
    search loop returned). *)
Fixpoint update_first {A} (p : A -> bool) (f : A -> A) (l : list A) : list A :=
  match l with
  | [] => []
  | x :: l' => if p x then f x :: l' else x :: update_first p f l'
  end.

(** Index of the last element that satisfies [p], or -1: the loops
    [for (idx = size() - 1; idx >= 0; idx--)]. *)
Fixpoint find_last_from {A} (p : A -> bool) (l : list A) (base : Z) (found : Z) : Z :=
  match l with
  | [] => found
  | x :: l' => find_last_from p l' (base + 1) (if p x then base else found)
  end.

Definition find_last {A} (p : A -> bool) (l : list A) : Z := find_last_from p l 0 (-1).

(** ** Bytes and C strings

    A C string is a list of byte values without 0; a [char name[n]] field is the
    list of its [n] bytes. *)

Abbreviation bytes := (list Z).

Fixpoint bytes_of_string (s : string) : bytes :=
  match s with
  | EmptyString => []
  | String c s' => Z.of_N (Ascii.N_of_ascii c) :: bytes_of_string s'
  end.

(** [std::string(raw)]: the bytes up to the first NUL. *)
Fixpoint cstr (raw : bytes) : bytes :=
  match raw with
  | [] => []
  | b :: raw' => if b =? 0 then [] else b :: cstr raw'
  end.

(** [strcmp] on unsigned bytes; the end of a string compares as NUL. *)
Fixpoint strcmp (a b : bytes) : Z :=
  match a, b with
  | [], [] => 0
  | [], y :: _ => - y
  | x :: _, [] => x
  | x :: a', y :: b' => if x =? y then strcmp a' b' else x - y
  end.

(** [strncpy(dst, src, n)]: at most [n] bytes of [src], padded with NULs. *)
Definition strncpy (n : nat) (src : bytes) : bytes :=
  take n src ++ replicate (n - length src) 0.

(** [str.rfind(needle) == str.size() - strlen(needle)] tests and the like: does
    [s] end with [needle]? *)
Definition ends_with (needle s : bytes) : bool :=
  bool_decide (drop (length s - length needle) s = needle).

Definition is_cstring (s : bytes) : Prop := Forall (fun b => 0 < b < 256) s.

(** ** Numbers in memory: little endian *)

Fixpoint le_bytes (k : nat) (v : Z) : bytes :=
  match k with
  | O => []
  | S k => v mod 256 :: le_bytes k (v / 256)
  end.

Fixpoint le_value (bs : bytes) : Z :=
  match bs with
  | [] => 0
  | b :: bs => b + 256 * le_value bs
  end.

(** ** Automation *)

Create HintDb dsi.
Create HintDb wire.
Create HintDb preserve discriminated.
#[export] Hint Constants Opaque : preserve.
#[export] Hint Variables Opaque : preserve.
Create HintDb monad.

Ltac split_match :=
  match goal with
  | |- context [match ?x with _ => _ end] => destruct x eqn:?
  end.

(** Turn boolean tests of the code into propositions. *)
Ltac reflect_bools :=
  repeat match goal with
  | H : (_ && _)%bool = true |- _ => apply andb_prop in H; destruct H
  | H : (_ || _)%bool = false |- _ => apply orb_false_elim in H; destruct H
  | H : negb _ = true |- _ => apply negb_true_iff in H
  | H : negb _ = false |- _ => apply negb_false_iff in H
  | H : (_ =? _) = true |- _ => apply Z.eqb_eq in H
  | H : (_ =? _) = false |- _ => apply Z.eqb_neq in H
  | H : (_ <? _) = true |- _ => apply Z.ltb_lt in H
  | H : (_ <? _) = false |- _ => apply Z.ltb_ge in H
  | H : (_ <=? _) = true |- _ => apply Z.leb_le in H
  | H : (_ <=? _) = false |- _ => apply Z.leb_gt in H
  | H : bool_decide _ = true |- _ => apply bool_decide_eq_true in H
  | H : bool_decide _ = false |- _ => apply bool_decide_eq_false in H
  end.

(** ** Lemmas *)

Lemma u32_range x : is_u32 (u32 x).
Proof. unfold is_u32, u32. apply Z.mod_pos_bound. lia. Qed.

Lemma u32_id x : is_u32 x -> u32 x = x.
Proof. intros H. apply Z.mod_small, H. Qed.

Lemma i32_range x : - 2 ^ 31 <= i32 x < 2 ^ 31.
Proof. unfold i32. pose proof (Z.mod_pos_bound (x + 2 ^ 31) (2 ^ 32)). lia. Qed.
Lemma i32_small x : 0 <= x < 2 ^ 31 -> i32 x = x.
Proof. intros H. unfold i32. rewrite Z.mod_small; lia. Qed.

#[export] Hint Resolve u32_range u32_id : dsi.

(** *** The state monad *)

Lemma exec_bind {S A B} (m : StateM S A) (k : A -> StateM S B) s :
  exec (m ≫= k) s = exec (k (eval m s)) (exec m s).
Proof. unfold exec, eval, mbind, StateM_bind. by destruct (m s). Qed.

Lemma eval_bind {S A B} (m : StateM S A) (k : A -> StateM S B) s :
  eval (m ≫= k) s = eval (k (eval m s)) (exec m s).
Proof. unfold exec, eval, mbind, StateM_bind. by destruct (m s). Qed.

Lemma exec_ret {S A} (a : A) (s : S) : exec (mret a) s = s.
Proof. done. Qed.

Lemma eval_ret {S A} (a : A) (s : S) : eval (mret a) s = a.
Proof. done. Qed.

Lemma exec_gets {S A} (f : S -> A) s : exec (gets f) s = s.
Proof. done. Qed.

Lemma eval_gets {S A} (f : S -> A) s : eval (gets f) s = f s.
Proof. done. Qed.

Lemma exec_modify {S} (f : S -> S) s : exec (modify f) s = f s.
Proof. done. Qed.

Lemma exec_skip {S} (s : S) : exec skip s = s.
Proof. done. Qed.

(** Symbolic execution of a computation applied to its state. *)
Lemma run_bind {S A B} (m : StateM S A) (k : A -> StateM S B) s a s' :
  m s = (a, s') -> (m ≫= k) s = k a s'.
Proof. unfold mbind, StateM_bind. by intros ->. Qed.

Lemma run_getS {S B} (k : S -> StateM S B) s : (getS ≫= k) s = k s s.
Proof. done. Qed.

Lemma run_modify {S B} (f : S -> S) (k : unit -> StateM S B) s : (modify f ≫= k) s = k tt (f s).
Proof. done. Qed.

Lemma run_ret {S A B} (a : A) (k : A -> StateM S B) s : (mret a ≫= k) s = k a s.
Proof. done. Qed.

Lemma run_assoc {S A B C} (m : StateM S A) (k : A -> StateM S B) (l : B -> StateM S C) s :
  ((m ≫= k) ≫= l) s = (m ≫= (fun a => k a ≫= l)) s.
Proof. unfold mbind, StateM_bind. by destruct (m s). Qed.

Lemma run_eval_exec {S A} (m : StateM S A) s : m s = (eval m s, exec m s).
Proof. unfold eval, exec. by destruct (m s). Qed.

#[export] Hint Rewrite @exec_bind @eval_bind @exec_ret @eval_ret @exec_gets @eval_gets
  @exec_modify @exec_skip : monad.

Section preserves.
Context {S : Type} (I : S -> Prop).

Lemma preserves_ret {A} (a : A) : preserves I (mret a).
Proof. by split. Qed.

Lemma preserves_bind {A B} (m : StateM S A) (k : A -> StateM S B) :
  preserves I m -> (forall a, preserves I (k a)) -> preserves I (m ≫= k).
Proof. intros Hm Hk. split. intros s Hs. rewrite exec_bind. by apply Hk, Hm. Qed.

Lemma preserves_gets {A} (f : S -> A) : preserves I (gets f).
Proof. by split. Qed.

Lemma preserves_getS : preserves I getS.
Proof. by split. Qed.

Lemma preserves_skip : preserves I skip.
Proof. by split. Qed.

Lemma preserves_modify (f : S -> S) : (forall s, I s -> I (f s)) -> preserves I (modify f).
Proof. intros H. split. intros s Hs. by apply H. Qed.

(** What has been read satisfies the invariant. *)
Lemma preserves_getS_inv {A} (k : S -> StateM S A) :
  (forall s, I s -> preserves I (k s)) -> preserves I (getS ≫= k).
Proof. intros H. split. intros s Hs. rewrite exec_bind. by apply H. Qed.

(** The state read is the one the rest starts in. *)
Lemma preserves_read {A} (k : S -> StateM S A) :
  (forall s, I s -> I (exec (k s) s)) -> preserves I (getS ≫= k).
Proof. intros H. split. intros s Hs. rewrite exec_bind. by apply H. Qed.

Lemma preserves_when b (m : StateM S unit) :
  (b = true -> preserves I m) -> preserves I (whenM b m).
Proof. intros H. destruct b; [by apply H | apply preserves_skip]. Qed.

Lemma preserves_forM {A} (l : list A) (body : A -> StateM S unit) :
  (forall x, x ∈ l -> preserves I (body x)) -> preserves I (forM_ l body).
Proof.
  induction l as [|x l IH]; intros H; cbn [forM_]; [apply preserves_skip|].
  apply preserves_bind; [apply H; left | intros _; apply IH; intros; apply H; by right].
Qed.

(** A computation that keeps [f] preserves any predicate on [f]. *)
Lemma preserves_of_keeps {A F} (f : S -> F) (m : StateM S A) (P : F -> Prop) :
  (forall s, I s <-> P (f s)) -> keeps f m -> preserves I m.
Proof. intros HI Hm. split. intros s. rewrite !HI, (run_keeps _ _ Hm). done. Qed.

End preserves.

Lemma preserves_and {S A} (I J : S -> Prop) (m : StateM S A) :
  preserves I m -> preserves J m -> preserves (fun s => I s /\ J s) m.
Proof. intros HI HJ. split. intros s [? ?]. split; [by apply HI | by apply HJ]. Qed.

Section keeps.
Context {S F : Type} (f : S -> F).

Lemma keeps_ret {A} (a : A) : keeps f (mret a).
Proof. by split. Qed.

Lemma keeps_bind {A B} (m : StateM S A) (k : A -> StateM S B) :
  keeps f m -> (forall a, keeps f (k a)) -> keeps f (m ≫= k).
Proof.
  intros Hm Hk. split. intros s. rewrite exec_bind, (run_keeps _ _ (Hk _)). apply Hm.
Qed.

Lemma keeps_gets {A} (g : S -> A) : keeps f (gets g).
Proof. by split. Qed.

Lemma keeps_getS : keeps f getS.
Proof. by split. Qed.

Lemma keeps_skip : keeps f skip.
Proof. by split. Qed.

Lemma keeps_modify (g : S -> S) : (forall s, f (g s) = f s) -> keeps f (modify g).
Proof. intros H. split. intros s. apply H. Qed.

Lemma keeps_when b (m : StateM S unit) : keeps f m -> keeps f (whenM b m).
Proof. intros H. destruct b; [done | apply keeps_skip]. Qed.

Lemma keeps_forM {A} (l : list A) (body : A -> StateM S unit) :
  (forall x, keeps f (body x)) -> keeps f (forM_ l body).
Proof.
  intros H. induction l as [|x l IH]; cbn [forM_]; [apply keeps_skip|].
  by apply keeps_bind.
Qed.

(** What keeps [f] keeps everything computed from it. *)
Lemma keeps_via {A G} (g : S -> G) (h : F -> G) (m : StateM S A) :
  (forall s, g s = h (f s)) -> keeps f m -> keeps g m.
Proof. intros Hg Hm. split. intros s. by rewrite !Hg, (run_keeps _ _ Hm). Qed.

End keeps.

Section triple.
Context {S : Type}.

Lemma triple_ret {A} (a : A) (Q : A -> S -> Prop) : triple (Q a) (mret a) Q.
Proof. by intros s. Qed.

Lemma triple_bind {A B} (m : StateM S A) (k : A -> StateM S B) P (R : A -> S -> Prop) Q :
  triple P m R -> (forall a, triple (R a) (k a) Q) -> triple P (m ≫= k) Q.
Proof. intros Hm Hk s Hs. rewrite exec_bind, eval_bind. by apply Hk, Hm. Qed.

Lemma triple_getS (P : S -> Prop) : triple P getS (fun a s => a = s /\ P s).
Proof. by intros s. Qed.

Lemma triple_read {A} (k : S -> StateM S A) P Q :
  (forall s, P s -> triple P (k s) Q) -> triple P (getS ≫= k) Q.
Proof. intros Hk s Hs. rewrite exec_bind, eval_bind. by apply Hk. Qed.

Lemma triple_modify (f : S -> S) (Q : unit -> S -> Prop) : triple (fun s => Q tt (f s)) (modify f) Q.
Proof. by intros s. Qed.

Lemma triple_conseq {A} (m : StateM S A) (P P' : S -> Prop) (Q Q' : A -> S -> Prop) :
  triple P m Q -> (forall s, P' s -> P s) -> (forall a s, Q a s -> Q' a s) -> triple P' m Q'.
Proof. intros Hm HP HQ s Hs. by apply HQ, Hm, HP. Qed.

Lemma triple_pre {A} (m : StateM S A) (P P' : S -> Prop) (Q : A -> S -> Prop) :
  triple P m Q -> (forall s, P' s -> P s) -> triple P' m Q.
Proof. intros Hm HP s Hs. by apply Hm, HP. Qed.

Lemma triple_post {A} (m : StateM S A) (P : S -> Prop) (Q Q' : A -> S -> Prop) :
  triple P m Q -> (forall a s, Q a s -> Q' a s) -> triple P m Q'.
Proof. intros Hm HQ s Hs. by apply HQ, Hm. Qed.

Lemma triple_preserves {A} (I : S -> Prop) (m : StateM S A) :
  preserves I m -> triple I m (fun _ => I).
Proof. intros Hm s Hs. by apply Hm. Qed.

Lemma preserves_triple {A} (I : S -> Prop) (m : StateM S A) :
  triple I m (fun _ => I) -> preserves I m.
Proof. intros Hm. split. intros s Hs. by apply Hm. Qed.

Lemma triple_exec {A} (P : S -> Prop) (I : S -> Prop) (m : StateM S A) s :
  P s -> triple P m (fun _ => I) -> I (exec m s).
Proof. intros Hs Hm. by apply Hm. Qed.

(** A component that [m] keeps can be carried across it. *)
Lemma triple_keeps {A F} (f : S -> F) (m : StateM S A) (P : F -> Prop) :
  keeps f m -> triple (fun s => P (f s)) m (fun _ s => P (f s)).
Proof. intros Hm s Hs. by rewrite (run_keeps _ _ Hm). Qed.

End triple.

(** A computation that keeps [f] preserves any predicate on [f]. *)
Lemma preserves_on {S A F} (f : S -> F) (P : F -> Prop) (m : StateM S A) :
  keeps f m -> preserves (fun s => P (f s)) m.
Proof. intros Hm. split. intros s. by rewrite (run_keeps _ _ Hm). Qed.

(** Walk through the control structure of a computation; what is left are the
    operations that are not in the [preserve] database. *)
Ltac preserve_step :=
  cbv zeta beta;
  match goal with
  | |- preserves _ (mbind _ getS) => apply preserves_getS_inv; intros ? ?
  | |- preserves _ (mbind _ _) => apply preserves_bind; [|intros ?]
  | |- preserves _ (mret _) => apply preserves_ret
  | |- preserves _ (gets _) => apply preserves_gets
  | |- preserves _ getS => apply preserves_getS
  | |- preserves _ skip => apply preserves_skip
  | |- preserves _ (whenM _ _) => apply preserves_when; intros ?
  | |- preserves _ (forM_ _ _) => apply preserves_forM; intros ? ?
  | |- preserves _ (match ?x with _ => _ end) => destruct x eqn:?
  | |- preserves _ _ => solve [eauto with preserve nocore]
  | |- keeps _ (mbind _ _) => apply keeps_bind; [|intros ?]
  | |- keeps _ (mret _) => apply keeps_ret
  | |- keeps _ (gets _) => apply keeps_gets
  | |- keeps _ getS => apply keeps_getS
  | |- keeps _ skip => apply keeps_skip
  | |- keeps _ (whenM _ _) => apply keeps_when
  | |- keeps _ (forM_ _ _) => apply keeps_forM; intros ?
  | |- keeps _ (match ?x with _ => _ end) => destruct x eqn:?
  | |- keeps _ _ => solve [eauto with preserve nocore]
  end.
Ltac preserve := repeat preserve_step.

(** *** Lists *)

Section std_remove.
Context {A : Type} `{EqDecision A}.
Implicit Types (x y : A) (l : list A).

Lemma length_std_remove x l : length (std_remove x l) = length l.
Proof.
  unfold std_remove. rewrite length_app, length_drop.
  pose proof (length_filter (fun y => y <> x) l). lia.
Qed.

(** Every other element survives [std::remove]. *)
Lemma std_remove_keeps x y l : y <> x -> y ∈ l -> y ∈ std_remove x l.
Proof.
  intros Hne Hin. unfold std_remove. apply elem_of_app. left.
  by apply list_elem_of_filter.
Qed.

(** [std::remove] never invents an element. *)
Lemma std_remove_subset x y l : y ∈ std_remove x l -> y ∈ l.
Proof.
  unfold std_remove. intros [H|H]%elem_of_app.
  - by apply list_elem_of_filter in H as [_ ?].
  - apply list_elem_of_lookup in H as [i Hi]. rewrite lookup_drop in Hi.
    by eapply list_elem_of_lookup_2.
Qed.

(** When the removed element is the last one it stays in the vector. *)
Lemma std_remove_last x l : x ∈ std_remove x (l ++ [x]).
Proof.
  unfold std_remove. apply elem_of_app. right.
  rewrite filter_app. cbn. rewrite decide_False by naive_solver. rewrite app_nil_r.
  pose proof (length_filter (fun y => y <> x) l).
  rewrite drop_app_le by done. apply elem_of_app. right. set_solver.
Qed.

End std_remove.

Lemma Forall_sublist_of {A} (P : A -> Prop) (k l : list A) :
  k `sublist_of` l -> Forall P l -> Forall P k.
Proof.
  induction 1; [done|..]; rewrite ?Forall_cons; naive_solver.
Qed.

Section search.
Context {A : Type} (p : A -> bool).
Implicit Types (x : A) (l : list A).

Lemma find_first_Some l x : find_first p l = Some x -> x ∈ l /\ p x = true.
Proof.
  induction l as [|y l IH]; cbn; [done|]. destruct (p y) eqn:Hy.
  - intros [= ->]. split; [left | done].
  - intros [? ?]%IH. split; [by right | done].
Qed.

Lemma find_first_None l : find_first p l = None <-> forall x, x ∈ l -> p x = false.
Proof.
  induction l as [|y l IH]; cbn; [set_solver|]. destruct (p y) eqn:Hy.
  - split; [done|]. intros H. specialize (H y ltac:(left)). congruence.
  - rewrite IH. split; intros H x; [|by intros; apply H; right].
    rewrite elem_of_cons. intros [->|?]; auto.
Qed.

Lemma find_first_app l k :
  find_first p (l ++ k) = match find_first p l with Some x => Some x | None => find_first p k end.
Proof. induction l as [|y l IH]; cbn; [done|]. by destruct (p y). Qed.

Lemma erase_first_none l : find_first p l = None -> erase_first p l = l.
Proof.
  induction l as [|y l IH]; cbn; [done|]. destruct (p y); [done|].
  intros H. by rewrite IH.
Qed.

Lemma erase_first_split l x :
  find_first p l = Some x ->
  exists l1 l2, l = l1 ++ x :: l2 /\ find_first p l1 = None /\ erase_first p l = l1 ++ l2.
Proof.
  induction l as [|y l IH]; cbn; [done|]. destruct (p y) eqn:Hy.
  - intros [= ->]. by exists [], l.
  - intros (l1 & l2 & -> & H1 & H2)%IH. exists (y :: l1), l2. cbn. rewrite Hy, H2. done.
Qed.

Lemma erase_first_sublist l : erase_first p l `sublist_of` l.
Proof.
  induction l as [|y l IH]; cbn; [done|].
  destruct (p y); [by apply sublist_cons | by apply sublist_skip].
Qed.

Lemma elem_of_erase_first x l : x ∈ erase_first p l -> x ∈ l.
Proof. intros H. eapply elem_of_submseteq; [done|]. apply sublist_submseteq, erase_first_sublist. Qed.

Lemma elem_of_erase_first_ne x l : p x = false -> x ∈ l -> x ∈ erase_first p l.
Proof.
  intros Hx. induction l as [|y l IH]; cbn; [done|].
  rewrite elem_of_cons. intros [->|?].
  - rewrite Hx. left.
  - destruct (p y); [done | right; by apply IH].
Qed.

Lemma update_first_map {B} (g : A -> B) (f : A -> A) l :
  (forall x, p x = true -> g (f x) = g x) -> g <$> update_first p f l = g <$> l.
Proof.
  intros Hg. induction l as [|y l IH]; cbn; [done|].
  destruct (p y) eqn:Hy; cbn; [by rewrite Hg | by rewrite IH].
Qed.

Lemma Forall_update_first (P : A -> Prop) f l :
  Forall P l -> (forall x, P x -> p x = true -> P (f x)) -> Forall P (update_first p f l).
Proof.
  intros Hl Hf. induction Hl as [|y l Hy Hl IH]; cbn; [constructor|].
  destruct (p y) eqn:?; constructor; auto.
Qed.

(** A key without duplicates determines the element. *)
Lemma NoDup_fmap_inj_in {B} (g : A -> B) l x y :
  NoDup (g <$> l) -> x ∈ l -> y ∈ l -> g x = g y -> x = y.
Proof.
  induction l as [|z l IH]; cbn; [by intros _ ?%elem_of_nil|].
  rewrite NoDup_cons, !elem_of_cons. intros [Hz Hnd] [->|Hx] [->|Hy] Heq; [done| | |by apply IH].
  - exfalso. apply Hz. rewrite Heq. by apply list_elem_of_fmap_2.
  - exfalso. apply Hz. rewrite <-Heq. by apply list_elem_of_fmap_2.
Qed.

End search.

Section find_last.
Context {A : Type} (p : A -> bool).
Implicit Types (x : A) (l : list A).

Lemma find_last_from_spec l base found :
  (find_last_from p l base found = found /\ forall x, x ∈ l -> p x = false) \/
  (exists i x, find_last_from p l base found = base + Z.of_nat i /\ l !! i = Some x /\
     p x = true /\ forall j y, l !! j = Some y -> (i < j)%nat -> p y = false).
Proof.
  revert base found. induction l as [|y l IH]; intros base found; cbn.
  - left. split; [done|]. set_solver.
  - destruct (IH (base + 1) (if p y then base else found))
      as [[Hf Hall]|(i & x & Hf & Hi & Hp & Hj)]; rewrite Hf.
    + destruct (p y) eqn:Hy.
      * right. exists 0%nat, y. split; [lia|]. split_and!; [done..|].
        intros [|j] z; [lia|]. cbn. intros ? _. apply Hall. by eapply list_elem_of_lookup_2.
      * left. split; [done|]. intros x. rewrite elem_of_cons. intros [->|?]; auto.
    + right. exists (S i), x. split; [lia|]. split_and!; [done..|].
      intros [|j] z; [lia|]. cbn. intros ? ?. eapply Hj; [done | lia].
Qed.

(** The backward search returns -1 exactly when nothing matches. *)
Lemma find_last_none l : find_last p l = -1 <-> forall x, x ∈ l -> p x = false.
Proof.
  unfold find_last. destruct (find_last_from_spec l 0 (-1))
    as [[Hf Hall]|(i & x & Hf & Hi & Hp & _)]; rewrite Hf.
  - done.
  - split; [lia|]. intros H. apply list_elem_of_lookup_2, H in Hi. congruence.
Qed.

Lemma find_last_some l :
  find_last p l <> -1 ->
  exists x, l !! Z.to_nat (find_last p l) = Some x /\ p x = true /\ 0 <= find_last p l.
Proof.
  unfold find_last. intros Hne. destruct (find_last_from_spec l 0 (-1))
    as [[Hf Hall]|(i & x & Hf & Hi & Hp & _)]; [by rewrite Hf in Hne|].
  rewrite Hf. exists x. replace (Z.to_nat (0 + Z.of_nat i)) with i by lia.
  split_and!; [done..|lia].
Qed.

Lemma find_last_bound l : find_last p l < Z.of_nat (length l).
Proof.
  destruct (decide (find_last p l = -1)) as [->|Hne]; [lia|].
  destruct (find_last_some l Hne) as (x & Hx & _ & ?). apply lookup_lt_Some in Hx. lia.
Qed.

End find_last.

(** *** Bytes *)

Lemma cstr_app_nul s t : is_cstring s -> cstr (s ++ 0 :: t) = s.
Proof.
  induction 1 as [|b s Hb Hs IH]; cbn; [done|].
  rewrite (proj2 (Z.eqb_neq b 0)) by lia. by rewrite IH.
Qed.

Lemma cstr_cstring raw : Forall (fun b => 0 <= b < 256) raw -> is_cstring (cstr raw).
Proof.
  induction 1 as [|b s Hb Hs IH]; cbn; [constructor|].
  destruct (Z.eqb_spec b 0); [constructor|]. constructor; [lia | done].
Qed.

(** A string shorter than the buffer survives [strncpy] and back. *)
Lemma cstr_strncpy n s : is_cstring s -> (length s < n)%nat -> cstr (strncpy n s) = s.
Proof.
  intros Hs Hn. unfold strncpy. rewrite take_ge by lia.
  destruct (n - length s)%nat eqn:E; [lia|]. cbn. by apply cstr_app_nul.
Qed.

Lemma le_bytes_length k v : length (le_bytes k v) = k.
Proof. revert v. induction k as [|k IH]; intros v; cbn; [done|]. by rewrite IH. Qed.

Lemma le_value_bytes k v : le_value (le_bytes k v) = v mod 2 ^ (8 * Z.of_nat k).
Proof.
  revert v. induction k as [|k IH]; intros v; cbn [le_bytes le_value]; [by rewrite Z.mod_1_r|].
  rewrite IH. replace (8 * Z.of_nat (S k)) with (8 + 8 * Z.of_nat k) by lia.
  rewrite Z.pow_add_r by lia. change (2 ^ 8) with 256.
  rewrite Z.rem_mul_r; [lia|lia|]. apply Z.pow_pos_nonneg; lia.
Qed.

Lemma length_strncpy n s : length (strncpy n s) = n.
Proof. unfold strncpy. rewrite length_app, length_take, length_replicate. lia. Qed.

Lemma strcmp_refl s : strcmp s s = 0.
Proof. induction s; cbn; [done|]. by rewrite Z.eqb_refl. Qed.

Lemma strcmp_eq a b : is_cstring a -> is_cstring b -> strcmp a b = 0 -> a = b.
Proof.
  intros Ha. revert b. induction Ha as [|x a Hx Ha IH]; intros b Hb; destruct Hb as [|y b Hy Hb]; cbn.
  - done.
  - lia.
  - lia.
  - destruct (Z.eqb_spec x y) as [->|]; [|lia]. intros H. f_equal. by apply IH.
Qed.

Lemma strcmp_antisym a b : strcmp b a = - strcmp a b.
Proof.
  revert b. induction a as [|x a IH]; intros [|y b]; cbn; try lia.
  rewrite Z.eqb_sym. destruct (x =? y); [apply IH | lia].
Qed.

(** [strcmp] orders C strings. *)
Lemma strcmp_trans a b c :
  is_cstring a -> is_cstring b -> is_cstring c ->
  0 < strcmp a b -> 0 < strcmp b c -> 0 < strcmp a c.
Proof.
  intros Ha. revert b c.
  induction Ha as [|x a Hx Ha IH]; intros b c Hb Hc; destruct Hb as [|y b Hy Hb];
    destruct Hc as [|z c Hz Hc]; cbn; try lia.
  destruct (Z.eqb_spec x y), (Z.eqb_spec y z), (Z.eqb_spec x z); subst; try lia.
  by apply IH.
Qed.
