(* ===== verification/Layout.v ===== *)
(** Memory layout of the servicebroker wire messages.

    The messages of [include/dsi/private/servicebroker.h] are C structs and
    unions that are sent as raw bytes: the client library sends [sizeof(arg.i)]
    bytes and [Servicebroker::dispatch] compares the number of received bytes
    with [sizeof] of the whole union.  This file gives the layout rules of the
    common 32-bit ABIs (natural alignment, [aligned(8)] on [SPartyID]) as
    executable functions, the layout of every message, and the numeric command
    codes, which embed a size as well. *)

From S2P Require Import Prelude.

(** ** Layout rules *)

Inductive ctype :=
  | CInt (n : Z)                       (** an integer of [n] bytes, aligned to [n] *)
  | CArray (n : Z) (t : ctype)
  | CStruct (fields : list ctype)
  | CUnion (fields : list ctype)
  | CAligned (a : Z) (t : ctype).      (** [__attribute__((aligned(a)))] *)

Definition align_up (a x : Z) : Z := (x + a - 1) / a * a.

Fixpoint alignof (t : ctype) : Z :=
  match t with
  | CInt n => n
  | CArray _ t => alignof t
  | CStruct fs => foldr (fun f a => Z.max (alignof f) a) 1 fs
  | CUnion fs => foldr (fun f a => Z.max (alignof f) a) 1 fs
  | CAligned a t => Z.max a (alignof t)
  end.

Fixpoint sizeof (t : ctype) : Z :=
  match t with
  | CInt n => n
  | CArray n t => n * sizeof t
  | CStruct fs =>
    let a := foldr (fun f a => Z.max (alignof f) a) 1 fs in
    align_up a
      ((fix offsets (fs : list ctype) (off : Z) : Z :=
          match fs with
          | [] => off
          | f :: fs' => offsets fs' (align_up (alignof f) off + sizeof f)
          end) fs 0)
  | CUnion fs =>
    let a := foldr (fun f a => Z.max (alignof f) a) 1 fs in
    align_up a (foldr (fun f m => Z.max (sizeof f) m) 0 fs)
  | CAligned a t => align_up (Z.max a (alignof t)) (sizeof t)
  end.

(** ** The structs of servicebroker.h *)

Definition c_u16 : ctype := CInt 2.
Definition c_u32 : ctype := CInt 4.
Definition c_i32 : ctype := CInt 4.
Definition c_u64 : ctype := CInt 8.
Definition c_char : ctype := CInt 1.

Definition NAME_MAX : Z := 255.

Definition lay_SPartyID : ctype :=
  CStruct [CAligned 8 (CUnion [CStruct [c_u32; c_u32]; c_u64])].

Definition lay_SFNDInterfaceVersion : ctype := CStruct [c_u16; c_u16].

Definition lay_SFNDImplementationVersion : ctype := CStruct [c_u16; c_u16; c_u16].

Definition lay_SFNDInterfaceDescription : ctype :=
  CStruct [lay_SFNDInterfaceVersion; CArray (NAME_MAX + 1) c_char].

Definition lay_SFNDInterfaceDescriptionEx : ctype :=
  CStruct [lay_SFNDImplementationVersion; c_i32; c_i32; c_i32; lay_SPartyID;
           lay_SFNDInterfaceDescription].

Definition lay_SFNDChannelInfo : ctype := CStruct [c_u32; c_i32; c_i32].

Definition lay_SConnectionInfo : ctype :=
  CStruct [lay_SFNDInterfaceVersion; lay_SFNDChannelInfo; lay_SPartyID; lay_SPartyID].

Definition lay_SServerInfo : ctype := CStruct [lay_SFNDChannelInfo; lay_SPartyID].

Definition lay_SFNDPulseInfo : ctype := CStruct [c_i32; c_i32; c_i32; c_i32].

Definition lay_SFNDNotificationDescription : ctype :=
  CStruct [c_u32; lay_SFNDPulseInfo; lay_SFNDInterfaceDescription].

Definition lay_SFNDNotificationID : ctype := CStruct [c_u32; c_u32].

(** ** Commands and their argument unions

    A message argument is a union of the request [i] and the answer [o]. *)

Inductive dcmd :=
  | DCMD_FND_REGISTER_INTERFACE
  | DCMD_FND_UNREGISTER_INTERFACE
  | DCMD_FND_ATTACH_INTERFACE
  | DCMD_FND_DETACH_INTERFACE
  | DCMD_FND_NOTIFY_SERVER_DISCONNECT
  | DCMD_FND_NOTIFY_SERVER_AVAILABLE
  | DCMD_FND_NOTIFY_SERVER_AVAILABLE_EX
  | DCMD_FND_NOTIFY_CLIENT_DETACH
  | DCMD_FND_CLEAR_NOTIFICATION
  | DCMD_FND_GET_INTERFACELIST
  | DCMD_FND_NOTIFY_INTERFACELIST_CHANGE
  | DCMD_FND_MATCH_INTERFACELIST
  | DCMD_FND_NOTIFY_INTERFACELIST_MATCH
  | DCMD_FND_REGISTER_INTERFACE_EX
  | DCMD_FND_REGISTER_INTERFACE_GROUPID
  | DCMD_FND_REGISTER_MASTER_INTERFACE_EX
  | DCMD_FND_MASTER_PING
  | DCMD_FND_MASTER_PING_ID
  | DCMD_FND_ATTACH_INTERFACE_EXTENDED
  | DCMD_FND_GET_SERVER_INFORMATION.

#[export] Instance dcmd_eq_dec : EqDecision dcmd.
Proof. solve_decision. Defined.

Definition all_dcmds : list dcmd :=
  [DCMD_FND_REGISTER_INTERFACE; DCMD_FND_UNREGISTER_INTERFACE; DCMD_FND_ATTACH_INTERFACE;
   DCMD_FND_DETACH_INTERFACE; DCMD_FND_NOTIFY_SERVER_DISCONNECT;
   DCMD_FND_NOTIFY_SERVER_AVAILABLE; DCMD_FND_NOTIFY_SERVER_AVAILABLE_EX;
   DCMD_FND_NOTIFY_CLIENT_DETACH; DCMD_FND_CLEAR_NOTIFICATION; DCMD_FND_GET_INTERFACELIST;
   DCMD_FND_NOTIFY_INTERFACELIST_CHANGE; DCMD_FND_MATCH_INTERFACELIST;
   DCMD_FND_NOTIFY_INTERFACELIST_MATCH; DCMD_FND_REGISTER_INTERFACE_EX;
   DCMD_FND_REGISTER_INTERFACE_GROUPID; DCMD_FND_REGISTER_MASTER_INTERFACE_EX;
   DCMD_FND_MASTER_PING; DCMD_FND_MASTER_PING_ID; DCMD_FND_ATTACH_INTERFACE_EXTENDED;
   DCMD_FND_GET_SERVER_INFORMATION].

(** The request struct [arg.i] of each command. *)
Definition arg_i (c : dcmd) : ctype :=
  let V := lay_SFNDInterfaceVersion in
  let D := lay_SFNDInterfaceDescription in
  let W := lay_SFNDImplementationVersion in
  let P := lay_SFNDPulseInfo in
  match c with
  | DCMD_FND_REGISTER_INTERFACE => CStruct [V; D; W; c_i32; c_i32]
  | DCMD_FND_REGISTER_INTERFACE_GROUPID => CStruct [V; D; W; c_i32; c_i32; c_i32]
  | DCMD_FND_REGISTER_INTERFACE_EX => CStruct [V; W; c_i32; c_i32; c_i32]
  | DCMD_FND_REGISTER_MASTER_INTERFACE_EX => CStruct [V; c_i32]
  | DCMD_FND_UNREGISTER_INTERFACE => CStruct [V; c_u32; lay_SPartyID]
  | DCMD_FND_ATTACH_INTERFACE => CStruct [V; D]
  | DCMD_FND_ATTACH_INTERFACE_EXTENDED => CStruct [V; P; D]
  | DCMD_FND_GET_SERVER_INFORMATION => CStruct [V; D]
  | DCMD_FND_NOTIFY_SERVER_DISCONNECT => CStruct [V; c_u32; lay_SPartyID; P]
  | DCMD_FND_NOTIFY_SERVER_AVAILABLE => CStruct [V; P; D]
  | DCMD_FND_NOTIFY_SERVER_AVAILABLE_EX => CStruct [V; c_i32]
  | DCMD_FND_DETACH_INTERFACE => CStruct [V; c_u32; lay_SPartyID]
  | DCMD_FND_MASTER_PING_ID => CStruct [V; c_u32; c_u32]
  | DCMD_FND_NOTIFY_CLIENT_DETACH => CStruct [V; c_u32; lay_SPartyID; P]
  | DCMD_FND_CLEAR_NOTIFICATION => CStruct [V; c_u32]
  | DCMD_FND_GET_INTERFACELIST => CStruct [V; c_u32]
  | DCMD_FND_NOTIFY_INTERFACELIST_CHANGE => CStruct [V; P]
  | DCMD_FND_MATCH_INTERFACELIST => CStruct [V; c_u32; CArray (NAME_MAX + 1) c_char]
  | DCMD_FND_NOTIFY_INTERFACELIST_MATCH => CStruct [V; P; CArray (NAME_MAX + 1) c_char]
  | DCMD_FND_MASTER_PING => CStruct []
  end.

(** The answer struct [arg.o]; empty where the union has none. *)
Definition arg_o (c : dcmd) : ctype :=
  match c with
  | DCMD_FND_REGISTER_INTERFACE => CStruct [lay_SPartyID]
  | DCMD_FND_REGISTER_INTERFACE_GROUPID => CStruct [lay_SPartyID]
  | DCMD_FND_REGISTER_INTERFACE_EX => CStruct [CArray 1 lay_SPartyID]
  | DCMD_FND_REGISTER_MASTER_INTERFACE_EX => CStruct [CArray 1 lay_SPartyID]
  | DCMD_FND_ATTACH_INTERFACE => lay_SConnectionInfo
  | DCMD_FND_ATTACH_INTERFACE_EXTENDED => CStruct [lay_SConnectionInfo; c_u32]
  | DCMD_FND_GET_SERVER_INFORMATION => lay_SServerInfo
  | DCMD_FND_NOTIFY_SERVER_DISCONNECT => CStruct [c_u32]
  | DCMD_FND_NOTIFY_SERVER_AVAILABLE => CStruct [c_u32]
  | DCMD_FND_NOTIFY_SERVER_AVAILABLE_EX => CStruct [CArray 1 lay_SFNDNotificationID]
  | DCMD_FND_NOTIFY_CLIENT_DETACH => CStruct [c_u32]
  | DCMD_FND_GET_INTERFACELIST => CStruct [CArray 1 lay_SFNDInterfaceDescription]
  | DCMD_FND_NOTIFY_INTERFACELIST_CHANGE => CStruct [c_u32]
  | DCMD_FND_MATCH_INTERFACELIST => CStruct [CArray 1 lay_SFNDInterfaceDescription]
  | DCMD_FND_NOTIFY_INTERFACELIST_MATCH => CStruct [c_u32]
  | _ => CStruct []
  end.

Definition arg_union (c : dcmd) : ctype := CUnion [arg_i c; arg_o c].

(** [sizeof(rcvBuffer)]: the anonymous union of all arguments in [dispatch]. *)
Definition rcvBuffer_size : Z := sizeof (CUnion (arg_union <$> all_dcmds)).

(** ** Command codes *)

Definition DCMD_MISC : Z := 0x05.

(** [__DIOTF(kind, cmd, data)] cast to [dcmd_t]. *)
Definition DIOTF (kind cmd size : Z) : Z :=
  i32 (u32 (Z.shiftl size 16 + Z.shiftl kind 8 + cmd + 0xC0000000)).

(** [__DION(kind, cmd)] cast to [dcmd_t]. *)
Definition DION (kind cmd : Z) : Z := i32 (Z.shiftl kind 8 + cmd).

Definition dcmd_number (c : dcmd) : Z :=
  match c with
  | DCMD_FND_REGISTER_INTERFACE => 0
  | DCMD_FND_UNREGISTER_INTERFACE => 1
  | DCMD_FND_ATTACH_INTERFACE => 2
  | DCMD_FND_DETACH_INTERFACE => 3
  | DCMD_FND_NOTIFY_SERVER_DISCONNECT => 4
  | DCMD_FND_NOTIFY_SERVER_AVAILABLE => 5
  | DCMD_FND_NOTIFY_SERVER_AVAILABLE_EX => 5
  | DCMD_FND_NOTIFY_CLIENT_DETACH => 6
  | DCMD_FND_CLEAR_NOTIFICATION => 7
  | DCMD_FND_GET_INTERFACELIST => 8
  | DCMD_FND_NOTIFY_INTERFACELIST_CHANGE => 9
  | DCMD_FND_MATCH_INTERFACELIST => 10
  | DCMD_FND_NOTIFY_INTERFACELIST_MATCH => 11
  | DCMD_FND_REGISTER_INTERFACE_EX => 12
  | DCMD_FND_REGISTER_INTERFACE_GROUPID => 13
  | DCMD_FND_REGISTER_MASTER_INTERFACE_EX => 30
  | DCMD_FND_MASTER_PING => 31
  | DCMD_FND_MASTER_PING_ID => 32
  | DCMD_FND_ATTACH_INTERFACE_EXTENDED => 35
  | DCMD_FND_GET_SERVER_INFORMATION => 37
  end.

Definition dcmd_code (c : dcmd) : Z :=
  match c with
  | DCMD_FND_MASTER_PING => DION DCMD_MISC (dcmd_number c)
  | _ => DIOTF DCMD_MISC (dcmd_number c) (sizeof (arg_union c))
  end.

(** The [switch(cmd)] of [dispatch]: which command a received code selects. *)
Definition dcmd_of_code (code : Z) : option dcmd :=
  find_first (fun c => dcmd_code c =? code) all_dcmds.

(** ** Lemmas *)

Lemma all_dcmds_complete c : c ∈ all_dcmds.
Proof. destruct c; unfold all_dcmds; set_solver. Qed.

Lemma dcmd_code_nodup : NoDup (dcmd_code <$> all_dcmds).
Proof. apply (bool_decide_unpack _). vm_compute. done. Qed.

Lemma dcmd_code_inj c1 c2 : dcmd_code c1 = dcmd_code c2 -> c1 = c2.
Proof.
  destruct c1, c2; intros H; try reflexivity; vm_compute in H; discriminate H.
Qed.

(** ** Property *)

(** The command codes, which embed the size of the command's argument union, are
    pairwise distinct, so the code a client sends selects the command it means, even
    for the two commands that share the number 5. *)
Lemma dcmd_of_code_code c : dcmd_of_code (dcmd_code c) = Some c.
Proof.
  unfold dcmd_of_code.
  destruct (find_first (fun x => dcmd_code x =? dcmd_code c) all_dcmds) as [x|] eqn:E.
  - apply find_first_Some in E as [_ E]. f_equal. apply dcmd_code_inj. by apply Z.eqb_eq.
  - rewrite find_first_None in E. specialize (E c (all_dcmds_complete c)).
    by rewrite Z.eqb_refl in E.
Qed.
