(* ===== verification/Types.v ===== *)
(** Data types of the servicebroker protocol.

    [include/dsi/private/servicebroker.h] (party ids, versions, interface
    descriptions, message arguments, status codes),
    [src/servicebroker/InterfaceDescription.{hpp,cpp}] (the in-memory interface
    description and its conversions) and the two validity checks
    [Servicebroker::check].

    Integer fields are [Z] at the width of the C++ field; a [char name[256]]
    field is the list of its bytes.  [SPartyID]'s union of two 32-bit words and
    one 64-bit word is the pair of words, the 64-bit view being [globalID]
    (little-endian targets, as the servicebroker's wire format assumes). *)

From S2P Require Import Prelude.
From S2P Require Import Layout.

(** ** Party ids *)

Record SPartyID := mkParty { localID : Z; extendedID : Z }.

#[export] Instance eta_SPartyID : Eta SPartyID := fun r => mkParty (localID r) (extendedID r).
#[export] Instance SPartyID_eq_dec : EqDecision SPartyID.
Proof. solve_decision. Defined.
#[export] Program Instance SPartyID_countable : Countable SPartyID :=
  inj_countable' (fun p => (localID p, extendedID p)) (fun '(l, e) => mkParty l e) _.
Next Obligation. by intros []. Qed.

(** The 64-bit view of the union. *)
Definition globalID (p : SPartyID) : Z := localID p + extendedID p * 2 ^ 32.

(** [operator=(uint64_t)]. *)
Definition party_of_global (g : Z) : SPartyID := mkParty (u32 g) (u32 (g / 2 ^ 32)).

(** [operator==]: the source compares the local ids only. *)
Definition party_eqb (a b : SPartyID) : bool := localID a =? localID b.

(** Comparison of the 64-bit views, as the [globalID] tests of the lists do. *)
Definition global_eqb (a b : SPartyID) : bool := globalID a =? globalID b.

Definition is_party (p : SPartyID) : Prop := is_u32 (localID p) /\ is_u32 (extendedID p).

(** ** Versions, descriptions, channels, pulses *)

Record SFNDInterfaceVersion := mkVersion { v_majorVersion : Z; v_minorVersion : Z }.

Record SFNDImplementationVersion :=
  mkImplVersion { iv_majorVersion : Z; iv_minorVersion : Z; iv_patchlevel : Z }.

(** [sd_name] holds the [NAME_MAX + 1] bytes of the array. *)
Record SFNDInterfaceDescription := mkSFNDDescr {
  sd_version : SFNDInterfaceVersion;
  sd_name : bytes;
}.

Record SFNDInterfaceDescriptionEx := mkSFNDDescrEx {
  dx_implVersion : SFNDImplementationVersion;
  dx_chid : Z;
  dx_pid : Z;
  dx_nd : Z;
  dx_serverID : SPartyID;
  dx_ifDescription : SFNDInterfaceDescription;
}.

Record SFNDChannelInfo := mkChannel { ch_nid : Z; ch_pid : Z; ch_chid : Z }.

Record SConnectionInfo := mkConnInfo {
  ci_ifVersion : SFNDInterfaceVersion;
  ci_channel : SFNDChannelInfo;
  ci_serverID : SPartyID;
  ci_clientID : SPartyID;
}.

(** The result of an attach by TCP. *)
Record STCPConnectionInfo := mkTCPConnInfo {
  ti_ifVersion : SFNDInterfaceVersion;
  ti_ipaddress : Z;
  ti_port : Z;
  ti_serverID : SPartyID;
  ti_clientID : SPartyID;
}.

(** What the names of TCP services end in. *)
Definition tcp_suffix : bytes := bytes_of_string "_tcp".

Record SServerInfo := mkServerInfo { si_channel : SFNDChannelInfo; si_serverID : SPartyID }.

Record SFNDPulseInfo := mkPulse { p_code : Z; p_value : Z; p_chid : Z; p_pid : Z }.

Record SFNDNotificationDescription := mkNotDescr {
  nd_cookie : Z;
  nd_pulse : SFNDPulseInfo;
  nd_ifDescription : SFNDInterfaceDescription;
}.

Record SFNDNotificationID := mkNotID { ni_cookie : Z; ni_notificationID : Z }.

#[export] Instance SFNDInterfaceVersion_eq_dec : EqDecision SFNDInterfaceVersion.
Proof. solve_decision. Defined.
#[export] Instance SFNDImplementationVersion_eq_dec : EqDecision SFNDImplementationVersion.
Proof. solve_decision. Defined.
#[export] Instance SFNDInterfaceDescription_eq_dec : EqDecision SFNDInterfaceDescription.
Proof. solve_decision. Defined.
#[export] Instance SFNDPulseInfo_eq_dec : EqDecision SFNDPulseInfo.
Proof. solve_decision. Defined.
#[export] Instance SFNDChannelInfo_eq_dec : EqDecision SFNDChannelInfo.
Proof. solve_decision. Defined.

(** [memset(&pulse, 0, sizeof(pulse))]. *)
Definition zero_pulse : SFNDPulseInfo := mkPulse 0 0 0 0.

(** ** Requests: the [i] part of each argument union *)

Record RegisterArg := mkRegisterArg {
  ra_ifDescription : SFNDInterfaceDescription;
  ra_implVersion : SFNDImplementationVersion;
  ra_chid : Z;
  ra_pid : Z;
}.

Record RegisterGroupIDArg := mkRegisterGroupIDArg {
  rg_ifDescription : SFNDInterfaceDescription;
  rg_implVersion : SFNDImplementationVersion;
  rg_chid : Z;
  rg_pid : Z;
  rg_grpid : Z;
}.

Record RegisterExArg := mkRegisterExArg {
  re_implVersion : SFNDImplementationVersion;
  re_chid : Z;
  re_pid : Z;
  re_ifCount : Z;
}.

(** ** Status codes *)

Inductive SBStatus :=
  | FNDOK
  | FNDVersionMismatch
  | FNDUnknownInterface
  | FNDInterfaceAlreadyRegistered
  | FNDInvalidServerID
  | FNDInvalidClientID
  | FNDInvalidNotificationID
  | FNDBadArgument
  | FNDBadFoundationVersion
  | FNDRegularExpression
  | FNDAccessDenied
  | FNDUnknownCommand
  | FNDInternalError.

#[export] Instance SBStatus_eq_dec : EqDecision SBStatus.
Proof. solve_decision. Defined.

(** The numeric value of the enumerator. *)
Definition sb_code (st : SBStatus) : Z :=
  match st with
  | FNDOK => 0
  | FNDVersionMismatch => 1
  | FNDUnknownInterface => 2
  | FNDInterfaceAlreadyRegistered => 3
  | FNDInvalidServerID => 4
  | FNDInvalidClientID => 5
  | FNDInvalidNotificationID => 6
  | FNDBadArgument => 7
  | FNDBadFoundationVersion => 8
  | FNDRegularExpression => 9
  | FNDAccessDenied => 10
  | FNDUnknownCommand => 11
  | FNDInternalError => 12
  end.

(** ** InterfaceDescription *)

Record InterfaceDescription := mkIfDescr {
  id_name : bytes;
  id_majorVersion : Z;
  id_minorVersion : Z;
}.

#[export] Instance InterfaceDescription_eq_dec : EqDecision InterfaceDescription.
Proof. solve_decision. Defined.

(** [InterfaceDescription()]. *)
Definition empty_ifDescr : InterfaceDescription := mkIfDescr [] 0 0.

(** The converting constructor and assignment from the wire struct. *)
Definition ifDescr_of_SFND (d : SFNDInterfaceDescription) : InterfaceDescription :=
  mkIfDescr (cstr (sd_name d)) (v_majorVersion (sd_version d)) (v_minorVersion (sd_version d)).

(** [operator SFNDInterfaceDescription()]: the versions are narrowed to 16 bit. *)
Definition SFND_of_ifDescr (d : InterfaceDescription) : SFNDInterfaceDescription :=
  mkSFNDDescr (mkVersion (u16 (id_majorVersion d)) (u16 (id_minorVersion d)))
    (strncpy (Z.to_nat (NAME_MAX + 1)) (id_name d)).

(** [operator== (const InterfaceDescription&)]. *)
Definition ifDescr_eqb (a b : InterfaceDescription) : bool :=
  bool_decide (id_name a = id_name b)
  && (id_majorVersion a =? id_majorVersion b)
  && (id_minorVersion a =? id_minorVersion b).

(** [operator>]. *)
Definition ifDescr_gtb (a b : InterfaceDescription) : bool :=
  if 0 <? strcmp (id_name a) (id_name b) then true
  else if bool_decide (id_name a = id_name b) then
    if id_majorVersion b <? id_majorVersion a then true
    else if id_majorVersion a =? id_majorVersion b
         then id_minorVersion b <? id_minorVersion a
         else false
  else false.

(** ** Servicebroker::check *)

Definition DSI_SERVICEBROKER_VERSION_MAJOR : Z := 4.
Definition DSI_SERVICEBROKER_VERSION_MINOR : Z := 0.

Definition sb_version : SFNDInterfaceVersion :=
  mkVersion DSI_SERVICEBROKER_VERSION_MAJOR DSI_SERVICEBROKER_VERSION_MINOR.

Definition check_version (v : SFNDInterfaceVersion) : bool :=
  (v_majorVersion v =? DSI_SERVICEBROKER_VERSION_MAJOR)
  && (v_minorVersion v <=? DSI_SERVICEBROKER_VERSION_MINOR).

Definition iscntrl (c : Z) : bool := (c <? 0x20) || (c =? 0x7f).

(** The scan of [check(const SFNDInterfaceDescription&)].  When no NUL occurs in
    the array the final test ['\0' == *ptr] reads the byte behind it, [after]. *)
Fixpoint check_name (raw : bytes) (after : Z) : bool :=
  match raw with
  | [] => after =? 0
  | b :: raw' =>
    if b =? 0 then true
    else if iscntrl b || negb (Z.land b 0x80 =? 0) then false
    else check_name raw' after
  end.

Definition check_ifDescription (d : SFNDInterfaceDescription) (after : Z) : bool :=
  check_name (sd_name d) after
  && (negb (v_majorVersion (sd_version d) =? 0) || negb (v_minorVersion (sd_version d) =? 0)).

(** ** Constants of config.h and NotificationList.hpp *)

Definition SB_LOCAL_NODE_ADDRESS : Z := 0.
Definition SB_LOCAL_IP_ADDRESS : Z := 0x7f000001.
Definition SB_UNKNOWN_USER_ID : Z := -1.
Definition SB_UNKNOWN_GROUP_ID : Z := -1.
Definition SB_UNKNOWN_IP_ADDRESS : Z := -1.

Definition PULSE_MASTER_CONNECTED : Z := 10.
Definition PULSE_MASTER_DISCONNECTED : Z := 11.
Definition PULSE_JOB_EXECUTED : Z := 12.
Definition PULSE_MASTER_SERVER_AVAILABLE : Z := 20.
Definition PULSE_MASTER_SERVER_DISCONNECT : Z := 21.
Definition PULSE_MASTER_CLIENT_DETACH : Z := 22.
Definition PULSE_MASTER_SERVERLIST_CHANGE : Z := 23.
Definition PULSE_MASTER_ATTACH_EXTENDED : Z := 24.

(** A name a client may register: printable ASCII, short enough for the NUL. *)
Definition valid_name (s : bytes) : Prop :=
  Forall (fun b => 0x20 <= b < 0x7f) s /\ (length s <= 255)%nat.

(** A well-formed in-memory description: versions fit their 16-bit wire fields. *)
Definition valid_ifDescr (d : InterfaceDescription) : Prop :=
  valid_name (id_name d) /\ 0 <= id_majorVersion d < 2 ^ 16 /\ 0 <= id_minorVersion d < 2 ^ 16.

(** ** Lemmas *)

Lemma party_of_global_globalID p : is_party p -> party_of_global (globalID p) = p.
Proof.
  destruct p as [l e]. unfold is_party, is_u32, party_of_global, globalID, u32. cbn.
  intros [Hl He]. f_equal.
  - rewrite Z.mod_add by lia. apply Z.mod_small; lia.
  - rewrite Z.div_add by lia. rewrite (Z.div_small l) by lia. apply Z.mod_small. lia.
Qed.

Lemma global_eqb_eq a b : is_party a -> is_party b -> global_eqb a b = true <-> a = b.
Proof.
  intros Ha Hb. unfold global_eqb. rewrite Z.eqb_eq. split; [|by intros ->].
  intros H. rewrite <-(party_of_global_globalID a), <-(party_of_global_globalID b) by done.
  by rewrite H.
Qed.

Lemma global_eqb_refl a : global_eqb a a = true.
Proof. apply Z.eqb_refl. Qed.

Lemma is_party_global g : is_party (party_of_global g).
Proof. split; apply u32_range. Qed.

Lemma valid_name_cstring s : valid_name s -> is_cstring s.
Proof. intros [H _]. unfold is_cstring. eapply Forall_impl; [done|]. cbn. lia. Qed.

Lemma check_name_terminated raw after :
  check_name raw after = true -> 0 ∈ raw \/ after = 0.
Proof.
  induction raw as [|b raw IH]; cbn; [intros; right; by apply Z.eqb_eq|].
  destruct (Z.eqb_spec b 0) as [->|]; [intros; left; left|].
  destruct (_ || _); [done|]. intros [?|?]%IH; [left; by right | by right].
Qed.

Lemma land_80 b : 0 <= b < 256 -> Z.land b 0x80 = 0 -> b < 0x80.
Proof.
  intros Hb H. destruct (Z.lt_ge_cases b 0x80); [done|exfalso].
  assert (Hbit : Z.testbit b 7 = true).
  { rewrite Z.testbit_true by lia. change (2 ^ 7) with 128.
    assert (b / 128 = 1) as -> by (symmetry; apply Z.div_unique with (b - 128); lia). done. }
  assert (Z.testbit (Z.land b 0x80) 7 = true) as Hl by (rewrite Z.land_spec, Hbit; done).
  by rewrite H in Hl.
Qed.

(** The scan accepts only printable ASCII. *)
Lemma check_name_printable raw after :
  Forall (fun b => 0 <= b < 256) raw -> check_name raw after = true ->
  Forall (fun b => 0x20 <= b < 0x7f) (cstr raw).
Proof.
  induction 1 as [|b raw Hb Hraw IH]; cbn; [constructor|].
  destruct (Z.eqb_spec b 0); [constructor|].
  destruct (iscntrl b || negb (Z.land b 128 =? 0)) eqn:E; [done|].
  intros H. constructor; [|by apply IH].
  unfold iscntrl in E. reflect_bools. pose proof (land_80 b Hb). lia.
Qed.

Lemma length_cstr_le raw : (length (cstr raw) <= length raw)%nat.
Proof. induction raw as [|b raw IH]; cbn; [lia|]. destruct (b =? 0); cbn; lia. Qed.

Lemma length_cstr_lt raw : 0 ∈ raw -> (length (cstr raw) < length raw)%nat.
Proof.
  induction raw as [|b raw IH]; cbn; [set_solver|].
  rewrite elem_of_cons. destruct (Z.eqb_spec b 0); cbn; [lia|].
  intros [?|?%IH]; [done | lia].
Qed.

(** ** Properties *)

(** An interface description that goes out on the wire and comes back is unchanged,
    as long as its name fits the 256-byte field and its versions fit 16 bits. *)
Lemma ifDescr_roundtrip d : valid_ifDescr d -> ifDescr_of_SFND (SFND_of_ifDescr d) = d.
Proof.
  intros (Hn & Hma & Hmi). destruct d as [n ma mi]. unfold ifDescr_of_SFND, SFND_of_ifDescr.
  cbn [id_name id_majorVersion id_minorVersion sd_name sd_version v_majorVersion v_minorVersion] in *.
  f_equal.
  - apply cstr_strncpy; [by apply valid_name_cstring|]. destruct Hn as [_ Hlen].
    change (Z.to_nat (NAME_MAX + 1)) with 256%nat. lia.
  - unfold u16. apply Z.mod_small. lia.
  - unfold u16. apply Z.mod_small. lia.
Qed.

Lemma ifDescr_roundtrip_witness :
  ifDescr_of_SFND (SFND_of_ifDescr (mkIfDescr (bytes_of_string "Media") 1 2)) =
    mkIfDescr (bytes_of_string "Media") 1 2.
Proof.
  apply ifDescr_roundtrip. split; [|cbn; lia].
  split; [apply (bool_decide_unpack _); by vm_compute | cbn; lia].
Defined.

(** What [Servicebroker::check] accepts is a terminated string of printable ASCII
    characters with a version other than 0.0, provided the byte behind the array is
    not a NUL by accident. *)
Lemma check_ifDescription_valid d after :
  Forall (fun b => 0 <= b < 256) (sd_name d) -> length (sd_name d) = 256%nat -> after <> 0 ->
  check_ifDescription d after = true ->
  valid_name (id_name (ifDescr_of_SFND d)) /\ 0 ∈ sd_name d /\
  (v_majorVersion (sd_version d), v_minorVersion (sd_version d)) <> (0, 0).
Proof.
  intros Hb Hlen Hafter [Hck Hv]%andb_prop.
  destruct (check_name_terminated _ _ Hck) as [H0|?]; [|done].
  split_and!; [|done|].
  - split; [by eapply check_name_printable|]. cbn.
    pose proof (length_cstr_lt _ H0). lia.
  - intros [= Hma Hmi]. by rewrite Hma, Hmi in Hv.
Qed.

Lemma check_ifDescription_valid_witness :
  let d := SFND_of_ifDescr (mkIfDescr (bytes_of_string "Media") 1 2) in
  check_ifDescription d 1 = true /\ valid_name (id_name (ifDescr_of_SFND d)).
Proof.
  intros d. split; [by vm_compute|].
  destruct (check_ifDescription_valid d 1) as [Hv _];
    [apply (bool_decide_unpack _); by vm_compute | by vm_compute | done | by vm_compute | exact Hv].
Defined.

(** A name that fills the whole 256-byte array without a terminator is accepted
    exactly when the byte behind the array happens to be a NUL: the check reads one
    byte past the end. *)
Lemma check_name_reads_past_end raw after :
  Forall (fun b => 0x20 <= b < 0x7f) raw -> check_name raw after = (after =? 0).
Proof.
  induction 1 as [|b raw Hb Hraw IH]; cbn [check_name]; [done|].
  rewrite (proj2 (Z.eqb_neq b 0)) by lia.
  assert (Hl : Z.land b 0x80 = 0).
  { apply Z.bits_inj'. intros i Hi. rewrite Z.land_spec, Z.bits_0.
    change 0x80 with (2 ^ 7). destruct (decide (i = 7)) as [->|Hne].
    - assert (Z.testbit b 7 = false) as ->; [|done].
      rewrite Z.testbit_false by done. rewrite Z.div_small by (change (2 ^ 7) with 128; lia). done.
    - by rewrite Z.pow2_bits_false, andb_false_r by lia. }
  unfold iscntrl. rewrite Hl, (proj2 (Z.ltb_ge b 0x20)), (proj2 (Z.eqb_neq b 0x7f)) by lia.
  apply IH.
Qed.

Lemma check_name_reads_past_end_witness :
  check_name (replicate 256 65) 0 = true /\ check_name (replicate 256 65) 1 = false.
Proof.
  split; (rewrite check_name_reads_past_end; [done|]); apply (bool_decide_unpack _); by vm_compute.
Defined.
