(* ===== verification/ServerList.v ===== *)
(** The table of registered servers: [src/servicebroker/ServerList.{hpp,cpp}].

    [ServerList] keeps its entries in a [std::list] sorted by name, in descending
    [strcmp] order, and searches by name with [std::lower_bound].  The binary
    search is modelled as libstdc++ runs it; [lower_bound_partition] relates it
    to the partition point.  [sl_wf] is the table's invariant, [abs] its
    abstraction to a finite map from names to entries, and the class [NameTable]
    the contract the servicebroker relies on. *)

From Stdlib Require Import Sorted.
From S2P Require Import Prelude.
From S2P Require Import Layout.
From S2P Require Import Types.

(** ** Entries *)

Record ServerListEntry := mkServer {
  sv_id : Z;
  sv_partyID : SPartyID;
  sv_masterID : SPartyID;
  sv_nid : Z;
  sv_pid : Z;
  sv_chid : Z;
  sv_ifDescription : InterfaceDescription;
  sv_implVersion : SFNDImplementationVersion;
  sv_grpid : Z;
  sv_local : bool;
}.

#[export] Instance eta_ServerListEntry : Eta ServerListEntry := fun r =>
  mkServer (sv_id r) (sv_partyID r) (sv_masterID r) (sv_nid r) (sv_pid r) (sv_chid r)
    (sv_ifDescription r) (sv_implVersion r) (sv_grpid r) (sv_local r).
#[export] Instance ServerListEntry_eq_dec : EqDecision ServerListEntry.
Proof. solve_decision. Defined.

(** [ServerListEntry()].  The constructor leaves [implVersion] uninitialised:
    [uninit] is what the memory held.  [id] is the incremented [sNextID]. *)
Definition new_ServerListEntry (uninit : SFNDImplementationVersion) (id : Z) : ServerListEntry :=
  mkServer id (party_of_global 0) (party_of_global 0) 0 0 0 empty_ifDescr uninit
    SB_UNKNOWN_GROUP_ID false.

(** [operator const char*()]. *)
Definition sv_name (e : ServerListEntry) : bytes := id_name (sv_ifDescription e).

(** ** std::lower_bound

    The loop of libstdc++ over positions [first, first + len). *)

Fixpoint lower_bound_loop {A} (comp : A -> bool) (l : list A) (fuel first len : nat) : nat :=
  match fuel with
  | O => first
  | S fuel' =>
    if bool_decide (len = 0)%nat then first
    else
      let half := Nat.div2 len in
      match l !! (first + half)%nat with
      | Some x =>
        if comp x then lower_bound_loop comp l fuel' (first + half + 1) (len - half - 1)
        else lower_bound_loop comp l fuel' first half
      | None => first
      end
  end.

Definition lower_bound {A} (comp : A -> bool) (l : list A) : nat :=
  lower_bound_loop comp l (S (length l)) 0 (length l).
Arguments lower_bound : simpl never.

(** ** ServerList *)

Record ServerList := mkServerList { sl_mEntries : list ServerListEntry; sl_mTotalCounter : Z }.

#[export] Instance eta_ServerList : Eta ServerList := fun r =>
  mkServerList (sl_mEntries r) (sl_mTotalCounter r).

Definition empty_ServerList : ServerList := mkServerList [] 0.

(** [compare(lhs, rhs)]. *)
Definition compare (lhs rhs : bytes) : bool := 0 <? strcmp lhs rhs.

Definition sl_add (e : ServerListEntry) (l : ServerList) : ServerList :=
  let pos := lower_bound (fun x => compare (sv_name x) (sv_name e)) (sl_mEntries l) in
  mkServerList (take pos (sl_mEntries l) ++ e :: drop pos (sl_mEntries l))
    (u32 (sl_mTotalCounter l + 1)).

(** [find(const char* ifName)]. *)
Definition sl_find_name (name : bytes) (l : ServerList) : option ServerListEntry :=
  let pos := lower_bound (fun x => compare (sv_name x) name) (sl_mEntries l) in
  match sl_mEntries l !! pos with
  | Some e => if negb (compare name (sv_name e)) then Some e else None
  | None => None
  end.

(** [find(const SFNDInterfaceDescription&)]: same name, same major version and
    at least the requested minor version. *)
Definition sl_find_ifDescr (d : SFNDInterfaceDescription) (l : ServerList)
    : option ServerListEntry :=
  match sl_find_name (cstr (sd_name d)) l with
  | Some e =>
    if (id_majorVersion (sv_ifDescription e) =? v_majorVersion (sd_version d))
       && (v_minorVersion (sd_version d) <=? id_minorVersion (sv_ifDescription e))
    then Some e else None
  | None => None
  end.

(** [find(const SPartyID&)]. *)
Definition sl_find_party (id : SPartyID) (l : ServerList) : option ServerListEntry :=
  find_first (fun e => global_eqb id (sv_partyID e)) (sl_mEntries l).

Definition sl_findByLocalID (lid : Z) (l : ServerList) : option ServerListEntry :=
  find_first (fun e => lid =? localID (sv_partyID e)) (sl_mEntries l).

Definition invalid_master_with (lid : Z) (e : ServerListEntry) : bool :=
  (lid =? localID (sv_partyID e)) && (localID (sv_masterID e) =? 2 ^ 32 - 1).

Definition sl_findByLocalIDandInvalidMasterID (lid : Z) (l : ServerList)
    : option ServerListEntry :=
  find_first (invalid_master_with lid) (sl_mEntries l).

(** [find(int32_t id)]. *)
Definition sl_find_id (id : Z) (l : ServerList) : option ServerListEntry :=
  find_first (fun e => id =? sv_id e) (sl_mEntries l).

Definition sl_remove (id : SPartyID) (l : ServerList) : ServerList :=
  l <| sl_mEntries := erase_first (fun e => global_eqb (sv_partyID e) id) (sl_mEntries l) |>.

Definition sl_clearMasterIDs (l : ServerList) : ServerList :=
  l <| sl_mEntries := (fun e => e <| sv_masterID := party_of_global 0 |>) <$> sl_mEntries l |>.

(** A write through the pointer that [find(const SPartyID&)] returned. *)
Definition sl_update_party (id : SPartyID) (f : ServerListEntry -> ServerListEntry)
    (l : ServerList) : ServerList :=
  l <| sl_mEntries := update_first (fun e => global_eqb id (sv_partyID e)) f (sl_mEntries l) |>.

Definition sl_size (l : ServerList) : Z := Z.of_nat (length (sl_mEntries l)).

(** ** Invariant, abstraction, contract *)

Definition name_gt (a b : ServerListEntry) : Prop := 0 < strcmp (sv_name a) (sv_name b).

(** Strictly descending names: sorted and without duplicates. *)
Definition entries_wf (l : list ServerListEntry) : Prop :=
  StronglySorted name_gt l /\ Forall (fun e => is_cstring (sv_name e)) l.

Definition sl_wf (l : ServerList) : Prop := entries_wf (sl_mEntries l).

(** The table as a finite map from interface names. *)
Definition abs_entries (l : list ServerListEntry) : gmap bytes ServerListEntry :=
  list_to_map ((fun e => (sv_name e, e)) <$> l).
Arguments abs_entries : simpl never.

Definition sl_abs (l : ServerList) : gmap bytes ServerListEntry := abs_entries (sl_mEntries l).

(** What the request handlers rely on: a table that behaves as a finite map. *)
Class NameTable (T : Type) := {
  nt_valid : T -> Prop;
  nt_map : T -> gmap bytes ServerListEntry;
  nt_find : bytes -> T -> option ServerListEntry;
  nt_add : ServerListEntry -> T -> T;
  nt_remove : SPartyID -> T -> T;
  nt_find_spec : forall t n, nt_valid t -> is_cstring n -> nt_find n t = nt_map t !! n;
  nt_add_valid : forall t e, nt_valid t -> is_cstring (sv_name e) ->
    nt_find (sv_name e) t = None -> nt_valid (nt_add e t);
  nt_add_spec : forall t e, nt_valid t -> is_cstring (sv_name e) ->
    nt_find (sv_name e) t = None -> nt_map (nt_add e t) = <[sv_name e := e]> (nt_map t);
  nt_remove_valid : forall t id, nt_valid t -> nt_valid (nt_remove id t);
  nt_remove_spec : forall t id n e, nt_valid t -> nt_map t !! n = Some e ->
    (forall n' e', nt_map t !! n' = Some e' -> global_eqb (sv_partyID e') id = true -> n' = n) ->
    global_eqb (sv_partyID e) id = true -> nt_map (nt_remove id t) = delete n (nt_map t);
}.

(** ** The binary search *)

Lemma lower_bound_loop_partition {A} (comp : A -> bool) (l : list A) (k : nat) :
  (forall i x, l !! i = Some x -> comp x = true <-> (i < k)%nat) ->
  forall fuel first len, (len < fuel)%nat -> (first <= k <= first + len)%nat ->
  (first + len <= length l)%nat -> lower_bound_loop comp l fuel first len = k.
Proof.
  intros Hk. induction fuel as [|fuel IH]; intros first len Hfuel Hin Hlen; [lia|].
  cbn. case_bool_decide as H0; [lia|].
  assert (Hhalf : (Nat.div2 len < len)%nat) by (apply Nat.lt_div2; lia).
  destruct (l !! (first + Nat.div2 len)%nat) as [x|] eqn:Hx;
    [|apply lookup_ge_None in Hx; lia].
  pose proof (Hk _ _ Hx) as Hc. destruct (comp x) eqn:Hcx.
  - assert (first + Nat.div2 len < k)%nat by (by apply Hc).
    clear Hc Hcx Hx. generalize dependent (Nat.div2 len). intros h **. apply IH; lia.
  - assert (~ (first + Nat.div2 len < k)%nat) by (intros Hl; by apply Hc in Hl).
    clear Hc Hcx Hx. generalize dependent (Nat.div2 len). intros h **. apply IH; lia.
Qed.

(** On a partitioned range [std::lower_bound] returns the partition point. *)
Lemma lower_bound_partition {A} (comp : A -> bool) (l : list A) (k : nat) :
  (k <= length l)%nat -> (forall i x, l !! i = Some x -> comp x = true <-> (i < k)%nat) ->
  lower_bound comp l = k.
Proof. intros ? Hk. apply (lower_bound_loop_partition comp l k Hk); lia. Qed.

(** ** The sorted table *)

Lemma compare_spec a b : compare a b = true <-> 0 < strcmp a b.
Proof. apply Z.ltb_lt. Qed.

Lemma entries_wf_cons e l :
  entries_wf (e :: l) <->
  entries_wf l /\ is_cstring (sv_name e) /\ Forall (fun x => 0 < strcmp (sv_name e) (sv_name x)) l.
Proof.
  unfold entries_wf. rewrite Forall_cons. split.
  - intros [[? ?]%StronglySorted_inv [? ?]]. done.
  - intros [[? ?] [? ?]]. split; [by constructor | done].
Qed.

(** The position a name belongs to splits the table. *)
Lemma entries_split l name :
  entries_wf l -> is_cstring name ->
  exists l1 l2, l = l1 ++ l2 /\
    Forall (fun e => 0 < strcmp (sv_name e) name) l1 /\
    Forall (fun e => strcmp (sv_name e) name <= 0) l2.
Proof.
  intros Hwf Hn. induction l as [|e l IH]; [by exists [], []|].
  apply entries_wf_cons in Hwf as (Hwf & He & Hgt).
  destruct (Z.lt_ge_cases 0 (strcmp (sv_name e) name)) as [Hlt|Hge].
  - destruct IH as (l1 & l2 & -> & H1 & H2); [done|]. exists (e :: l1), l2.
    split_and!; [done | by constructor | done].
  - exists [], (e :: l). split_and!; [done | constructor |]. constructor; [done|].
    destruct Hwf as [_ Hcs]. clear IH.
    rewrite Forall_forall in Hgt, Hcs |- *. intros x Hx.
    destruct (Z.lt_ge_cases 0 (strcmp (sv_name x) name)) as [Hlt|]; [|done].
    pose proof (strcmp_trans _ _ _ He (Hcs x Hx) Hn (Hgt x Hx) Hlt). lia.
Qed.

Lemma lower_bound_split (l1 l2 : list ServerListEntry) name :
  Forall (fun e => 0 < strcmp (sv_name e) name) l1 ->
  Forall (fun e => strcmp (sv_name e) name <= 0) l2 ->
  lower_bound (fun x => compare (sv_name x) name) (l1 ++ l2) = length l1.
Proof.
  intros H1 H2. apply lower_bound_partition; [rewrite length_app; lia|].
  intros i x Hi. rewrite compare_spec. rewrite Forall_forall in H1, H2.
  apply lookup_app_Some in Hi as [Hi|[Hle Hi]].
  - split; intros _; [by apply lookup_lt_Some in Hi|]. apply H1. by eapply list_elem_of_lookup_2.
  - apply list_elem_of_lookup_2, H2 in Hi. split; lia.
Qed.

(** Where [add] inserts and what [find] inspects, in terms of the split. *)
Lemma sl_add_split l1 l2 n (e : ServerListEntry) :
  Forall (fun x => 0 < strcmp (sv_name x) (sv_name e)) l1 ->
  Forall (fun x => strcmp (sv_name x) (sv_name e) <= 0) l2 ->
  sl_add e (mkServerList (l1 ++ l2) n) = mkServerList (l1 ++ e :: l2) (u32 (n + 1)).
Proof.
  intros H1 H2. unfold sl_add. cbn. rewrite (lower_bound_split l1 l2) by done.
  by rewrite take_app_length, drop_app_length.
Qed.

Lemma sl_find_name_split l1 l2 n name :
  Forall (fun x => 0 < strcmp (sv_name x) name) l1 ->
  Forall (fun x => strcmp (sv_name x) name <= 0) l2 ->
  sl_find_name name (mkServerList (l1 ++ l2) n) =
  match l2 with
  | e :: _ => if negb (compare name (sv_name e)) then Some e else None
  | [] => None
  end.
Proof.
  intros H1 H2. unfold sl_find_name. cbn. rewrite (lower_bound_split l1 l2) by done.
  rewrite lookup_app_r by lia. rewrite Nat.sub_diag. by destruct l2.
Qed.

(** *** The abstraction *)

Lemma abs_entries_Some l n e :
  entries_wf l -> abs_entries l !! n = Some e <-> e ∈ l /\ sv_name e = n.
Proof.
  induction l as [|x l IH]; intros Hwf; unfold abs_entries; cbn; [|fold (abs_entries l)].
  - rewrite lookup_empty. split; [done|]. by intros [?%not_elem_of_nil _].
  - apply entries_wf_cons in Hwf as (Hwf & Hx & Hgt). rewrite lookup_insert.
    rewrite elem_of_cons. case_decide as Hn.
    + split; [intros [= ->]; auto|]. intros [[->|He] Hne]; [done|exfalso].
      rewrite Forall_forall in Hgt. apply Hgt in He. subst n. rewrite Hne, strcmp_refl in He. lia.
    + rewrite IH by done. split; [intros [? ?]; auto|]. intros [[->|He] Hne]; [by subst|done].
Qed.

Lemma abs_entries_None l n :
  entries_wf l -> abs_entries l !! n = None <-> forall e, e ∈ l -> sv_name e <> n.
Proof.
  intros Hwf. split.
  - intros H e He Hn. assert (abs_entries l !! n = Some e) by by apply abs_entries_Some. congruence.
  - intros H. destruct (abs_entries l !! n) as [e|] eqn:E; [|done].
    apply abs_entries_Some in E as [? ?]; [|done]. by destruct (H e).
Qed.

Lemma entries_wf_app l1 l2 :
  entries_wf (l1 ++ l2) <->
  entries_wf l1 /\ entries_wf l2 /\ (forall a b, a ∈ l1 -> b ∈ l2 -> name_gt a b).
Proof.
  induction l1 as [|x l1 IH]; cbn.
  - split; [|naive_solver]. intros H. split_and!; [|done|set_solver].
    split; [constructor | done].
  - rewrite !entries_wf_cons, IH, Forall_app. setoid_rewrite elem_of_cons.
    rewrite !Forall_forall. unfold name_gt. naive_solver.
Qed.

Lemma entries_wf_sublist l k : k `sublist_of` l -> entries_wf l -> entries_wf k.
Proof.
  induction 1 as [|x k l Hs IH|x k l Hs IH]; [done|..]; rewrite ?entries_wf_cons.
  - intros (Hwf & Hx & Hgt). split_and!; [by apply IH | done |].
    rewrite Forall_forall in Hgt |- *. intros y Hy. apply Hgt.
    by eapply elem_of_submseteq, sublist_submseteq.
  - intros (Hwf & _). by apply IH.
Qed.

Lemma entries_wf_nodup l : entries_wf l -> NoDup (sv_name <$> l).
Proof.
  induction l as [|x l IH]; [constructor|]. rewrite entries_wf_cons, fmap_cons.
  intros (Hwf & _ & Hgt). constructor; [|by apply IH]. intros (y & Heq & Hy)%list_elem_of_fmap.
  rewrite Forall_forall in Hgt. apply Hgt in Hy. rewrite Heq, strcmp_refl in Hy. lia.
Qed.

(** *** add, find, remove *)

Section table.
Context (l : ServerList) (Hwf : sl_wf l).

Lemma sl_find_name_spec n : is_cstring n -> sl_find_name n l = sl_abs l !! n.
Proof.
  intros Hn. destruct l as [es c]. unfold sl_wf, sl_abs in *. cbn in *.
  destruct (entries_split es n Hwf Hn) as (l1 & l2 & -> & H1 & H2).
  rewrite sl_find_name_split by done. symmetry.
  assert (Hl1 : forall e, e ∈ l1 -> sv_name e <> n).
  { intros e He <-. rewrite Forall_forall in H1. apply H1 in He. rewrite strcmp_refl in He. lia. }
  destruct l2 as [|e l2].
  - apply abs_entries_None; [done|]. intros e. rewrite elem_of_app.
    intros [?|[]%elem_of_nil]; auto.
  - apply entries_wf_app in Hwf as Hwf'. destruct Hwf' as (_ & Hwf2 & _).
    apply entries_wf_cons in Hwf2 as (Hwf2 & He & Hgt).
    apply Forall_cons in H2 as [He2 H2]. pose proof (strcmp_antisym (sv_name e) n).
    destruct (compare n (sv_name e)) eqn:Hc; cbn.
    + apply compare_spec in Hc. apply abs_entries_None; [done|]. intros x.
      rewrite elem_of_app, elem_of_cons. intros [?|[->|Hx]] <-; [by eapply Hl1|..].
      * rewrite strcmp_refl in Hc. lia.
      * rewrite Forall_forall in Hgt. apply Hgt in Hx. lia.
    + apply Z.ltb_ge in Hc. apply abs_entries_Some; [done|]. split; [set_solver|].
      apply strcmp_eq; [done..|lia].
Qed.

Lemma sl_add_wf e :
  is_cstring (sv_name e) -> sl_find_name (sv_name e) l = None -> sl_wf (sl_add e l).
Proof.
  intros He Hf. rewrite sl_find_name_spec in Hf by done. destruct l as [es c].
  unfold sl_wf, sl_abs in *. cbn in Hwf, Hf.
  destruct (entries_split es (sv_name e) Hwf He) as (l1 & l2 & -> & H1 & H2).
  rewrite sl_add_split by done. cbn. rewrite abs_entries_None in Hf by done.
  apply entries_wf_app in Hwf as (Hw1 & Hw2 & H12). apply entries_wf_app.
  rewrite entries_wf_cons. split_and!; [done..| |].
  - destruct Hw2 as [_ Hcs]. rewrite Forall_forall in H2, Hcs |- *. intros x Hx.
    assert (strcmp (sv_name x) (sv_name e) <> 0) as Hne.
    { intros Heq. apply strcmp_eq in Heq; [|by apply Hcs|done]. apply (Hf x); [set_solver|done]. }
    rewrite strcmp_antisym. specialize (H2 x Hx). lia.
  - rewrite Forall_forall in H1. intros a b Ha. rewrite elem_of_cons.
    intros [->|?]; [by apply H1 | by apply H12].
Qed.

Lemma sl_add_abs e :
  is_cstring (sv_name e) -> sl_find_name (sv_name e) l = None ->
  sl_abs (sl_add e l) = <[sv_name e := e]> (sl_abs l).
Proof.
  intros He Hf. pose proof (sl_add_wf e He Hf) as Hwf'. revert Hwf'.
  rewrite sl_find_name_spec in Hf by done. destruct l as [es c]. unfold sl_wf, sl_abs in *.
  cbn in Hwf, Hf. destruct (entries_split es (sv_name e) Hwf He) as (l1 & l2 & -> & H1 & H2).
  rewrite sl_add_split by done. cbn. intros Hwf'. apply map_eq. intros n.
  apply option_eq. intros x. rewrite abs_entries_Some, lookup_insert_Some, abs_entries_Some by done.
  rewrite abs_entries_None in Hf by done. rewrite !elem_of_app, elem_of_cons in *.
  split; [|naive_solver]. intros [Hx Hn].
  destruct (decide (sv_name e = n)) as [Hen|]; [|naive_solver].
  left. split; [done|]. destruct Hx as [Hx|[->|Hx]]; [exfalso|done|exfalso].
  - apply (Hf x); [set_solver|congruence].
  - apply (Hf x); [set_solver|congruence].
Qed.

Lemma sl_remove_wf id : sl_wf (sl_remove id l).
Proof. eapply entries_wf_sublist; [apply erase_first_sublist | done]. Qed.

Lemma sl_remove_abs id n e :
  sl_abs l !! n = Some e -> global_eqb (sv_partyID e) id = true ->
  (forall n' e', sl_abs l !! n' = Some e' -> global_eqb (sv_partyID e') id = true -> n' = n) ->
  sl_abs (sl_remove id l) = delete n (sl_abs l).
Proof.
  intros He Hid Huniq. pose proof (sl_remove_wf id) as Hwf'. revert Hwf'.
  destruct l as [es c]. unfold sl_wf, sl_abs in *. cbn in *. intros Hwf'.
  set (p := fun e : ServerListEntry => global_eqb (sv_partyID e) id) in *.
  assert (Hfst : find_first p es = Some e).
  { destruct (find_first p es) as [y|] eqn:Hy.
    - apply find_first_Some in Hy as [Hy Hp]. f_equal.
      apply abs_entries_Some in He as [Hin Hn]; [|done].
      assert (sv_name y = n) as Hyn by (eapply Huniq; [by apply abs_entries_Some|done]).
      assert (abs_entries es !! n = Some y) as H1 by by apply abs_entries_Some.
      assert (abs_entries es !! n = Some e) as H2 by by apply abs_entries_Some. congruence.
    - apply abs_entries_Some in He as [Hin Hn]; [|done]. rewrite find_first_None in Hy.
      apply Hy in Hin. unfold p in Hin. congruence. }
  destruct (erase_first_split p es e Hfst) as (l1 & l2 & -> & _ & Her). rewrite Her in *.
  apply map_eq. intros m. apply option_eq. intros x.
  rewrite lookup_delete_Some, !abs_entries_Some by done.
  apply abs_entries_Some in He as [_ Hn]; [|done]. subst n.
  apply entries_wf_app in Hwf as (_ & Hw2 & H12). apply entries_wf_cons in Hw2 as (_ & _ & Hgt).
  assert (Hne : forall y, y ∈ l1 ++ l2 -> sv_name y <> sv_name e).
  { rewrite Forall_forall in Hgt. intros y [Hy|Hy]%elem_of_app Heq.
    - specialize (H12 y e Hy ltac:(left)). unfold name_gt in H12. rewrite Heq, strcmp_refl in H12. lia.
    - apply Hgt in Hy. rewrite Heq, strcmp_refl in Hy. lia. }
  split.
  - intros [Hx Hm]. split_and!; [intros Hem; apply (Hne x Hx); congruence | set_solver | done].
  - intros (Hem & Hx & Hm). split; [|done]. assert (x <> e) by congruence. set_solver.
Qed.

End table.

#[export] Instance ServerList_NameTable : NameTable ServerList := {|
  nt_valid := sl_wf;
  nt_map := sl_abs;
  nt_find := sl_find_name;
  nt_add := sl_add;
  nt_remove := sl_remove;
  nt_find_spec := fun l n Hwf => sl_find_name_spec l Hwf n;
  nt_add_valid := fun l e Hwf => sl_add_wf l Hwf e;
  nt_add_spec := fun l e Hwf => sl_add_abs l Hwf e;
  nt_remove_valid := fun l id Hwf => sl_remove_wf l Hwf id;
  nt_remove_spec := fun l id n e Hwf He Hu Hid => sl_remove_abs l Hwf id n e He Hid Hu;
|}.

(** Updates that do not touch the description keep the table well formed. *)
Lemma entries_wf_map l k : sv_name <$> k = sv_name <$> l -> entries_wf l -> entries_wf k.
Proof.
  revert k. induction l as [|x l IH]; intros [|y k] Heq; try done.
  injection Heq as Hxy Hkl. rewrite !entries_wf_cons. intros (Hwf & Hx & Hgt).
  split_and!; [by apply IH | by rewrite Hxy |].
  rewrite Hxy. clear -Hgt Hkl. revert k Hkl. induction Hgt; intros [|z k] [=]; constructor; [|auto].
  congruence.
Qed.

Lemma sl_clearMasterIDs_wf l : sl_wf l -> sl_wf (sl_clearMasterIDs l).
Proof. apply entries_wf_map. cbn. rewrite <-list_fmap_compose. by apply list_fmap_ext. Qed.

Lemma sl_update_party_wf id f l :
  (forall e, sv_ifDescription (f e) = sv_ifDescription e) -> sl_wf l ->
  sl_wf (sl_update_party id f l).
Proof.
  intros Hf. apply entries_wf_map. cbn. apply update_first_map. intros e _.
  unfold sv_name. by rewrite Hf.
Qed.

#[export] Hint Resolve sl_remove_wf sl_clearMasterIDs_wf : dsi.

(** ** Properties *)

(** [std::lower_bound] on a range partitioned by the comparison returns the partition
    point: the loop terminates within its fuel and finds the position. *)
Lemma lower_bound_correct {A} (comp : A -> bool) (l1 l2 : list A) :
  Forall (fun x => comp x = true) l1 -> Forall (fun x => comp x = false) l2 ->
  lower_bound comp (l1 ++ l2) = length l1.
Proof.
  intros H1 H2. rewrite Forall_forall in H1, H2.
  apply lower_bound_partition; [rewrite length_app; lia|]. intros i x Hi.
  apply lookup_app_Some in Hi as [Hi|[Hle Hi]].
  - split; intros _; [by apply lookup_lt_Some in Hi|]. apply H1. by eapply list_elem_of_lookup_2.
  - apply list_elem_of_lookup_2, H2 in Hi. split; [congruence | lia].
Qed.

Lemma lower_bound_correct_witness :
  lower_bound (fun x => compare x (bytes_of_string "b"))
    ([bytes_of_string "d"; bytes_of_string "c"] ++ [bytes_of_string "b"; bytes_of_string "a"]) = 2%nat.
Proof.
  apply (lower_bound_correct (fun x => compare x (bytes_of_string "b"))
    [bytes_of_string "d"; bytes_of_string "c"]); repeat constructor.
Defined.

(** C21. The server table refines a finite map from interface names: on a well-formed
    table [add] is insertion, [remove] deletion, and the binary search of [find] is
    lookup; all of them keep the table sorted and free of duplicates. *)
Theorem ServerList_refines_map l e id n x m :
  sl_wf l -> is_cstring (sv_name e) -> is_cstring m -> sl_find_name (sv_name e) l = None ->
  sl_abs l !! n = Some x -> global_eqb (sv_partyID x) id = true ->
  (forall n' e', sl_abs l !! n' = Some e' -> global_eqb (sv_partyID e') id = true -> n' = n) ->
  sl_wf (sl_add e l) /\ sl_abs (sl_add e l) = <[sv_name e := e]> (sl_abs l) /\
  sl_wf (sl_remove id l) /\ sl_abs (sl_remove id l) = delete n (sl_abs l) /\
  sl_find_name m l = sl_abs l !! m.
Proof.
  intros Hwf He Hm Hf Hx Hid Hu. split_and!.
  - by apply sl_add_wf.
  - by apply sl_add_abs.
  - by apply sl_remove_wf.
  - by apply (sl_remove_abs l Hwf id n x).
  - by apply sl_find_name_spec.
Qed.

Lemma ServerList_refines_map_witness :
  let mk s i := mkServer 1 (mkParty i 0) (party_of_global 0) 0 0 0
                  (mkIfDescr (bytes_of_string s) 1 0) (mkImplVersion 0 0 0) (-1) false in
  let l := mkServerList [mk "b"%string 1; mk "a"%string 2] 2 in
  sl_abs (sl_remove (mkParty 2 0) l) = delete (bytes_of_string "a") (sl_abs l).
Proof.
  intros mk l.
  assert (Hwf : sl_wf l).
  { split; [repeat constructor|]. apply (bool_decide_unpack _). by vm_compute. }
  destruct (ServerList_refines_map l (mk "c"%string 3) (mkParty 2 0) (bytes_of_string "a") (mk "a"%string 2)
    (bytes_of_string "b") Hwf) as (_ & _ & _ & H & _); [..|exact H].
  - apply (bool_decide_unpack _). by vm_compute.
  - apply (bool_decide_unpack _). by vm_compute.
  - by vm_compute.
  - by vm_compute.
  - by vm_compute.
  - intros n' e' [Hin <-]%abs_entries_Some Hg; [|exact Hwf]. apply list_elem_of_In in Hin.
    destruct Hin as [<-|[<-|[]]]; [by vm_compute in Hg | done].
Defined.

(** [find] for a description returns the entry of that name when its major version
    is the requested one and its minor version is at least the requested one, and
    nothing otherwise. *)
Lemma sl_find_ifDescr_spec d l :
  sl_wf l -> is_cstring (cstr (sd_name d)) ->
  forall e, sl_find_ifDescr d l = Some e <->
    sl_abs l !! cstr (sd_name d) = Some e /\
    id_majorVersion (sv_ifDescription e) = v_majorVersion (sd_version d) /\
    v_minorVersion (sd_version d) <= id_minorVersion (sv_ifDescription e).
Proof.
  intros Hwf Hn e. unfold sl_find_ifDescr. rewrite sl_find_name_spec by done.
  destruct (sl_abs l !! _) as [x|] eqn:Hx; [|naive_solver].
  destruct (_ && _) eqn:E.
  - apply andb_prop in E as [E1%Z.eqb_eq E2%Z.leb_le]. naive_solver.
  - apply andb_false_iff in E. rewrite Z.eqb_neq, Z.leb_gt in E. split; [done|].
    intros ([= ->] & H1 & H2). destruct E; lia.
Qed.

Lemma sl_find_ifDescr_spec_witness :
  let e := mkServer 1 (mkParty 1 0) (party_of_global 0) 0 0 0
             (mkIfDescr (bytes_of_string "a") 1 3) (mkImplVersion 0 0 0) (-1) false in
  let l := mkServerList [e] 1 in
  sl_find_ifDescr (SFND_of_ifDescr (mkIfDescr (bytes_of_string "a") 1 2)) l = Some e.
Proof.
  intros e l. apply sl_find_ifDescr_spec.
  - split; [repeat constructor|]. apply (bool_decide_unpack _). by vm_compute.
  - apply (bool_decide_unpack _). by vm_compute.
  - split; [by vm_compute|]. split; [done|]. by vm_compute.
Defined.
