(* ===== verification/ConfigFile.v ===== *)
(** The configuration file: [src/servicebroker/ConfigFile.{hpp,cpp}].

    [load] reads an .ini like file with the sections [[LOCAL]], [[GLOBAL]] and
    [[FORWARD]]; the queries decide whether a service is visible on its own node
    only and whether it is forwarded to the parent servicebroker.  A file is the
    list of its bytes; [fgets] with the 1024 byte buffer, comment removal and
    right trimming are modelled as the C code performs them ([char] signed, as on
    the x86 targets). *)

From S2P Require Import Prelude.
From S2P Require Import Layout.
From S2P Require Import Types.

(** ** State *)

Record ConfigFile := mkConfig {
  cf_mLocalServices : gset bytes;
  cf_mGlobalServices : gset bytes;
  cf_mForwardServices : gset bytes;
  cf_mTreeMode : bool;
}.

#[export] Instance eta_ConfigFile : Eta ConfigFile := fun r =>
  mkConfig (cf_mLocalServices r) (cf_mGlobalServices r) (cf_mForwardServices r) (cf_mTreeMode r).

Definition empty_ConfigFile : ConfigFile := mkConfig ∅ ∅ ∅ false.

(** ** Queries *)

Definition isLocalService (c : ConfigFile) (servicename : bytes) : bool :=
  if negb (bool_decide (cf_mGlobalServices c = ∅))
  then negb (bool_decide (servicename ∈ cf_mGlobalServices c))
  else bool_decide (servicename ∈ cf_mLocalServices c).

Definition setTreeMode (mode : bool) (c : ConfigFile) : ConfigFile := c <| cf_mTreeMode := mode |>.

Definition star : bytes := bytes_of_string "*".

Definition forwardService (c : ConfigFile) (servicename : bytes) : bool :=
  if cf_mTreeMode c then
    if bool_decide (cf_mForwardServices c = {[ star ]}) then true
    else if (4 <? Z.of_nat (length servicename)) && ends_with tcp_suffix servicename
    then bool_decide (take (length servicename - 4) servicename ∈ cf_mForwardServices c)
    else bool_decide (servicename ∈ cf_mForwardServices c)
  else true.

(** ** Loading *)

Definition c_newline : Z := 10.
Definition c_hash : Z := 35.
Definition c_lbracket : Z := 91.
Definition c_rbracket : Z := 93.

(** One [fgets(line, n + 1, f)]: at most [n] bytes, up to and including a newline;
    the bytes read and the rest of the file. *)
Fixpoint fgets (n : nat) (f : bytes) : bytes * bytes :=
  match n, f with
  | O, _ => ([], f)
  | _, [] => ([], [])
  | S n', b :: f' =>
    if b =? c_newline then ([b], f')
    else let '(l, rest) := fgets n' f' in (b :: l, rest)
  end.

(** The bytes before the first [c], as [strchr] finds it. *)
Fixpoint before_chr (c : Z) (s : bytes) : option bytes :=
  match s with
  | [] => None
  | b :: s' => if b =? c then Some [] else (fun p => b :: p) <$> before_chr c s'
  end.

(** [*end <= 0x20] on a signed [char]. *)
Definition trimmed_char (b : Z) : bool := (b <=? 0x20) || (0x80 <=? b).

Fixpoint drop_while {A} (p : A -> bool) (l : list A) : list A :=
  match l with
  | [] => []
  | x :: l' => if p x then drop_while p l' else l
  end.

Definition right_trim (s : bytes) : bytes := reverse (drop_while trimmed_char (reverse s)).

(** The line buffer after comment removal and trimming. *)
Definition clean_line (raw : bytes) : bytes :=
  let line := cstr raw in
  right_trim (match before_chr c_hash line with Some p => p | None => line end).

Inductive LoadState := STATE_IGNORE | STATE_LOCAL | STATE_GLOBAL | STATE_FORWARD.

#[export] Instance LoadState_eq_dec : EqDecision LoadState.
Proof. solve_decision. Defined.

(** The state selected by a section line. *)
Definition section_state (line : bytes) : LoadState :=
  match before_chr c_rbracket line with
  | Some p =>
    let sectionName := drop 1 p in
    if bool_decide (sectionName = bytes_of_string "LOCAL") then STATE_LOCAL
    else if bool_decide (sectionName = bytes_of_string "GLOBAL") then STATE_GLOBAL
    else if bool_decide (sectionName = bytes_of_string "FORWARD") then STATE_FORWARD
    else STATE_IGNORE
  | None => STATE_IGNORE
  end.

(** The body of the loop for one line read by [fgets]. *)
Definition load_line (raw : bytes) (sc : LoadState * ConfigFile) : LoadState * ConfigFile :=
  let '(state, c) := sc in
  let line := clean_line raw in
  match line with
  | [] => (state, c)
  | b :: _ =>
    if b =? c_lbracket then (section_state line, c)
    else
      match state with
      | STATE_LOCAL => (state, c <| cf_mLocalServices ::= union {[ line ]} |>)
      | STATE_GLOBAL => (state, c <| cf_mGlobalServices ::= union {[ line ]} |>)
      | STATE_FORWARD => (state, c <| cf_mForwardServices ::= union {[ line ]} |>)
      | STATE_IGNORE => (state, c)
      end
  end.

(** [while(!feof(f))] with fuel: every turn consumes at least one byte. *)
Fixpoint load_loop (fuel : nat) (f : bytes) (sc : LoadState * ConfigFile)
    : LoadState * ConfigFile :=
  match fuel, f with
  | _, [] => sc
  | O, _ => sc
  | S fuel', _ => let '(raw, rest) := fgets 1023 f in load_loop fuel' rest (load_line raw sc)
  end.

(** [load]: [None] when the file cannot be opened, which leaves the sets alone. *)
Definition load (file : option bytes) (c : ConfigFile) : ConfigFile :=
  match file with
  | None => c
  | Some f => snd (load_loop (length f) f (STATE_IGNORE, c))
  end.

(** ** Lemmas *)

Lemma fgets_shorter n f :
  f <> [] -> (length (snd (fgets (S n) f)) < length f)%nat.
Proof.
  assert (Hle : forall n f, (length (snd (fgets n f)) <= length f)%nat).
  { induction n0 as [|n0 IH]; intros [|b f0]; cbn; [lia..|].
    destruct (b =? c_newline); cbn; [lia|]. specialize (IH f0).
    destruct (fgets n0 f0); cbn in *. lia. }
  destruct f as [|b f]; [done|]. intros _. cbn.
  destruct (b =? c_newline); cbn; [lia|]. specialize (Hle n f). destruct (fgets n f); cbn in *. lia.
Qed.

Lemma fgets_app n f : fst (fgets n f) ++ snd (fgets n f) = f.
Proof.
  revert f. induction n as [|n IH]; intros [|b f]; cbn; [done..|].
  destruct (Z.eqb_spec b c_newline) as [->|]; [done|].
  specialize (IH f). destruct (fgets n f). cbn in *. by rewrite IH.
Qed.

(** The fuel of [load] is enough: more of it changes nothing. *)
Lemma load_loop_fuel f fuel sc :
  (length f <= fuel)%nat -> load_loop fuel f sc = load_loop (length f) f sc.
Proof.
  remember (length f) as n eqn:Hn. revert f fuel sc Hn.
  induction n as [n IH] using lt_wf_ind. intros f fuel sc Hn Hle. subst n.
  destruct f as [|b f]; [by destruct fuel|].
  destruct fuel as [|fuel]; [cbn in Hle; lia|].
  pose proof (fgets_shorter 1022 (b :: f) ltac:(done)) as Hlt.
  cbn [load_loop length]. destruct (fgets 1023 (b :: f)) as [raw rest]. cbn [snd length] in *.
  rewrite (IH (length rest)) by (done || lia). symmetry. apply (IH (length rest)); (done || lia).
Qed.

Lemma drop_while_app {A} (p : A -> bool) l k :
  Forall (fun x => p x = true) l -> drop_while p (l ++ k) = drop_while p k.
Proof. induction 1 as [|x l Hx Hl IH]; cbn; [done|]. by rewrite Hx. Qed.

Lemma before_chr_app c s t :
  c ∉ s -> before_chr c (s ++ c :: t) = Some s.
Proof.
  induction s as [|b s IH]; cbn.
  - by rewrite Z.eqb_refl.
  - rewrite elem_of_cons. intros Hn. destruct (Z.eqb_spec b c); [naive_solver|].
    rewrite IH by naive_solver. done.
Qed.

Lemma before_chr_none c s : c ∉ s -> before_chr c s = None.
Proof.
  induction s as [|b s IH]; cbn; [done|]. rewrite elem_of_cons. intros Hn.
  destruct (Z.eqb_spec b c); [naive_solver|]. rewrite IH by naive_solver. done.
Qed.

(** A name that ends in a printable character survives the trim of what follows. *)
Lemma right_trim_name s b ws :
  trimmed_char b = false -> Forall (fun c => trimmed_char c = true) ws ->
  right_trim ((s ++ [b]) ++ ws) = s ++ [b].
Proof.
  intros Hb Hws. unfold right_trim. rewrite reverse_app.
  rewrite drop_while_app by by apply Forall_reverse.
  rewrite reverse_app. cbn. rewrite Hb.
  rewrite <-(reverse_involutive (s ++ [b])). f_equal. by rewrite reverse_app.
Qed.

(** ** A rendered file *)

(** A service name [load] reads back: printable, no comment sign, not a section. *)
Definition service_name (s : bytes) : Prop :=
  s <> [] /\ Forall (fun b => 0x20 < b < 0x7f /\ b <> c_hash) s /\ head s <> Some c_lbracket /\
  (length s < 1023)%nat.

Definition render_line (s : bytes) : bytes := s ++ [c_newline].

Definition render_section (title : string) (names : list bytes) : bytes :=
  render_line ([c_lbracket] ++ bytes_of_string title ++ [c_rbracket]) ++ concat (render_line <$> names).

Definition render (locals globals forwards : list bytes) : bytes :=
  render_section "LOCAL" locals ++ render_section "GLOBAL" globals ++ render_section "FORWARD" forwards.

Lemma fgets_line n s rest :
  c_newline ∉ s -> (length s < n)%nat -> fgets n (s ++ c_newline :: rest) = (s ++ [c_newline], rest).
Proof.
  revert n. induction s as [|b s IH]; intros [|n] Hs Hn; cbn in Hn |- *; try lia; [done|].
  rewrite not_elem_of_cons in Hs. destruct Hs as [Hb Hs].
  rewrite (proj2 (Z.eqb_neq b c_newline)) by congruence. rewrite IH by (done || lia). done.
Qed.

Lemma cstr_no_nul s : 0 ∉ s -> cstr s = s.
Proof.
  induction s as [|b s IH]; cbn; [done|]. rewrite not_elem_of_cons. intros [Hb Hs].
  rewrite (proj2 (Z.eqb_neq b 0)) by congruence. by rewrite IH.
Qed.

Lemma load_loop_line fuel s rest sc :
  c_newline ∉ s -> (length s < 1023)%nat -> (length (render_line s ++ rest) <= fuel)%nat ->
  load_loop fuel (render_line s ++ rest) sc =
  load_loop (length rest) rest (load_line (render_line s) sc).
Proof.
  intros Hs Hn Hf. rewrite load_loop_fuel by done.
  assert (Happ : render_line s ++ rest = s ++ c_newline :: rest)
    by (unfold render_line; by rewrite <-app_assoc).
  destruct (length (render_line s ++ rest)) as [|fuel'] eqn:Hlen.
  { unfold render_line in Hlen. rewrite !length_app in Hlen. cbn in Hlen. lia. }
  assert (Hle : (length rest <= fuel')%nat).
  { unfold render_line in Hlen. rewrite !length_app in Hlen. cbn in Hlen. lia. }
  pose proof (fgets_line 1023 s rest Hs Hn) as Hg. rewrite Happ.
  destruct (s ++ c_newline :: rest) as [|b f] eqn:Ef; [by destruct s|].
  cbn [load_loop]. rewrite Hg. by apply load_loop_fuel.
Qed.

Lemma service_name_clean s : service_name s -> clean_line (render_line s) = s.
Proof.
  intros (Hne & Hall & _ & _). unfold clean_line, render_line.
  assert (Hno : forall b, b ∈ s -> 0x20 < b < 0x7f /\ b <> c_hash) by by apply Forall_forall.
  rewrite cstr_no_nul, before_chr_none.
  - destruct (exists_last Hne) as (s' & b & ->). apply right_trim_name.
    + destruct (Hno b) as [? _]; [set_solver|]. unfold trimmed_char.
      by rewrite (proj2 (Z.leb_gt _ _)), (proj2 (Z.leb_gt _ _)) by lia.
    + repeat constructor.
  - rewrite elem_of_app. intros [H%Hno|H%list_elem_of_singleton]; [by destruct H | done].
  - rewrite elem_of_app. intros [H%Hno|H%list_elem_of_singleton]; [lia | done].
Qed.

Lemma service_name_line s : service_name s -> c_newline ∉ s /\ (length s < 1023)%nat.
Proof.
  intros (_ & Hall & _ & Hlen). split; [|done]. rewrite Forall_forall in Hall.
  intros H%Hall. unfold c_newline in H. lia.
Qed.

(** The effect of one name in the three sections. *)
Definition add_service (st : LoadState) (s : bytes) (c : ConfigFile) : ConfigFile :=
  match st with
  | STATE_LOCAL => c <| cf_mLocalServices ::= union {[ s ]} |>
  | STATE_GLOBAL => c <| cf_mGlobalServices ::= union {[ s ]} |>
  | STATE_FORWARD => c <| cf_mForwardServices ::= union {[ s ]} |>
  | STATE_IGNORE => c
  end.

Lemma load_line_name st s c :
  service_name s -> load_line (render_line s) (st, c) = (st, add_service st s c).
Proof.
  intros Hs. pose proof Hs as (Hne & _ & Hh & _). unfold load_line.
  rewrite (service_name_clean s Hs). destruct s as [|b s]; [done|].
  rewrite (proj2 (Z.eqb_neq b c_lbracket)) by (cbn in Hh; congruence). by destruct st.
Qed.

Definition add_services (st : LoadState) (names : list bytes) (c : ConfigFile) : ConfigFile :=
  foldl (fun c s => add_service st s c) c names.

Lemma load_loop_names st names rest c fuel :
  Forall service_name names -> (length (concat (render_line <$> names) ++ rest) <= fuel)%nat ->
  load_loop fuel (concat (render_line <$> names) ++ rest) (st, c) =
  load_loop (length rest) rest (st, add_services st names c).
Proof.
  intros Hall. revert c fuel. induction Hall as [|s names Hs Hall IH]; intros c fuel Hf; cbn in Hf |- *.
  - by apply load_loop_fuel.
  - rewrite <-app_assoc in Hf |- *. destruct (service_name_line s Hs) as [Hnl Hlen].
    rewrite load_loop_line, load_line_name by done. by apply IH.
Qed.

Lemma load_loop_section title st names rest c0 st0 fuel :
  load_line (render_line ([c_lbracket] ++ bytes_of_string title ++ [c_rbracket])) (st0, c0) = (st, c0) ->
  c_newline ∉ [c_lbracket] ++ bytes_of_string title ++ [c_rbracket] ->
  (length ([c_lbracket] ++ bytes_of_string title ++ [c_rbracket]) < 1023)%nat ->
  Forall service_name names -> (length (render_section title names ++ rest) <= fuel)%nat ->
  load_loop fuel (render_section title names ++ rest) (st0, c0) =
  load_loop (length rest) rest (st, add_services st names c0).
Proof.
  intros Hl Hnl Hlen Hall Hf. unfold render_section in *. rewrite <-app_assoc in *.
  rewrite load_loop_line, Hl by done. by apply load_loop_names.
Qed.

Lemma add_services_local names c :
  add_services STATE_LOCAL names c = c <| cf_mLocalServices ::= union (list_to_set names) |>.
Proof.
  revert c. induction names as [|s names IH]; intros c; cbn [add_services foldl].
  - destruct c. cbn. f_equal. set_solver.
  - etransitivity; [apply IH|]. destruct c. cbn. f_equal. set_solver.
Qed.

Lemma add_services_global names c :
  add_services STATE_GLOBAL names c = c <| cf_mGlobalServices ::= union (list_to_set names) |>.
Proof.
  revert c. induction names as [|s names IH]; intros c; cbn [add_services foldl].
  - destruct c. cbn. f_equal. set_solver.
  - etransitivity; [apply IH|]. destruct c. cbn. f_equal. set_solver.
Qed.

Lemma add_services_forward names c :
  add_services STATE_FORWARD names c = c <| cf_mForwardServices ::= union (list_to_set names) |>.
Proof.
  revert c. induction names as [|s names IH]; intros c; cbn [add_services foldl].
  - destruct c. cbn. f_equal. set_solver.
  - etransitivity; [apply IH|]. destruct c. cbn. f_equal. set_solver.
Qed.

(** C22. Writing three lists of service names as a configuration file and loading it adds
    exactly these names to the three sets; loading terminates on every file. *)
Theorem load_render locals globals forwards c :
  Forall service_name locals -> Forall service_name globals -> Forall service_name forwards ->
  load (Some (render locals globals forwards)) c =
  c <| cf_mLocalServices ::= union (list_to_set locals) |>
    <| cf_mGlobalServices ::= union (list_to_set globals) |>
    <| cf_mForwardServices ::= union (list_to_set forwards) |>.
Proof.
  intros Hl Hg Hf. unfold load, render.
  rewrite (load_loop_section "LOCAL" STATE_LOCAL); [|by vm_compute|set_solver by (vm_compute; set_solver)|vm_compute; lia|done|done].
  rewrite (load_loop_section "GLOBAL" STATE_GLOBAL); [|by vm_compute|by apply (bool_decide_unpack _)|vm_compute; lia|done|done].
  rewrite <-(app_nil_r (render_section "FORWARD" forwards)).
  rewrite (load_loop_section "FORWARD" STATE_FORWARD); [|by vm_compute|by apply (bool_decide_unpack _)|vm_compute; lia|done|done].
  cbn [load_loop length snd]. by rewrite add_services_local, add_services_global, add_services_forward.
Qed.

Lemma load_render_witness :
  let n := bytes_of_string "Media" in
  isLocalService (load (Some (render [n] [] [])) empty_ConfigFile) n = true.
Proof.
  intros n. rewrite (load_render [n] [] [] empty_ConfigFile); [by vm_compute | | constructor..].
  repeat constructor; (done || (split; [|by vm_compute]) || idtac); try by vm_compute.
  all: try (apply (bool_decide_unpack _); by vm_compute).
Defined.
