(* ===== verification/ClientData.v ===== *)
(** Per-connection data and the list of attached clients:
    [src/servicebroker/IDList.hpp], [ClientSpecificData.hpp] (the accessors;
    [clear] needs the whole broker and is in Dispatch.v) and
    [ClientList.{hpp,cpp}].

    [PartyIDList] is a [std::set] ordered by the 64-bit id, modelled as the sorted
    list its iterators walk.  [NotificationIDList] is a vector; note that
    [removeNotification] calls [std::remove] without [erase]. *)

From Stdlib Require Import Sorted.
From S2P Require Import Prelude.
From S2P Require Import Layout.
From S2P Require Import Types.

(** ** PartyIDList *)

Fixpoint pl_insert (x : SPartyID) (l : list SPartyID) : list SPartyID :=
  match l with
  | [] => [x]
  | y :: l' =>
    if globalID x <? globalID y then x :: y :: l'
    else if globalID x =? globalID y then y :: l'
    else y :: pl_insert x l'
  end.

Definition pl_exists (x : SPartyID) (l : list SPartyID) : bool := existsb (global_eqb x) l.

Definition pl_remove (x : SPartyID) (l : list SPartyID) : list SPartyID :=
  filter (fun y => negb (global_eqb x y) = true) l.

Definition pl_sorted (l : list SPartyID) : Prop :=
  StronglySorted (fun a b => globalID a < globalID b) l.

(** The ids of a [PartyIDList]. *)
Definition pl_ids (l : list SPartyID) : gset Z := list_to_set (globalID <$> l).

(** ** ClientSpecificData *)

Record ClientSpecificData := mkClientData {
  cd_mServerList : list SPartyID;
  cd_mNotificationList : list Z;
  cd_mClientList : list SPartyID;
  cd_mExtendedID : Z;
}.

#[export] Instance eta_ClientSpecificData : Eta ClientSpecificData := fun r =>
  mkClientData (cd_mServerList r) (cd_mNotificationList r) (cd_mClientList r) (cd_mExtendedID r).

Definition new_ClientSpecificData : ClientSpecificData := mkClientData [] [] [] 0.

Definition cd_setExtendedID (x : Z) (d : ClientSpecificData) : ClientSpecificData :=
  d <| cd_mExtendedID := i32 x |>.

Definition cd_addNotification (id : Z) (d : ClientSpecificData) : ClientSpecificData :=
  d <| cd_mNotificationList ::= (fun l => l ++ [id]) |>.

(** [std::remove(...)] whose result is dropped: the vector keeps its length. *)
Definition cd_removeNotification (id : Z) (d : ClientSpecificData) : ClientSpecificData :=
  d <| cd_mNotificationList ::= std_remove id |>.

Definition cd_notificationExists (id : Z) (d : ClientSpecificData) : bool :=
  bool_decide (id ∈ cd_mNotificationList d).

Definition cd_addServer (id : SPartyID) (d : ClientSpecificData) : ClientSpecificData :=
  d <| cd_mServerList ::= pl_insert id |>.

Definition cd_removeServer (id : SPartyID) (d : ClientSpecificData) : ClientSpecificData :=
  d <| cd_mServerList ::= pl_remove id |>.

Definition cd_serverExists (id : SPartyID) (d : ClientSpecificData) : bool :=
  pl_exists id (cd_mServerList d).

Definition cd_addClient (id : SPartyID) (d : ClientSpecificData) : ClientSpecificData :=
  d <| cd_mClientList ::= pl_insert id |>.

Definition cd_removeClient (id : SPartyID) (d : ClientSpecificData) : ClientSpecificData :=
  d <| cd_mClientList ::= pl_remove id |>.

Definition cd_clientExists (id : SPartyID) (d : ClientSpecificData) : bool :=
  pl_exists id (cd_mClientList d).

(** ** ClientList

    [ce_mCtx] stands for the pointer to the client's connection context. *)

Record ClientListEntry := mkClientEntry {
  ce_mClientId : SPartyID;
  ce_mServerId : SPartyID;
  ce_mCtx : Z;
}.

Record ClientList := mkClientList { cl_mEntries : list ClientListEntry; cl_mTotalCounter : Z }.

#[export] Instance eta_ClientList : Eta ClientList := fun r =>
  mkClientList (cl_mEntries r) (cl_mTotalCounter r).

Definition empty_ClientList : ClientList := mkClientList [] 0.

Definition cl_push_back (clientId serverId : SPartyID) (ctx : Z) (l : ClientList) : ClientList :=
  mkClientList (cl_mEntries l ++ [mkClientEntry clientId serverId ctx])
    (u32 (cl_mTotalCounter l + 1)).

Definition cl_remove (clientId : SPartyID) (l : ClientList) : ClientList :=
  l <| cl_mEntries ::= erase_first (fun e => global_eqb (ce_mClientId e) clientId) |>.

(** The erase loop over all clients of a server. *)
Definition cl_removeServer (serverId : SPartyID) (l : ClientList) : ClientList :=
  l <| cl_mEntries ::= filter (fun e => negb (global_eqb (ce_mServerId e) serverId) = true) |>.

Definition cl_removeNotLocal (extId : Z) (l : ClientList) : ClientList :=
  l <| cl_mEntries ::= filter (fun e => extendedID (ce_mServerId e) = extId) |>.

(** [find]: [std::find] with [ClientListEntry::operator==], which compares the
    client ids with [SPartyID::operator==]. *)
Definition cl_find (id : SPartyID) (l : ClientList) : Z :=
  match list_find (fun e => party_eqb (ce_mClientId e) id = true) (cl_mEntries l) with
  | Some (i, _) => Z.of_nat i
  | None => -1
  end.

(** ** Lemmas *)

Lemma pl_exists_spec x l : pl_exists x l = true <-> exists y, y ∈ l /\ globalID y = globalID x.
Proof.
  unfold pl_exists. rewrite existsb_exists. setoid_rewrite <-list_elem_of_In.
  unfold global_eqb. setoid_rewrite Z.eqb_eq. naive_solver.
Qed.

Lemma pl_exists_cons x y l : pl_exists x (y :: l) = global_eqb x y || pl_exists x l.
Proof. done. Qed.

Lemma pl_insert_exists x y l : pl_exists y (pl_insert x l) = global_eqb y x || pl_exists y l.
Proof.
  induction l as [|z l IH]; cbn [pl_insert]; [done|].
  destruct (globalID x <? globalID z) eqn:?; [done|].
  destruct (Z.eqb_spec (globalID x) (globalID z)) as [Hxz|].
  - rewrite !pl_exists_cons. unfold global_eqb. rewrite Hxz.
    destruct (globalID y =? globalID z); done.
  - rewrite !pl_exists_cons, IH. destruct (global_eqb y x), (global_eqb y z); done.
Qed.

Lemma pl_remove_exists x y l :
  pl_exists y (pl_remove x l) = negb (global_eqb x y) && pl_exists y l.
Proof.
  apply Bool.eq_iff_eq_true. rewrite andb_true_iff, !pl_exists_spec.
  unfold pl_remove, global_eqb. setoid_rewrite list_elem_of_filter.
  rewrite negb_true_iff, Z.eqb_neq. setoid_rewrite negb_true_iff. setoid_rewrite Z.eqb_neq.
  split.
  - intros (z & [Hz Hin] & Heq). split; [congruence|]. by exists z.
  - intros [Hne (z & Hin & Heq)]. exists z. split_and!; [congruence | done..].
Qed.

Lemma pl_insert_sorted x l : pl_sorted l -> pl_sorted (pl_insert x l).
Proof.
  unfold pl_sorted. induction 1 as [|y l Hs IH Hy]; cbn; [repeat constructor|].
  destruct (Z.ltb_spec (globalID x) (globalID y)).
  - constructor; [by constructor|]. constructor; [done|].
    eapply Forall_impl; [done|]. cbn. lia.
  - destruct (Z.eqb_spec (globalID x) (globalID y)); [by constructor|].
    constructor; [done|]. clear -Hy H n. induction l as [|z l IHl]; cbn.
    + repeat constructor. lia.
    + apply Forall_cons in Hy as [Hz Hy].
      destruct (globalID x <? globalID z); [repeat constructor; [lia|done|done]|].
      destruct (globalID x =? globalID z); constructor; auto.
Qed.

Lemma pl_remove_sorted x l : pl_sorted l -> pl_sorted (pl_remove x l).
Proof.
  unfold pl_sorted, pl_remove. induction 1 as [|y l Hs IH Hy]; [constructor|].
  rewrite filter_cons. case_decide; [|done]. constructor; [done|].
  rewrite Forall_forall in *. intros z [_ Hz]%list_elem_of_filter. by apply Hy.
Qed.

(** The removed server has no client left, the others keep theirs. *)
Lemma cl_removeServer_spec serverId e l :
  e ∈ cl_mEntries (cl_removeServer serverId l) <->
  e ∈ cl_mEntries l /\ globalID (ce_mServerId e) <> globalID serverId.
Proof.
  cbn. rewrite list_elem_of_filter, negb_true_iff. unfold global_eqb. rewrite Z.eqb_neq. tauto.
Qed.

Lemma cl_find_none id l :
  cl_find id l = -1 <-> forall e, e ∈ cl_mEntries l -> localID (ce_mClientId e) <> localID id.
Proof.
  unfold cl_find. destruct (list_find _ _) as [[i e]|] eqn:E.
  - apply list_find_Some in E as (Hi & Heq & _). split; [lia|].
    intros H. apply list_elem_of_lookup_2, H in Hi. unfold party_eqb in Heq. by reflect_bools.
  - apply list_find_None in E. split; [|done]. intros _ e He Heq.
    rewrite Forall_forall in E. apply (E e He). unfold party_eqb. by apply Z.eqb_eq.
Qed.

Lemma cl_find_push_back c s x l : cl_find c (cl_push_back c s x l) <> -1.
Proof.
  intros H. rewrite cl_find_none in H. apply (H (mkClientEntry c s x)); [|done].
  cbn. set_solver.
Qed.

(** ** Properties *)

Lemma pl_exists_ids x l : pl_exists x l = bool_decide (globalID x ∈ pl_ids l).
Proof.
  apply Bool.eq_iff_eq_true. rewrite pl_exists_spec, bool_decide_eq_true.
  unfold pl_ids. rewrite elem_of_list_to_set, list_elem_of_fmap. naive_solver.
Qed.

Lemma pl_insert_ids x l : pl_ids (pl_insert x l) = {[globalID x]} ∪ pl_ids l.
Proof.
  induction l as [|y l IH]; cbn [pl_insert]; [done|].
  destruct (globalID x <? globalID y); [done|].
  destruct (Z.eqb_spec (globalID x) (globalID y)) as [->|]; cbn in *; [set_solver|].
  unfold pl_ids in *. cbn. rewrite IH. set_solver.
Qed.

Lemma pl_remove_ids x l : pl_ids (pl_remove x l) = pl_ids l ∖ {[globalID x]}.
Proof.
  unfold pl_ids, pl_remove, global_eqb. induction l as [|y l IH]; [set_solver|].
  rewrite filter_cons. destruct (Z.eqb_spec (globalID x) (globalID y)) as [He|Hne];
    case_decide; try done; rewrite ?fmap_cons, ?list_to_set_cons, IH; set_solver.
Qed.

Lemma pl_sorted_NoDup l : pl_sorted l -> NoDup (globalID <$> l).
Proof.
  unfold pl_sorted. induction 1 as [|y l Hs IH Hy]; cbn; constructor; [|done].
  rewrite list_elem_of_fmap. intros (z & Heq & Hz). rewrite Forall_forall in Hy.
  specialize (Hy z Hz). cbn in Hy. lia.
Qed.

(** [PartyIDList] implements a set of 64-bit ids: on a sorted list, [add] and
    [remove] keep the list sorted and without duplicates and act on its ids as set
    union and difference, and [exists] is membership. *)
Lemma PartyIDList_refines_set x l :
  pl_sorted l ->
  (pl_sorted (pl_insert x l) /\ NoDup (globalID <$> pl_insert x l) /\
   pl_ids (pl_insert x l) = {[globalID x]} ∪ pl_ids l) /\
  (pl_sorted (pl_remove x l) /\ NoDup (globalID <$> pl_remove x l) /\
   pl_ids (pl_remove x l) = pl_ids l ∖ {[globalID x]}) /\
  pl_exists x l = bool_decide (globalID x ∈ pl_ids l).
Proof.
  intros Hl. pose proof (pl_insert_sorted x l Hl). pose proof (pl_remove_sorted x l Hl).
  split_and!; auto using pl_sorted_NoDup, pl_insert_ids, pl_remove_ids, pl_exists_ids.
Qed.

Lemma PartyIDList_refines_set_witness :
  pl_sorted [mkParty 3 0; mkParty 7 0] /\
  pl_ids (pl_insert (mkParty 5 0) [mkParty 3 0; mkParty 7 0])
    = {[globalID (mkParty 5 0)]} ∪ pl_ids [mkParty 3 0; mkParty 7 0].
Proof.
  assert (Hs : pl_sorted [mkParty 3 0; mkParty 7 0]).
  { repeat constructor. }
  split; [exact Hs|].
  exact (proj2 (proj2 (proj1 (PartyIDList_refines_set (mkParty 5 0) _ Hs)))).
Defined.

(** [removeNotification] calls [std::remove] without [erase]: the vector keeps
    its length, the other ids all stay, and when the removed id was the newest one
    nothing changes at all: [notificationExists] still reports it. *)
Lemma removeNotification_without_erase id d :
  id ∉ cd_mNotificationList d ->
  length (cd_mNotificationList (cd_removeNotification id (cd_addNotification id d)))
    = S (length (cd_mNotificationList d)) /\
  cd_removeNotification id (cd_addNotification id d) = cd_addNotification id d /\
  cd_notificationExists id (cd_removeNotification id (cd_addNotification id d)) = true.
Proof.
  intros Hid. assert (Heq : cd_removeNotification id (cd_addNotification id d) = cd_addNotification id d).
  { destruct d as [sl nl cl x]. unfold cd_removeNotification, cd_addNotification. cbn in *. f_equal.
    unfold std_remove. assert (Hf : filter (fun y => y <> id) (nl ++ [id]) = nl).
    { rewrite filter_app, filter_cons_False, filter_nil, app_nil_r by naive_solver.
      induction nl as [|y nl IH]; [done|]. apply not_elem_of_cons in Hid as [? ?].
      rewrite filter_cons_True by done. by rewrite IH. }
    rewrite Hf. by rewrite drop_app_length. }
  rewrite Heq. split_and!; [|done|].
  - cbn. rewrite length_app. cbn. lia.
  - unfold cd_notificationExists. cbn. apply bool_decide_eq_true. set_solver.
Qed.

Lemma removeNotification_without_erase_witness :
  7 ∉ cd_mNotificationList new_ClientSpecificData /\
  cd_notificationExists 7 (cd_removeNotification 7 (cd_addNotification 7 new_ClientSpecificData)) = true.
Proof.
  assert (H : 7 ∉ cd_mNotificationList new_ClientSpecificData) by (cbn; set_solver).
  split; [exact H|]. exact (proj2 (proj2 (removeNotification_without_erase 7 _ H))).
Defined.
