(* ===== verification/JobQueue.v ===== *)
(** Jobs for the master servicebroker and the queue that carries them to the
    worker thread: [src/servicebroker/JobQueue.{hpp,cpp}].

    A [Job] is a request for the master together with the context of the client
    that waits for the answer.  [JobQueue] is an intrusive singly linked list;
    it is modelled over a heap of jobs with their [next] pointers (0 is the null
    pointer), and [jq_push_refines], [jq_pop_refines] show that it implements a
    FIFO.  The servicebroker model uses the abstract FIFO. *)

From S2P Require Import Prelude.
From S2P Require Import Layout.
From S2P Require Import Types.

(** ** Jobs

    The argument block [job.arg] is the command's union: the request the
    servicebroker filled in and the answer area the master's reply is received
    into. *)

Inductive JobArg :=
  | JA_Attach (d : SFNDInterfaceDescription) (o : SConnectionInfo)
  | JA_AttachExtended (pulse : SFNDPulseInfo) (d : SFNDInterfaceDescription)
      (o : SConnectionInfo) (o_notificationID : Z)
  | JA_GetServerInformation (d : SFNDInterfaceDescription) (o : SServerInfo)
  | JA_Detach (clientID : SPartyID)
  | JA_NotifyServerDisconnect (serverID : SPartyID) (pulse : SFNDPulseInfo) (o_notificationID : Z)
  | JA_NotifyServerAvailableEx (n : list SFNDNotificationDescription)
      (o_notifications : list SFNDNotificationID)
  | JA_NotifyClientDetach (clientID : SPartyID) (pulse : SFNDPulseInfo) (o_notificationID : Z)
  | JA_ClearNotification (notificationID : Z)
  | JA_GetInterfaceList (inElementCount : Z) (o_descr : list SFNDInterfaceDescription)
  | JA_NotifyInterfaceListChange (pulse : SFNDPulseInfo) (o_notificationID : Z)
  | JA_MatchInterfaceList (inElementCount : Z) (regExpr : bytes)
      (o_descr : list SFNDInterfaceDescription)
  | JA_NotifyInterfaceListMatch (pulse : SFNDPulseInfo) (regExpr : bytes) (o_notificationID : Z)
  | JA_RegisterMasterEx (descr : list SFNDInterfaceDescriptionEx) (o_serverID : list SPartyID)
  | JA_Unregister (serverID : SPartyID).

(** [job.dcmd]. *)
Definition arg_dcmd (a : JobArg) : dcmd :=
  match a with
  | JA_Attach _ _ => DCMD_FND_ATTACH_INTERFACE
  | JA_AttachExtended _ _ _ _ => DCMD_FND_ATTACH_INTERFACE_EXTENDED
  | JA_GetServerInformation _ _ => DCMD_FND_GET_SERVER_INFORMATION
  | JA_Detach _ => DCMD_FND_DETACH_INTERFACE
  | JA_NotifyServerDisconnect _ _ _ => DCMD_FND_NOTIFY_SERVER_DISCONNECT
  | JA_NotifyServerAvailableEx _ _ => DCMD_FND_NOTIFY_SERVER_AVAILABLE_EX
  | JA_NotifyClientDetach _ _ _ => DCMD_FND_NOTIFY_CLIENT_DETACH
  | JA_ClearNotification _ => DCMD_FND_CLEAR_NOTIFICATION
  | JA_GetInterfaceList _ _ => DCMD_FND_GET_INTERFACELIST
  | JA_NotifyInterfaceListChange _ _ => DCMD_FND_NOTIFY_INTERFACELIST_CHANGE
  | JA_MatchInterfaceList _ _ _ => DCMD_FND_MATCH_INTERFACELIST
  | JA_NotifyInterfaceListMatch _ _ _ => DCMD_FND_NOTIFY_INTERFACELIST_MATCH
  | JA_RegisterMasterEx _ _ => DCMD_FND_REGISTER_MASTER_INTERFACE_EX
  | JA_Unregister _ => DCMD_FND_UNREGISTER_INTERFACE
  end.

(** [job_ctx] is the connection whose client waits for the answer, if any;
    [job_regex] the pattern of the compiled [RegExp] member. *)
Record Job := mkJob {
  job_cookie : Z;
  job_ctx : option Z;
  job_status : Z;
  job_ret_val : Z;
  job_sbytes : Z;
  job_rbytes : Z;
  job_regex : option bytes;
  job_arg : JobArg;
}.

#[export] Instance eta_Job : Eta Job := fun r =>
  mkJob (job_cookie r) (job_ctx r) (job_status r) (job_ret_val r) (job_sbytes r) (job_rbytes r)
    (job_regex r) (job_arg r).

(** [Job::create], with and without the message of a waiting client; the cookie
    is an [int]. *)
Definition create_Job (ctx : option Z) (cookie : Z) (arg : JobArg) (sbytes rbytes : Z) : Job :=
  mkJob (i32 cookie) ctx 0 0 sbytes rbytes None arg.

(** ** The linked queue *)

Section JobQueue.
Context {A : Type}.

Record JobQueue := mkJobQueue {
  jq_heap : gmap Z (A * Z);      (** job and [next] pointer *)
  jq_mFront : Z;
  jq_mBack : Z;
  jq_mSize : Z;
  jq_mTotalCounter : Z;
}.

Definition new_JobQueue (heap : gmap Z (A * Z)) : JobQueue := mkJobQueue heap 0 0 0 0.

(** [p->next = n]. *)
Definition set_next (p n : Z) (h : gmap Z (A * Z)) : gmap Z (A * Z) :=
  alter (fun an => (fst an, n)) p h.

Definition get_next (p : Z) (h : gmap Z (A * Z)) : Z :=
  match h !! p with Some (_, n) => n | None => 0 end.

Definition jq_push (job : Z) (q : JobQueue) : JobQueue :=
  mkJobQueue
    (if jq_mBack q =? 0 then jq_heap q else set_next (jq_mBack q) job (jq_heap q))
    (if jq_mBack q =? 0 then job else jq_mFront q)
    job
    (u32 (jq_mSize q + 1))
    (u32 (jq_mTotalCounter q + 1)).

Definition jq_pop (q : JobQueue) : Z * JobQueue :=
  if jq_mFront q =? 0 then (0, q)
  else
    let job := jq_mFront q in
    let front := get_next job (jq_heap q) in
    (job, mkJobQueue (set_next job 0 (jq_heap q)) front
            (if front =? 0 then 0 else jq_mBack q)
            (u32 (jq_mSize q - 1)) (jq_mTotalCounter q)).

(** The jobs linked from [p], in order. *)
Fixpoint linked (h : gmap Z (A * Z)) (p : Z) (jobs : list Z) : Prop :=
  match jobs with
  | [] => p = 0
  | j :: jobs' => p = j /\ j <> 0 /\ exists a n, h !! j = Some (a, n) /\ linked h n jobs'
  end.

(** [q] holds exactly [jobs], in FIFO order. *)
Definition jq_repr (q : JobQueue) (jobs : list Z) : Prop :=
  linked (jq_heap q) (jq_mFront q) jobs /\ NoDup jobs /\
  jq_mBack q = default 0 (last jobs) /\ jq_mSize q = u32 (Z.of_nat (length jobs)).

(** The operations the two threads perform on a queue, each under its mutex, in the
    order they take it. *)
Inductive jq_op := JQ_push (job : Z) | JQ_pop.

Fixpoint jq_run (ops : list jq_op) (q : JobQueue) : list Z * JobQueue :=
  match ops with
  | [] => ([], q)
  | JQ_push x :: ops' => jq_run ops' (jq_push x q)
  | JQ_pop :: ops' =>
    let '(j, q') := jq_pop q in
    let '(outs, q'') := jq_run ops' q' in (j :: outs, q'')
  end.

(** The specification: a list queue of pointers into [D].  A job is pushed only while
    it is not queued. *)
Inductive fifo_run (D : gset Z) : list Z -> list jq_op -> list Z -> list Z -> Prop :=
  | fr_nil jobs : fifo_run D jobs [] [] jobs
  | fr_push jobs x ops outs jobs' :
      x <> 0 -> x ∉ jobs -> x ∈ D -> fifo_run D (jobs ++ [x]) ops outs jobs' ->
      fifo_run D jobs (JQ_push x :: ops) outs jobs'
  | fr_pop_empty ops outs jobs' :
      fifo_run D [] ops outs jobs' -> fifo_run D [] (JQ_pop :: ops) (0 :: outs) jobs'
  | fr_pop j jobs ops outs jobs' :
      fifo_run D jobs ops outs jobs' -> fifo_run D (j :: jobs) (JQ_pop :: ops) (j :: outs) jobs'.

(** Every job outside the queue is unlinked. *)
Definition jq_inv (q : JobQueue) (jobs : list Z) : Prop :=
  jq_repr q jobs /\ forall x a n, jq_heap q !! x = Some (a, n) -> x ∉ jobs -> n = 0.

End JobQueue.
Arguments JobQueue : clear implicits.

(** ** Refinement of the FIFO *)

Section refinement.
Context {A : Type}.
Implicit Types (h : gmap Z (A * Z)) (q : JobQueue A) (jobs : list Z).

Lemma linked_set_next_other h p n x jobs :
  x ∉ jobs -> linked h p jobs -> linked (set_next x n h) p jobs.
Proof.
  revert p. induction jobs as [|j jobs IH]; intros p Hx; cbn; [done|].
  apply not_elem_of_cons in Hx as [Hxj Hx]. intros (-> & Hj & a & m & Hl & Hrest).
  split; [done|]. split; [done|]. exists a, m. unfold set_next. rewrite lookup_alter_ne by done.
  split; [done|]. by apply IH.
Qed.

Lemma linked_append h p jobs x a :
  linked h p jobs -> NoDup jobs -> x <> 0 -> x ∉ jobs -> h !! x = Some (a, 0) ->
  linked (match last jobs with Some b => set_next b x h | None => h end)
    (if bool_decide (jobs = []) then x else p) (jobs ++ [x]).
Proof.
  revert p. induction jobs as [|j jobs IH]; intros p Hl Hnd Hx0 Hx Ha.
  { cbn. split; [done|]. split; [done|]. by exists a, 0. }
  destruct Hl as (-> & Hj & b & m & Hh & Hl). apply NoDup_cons in Hnd as [Hjn Hnd].
  rewrite not_elem_of_cons in Hx. destruct Hx as [Hxj Hx].
  specialize (IH m Hl Hnd Hx0 Hx Ha). rewrite bool_decide_false by done.
  destruct jobs as [|k jobs].
  - cbn in *. subst m. split_and!; [done..|]. exists b, x. unfold set_next.
    rewrite lookup_alter_eq, Hh. split; [done|]. split_and!; [done..|].
    exists a, 0. rewrite lookup_alter_ne by done. done.
  - rewrite bool_decide_false in IH by done. change (last (j :: k :: jobs)) with (last (k :: jobs)).
    cbn [app linked]. split_and!; [done..|]. exists b, m. split; [|done].
    destruct (last (k :: jobs)) as [y|] eqn:Ey; [|done]. unfold set_next.
    apply last_Some_elem_of in Ey. rewrite lookup_alter_ne by naive_solver. done.
Qed.

(** [push] appends a fresh, unlinked job. *)
Lemma jq_push_refines q jobs x a :
  jq_repr q jobs -> x <> 0 -> x ∉ jobs -> jq_heap q !! x = Some (a, 0) ->
  jq_repr (jq_push x q) (jobs ++ [x]).
Proof.
  intros (Hl & Hnd & Hb & Hs) Hx0 Hx Ha.
  assert (Hback : (jq_mBack q =? 0) = bool_decide (jobs = [])).
  { rewrite Hb. destruct jobs as [|j jobs]; [done|]. rewrite bool_decide_false by done.
    apply Z.eqb_neq. destruct (last (j :: jobs)) as [y|] eqn:Ey; [|by apply last_None in Ey].
    cbn. apply last_Some_elem_of in Ey. clear -Hl Ey. revert Hl. generalize (jq_mFront q).
    induction (j :: jobs) as [|z l IH]; [set_solver|]. intros p (_ & Hz & b & m & _ & Hrest).
    apply elem_of_cons in Ey as [->|Ey]; [done|]. by eapply IH. }
  unfold jq_push, jq_repr. cbn. rewrite Hback. split_and!.
  - pose proof (linked_append _ _ _ x a Hl Hnd Hx0 Hx Ha) as H.
    rewrite Hb. destruct jobs as [|j jobs]; [done|].
    rewrite bool_decide_false in * by done.
    destruct (last (j :: jobs)) eqn:Ey; [done|by apply last_None in Ey].
  - apply NoDup_app. split_and!; [done | set_solver | apply NoDup_singleton].
  - by rewrite last_snoc.
  - rewrite Hs, length_app. cbn. unfold u32. rewrite Zplus_mod_idemp_l. f_equal. lia.
Qed.

(** [pop] takes the oldest job and unlinks it; an empty queue gives null. *)
Lemma jq_pop_refines q jobs :
  jq_repr q jobs ->
  match jobs with
  | [] => jq_pop q = (0, q)
  | j :: jobs' =>
    exists q', jq_pop q = (j, q') /\ jq_repr q' jobs' /\ get_next j (jq_heap q') = 0
  end.
Proof.
  intros (Hl & Hnd & Hb & Hs). destruct jobs as [|j jobs]; cbn in Hl.
  - unfold jq_pop. by rewrite Hl.
  - destruct Hl as (Hf & Hj & a & n & Hh & Hl). apply NoDup_cons in Hnd as [Hjn Hnd].
    unfold jq_pop. rewrite Hf, (proj2 (Z.eqb_neq j 0)) by done. eexists. split; [done|].
    assert (Hg : get_next j (jq_heap q) = n) by (unfold get_next; by rewrite Hh).
    rewrite Hg. split; [|unfold get_next, set_next; cbn; by rewrite lookup_alter_eq, Hh].
    split_and!; cbn.
    + by apply linked_set_next_other.
    + done.
    + destruct jobs as [|k jobs]; cbn in Hl; [by subst|].
      destruct Hl as (-> & Hk & _). by rewrite (proj2 (Z.eqb_neq k 0)), Hb by done.
    + rewrite Hs. cbn [length]. unfold u32. rewrite Zminus_mod_idemp_l. f_equal. lia.
Qed.

End refinement.

(** *** Traces *)

Section traces.
Context {A : Type}.
Implicit Types (q : JobQueue A) (jobs : list Z).

Lemma jq_inv_push q jobs x a n :
  jq_inv q jobs -> x <> 0 -> x ∉ jobs -> jq_heap q !! x = Some (a, n) ->
  jq_inv (jq_push x q) (jobs ++ [x]) /\ dom (jq_heap (jq_push x q)) = dom (jq_heap q).
Proof.
  intros [Hr Hu] Hx0 Hx Ha. assert (n = 0) as -> by (by eapply Hu).
  split; [|unfold jq_push, set_next; cbn; destruct (_ =? 0); [done | apply dom_alter_L]].
  split; [by eapply jq_push_refines|]. intros y b m. rewrite not_elem_of_app, list_elem_of_singleton.
  unfold jq_push, set_next. cbn. destruct (Z.eqb_spec (jq_mBack q) 0) as [|Hb].
  - intros Hy [Hyj _]. by eapply Hu.
  - destruct (decide (y = jq_mBack q)) as [->|Hne].
    + intros _ [Hin _]. exfalso. apply Hin. destruct Hr as (_ & _ & Hback & _).
      rewrite Hback in *. destruct (last jobs) eqn:El; [by apply last_Some_elem_of in El|done].
    + rewrite lookup_alter_ne by done. intros Hy [Hyj _]. by eapply Hu.
Qed.

Lemma jq_inv_pop q j jobs :
  jq_inv q (j :: jobs) ->
  exists q', jq_pop q = (j, q') /\ jq_inv q' jobs /\ dom (jq_heap q') = dom (jq_heap q).
Proof.
  intros [Hr Hu]. destruct (jq_pop_refines q (j :: jobs) Hr) as (q' & Hp & Hr' & Hn).
  exists q'. split; [done|]. pose proof Hr as ((Hf & Hj & _) & Hnd & _).
  unfold jq_pop in Hp. rewrite Hf, (proj2 (Z.eqb_neq j 0)) in Hp by done. injection Hp as <-. cbn in *.
  split; [|apply dom_alter_L]. split; [done|]. cbn. intros x a n. unfold set_next.
  destruct (decide (x = j)) as [->|Hne].
  - rewrite lookup_alter_eq. intros ([b m] & _ & [= _ ->])%fmap_Some _. done.
  - rewrite lookup_alter_ne by done. intros Hx Hxj. eapply Hu; [done|]. set_solver.
Qed.

Lemma jq_inv_new (heap : gmap Z (A * Z)) :
  (forall x a n, heap !! x = Some (a, n) -> n = 0) -> jq_inv (new_JobQueue heap) [].
Proof. intros Hh. split; [split_and!; cbn; [done|constructor|done|done]|]. intros x a n Hx _. by eapply Hh. Qed.

Lemma jq_run_refines q jobs ops outs jobs' :
  jq_inv q jobs -> fifo_run (dom (jq_heap q)) jobs ops outs jobs' ->
  (jq_run ops q).1 = outs /\ jq_inv (jq_run ops q).2 jobs'.
Proof.
  intros Hi Hrun. revert q Hi Hrun. 
  induction ops as [|op ops IH] in jobs, outs |- *; intros q Hi Hrun.
  { inversion Hrun; subst. done. }
  destruct op as [x|]; cbn [jq_run].
  - inversion Hrun as [|? ? ? ? ? Hx0 Hx Hd Hrest| |]; subst.
    apply elem_of_dom in Hd as [[a n] Ha].
    destruct (jq_inv_push q jobs x a n Hi Hx0 Hx Ha) as [Hi' Hdom].
    apply IH with (jobs ++ [x]); [done|]. by rewrite Hdom.
  - inversion Hrun as [| |? ? ? Hrest|? ? ? ? ? Hrest]; subst.
    + rewrite (jq_pop_refines q [] (proj1 Hi)).
      destruct (IH [] outs0 q Hi Hrest) as [H1 H2]. destruct (jq_run ops q). cbn in *. by rewrite H1.
    + destruct (jq_inv_pop q j jobs0 Hi) as (q' & Hp & Hi' & Hdom). rewrite Hp.
      rewrite <-Hdom in Hrest. destruct (IH jobs0 outs0 q' Hi' Hrest) as [H1 H2].
      destruct (jq_run ops q'). cbn in *. by rewrite H1.
Qed.

End traces.

(** [JobQueue] implements a FIFO of [Job] pointers: over any sequence of [push]es
    of jobs that are not queued and of [pop]s, started on an empty queue, the
    pointers popped are exactly those of a list queue (null when it is empty), and
    the queue left behind is linked in that order with the size it reports. *)
Lemma JobQueue_refines_fifo {A} (heap : gmap Z (A * Z)) ops outs jobs :
  (forall x a n, heap !! x = Some (a, n) -> n = 0) ->
  fifo_run (dom heap) [] ops outs jobs ->
  (jq_run ops (new_JobQueue heap)).1 = outs /\
  linked (jq_heap (jq_run ops (new_JobQueue heap)).2)
    (jq_mFront (jq_run ops (new_JobQueue heap)).2) jobs /\
  jq_mSize (jq_run ops (new_JobQueue heap)).2 = u32 (Z.of_nat (length jobs)).
Proof.
  intros Hh Hrun. destruct (jq_run_refines (new_JobQueue heap) [] ops outs jobs) as [H1 [Hr _]].
  - by apply jq_inv_new.
  - done.
  - destruct Hr as (Hl & _ & _ & Hs). done.
Qed.

Lemma JobQueue_refines_fifo_witness :
  (jq_run [JQ_push 16; JQ_push 32; JQ_pop; JQ_push 16; JQ_pop; JQ_pop; JQ_pop]
    (new_JobQueue (list_to_map [(16, (tt, 0)); (32, (tt, 0))]))).1 = [16; 32; 16; 0].
Proof.
  refine (proj1 (JobQueue_refines_fifo (list_to_map [(16, (tt, 0)); (32, (tt, 0))])
    [JQ_push 16; JQ_push 32; JQ_pop; JQ_push 16; JQ_pop; JQ_pop; JQ_pop] [16; 32; 16; 0] [] _ _)).
  - intros x a n Hx. cbn in Hx. apply lookup_insert_Some in Hx as [[_ [= _ <-]]|[_ Hx]]; [done|].
    apply lookup_insert_Some in Hx as [[_ [= _ <-]]|[_ Hx]]; [done|]. by rewrite lookup_empty in Hx.
  - apply fr_push; [done|set_solver|set_solver|]. apply fr_push; [done|set_solver|set_solver|].
    apply fr_pop. apply fr_push; [done|set_solver|set_solver|]. repeat constructor.
Defined.
