(* ===== verification/Environment.v ===== *)
(** What the servicebroker relies on outside its own sources: sockets, the user
    and group databases, POSIX regular expressions, and the memory the C++ code
    reads without having written it.

    Everything here is a parameter of the model (class [Env]).  Calls whose result
    may differ from one call to the next take a [tick], the number of such calls
    made before.  [EINTR] retry loops are part of the parameter. *)

From S2P Require Import Prelude.
From S2P Require Import Layout.
From S2P Require Import Types.

(** Outcome of a socket operation, [DSI::io::error_code]; only the values the code
    distinguishes are kept apart. *)
Inductive io_error := io_ok | io_in_progress | io_would_block | io_failed.

#[export] Instance io_error_eq_dec : EqDecision io_error.
Proof. solve_decision. Defined.

(** Connection targets: [make_unix_path(pid, chid)] or an IPv4 address and port in
    host byte order. *)
Inductive Endpoint := EP_unix (pid chid : Z) | EP_ip (ip port : Z).

Class Env := {
  (** [socket()]: a descriptor or a failure. *)
  env_open : nat -> option Z;
  (** [connect()] on a descriptor. *)
  env_connect : nat -> Z -> Endpoint -> io_error;
  (** [waitForConnectionEstablished]: poll until connected or timed out. *)
  env_wait : nat -> Z -> io_error;
  (** [getgrgid]: the member names of the group, if it exists. *)
  env_getgrgid : Z -> option (list bytes);
  (** [getpwnam]: the user id, if the user exists. *)
  env_getpwnam : bytes -> option Z;
  (** [regcomp(REG_EXTENDED | REG_NOSUB)]: 0 on success. *)
  env_regcomp : bytes -> Z;
  (** [regexec] on the expression compiled from a pattern; [None] is a zeroed
      [regex_t] that was never compiled. *)
  env_regexec : option bytes -> bytes -> Z;
  (** Uninitialised [ServerListEntry::implVersion]. *)
  env_implVersion : SFNDImplementationVersion;
  (** Uninitialised [serverDisconnectArg.i.pulse] of the extended attach. *)
  env_pulse : SFNDPulseInfo;
  (** The byte behind a [name] array on the stack. *)
  env_after_name : Z;
  (** Bytes of the request that lie under an answer field that is not written. *)
  env_overlay_clientID : SPartyID;
}.

(** ** RegExp

    A [RegExp] is the pattern it was compiled from; [None] when it holds no
    compiled expression. *)

(** [RegExp::operator=]: an empty pattern is not compiled again. *)
Definition RegExp_assign (pattern : bytes) : option bytes :=
  if bool_decide (pattern = []) then None else Some pattern.

Section env.
Context `{Env}.

(** [0 == re.execute(string, 0)]. *)
Definition RegExp_matches (re : option bytes) (s : bytes) : bool := env_regexec re s =? 0.

(** Does [uid] belong to group [grpid]?  The loops over [gr_mem] of
    [checkAccessPrivileges] and [NotificationList::trigger]. *)
Definition in_group (grpid uid : Z) : bool :=
  match env_getgrgid (u32 grpid) with
  | Some members =>
    existsb (fun m => match env_getpwnam m with Some u => u =? uid | None => false end) members
  | None => false
  end.

End env.
