(* ===== verification/PulseChannelManager.v ===== *)
(** Connections used to deliver notification pulses:
    [src/servicebroker/PulseChannelManager.{hpp,cpp}].

    One socket per client channel (nid, pid, chid) is shared by all notifications
    to that channel and reference counted.  The kernel's side of a connection
    attempt is [Env]; the choice of the target, the retry and the bookkeeping are
    modelled. *)

From S2P Require Import Prelude.
From S2P Require Import Layout.
From S2P Require Import Types.
From S2P Require Import Environment.

Record PulseChannel := mkPulseChannel {
  pc_nid : Z;
  pc_pid : Z;
  pc_chid : Z;
  pc_fd : Z;
  pc_refCount : Z;
}.

#[export] Instance eta_PulseChannel : Eta PulseChannel := fun r =>
  mkPulseChannel (pc_nid r) (pc_pid r) (pc_chid r) (pc_fd r) (pc_refCount r).

(** [CompNidPidChid] and [CompFd]. *)
Definition same_channel (nid pid chid : Z) (c : PulseChannel) : bool :=
  (pc_nid c =? nid) && (pc_pid c =? pid) && (pc_chid c =? chid).

Definition same_fd (fd : Z) (c : PulseChannel) : bool := pc_fd c =? fd.

Definition tryAddRef (l : list PulseChannel) (nid pid chid : Z) : Z * list PulseChannel :=
  match find_first (same_channel nid pid chid) l with
  | Some c =>
    (pc_fd c, update_first (same_channel nid pid chid) (fun c => c <| pc_refCount ::= Z.succ |>) l)
  | None => (-1, l)
  end.

(** [release]: the closed descriptors are returned with the list. *)
Definition release (l : list PulseChannel) (fd : Z) : list Z * list PulseChannel :=
  match find_first (same_fd fd) l with
  | Some c =>
    if pc_refCount c - 1 =? 0 then ([fd], erase_first (same_fd fd) l)
    else ([], update_first (same_fd fd) (fun c => c <| pc_refCount ::= Z.pred |>) l)
  | None => ([], l)
  end.

(** [ntohs], [ntohl] on a little-endian host. *)
Definition bswap16 (x : Z) : Z := Z.lor (Z.shiftl (Z.land x 0xff) 8) (Z.land (Z.shiftr x 8) 0xff).

Definition bswap32 (x : Z) : Z :=
  Z.lor (Z.shiftl (bswap16 (Z.land x 0xffff)) 16) (bswap16 (Z.land (Z.shiftr x 16) 0xffff)).

Section attach.
Context `{Env}.

(** The connection attempt of [attach] for a channel that is not open yet: the new
    descriptor or -1, and the next tick.  A TCP target is the address the slave
    announced ([pid]) and, when that fails, the peer address ([nid]). *)
Definition connect_channel (tick : nat) (nid pid chid : Z) : Z * nat :=
  if nid =? SB_LOCAL_NODE_ADDRESS then
    match env_open tick with
    | None => (-1, S tick)
    | Some fd =>
      match env_connect (S tick) fd (EP_unix pid chid) with
      | io_ok => (fd, tick + 2)%nat
      | _ => (-1, (tick + 2)%nat)
      end
    end
  else
    let port := bswap16 (u16 chid) in
    match env_open tick with
    | None => (-1, S tick)
    | Some fd =>
      let dest := if pid =? SB_UNKNOWN_IP_ADDRESS then EP_ip (u32 nid) port
                  else EP_ip (bswap32 (u32 pid)) port in
      let ec := env_connect (S tick) fd dest in
      let '(ec, fd, tick) :=
        match ec with
        | io_ok | io_in_progress => (ec, fd, tick + 2)%nat
        | _ =>
          if pid =? SB_UNKNOWN_IP_ADDRESS then (ec, fd, tick + 2)%nat
          else match env_open (tick + 2)%nat with
               | None => (ec, fd, tick + 3)%nat
               | Some fd' =>
                 (env_connect (tick + 3)%nat fd' (EP_ip (u32 nid) port), fd', tick + 4)%nat
               end
        end in
      let '(ec, tick) :=
        match ec with io_in_progress => (env_wait tick fd, S tick) | _ => (ec, tick) end in
      match ec with io_ok => (fd, tick) | _ => (-1, tick) end
    end.

(** [PulseChannelManager::attach]. *)
Definition pcm_attach (tick : nat) (l : list PulseChannel) (nid pid chid : Z)
    : Z * list PulseChannel * nat :=
  let '(fd, l1) := tryAddRef l nid pid chid in
  if negb (fd =? -1) then (fd, l1, tick)
  else
    let '(rc, tick') := connect_channel tick nid pid chid in
    (rc, if 0 <=? rc then l1 ++ [mkPulseChannel nid pid chid rc 1] else l1, tick').

End attach.

(** ** Invariant

    At most one entry per channel and per descriptor, every entry referenced. *)
Definition pcm_wf (l : list PulseChannel) : Prop :=
  NoDup (pc_fd <$> l) /\
  NoDup ((fun c => (pc_nid c, pc_pid c, pc_chid c)) <$> l) /\
  Forall (fun c => 0 <= pc_fd c /\ 0 < pc_refCount c) l.

(** References held on a descriptor. *)
Definition pcm_refs (fd : Z) (l : list PulseChannel) : Z :=
  match find_first (same_fd fd) l with Some c => pc_refCount c | None => 0 end.

(** ** Lemmas *)

Lemma same_channel_spec nid pid chid c :
  same_channel nid pid chid c = true <-> (pc_nid c, pc_pid c, pc_chid c) = (nid, pid, chid).
Proof.
  unfold same_channel. rewrite !andb_true_iff, !Z.eqb_eq. split; [|by intros [= -> -> ->]].
  intros [[-> ->] ->]. done.
Qed.

Lemma same_fd_spec fd c : same_fd fd c = true <-> pc_fd c = fd.
Proof. apply Z.eqb_eq. Qed.

(** Changing reference counts to positive values keeps the invariant. *)
Lemma pcm_wf_update p f l :
  (forall c, pc_nid (f c) = pc_nid c /\ pc_pid (f c) = pc_pid c /\ pc_chid (f c) = pc_chid c /\
     pc_fd (f c) = pc_fd c) ->
  (forall c, find_first p l = Some c -> 0 < pc_refCount c -> 0 < pc_refCount (f c)) ->
  pcm_wf l -> pcm_wf (update_first p f l).
Proof.
  intros Hf Hpos (Hfd & Hch & Hall). split_and!.
  - rewrite (update_first_map p pc_fd); [done|]. intros c _. apply Hf.
  - rewrite (update_first_map p (fun c => (pc_nid c, pc_pid c, pc_chid c))); [done|].
    intros c _. by destruct (Hf c) as (-> & -> & -> & _).
  - clear Hfd Hch. induction Hall as [|c l [Hc1 Hc2] Hall IH]; cbn; [constructor|].
    cbn in Hpos. destruct (p c) eqn:Hp; constructor; [|done|done|by apply IH].
    destruct (Hf c) as (_ & _ & _ & ->). split; [done|]. by apply Hpos.
Qed.

Lemma pcm_wf_sublist k l : k `sublist_of` l -> pcm_wf l -> pcm_wf k.
Proof.
  intros Hs (Hfd & Hch & Hall). split_and!.
  - eapply sublist_NoDup; [done|]. by apply fmap_sublist.
  - eapply sublist_NoDup; [done|]. by apply fmap_sublist.
  - by eapply Forall_sublist_of.
Qed.

Lemma release_wf l fd : pcm_wf l -> pcm_wf (snd (release l fd)).
Proof.
  intros Hwf. unfold release. destruct (find_first (same_fd fd) l) as [c|] eqn:Hc; [|done].
  destruct (Z.eqb_spec (pc_refCount c - 1) 0); cbn.
  - eapply pcm_wf_sublist; [apply erase_first_sublist | done].
  - apply pcm_wf_update; [done | | done]. rewrite Hc. intros c' [= ->] ?. cbn. lia.
Qed.

Section attach_lemmas.
Context `{Env}.

(** A fresh descriptor of the kernel is not one that is still open. *)
Lemma pcm_attach_wf tick l nid pid chid :
  (forall fd, fd ∈ (pc_fd <$> l) -> fst (connect_channel tick nid pid chid) <> fd) ->
  pcm_wf l -> pcm_wf (snd (fst (pcm_attach tick l nid pid chid))).
Proof.
  intros Hfresh Hwf. unfold pcm_attach, tryAddRef.
  destruct (find_first (same_channel nid pid chid) l) as [c|] eqn:Hc.
  - pose proof (find_first_Some _ _ _ Hc) as [Hin _]. destruct Hwf as (Hfd & Hch & Hall).
    assert (0 <= pc_fd c) by (rewrite Forall_forall in Hall; by apply Hall).
    rewrite (proj2 (Z.eqb_neq (pc_fd c) (-1))) by lia. cbn.
    apply pcm_wf_update; [done | | done]. intros c' _ ?. cbn. lia.
  - cbn. destruct (connect_channel tick nid pid chid) as [rc tick'] eqn:Hconn. cbn in *.
    destruct (Z.leb_spec 0 rc); [|done]. destruct Hwf as (Hfd & Hch & Hall). split_and!.
    + rewrite fmap_app. apply NoDup_app. split_and!; [done | | apply NoDup_singleton].
      intros fd Hin. cbn. rewrite list_elem_of_singleton. intros ->. by eapply Hfresh.
    + rewrite fmap_app. apply NoDup_app. split_and!; [done | | apply NoDup_singleton].
      intros x Hin. cbn. rewrite list_elem_of_singleton. intros ->.
      apply list_elem_of_fmap in Hin as (c & Heq & Hin). rewrite find_first_None in Hc.
      apply Hc in Hin. symmetry in Heq. apply same_channel_spec in Heq. congruence.
    + apply Forall_app. split; [done|]. repeat constructor; cbn; lia.
Qed.

End attach_lemmas.

Lemma pcm_refs_other fd fd' l :
  fd <> fd' -> pcm_wf l -> pcm_refs fd' (snd (release l fd)) = pcm_refs fd' l.
Proof.
  intros Hne _. unfold release, pcm_refs.
  destruct (find_first (same_fd fd) l) as [c|] eqn:Hc; [|done].
  assert (Hdis : forall x, same_fd fd x = true -> same_fd fd' x = false).
  { intros x Hx%same_fd_spec. apply Z.eqb_neq. congruence. }
  destruct (pc_refCount c - 1 =? 0); cbn; clear Hc.
  - induction l as [|x l IH]; cbn; [done|]. destruct (same_fd fd x) eqn:Hx.
    + by rewrite (Hdis x Hx).
    + cbn. by destruct (same_fd fd' x).
  - induction l as [|x l IH]; cbn; [done|]. destruct (same_fd fd x) eqn:Hx; cbn.
    + rewrite (Hdis x Hx). unfold same_fd at 1. cbn. fold (same_fd fd' x). by rewrite (Hdis x Hx).
    + by destruct (same_fd fd' x).
Qed.

(** [release] drops one reference; the descriptor is closed with the last one. *)
Lemma release_refs l fd :
  pcm_wf l -> 0 < pcm_refs fd l ->
  pcm_refs fd (snd (release l fd)) = pcm_refs fd l - 1 /\
  (fst (release l fd) = [fd] <-> pcm_refs fd l = 1).
Proof.
  intros (Hfd & _ & _). unfold release, pcm_refs.
  destruct (find_first (same_fd fd) l) as [c|] eqn:Hc; [|lia]. intros Hpos.
  destruct (erase_first_split _ _ _ Hc) as (l1 & l2 & -> & H1 & Her).
  assert (Hfc : pc_fd c = fd) by (apply find_first_Some in Hc as [_ ?]; by apply same_fd_spec).
  destruct (Z.eqb_spec (pc_refCount c - 1) 0); cbn.
  - split; [|split; [lia|done]]. rewrite Her.
    rewrite fmap_app, fmap_cons in Hfd. apply NoDup_app in Hfd as (_ & Hd & Hfd).
    apply NoDup_cons in Hfd as [Hnin _].
    rewrite find_first_app, H1. destruct (find_first (same_fd fd) l2) as [y|] eqn:Hy; [|lia].
    apply find_first_Some in Hy as [Hy Hyf]. apply same_fd_spec in Hyf. exfalso. apply Hnin.
    rewrite Hfc, <-Hyf. by apply list_elem_of_fmap_2.
  - split; [|split; [done|lia]]. clear Her Hc Hfd.
    induction l1 as [|x l1 IH]; cbn.
    + unfold same_fd. rewrite Hfc, Z.eqb_refl. cbn. rewrite ?Hfc, Z.eqb_refl. cbn. lia.
    + cbn in H1. destruct (same_fd fd x) eqn:Hx; [done|]. cbn. rewrite Hx. by apply IH.
Qed.

(** ** Properties *)

Lemma pcm_refs_update fd f l x :
  find_first (same_fd fd) l = Some x -> same_fd fd (f x) = true ->
  pcm_refs fd (update_first (same_fd fd) f l) = pc_refCount (f x).
Proof.
  intros Hx Hf. unfold pcm_refs. induction l as [|y l IH]; cbn in *; [done|].
  destruct (same_fd fd y) eqn:Hy; cbn; [injection Hx as ->; by rewrite Hf|].
  rewrite Hy. by apply IH.
Qed.

Lemma pcm_refs_update_other p f l fd c :
  (forall x, pc_fd (f x) = pc_fd x) -> NoDup (pc_fd <$> l) -> find_first p l = Some c ->
  pcm_refs fd (update_first p f l)
    = if same_fd fd c then pc_refCount (f c) else pcm_refs fd l.
Proof.
  intros Hf Hnd Hc. unfold pcm_refs. induction l as [|y l IH]; cbn in *; [done|].
  apply NoDup_cons in Hnd as [Hy Hnd]. assert (Hfy : forall z, same_fd fd (f z) = same_fd fd z).
  { intros z. unfold same_fd. by rewrite Hf. }
  destruct (p y) eqn:Hpy; cbn.
  - injection Hc as ->. rewrite Hfy. by destruct (same_fd fd c).
  - destruct (same_fd fd y) eqn:Hfd; [|by apply IH].
    destruct (same_fd fd c) eqn:Hfc; [|done]. exfalso. apply Hy.
    apply same_fd_spec in Hfd, Hfc. rewrite Hfd, <-Hfc. apply list_elem_of_fmap_2.
    by apply find_first_Some in Hc as [? _].
Qed.

Lemma pcm_refs_fresh fd l : (forall x, x ∈ (pc_fd <$> l) -> fd <> x) -> pcm_refs fd l = 0.
Proof.
  intros Hf. unfold pcm_refs. destruct (find_first _ _) as [c|] eqn:Hc; [|done].
  apply find_first_Some in Hc as [Hin Hc%same_fd_spec]. exfalso.
  by apply (Hf (pc_fd c)); [apply list_elem_of_fmap_2 | symmetry].
Qed.

Section attach_property.
Context `{Env}.

(** [PulseChannelManager::attach]: as long as the kernel does not hand out a
    descriptor that is still open, the table keeps at most one entry per channel and
    per descriptor; on success the returned descriptor has gained exactly one
    reference and no other count changes, on failure the table is unchanged; and a
    channel that is already open is shared without another connection attempt. *)
Lemma attach_correct tick l nid pid chid :
  pcm_wf l ->
  (forall fd, fd ∈ (pc_fd <$> l) -> fst (connect_channel tick nid pid chid) <> fd) ->
  let '(rc, l', tick') := pcm_attach tick l nid pid chid in
  pcm_wf l' /\
  (0 <= rc -> pcm_refs rc l' = pcm_refs rc l + 1 /\
              forall fd, fd <> rc -> pcm_refs fd l' = pcm_refs fd l) /\
  (rc < 0 -> l' = l) /\
  (forall c, find_first (same_channel nid pid chid) l = Some c -> rc = pc_fd c /\ tick' = tick).
Proof.
  intros Hwf Hfresh. pose proof (pcm_attach_wf tick l nid pid chid Hfresh Hwf) as Hwf'.
  unfold pcm_attach, tryAddRef in *. destruct (find_first _ l) as [c|] eqn:Hc.
  - pose proof (find_first_Some _ _ _ Hc) as [Hin _]. destruct Hwf as (Hfd & _ & Hall).
    rewrite Forall_forall in Hall. destruct (Hall c Hin) as [Hc0 _].
    rewrite (proj2 (Z.eqb_neq (pc_fd c) (-1))) in * by lia. cbn [negb fst snd] in *.
    split_and!; [done| |lia|by intros ? [= <-]]. intros _. split.
    + erewrite pcm_refs_update_other; [|done..]. unfold same_fd at 1. rewrite Z.eqb_refl. cbn.
      unfold pcm_refs. destruct (find_first (same_fd (pc_fd c)) l) as [x|] eqn:Hx.
      * apply find_first_Some in Hx as [Hxin Hx%same_fd_spec].
        assert (x = c) as -> by (by eapply NoDup_fmap_inj_in). lia.
      * rewrite find_first_None in Hx. apply Hx in Hin. unfold same_fd in Hin. by rewrite Z.eqb_refl in Hin.
    + intros fd Hne. erewrite pcm_refs_update_other; [|done..]. unfold same_fd at 1.
      by rewrite (proj2 (Z.eqb_neq _ _)) by done.
  - cbn in *. destruct (connect_channel tick nid pid chid) as [rc tick'] eqn:Hconn. cbn in *.
    split_and!; [done| | |done]; intros Hrc.
    + rewrite (proj2 (Z.leb_le 0 rc)) in * by lia. split.
      * rewrite (pcm_refs_fresh rc l) by done. unfold pcm_refs. rewrite find_first_app.
        destruct (find_first (same_fd rc) l) as [x|] eqn:Hx.
        { apply find_first_Some in Hx as [Hxin Hx%same_fd_spec]. exfalso.
          by apply (Hfresh (pc_fd x)); [apply list_elem_of_fmap_2|]. }
        cbn. unfold same_fd. cbn. by rewrite Z.eqb_refl.
      * intros fd Hne. unfold pcm_refs. rewrite find_first_app.
        destruct (find_first (same_fd fd) l); [done|]. cbn. unfold same_fd. cbn.
        by rewrite (proj2 (Z.eqb_neq _ _)) by done.
    + by rewrite (proj2 (Z.leb_gt 0 rc)) by lia.
Qed.

End attach_property.

(** [PulseChannelManager::release] drops exactly one reference of the descriptor
    and leaves the other counts alone; the descriptor is closed, and its entry
    removed, exactly when that was the last reference, and never twice. *)
Lemma release_correct l fd :
  pcm_wf l -> 0 < pcm_refs fd l ->
  let '(closed, l') := release l fd in
  pcm_wf l' /\ pcm_refs fd l' = pcm_refs fd l - 1 /\
  (forall fd', fd' <> fd -> pcm_refs fd' l' = pcm_refs fd' l) /\
  closed = (if pcm_refs fd l =? 1 then [fd] else []) /\
  fst (release l' fd) = (if pcm_refs fd l =? 2 then [fd] else []).
Proof.
  intros Hwf Hpos. pose proof (release_wf l fd Hwf) as Hwf'.
  destruct (release_refs l fd Hwf Hpos) as [Hr Hcl].
  assert (Ho : forall fd', fd' <> fd -> pcm_refs fd' (release l fd).2 = pcm_refs fd' l)
    by (intros fd' Hne; by apply pcm_refs_other).
  assert (Hclosed : forall k, fst (release k fd) = if pcm_refs fd k =? 1 then [fd] else []).
  { intros k. unfold release, pcm_refs. destruct (find_first _ k) as [c|]; [|done].
    destruct (Z.eqb_spec (pc_refCount c - 1) 0), (Z.eqb_spec (pc_refCount c) 1); try lia; done. }
  pose proof (Hclosed l) as Hc1. pose proof (Hclosed (release l fd).2) as Hc2. rewrite Hr in Hc2.
  destruct (release l fd) as [closed l']. cbn in *. split_and!; [done..|].
  rewrite Hc2. destruct (Z.eqb_spec (pcm_refs fd l - 1) 1), (Z.eqb_spec (pcm_refs fd l) 2); try lia; done.
Qed.

(** A channel shared by two notifications. *)
Definition demo_channels : list PulseChannel :=
  [mkPulseChannel 0 100 7 5 2; mkPulseChannel 0 200 9 6 1].

Lemma demo_channels_wf : pcm_wf demo_channels.
Proof.
  split_and!; [apply (bool_decide_unpack _); vm_compute; exact I..|].
  repeat constructor; cbn; lia.
Qed.

Lemma release_correct_witness :
  pcm_refs 5 (release demo_channels 5).2 = 1 /\ (release demo_channels 6).1 = [6].
Proof.
  split.
  - pose proof (release_correct demo_channels 5 demo_channels_wf ltac:(cbn; lia)) as H. cbn in *.
    exact (proj1 (proj2 H)).
  - pose proof (release_correct demo_channels 6 demo_channels_wf ltac:(cbn; lia)) as H. cbn in *.
    exact (proj1 (proj2 (proj2 (proj2 H)))).
Defined.

(** An environment whose connections to local channels all succeed. *)
Definition demo_attach_env : Env := {|
  env_open _ := Some 8;
  env_connect _ _ _ := io_ok;
  env_wait _ _ := io_failed;
  env_getgrgid _ := None;
  env_getpwnam _ := None;
  env_regcomp _ := 0;
  env_regexec _ _ := 1;
  env_implVersion := mkImplVersion 0 0 0;
  env_pulse := zero_pulse;
  env_after_name := 1;
  env_overlay_clientID := party_of_global 0;
|}.

Lemma attach_correct_witness :
  let '(rc, l', _) := pcm_attach (H := demo_attach_env) 0 demo_channels 0 300 2 in
  rc = 8 /\ pcm_refs 8 l' = 1 /\ pcm_refs 5 l' = 2.
Proof.
  pose proof (attach_correct (H := demo_attach_env) 0 demo_channels 0 300 2 demo_channels_wf) as H.
  vm_compute in H. vm_compute. destruct H as (_ & H & _).
  { intros fd Hfd. repeat (apply elem_of_cons in Hfd as [->|Hfd]; [done|]). by apply elem_of_nil in Hfd. }
  destruct (H ltac:(done)) as [H1 H2]. split; [reflexivity|]. split; [exact H1|].
  exact (H2 5 ltac:(done)).
Defined.
