(* ===== verification/NotificationPool.v ===== *)
(** Proxies for notifications set at the master:
    [src/servicebroker/NotificationPool.{hpp,cpp}].

    A pool entry stands for many local notifications and one notification at the
    master.  Its variant member [mDataSwitch] holds an interface description or,
    once the pool monitors a disconnect, a server id; the search functions
    dereference it without a test.  [pool_wf] is the invariant that makes this
    safe.  [detach] acts on the whole servicebroker and is in Notifications.v. *)

From S2P Require Import Prelude.
From S2P Require Import Layout.
From S2P Require Import Types.

Inductive EPoolState :=
  | STATE_UNDEFINED
  | STATE_DEFERRED
  | STATE_CONNECTING
  | STATE_CONNECTED
  | STATE_PRECACHING
  | STATE_MONITOR_DISCONNECT.

#[export] Instance EPoolState_eq_dec : EqDecision EPoolState.
Proof. solve_decision. Defined.

(** [NotificationPoolEntry::toString]; [STATE_DEFERRED] has no case of its own. *)
Definition poolState_toString (st : EPoolState) : string :=
  match st with
  | STATE_UNDEFINED => "STATE_UNDEFINED"
  | STATE_CONNECTING => "STATE_CONNECTING"
  | STATE_MONITOR_DISCONNECT => "STATE_MONITOR_DISCONNECT"
  | STATE_CONNECTED => "STATE_CONNECTED"
  | STATE_PRECACHING => "STATE_PRECACHING"
  | STATE_DEFERRED => "STATE_???"
  end.

Definition INVALID_NOTIFICATION_ID : Z := 0xffffffff.

Record NotificationPoolEntry := mkPoolEntry {
  pe_notificationID : Z;
  pe_poolID : Z;
  pe_mDataSwitch : InterfaceDescription + SPartyID;
  pe_mPoolState : EPoolState;
  pe_mRefCount : Z;
}.

#[export] Instance eta_NotificationPoolEntry : Eta NotificationPoolEntry := fun r =>
  mkPoolEntry (pe_notificationID r) (pe_poolID r) (pe_mDataSwitch r) (pe_mPoolState r)
    (pe_mRefCount r).

(** The two constructors; [id] is the incremented [NextPoolID]. *)
Definition new_PoolEntry_ifDescr (id : Z) (d : InterfaceDescription) (isDeferredPool : bool)
    : NotificationPoolEntry :=
  mkPoolEntry INVALID_NOTIFICATION_ID id (inl d)
    (if isDeferredPool then STATE_DEFERRED else STATE_CONNECTING) 0.

Definition new_PoolEntry_party (id : Z) (serverID : SPartyID) : NotificationPoolEntry :=
  mkPoolEntry INVALID_NOTIFICATION_ID id (inr serverID) STATE_MONITOR_DISCONNECT 0.

Definition getInterfaceDescription (e : NotificationPoolEntry) : option InterfaceDescription :=
  match pe_mDataSwitch e with inl d => Some d | inr _ => None end.

Definition getServerID (e : NotificationPoolEntry) : option SPartyID :=
  match pe_mDataSwitch e with inl _ => None | inr p => Some p end.

(** [setState(EPoolState)]: the new entry, or [None] when the change is refused. *)
Definition setState (newState : EPoolState) (e : NotificationPoolEntry)
    : option NotificationPoolEntry :=
  match pe_mPoolState e, newState with
  | STATE_DEFERRED, STATE_CONNECTING => Some (e <| pe_mPoolState := STATE_CONNECTING |>)
  | STATE_CONNECTING, STATE_CONNECTED => Some (e <| pe_mPoolState := STATE_CONNECTED |>)
  | STATE_CONNECTED, STATE_PRECACHING => Some (e <| pe_mPoolState := STATE_PRECACHING |>)
  | _, _ => None
  end.

(** [setState(const SPartyID&)]. *)
Definition setState_party (serverID : SPartyID) (e : NotificationPoolEntry)
    : option NotificationPoolEntry :=
  match pe_mPoolState e with
  | STATE_DEFERRED | STATE_PRECACHING =>
    Some (e <| pe_mPoolState := STATE_MONITOR_DISCONNECT |> <| pe_mDataSwitch := inr serverID |>)
  | _ => None
  end.

(** The pool's side of [attach]; the notification gets [pe_poolID]. *)
Definition pe_attach (e : NotificationPoolEntry) : NotificationPoolEntry :=
  e <| pe_mRefCount ::= (fun c => u32 (c + 1)) |>.

(** The pool's side of [detach]: the reference count stops at 0. *)
Definition pe_detach (e : NotificationPoolEntry) : NotificationPoolEntry :=
  e <| pe_mRefCount ::= (fun c => if 0 <? c then c - 1 else c) |>.

(** ** NotificationPool *)

Record NotificationPool := mkNotificationPool {
  np_mEntries : list NotificationPoolEntry;
  np_mTotalCounter : Z;
}.

#[export] Instance eta_NotificationPool : Eta NotificationPool := fun r =>
  mkNotificationPool (np_mEntries r) (np_mTotalCounter r).

Definition empty_NotificationPool : NotificationPool := mkNotificationPool [] 0.

(** [add]: the pool and the position of the new entry. *)
Definition np_add (e : NotificationPoolEntry) (np : NotificationPool) : Z * NotificationPool :=
  (Z.of_nat (length (np_mEntries np)),
   mkNotificationPool (np_mEntries np ++ [e]) (u32 (np_mTotalCounter np + 1))).

(** Is the entry's description read in [find(ifDescription, extendedSearch)]? *)
Definition ifDescr_searched (extendedSearch : bool) (e : NotificationPoolEntry) : bool :=
  (extendedSearch && negb (bool_decide (pe_mPoolState e = STATE_MONITOR_DISCONNECT)))
  || bool_decide (pe_mPoolState e = STATE_CONNECTING).

Definition np_find_ifDescr (d : InterfaceDescription) (extendedSearch : bool)
    (np : NotificationPool) : Z :=
  find_last (fun e => ifDescr_searched extendedSearch e &&
    match getInterfaceDescription e with Some d' => ifDescr_eqb d' d | None => false end)
    (np_mEntries np).

Definition np_find_party (p : SPartyID) (np : NotificationPool) : Z :=
  find_last (fun e => bool_decide (pe_mPoolState e = STATE_MONITOR_DISCONNECT) &&
    match getServerID e with Some q => party_eqb q p | None => false end)
    (np_mEntries np).

Definition np_find_id (poolID : Z) (np : NotificationPool) : Z :=
  find_last (fun e => pe_poolID e =? poolID) (np_mEntries np).

Definition np_removePool (poolID : Z) (np : NotificationPool) : NotificationPool :=
  let pos := np_find_id poolID np in
  if pos =? -1 then np else np <| np_mEntries ::= delete (Z.to_nat pos) |>.

(** [operator[]]; [None] is out of range. *)
Definition np_get (pos : Z) (np : NotificationPool) : option NotificationPoolEntry :=
  if pos <? 0 then None else np_mEntries np !! Z.to_nat pos.

(** A write through [operator[]]. *)
Definition np_update (pos : Z) (f : NotificationPoolEntry -> NotificationPoolEntry)
    (np : NotificationPool) : NotificationPool :=
  if pos <? 0 then np else np <| np_mEntries ::= alter f (Z.to_nat pos) |>.

Definition np_clear (np : NotificationPool) : NotificationPool := np <| np_mEntries := [] |>.

(** ** Invariant *)

(** The variant agrees with the state. *)
Definition pe_wf (e : NotificationPoolEntry) : Prop :=
  match pe_mDataSwitch e with
  | inl _ => pe_mPoolState e <> STATE_MONITOR_DISCONNECT
  | inr _ => pe_mPoolState e = STATE_MONITOR_DISCONNECT
  end.

Definition pool_wf (np : NotificationPool) : Prop := Forall pe_wf (np_mEntries np).

(** No null dereference in the two searches that read the variant. *)
Definition ifDescr_deref_ok (extendedSearch : bool) (np : NotificationPool) : bool :=
  forallb (fun e => negb (ifDescr_searched extendedSearch e) ||
    bool_decide (getInterfaceDescription e <> None)) (np_mEntries np).

Definition party_deref_ok (np : NotificationPool) : bool :=
  forallb (fun e => negb (bool_decide (pe_mPoolState e = STATE_MONITOR_DISCONNECT)) ||
    bool_decide (getServerID e <> None)) (np_mEntries np).

(** The documented life cycle of a pool. *)
Inductive pool_step : EPoolState -> EPoolState -> Prop :=
  | ps_decide_connect : pool_step STATE_DEFERRED STATE_CONNECTING
  | ps_decide_disconnect : pool_step STATE_DEFERRED STATE_MONITOR_DISCONNECT
  | ps_connected : pool_step STATE_CONNECTING STATE_CONNECTED
  | ps_precaching : pool_step STATE_CONNECTED STATE_PRECACHING
  | ps_monitor : pool_step STATE_PRECACHING STATE_MONITOR_DISCONNECT.

(** ** Lemmas *)

Lemma pe_wf_monitor e :
  pe_wf e -> pe_mPoolState e = STATE_MONITOR_DISCONNECT <-> getServerID e <> None.
Proof. unfold pe_wf, getServerID. destruct (pe_mDataSwitch e); intros H; split; naive_solver. Qed.

Lemma pe_wf_ifDescr e :
  pe_wf e -> pe_mPoolState e <> STATE_MONITOR_DISCONNECT <-> getInterfaceDescription e <> None.
Proof.
  unfold pe_wf, getInterfaceDescription. destruct (pe_mDataSwitch e); intros H; split; naive_solver.
Qed.

Lemma setState_wf st e e' : setState st e = Some e' -> pe_wf e -> pe_wf e'.
Proof.
  unfold setState, pe_wf. destruct (pe_mPoolState e) eqn:Hs, st; try done; intros [= <-];
    cbn; destruct (pe_mDataSwitch e); done.
Qed.

Lemma setState_party_wf p e e' : setState_party p e = Some e' -> pe_wf e'.
Proof. unfold setState_party. destruct (pe_mPoolState e); try done; intros [= <-]; done. Qed.

(** [setState] allows exactly the documented transitions. *)
Lemma setState_steps e st :
  st <> STATE_MONITOR_DISCONNECT ->
  (exists e', setState st e = Some e' /\ pe_mPoolState e' = st) <-> pool_step (pe_mPoolState e) st.
Proof.
  intros Hst. split.
  - intros (e' & H & _). revert H. unfold setState.
    destruct (pe_mPoolState e), st; intros [=]; constructor.
  - intros H. unfold setState. inversion H as [Ha Hb|Ha Hb|Ha Hb|Ha Hb|Ha Hb]; subst;
      try done; eexists; done.
Qed.

Lemma setState_party_steps e p :
  (exists e', setState_party p e = Some e') <-> pool_step (pe_mPoolState e) STATE_MONITOR_DISCONNECT.
Proof.
  split.
  - intros (e' & H). revert H. unfold setState_party.
    destruct (pe_mPoolState e); intros [=]; constructor.
  - intros H. unfold setState_party. inversion H as [Ha|Ha|Ha|Ha|Ha]; subst; eexists; done.
Qed.

Lemma pool_wf_derefs np b : pool_wf np -> ifDescr_deref_ok b np = true /\ party_deref_ok np = true.
Proof.
  intros Hwf. unfold ifDescr_deref_ok, party_deref_ok. rewrite !forallb_forall.
  unfold pool_wf in Hwf. rewrite Forall_forall in Hwf. setoid_rewrite <-list_elem_of_In.
  split; intros e He; specialize (Hwf e He); apply orb_true_iff.
  - destruct (ifDescr_searched b e) eqn:Hs; [right|by left]. apply bool_decide_eq_true.
    apply pe_wf_ifDescr; [done|]. unfold ifDescr_searched in Hs.
    intros Hm. rewrite Hm in Hs. by rewrite andb_false_r in Hs.
  - destruct (bool_decide (pe_mPoolState e = _)) eqn:Hs; [right|by left].
    apply bool_decide_eq_true. apply pe_wf_monitor; [done|]. by apply bool_decide_eq_true in Hs.
Qed.

Lemma np_add_wf e np : pe_wf e -> pool_wf np -> pool_wf (snd (np_add e np)).
Proof. intros He Hnp. apply Forall_app. split; [done|]. by repeat constructor. Qed.

Lemma np_removePool_wf id np : pool_wf np -> pool_wf (np_removePool id np).
Proof.
  intros Hwf. unfold np_removePool. destruct (_ =? -1); [done|]. cbn.
  unfold pool_wf. cbn. by apply Forall_delete.
Qed.

Lemma np_update_wf pos f np :
  (forall e, np_get pos np = Some e -> pe_wf e -> pe_wf (f e)) -> pool_wf np ->
  pool_wf (np_update pos f np).
Proof.
  intros Hf Hwf. unfold np_update, np_get in *. destruct (pos <? 0); [done|].
  unfold pool_wf. cbn. apply Forall_alter; [done|]. intros e He. by apply Hf.
Qed.

Lemma np_clear_wf np : pool_wf (np_clear np).
Proof. constructor. Qed.

Lemma np_get_elem pos np e : np_get pos np = Some e -> e ∈ np_mEntries np.
Proof. unfold np_get. destruct (pos <? 0); [done|]. apply list_elem_of_lookup_2. Qed.

(** A position returned by one of the searches is a valid index. *)
Lemma np_get_find_last p np :
  find_last p (np_mEntries np) <> -1 ->
  exists e, np_get (find_last p (np_mEntries np)) np = Some e /\ p e = true.
Proof.
  intros Hne. destruct (find_last_some p _ Hne) as (e & He & Hp & Hpos). exists e.
  unfold np_get. rewrite (proj2 (Z.ltb_ge _ _)) by done. done.
Qed.

(** The entry [add] returns the position of. *)
Lemma np_get_add e np : np_get (fst (np_add e np)) (snd (np_add e np)) = Some e.
Proof.
  unfold np_get, np_add. cbn. rewrite (proj2 (Z.ltb_ge _ _)) by lia.
  rewrite Nat2Z.id. by rewrite lookup_app_r, Nat.sub_diag by lia.
Qed.

#[export] Hint Resolve np_add_wf np_removePool_wf np_clear_wf : dsi.

(** ** Properties *)

(** The life cycle of a pool: the two [setState] overloads together accept
    exactly the documented changes of state, and every change they accept keeps the
    variant in step with the state. *)
Lemma pool_life_cycle e st' :
  ((exists e', (exists st, setState st e = Some e') /\ pe_mPoolState e' = st') \/
   (exists e', (exists p, setState_party p e = Some e') /\ pe_mPoolState e' = st')
   <-> pool_step (pe_mPoolState e) st') /\
  (pe_wf e -> forall e', (exists st, setState st e = Some e') \/ (exists p, setState_party p e = Some e') ->
   pe_wf e').
Proof.
  split.
  - split.
    + intros [(e' & [st H] & <-)|(e' & [p H] & <-)]; revert H.
      * unfold setState. destruct (pe_mPoolState e), st; intros [= <-]; constructor.
      * unfold setState_party. destruct (pe_mPoolState e); intros [= <-]; constructor.
    + intros H. destruct (decide (st' = STATE_MONITOR_DISCONNECT)) as [->|Hst].
      * right. unfold setState_party. inversion H as [Ha|Ha|Ha|Ha|Ha]; subst;
          eexists; (split; [exists (party_of_global 0); reflexivity|reflexivity]).
      * left. apply setState_steps in H as (e' & H & Hst'); [|done]. exists e'. eauto.
  - intros Hwf e' [[st H]|[p H]]; [by eapply setState_wf | by eapply setState_party_wf].
Qed.

Lemma pool_life_cycle_witness :
  exists e', pe_mPoolState e' = STATE_CONNECTED /\ pe_wf e'.
Proof.
  pose proof (pool_life_cycle (new_PoolEntry_ifDescr 1 empty_ifDescr false) STATE_CONNECTED) as [H1 H2].
  exists (new_PoolEntry_ifDescr 1 empty_ifDescr false <| pe_mPoolState := STATE_CONNECTED |>).
  split; [reflexivity|]. apply H2; [discriminate|]. left. exists STATE_CONNECTED. reflexivity.
Defined.

(** The searches. *)

Lemma np_find_spec q np :
  find_last q (np_mEntries np) = -1 /\ Forall (fun e => q e = false) (np_mEntries np) \/
  exists e, np_get (find_last q (np_mEntries np)) np = Some e /\ q e = true.
Proof.
  destruct (decide (find_last q (np_mEntries np) = -1)) as [Heq|Hne].
  - left. split; [done|]. rewrite find_last_none in Heq. by apply Forall_forall.
  - right. by apply np_get_find_last.
Qed.

(** On a well-formed pool list the three searches never read the absent
    alternative of a variant; each returns either -1, and then no pool fits, or the
    index of a pool that fits; and removing a pool by its id removes exactly one
    entry with that id, if there is one. *)
Lemma pool_search_correct np d b p id :
  pool_wf np ->
  (ifDescr_deref_ok b np = true /\ party_deref_ok np = true) /\
  (np_find_ifDescr d b np = -1 /\
     Forall (fun e => ifDescr_searched b e = true ->
       exists d', pe_mDataSwitch e = inl d' /\ ifDescr_eqb d' d = false) (np_mEntries np) \/
   exists e d', np_get (np_find_ifDescr d b np) np = Some e /\ ifDescr_searched b e = true /\
     pe_mDataSwitch e = inl d' /\ ifDescr_eqb d' d = true) /\
  (np_find_party p np = -1 /\
     Forall (fun e => forall q, pe_mDataSwitch e = inr q -> party_eqb q p = false) (np_mEntries np) \/
   exists e q, np_get (np_find_party p np) np = Some e /\ pe_mDataSwitch e = inr q /\
     party_eqb q p = true) /\
  (np_find_id id np = -1 /\ np_removePool id np = np \/
   exists e, np_get (np_find_id id np) np = Some e /\ pe_poolID e = id /\
     np_mEntries np ≡ₚ e :: np_mEntries (np_removePool id np)).
Proof.
  intros Hwf. split_and!; [by apply pool_wf_derefs..| | |].
  - unfold np_find_ifDescr. destruct (np_find_spec (fun e => ifDescr_searched b e &&
      match getInterfaceDescription e with Some d' => ifDescr_eqb d' d | None => false end) np)
      as [[Heq Hall]|(e & He & Hq)].
    + left. split; [done|]. rewrite Forall_forall in Hall |- *. intros e Hin Hs.
      pose proof (proj1 (Forall_forall _ _) Hwf e Hin) as Hewf.
      specialize (Hall e Hin). rewrite Hs in Hall. cbn in Hall. unfold getInterfaceDescription in Hall.
      unfold pe_wf in Hewf. destruct (pe_mDataSwitch e) as [d'|q]; [by exists d'|].
      unfold ifDescr_searched in Hs. rewrite Hewf in Hs. by destruct b.
    + right. apply andb_prop in Hq as [Hs Hq]. unfold getInterfaceDescription in Hq.
      destruct (pe_mDataSwitch e) as [d'|] eqn:Hd; [|done]. by exists e, d'.
  - unfold np_find_party. destruct (np_find_spec (fun e =>
      bool_decide (pe_mPoolState e = STATE_MONITOR_DISCONNECT) &&
      match getServerID e with Some q => party_eqb q p | None => false end) np)
      as [[Heq Hall]|(e & He & Hq)].
    + left. split; [done|]. rewrite Forall_forall in Hall |- *. intros e Hin q Hd.
      pose proof (proj1 (Forall_forall _ _) Hwf e Hin) as Hewf. specialize (Hall e Hin).
      unfold pe_wf in Hewf. rewrite Hd in Hewf. unfold getServerID in Hall. rewrite Hd, Hewf in Hall. exact Hall.
    + right. apply andb_prop in Hq as [Hs Hq]. unfold getServerID in Hq.
      destruct (pe_mDataSwitch e) as [|q] eqn:Hd; [done|]. by exists e, q.
  - unfold np_removePool. unfold np_find_id.
    destruct (np_find_spec (fun e => pe_poolID e =? id) np) as [[Heq Hall]|(e & He & Hq)].
    + left. by rewrite Heq.
    + right. exists e. split; [done|]. split; [by apply Z.eqb_eq|].
      unfold np_get in He. destruct (Z.ltb_spec (find_last (fun e => pe_poolID e =? id) (np_mEntries np)) 0);
        [done|]. rewrite (proj2 (Z.eqb_neq _ (-1))) by lia. cbn.
      apply delete_Permutation. exact He.
Qed.

Lemma pool_search_correct_witness :
  let np := mkNotificationPool
    [new_PoolEntry_party 7 (mkParty 3 0); new_PoolEntry_ifDescr 8 empty_ifDescr false] 2 in
  pool_wf np /\ np_find_id 7 np = 0 /\
  np_mEntries np ≡ₚ new_PoolEntry_party 7 (mkParty 3 0) :: np_mEntries (np_removePool 7 np).
Proof.
  cbn zeta. set (np := mkNotificationPool _ _).
  assert (Hwf : pool_wf np) by (repeat constructor; discriminate).
  split; [exact Hwf|]. split; [reflexivity|].
  destruct (pool_search_correct np empty_ifDescr true (mkParty 3 0) 7 Hwf)
    as (_ & _ & _ & [[H _]|(e & He & _ & Hp)]); [discriminate H|].
  vm_compute in He. injection He as <-. exact Hp.
Defined.
