(* ===== verification/MessageContext.v ===== *)
(** Requests, responses and the message context a handler works on:
    [src/servicebroker/{MessageContext,SocketMessageContext}.{hpp,cpp}] and the
    request and response side of [AutoBuffer.hpp].

    A request is its command with the decoded argument struct.  Requests with
    ancillary data carry [items]: what the handler's local struct holds after the
    [k]-th [readAncillaryData].  Payloads are kept as values with their sizes in
    bytes.  The assertions of the code are part of each operation's result: a
    [false] means that an assertion fails. *)

From S2P Require Import Prelude.
From S2P Require Import Layout.
From S2P Require Import Types.

(** ** Requests *)

Inductive Request :=
  | RQ_Register (a : RegisterArg)
  | RQ_RegisterEx (a : RegisterExArg) (items : nat -> SFNDInterfaceDescription)
  | RQ_RegisterGroupID (a : RegisterGroupIDArg)
  | RQ_Unregister (serverID : SPartyID)
  | RQ_Attach (d : SFNDInterfaceDescription)
  | RQ_AttachExtended (pulse : SFNDPulseInfo) (d : SFNDInterfaceDescription)
  | RQ_GetServerInformation (d : SFNDInterfaceDescription)
  | RQ_Detach (clientID : SPartyID)
  | RQ_NotifyServerDisconnect (serverID : SPartyID) (pulse : SFNDPulseInfo)
  | RQ_NotifyServerAvailable (pulse : SFNDPulseInfo) (d : SFNDInterfaceDescription)
  | RQ_NotifyServerAvailableEx (count : Z) (items : nat -> SFNDNotificationDescription)
  | RQ_NotifyClientDetach (clientID : SPartyID) (pulse : SFNDPulseInfo)
  | RQ_ClearNotification (notificationID : Z)
  | RQ_RegisterMasterEx (ifCount : Z) (items : nat -> SFNDInterfaceDescriptionEx)
  | RQ_GetInterfaceList (inElementCount : Z)
  | RQ_NotifyInterfaceListChange (pulse : SFNDPulseInfo)
  | RQ_MatchInterfaceList (inElementCount : Z) (regExpr : bytes)
  | RQ_NotifyInterfaceListMatch (pulse : SFNDPulseInfo) (regExpr : bytes)
  | RQ_MasterPing
  | RQ_MasterPingId (id : Z)
  | RQ_Unknown (code : Z).

(** The command of a request; [None] when the code is not one of [dispatch]'s. *)
Definition request_dcmd (r : Request) : option dcmd :=
  match r with
  | RQ_Register _ => Some DCMD_FND_REGISTER_INTERFACE
  | RQ_RegisterEx _ _ => Some DCMD_FND_REGISTER_INTERFACE_EX
  | RQ_RegisterGroupID _ => Some DCMD_FND_REGISTER_INTERFACE_GROUPID
  | RQ_Unregister _ => Some DCMD_FND_UNREGISTER_INTERFACE
  | RQ_Attach _ => Some DCMD_FND_ATTACH_INTERFACE
  | RQ_AttachExtended _ _ => Some DCMD_FND_ATTACH_INTERFACE_EXTENDED
  | RQ_GetServerInformation _ => Some DCMD_FND_GET_SERVER_INFORMATION
  | RQ_Detach _ => Some DCMD_FND_DETACH_INTERFACE
  | RQ_NotifyServerDisconnect _ _ => Some DCMD_FND_NOTIFY_SERVER_DISCONNECT
  | RQ_NotifyServerAvailable _ _ => Some DCMD_FND_NOTIFY_SERVER_AVAILABLE
  | RQ_NotifyServerAvailableEx _ _ => Some DCMD_FND_NOTIFY_SERVER_AVAILABLE_EX
  | RQ_NotifyClientDetach _ _ => Some DCMD_FND_NOTIFY_CLIENT_DETACH
  | RQ_ClearNotification _ => Some DCMD_FND_CLEAR_NOTIFICATION
  | RQ_RegisterMasterEx _ _ => Some DCMD_FND_REGISTER_MASTER_INTERFACE_EX
  | RQ_GetInterfaceList _ => Some DCMD_FND_GET_INTERFACELIST
  | RQ_NotifyInterfaceListChange _ => Some DCMD_FND_NOTIFY_INTERFACELIST_CHANGE
  | RQ_MatchInterfaceList _ _ => Some DCMD_FND_MATCH_INTERFACELIST
  | RQ_NotifyInterfaceListMatch _ _ => Some DCMD_FND_NOTIFY_INTERFACELIST_MATCH
  | RQ_MasterPing => Some DCMD_FND_MASTER_PING
  | RQ_MasterPingId _ => Some DCMD_FND_MASTER_PING_ID
  | RQ_Unknown _ => None
  end.

(** A received frame: [fr_envelope.fr_size], the version every argument starts
    with, and the request. *)
Record Frame := mkFrame { fr_size : Z; fr_sbVersion : SFNDInterfaceVersion; fr_request : Request }.

(** ** Responses *)

(** One [writeAncillaryData]. *)
Inductive Ancillary :=
  | AN_serverID (id : SPartyID)
  | AN_notification (n : SFNDNotificationID)
  | AN_ifDescription (d : SFNDInterfaceDescription).

Definition ancillary_size (a : Ancillary) : Z :=
  match a with
  | AN_serverID _ => sizeof lay_SPartyID
  | AN_notification _ => sizeof lay_SFNDNotificationID
  | AN_ifDescription _ => sizeof lay_SFNDInterfaceDescription
  end.

(** The [o] part of the argument.  In [PL_AttachExtended] the connection
    information is absent when the code leaves the request bytes in place. *)
Inductive Payload :=
  | PL_none
  | PL_serverID (id : SPartyID)
  | PL_connInfo (c : SConnectionInfo)
  | PL_AttachExtended (c : option SConnectionInfo) (notificationID : Z)
  | PL_serverInfo (i : SServerInfo)
  | PL_notificationID (id : Z)
  | PL_ancillary (l : list Ancillary)
  | PL_interfaces (l : list SFNDInterfaceDescription).

Record Response := mkResponse {
  rs_size : Z;
  rs_returncode : Z;
  rs_payload : Payload;
}.

(** ** The message context *)

Inductive MsgState := State_INITIAL | State_PROCESSING | State_SENT | State_DEFERRED.

#[export] Instance MsgState_eq_dec : EqDecision MsgState.
Proof. solve_decision. Defined.

(** [mc_written] and [mc_response] are the write buffer, [mc_size] the size field
    of the frame in the read buffer. *)
Record MessageContext := mkMessageContext {
  mc_mState : MsgState;
  mc_mGetOffset : Z;
  mc_mPutOffset : Z;
  mc_size : Z;
  mc_written : list Ancillary;
  mc_response : Response;
}.

#[export] Instance eta_MessageContext : Eta MessageContext := fun r =>
  mkMessageContext (mc_mState r) (mc_mGetOffset r) (mc_mPutOffset r) (mc_size r) (mc_written r)
    (mc_response r).

(** The constructor; the write buffer holds the default response [eval] prepared. *)
Definition new_MessageContext (size : Z) (default : Response) : MessageContext :=
  mkMessageContext State_INITIAL (-1) 0 size [] default.

(** [AutoBuffer::read(buf, len, offset)] where [offset] does not count the frame
    header: the number of bytes copied, or -1. *)
Definition buffer_read (size len offset : Z) : Z :=
  let rc := if len + offset <=? size then len else size - offset in
  if 0 <? rc then rc else -1.

(** [readData]: assertion, bytes read, new context. *)
Definition mc_readData (len : Z) (m : MessageContext) : bool * Z * MessageContext :=
  (bool_decide (mc_mState m = State_INITIAL), buffer_read (mc_size m) len 0,
   m <| mc_mState := State_PROCESSING |>).

Definition mc_readAncillaryData (len : Z) (m : MessageContext) : bool * Z * MessageContext :=
  let rc := buffer_read (mc_size m) len (mc_mGetOffset m) in
  (bool_decide (mc_mState m = State_PROCESSING) && (0 <=? mc_mGetOffset m), rc,
   if 0 <? rc then m <| mc_mGetOffset ::= Z.add len |> else m).

Definition mc_writeAncillaryData (a : Ancillary) (m : MessageContext) : bool * MessageContext :=
  (bool_decide (mc_mState m = State_PROCESSING) && (0 <=? mc_mPutOffset m),
   m <| mc_written ::= (fun l => l ++ [a]) |> <| mc_mPutOffset ::= Z.add (ancillary_size a) |>).

(** [prepareResponse(retval, force)]. *)
Definition mc_prepareResponse (retval : Z) (force : bool) (m : MessageContext)
    : bool * MessageContext :=
  (force || bool_decide (mc_mState m = State_PROCESSING),
   m <| mc_mState := State_SENT |>
     <| mc_response :=
          if (0 <? mc_mPutOffset m) && (retval <=? sb_code FNDOK)
          then mkResponse (mc_mPutOffset m) retval (PL_ancillary (mc_written m))
          else mkResponse 0 retval PL_none |>).

(** [prepareResponse(retval, data, len)]; [AutoBuffer::write] asserts that [data]
    is not null ([PL_none]). *)
Definition mc_prepareResponse_data (retval : Z) (data : Payload) (len : Z) (m : MessageContext)
    : bool * MessageContext :=
  (bool_decide (mc_mState m = State_PROCESSING) &&
     match data with PL_none => false | _ => true end,
   m <| mc_mState := State_SENT |>
     <| mc_response :=
          mkResponse (if (0 <? mc_mPutOffset m) && (retval =? sb_code FNDOK)
                      then mc_mPutOffset m else len) retval data |>).

Definition mc_deferResponse (m : MessageContext) : MessageContext :=
  m <| mc_mState := State_DEFERRED |>.

Definition mc_setGetOffset (off : Z) (m : MessageContext) : MessageContext :=
  m <| mc_mGetOffset := off |>.

(** [sendDeferredResponse]: the response built from a finished job. *)
Definition deferred_response (status retval : Z) (data : Payload) (len : Z) : Response :=
  if negb (status =? 0) then mkResponse 0 (sb_code FNDInternalError) PL_none
  else if retval <=? sb_code FNDOK then mkResponse len retval data
  else mkResponse 0 retval PL_none.

(** The handlers' loops over ancillary data: up to [k] items of [len] bytes, stopping
    at the first [readAncillaryData] that fails; the byte counts and the context. *)
Fixpoint read_items (k : nat) (len : Z) (m : MessageContext) : list Z * MessageContext :=
  match k with
  | O => ([], m)
  | S k' =>
    let '(_, rc, m') := mc_readAncillaryData len m in
    if 0 <? rc then let '(rcs, m'') := read_items k' len m' in (rc :: rcs, m'') else ([], m')
  end.

(** The number of items of [len] bytes that start before the end of the frame. *)
Definition items_available (size off len : Z) : Z := (size - off + len - 1) / len.

(** A context a handler has finished with. *)
Definition answered (m : MessageContext) : Prop :=
  mc_mState m = State_SENT \/ mc_mState m = State_DEFERRED.

(** ** Lemmas *)

Lemma buffer_read_bound size len off :
  buffer_read size len off = -1 \/
  (0 < buffer_read size len off <= len /\ buffer_read size len off <= size - off).
Proof.
  unfold buffer_read. destruct (Z.leb_spec (len + off) size), (Z.ltb_spec 0 len),
    (Z.ltb_spec 0 (size - off)); lia.
Qed.

(** The whole struct is read whenever the frame is long enough. *)
Lemma buffer_read_full size len off :
  0 < len -> len + off <= size -> buffer_read size len off = len.
Proof.
  intros ? ?. unfold buffer_read. rewrite (proj2 (Z.leb_le _ _)) by lia.
  by rewrite (proj2 (Z.ltb_lt _ _)) by lia.
Qed.

Lemma buffer_read_pos size len : 0 < len -> 0 < size -> 0 < buffer_read size len 0.
Proof.
  intros ? ?. unfold buffer_read. destruct (Z.leb_spec (len + 0) size), (Z.ltb_spec 0 len),
    (Z.ltb_spec 0 (size - 0)); lia.
Qed.

(** ** Properties *)

Lemma items_available_step size off len :
  0 < len -> items_available size off len = items_available size (len + off) len + 1.
Proof.
  intros Hl. unfold items_available.
  replace (size - off + len - 1) with (size - (len + off) + len - 1 + 1 * len) by lia.
  by rewrite Z.div_add by lia.
Qed.

(** Reading ancillary data stays inside the frame however many items a request
    announces: of [k] items of [len] bytes the loop gets exactly those that start
    inside the frame; every count is within the item and within the frame, and all
    items but the last are complete. *)
Lemma read_items_bounds k len m :
  0 < len -> 0 <= mc_mGetOffset m ->
  let rcs := (read_items k len m).1 in
  Z.of_nat (length rcs) =
    Z.min (Z.of_nat k) (Z.max 0 (items_available (mc_size m) (mc_mGetOffset m) len)) /\
  (forall i rc, rcs !! i = Some rc ->
     rc = Z.min len (mc_size m - (mc_mGetOffset m + Z.of_nat i * len)) /\ 0 < rc /\
     mc_mGetOffset m + Z.of_nat i * len + rc <= mc_size m /\
     (S i < length rcs -> rc = len)%nat).
Proof.
  intros Hl. revert m. induction k as [|k IH]; intros m Hoff rcs; subst rcs; cbn [read_items].
  { cbn. split; [lia|]. intros i rc [=]. }
  unfold mc_readAncillaryData.
  set (rc := buffer_read (mc_size m) len (mc_mGetOffset m)).
  pose proof (buffer_read_bound (mc_size m) len (mc_mGetOffset m)) as Hb. fold rc in Hb.
  pose proof (items_available_step (mc_size m) (mc_mGetOffset m) len Hl) as Hstep.
  destruct (Z.ltb_spec 0 rc) as [Hrc|Hrc].
  - assert (Hrc' : rc = Z.min len (mc_size m - mc_mGetOffset m)).
    { unfold rc, buffer_read in *.
      destruct (Z.leb_spec (len + mc_mGetOffset m) (mc_size m)), (Z.ltb_spec 0 len),
        (Z.ltb_spec 0 (mc_size m - mc_mGetOffset m)); lia. }
    specialize (IH (m <| mc_mGetOffset ::= Z.add len |>)). cbn in IH.
    destruct (read_items k len _) as [rcs m''] eqn:E. cbn in IH |- *.
    destruct IH as [Hlen Hnth]; [lia|].
    assert (0 <= items_available (mc_size m) (len + mc_mGetOffset m) len).
    { unfold items_available. apply Z.div_pos; lia. }
    split; [lia|]. intros [|i] r; cbn.
    + intros [= <-]. split_and!; [lia..|]. intros Hlen'.
      destruct rcs as [|r' rcs]; [cbn in Hlen'; lia|].
      destruct (Hnth 0%nat r' eq_refl) as (Hr' & Hr0 & _). cbn in Hr'. lia.
    + intros Hi. destruct (Hnth i r Hi) as (Hr & Hr0 & Hin & Hfull).
      split_and!; [lia..|]. intros Hlen'. apply Hfull. lia.
  - cbn. split; [|intros i r [=]]. unfold rc, buffer_read in Hrc.
    assert (items_available (mc_size m) (mc_mGetOffset m) len <= 0).
    { unfold items_available.
      assert (mc_size m - mc_mGetOffset m <= 0); [|
        apply Z.lt_succ_r, Z.div_lt_upper_bound; lia].
      destruct (Z.leb_spec (len + mc_mGetOffset m) (mc_size m)); [|
        destruct (Z.ltb_spec 0 (mc_size m - mc_mGetOffset m))]; try lia.
      destruct (Z.ltb_spec 0 len); lia. }
    lia.
Qed.

(** A frame that announces five items of 264 bytes and holds one and a half. *)
Lemma read_items_bounds_witness :
  let m := new_MessageContext 404 (mkResponse 0 0 PL_none) <| mc_mState := State_PROCESSING |>
             <| mc_mGetOffset := 8 |> in
  (read_items 5 264 m).1 = [264; 132] /\ Z.of_nat (length (read_items 5 264 m).1) = 2.
Proof.
  cbn zeta. set (m := new_MessageContext _ _ <| mc_mState := _ |> <| mc_mGetOffset := _ |>).
  split; [reflexivity|].
  exact (proj1 (read_items_bounds 5 264 m ltac:(lia) ltac:(discriminate))).
Defined.
