(* ===== verification/State.v ===== *)
(** The servicebroker's state and its elementary accesses:
    [src/servicebroker/Servicebroker.hpp] (members), [Notification.hpp] (the
    notification record), [ConnectionContext.hpp], [SocketConnectionContext.hpp],
    [ServicebrokerServer.hpp] (client handles) and the file-scope counters.

    The servicebroker runs in one thread; all its globals are one record [SB].
    A pointer to a client handle, its connection context or its
    [ClientSpecificData] is the connection's id [mId]; the three live and die
    together.  The context of the message being dispatched is the field [sb_msg].

    Observable effects (pulses, closed descriptors, responses) are appended to
    [sb_out].  Two ghost fields record what the code must not do or cannot survive:
    [sb_faults] collects the failed assertions and invalid dereferences (theorems
    show which kinds never occur), [sb_exhausted] is set when the 32-bit
    notification counter reaches its reserved value. *)

From S2P Require Import Prelude.
From S2P Require Import Layout.
From S2P Require Import Types.
From S2P Require Import ServerList.
From S2P Require Import ConfigFile.
From S2P Require Import ClientData.
From S2P Require Import JobQueue.
From S2P Require Import Environment.
From S2P Require Import PulseChannelManager.
From S2P Require Import NotificationPool.
From S2P Require Import MessageContext.

(** ** Notifications *)

Record Notification := mkNotification {
  n_notificationID : Z;
  n_masterNotificationID : Z;
  n_poolID : Z;
  n_host : option Z;
  n_partyID : SPartyID;
  n_ifDescription : InterfaceDescription;
  n_local : bool;
  n_uid : Z;
  n_active : bool;
  n_regExpr : option bytes;
  n_pulse : SFNDPulseInfo;
  n_coid : Z;
  n_nid : Z;
}.

#[export] Instance eta_Notification : Eta Notification := fun r =>
  mkNotification (n_notificationID r) (n_masterNotificationID r) (n_poolID r) (n_host r)
    (n_partyID r) (n_ifDescription r) (n_local r) (n_uid r) (n_active r) (n_regExpr r)
    (n_pulse r) (n_coid r) (n_nid r).

(** [Notification()]. *)
Definition new_Notification (id : Z) : Notification :=
  mkNotification id INVALID_NOTIFICATION_ID 0 None (party_of_global 0) empty_ifDescr false
    (u32 SB_UNKNOWN_USER_ID) true None zero_pulse (-1) 0.

Record NotificationList := mkNotificationList {
  nl_mList : list Notification;
  nl_mTotalCounter : Z;
}.

#[export] Instance eta_NotificationList : Eta NotificationList := fun r =>
  mkNotificationList (nl_mList r) (nl_mTotalCounter r).

(** The four notification lists of the servicebroker. *)
Inductive nlist :=
  | mServerDisconnectNotifications
  | mClientDetachNotifications
  | mServerConnectNotifications
  | mServerListChangeNotifications.

#[export] Instance nlist_eq_dec : EqDecision nlist.
Proof. solve_decision. Defined.

Definition all_nlists : list nlist :=
  [mServerDisconnectNotifications; mClientDetachNotifications; mServerConnectNotifications;
   mServerListChangeNotifications].

(** ** Connections *)

(** [ServicebrokerClientBase::State]. *)
Inductive ClientState := CS_READING_HEADER | CS_READING_BODY | CS_WRITING | CS_DEFERRED.

#[export] Instance ClientState_eq_dec : EqDecision ClientState.
Proof. solve_decision. Defined.

Record Connection := mkConnection {
  cn_mSlave : bool;
  cn_mUid : Z;
  cn_mPid : Z;
  cn_mNodeAddress : Z;
  cn_mLocalAddress : Z;
  cn_mState : ClientState;
  cn_mData : ClientSpecificData;
}.

#[export] Instance eta_Connection : Eta Connection := fun r =>
  mkConnection (cn_mSlave r) (cn_mUid r) (cn_mPid r) (cn_mNodeAddress r) (cn_mLocalAddress r)
    (cn_mState r) (cn_mData r).

(** [ServicebrokerClientBase] as constructed; [mContext.init] sets pid and uid. *)
Definition new_Connection (nodeAddress localAddress : Z) : Connection :=
  mkConnection false (u32 SB_UNKNOWN_USER_ID) (-1) nodeAddress localAddress CS_READING_HEADER
    new_ClientSpecificData.

(** [isLocal]. *)
Definition cn_isLocal (c : Connection) : bool :=
  (cn_mNodeAddress c =? SB_LOCAL_NODE_ADDRESS) || (cn_mNodeAddress c =? SB_LOCAL_IP_ADDRESS).

(** ** Outputs *)

Inductive Output :=
  | O_pulse (fd code value : Z)
  | O_close (fd : Z)
  | O_response (conn : Z) (r : Response)
  | O_deferred (conn : Z) (r : Response).

(** ** Faults

    Kinds of failed assertions and invalid dereferences. *)
Inductive Fault :=
  | F_message       (** the message context is used out of order *)
  | F_connection    (** a connection that is gone *)
  | F_pool          (** a pool entry out of range or its null variant *)
  | F_master        (** [master()] on a servicebroker without one *)
  | F_job.          (** a job without a waiting client, or no job at all *)

#[export] Instance Fault_eq_dec : EqDecision Fault.
Proof. solve_decision. Defined.

(** ** The servicebroker *)

Record SB := mkSB {
  sb_mConnectedServers : ServerList;
  sb_mPendingRemoteServersRequests : gmap Z InterfaceDescription;
  sb_mAttachedClients : ClientList;
  sb_lists : nlist -> NotificationList;
  sb_mMasterNotificationPool : NotificationPool;
  sb_mPendingAttachExtendedJobs : gmap Z Z;
  sb_mNextClientID : Z;
  sb_mNextServerID : Z;
  sb_mNextPendingRemoteServerRequestID : Z;
  sb_mExtendedID : Z;
  sb_mConfig : ConfigFile;
  sb_mUseServerCache : bool;
  sb_mAsyncMode : bool;
  (** the [MasterAdapter]: absent on a master, else its [isConnected()] *)
  sb_mAster : option bool;
  (** the [MasterAdapter]'s job queue, oldest first *)
  sb_mQueue : list Job;
  (** [mSigAddr.internal] *)
  sb_mSigAddr : Z * Z;
  (** file-scope counters *)
  sb_sNextID : Z;
  sb_sNextNotificationID : Z;
  sb_NextPoolID : Z;
  sb_totalCounter : Z;
  sb_currentCounter : Z;
  (** [PulseChannelManager] *)
  sb_mSockets : list PulseChannel;
  sb_tick : nat;
  (** client handles; [sb_mClients] is the server's list of slave connections *)
  sb_conns : gmap Z Connection;
  sb_nextId : Z;
  sb_mClients : list Z;
  (** the message being dispatched *)
  sb_msg : MessageContext;
  sb_out : list Output;
  (** ghost *)
  sb_faults : list Fault;
  sb_exhausted : bool;
}.

#[export] Instance eta_SB : Eta SB := fun r =>
  mkSB (sb_mConnectedServers r) (sb_mPendingRemoteServersRequests r) (sb_mAttachedClients r)
    (sb_lists r) (sb_mMasterNotificationPool r) (sb_mPendingAttachExtendedJobs r)
    (sb_mNextClientID r) (sb_mNextServerID r) (sb_mNextPendingRemoteServerRequestID r)
    (sb_mExtendedID r) (sb_mConfig r) (sb_mUseServerCache r) (sb_mAsyncMode r) (sb_mAster r)
    (sb_mQueue r) (sb_mSigAddr r) (sb_sNextID r) (sb_sNextNotificationID r) (sb_NextPoolID r)
    (sb_totalCounter r) (sb_currentCounter r) (sb_mSockets r) (sb_tick r) (sb_conns r)
    (sb_nextId r) (sb_mClients r) (sb_msg r) (sb_out r) (sb_faults r) (sb_exhausted r).

Abbreviation M := (StateM SB).

(** [Servicebroker()] and the initial values of the globals; no message yet. *)
Definition new_SB : SB :=
  mkSB empty_ServerList ∅ empty_ClientList (fun _ => mkNotificationList [] 0)
    empty_NotificationPool ∅ 100001 500001 1 0 empty_ConfigFile false false None [] (0, 0)
    1 0 100000 0 0 [] 0 ∅ 1 [] (new_MessageContext 0 (mkResponse 0 0 PL_none)) [] [] false.

(** [Servicebroker::init]; [file] is the content of the configuration file. *)
Definition sb_init (theMaster : bool) (file : option bytes) (the_id : Z) (serverCache asyncMode : bool)
    (s : SB) : SB :=
  s <| sb_mAster := if theMaster then Some false else None |>
    <| sb_mConfig := setTreeMode (0 <? the_id) (load file (sb_mConfig s)) |>
    <| sb_mAsyncMode := (0 <? the_id) && asyncMode |>
    <| sb_mUseServerCache := serverCache |>
    <| sb_mExtendedID := if 0 <? the_id then the_id else if theMaster then 0 else 1000 |>.

(** [nullTranslator]: the [NodeIdTranslator] main passes to [init]. *)
Definition nullTranslator (a b : Z) : Z := 0.

(** ** Elementary accesses *)

Definition fault (k : Fault) : M unit := modify (fun s => s <| sb_faults ::= cons k |>).

(** [assert(b)] or a pointer that must not be null. *)
Definition assertM (k : Fault) (b : bool) : M unit := if b then skip else fault k.

Definition emit (o : Output) : M unit := modify (fun s => s <| sb_out ::= (fun l => l ++ [o]) |>).

(** [isMaster], [isMasterConnected]. *)
Definition isMaster (s : SB) : bool := match sb_mAster s with None => true | Some _ => false end.

Definition isMasterConnected (s : SB) : bool := match sb_mAster s with Some b => b | None => false end.

(** [master().eval(job)]. *)
Definition master_eval (j : Job) : M unit :=
  s ← getS;
  assertM F_master (negb (isMaster s));;
  modify (fun s => s <| sb_mQueue ::= (fun q => q ++ [j]) |>).

Definition nl_get (k : nlist) (s : SB) : list Notification := nl_mList (sb_lists s k).

Definition nl_set (k : nlist) (l : list Notification) (s : SB) : SB :=
  s <| sb_lists ::= (fun f => <[k := (f k) <| nl_mList := l |>]> f) |>.

Definition nl_bump (k : nlist) (d : Z) (s : SB) : SB :=
  s <| sb_lists ::= (fun f => <[k := (f k) <| nl_mTotalCounter ::= (fun c => u32 (c + d)) |>]> f) |>.

(** A pointer to a connection that must be alive. *)
Definition get_conn (c : Z) : M Connection :=
  s ← getS;
  match sb_conns s !! c with
  | Some cn => mret cn
  | None => fault F_connection;; mret (new_Connection 0 0)
  end.

(** A write to the [ClientSpecificData] of a connection that must be alive. *)
Definition upd_data (c : Z) (f : ClientSpecificData -> ClientSpecificData) : M unit :=
  s ← getS;
  match sb_conns s !! c with
  | Some cn => modify (fun s => s <| sb_conns ::= <[c := cn <| cn_mData ::= f |>]> |>)
  | None => fault F_connection
  end.

Definition upd_conn (c : Z) (f : Connection -> Connection) : M unit :=
  s ← getS;
  match sb_conns s !! c with
  | Some cn => modify (fun s => s <| sb_conns ::= <[c := f cn]> |>)
  | None => fault F_connection
  end.

(** *** The message context *)

Definition with_msg {A} (f : MessageContext -> bool * A * MessageContext) : M A :=
  s ← getS;
  let '(ok, a, m) := f (sb_msg s) in
  modify (fun s => s <| sb_msg := m |>);; assertM F_message ok;; mret a.

Definition with_msg_ (f : MessageContext -> bool * MessageContext) : M unit :=
  with_msg (fun m => let '(ok, m') := f m in (ok, tt, m')).

Definition readData (len : Z) : M Z := with_msg (mc_readData len).

Definition readAncillaryData (len : Z) : M Z := with_msg (mc_readAncillaryData len).

Definition writeAncillaryData (a : Ancillary) : M unit := with_msg_ (mc_writeAncillaryData a).

Definition prepareResponse (retval : Z) : M unit := with_msg_ (mc_prepareResponse retval false).

Definition prepareResponse_force (retval : Z) : M unit := with_msg_ (mc_prepareResponse retval true).

Definition prepareResponse_data (retval : Z) (data : Payload) (len : Z) : M unit :=
  with_msg_ (mc_prepareResponse_data retval data len).

Definition deferResponse : M unit := modify (fun s => s <| sb_msg ::= mc_deferResponse |>).

Definition setGetOffset (off : Z) : M unit := modify (fun s => s <| sb_msg ::= mc_setGetOffset off |>).

Definition responseState (s : SB) : MsgState := mc_mState (sb_msg s).

(** *** Pulse channels *)

Section pulses.
Context `{Env}.

Definition attach_channel (nid pid chid : Z) : M Z :=
  s ← getS;
  let '(rc, l, t) := pcm_attach (sb_tick s) (sb_mSockets s) nid pid chid in
  modify (fun s => s <| sb_mSockets := l |> <| sb_tick := t |>);; mret rc.

Definition detach_channel (fd : Z) : M unit :=
  s ← getS;
  let '(closed, l) := release (sb_mSockets s) fd in
  modify (fun s => s <| sb_mSockets := l |>);; forM_ closed (fun fd => emit (O_close fd)).

Definition sendPulse (fd code value : Z) : M unit := emit (O_pulse fd code value).

End pulses.
