(* ===== verification/Notifications.v ===== *)
(** Notifications and notification lists:
    [src/servicebroker/Notification.{hpp,cpp}], [NotificationList.{hpp,cpp}],
    [NotificationPoolEntry::detach] and
    [Servicebroker::createClearNotificationJob].

    The destructor of a [Notification] does real work (it releases the pulse
    channel, leaves the hosting client's id list, detaches from its pool and may
    queue a job for the master), so destruction is the explicit operation
    [destroy], called wherever C++ runs the destructor, moved-from temporaries
    included.  A loop over [mList] is [on_list]: the body decides for each element
    whether it is kept (and with which value) or erased. *)

From S2P Require Import Prelude.
From S2P Require Import Layout.
From S2P Require Import Types.
From S2P Require Import ServerList.
From S2P Require Import ConfigFile.
From S2P Require Import ClientData.
From S2P Require Import JobQueue.
From S2P Require Import Environment.
From S2P Require Import PulseChannelManager.
From S2P Require Import NotificationPool.
From S2P Require Import MessageContext.
From S2P Require Import State.

Section notifications.
Context `{Env}.

(** [createClearNotificationJob]. *)
Definition createClearNotificationJob (notificationID : Z) : M unit :=
  s ← getS;
  whenM (isMasterConnected s)
    (master_eval (create_Job None 0 (JA_ClearNotification notificationID)
       (sizeof (arg_i DCMD_FND_CLEAR_NOTIFICATION)) 0)).

(** [NotificationPoolEntry::detach] on [mMasterNotificationPool[pos]]. *)
Definition pool_detach (pos : Z) : M unit :=
  s ← getS;
  match np_get pos (sb_mMasterNotificationPool s) with
  | None => fault F_pool
  | Some e =>
    modify (fun s => s <| sb_mMasterNotificationPool ::= np_update pos pe_detach |>);;
    if pe_mRefCount (pe_detach e) =? 0 then
      modify (fun s => s <| sb_mMasterNotificationPool ::= np_removePool (pe_poolID e) |>);;
      whenM (negb (pe_notificationID e =? INVALID_NOTIFICATION_ID))
        (createClearNotificationJob (pe_notificationID e))
    else skip
  end.

(** ** Notification *)

(** [Notification()] with its counters. *)
Definition construct : M Notification :=
  modify (fun s => s <| sb_sNextNotificationID ::= (fun i => u32 (i + 1)) |>
                     <| sb_totalCounter ::= (fun c => u32 (c + 1)) |>
                     <| sb_currentCounter ::= (fun c => u32 (c + 1)) |>
                     <| sb_exhausted ::= orb (u32 (-1) <=? sb_sNextNotificationID s + 1) |>);;
  s ← getS;
  mret (new_Notification (sb_sNextNotificationID s)).

(** [~Notification()]. *)
Definition destroy (n : Notification) : M unit :=
  whenM (negb (n_coid n =? -1)) (detach_channel (n_coid n));;
  match n_host n with
  | Some c => upd_data c (cd_removeNotification (n_notificationID n))
  | None => skip
  end;;
  (if negb (n_poolID n =? 0) then
     s ← getS;
     let poolPos := np_find_id (n_poolID n) (sb_mMasterNotificationPool s) in
     whenM (negb (poolPos =? -1)) (pool_detach poolPos)
   else
     whenM (negb (n_masterNotificationID n =? INVALID_NOTIFICATION_ID))
       (createClearNotificationJob (n_notificationID n)));;
  modify (fun s => s <| sb_currentCounter ::= (fun c => u32 (c - 1)) |>).

(** What the copy constructor leaves of the original. *)
Definition moved (n : Notification) : Notification :=
  n <| n_host := None |> <| n_regExpr := None |> <| n_coid := -1 |> <| n_poolID := 0 |>
    <| n_masterNotificationID := INVALID_NOTIFICATION_ID |> <| n_pulse := zero_pulse |>.

(** The copy constructor: the copy and the original afterwards. *)
Definition copy_Notification (n : Notification) : M (Notification * Notification) :=
  modify (fun s => s <| sb_currentCounter ::= (fun c => u32 (c + 1)) |>);; mret (n, moved n).

Definition doConnect (n : Notification) : M (bool * Notification) :=
  coid ← attach_channel (n_nid n) (p_pid (n_pulse n)) (p_chid (n_pulse n));
  if coid <? 0 then mret (false, n <| n_coid := coid |> <| n_pulse := zero_pulse |>)
  else mret (true, n <| n_coid := coid |>).

(** [connect(ctx, thePulse)]: slaves are connected at once, clients on [send]. *)
Definition connect (cn : Connection) (thePulse : SFNDPulseInfo) (n : Notification)
    : M (bool * Notification) :=
  let n := n <| n_pulse := thePulse |> <| n_nid := i32 (cn_mNodeAddress cn) |> in
  if negb (cn_mSlave cn) then mret (true, n) else doConnect n.

Definition send (n : Notification) : M Notification :=
  n ← (if n_coid n <? 0 then r ← doConnect n; mret (snd r) else mret n);
  whenM (0 <=? n_coid n) (sendPulse (n_coid n) (p_code (n_pulse n)) (p_value (n_pulse n)));;
  mret n.

Definition setRegExp (regexp : bytes) (n : Notification) : bool * Notification :=
  (env_regcomp regexp =? 0, n <| n_regExpr := Some regexp |>).

Definition hasRegExp (n : Notification) : bool := bool_decide (n_regExpr n <> None).

Definition matchRegExp (s : bytes) (n : Notification) : bool :=
  hasRegExp n && RegExp_matches (n_regExpr n) s.

Definition n_setType (p : SPartyID) (n : Notification) : Notification := n <| n_partyID := p |>.

(** ** NotificationList *)

Fixpoint walk (body : Notification -> M (option Notification)) (l : list Notification)
    : M (list Notification) :=
  match l with
  | [] => mret []
  | n :: l' => r ← body n; l'' ← walk body l';
               mret (match r with Some n' => n' :: l'' | None => l'' end)
  end.

(** The loop stops at the first element that satisfies [p]. *)
Fixpoint walk_first (p : Notification -> bool) (body : Notification -> M (option Notification))
    (l : list Notification) : M (list Notification) :=
  match l with
  | [] => mret []
  | n :: l' =>
    if p n then r ← body n; mret (match r with Some n' => n' :: l' | None => l' end)
    else l'' ← walk_first p body l'; mret (n :: l'')
  end.

Definition on_list (k : nlist) (body : Notification -> M (option Notification)) : M unit :=
  s ← getS; l ← walk body (nl_get k s); modify (nl_set k l).

Definition on_first (k : nlist) (p : Notification -> bool)
    (body : Notification -> M (option Notification)) : M unit :=
  s ← getS; l ← walk_first p body (nl_get k s); modify (nl_set k l).

(** [iter->send(); iter = mList.erase(iter);] *)
Definition send_erase (n : Notification) : M (option Notification) :=
  n' ← send n; destroy n';; mret None.

(** [iter->send(); ++iter;] *)
Definition send_keep (n : Notification) : M (option Notification) := n' ← send n; mret (Some n').

Definition erase (n : Notification) : M (option Notification) := destroy n;; mret None.

Definition keep (n : Notification) : M (option Notification) := mret (Some n).

(** [trigger(const SPartyID&)]. *)
Definition trigger_party (k : nlist) (id : SPartyID) : M unit :=
  on_list k (fun n =>
    if n_active n && global_eqb (n_partyID n) id then send_erase n else keep n).

(** [trigger(const InterfaceDescription&, gid_t)]: who may learn of the server? *)
Definition trigger_allowed (grpid : Z) (n : Notification) : bool :=
  if u32 SB_UNKNOWN_GROUP_ID =? grpid then true
  else (n_uid n =? 0) || in_group grpid (n_uid n).

Definition trigger_ifDescr (k : nlist) (d : InterfaceDescription) (grpid : Z) : M unit :=
  on_list k (fun n =>
    if bool_decide (id_name (n_ifDescription n) = id_name d) then
      if n_active n && (id_majorVersion (n_ifDescription n) =? id_majorVersion d)
         && (id_minorVersion (n_ifDescription n) <=? id_minorVersion d) then
        if trigger_allowed grpid n then send_erase n
        else keep (n <| n_active := false |>)
      else keep n
    else keep n).

(** [trigger(notificationid_t, bool)]. *)
Definition trigger_id (k : nlist) (notificationID : Z) (removeIt : bool) : M unit :=
  on_first k (fun n => n_active n && (n_notificationID n =? notificationID))
    (fun n => if removeIt then send_erase n else send_keep n).

Definition triggerPool (k : nlist) (poolID : Z) : M unit :=
  on_list k (fun n => if n_active n && (n_poolID n =? poolID) then send_erase n else keep n).

(** [trigger(const PartyIDList&)]. *)
Definition trigger_ids (k : nlist) (idList : list SPartyID) : M unit :=
  on_list k (fun n => if n_active n && pl_exists (n_partyID n) idList then send_erase n else keep n).

Definition triggerAll (k : nlist) : M unit :=
  on_list k (fun n => if n_active n && negb (hasRegExp n) then send_keep n else keep n).

(** [triggerAll(const InterfaceDescription&)]. *)
Definition triggerAll_ifDescr (k : nlist) (d : InterfaceDescription) : M unit :=
  on_list k (fun n =>
    if n_active n && (negb (hasRegExp n) || matchRegExp (id_name d) n) then send_keep n else keep n).

Definition triggerNotLocal (k : nlist) (extId : Z) : M unit :=
  on_list k (fun n =>
    if n_active n && negb (extId =? extendedID (n_partyID n)) then send_erase n else keep n).

Definition triggerLocal (k : nlist) (extId : Z) : M unit :=
  on_list k (fun n =>
    if n_active n && (extId =? extendedID (n_partyID n)) then send_erase n else keep n).

(** [mList.push_front(entry); mTotalCounter++], then the end of [entry]'s scope. *)
Definition push_front (k : nlist) (n : Notification) : M unit :=
  r ← copy_Notification n; let '(copy, rest) := (r : Notification * Notification) in
  modify (fun s => nl_bump k 1 (nl_set k (copy :: nl_get k s) s));; destroy rest.

(** The common shape of the [add] overloads: [setup] are the assignments to the
    connected entry. *)
Definition nl_add (k : nlist) (c : Z) (pulse : SFNDPulseInfo)
    (setup : Notification -> Notification) : M Z :=
  n ← construct;
  cn ← get_conn c;
  r ← connect cn pulse n; let '(ok, n) := (r : bool * Notification) in
  if ok then push_front k (setup n);; mret (n_notificationID n)
  else destroy n;; mret INVALID_NOTIFICATION_ID.

(** [add(ctx, pulse)]. *)
Definition add_plain (k : nlist) (c : Z) (pulse : SFNDPulseInfo) : M Z := nl_add k c pulse id.

(** [add(regExpr, ctx, pulse)]. *)
Definition add_regExpr (k : nlist) (regExpr : bytes) (c : Z) (pulse : SFNDPulseInfo) : M Z :=
  n ← construct;
  let '(compiled, n) := setRegExp regExpr n in
  if compiled then
    cn ← get_conn c;
    r ← connect cn pulse n; let '(ok, n) := (r : bool * Notification) in
    if ok then push_front k n;; mret (n_notificationID n)
    else destroy n;; mret INVALID_NOTIFICATION_ID
  else destroy n;; mret INVALID_NOTIFICATION_ID.

(** [add(host, clientID, ctx, pulse)]. *)
Definition add_party (k : nlist) (host : Z) (clientID : SPartyID) (c : Z) (pulse : SFNDPulseInfo)
    : M Z :=
  nl_add k c pulse (fun n => n <| n_partyID := clientID |> <| n_host := Some host |>).

(** [add(host, ifDescription, ctx, pulse, local, uid)]. *)
Definition add_ifDescr (k : nlist) (host : Z) (d : InterfaceDescription) (c : Z)
    (pulse : SFNDPulseInfo) (local : bool) (uid : Z) : M Z :=
  nl_add k c pulse (fun n =>
    n <| n_ifDescription := d |> <| n_host := Some host |> <| n_local := local |>
      <| n_uid := uid |>).

(** [find]. *)
Definition nl_find (k : nlist) (notificationID : Z) (s : SB) : option Notification :=
  find_first (fun n => n_notificationID n =? notificationID) (nl_get k s).

(** A write through the pointer [find] returned. *)
Definition nl_update (k : nlist) (notificationID : Z) (f : Notification -> Notification) : M unit :=
  modify (fun s => nl_set k
    (update_first (fun n => n_notificationID n =? notificationID) f (nl_get k s)) s).

(** [remove(notificationid_t)]. *)
Definition nl_remove (k : nlist) (notificationID : Z) : M unit :=
  on_first k (fun n => n_notificationID n =? notificationID) erase.

(** [remove(const NotificationIDList&)] with the id list of connection [c].  The
    argument is a reference: the destructors run in the loop change it. *)
Definition nl_remove_ids (k : nlist) (c : Z) : M unit :=
  on_list k (fun n =>
    cn ← get_conn c;
    if cd_notificationExists (n_notificationID n) (cn_mData cn) then erase n else keep n).

Definition clearMasterNotification (k : nlist) : M unit :=
  on_list k (fun n =>
    keep (n <| n_masterNotificationID := INVALID_NOTIFICATION_ID |> <| n_poolID := 0 |>)).

(** [add(Notification&)]: the pool id is read back from the moved-from original. *)
Definition add_moved (k : nlist) (n : Notification) : M Notification :=
  r ← copy_Notification n; let '(copy, rest) := (r : Notification * Notification) in
  modify (fun s => nl_bump k 1 (nl_set k (copy <| n_poolID := n_poolID rest |> :: nl_get k s) s));;
  mret rest.

(** [move(source, poolID)]. *)
Definition nl_move (k source : nlist) (poolID : Z) : M unit :=
  on_list source (fun n =>
    if poolID =? n_poolID n then
      rest ← add_moved k n; r ← erase rest; modify (nl_bump source (-1));; mret r
    else keep n).

(** [setMasterNotificationID]: the number of changed notifications. *)
Definition setMasterNotificationID (k : nlist) (notificationID poolID : Z) : M Z :=
  s ← getS;
  on_list k (fun n =>
    keep (if poolID =? n_poolID n then n <| n_masterNotificationID := notificationID |> else n));;
  mret (Z.of_nat (length (filter (fun n => poolID = n_poolID n) (nl_get k s)))).

Definition nl_setType (k : nlist) (poolID : Z) (p : SPartyID) : M unit :=
  on_list k (fun n => keep (if poolID =? n_poolID n then n_setType p n else n)).

(** [poolSize], [count]. *)
Definition poolSize (k : nlist) (poolID : Z) (s : SB) : Z :=
  Z.of_nat (length (filter (fun n => poolID = n_poolID n) (nl_get k s))).

Definition nl_count (k : nlist) (p : SPartyID) (s : SB) : Z :=
  Z.of_nat (length (filter (fun n => party_eqb p (n_partyID n) = true) (nl_get k s))).

End notifications.
