(* ===== verification/Registration.v ===== *)
(** Registering and unregistering servers: the first third of
    [src/servicebroker/Servicebroker.cpp] ([addInterface], the register and
    unregister handlers) and the forwarding of registrations to the master
    ([registerInterfacesMaster], [unregisterInterfaceMaster]).

    The connection id [c] stands for [msg.context()] and for the connection's
    [ClientSpecificData] [ocb]. *)

From S2P Require Import Prelude.
From S2P Require Import Layout.
From S2P Require Import Types.
From S2P Require Import ServerList.
From S2P Require Import ConfigFile.
From S2P Require Import ClientData.
From S2P Require Import JobQueue.
From S2P Require Import Environment.
From S2P Require Import PulseChannelManager.
From S2P Require Import NotificationPool.
From S2P Require Import MessageContext.
From S2P Require Import State.
From S2P Require Import Notifications.

Definition MAX_MULTIPLE_COUNT : Z := 32.

(** [isTcpService]. *)
Definition isTcpService (ifName : bytes) : bool :=
  (5 <? Z.of_nat (length ifName)) && ends_with tcp_suffix ifName.

(** [NodeAddressTranslator::translateRemote], [translateLocal]; the [uint32_t]
    result is stored in a [pid_t]. *)
Definition translateRemote (cn : Connection) (ifName : bytes) (pid : Z) : Z :=
  if cn_mSlave cn && (u32 pid =? SB_LOCAL_IP_ADDRESS) && isTcpService ifName
  then i32 (cn_mNodeAddress cn) else pid.

Definition translateLocal (cn : Connection) (ifName : bytes) (pid : Z) : Z :=
  if cn_mSlave cn && (u32 pid =? SB_LOCAL_IP_ADDRESS) && isTcpService ifName
  then i32 (cn_mLocalAddress cn) else pid.

Section registration.
Context `{Env}.

(** [ServerListEntry newEntry;] *)
Definition construct_ServerListEntry : M ServerListEntry :=
  modify (fun s => s <| sb_sNextID ::= (fun i => u32 (i + 1)) |>);;
  s ← getS; mret (new_ServerListEntry env_implVersion (i32 (sb_sNextID s))).

(** ** Forwarding to the master *)

(** [unregisterInterfaceMaster(entry)]: the new [masterID] of the entry. *)
Definition unregisterInterfaceMaster (masterID : SPartyID) : M SPartyID :=
  s ← getS;
  if (0 <? i32 (extendedID masterID)) && isMasterConnected s then
    master_eval (create_Job None 0 (JA_Unregister masterID)
      (sizeof (arg_i DCMD_FND_UNREGISTER_INTERFACE)) 0);;
    mret (party_of_global 0)
  else mret masterID.

(** One [Job::create] of [registerInterfacesMaster]. *)
Definition send_registrations (descr : list SFNDInterfaceDescriptionEx) : M unit :=
  let ifCount := Z.of_nat (length descr) in
  master_eval (create_Job None ifCount (JA_RegisterMasterEx descr [])
    (sizeof (arg_union DCMD_FND_REGISTER_MASTER_INTERFACE_EX)
       + ifCount * sizeof lay_SFNDInterfaceDescriptionEx)
    (ifCount * sizeof lay_SPartyID)).

(** Is the entry still to be announced? *)
Definition to_forward (cfg : ConfigFile) (e : ServerListEntry) : bool :=
  (globalID (sv_masterID e) =? 0) && negb (sv_local e) && forwardService cfg (sv_name e).

Definition descrEx_of (e : ServerListEntry) : SFNDInterfaceDescriptionEx :=
  mkSFNDDescrEx (sv_implVersion e) (sv_chid e) (sv_pid e) (sv_nid e) (sv_partyID e)
    (SFND_of_ifDescr (sv_ifDescription e)).

(** The loop over [mConnectedServers]; [descr] is the batch being filled. *)
Fixpoint register_loop (cfg : ConfigFile) (l : list ServerListEntry)
    (descr : list SFNDInterfaceDescriptionEx)
    : M (list ServerListEntry * list SFNDInterfaceDescriptionEx) :=
  match l with
  | [] => mret ([], descr)
  | e :: l' =>
    if to_forward cfg e then
      let descr' := descr ++ [descrEx_of e] in
      let e' := e <| sv_masterID := party_of_global (u32 (-1)) |> in
      descr'' ← (if Z.of_nat (length descr') =? MAX_MULTIPLE_COUNT
                 then send_registrations descr';; mret []
                 else mret descr');
      r ← register_loop cfg l' descr'';
      mret (e' :: fst r, snd r)
    else r ← register_loop cfg l' descr; mret (e :: fst r, snd r)
  end.

Definition registerInterfacesMaster : M unit :=
  s ← getS;
  if isMasterConnected s then
    r ← register_loop (sb_mConfig s) (sl_mEntries (sb_mConnectedServers s)) [];
    modify (fun s => s <| sb_mConnectedServers ::= (fun l => l <| sl_mEntries := fst r |>) |>);;
    whenM (0 <? Z.of_nat (length (snd r))) (send_registrations (snd r))
  else skip.

(** ** addInterface *)

(** The new server's id, or [None] when the name is taken. *)
Definition addInterface (c : Z) (ifDescription : InterfaceDescription) (pid chid : Z)
    (isLocal : bool) (grpid : Z) : M (option SPartyID) :=
  s ← getS;
  match sl_find_name (id_name ifDescription) (sb_mConnectedServers s) with
  | Some _ => mret None
  | None =>
    e ← construct_ServerListEntry;
    cn ← get_conn c;
    s ← getS;
    let partyID := mkParty (sb_mNextServerID s) (sb_mExtendedID s) in
    let newEntry :=
      e <| sv_ifDescription := ifDescription |> <| sv_partyID := partyID |>
        <| sv_nid := i32 (cn_mNodeAddress cn) |> <| sv_pid := pid |> <| sv_chid := chid |>
        <| sv_grpid := grpid |> <| sv_local := isLocal |> in
    modify (fun s => s <| sb_mNextServerID ::= (fun i => u32 (i + 1)) |>
                       <| sb_mConnectedServers ::= sl_add newEntry |>);;
    upd_data c (cd_addServer partyID);;
    trigger_ifDescr mServerConnectNotifications ifDescription (u32 grpid);;
    triggerAll_ifDescr mServerListChangeNotifications ifDescription;;
    mret (Some partyID)
  end.

(** ** Handlers *)

Definition handleRegisterInterface (c : Z) (arg : RegisterArg) : M unit :=
  s ← getS;
  let isLocal := isLocalService (sb_mConfig s) (cstr (sd_name (ra_ifDescription arg))) in
  if check_ifDescription (ra_ifDescription arg) env_after_name then
    cn ← get_conn c;
    if negb (cn_isLocal cn) then prepareResponse (sb_code FNDBadArgument)
    else
      r ← addInterface c (ifDescr_of_SFND (ra_ifDescription arg)) (ra_pid arg) (ra_chid arg)
            isLocal (-1);
      registerInterfacesMaster;;
      match r with
      | Some serverID =>
        prepareResponse_data (sb_code FNDOK) (PL_serverID serverID)
          (sizeof (arg_o DCMD_FND_REGISTER_INTERFACE))
      | None => prepareResponse (sb_code FNDInterfaceAlreadyRegistered)
      end
  else prepareResponse (sb_code FNDBadArgument).

(** The loop of [handleRegisterInterfaceEx]: [false] when a read fails and the
    handler has answered and returned. *)
Fixpoint registerEx_loop (fuel k : nat) (c : Z) (arg : RegisterExArg)
    (items : nat -> SFNDInterfaceDescription) : M bool :=
  match fuel with
  | O => mret true
  | S fuel' =>
    rc ← readAncillaryData (sizeof lay_SFNDInterfaceDescription);
    if rc =? -1 then prepareResponse (sb_code FNDBadArgument);; mret false
    else
      s ← getS;
      let d := items k in
      let isLocal := isLocalService (sb_mConfig s) (cstr (sd_name d)) in
      r ← addInterface c (ifDescr_of_SFND d) (re_pid arg) (re_chid arg) isLocal (-1);
      writeAncillaryData (AN_serverID (match r with
                                       | Some serverID => serverID
                                       | None => party_of_global (u64 (-1))
                                       end));;
      registerEx_loop fuel' (S k) c arg items
  end.

Definition handleRegisterInterfaceEx (c : Z) (arg : RegisterExArg)
    (items : nat -> SFNDInterfaceDescription) : M unit :=
  completed ← registerEx_loop (Z.to_nat (re_ifCount arg)) 0 c arg items;
  if (completed : bool) then registerInterfacesMaster;; prepareResponse (sb_code FNDOK) else skip.

Definition handleRegisterInterfaceGroupID (c : Z) (arg : RegisterGroupIDArg) : M unit :=
  s ← getS;
  let isLocal := isLocalService (sb_mConfig s) (cstr (sd_name (rg_ifDescription arg))) in
  success ←
    (if check_ifDescription (rg_ifDescription arg) env_after_name then
       cn ← get_conn c;
       if negb (cn_isLocal cn) then mret false
       else
         r ← addInterface c (ifDescr_of_SFND (rg_ifDescription arg)) (rg_pid arg) (rg_chid arg)
               isLocal (rg_grpid arg);
         registerInterfacesMaster;;
         match r with
         | Some serverID =>
           prepareResponse_data (sb_code FNDOK) (PL_serverID serverID)
             (sizeof (arg_o DCMD_FND_REGISTER_INTERFACE_GROUPID));; mret true
         | None => mret false
         end
     else mret false);
  if negb success then prepareResponse (sb_code FNDBadArgument) else skip.

Definition handleUnregisterInterface (c : Z) (serverID : SPartyID) : M unit :=
  cn ← get_conn c;
  success ←
    (if cd_serverExists serverID (cn_mData cn) then
       upd_data c (cd_removeServer serverID);;
       s ← getS;
       match sl_find_party serverID (sb_mConnectedServers s) with
       | Some entry =>
         trigger_party mServerDisconnectNotifications serverID;;
         masterID ← unregisterInterfaceMaster (sv_masterID entry);
         modify (fun s => s <| sb_mConnectedServers ::=
           sl_update_party serverID (fun e => e <| sv_masterID := masterID |>) |>);;
         modify (fun s => s <| sb_mConnectedServers ::= sl_remove serverID |>);;
         modify (fun s => s <| sb_mAttachedClients ::= cl_removeServer serverID |>);;
         prepareResponse (sb_code FNDOK);;
         triggerAll mServerListChangeNotifications;;
         mret true
       | None => mret false
       end
     else mret false);
  if negb success then prepareResponse (sb_code FNDBadArgument) else skip.

(** ** Registrations of a slave *)

(** The error id returned for a refused interface. *)
Definition refused (serverID : SPartyID) : SPartyID := mkParty (localID serverID) (u32 (-1)).

(** One interface of [handleRegisterMasterInterface], after it was read. *)
Definition registerMaster_one (c : Z) (d : SFNDInterfaceDescriptionEx) : M unit :=
  s ← getS;
  let serverID := dx_serverID d in
  let name := cstr (sd_name (dx_ifDescription d)) in
  if extendedID serverID =? sb_mExtendedID s then
    writeAncillaryData (AN_serverID (refused serverID))
  else if negb (check_ifDescription (dx_ifDescription d) env_after_name) || (dx_chid d <=? 0) then
    writeAncillaryData (AN_serverID (refused serverID))
  else if bool_decide (sl_find_name name (sb_mConnectedServers s) <> None) then
    writeAncillaryData (AN_serverID (refused serverID))
  else if (extendedID serverID =? 0) && negb (sb_mExtendedID s =? 1000) then
    writeAncillaryData (AN_serverID (refused serverID))
  else
    cn ← get_conn c;
    e ← construct_ServerListEntry;
    let partyID := if extendedID serverID =? 0
                   then serverID <| extendedID := u32 (1000 + c) |> else serverID in
    let newEntry :=
      e <| sv_ifDescription := ifDescr_of_SFND (dx_ifDescription d) |>
        <| sv_partyID := partyID |> <| sv_nid := i32 (cn_mNodeAddress cn) |>
        <| sv_pid := translateRemote cn name (dx_pid d) |> <| sv_chid := dx_chid d |>
        <| sv_implVersion := dx_implVersion d |> in
    modify (fun s => s <| sb_mConnectedServers ::= sl_add newEntry |>);;
    upd_data c (cd_addServer partyID);;
    writeAncillaryData (AN_serverID partyID);;
    trigger_ifDescr mServerConnectNotifications (sv_ifDescription newEntry)
      (u32 SB_UNKNOWN_GROUP_ID);;
    triggerAll_ifDescr mServerListChangeNotifications (sv_ifDescription newEntry).

Fixpoint registerMaster_loop (fuel k : nat) (c : Z) (items : nat -> SFNDInterfaceDescriptionEx)
    : M bool :=
  match fuel with
  | O => mret true
  | S fuel' =>
    rc ← readAncillaryData (sizeof lay_SFNDInterfaceDescriptionEx);
    if rc =? -1 then mret false
    else registerMaster_one c (items k);; registerMaster_loop fuel' (S k) c items
  end.

Definition handleRegisterMasterInterface (c : Z) (ifCount : Z)
    (items : nat -> SFNDInterfaceDescriptionEx) : M unit :=
  success ← registerMaster_loop (Z.to_nat ifCount) 0 c items;
  prepareResponse (if (success : bool) then sb_code FNDOK else sb_code FNDBadArgument);;
  registerInterfacesMaster.

End registration.
