(* ===== verification/Notify.v ===== *)
(** Setting, clearing and forwarding notifications, and the interface list
    requests: [src/servicebroker/Servicebroker.cpp],
    [handleNotifyServerDisconnect] to [handleMasterPingId],
    [checkAccessPrivileges] and [forwardServerAvailableNotifications]. *)

From S2P Require Import Prelude.
From S2P Require Import Layout.
From S2P Require Import Types.
From S2P Require Import ServerList.
From S2P Require Import ConfigFile.
From S2P Require Import ClientData.
From S2P Require Import JobQueue.
From S2P Require Import Environment.
From S2P Require Import PulseChannelManager.
From S2P Require Import NotificationPool.
From S2P Require Import MessageContext.
From S2P Require Import State.
From S2P Require Import Notifications.
From S2P Require Import Registration.

Section notify.
Context `{Env}.

(** [checkAccessPrivileges(context, entry)] with the default [uid]: the caller's
    effective user must be root or a member of the server's group. *)
Definition checkAccessPrivileges (cn : Connection) (entry : ServerListEntry) : bool :=
  if sv_grpid entry =? SB_UNKNOWN_GROUP_ID then true
  else
    let uid := i32 (cn_mUid cn) in
    if uid =? SB_UNKNOWN_USER_ID then false
    else if uid =? 0 then true
    else in_group (sv_grpid entry) (u32 uid).

(** ** The notification pool *)

(** The two searches that dereference the entries' variant. *)
Definition pool_find_ifDescr (d : InterfaceDescription) (extendedSearch : bool) : M Z :=
  s ← getS;
  assertM F_pool (ifDescr_deref_ok extendedSearch (sb_mMasterNotificationPool s));;
  mret (np_find_ifDescr d extendedSearch (sb_mMasterNotificationPool s)).

Definition pool_find_party (p : SPartyID) : M Z :=
  s ← getS;
  assertM F_pool (party_deref_ok (sb_mMasterNotificationPool s));;
  mret (np_find_party p (sb_mMasterNotificationPool s)).

(** [add]; [mk] is the constructor applied to the next pool id. *)
Definition pool_add (mk : Z -> NotificationPoolEntry) : M Z :=
  s ← getS;
  let '(pos, np) := np_add (mk (sb_NextPoolID s)) (sb_mMasterNotificationPool s) in
  modify (fun s => s <| sb_mMasterNotificationPool := np |>
                     <| sb_NextPoolID ::= (fun i => u32 (i + 1)) |>);; mret pos.

(** [mMasterNotificationPool[pos]]. *)
Definition pool_get (pos : Z) : M NotificationPoolEntry :=
  s ← getS;
  match np_get pos (sb_mMasterNotificationPool s) with
  | Some e => mret e
  | None => fault F_pool;; mret (new_PoolEntry_party 0 (party_of_global 0))
  end.

Definition pool_update (pos : Z) (f : NotificationPoolEntry -> NotificationPoolEntry) : M unit :=
  modify (fun s => s <| sb_mMasterNotificationPool ::= np_update pos f |>).

(** [mMasterNotificationPool[pos].attach(n)] for the notification [id] of list [k]. *)
Definition pool_attach (pos : Z) (k : nlist) (id : Z) : M unit :=
  e ← pool_get pos;
  nl_update k id (fun n => n <| n_poolID := pe_poolID e |>);;
  pool_update pos pe_attach.

(** A pulse that returns to this servicebroker. *)
Definition master_pulse (s : SB) (code value : Z) : SFNDPulseInfo :=
  mkPulse code (i32 value) (snd (sb_mSigAddr s)) (fst (sb_mSigAddr s)).

(** ** Forwarding server-available notifications *)

Definition send_notifications (n : list SFNDNotificationDescription) : M unit :=
  let count := Z.of_nat (length n) in
  master_eval (create_Job None count (JA_NotifyServerAvailableEx n [])
    (sizeof (arg_union DCMD_FND_NOTIFY_SERVER_AVAILABLE_EX)
       + count * sizeof lay_SFNDNotificationDescription)
    (count * sizeof lay_SFNDNotificationID)).

(** A new pool for [d], appended to the batch, which is sent when full. *)
Definition forward_new_pool (d : InterfaceDescription) (batch : list SFNDNotificationDescription)
    : M (Z * list SFNDNotificationDescription) :=
  pos ← pool_add (fun id => new_PoolEntry_ifDescr id d false);
  e ← pool_get pos;
  s ← getS;
  let batch' := batch ++ [mkNotDescr (pe_poolID e)
    (master_pulse s PULSE_MASTER_SERVER_AVAILABLE (pe_poolID e)) (SFND_of_ifDescr d)] in
  if Z.of_nat (length batch') =? MAX_MULTIPLE_COUNT
  then send_notifications batch';; mret (pos, []) else mret (pos, batch').

(** The loop over [mServerConnectNotifications]. *)
Fixpoint forward_loop (cfg : ConfigFile) (l : list Notification)
    (batch : list SFNDNotificationDescription)
    : M (list Notification * list SFNDNotificationDescription) :=
  match l with
  | [] => mret ([], batch)
  | n :: l' =>
    if (n_poolID n =? 0) && negb (n_local n) && forwardService cfg (id_name (n_ifDescription n))
    then
      pos ← pool_find_ifDescr (n_ifDescription n) false;
      pb ← (if pos =? -1 then forward_new_pool (n_ifDescription n) batch else mret (pos, batch));
      let '(pos, batch) := (pb : Z * list SFNDNotificationDescription) in
      e ← pool_get pos;
      r ← forward_loop cfg l' batch;
      mret (n <| n_poolID := pe_poolID e |> :: fst r, snd r)
    else r ← forward_loop cfg l' batch; mret (n :: fst r, snd r)
  end.

Definition forwardServerAvailableNotifications : M unit :=
  s ← getS;
  if isMasterConnected s then
    r ← forward_loop (sb_mConfig s) (nl_get mServerConnectNotifications s) [];
    modify (nl_set mServerConnectNotifications (fst r));;
    whenM (0 <? Z.of_nat (length (snd r))) (send_notifications (snd r))
  else skip.

(** ** Server disconnect *)

(** The notification is bound to a pool for a server known to the master only. *)
Definition bind_disconnect_pool (serverID : SPartyID) (notificationID : Z) : M unit :=
  pos ← pool_find_party serverID;
  pos ← (if pos =? -1 then
           pos ← pool_add (fun id => new_PoolEntry_party id serverID);
           e ← pool_get pos;
           s ← getS;
           master_eval (create_Job None (pe_poolID e)
             (JA_NotifyServerDisconnect serverID
                (master_pulse s PULSE_MASTER_SERVER_DISCONNECT (pe_poolID e)) 0)
             (sizeof (arg_i DCMD_FND_NOTIFY_SERVER_DISCONNECT))
             (sizeof (arg_o DCMD_FND_NOTIFY_SERVER_DISCONNECT)));;
           mret pos
         else mret pos);
  pool_attach pos mServerDisconnectNotifications notificationID.

(** The status and [arg.o.notificationID]. *)
Definition handleNotifyServerDisconnectNoResponse (c : Z) (serverID : SPartyID)
    (pulse : SFNDPulseInfo) : M (SBStatus * Z) :=
  id ← add_party mServerDisconnectNotifications c serverID c pulse;
  if negb (INVALID_NOTIFICATION_ID =? id) then
    upd_data c (cd_addNotification id);;
    s ← getS;
    let known := bool_decide (sl_find_party serverID (sb_mConnectedServers s) <> None) in
    (if negb known && negb (sb_mExtendedID s =? extendedID serverID) && isMasterConnected s then
       match nl_find mServerDisconnectNotifications id s with
       | Some _ => bind_disconnect_pool serverID id
       | None => skip
       end
     else if negb known then trigger_party mServerDisconnectNotifications serverID
     else skip);;
    mret (FNDOK, id)
  else mret (FNDInternalError, 0).

Definition handleNotifyServerDisconnect (c : Z) (serverID : SPartyID) (pulse : SFNDPulseInfo)
    : M unit :=
  r ← handleNotifyServerDisconnectNoResponse c serverID pulse;
  if bool_decide (fst r = FNDOK)
  then prepareResponse_data (sb_code FNDOK) (PL_notificationID (snd r))
         (sizeof (arg_o DCMD_FND_NOTIFY_SERVER_DISCONNECT))
  else prepareResponse (sb_code (fst r)).

(** ** Server available *)

(** Add a connect notification for the caller, bind it to the caller's id list and
    trigger or forward it: the common part of the two requests. *)
Definition notify_available (c : Z) (pulse : SFNDPulseInfo) (d : SFNDInterfaceDescription)
    (isLocal : bool) (entry : option ServerListEntry) : M Z :=
  cn ← get_conn c;
  id ← add_ifDescr mServerConnectNotifications c (ifDescr_of_SFND d) c pulse isLocal (cn_mUid cn);
  if negb (INVALID_NOTIFICATION_ID =? id) then
    upd_data c (cd_addNotification id);;
    s ← getS;
    (match entry with
     | Some _ => trigger_ifDescr mServerConnectNotifications (ifDescr_of_SFND d)
                   (u32 SB_UNKNOWN_GROUP_ID)
     | None =>
       if negb isLocal && isMasterConnected s then forwardServerAvailableNotifications else skip
     end);;
    mret id
  else mret id.

Definition handleNotifyServerAvailableNoResponse (c : Z) (pulse : SFNDPulseInfo)
    (d : SFNDInterfaceDescription) : M (SBStatus * Z) :=
  s ← getS;
  let isLocal := isLocalService (sb_mConfig s) (cstr (sd_name d)) in
  let entry := sl_find_ifDescr d (sb_mConnectedServers s) in
  cn ← get_conn c;
  if match entry with Some e => negb (checkAccessPrivileges cn e) | None => false end
  then mret (FNDAccessDenied, 0)
  else
    id ← notify_available c pulse d isLocal entry;
    if INVALID_NOTIFICATION_ID =? id then mret (FNDBadArgument, 0) else mret (FNDOK, id).

Definition handleNotifyServerAvailable (c : Z) (pulse : SFNDPulseInfo)
    (d : SFNDInterfaceDescription) : M unit :=
  r ← handleNotifyServerAvailableNoResponse c pulse d;
  if bool_decide (fst r = FNDOK)
  then prepareResponse_data (sb_code FNDOK) (PL_notificationID (snd r))
         (sizeof (arg_o DCMD_FND_NOTIFY_SERVER_AVAILABLE))
  else prepareResponse (sb_code (fst r)).

(** One notification of the multiple request: the id written back. *)
Definition notifyAvailableEx_one (c : Z) (n : SFNDNotificationDescription) : M Z :=
  s ← getS;
  let d := nd_ifDescription n in
  let isLocal := isLocalService (sb_mConfig s) (cstr (sd_name d)) in
  let entry := sl_find_ifDescr d (sb_mConnectedServers s) in
  cn ← get_conn c;
  if match entry with Some e => checkAccessPrivileges cn e | None => true end
  then notify_available c (nd_pulse n) d isLocal entry
  else mret (u32 (-1)).

Fixpoint notifyAvailableEx_loop (fuel k : nat) (c : Z) (items : nat -> SFNDNotificationDescription)
    : M bool :=
  match fuel with
  | O => mret true
  | S fuel' =>
    rc ← readAncillaryData (sizeof lay_SFNDNotificationDescription);
    if rc =? -1 then prepareResponse (sb_code FNDBadArgument);; mret false
    else
      id ← notifyAvailableEx_one c (items k);
      writeAncillaryData (AN_notification (mkNotID (nd_cookie (items k)) id));;
      notifyAvailableEx_loop fuel' (S k) c items
  end.

Definition handleNotifyServerAvailableEx (c : Z) (count : Z)
    (items : nat -> SFNDNotificationDescription) : M unit :=
  completed ← notifyAvailableEx_loop (Z.to_nat count) 0 c items;
  if (completed : bool) then prepareResponse (sb_code FNDOK) else skip.

(** ** Client detach, clear *)

Definition handleNotifyClientDetach (c : Z) (clientID : SPartyID) (pulse : SFNDPulseInfo) : M unit :=
  id ← add_party mClientDetachNotifications c clientID c pulse;
  if negb (id =? INVALID_NOTIFICATION_ID) then
    upd_data c (cd_addNotification id);;
    prepareResponse_data (sb_code FNDOK) (PL_notificationID id)
      (sizeof (arg_o DCMD_FND_NOTIFY_CLIENT_DETACH));;
    s ← getS;
    if isMasterConnected s && negb (sb_mExtendedID s =? extendedID clientID) then
      master_eval (create_Job None id
        (JA_NotifyClientDetach clientID (master_pulse s PULSE_MASTER_CLIENT_DETACH id) 0)
        (sizeof (arg_i DCMD_FND_NOTIFY_CLIENT_DETACH))
        (sizeof (arg_o DCMD_FND_NOTIFY_CLIENT_DETACH)))
    else
      whenM ((negb (sb_mUseServerCache s) || (sb_mExtendedID s =? extendedID clientID))
             && (cl_find clientID (sb_mAttachedClients s) =? -1))
        (trigger_party mClientDetachNotifications clientID)
  else prepareResponse (sb_code FNDInternalError).

Definition handleClearNofification (c : Z) (notificationID : Z) : M unit :=
  cn ← get_conn c;
  if cd_notificationExists notificationID (cn_mData cn) then
    upd_data c (cd_removeNotification notificationID);;
    nl_remove mClientDetachNotifications notificationID;;
    nl_remove mServerDisconnectNotifications notificationID;;
    nl_remove mServerConnectNotifications notificationID;;
    nl_remove mServerListChangeNotifications notificationID;;
    prepareResponse (sb_code FNDOK)
  else prepareResponse (sb_code FNDInvalidNotificationID).

(** ** Interface lists *)

(** [sizeof(arg.o) + inCount * sizeof(SFNDInterfaceDescription)] in [size_t]; the
    servicebroker is a 32-bit program. *)
Definition list_rbytes (cmd : dcmd) (inCount : Z) : Z :=
  u32 (sizeof (arg_o cmd) + u32 inCount * sizeof lay_SFNDInterfaceDescription).

(** Which servers a caller may see. *)
Definition visible (cn : Connection) (e : ServerListEntry) : bool :=
  negb (cn_mSlave cn) || negb (sv_local e).

Definition handleGetInterfaceList (c : Z) (inElementCount : Z) : M unit :=
  s ← getS;
  let inCount := i32 inElementCount in
  if isMasterConnected s then
    master_eval (create_Job (Some c) inCount (JA_GetInterfaceList inElementCount [])
      (sizeof (arg_i DCMD_FND_GET_INTERFACELIST)) (list_rbytes DCMD_FND_GET_INTERFACELIST inCount));;
    deferResponse
  else if sl_size (sb_mConnectedServers s) <=? u32 inCount then
    cn ← get_conn c;
    let found := filter (fun e => visible cn e = true) (sl_mEntries (sb_mConnectedServers s)) in
    forM_ found (fun e => writeAncillaryData (AN_ifDescription (SFND_of_ifDescr (sv_ifDescription e))));;
    prepareResponse (- Z.of_nat (length found))
  else prepareResponse (sb_code FNDBadArgument).

Definition handleNotifyInterfaceListChange (c : Z) (pulse : SFNDPulseInfo) : M unit :=
  id ← add_plain mServerListChangeNotifications c pulse;
  if negb (INVALID_NOTIFICATION_ID =? id) then
    upd_data c (cd_addNotification id);;
    s ← getS;
    whenM (isMasterConnected s)
      (master_eval (create_Job None id
         (JA_NotifyInterfaceListChange (master_pulse s PULSE_MASTER_SERVERLIST_CHANGE id) 0)
         (sizeof (arg_i DCMD_FND_NOTIFY_INTERFACELIST_CHANGE))
         (sizeof (arg_o DCMD_FND_NOTIFY_INTERFACELIST_CHANGE))));;
    prepareResponse_data (sb_code FNDOK) (PL_notificationID id)
      (sizeof (arg_o DCMD_FND_NOTIFY_INTERFACELIST_CHANGE))
  else prepareResponse (sb_code FNDBadArgument).

(** The matching loop: the count and whether the caller's buffer was big enough. *)
Fixpoint match_loop (cn : Connection) (re : bytes) (inCount : Z) (l : list ServerListEntry)
    (retCount : Z) : M (Z * bool) :=
  match l with
  | [] => mret (retCount, true)
  | e :: l' =>
    if RegExp_matches (Some re) (sv_name e) then
      if inCount <=? retCount then mret (retCount, false)
      else if visible cn e then
        writeAncillaryData (AN_ifDescription (SFND_of_ifDescr (sv_ifDescription e)));;
        match_loop cn re inCount l' (retCount + 1)
      else match_loop cn re inCount l' retCount
    else match_loop cn re inCount l' retCount
  end.

Definition handleMatchInterfaceList (c : Z) (inElementCount : Z) (regExpr : bytes) : M unit :=
  s ← getS;
  let re := cstr regExpr in
  let inCount := i32 inElementCount in
  if negb (env_regcomp re =? 0) then
    prepareResponse_data (- sb_code FNDRegularExpression) PL_none 0
  else if isMasterConnected s then
    master_eval ((create_Job (Some c) inCount (JA_MatchInterfaceList inElementCount regExpr [])
      (sizeof (arg_i DCMD_FND_MATCH_INTERFACELIST))
      (list_rbytes DCMD_FND_MATCH_INTERFACELIST inCount)) <| job_regex := RegExp_assign re |>);;
    deferResponse
  else
    cn ← get_conn c;
    r ← match_loop cn re inCount (sl_mEntries (sb_mConnectedServers s)) 0;
    if (snd r : bool) then prepareResponse (- fst r) else prepareResponse (sb_code FNDBadArgument).

(** The first visible server the new notification matches triggers it. *)
Definition notify_first_match (c : Z) (id : Z) : M unit :=
  s ← getS;
  cn ← get_conn c;
  match nl_find mServerListChangeNotifications id s with
  | None => skip
  | Some n =>
    match find_first (fun e =>
            ((cn_mNodeAddress cn =? SB_LOCAL_NODE_ADDRESS) || negb (sv_local e))
            && matchRegExp (sv_name e) n) (sl_mEntries (sb_mConnectedServers s)) with
    | Some _ => n' ← send n; nl_update mServerListChangeNotifications id (fun _ => n')
    | None => skip
    end
  end.

Definition handleNotifyInterfaceListMatch (c : Z) (pulse : SFNDPulseInfo) (regExpr : bytes) : M unit :=
  id ← add_regExpr mServerListChangeNotifications (cstr regExpr) c pulse;
  if negb (INVALID_NOTIFICATION_ID =? id) then
    upd_data c (cd_addNotification id);;
    s ← getS;
    whenM (isMasterConnected s)
      (master_eval (create_Job None id
         (JA_NotifyInterfaceListMatch (master_pulse s PULSE_MASTER_SERVERLIST_CHANGE id)
            (strncpy (Z.to_nat (NAME_MAX + 1)) (cstr regExpr)) 0)
         (sizeof (arg_i DCMD_FND_NOTIFY_INTERFACELIST_MATCH))
         (sizeof (arg_o DCMD_FND_NOTIFY_INTERFACELIST_MATCH))));;
    prepareResponse_data (sb_code FNDOK) (PL_notificationID id)
      (sizeof (arg_o DCMD_FND_NOTIFY_INTERFACELIST_MATCH));;
    notify_first_match c id
  else prepareResponse (sb_code FNDBadArgument).

Definition handleMasterPingId (c : Z) (id : Z) : M unit :=
  upd_data c (cd_setExtendedID id);;
  upd_conn c (fun cn => cn <| cn_mSlave := true |>);;
  prepareResponse (sb_code FNDOK).

End notify.
