(* ===== verification/Attach.v ===== *)
(** Attaching to and detaching from servers: [src/servicebroker/Servicebroker.cpp],
    [handleAttachInterface] (both overloads) to [handleDetachInterface], and
    [addClient], [findServerInterface].

    The code is modelled as the default build compiles it, without
    [USE_SERVER_CACHE]. *)

From S2P Require Import Prelude.
From S2P Require Import Layout.
From S2P Require Import Types.
From S2P Require Import ServerList.
From S2P Require Import ConfigFile.
From S2P Require Import ClientData.
From S2P Require Import JobQueue.
From S2P Require Import Environment.
From S2P Require Import PulseChannelManager.
From S2P Require Import NotificationPool.
From S2P Require Import MessageContext.
From S2P Require Import State.
From S2P Require Import Notifications.
From S2P Require Import Registration.
From S2P Require Import Notify.

Section attach.
Context `{Env}.

(** [addClient(clientID, connCtx, serverID)]: the client id afterwards; [old] is
    what [clientID] held before. *)
Definition addClient (old : SPartyID) (c : Z) (serverID : SPartyID) : M SPartyID :=
  s ← getS;
  cn ← get_conn c;
  clientID ←
    (if negb (sb_mUseServerCache s) || negb (cn_mSlave cn) then
       let clientID := mkParty (sb_mNextClientID s)
         (if cf_mTreeMode (sb_mConfig s) then sb_mExtendedID s else extendedID serverID) in
       modify (fun s => s <| sb_mNextClientID ::= (fun i => u32 (i + 1)) |>
                          <| sb_mAttachedClients ::= cl_push_back clientID serverID c |>);;
       mret clientID
     else mret old);
  whenM (negb (globalID clientID =? 0)) (upd_data c (cd_addClient clientID));;
  mret clientID.

(** [handleAttachLocalInterface]: the connection information on success. *)
Definition handleAttachLocalInterface (c : Z) (entry : ServerListEntry)
    : M (SBStatus * option SConnectionInfo) :=
  cn ← get_conn c;
  if negb (sv_grpid entry =? SB_UNKNOWN_GROUP_ID)
     && (negb (cn_isLocal cn) || negb (checkAccessPrivileges cn entry))
  then mret (FNDAccessDenied, None)
  else
    clientID ← addClient env_overlay_clientID c (sv_partyID entry);
    mret (FNDOK, Some (mkConnInfo
      (mkVersion (u16 (id_majorVersion (sv_ifDescription entry)))
                 (u16 (id_minorVersion (sv_ifDescription entry))))
      (mkChannel (u32 (nullTranslator (cn_mNodeAddress cn) (sv_nid entry)))
                 (translateLocal cn (sv_name entry) (sv_pid entry)) (sv_chid entry))
      (sv_partyID entry) clientID)).

(** [mNextPendingRemoteServerRequestID++]. *)
Definition nextRequestID : M Z :=
  s ← getS;
  modify (fun s => s <| sb_mNextPendingRemoteServerRequestID ::= (fun i => u32 (i + 1)) |>);;
  mret (sb_mNextPendingRemoteServerRequestID s).

Definition handleAttachInterface (c : Z) (d : SFNDInterfaceDescription) : M unit :=
  s ← getS;
  let name := cstr (sd_name d) in
  let isLocal := isLocalService (sb_mConfig s) name in
  if check_ifDescription d env_after_name then
    match sl_find_ifDescr d (sb_mConnectedServers s) with
    | Some entry =>
      r ← handleAttachLocalInterface c entry;
      match snd r with
      | Some info => prepareResponse_data (sb_code FNDOK) (PL_connInfo info)
                       (sizeof (arg_o DCMD_FND_ATTACH_INTERFACE))
      | None => prepareResponse (sb_code (fst r))
      end
    | None =>
      if negb isLocal && forwardService (sb_mConfig s) name && isMasterConnected s then
        cookie ← nextRequestID;
        master_eval (create_Job (Some c) cookie
          (JA_Attach d (mkConnInfo (mkVersion 0 0) (mkChannel 0 0 0) (party_of_global 0)
                          (party_of_global 0)))
          (sizeof (arg_i DCMD_FND_ATTACH_INTERFACE)) (sizeof (arg_o DCMD_FND_ATTACH_INTERFACE)));;
        deferResponse
      else prepareResponse (sb_code FNDUnknownInterface)
    end
  else prepareResponse (sb_code FNDBadArgument).

(** ** Extended attach *)

(** Does the pool still need an extended attach at the master? *)
Definition ext_job_needed (poolFound : bool) (e : NotificationPoolEntry) : bool :=
  negb poolFound || bool_decide (pe_mPoolState e = STATE_CONNECTED).

(** The second half of [forwardAttachExtendedToMaster], once the notification [id]
    is attached to the pool at [pos]: the answer's notification id, if written. *)
Definition forwardAttachExtended_job (c : Z) (pulse : SFNDPulseInfo) (d : SFNDInterfaceDescription)
    (poolFound : bool) (pos id : Z) : M (option Z) :=
  s ← getS;
  e ← pool_get pos;
  let needed := ext_job_needed poolFound e in
  let job :=
    create_Job (if sb_mAsyncMode s then None else Some c) 0
      (JA_AttachExtended (master_pulse s PULSE_MASTER_ATTACH_EXTENDED (pe_poolID e)) d
         (mkConnInfo (mkVersion 0 0) (mkChannel 0 0 0) (party_of_global 0) (party_of_global 0)) 0)
      (sizeof (arg_i DCMD_FND_ATTACH_INTERFACE_EXTENDED))
      (sizeof (arg_o DCMD_FND_ATTACH_INTERFACE_EXTENDED)) in
  whenM (needed && negb (sb_mAsyncMode s)) deferResponse;;
  (match pe_mPoolState e with
   | STATE_CONNECTED => pool_update pos (fun e => default e (setState STATE_PRECACHING e))
   | STATE_PRECACHING => deferResponse
   | _ => skip
   end);;
  whenM needed (master_eval job);;
  mret (if needed && negb (sb_mAsyncMode s) then None else Some id).

(** [forwardAttachExtendedToMaster]: the status and the answer's notification id. *)
Definition forwardAttachExtendedToMaster (c : Z) (pulse : SFNDPulseInfo)
    (d : SFNDInterfaceDescription) : M (SBStatus * option Z) :=
  s ← getS;
  let isLocal := isLocalService (sb_mConfig s) (cstr (sd_name d)) in
  pos0 ← pool_find_ifDescr (ifDescr_of_SFND d) true;
  pos ← (if pos0 =? -1 then pool_add (fun id => new_PoolEntry_ifDescr id (ifDescr_of_SFND d) true)
         else mret pos0);
  cn ← get_conn c;
  id ← add_ifDescr mServerConnectNotifications c (ifDescr_of_SFND d) c pulse isLocal (cn_mUid cn);
  if id =? INVALID_NOTIFICATION_ID then mret (FNDInvalidNotificationID, None)
  else
    s ← getS;
    match nl_find mServerConnectNotifications id s with
    | None => mret (FNDInternalError, None)
    | Some _ =>
      upd_data c (cd_addNotification id);;
      pool_attach pos mServerConnectNotifications id;;
      out ← forwardAttachExtended_job c pulse d (negb (pos0 =? -1)) pos id;
      mret (FNDUnknownInterface, out)
    end.

Definition handleAttachInterfaceExtended (c : Z) (pulse : SFNDPulseInfo)
    (d : SFNDInterfaceDescription) : M unit :=
  s ← getS;
  let name := cstr (sd_name d) in
  let isLocal := isLocalService (sb_mConfig s) name in
  r ←
    (if negb (check_ifDescription d env_after_name) then mret (FNDBadArgument, None, None)
     else
       match sl_find_ifDescr d (sb_mConnectedServers s) with
       | Some entry =>
         a ← handleAttachLocalInterface c entry;
         if bool_decide (fst a = FNDOK) then
           n ← handleNotifyServerDisconnectNoResponse c (sv_partyID entry) env_pulse;
           mret (fst n, snd a, Some (snd n))
         else mret (fst a, snd a, None)
       | None =>
         if isLocal || negb (forwardService (sb_mConfig s) name) || negb (isMasterConnected s) then
           n ← handleNotifyServerAvailableNoResponse c pulse d;
           mret (if bool_decide (fst n = FNDOK) then FNDUnknownInterface else fst n,
                 None, Some (snd n))
         else
           f ← forwardAttachExtendedToMaster c pulse d;
           mret (fst f, None, snd f)
       end);
  let '(result, connInfo, id) := (r : SBStatus * option SConnectionInfo * option Z) in
  s ← getS;
  if bool_decide (responseState s = State_DEFERRED) then skip
  else if bool_decide (result = FNDUnknownInterface) || bool_decide (result = FNDOK) then
    prepareResponse_data (sb_code result) (PL_AttachExtended connInfo (default 0 id))
      (sizeof (arg_o DCMD_FND_ATTACH_INTERFACE_EXTENDED))
  else prepareResponse (sb_code result).

(** ** Server information, detach *)

Definition handleGetServerInformation (c : Z) (d : SFNDInterfaceDescription) : M unit :=
  s ← getS;
  let isLocal := isLocalService (sb_mConfig s) (cstr (sd_name d)) in
  if check_ifDescription d env_after_name then
    match sl_find_ifDescr d (sb_mConnectedServers s) with
    | Some entry =>
      cn ← get_conn c;
      prepareResponse_data (sb_code FNDOK)
        (PL_serverInfo (mkServerInfo
           (mkChannel (u32 (sv_nid entry)) (translateLocal cn (sv_name entry) (sv_pid entry))
              (sv_chid entry)) (sv_partyID entry)))
        (sizeof (arg_o DCMD_FND_GET_SERVER_INFORMATION))
    | None =>
      if negb isLocal && isMasterConnected s then
        cookie ← nextRequestID;
        modify (fun s => s <| sb_mPendingRemoteServersRequests ::=
          <[u32 (i32 cookie) := ifDescr_of_SFND d]> |>);;
        master_eval (create_Job (Some c) cookie
          (JA_GetServerInformation d (mkServerInfo (mkChannel 0 0 0) (party_of_global 0)))
          (sizeof (arg_i DCMD_FND_GET_SERVER_INFORMATION))
          (sizeof (arg_o DCMD_FND_GET_SERVER_INFORMATION)));;
        deferResponse
      else prepareResponse (sb_code FNDUnknownInterface)
    end
  else prepareResponse (sb_code FNDBadArgument).

Definition handleDetachInterface (c : Z) (clientID : SPartyID) : M unit :=
  s ← getS;
  cn ← get_conn c;
  result ←
    (if cd_clientExists clientID (cn_mData cn)
        && negb (cl_find clientID (sb_mAttachedClients s) =? -1) then
       trigger_party mClientDetachNotifications clientID;;
       modify (fun s => s <| sb_mAttachedClients ::= cl_remove clientID |>);;
       upd_data c (cd_removeClient clientID);;
       mret FNDOK
     else mret FNDInvalidClientID);
  s ← getS;
  if isMasterConnected s && (sb_mUseServerCache s || negb (bool_decide (result = FNDOK))) then
    master_eval (create_Job (Some c) 0 (JA_Detach clientID)
      (sizeof (arg_i DCMD_FND_DETACH_INTERFACE)) 0);;
    deferResponse;;
    upd_data c (cd_removeClient clientID)
  else prepareResponse (sb_code result).

(** [findServerInterface]. *)
Definition findServerInterface (server : SPartyID) (s : SB) : option InterfaceDescription :=
  sv_ifDescription <$> sl_find_party server (sb_mConnectedServers s).

End attach.
