(* ===== verification/Jobs.v ===== *)
(** Answers and signals from the master: [src/servicebroker/Servicebroker.cpp],
    [handleJobFinished] to [handleMasterAttachExtended], [Job::finalize] and
    [ServicebrokerClientBase::sendDeferredResponse]. *)

From S2P Require Import Prelude.
From S2P Require Import Layout.
From S2P Require Import Types.
From S2P Require Import ServerList.
From S2P Require Import ConfigFile.
From S2P Require Import ClientData.
From S2P Require Import JobQueue.
From S2P Require Import Environment.
From S2P Require Import PulseChannelManager.
From S2P Require Import NotificationPool.
From S2P Require Import MessageContext.
From S2P Require Import State.
From S2P Require Import Notifications.
From S2P Require Import Registration.
From S2P Require Import Notify.
From S2P Require Import Attach.

Definition EIO : Z := 5.
Definition EINVAL : Z := 22.

Section jobs.
Context `{Env}.

(** ** Finishing a job *)

(** The answer area a deferred response copies out of [job.arg]. *)
Definition job_payload (j : Job) : Payload :=
  match job_arg j with
  | JA_Attach _ o => PL_connInfo o
  | JA_AttachExtended _ _ o id => PL_AttachExtended (Some o) id
  | JA_GetServerInformation _ o => PL_serverInfo o
  | JA_GetInterfaceList _ o => PL_interfaces o
  | JA_MatchInterfaceList _ _ o => PL_interfaces o
  | JA_NotifyServerDisconnect _ _ id => PL_notificationID id
  | JA_NotifyClientDetach _ _ id => PL_notificationID id
  | JA_NotifyInterfaceListChange _ id => PL_notificationID id
  | JA_NotifyInterfaceListMatch _ _ id => PL_notificationID id
  | JA_NotifyServerAvailableEx _ o => PL_ancillary (AN_notification <$> o)
  | JA_RegisterMasterEx _ o => PL_ancillary (AN_serverID <$> o)
  | JA_Detach _ | JA_ClearNotification _ | JA_Unregister _ => PL_none
  end.

(** [Job::finalize] and [sendDeferredResponse]. *)
Definition finalize (j : Job) : M unit :=
  match job_ctx j with
  | None => skip
  | Some c =>
    cn ← get_conn c;
    assertM F_job (bool_decide (cn_mState cn = CS_DEFERRED));;
    upd_conn c (fun cn => cn <| cn_mState := CS_WRITING |>);;
    emit (O_deferred c (deferred_response (job_status j) (job_ret_val j) (job_payload j)
                          (job_rbytes j)))
  end.

(** [getConnectionContext()], [getClientSpecificData()]: asserts that a client
    waits for the job. *)
Definition job_conn (j : Job) : M Z :=
  match job_ctx j with Some c => mret c | None => fault F_job;; mret 0 end.

(** *** Per command *)

(** Results of [NOTIFY_SERVER_AVAILABLE_EX]: the master's ids are stored in the
    pools, or cleared again when the pool is gone. *)
Definition finished_NotifyServerAvailableEx (j : Job) (o : list SFNDNotificationID) : M unit :=
  forM_ (take (Z.to_nat (job_cookie j)) o) (fun n =>
    if ni_notificationID n =? INVALID_NOTIFICATION_ID then skip
    else
      s ← getS;
      let pos := np_find_id (ni_cookie n) (sb_mMasterNotificationPool s) in
      if negb (pos =? -1)
      then pool_update pos (fun e => e <| pe_notificationID := ni_notificationID n |>)
      else createClearNotificationJob (ni_notificationID n)).

Definition finished_NotifyServerDisconnect (j : Job) (id : Z) : M unit :=
  s ← getS;
  let pos := np_find_id (u32 (job_cookie j)) (sb_mMasterNotificationPool s) in
  if negb (pos =? -1) then pool_update pos (fun e => e <| pe_notificationID := id |>)
  else createClearNotificationJob id.

(** [NOTIFY_CLIENT_DETACH] and the two interface list notifications: the master's
    id is stored in the local notification of list [k]. *)
Definition finished_Notify (k : nlist) (j : Job) (id : Z) : M unit :=
  s ← getS;
  match nl_find k (u32 (job_cookie j)) s with
  | Some _ => nl_update k (u32 (job_cookie j)) (fun n => n <| n_masterNotificationID := id |>)
  | None => createClearNotificationJob id
  end.

(** [REGISTER_MASTER_INTERFACE_EX]: store the ids the master assigned. *)
Definition finished_RegisterMasterEx (j : Job) (o : list SPartyID) : M unit :=
  forM_ (take (Z.to_nat (job_cookie j)) o) (fun id =>
    s ← getS;
    match sl_findByLocalIDandInvalidMasterID (localID id) (sb_mConnectedServers s) with
    | Some _ =>
      if extendedID id =? u32 (-1) then skip
      else modify (fun s => s <| sb_mConnectedServers ::= (fun l =>
             l <| sl_mEntries ::= update_first (invalid_master_with (localID id))
                    (fun e => e <| sv_masterID := id |>) |>) |>)
    | None => construct_ServerListEntry;; unregisterInterfaceMaster id;; skip
    end).

(** [arr[i] = x] in the zero-initialised answer area. *)
Definition write_at {A} (zero : A) (i : nat) (x : A) (l : list A) : list A :=
  take i l ++ replicate (i - length l) zero ++ x :: drop (S i) l.

Definition zero_SFNDDescr : SFNDInterfaceDescription :=
  mkSFNDDescr (mkVersion 0 0) (replicate (Z.to_nat (NAME_MAX + 1)) 0).

(** [GET_INTERFACELIST], [MATCH_INTERFACELIST]: append the servers the master does
    not know ([own]) to its answer; [None] when the caller's buffer is full. *)
Fixpoint append_own (own : ServerListEntry -> bool) (cookie : Z) (l : list ServerListEntry)
    (ret_val : Z) (o : list SFNDInterfaceDescription)
    : option (Z * list SFNDInterfaceDescription) :=
  match l with
  | [] => Some (ret_val, o)
  | e :: l' =>
    if own e then
      if cookie <=? ret_val then None
      else append_own own cookie l' (ret_val + 1)
             (write_at zero_SFNDDescr (Z.to_nat ret_val) (SFND_of_ifDescr (sv_ifDescription e)) o)
    else append_own own cookie l' ret_val o
  end.

Definition own_server (cfg : ConfigFile) (e : ServerListEntry) : bool :=
  sv_local e || negb (forwardService cfg (sv_name e)).

(** The job after the append loop: counts are returned as negative values. *)
Definition list_job_finished (own : ServerListEntry -> bool) (l : list ServerListEntry)
    (set_o : list SFNDInterfaceDescription -> JobArg) (o : list SFNDInterfaceDescription) (j : Job)
    : Job :=
  match append_own own (job_cookie j) l (job_ret_val j) o with
  | Some (ret_val, o') =>
    j <| job_arg := set_o o' |> <| job_rbytes := ret_val * sizeof lay_SFNDInterfaceDescription |>
      <| job_ret_val := - ret_val |>
  | None => j <| job_status := EINVAL |> <| job_rbytes := 0 |>
  end.

(** [handleMasterServerAvailable]. *)
Definition handleMasterServerAvailable (poolID : Z) : M unit :=
  triggerPool mServerConnectNotifications poolID.

(** *** Extended attach *)

(** The part of [handleJobFinishedAttachExtended] behind the consistency checks:
    the connection information and the status. *)
Definition attachExtended_consistent (j : Job) (main poolID poolPos : Z) (o : SConnectionInfo)
    (o_id : Z) : M (SConnectionInfo * Z) :=
  e ← pool_get poolPos;
  pool_update poolPos (fun e => e <| pe_notificationID := o_id |>);;
  count ← setMasterNotificationID mServerConnectNotifications o_id poolID;
  if bool_decide (pe_mPoolState e = STATE_DEFERRED) && (count =? 0)
  then mret (o, sb_code FNDInternalError)
  else if negb (ch_chid (ci_channel o) =? 0) then
    s ← getS;
    c ← job_conn j;
    clientID ←
      (if negb (sb_mAsyncMode s) then addClient (ci_clientID o) c (ci_serverID o)
       else upd_data c (cd_addClient (ci_clientID o));; handleMasterServerAvailable poolID;;
            mret (ci_clientID o));
    nl_move mServerDisconnectNotifications mServerConnectNotifications poolID;;
    nl_setType mServerDisconnectNotifications poolID (ci_serverID o);;
    pool_get poolPos;;
    pool_update poolPos (fun e => default e (setState_party (ci_serverID o) e));;
    mret (mkConnInfo (ci_ifVersion o) (ci_channel o) (ci_serverID o) clientID, 0)
  else
    pool_update poolPos (fun e => default e (setState STATE_CONNECTING e));; mret (o, 0).

(** [handleJobFinishedAttachExtended]: the job with its new status and answer. *)
Definition handleJobFinishedAttachExtended (j : Job) (pulse : SFNDPulseInfo)
    (d : SFNDInterfaceDescription) (o : SConnectionInfo) (o_id : Z) : M Job :=
  s ← getS;
  let jobID := u32 (job_cookie j) in
  let failed := j <| job_status := sb_code FNDInternalError |> in
  match sb_mPendingAttachExtendedJobs s !! jobID with
  | None => mret failed
  | Some main =>
    j' ←
      match nl_find mServerConnectNotifications main s with
      | None => mret failed
      | Some n =>
        let poolPos := np_find_id (n_poolID n) (sb_mMasterNotificationPool s) in
        if poolPos =? -1 then mret failed
        else
          e ← pool_get poolPos;
          if negb (bool_decide (pe_mPoolState e = STATE_DEFERRED))
             && negb (bool_decide (pe_mPoolState e = STATE_PRECACHING))
          then mret failed
          else
            r ← attachExtended_consistent j main (n_poolID n) poolPos o o_id;
            mret (j <| job_status := snd r |> <| job_arg := JA_AttachExtended pulse d (fst r) main |>)
      end;
    modify (fun s => s <| sb_mPendingAttachExtendedJobs ::= delete jobID |>);;
    mret j'
  end.

(** *** handleJobFinished *)

(** The [switch (job.dcmd)] of a job that the transport delivered. *)
Definition job_switch (j : Job) : M Job :=
  s ← getS;
  match job_arg j with
  | JA_Attach _ o => c ← job_conn j; upd_data c (cd_addClient (ci_clientID o));; mret j
  | JA_AttachExtended pulse d o id => handleJobFinishedAttachExtended j pulse d o id
  | JA_GetServerInformation _ _ =>
    let cookie := u32 (job_cookie j) in
    if bool_decide (sb_mPendingRemoteServersRequests s !! cookie = None)
    then mret (j <| job_status := sb_code FNDInternalError |>)
    else modify (fun s => s <| sb_mPendingRemoteServersRequests ::= delete cookie |>);; mret j
  | JA_NotifyServerAvailableEx _ o => finished_NotifyServerAvailableEx j o;; mret j
  | JA_NotifyServerDisconnect _ _ id => finished_NotifyServerDisconnect j id;; mret j
  | JA_NotifyClientDetach _ _ id => finished_Notify mClientDetachNotifications j id;; mret j
  | JA_NotifyInterfaceListChange _ id => finished_Notify mServerListChangeNotifications j id;; mret j
  | JA_NotifyInterfaceListMatch _ _ id => finished_Notify mServerListChangeNotifications j id;; mret j
  | JA_RegisterMasterEx _ o => finished_RegisterMasterEx j o;; mret j
  | JA_GetInterfaceList n o =>
    mret (list_job_finished (own_server (sb_mConfig s)) (sl_mEntries (sb_mConnectedServers s))
            (JA_GetInterfaceList n) o j)
  | JA_MatchInterfaceList n re o =>
    mret (list_job_finished
            (fun e => own_server (sb_mConfig s) e && RegExp_matches (job_regex j) (sv_name e))
            (sl_mEntries (sb_mConnectedServers s)) (JA_MatchInterfaceList n re) o j)
  | JA_Detach _ | JA_Unregister _ | JA_ClearNotification _ => mret j
  end.

Definition handleJobFinished (j : Job) : M unit :=
  j' ← (if job_status j =? 0 then job_switch j else mret j);
  finalize j'.

(** ** Signals from the master *)

Definition handleMasterConnected : M unit :=
  s ← getS; assertM F_master (negb (isMaster s));;
  registerInterfacesMaster;; forwardServerAvailableNotifications.

(** The disconnect notifications of servers this servicebroker does not know. *)
Definition trigger_unknown_servers : M unit :=
  on_list mServerDisconnectNotifications (fun n =>
    s ← getS;
    if n_active n && negb (sb_mExtendedID s =? extendedID (n_partyID n))
       && bool_decide (sl_find_party (n_partyID n) (sb_mConnectedServers s) = None)
    then send_erase n else keep n).

Definition handleMasterDisconnected : M unit :=
  s ← getS; assertM F_master (negb (isMaster s));;
  modify (fun s => s <| sb_mConnectedServers ::= sl_clearMasterIDs |>
                     <| sb_mMasterNotificationPool ::= np_clear |>
                     <| sb_mPendingRemoteServersRequests := ∅ |>
                     <| sb_mPendingAttachExtendedJobs := ∅ |>);;
  trigger_unknown_servers;;
  triggerNotLocal mClientDetachNotifications (sb_mExtendedID s);;
  clearMasterNotification mServerConnectNotifications.

Definition handleMasterServerDisconnect (poolID : Z) : M unit :=
  triggerPool mServerDisconnectNotifications poolID.

Definition handleMasterClientDetach (notificationId : Z) : M unit :=
  s ← getS;
  match nl_find mClientDetachNotifications notificationId s with
  | Some n => trigger_party mClientDetachNotifications (n_partyID n)
  | None => trigger_id mClientDetachNotifications notificationId true
  end.

Definition handleMasterServerlistChange (notificationId : Z) : M unit :=
  trigger_id mServerListChangeNotifications notificationId false.

Definition handleMasterAttachExtended (poolID : Z) : M unit :=
  s ← getS;
  let pos := np_find_id poolID (sb_mMasterNotificationPool s) in
  if pos =? -1 then skip
  else
    e ← pool_get pos;
    match pe_mPoolState e with
    | STATE_MONITOR_DISCONNECT => handleMasterServerDisconnect poolID
    | STATE_CONNECTING =>
      pool_update pos (fun e => default e (setState STATE_CONNECTED e));;
      if sb_mAsyncMode s then
        match getInterfaceDescription e with
        | Some d =>
          master_eval (create_Job None pos
            (JA_AttachExtended (master_pulse s PULSE_MASTER_ATTACH_EXTENDED poolID)
               (SFND_of_ifDescr d)
               (mkConnInfo (mkVersion 0 0) (mkChannel 0 0 0) (party_of_global 0)
                  (party_of_global 0)) 0)
            (sizeof (arg_i DCMD_FND_ATTACH_INTERFACE_EXTENDED))
            (sizeof (arg_o DCMD_FND_ATTACH_INTERFACE_EXTENDED)))
        | None => fault F_pool
        end
      else handleMasterServerAvailable poolID
    | _ => skip
    end.

End jobs.
