(* ===== verification/Dispatch.v ===== *)
(** The two entry points of the servicebroker, [Servicebroker::dispatch] for
    requests and for pulses ([src/servicebroker/Servicebroker.cpp]), the names
    used in its log ([GetDCmdString], [toString]), and the client handle around
    them: [ClientSpecificData::clear], [ServicebrokerClientBase] and the client
    list of [ServicebrokerServer]. *)

From S2P Require Import Prelude.
From S2P Require Import Layout.
From S2P Require Import Types.
From S2P Require Import ServerList.
From S2P Require Import ConfigFile.
From S2P Require Import ClientData.
From S2P Require Import JobQueue.
From S2P Require Import Environment.
From S2P Require Import PulseChannelManager.
From S2P Require Import NotificationPool.
From S2P Require Import MessageContext.
From S2P Require Import State.
From S2P Require Import Notifications.
From S2P Require Import Registration.
From S2P Require Import Notify.
From S2P Require Import Attach.
From S2P Require Import Jobs.

(** ** Names *)

Definition GetDCmdString (c : dcmd) : string :=
  match c with
  | DCMD_FND_REGISTER_INTERFACE => "DCMD_FND_REGISTER_INTERFACE"
  | DCMD_FND_REGISTER_INTERFACE_EX => "DCMD_FND_REGISTER_INTERFACE_EX"
  | DCMD_FND_UNREGISTER_INTERFACE => "DCMD_FND_UNREGISTER_INTERFACE"
  | DCMD_FND_ATTACH_INTERFACE => "DCMD_FND_ATTACH_INTERFACE"
  | DCMD_FND_ATTACH_INTERFACE_EXTENDED => "DCMD_FND_ATTACH_INTERFACE_EXTENDED"
  | DCMD_FND_DETACH_INTERFACE => "DCMD_FND_DETACH_INTERFACE"
  | DCMD_FND_NOTIFY_SERVER_DISCONNECT => "DCMD_FND_NOTIFY_SERVER_DISCONNECT"
  | DCMD_FND_NOTIFY_SERVER_AVAILABLE => "DCMD_FND_NOTIFY_SERVER_AVAILABLE"
  | DCMD_FND_NOTIFY_SERVER_AVAILABLE_EX => "DCMD_FND_NOTIFY_SERVER_AVAILABLE_EX"
  | DCMD_FND_NOTIFY_CLIENT_DETACH => "DCMD_FND_NOTIFY_CLIENT_DETACH"
  | DCMD_FND_CLEAR_NOTIFICATION => "DCMD_FND_CLEAR_NOTIFICATION"
  | DCMD_FND_REGISTER_MASTER_INTERFACE_EX => "DCMD_FND_REGISTER_MASTER_INTERFACE_EX"
  | DCMD_FND_MASTER_PING => "DCMD_FND_MASTER_PING"
  | DCMD_FND_GET_INTERFACELIST => "DCMD_FND_GET_INTERFACELIST"
  | DCMD_FND_NOTIFY_INTERFACELIST_CHANGE => "DCMD_FND_NOTIFY_INTERFACELIST_CHANGE"
  | DCMD_FND_NOTIFY_INTERFACELIST_MATCH => "DCMD_FND_NOTIFY_INTERFACELIST_MATCH"
  | DCMD_FND_REGISTER_INTERFACE_GROUPID => "DCMD_FND_REGISTER_INTERFACE_GROUPID"
  | DCMD_FND_GET_SERVER_INFORMATION => "DCMD_FND_GET_SERVER_INFORMATION"
  | DCMD_FND_MASTER_PING_ID => "DCMD_FND_MASTER_PING_ID"
  | DCMD_FND_MATCH_INTERFACELIST => "DCMD_FND_MATCH_INTERFACELIST"
  end.

Definition SBStatus_toString (st : SBStatus) : string :=
  match st with
  | FNDOK => "FNDOK"
  | FNDVersionMismatch => "FNDVersionMismatch"
  | FNDUnknownInterface => "FNDUnknownInterface"
  | FNDInterfaceAlreadyRegistered => "FNDInterfaceAlreadyRegistered"
  | FNDInvalidServerID => "FNDInvalidServerID"
  | FNDInvalidClientID => "FNDInvalidClientID"
  | FNDInvalidNotificationID => "FNDInvalidNotificationID"
  | FNDBadArgument => "FNDBadArgument"
  | FNDBadFoundationVersion => "FNDBadFoundationVersion"
  | FNDRegularExpression => "FNDRegularExpression"
  | FNDAccessDenied => "FNDAccessDenied"
  | FNDUnknownCommand => "FNDUnknownCommand"
  | FNDInternalError => "FNDInternalError"
  end.

(** ** Message lengths *)

(** The length tests of the second [switch] of [dispatch]. *)
Definition size_ok (c : dcmd) (nBytes : Z) : bool :=
  match c with
  | DCMD_FND_REGISTER_INTERFACE_EX => sizeof (arg_union c) <? nBytes
  | DCMD_FND_NOTIFY_SERVER_AVAILABLE_EX => sizeof (arg_union c) <=? nBytes
  | DCMD_FND_REGISTER_MASTER_INTERFACE_EX => sizeof (arg_union c) <=? nBytes
  | DCMD_FND_MASTER_PING_ID => sizeof (arg_union c) <=? nBytes
  | DCMD_FND_GET_INTERFACELIST => true
  | DCMD_FND_MATCH_INTERFACELIST => true
  | _ => nBytes =? sizeof (arg_union c)
  end.

Section dispatch.
Context `{Env}.

(** The calls of the second [switch]; requests with ancillary data get the read
    position behind the fixed part. *)
Definition run_handler (c : Z) (r : Request) : M unit :=
  match r with
  | RQ_Register a => handleRegisterInterface c a
  | RQ_RegisterEx a items =>
    setGetOffset (sizeof (arg_i DCMD_FND_REGISTER_INTERFACE_EX));;
    handleRegisterInterfaceEx c a items
  | RQ_RegisterGroupID a => handleRegisterInterfaceGroupID c a
  | RQ_Unregister id => handleUnregisterInterface c id
  | RQ_Attach d => handleAttachInterface c d
  | RQ_AttachExtended p d => handleAttachInterfaceExtended c p d
  | RQ_GetServerInformation d => handleGetServerInformation c d
  | RQ_Detach id => handleDetachInterface c id
  | RQ_NotifyServerDisconnect id p => handleNotifyServerDisconnect c id p
  | RQ_NotifyServerAvailable p d => handleNotifyServerAvailable c p d
  | RQ_NotifyServerAvailableEx n items =>
    setGetOffset (sizeof (arg_i DCMD_FND_NOTIFY_SERVER_AVAILABLE_EX));;
    handleNotifyServerAvailableEx c n items
  | RQ_NotifyClientDetach id p => handleNotifyClientDetach c id p
  | RQ_ClearNotification id => handleClearNofification c id
  | RQ_RegisterMasterEx n items =>
    setGetOffset (sizeof (arg_i DCMD_FND_REGISTER_MASTER_INTERFACE_EX));;
    handleRegisterMasterInterface c n items
  | RQ_GetInterfaceList n => handleGetInterfaceList c n
  | RQ_NotifyInterfaceListChange p => handleNotifyInterfaceListChange c p
  | RQ_MatchInterfaceList n re => handleMatchInterfaceList c n re
  | RQ_NotifyInterfaceListMatch p re => handleNotifyInterfaceListMatch c p re
  | RQ_MasterPingId id => handleMasterPingId c id
  | RQ_MasterPing | RQ_Unknown _ => skip
  end.

(** Don't leave a request unanswered. *)
Definition ensure_answered : M unit :=
  s ← getS;
  if bool_decide (responseState s = State_SENT) || bool_decide (responseState s = State_DEFERRED)
  then skip else prepareResponse_force (sb_code FNDInternalError).

(** The part of [dispatch] for a known command with an argument. *)
Definition dispatch_command (c : Z) (cmd : dcmd) (f : Frame) : M unit :=
  nBytes ← readData rcvBuffer_size;
  if 0 <=? nBytes then
    if (sizeof lay_SFNDInterfaceVersion <=? nBytes) && check_version (fr_sbVersion f) then
      whenM (size_ok cmd nBytes) (run_handler c (fr_request f));;
      ensure_answered
    else prepareResponse_force (sb_code FNDBadFoundationVersion)
  else prepareResponse_force (sb_code FNDInternalError).

(** [dispatch(cmd, context, data)]: was the command handled? *)
Definition dispatch (c : Z) (f : Frame) : M bool :=
  match request_dcmd (fr_request f) with
  | Some DCMD_FND_MASTER_PING =>
    upd_conn c (fun cn => cn <| cn_mSlave := true |>);;
    prepareResponse_force (sb_code FNDOK);; mret true
  | Some cmd => dispatch_command c cmd f;; mret true
  | None => prepareResponse_force (sb_code FNDInternalError);; mret false
  end.

(** [dispatch(code, value)].  [PULSE_JOB_EXECUTED] carries the address of a job:
    [job] is the job at that address, if there is one. *)
Definition dispatch_pulse (code value : Z) (job : option Job) : M unit :=
  if code =? PULSE_JOB_EXECUTED then
    if value =? 0 then skip
    else match job with Some j => handleJobFinished j | None => fault F_job end
  else if code =? PULSE_MASTER_CONNECTED then handleMasterConnected
  else if code =? PULSE_MASTER_DISCONNECTED then handleMasterDisconnected
  else if code =? PULSE_MASTER_SERVER_AVAILABLE then handleMasterServerAvailable (u32 value)
  else if code =? PULSE_MASTER_SERVER_DISCONNECT then handleMasterServerDisconnect (u32 value)
  else if code =? PULSE_MASTER_CLIENT_DETACH then handleMasterClientDetach (u32 value)
  else if code =? PULSE_MASTER_SERVERLIST_CHANGE then handleMasterServerlistChange (u32 value)
  else if code =? PULSE_MASTER_ATTACH_EXTENDED then handleMasterAttachExtended (u32 value)
  else skip.

(** ** Client handles *)

(** The loop of [clear] over the client's servers. *)
Definition clear_server (serverID : SPartyID) : M unit :=
  s ← getS;
  match sl_find_party serverID (sb_mConnectedServers s) with
  | Some entry =>
    masterID ← unregisterInterfaceMaster (sv_masterID entry);
    modify (fun s => s <| sb_mConnectedServers ::=
      sl_update_party serverID (fun e => e <| sv_masterID := masterID |>) |>);;
    modify (fun s => s <| sb_mConnectedServers ::= sl_remove serverID |>);;
    modify (fun s => s <| sb_mAttachedClients ::= cl_removeServer serverID |>)
  | None => skip
  end.

(** The loop of [clear] over the client's attachments. *)
Definition clear_client (clientID : SPartyID) : M unit :=
  modify (fun s => s <| sb_mAttachedClients ::= cl_remove clientID |>);;
  s ← getS;
  whenM (isMasterConnected s)
    (master_eval (create_Job None 0 (JA_Detach clientID)
       (sizeof (arg_i DCMD_FND_DETACH_INTERFACE)) 0)).

(** [ClientSpecificData::clear] of connection [c]. *)
Definition clear (c : Z) : M unit :=
  cn ← get_conn c;
  let servers := cd_mServerList (cn_mData cn) in
  let clients := cd_mClientList (cn_mData cn) in
  forM_ servers clear_server;;
  forM_ clients clear_client;;
  trigger_ids mServerDisconnectNotifications servers;;
  trigger_ids mClientDetachNotifications clients;;
  nl_remove_ids mServerDisconnectNotifications c;;
  nl_remove_ids mClientDetachNotifications c;;
  nl_remove_ids mServerConnectNotifications c;;
  nl_remove_ids mServerListChangeNotifications c;;
  whenM (bool_decide (servers <> [])) (triggerAll mServerListChangeNotifications).

(** [~ServicebrokerClientBase()], after which the handle is gone. *)
Definition close_client (c : Z) : M unit :=
  modify (fun s => s <| sb_mClients ::= filter (fun x => x <> c) |>);;
  clear c;;
  modify (fun s => s <| sb_conns ::= delete c |>).

(** [ServicebrokerServer::removeClient(extendedID)]: dispose the slave connections
    with that id. *)
Definition removeClient (extId : Z) : M unit :=
  s ← getS;
  let same c := match sb_conns s !! c with
                | Some cn => cd_mExtendedID (cn_mData cn) =? extId
                | None => false
                end in
  let victims := filter (fun c => same c = true) (sb_mClients s) in
  modify (fun s => s <| sb_mClients ::= filter (fun c => same c = false) |>);;
  forM_ victims close_client.

(** [ServicebrokerServer::addClient]. *)
Definition addSlaveClient (c : Z) : M unit :=
  modify (fun s => s <| sb_mClients ::= cons c |>).

(** The extra handling of [MASTER_PING_ID] in [eval]. *)
Definition eval_ping_id (c : Z) (r : Request) : M unit :=
  match r with
  | RQ_MasterPingId _ =>
    cn ← get_conn c;
    let extId := cd_mExtendedID (cn_mData cn) in
    whenM (negb (extId =? 0)) (removeClient extId;; addSlaveClient c)
  | _ => skip
  end.

(** Result of [mSock.write_some] in [evaluateWriteResult]. *)
Inductive WriteResult := WR_complete | WR_partial | WR_would_block | WR_error.

Definition evaluateWriteResult (c : Z) (wr : WriteResult) : M unit :=
  match wr with
  | WR_complete => upd_conn c (fun cn => cn <| cn_mState := CS_READING_HEADER |>)
  | WR_partial | WR_would_block => upd_conn c (fun cn => cn <| cn_mState := CS_WRITING |>)
  | WR_error => close_client c
  end.

(** [ServicebrokerClientBase::eval]. *)
Definition eval_request (c : Z) (f : Frame) (wr : WriteResult) : M unit :=
  modify (fun s => s <| sb_msg :=
    new_MessageContext (fr_size f) (mkResponse 0 (sb_code FNDUnknownCommand) PL_none) |>);;
  found ← dispatch c f;
  eval_ping_id c (fr_request f);;
  s ← getS;
  if (found : bool) && bool_decide (responseState s = State_DEFERRED)
  then upd_conn c (fun cn => cn <| cn_mState := CS_DEFERRED |>)
  else emit (O_response c (mc_response (sb_msg s)));; evaluateWriteResult c wr.

(** A new client handle. *)
Definition new_client (nodeAddress localAddress : Z) : M unit :=
  s ← getS;
  modify (fun s => s <| sb_conns ::= <[sb_nextId s := new_Connection nodeAddress localAddress]> |>
                     <| sb_nextId ::= (fun i => i + 1) |>).

(** [handleCredentials]. *)
Definition handleCredentials (c pid uid : Z) (ok : bool) : M unit :=
  if ok then upd_conn c (fun cn => cn <| cn_mPid := pid |> <| cn_mUid := uid |>)
  else close_client c.

(** [handleWrite]: the rest of a response has been written. *)
Definition handleWrite (c : Z) (ok complete : bool) : M unit :=
  if ok then
    whenM complete (upd_conn c (fun cn => cn <| cn_mState := CS_READING_HEADER |>))
  else close_client c.

(** ** The worker thread *)

(** [MasterConnectorSocket::execute]: the job after [sendAndReceive] returned
    [status] and the master's code [ret], [arg] being the answered argument. *)
Definition execute (status ret : Z) (arg : JobArg) (j : Job) : Job :=
  let j := j <| job_status := status |> <| job_ret_val := ret |> <| job_arg := arg |> in
  if status =? 0 then
    if ret <? 0 then j <| job_ret_val := - ret |>
    else if ret =? sb_code FNDBadArgument then j <| job_status := EINVAL |> else j
  else j.

End dispatch.
