(* ===== verification/System.v ===== *)
(** The servicebroker as a transition system: the events its single thread handles
    (accepted connections, requests, written responses, hang-ups, expired
    timers, finished jobs, pulses), with the start-up of [src/servicebroker/Main.cpp].

    [run] is the reaction to one event; [enabled] says when the event can occur
    (a connection is not read while a response is deferred, the supervision timer of a TCP
    connection can expire in every state, a finished job answers the oldest job of the
    queue); [reachable] is the closure from a start state. *)

From S2P Require Import Prelude.
From S2P Require Import Layout.
From S2P Require Import Types.
From S2P Require Import ServerList.
From S2P Require Import ConfigFile.
From S2P Require Import ClientData.
From S2P Require Import JobQueue.
From S2P Require Import Environment.
From S2P Require Import PulseChannelManager.
From S2P Require Import NotificationPool.
From S2P Require Import MessageContext.
From S2P Require Import State.
From S2P Require Import Notifications.
From S2P Require Import Registration.
From S2P Require Import Notify.
From S2P Require Import Attach.
From S2P Require Import Jobs.
From S2P Require Import Dispatch.

Inductive Event :=
  | Ev_connect (nodeAddress localAddress : Z)
  | Ev_credentials (c pid uid : Z) (ok : bool)
  | Ev_request (c : Z) (f : Frame) (wr : WriteResult)
  | Ev_written (c : Z) (ok complete : bool)
  | Ev_hangup (c : Z)
  | Ev_timeout (c : Z)
  | Ev_job (status ret : Z) (arg : JobArg)
  | Ev_link (connected : bool)
  | Ev_pulse (code value : Z).

(** The option handling of [main] in a build without [USE_SERVER_CACHE]: what is
    left of [-C] and [-a]. *)
Definition main_useServerCache (useServerCache : bool) : bool := false.

Definition main_asyncMode (useServerCache asyncMode : bool) : bool :=
  if negb (main_useServerCache useServerCache) && asyncMode then false else asyncMode.

(** The state [main] starts the event loop in.  [id] is -1 without [-i]. *)
Definition start (slave : bool) (file : option bytes) (id : Z) (cacheOpt asyncOpt : bool)
    (sigAddr : Z * Z) : SB :=
  (sb_init slave file id (main_useServerCache cacheOpt) (main_asyncMode cacheOpt asyncOpt) new_SB)
    <| sb_mSigAddr := sigAddr |>.

Section system.
Context `{Env}.

(** The oldest job comes back from the worker thread. *)
Definition job_done (status ret : Z) (arg : JobArg) : M unit :=
  s ← getS;
  match sb_mQueue s with
  | [] => skip
  | j :: q =>
    modify (fun s => s <| sb_mQueue := q |>);;
    dispatch_pulse PULSE_JOB_EXECUTED 1 (Some (execute status ret arg j))
  end.

Definition run (ev : Event) : M unit :=
  match ev with
  | Ev_connect node local => new_client node local
  | Ev_credentials c pid uid ok => handleCredentials c pid uid ok
  | Ev_request c f wr => eval_request c f wr
  | Ev_written c ok complete => handleWrite c ok complete
  | Ev_hangup c | Ev_timeout c => close_client c
  | Ev_job status ret arg => job_done status ret arg
  | Ev_link b => modify (fun s => s <| sb_mAster ::= fmap (fun _ => b) |>)
  | Ev_pulse code value => dispatch_pulse code value None
  end.

Fixpoint run_all (evs : list Event) : M unit :=
  match evs with [] => skip | ev :: evs' => run ev;; run_all evs' end.

Definition conn_state (c : Z) (s : SB) : option ClientState := cn_mState <$> sb_conns s !! c.

Definition reading (c : Z) (s : SB) : Prop :=
  conn_state c s = Some CS_READING_HEADER \/ conn_state c s = Some CS_READING_BODY.

End system.

(** ** Well-formed input *)

Definition is_bytes (l : bytes) : Prop := Forall (fun b => 0 <= b < 256) l.

Definition wf_SFNDDescr (d : SFNDInterfaceDescription) : Prop := is_bytes (sd_name d).

(** Character arrays of a request hold bytes. *)
Definition wf_request (r : Request) : Prop :=
  match r with
  | RQ_Register a => wf_SFNDDescr (ra_ifDescription a)
  | RQ_RegisterEx _ items => forall k, wf_SFNDDescr (items k)
  | RQ_RegisterGroupID a => wf_SFNDDescr (rg_ifDescription a)
  | RQ_RegisterMasterEx _ items => forall k, wf_SFNDDescr (dx_ifDescription (items k))
  | _ => True
  end.

Definition enabled (ev : Event) (s : SB) : Prop :=
  match ev with
  | Ev_request c f _ => reading c s /\ wf_request (fr_request f)
  | Ev_credentials c _ _ _ => reading c s
  | Ev_written c _ _ => conn_state c s = Some CS_WRITING
  | Ev_hangup c => reading c s
  | Ev_timeout c => exists cn, sb_conns s !! c = Some cn /\ cn_mNodeAddress cn <> SB_LOCAL_NODE_ADDRESS
  | Ev_job _ _ arg => exists j q, sb_mQueue s = j :: q /\ arg_dcmd arg = arg_dcmd (job_arg j)
  | Ev_link _ => sb_mAster s <> None
  | Ev_pulse code _ => code <> PULSE_JOB_EXECUTED /\ sb_mAster s <> None
  | Ev_connect _ _ => True
  end.

(** The states a run from [s0] can reach when all its events satisfy [ok]. *)
Inductive reachable `{Env} (ok : Event -> Prop) (s0 : SB) : SB -> Prop :=
  | reach_start : reachable ok s0 s0
  | reach_step s ev :
      reachable ok s0 s -> ok ev -> enabled ev s -> reachable ok s0 (exec (run ev) s).

Definition any_event (ev : Event) : Prop := True.

(** ** A concrete environment

    Sockets always connect (descriptor = number of the call), nobody is in a group,
    a pattern is valid unless it starts with ['['] and matches itself only. *)
#[export] Instance simple_env : Env := {|
  env_open := fun tick => Some (Z.of_nat tick);
  env_connect := fun _ _ _ => io_ok;
  env_wait := fun _ _ => io_ok;
  env_getgrgid := fun _ => None;
  env_getpwnam := fun _ => None;
  env_regcomp := fun re => match re with 91 :: _ => 1 | _ => 0 end;
  env_regexec := fun re s => if bool_decide (re = Some s) then 0 else 1;
  env_implVersion := mkImplVersion 0 0 0;
  env_pulse := zero_pulse;
  env_after_name := 1;
  env_overlay_clientID := party_of_global 0;
|}.

(** ** Invariants of the transition system *)

Lemma reachable_inv `{Env} (ok : Event -> Prop) (I : SB -> Prop) s0 :
  I s0 -> (forall s ev, ok ev -> enabled ev s -> I s -> I (exec (run ev) s)) ->
  forall s, reachable ok s0 s -> I s.
Proof. intros H0 Hstep s Hr. induction Hr; [done | by apply Hstep]. Qed.

Fixpoint all_enabled `{Env} (evs : list Event) (s : SB) : Prop :=
  match evs with [] => True | ev :: evs' => enabled ev s /\ all_enabled evs' (exec (run ev) s) end.

Lemma reachable_run_all `{Env} ok evs s0 s :
  reachable ok s0 s -> Forall ok evs -> all_enabled evs s -> reachable ok s0 (exec (run_all evs) s).
Proof.
  revert s. induction evs as [|ev evs IH]; intros s Hr Hok Hen; [done|].
  apply Forall_cons in Hok as [Hev Hok]. destruct Hen as [He Hen]. cbn [run_all].
  rewrite exec_bind. apply IH; [by apply reach_step | done..].
Qed.

(** ** A concrete run

    A local server registers "Media", a client attaches to it, both on the master. *)

Definition demo_ifDescr : InterfaceDescription := mkIfDescr (bytes_of_string "Media") 1 0.

Definition demo_descr : SFNDInterfaceDescription := SFND_of_ifDescr demo_ifDescr.

Definition demo_register : Request :=
  RQ_Register (mkRegisterArg demo_descr (mkImplVersion 0 0 0) 7 100).

Definition demo_frame (r : Request) : Frame :=
  mkFrame (match request_dcmd r with Some c => sizeof (arg_union c) | None => 0 end) sb_version r.

Definition demo_start (slave : bool) : SB := start slave None (-1) false false (0, 0).

Definition demo_events : list Event :=
  [Ev_connect 0 0; Ev_credentials 1 100 0 true;
   Ev_request 1 (demo_frame demo_register) WR_complete;
   Ev_connect 0 0; Ev_credentials 2 200 0 true;
   Ev_request 2 (demo_frame (RQ_Attach demo_descr)) WR_complete].

Definition demo_state : SB := exec (run_all demo_events) (demo_start false).

Lemma wf_demo_descr : wf_SFNDDescr demo_descr.
Proof. apply (bool_decide_unpack _). by vm_compute. Qed.

Lemma demo_enabled : all_enabled demo_events (demo_start false).
Proof.
  cbn [all_enabled demo_events]. split_and!; try done; try (left; by vm_compute).
  - split; [left; by vm_compute | apply wf_demo_descr].
  - split; [left; by vm_compute | done].
Qed.

(** A slave with a connected master; its client's extended attach is forwarded. *)
Definition demo_slave_events : list Event :=
  [Ev_link true; Ev_connect 0 0; Ev_credentials 1 100 0 true;
   Ev_request 1 (demo_frame (RQ_AttachExtended (mkPulse 1 2 3 4) demo_descr)) WR_complete].

Definition zero_connInfo : SConnectionInfo :=
  mkConnInfo (mkVersion 0 0) (mkChannel 0 0 0) (party_of_global 0) (party_of_global 0).

Lemma demo_slave_enabled : all_enabled demo_slave_events (demo_start true).
Proof.
  cbn [all_enabled demo_slave_events]. split_and!; try done; try (left; by vm_compute).
  split; [left; by vm_compute | done].
Qed.
