(* ===== verification/Frames.v ===== *)
(** What the notification layer leaves alone.

    [base s] is the state with everything reset that sending, triggering, adding,
    removing and forwarding notifications may change; [keeps base m] therefore says
    that [m] changes nothing else.  In particular the server table, the clients,
    the message being answered, the configuration and the set of connections
    survive every notification operation.  No notification operation misuses the
    message context or answers a request either: the [F_message] faults and the
    responses among the outputs are kept. *)

From S2P Require Import Prelude.
From S2P Require Import Layout.
From S2P Require Import Types.
From S2P Require Import ServerList.
From S2P Require Import ConfigFile.
From S2P Require Import ClientData.
From S2P Require Import JobQueue.
From S2P Require Import Environment.
From S2P Require Import PulseChannelManager.
From S2P Require Import NotificationPool.
From S2P Require Import MessageContext.
From S2P Require Import State.
From S2P Require Import Notifications.
From S2P Require Import Registration.
From S2P Require Import Notify.

Definition cn_base (cn : Connection) : Connection :=
  cn <| cn_mData ::= (fun d => d <| cd_mNotificationList := [] |>) |>.

(** Responses, immediate or deferred, as opposed to pulses and closed descriptors. *)
Definition is_answer (o : Output) : bool :=
  match o with O_response _ _ | O_deferred _ _ => true | O_pulse _ _ _ | O_close _ => false end.

Definition base (s : SB) : SB :=
  s <| sb_lists := fun _ => mkNotificationList [] 0 |>
    <| sb_mMasterNotificationPool := empty_NotificationPool |>
    <| sb_mQueue := [] |> <| sb_sNextNotificationID := 0 |> <| sb_NextPoolID := 0 |>
    <| sb_totalCounter := 0 |> <| sb_currentCounter := 0 |> <| sb_mSockets := [] |>
    <| sb_tick := 0%nat |> <| sb_conns ::= fmap cn_base |>
    <| sb_out ::= filter (fun o => is_answer o = true) |>
    <| sb_faults ::= filter (fun k => k = F_message) |> <| sb_exhausted := false |>.

(** The message being answered, with the faults of its use. *)
Definition msg_part (s : SB) : MessageContext * list Fault := (sb_msg s, sb_faults (base s)).

(** ** Generic lemmas *)

Lemma fmap_cn_base_insert (m : gmap Z Connection) c cn cn' :
  m !! c = Some cn -> cn_base cn' = cn_base cn -> cn_base <$> <[c := cn']> m = cn_base <$> m.
Proof.
  intros Hc Heq. rewrite fmap_insert, Heq. apply insert_id. by rewrite lookup_fmap, Hc.
Qed.

Section base.
Context `{Env}.

Lemma keeps_fault k : k <> F_message -> keeps base (fault k).
Proof.
  intros Hk. apply keeps_modify. intros s. unfold base. cbn. f_equal.
  by rewrite decide_False.
Qed.

Lemma keeps_assertM k b : k <> F_message -> keeps base (assertM k b).
Proof. intros Hk. destruct b; [apply keeps_skip | by apply keeps_fault]. Qed.

Lemma keeps_emit o : is_answer o = false -> keeps base (emit o).
Proof.
  intros Ho. apply keeps_modify. intros s. unfold base. cbn. f_equal.
  rewrite filter_app, filter_cons_False by (by rewrite Ho). by rewrite filter_nil, app_nil_r.
Qed.

Lemma keeps_nl_set k l : keeps base (modify (nl_set k l)).
Proof. by apply keeps_modify. Qed.

#[local] Hint Extern 2 (keeps base (fault _)) => (apply keeps_fault; discriminate) : preserve.
#[local] Hint Extern 2 (keeps base (assertM _ _)) => (apply keeps_assertM; discriminate) : preserve.
#[local] Hint Extern 2 (keeps base (emit _)) => (apply keeps_emit; reflexivity) : preserve.
#[local] Hint Resolve keeps_nl_set : preserve.

Ltac base_modify := apply keeps_modify; intros ?; reflexivity.

Lemma keeps_get_conn c : keeps base (get_conn c).
Proof. unfold get_conn. preserve. Qed.

Lemma keeps_upd_notifications c f :
  (forall d, cd_mServerList (f d) = cd_mServerList d) ->
  (forall d, cd_mClientList (f d) = cd_mClientList d) ->
  (forall d, cd_mExtendedID (f d) = cd_mExtendedID d) ->
  keeps base (upd_data c f).
Proof.
  intros H1 H2 H3. split. intros s. unfold upd_data. rewrite exec_bind. cbn.
  destruct (sb_conns s !! c) as [cn|] eqn:Hc; [|by apply keeps_fault].
  rewrite exec_modify. unfold base. cbn. f_equal.
  apply (fmap_cn_base_insert _ _ _ _ Hc). unfold cn_base. cbn. f_equal.
  by rewrite H1, H2, H3.
Qed.

Lemma keeps_master_eval j : keeps base (master_eval j).
Proof. unfold master_eval. preserve. base_modify. Qed.

Lemma keeps_attach_channel a b c : keeps base (attach_channel a b c).
Proof. unfold attach_channel. preserve. base_modify. Qed.

Lemma keeps_detach_channel fd : keeps base (detach_channel fd).
Proof. unfold detach_channel. preserve. base_modify. Qed.

Lemma keeps_sendPulse a b c : keeps base (sendPulse a b c).
Proof. by apply keeps_emit. Qed.

#[local] Hint Resolve keeps_get_conn keeps_master_eval keeps_attach_channel keeps_detach_channel
  keeps_sendPulse : preserve.

Lemma keeps_createClearNotificationJob id : keeps base (createClearNotificationJob id).
Proof. unfold createClearNotificationJob. preserve. Qed.

#[local] Hint Resolve keeps_createClearNotificationJob : preserve.

Lemma keeps_pool_detach pos : keeps base (pool_detach pos).
Proof. unfold pool_detach. preserve; base_modify. Qed.

#[local] Hint Resolve keeps_pool_detach : preserve.

Lemma keeps_construct : keeps base construct.
Proof. unfold construct. preserve. base_modify. Qed.

Lemma keeps_destroy n : keeps base (destroy n).
Proof.
  unfold destroy. preserve; try base_modify.
  by apply keeps_upd_notifications.
Qed.

Lemma keeps_copy_Notification n : keeps base (copy_Notification n).
Proof. unfold copy_Notification. preserve. base_modify. Qed.

Lemma keeps_doConnect n : keeps base (doConnect n).
Proof. unfold doConnect. preserve. Qed.

#[local] Hint Resolve keeps_construct keeps_destroy keeps_copy_Notification keeps_doConnect
  : preserve.

Lemma keeps_connect cn p n : keeps base (connect cn p n).
Proof. unfold connect. preserve. Qed.

Lemma keeps_send n : keeps base (send n).
Proof. unfold send. preserve. Qed.

#[local] Hint Resolve keeps_connect keeps_send : preserve.

Lemma keeps_send_erase n : keeps base (send_erase n).
Proof. unfold send_erase. preserve. Qed.

Lemma keeps_send_keep n : keeps base (send_keep n).
Proof. unfold send_keep. preserve. Qed.

Lemma keeps_erase n : keeps base (erase n).
Proof. unfold erase. preserve. Qed.

Lemma keeps_keep n : keeps base (keep n).
Proof. unfold keep. preserve. Qed.

Lemma keeps_walk body l : (forall n, keeps base (body n)) -> keeps base (walk body l).
Proof. intros Hb. induction l; cbn [walk walk_first]; preserve; auto. Qed.

Lemma keeps_walk_first p body l :
  (forall n, keeps base (body n)) -> keeps base (walk_first p body l).
Proof. intros Hb. induction l; cbn [walk walk_first]; preserve; auto. Qed.

Lemma keeps_on_list k body : (forall n, keeps base (body n)) -> keeps base (on_list k body).
Proof. intros Hb. unfold on_list. preserve. by apply keeps_walk. Qed.

Lemma keeps_on_first k p body :
  (forall n, keeps base (body n)) -> keeps base (on_first k p body).
Proof. intros Hb. unfold on_first. preserve. by apply keeps_walk_first. Qed.

End base.

(** The operations of Notifications.v and the forwarding loop, by walking their
    definitions. *)
#[export] Hint Extern 2 (keeps base (fault _)) => (apply keeps_fault; discriminate) : preserve.
#[export] Hint Extern 2 (keeps base (assertM _ _)) => (apply keeps_assertM; discriminate) : preserve.
#[export] Hint Extern 2 (keeps base (emit _)) => (apply keeps_emit; reflexivity) : preserve.
#[export] Hint Resolve keeps_nl_set keeps_get_conn
  keeps_master_eval keeps_attach_channel keeps_detach_channel keeps_sendPulse
  keeps_createClearNotificationJob keeps_pool_detach keeps_construct keeps_destroy
  keeps_copy_Notification keeps_doConnect keeps_connect keeps_send keeps_send_erase
  keeps_send_keep keeps_erase keeps_keep : preserve.

Ltac base_list :=
  first [apply keeps_on_list | apply keeps_on_first]; intros ?; preserve.

Section base_lists.
Context `{Env}.

Lemma keeps_trigger_party k id : keeps base (trigger_party k id).
Proof. base_list. Qed.

Lemma keeps_trigger_ifDescr k d g : keeps base (trigger_ifDescr k d g).
Proof. base_list. Qed.

Lemma keeps_trigger_id k id b : keeps base (trigger_id k id b).
Proof. base_list. Qed.

Lemma keeps_triggerPool k id : keeps base (triggerPool k id).
Proof. base_list. Qed.

Lemma keeps_trigger_ids k l : keeps base (trigger_ids k l).
Proof. base_list. Qed.

Lemma keeps_triggerAll k : keeps base (triggerAll k).
Proof. base_list. Qed.

Lemma keeps_triggerAll_ifDescr k d : keeps base (triggerAll_ifDescr k d).
Proof. base_list. Qed.

Lemma keeps_triggerNotLocal k x : keeps base (triggerNotLocal k x).
Proof. base_list. Qed.

Lemma keeps_nl_remove k id : keeps base (nl_remove k id).
Proof. base_list. Qed.

Lemma keeps_nl_remove_ids k c : keeps base (nl_remove_ids k c).
Proof. base_list. Qed.

Lemma keeps_clearMasterNotification k : keeps base (clearMasterNotification k).
Proof. base_list. Qed.

Lemma keeps_push_front k n : keeps base (push_front k n).
Proof. unfold push_front. preserve. by apply keeps_modify. Qed.

#[local] Hint Resolve keeps_push_front : preserve.

Lemma keeps_nl_add k c p f : keeps base (nl_add k c p f).
Proof. unfold nl_add. preserve. Qed.

Lemma keeps_add_regExpr k re c p : keeps base (add_regExpr k re c p).
Proof. unfold add_regExpr. preserve. Qed.

Lemma keeps_nl_update k id f : keeps base (nl_update k id f).
Proof. by apply keeps_modify. Qed.

Lemma keeps_add_moved k n : keeps base (add_moved k n).
Proof. unfold add_moved. preserve. by apply keeps_modify. Qed.

#[local] Hint Resolve keeps_add_moved : preserve.

Lemma keeps_nl_move k src p : keeps base (nl_move k src p).
Proof. base_list. by apply keeps_modify. Qed.

Lemma keeps_setMasterNotificationID k a b : keeps base (setMasterNotificationID k a b).
Proof. unfold setMasterNotificationID. preserve. base_list. Qed.

Lemma keeps_nl_setType k a p : keeps base (nl_setType k a p).
Proof. base_list. Qed.

Lemma keeps_addNotification c id : keeps base (upd_data c (cd_addNotification id)).
Proof. by apply keeps_upd_notifications. Qed.

Lemma keeps_removeNotification c id : keeps base (upd_data c (cd_removeNotification id)).
Proof. by apply keeps_upd_notifications. Qed.

Lemma keeps_pool_find_ifDescr d b : keeps base (pool_find_ifDescr d b).
Proof. unfold pool_find_ifDescr. preserve. Qed.

Lemma keeps_pool_find_party p : keeps base (pool_find_party p).
Proof. unfold pool_find_party. preserve. Qed.

Lemma keeps_pool_add mk : keeps base (pool_add mk).
Proof. unfold pool_add. preserve. by apply keeps_modify. Qed.

Lemma keeps_pool_get pos : keeps base (pool_get pos).
Proof. unfold pool_get. preserve. Qed.

Lemma keeps_pool_update pos f : keeps base (pool_update pos f).
Proof. by apply keeps_modify. Qed.

#[local] Hint Resolve keeps_nl_update keeps_pool_find_ifDescr keeps_pool_find_party keeps_pool_add
  keeps_pool_get keeps_pool_update : preserve.

Lemma keeps_pool_attach pos k id : keeps base (pool_attach pos k id).
Proof. unfold pool_attach. preserve. Qed.

Lemma keeps_send_notifications l : keeps base (send_notifications l).
Proof. unfold send_notifications. preserve. Qed.

#[local] Hint Resolve keeps_send_notifications : preserve.

Lemma keeps_forward_new_pool d b : keeps base (forward_new_pool d b).
Proof. unfold forward_new_pool. preserve. Qed.

#[local] Hint Resolve keeps_forward_new_pool : preserve.

Lemma keeps_forward_loop cfg l b : keeps base (forward_loop cfg l b).
Proof. revert b. induction l; intros b; cbn [forward_loop]; preserve; auto. Qed.

#[local] Hint Resolve keeps_forward_loop : preserve.

Lemma keeps_forwardServerAvailableNotifications : keeps base forwardServerAvailableNotifications.
Proof. unfold forwardServerAvailableNotifications. preserve. Qed.

End base_lists.

#[export] Hint Resolve keeps_trigger_party keeps_trigger_ifDescr keeps_trigger_id keeps_triggerPool
  keeps_trigger_ids keeps_triggerAll keeps_triggerAll_ifDescr keeps_triggerNotLocal keeps_nl_remove
  keeps_nl_remove_ids keeps_clearMasterNotification keeps_push_front keeps_nl_add
  keeps_add_regExpr keeps_nl_update keeps_nl_move keeps_setMasterNotificationID keeps_nl_setType
  keeps_addNotification keeps_removeNotification keeps_pool_find_ifDescr keeps_pool_find_party
  keeps_pool_add keeps_pool_get keeps_pool_update keeps_pool_attach
  keeps_forwardServerAvailableNotifications : preserve.

(** ** Single components

    The remaining elementary operations touch the connections, the message or the
    list of jobs only.  For a projection [f] of the state, [keeps f m] is solved by
    reflexivity on each modification, or through [base]. *)

Section components.
Context {F : Type} (f : SB -> F).

Lemma keeps_upd_data c g :
  (forall s x, f (s <| sb_conns ::= x |>) = f s) -> (forall s, f (s <| sb_faults ::= cons F_connection |>) = f s) ->
  keeps f (upd_data c g).
Proof.
  intros H1 H2. split. intros s. unfold upd_data. rewrite exec_bind. cbn.
  destruct (sb_conns s !! c); [apply H1 | apply H2].
Qed.

Lemma keeps_upd_conn c g :
  (forall s x, f (s <| sb_conns ::= x |>) = f s) -> (forall s, f (s <| sb_faults ::= cons F_connection |>) = f s) ->
  keeps f (upd_conn c g).
Proof.
  intros H1 H2. split. intros s. unfold upd_conn. rewrite exec_bind. cbn.
  destruct (sb_conns s !! c); [apply H1 | apply H2].
Qed.

Lemma keeps_with_msg {A} (g : MessageContext -> bool * A * MessageContext) :
  (forall s x, f (s <| sb_msg := x |>) = f s) -> (forall s, f (s <| sb_faults ::= cons F_message |>) = f s) ->
  keeps f (with_msg g).
Proof.
  intros H1 H2. split. intros s. unfold with_msg. rewrite exec_bind. cbn.
  destruct (g (sb_msg s)) as [[ok a] m]. rewrite !exec_bind, exec_modify, exec_ret.
  unfold assertM, fault. destruct ok; [apply H1 | exact (eq_trans (H2 _) (H1 _ _))].
Qed.

End components.

Ltac keeps_leaf :=
  lazymatch goal with
  | |- keeps base _ => fail
  | |- keeps _ (modify _) => apply keeps_modify; intros; reflexivity
  | |- keeps _ (emit _) => apply keeps_modify; intros; reflexivity
  | |- keeps _ (upd_data _ _) => apply keeps_upd_data; intros; reflexivity
  | |- keeps _ (upd_conn _ _) => apply keeps_upd_conn; intros; reflexivity
  | |- keeps _ (with_msg _) => apply keeps_with_msg; intros; reflexivity
  | |- keeps _ (readData _) => apply keeps_with_msg; intros; reflexivity
  | |- keeps _ (readAncillaryData _) => apply keeps_with_msg; intros; reflexivity
  | |- keeps _ (writeAncillaryData _) => apply keeps_with_msg; intros; reflexivity
  | |- keeps _ (prepareResponse _) => apply keeps_with_msg; intros; reflexivity
  | |- keeps _ (prepareResponse_force _) => apply keeps_with_msg; intros; reflexivity
  | |- keeps _ (prepareResponse_data _ _ _) => apply keeps_with_msg; intros; reflexivity
  | |- keeps _ deferResponse => apply keeps_modify; intros; reflexivity
  | |- keeps _ (setGetOffset _) => apply keeps_modify; intros; reflexivity
  | |- keeps ?f ?m =>
    apply (keeps_via base f f m); [intros; reflexivity | solve [eauto with preserve nocore]]
  end.

#[export] Hint Extern 5 (keeps _ _) => keeps_leaf : preserve.

(** ** Live connections *)

Lemma run_get_conn c s cn : sb_conns s !! c = Some cn -> get_conn c s = (cn, s).
Proof. intros Hc. unfold get_conn. rewrite run_getS. by rewrite Hc. Qed.

Lemma run_upd_data c f s cn :
  sb_conns s !! c = Some cn ->
  upd_data c f s = (tt, s <| sb_conns ::= <[c := cn <| cn_mData ::= f |>]> |>).
Proof. intros Hc. unfold upd_data. rewrite run_getS. by rewrite Hc. Qed.

Lemma run_upd_conn c f s cn :
  sb_conns s !! c = Some cn -> upd_conn c f s = (tt, s <| sb_conns ::= <[c := f cn]> |>).
Proof. intros Hc. unfold upd_conn. rewrite run_getS. by rewrite Hc. Qed.

Lemma exec_getS {A} (k : SB -> M A) s : exec (getS ≫= k) s = exec (k s) s.
Proof. done. Qed.

Lemma exec_get_conn {A} c cn (k : Connection -> M A) s :
  sb_conns s !! c = Some cn -> exec (get_conn c ≫= k) s = exec (k cn) s.
Proof. intros Hc. unfold exec. erewrite run_bind; [done|]. by apply run_get_conn. Qed.
