(* ===== verification/ServerInv.v ===== *)
(** The server table of the running servicebroker.

    [servers_wf], names sorted and pairwise distinct, is preserved by every event
    ([servers_wf_run]); [addInterface] inserts into the abstract table exactly when
    the name is free ([addInterface_new], [addInterface_taken]). *)

From S2P Require Import Prelude.
From S2P Require Import Layout.
From S2P Require Import Types.
From S2P Require Import ServerList.
From S2P Require Import ConfigFile.
From S2P Require Import ClientData.
From S2P Require Import JobQueue.
From S2P Require Import Environment.
From S2P Require Import PulseChannelManager.
From S2P Require Import NotificationPool.
From S2P Require Import MessageContext.
From S2P Require Import State.
From S2P Require Import Notifications.
From S2P Require Import Registration.
From S2P Require Import Notify.
From S2P Require Import Attach.
From S2P Require Import Jobs.
From S2P Require Import Dispatch.
From S2P Require Import System.
From S2P Require Import Frames.

Definition servers_wf (s : SB) : Prop := sl_wf (sb_mConnectedServers s).

(** Leaves of a [preserve] proof about the server table. *)
Ltac servers_leaf :=
  lazymatch goal with
  | |- preserves servers_wf ?m =>
    apply (preserves_on sb_mConnectedServers sl_wf m); solve [eauto with preserve nocore]
  end.

#[export] Hint Extern 4 (preserves servers_wf _) => servers_leaf : preserve.

Section servers.
Context `{Env}.

Lemma keeps_servers_nextRequestID : keeps sb_mConnectedServers nextRequestID.
Proof. unfold nextRequestID. preserve. Qed.

Lemma keeps_servers_addClient old c id : keeps sb_mConnectedServers (addClient old c id).
Proof. unfold addClient. preserve. Qed.

Lemma keeps_servers_construct : keeps sb_mConnectedServers construct_ServerListEntry.
Proof. unfold construct_ServerListEntry. preserve. Qed.

Lemma keeps_servers_unregister id : keeps sb_mConnectedServers (unregisterInterfaceMaster id).
Proof. unfold unregisterInterfaceMaster. preserve. Qed.

Lemma keeps_servers_send_registrations l : keeps sb_mConnectedServers (send_registrations l).
Proof. unfold send_registrations. preserve. Qed.

End servers.

#[export] Hint Resolve keeps_servers_nextRequestID keeps_servers_addClient keeps_servers_construct
  keeps_servers_unregister keeps_servers_send_registrations : preserve.

(** ** Registration *)

Section registration.
Context `{Env}.

Lemma register_loop_names cfg l d s :
  sv_name <$> (eval (register_loop cfg l d) s).1 = sv_name <$> l.
Proof.
  revert d s. induction l as [|e l IH]; intros d s; cbn [register_loop]; [done|].
  destruct (to_forward cfg e).
  - rewrite !eval_bind, eval_ret. cbn [fst fmap list_fmap]. f_equal. apply IH.
  - rewrite !eval_bind, eval_ret. cbn [fst fmap list_fmap]. f_equal. apply IH.
Qed.

Lemma keeps_servers_register_loop cfg l d : keeps sb_mConnectedServers (register_loop cfg l d).
Proof. revert d. induction l; intros d; cbn [register_loop]; preserve; auto. Qed.

#[local] Hint Resolve keeps_servers_register_loop : preserve.

Lemma servers_wf_registerInterfacesMaster : preserves servers_wf registerInterfacesMaster.
Proof.
  unfold registerInterfacesMaster. apply preserves_read. intros s Hs.
  destruct (isMasterConnected s); [|done].
  rewrite !exec_bind. apply (run_preserves servers_wf); [preserve|].
  rewrite exec_modify. unfold servers_wf. cbn.
  rewrite (run_keeps _ _ (keeps_servers_register_loop _ _ _)).
  eapply entries_wf_map; [apply register_loop_names | exact Hs].
Qed.

(** The entry [addInterface] builds. *)
Definition new_entry (s : SB) (cn : Connection) (d : InterfaceDescription) (pid chid : Z)
    (isLocal : bool) (grpid : Z) : ServerListEntry :=
  mkServer (i32 (u32 (sb_sNextID s + 1))) (mkParty (sb_mNextServerID s) (sb_mExtendedID s))
    (party_of_global 0) (i32 (cn_mNodeAddress cn)) pid chid d env_implVersion grpid isLocal.

(** [addInterface] up to the notifications, in one equation. *)
Definition added (s : SB) (c : Z) (cn : Connection) (e : ServerListEntry) : SB :=
  s <| sb_sNextID := u32 (sb_sNextID s + 1) |>
    <| sb_mNextServerID := u32 (sb_mNextServerID s + 1) |>
    <| sb_mConnectedServers := sl_add e (sb_mConnectedServers s) |>
    <| sb_conns := <[c := cn <| cn_mData ::= cd_addServer (sv_partyID e) |>]> (sb_conns s) |>.

Lemma addInterface_run c d pid chid isLocal grpid s cn :
  sb_conns s !! c = Some cn -> sl_find_name (id_name d) (sb_mConnectedServers s) = None ->
  let e := new_entry s cn d pid chid isLocal grpid in
  addInterface c d pid chid isLocal grpid s =
  (trigger_ifDescr mServerConnectNotifications d (u32 grpid);;
   triggerAll_ifDescr mServerListChangeNotifications d;; mret (Some (sv_partyID e)))
    (added s c cn e).
Proof.
  intros Hc Hf. unfold addInterface. rewrite run_getS, Hf.
  unfold construct_ServerListEntry. rewrite run_assoc, run_modify, run_assoc, run_getS, run_ret.
  erewrite run_bind; [|by apply run_get_conn]. rewrite run_getS, run_modify.
  erewrite run_bind; [|by apply run_upd_data]. reflexivity.
Qed.

Lemma addInterface_taken c d pid chid isLocal grpid s e :
  sl_find_name (id_name d) (sb_mConnectedServers s) = Some e ->
  addInterface c d pid chid isLocal grpid s = (None, s).
Proof. intros Hf. unfold addInterface. by rewrite run_getS, Hf. Qed.

Lemma servers_wf_addInterface c d pid chid isLocal grpid :
  is_cstring (id_name d) -> preserves servers_wf (addInterface c d pid chid isLocal grpid).
Proof.
  intros Hd. unfold addInterface. apply preserves_read. intros s Hs.
  destruct (sl_find_name (id_name d) (sb_mConnectedServers s)) eqn:Hf; [done|].
  apply (triple_exec (fun s' => sb_mConnectedServers s' = sb_mConnectedServers s)); [done|].
  eapply triple_bind; [apply (triple_keeps sb_mConnectedServers _ (fun x => x = _)); preserve|].
  intros e. cbv beta.
  eapply triple_bind; [apply (triple_keeps sb_mConnectedServers _ (fun x => x = _)); preserve|].
  intros cn. cbv beta. eapply triple_bind; [apply triple_getS|]. intros s'. cbv beta zeta.
  eapply (triple_bind _ _ _ (fun _ => servers_wf)).
  - intros s2 [-> Heq]. rewrite exec_modify. unfold servers_wf. cbn. rewrite Heq.
    by apply sl_add_wf.
  - intros _. apply (triple_preserves servers_wf). preserve.
Qed.

End registration.

#[export] Hint Resolve servers_wf_registerInterfacesMaster servers_wf_addInterface : preserve.

(** ** The handlers and events *)

Lemma wf_descr_name d : wf_SFNDDescr d -> is_cstring (id_name (ifDescr_of_SFND d)).
Proof. apply cstr_cstring. Qed.

#[export] Hint Resolve wf_descr_name : preserve.

Section handlers.
Context `{Env}.

Lemma servers_wf_handleRegisterInterface c a :
  wf_SFNDDescr (ra_ifDescription a) -> preserves servers_wf (handleRegisterInterface c a).
Proof. intros Hd. unfold handleRegisterInterface. preserve. Qed.

Lemma servers_wf_registerEx_loop fuel k c a items :
  (forall k, wf_SFNDDescr (items k)) -> preserves servers_wf (registerEx_loop fuel k c a items).
Proof.
  intros Hd. revert k. induction fuel; intros k; cbn [registerEx_loop]; preserve; auto.
Qed.

Lemma servers_wf_handleRegisterInterfaceEx c a items :
  (forall k, wf_SFNDDescr (items k)) -> preserves servers_wf (handleRegisterInterfaceEx c a items).
Proof.
  intros Hd. unfold handleRegisterInterfaceEx. preserve. by apply servers_wf_registerEx_loop.
Qed.

Lemma servers_wf_handleRegisterInterfaceGroupID c a :
  wf_SFNDDescr (rg_ifDescription a) -> preserves servers_wf (handleRegisterInterfaceGroupID c a).
Proof. intros Hd. unfold handleRegisterInterfaceGroupID. preserve. Qed.

Lemma servers_wf_remove id : preserves servers_wf
  (modify (fun s => s <| sb_mConnectedServers ::= sl_remove id |>)).
Proof. apply preserves_modify. intros s Hs. by apply sl_remove_wf. Qed.

Lemma servers_wf_update id m : preserves servers_wf
  (modify (fun s => s <| sb_mConnectedServers ::=
     sl_update_party id (fun e => e <| sv_masterID := m |>) |>)).
Proof. apply preserves_modify. intros s Hs. by apply sl_update_party_wf. Qed.

#[local] Hint Resolve servers_wf_remove servers_wf_update : preserve.

Lemma servers_wf_handleUnregisterInterface c id :
  preserves servers_wf (handleUnregisterInterface c id).
Proof. unfold handleUnregisterInterface. preserve. Qed.

Lemma servers_wf_clear_server id : preserves servers_wf (clear_server id).
Proof. unfold clear_server. preserve. Qed.

Lemma servers_wf_registerMaster_one c d :
  wf_SFNDDescr (dx_ifDescription d) -> preserves servers_wf (registerMaster_one c d).
Proof.
  intros Hd. unfold registerMaster_one. apply preserves_read. intros s Hs.
  destruct (extendedID _ =? _); [by apply (run_preserves servers_wf); preserve|].
  destruct (_ || _); [by apply (run_preserves servers_wf); preserve|].
  case_bool_decide as Hf; [by apply (run_preserves servers_wf); preserve|].
  destruct (_ && _); [by apply (run_preserves servers_wf); preserve|].
  apply (triple_exec (fun s' => sb_mConnectedServers s' = sb_mConnectedServers s)); [done|].
  eapply triple_bind; [apply (triple_keeps sb_mConnectedServers _ (fun x => x = _)); preserve|].
  intros cn. cbv beta.
  eapply triple_bind; [apply (triple_keeps sb_mConnectedServers _ (fun x => x = _)); preserve|].
  intros e. cbv beta zeta. eapply (triple_bind _ _ _ (fun _ => servers_wf)).
  - intros s2 Heq. rewrite exec_modify. unfold servers_wf. cbn. rewrite Heq.
    apply sl_add_wf; [done | by apply wf_descr_name |].
    destruct (sl_find_name _ _) eqn:E in Hf; [by destruct Hf|]. apply E.
  - intros _. apply (triple_preserves servers_wf). preserve.
Qed.

Lemma servers_wf_handleRegisterMasterInterface c n items :
  (forall k, wf_SFNDDescr (dx_ifDescription (items k))) ->
  preserves servers_wf (handleRegisterMasterInterface c n items).
Proof.
  intros Hd. unfold handleRegisterMasterInterface. preserve.
  generalize 0%nat. induction (Z.to_nat n) as [|fuel IH]; intros k; cbn [registerMaster_loop];
    preserve; auto. by apply servers_wf_registerMaster_one.
Qed.

Lemma keeps_servers_handleNotifyServerDisconnectNoResponse c id p :
  keeps sb_mConnectedServers (handleNotifyServerDisconnectNoResponse c id p).
Proof. unfold handleNotifyServerDisconnectNoResponse, bind_disconnect_pool, add_party. preserve. Qed.

Lemma keeps_servers_notify_available c p d b e :
  keeps sb_mConnectedServers (notify_available c p d b e).
Proof. unfold notify_available, add_ifDescr. preserve. Qed.

#[local] Hint Resolve keeps_servers_handleNotifyServerDisconnectNoResponse
  keeps_servers_notify_available : preserve.

Lemma keeps_servers_handleNotifyServerAvailableNoResponse c p d :
  keeps sb_mConnectedServers (handleNotifyServerAvailableNoResponse c p d).
Proof. unfold handleNotifyServerAvailableNoResponse. preserve. Qed.

Lemma keeps_servers_handleAttachLocalInterface c e :
  keeps sb_mConnectedServers (handleAttachLocalInterface c e).
Proof. unfold handleAttachLocalInterface. preserve. Qed.

Lemma keeps_servers_forwardAttachExtended_job c p d b pos id :
  keeps sb_mConnectedServers (forwardAttachExtended_job c p d b pos id).
Proof. unfold forwardAttachExtended_job. preserve. Qed.

#[local] Hint Resolve keeps_servers_handleNotifyServerAvailableNoResponse
  keeps_servers_handleAttachLocalInterface keeps_servers_forwardAttachExtended_job : preserve.

Lemma keeps_servers_forwardAttachExtendedToMaster c p d :
  keeps sb_mConnectedServers (forwardAttachExtendedToMaster c p d).
Proof. unfold forwardAttachExtendedToMaster, add_ifDescr. preserve. Qed.

#[local] Hint Resolve keeps_servers_forwardAttachExtendedToMaster : preserve.

Lemma keeps_servers_notifyAvailableEx_loop fuel k c items :
  keeps sb_mConnectedServers (notifyAvailableEx_loop fuel k c items).
Proof.
  revert k. induction fuel; intros k; cbn [notifyAvailableEx_loop]; preserve; auto.
  unfold notifyAvailableEx_one. preserve.
Qed.

Lemma keeps_servers_match_loop cn re n l r : keeps sb_mConnectedServers (match_loop cn re n l r).
Proof. revert r. induction l; intros r; cbn [match_loop]; preserve; auto. Qed.

Lemma keeps_servers_notify_first_match c id : keeps sb_mConnectedServers (notify_first_match c id).
Proof. unfold notify_first_match. preserve. Qed.

#[local] Hint Resolve keeps_servers_notifyAvailableEx_loop keeps_servers_match_loop
  keeps_servers_notify_first_match : preserve.

Lemma servers_wf_run_handler c r : wf_request r -> preserves servers_wf (run_handler c r).
Proof.
  intros Hr. destruct r; cbn [run_handler wf_request] in *; preserve;
    auto using servers_wf_handleRegisterInterface, servers_wf_handleRegisterInterfaceEx,
      servers_wf_handleRegisterInterfaceGroupID, servers_wf_handleUnregisterInterface,
      servers_wf_handleRegisterMasterInterface.
  - unfold handleAttachInterface. preserve.
  - unfold handleAttachInterfaceExtended. preserve.
  - unfold handleGetServerInformation. preserve.
  - unfold handleDetachInterface. preserve.
  - unfold handleNotifyServerDisconnect. preserve.
  - unfold handleNotifyServerAvailable. preserve.
  - unfold handleNotifyServerAvailableEx. preserve.
  - unfold handleNotifyClientDetach, add_party. preserve.
  - unfold handleClearNofification. preserve.
  - unfold handleGetInterfaceList. preserve.
  - unfold handleNotifyInterfaceListChange, add_plain. preserve.
  - unfold handleMatchInterfaceList. preserve.
  - unfold handleNotifyInterfaceListMatch. preserve.
  - unfold handleMasterPingId. preserve.
Qed.

End handlers.

#[export] Hint Resolve servers_wf_run_handler servers_wf_clear_server : preserve.

Section events.
Context `{Env}.

Lemma servers_wf_finished_RegisterMasterEx j o :
  preserves servers_wf (finished_RegisterMasterEx j o).
Proof.
  unfold finished_RegisterMasterEx. preserve. apply preserves_modify. intros s' Hs'.
  unfold servers_wf, sl_wf. cbn. eapply entries_wf_map; [|exact Hs'].
  by apply update_first_map.
Qed.

Lemma keeps_servers_createClear j o :
  keeps sb_mConnectedServers (finished_NotifyServerAvailableEx j o).
Proof. unfold finished_NotifyServerAvailableEx. preserve. Qed.

Lemma keeps_servers_finished_NotifyServerDisconnect j id :
  keeps sb_mConnectedServers (finished_NotifyServerDisconnect j id).
Proof. unfold finished_NotifyServerDisconnect. preserve. Qed.

Lemma keeps_servers_finished_Notify k j id : keeps sb_mConnectedServers (finished_Notify k j id).
Proof. unfold finished_Notify. preserve. Qed.

Lemma keeps_servers_job_conn j : keeps sb_mConnectedServers (job_conn j).
Proof. unfold job_conn. preserve. Qed.

#[local] Hint Resolve servers_wf_finished_RegisterMasterEx keeps_servers_createClear
  keeps_servers_finished_NotifyServerDisconnect keeps_servers_finished_Notify
  keeps_servers_job_conn : preserve.

Lemma keeps_servers_attachExtended_consistent j a b c o x :
  keeps sb_mConnectedServers (attachExtended_consistent j a b c o x).
Proof. unfold attachExtended_consistent, handleMasterServerAvailable. preserve. Qed.

#[local] Hint Resolve keeps_servers_attachExtended_consistent : preserve.

Lemma keeps_servers_handleJobFinishedAttachExtended j p d o x :
  keeps sb_mConnectedServers (handleJobFinishedAttachExtended j p d o x).
Proof. unfold handleJobFinishedAttachExtended. preserve. Qed.

#[local] Hint Resolve keeps_servers_handleJobFinishedAttachExtended : preserve.

Lemma servers_wf_handleJobFinished j : preserves servers_wf (handleJobFinished j).
Proof. unfold handleJobFinished, job_switch, finalize. preserve. Qed.

Lemma servers_wf_handleMasterConnected : preserves servers_wf handleMasterConnected.
Proof. unfold handleMasterConnected. preserve. Qed.

Lemma keeps_trigger_unknown_servers : keeps base trigger_unknown_servers.
Proof. base_list. Qed.

#[local] Hint Resolve keeps_trigger_unknown_servers : preserve.

Lemma servers_wf_handleMasterDisconnected : preserves servers_wf handleMasterDisconnected.
Proof.
  unfold handleMasterDisconnected. preserve. apply preserves_modify. intros s' Hs'.
  by apply sl_clearMasterIDs_wf.
Qed.

#[local] Hint Resolve servers_wf_handleJobFinished servers_wf_handleMasterConnected
  servers_wf_handleMasterDisconnected : preserve.

Lemma servers_wf_dispatch_pulse code v j : preserves servers_wf (dispatch_pulse code v j).
Proof.
  unfold dispatch_pulse, handleMasterServerAvailable, handleMasterServerDisconnect,
    handleMasterClientDetach, handleMasterServerlistChange, handleMasterAttachExtended.
  preserve; unfold handleMasterServerDisconnect, handleMasterServerAvailable; preserve.
Qed.

Lemma servers_wf_dispatch c f : wf_request (fr_request f) -> preserves servers_wf (dispatch c f).
Proof. intros Hf. unfold dispatch, dispatch_command, ensure_answered. preserve. Qed.

Lemma servers_wf_close_client c : preserves servers_wf (close_client c).
Proof. unfold close_client, clear, clear_client. preserve. Qed.

#[local] Hint Resolve servers_wf_dispatch_pulse servers_wf_dispatch servers_wf_close_client
  : preserve.

Lemma servers_wf_eval_request c f wr :
  wf_request (fr_request f) -> preserves servers_wf (eval_request c f wr).
Proof.
  intros Hf. unfold eval_request, eval_ping_id, removeClient, addSlaveClient, evaluateWriteResult.
  preserve.
Qed.

(** The server table stays well formed across every event. *)
Lemma servers_wf_run ev s : enabled ev s -> servers_wf s -> servers_wf (exec (run ev) s).
Proof.
  intros Hev. apply (run_preserves servers_wf).
  destruct ev; cbn [run]; unfold new_client, handleCredentials, handleWrite, job_done; preserve.
  apply servers_wf_eval_request, Hev.
Qed.

End events.

(** ** Property *)

(** C8. In every state the servicebroker can reach, the table of registered servers is
    sorted by name and no name occurs twice: no sequence of requests, hang-ups,
    master answers or pulses breaks the binary search or registers a name twice. *)
Theorem reachable_servers_wf `{Env} ok slave file id cacheOpt asyncOpt sig s :
  reachable ok (start slave file id cacheOpt asyncOpt sig) s ->
  servers_wf s /\ NoDup (sv_name <$> sl_mEntries (sb_mConnectedServers s)).
Proof.
  intros Hr. assert (Hwf : servers_wf s).
  { apply (reachable_inv ok servers_wf (start slave file id cacheOpt asyncOpt sig)); [|eauto using servers_wf_run|done].
    split; constructor. }
  split; [done | by apply entries_wf_nodup].
Qed.

Lemma reachable_servers_wf_witness :
  reachable any_event (demo_start false) demo_state /\
  servers_wf demo_state /\ NoDup (sv_name <$> sl_mEntries (sb_mConnectedServers demo_state)).
Proof.
  assert (Hr : reachable any_event (demo_start false) demo_state).
  { apply reachable_run_all; [constructor | by repeat constructor | exact demo_enabled]. }
  split; [exact Hr | exact (reachable_servers_wf _ _ _ _ _ _ _ _ Hr)].
Defined.
