(* ===== verification/Safety.v ===== *)
(** Absence of two kinds of crashes.

    The code dereferences the variant of a pool entry and indexes the pool without
    a test ([F_pool]), and calls [master()] without asking whether there is one
    ([F_master]).  [Safe] is the invariant that makes both impossible: the variants
    agree with the pool states, a master adapter exists exactly on a slave, and in
    the default build no extended attach is pending and the asynchronous mode is
    off.  It is preserved by every event ([Safe_run]). *)

From S2P Require Import Prelude.
From S2P Require Import Layout.
From S2P Require Import Types.
From S2P Require Import ServerList.
From S2P Require Import ConfigFile.
From S2P Require Import ClientData.
From S2P Require Import JobQueue.
From S2P Require Import Environment.
From S2P Require Import PulseChannelManager.
From S2P Require Import NotificationPool.
From S2P Require Import MessageContext.
From S2P Require Import State.
From S2P Require Import Notifications.
From S2P Require Import Registration.
From S2P Require Import Notify.
From S2P Require Import Attach.
From S2P Require Import Jobs.
From S2P Require Import Dispatch.
From S2P Require Import System.
From S2P Require Import Frames.

(** The faults excluded here. *)
Definition crash_kind (k : Fault) : bool :=
  match k with F_pool | F_master => true | _ => false end.

(** What [Safe] depends on. *)
Definition safe_part (s : SB) : bool * NotificationPool * gmap Z Z * bool * list Fault :=
  (isMaster s, sb_mMasterNotificationPool s, sb_mPendingAttachExtendedJobs s, sb_mAsyncMode s,
   filter (fun k => crash_kind k = true) (sb_faults s)).

Definition safe_on (slave : bool) (x : bool * NotificationPool * gmap Z Z * bool * list Fault)
    : Prop :=
  x.1.1.1.1 = negb slave /\ pool_wf x.1.1.1.2 /\ x.1.1.2 = ∅ /\ x.1.2 = false /\ x.2 = [].

Definition Safe (slave : bool) (s : SB) : Prop := safe_on slave (safe_part s).

(** [Safe], and [pos] is a valid index of the pool. *)
Definition InPool (slave : bool) (pos : Z) (s : SB) : Prop :=
  Safe slave s /\ np_get pos (sb_mMasterNotificationPool s) <> None.

(** ** Leaves *)

Lemma keeps_Safe {A} slave (m : M A) : keeps safe_part m -> preserves (Safe slave) m.
Proof. apply (preserves_on safe_part (safe_on slave)). Qed.

Lemma keeps_InPool {A} slave pos (m : M A) : keeps safe_part m -> preserves (InPool slave pos) m.
Proof.
  intros Hm. split. intros s [Hs Hp]. pose proof (run_keeps _ _ Hm s) as Heq.
  split; [unfold Safe; by rewrite Heq|]. unfold safe_part in Heq. by injection Heq as _ -> _ _ _.
Qed.

(** Elementary operations that do not touch [safe_part]. *)
Ltac safe_keep :=
  lazymatch goal with
  | |- keeps _ (modify _) => apply keeps_modify; intros; reflexivity
  | |- keeps _ (upd_data _ _) => apply keeps_upd_data; intros; reflexivity
  | |- keeps _ (upd_conn _ _) => apply keeps_upd_conn; intros; reflexivity
  | |- keeps _ (with_msg _) => apply keeps_with_msg; intros; reflexivity
  | |- keeps _ (readData _) => apply keeps_with_msg; intros; reflexivity
  | |- keeps _ (readAncillaryData _) => apply keeps_with_msg; intros; reflexivity
  | |- keeps _ (writeAncillaryData _) => apply keeps_with_msg; intros; reflexivity
  | |- keeps _ (prepareResponse _) => apply keeps_with_msg; intros; reflexivity
  | |- keeps _ (prepareResponse_force _) => apply keeps_with_msg; intros; reflexivity
  | |- keeps _ (prepareResponse_data _ _ _) => apply keeps_with_msg; intros; reflexivity
  | |- keeps _ deferResponse => apply keeps_modify; intros; reflexivity
  | |- keeps _ (setGetOffset _) => apply keeps_modify; intros; reflexivity
  | |- keeps _ (emit _) => apply keeps_modify; intros; reflexivity
  | |- keeps _ (sendPulse _ _ _) => apply keeps_modify; intros; reflexivity
  | |- keeps _ (fault _) => apply keeps_modify; intros; reflexivity
  | |- keeps _ (assertM _ _) => unfold assertM; preserve; safe_keep
  | |- keeps _ (get_conn _) => unfold get_conn; preserve; safe_keep
  | |- keeps _ (nl_update _ _ _) => apply keeps_modify; intros; reflexivity
  end.

Ltac safe_leaf :=
  lazymatch goal with
  | |- preserves (Safe _) _ => apply keeps_Safe
  | |- preserves (InPool _ _) _ => apply keeps_InPool
  end; first [safe_keep | solve [eauto with preserve nocore]].

#[export] Hint Extern 4 (preserves (Safe _) _) => safe_leaf : preserve.
#[export] Hint Extern 4 (preserves (InPool _ _) _) => safe_leaf : preserve.

Lemma Safe_slave slave s : Safe slave s -> isMasterConnected s = true -> slave = true.
Proof.
  intros (Hm & _). cbn in Hm. unfold isMaster, isMasterConnected in *.
  by destruct (sb_mAster s), slave.
Qed.

Lemma Safe_pool slave s : Safe slave s -> pool_wf (sb_mMasterNotificationPool s).
Proof. by intros (_ & ? & _). Qed.

Lemma Safe_async slave s : Safe slave s -> sb_mAsyncMode s = false.
Proof. by intros (_ & _ & _ & ? & _). Qed.

Lemma Safe_pending slave s : Safe slave s -> sb_mPendingAttachExtendedJobs s = ∅.
Proof. by intros (_ & _ & ? & _). Qed.

Lemma Safe_modify_pool slave (f : NotificationPool -> NotificationPool) :
  (forall np, pool_wf np -> pool_wf (f np)) ->
  preserves (Safe slave) (modify (fun s => s <| sb_mMasterNotificationPool ::= f |>)).
Proof.
  intros Hf. apply preserves_modify. intros s (H1 & H2 & H3 & H4 & H5).
  split_and!; [done | by apply Hf | done..].
Qed.

Section leaves.
Context `{Env} (slave : bool).

Lemma keeps_safe_attach_channel a b c : keeps safe_part (attach_channel a b c).
Proof. unfold attach_channel. preserve; safe_keep. Qed.

Lemma keeps_safe_detach_channel fd : keeps safe_part (detach_channel fd).
Proof. unfold detach_channel. preserve; safe_keep. Qed.

#[local] Hint Resolve keeps_safe_attach_channel keeps_safe_detach_channel : preserve.

Lemma Safe_master_eval j : slave = true -> preserves (Safe slave) (master_eval j).
Proof.
  intros ->. unfold master_eval. apply preserves_read. intros s (Hm & Hs).
  cbn in Hm. rewrite Hm. done.
Qed.

Lemma Safe_assert_pool s b : Safe slave s -> b = true -> preserves (Safe slave) (assertM F_pool b).
Proof. intros _ ->. apply preserves_skip. Qed.

End leaves.

#[export] Hint Resolve keeps_safe_attach_channel keeps_safe_detach_channel : preserve.

(** [master_eval] below a test for a connected master. *)
Ltac slave_known :=
  repeat match goal with
  | H : (_ && _) = true |- _ => apply andb_true_iff in H as [? ?]
  | H : (_ || _) = false |- _ => apply orb_false_iff in H as [? ?]
  | H : negb _ = false |- _ => apply negb_false_iff in H
  end;
  match goal with
  | |- ?sl = true => assumption
  | Hs : Safe ?sl ?s, Hc : isMasterConnected ?s = true |- ?sl = true =>
    exact (Safe_slave sl s Hs Hc)
  end.

#[export] Hint Extern 3 (preserves (Safe _) (master_eval _)) =>
  (apply Safe_master_eval; slave_known) : preserve.

(** ** The notification layer *)

Section notifications.
Context `{Env} (slave : bool).

Lemma Safe_createClearNotificationJob id :
  preserves (Safe slave) (createClearNotificationJob id).
Proof. unfold createClearNotificationJob. preserve. Qed.

#[local] Hint Resolve Safe_createClearNotificationJob : preserve.

Lemma pe_detach_wf e : pe_wf e -> pe_wf (pe_detach e).
Proof. done. Qed.

Lemma pe_attach_wf e : pe_wf e -> pe_wf (pe_attach e).
Proof. done. Qed.

Lemma np_update_wf_all pos f np :
  (forall e, pe_wf e -> pe_wf (f e)) -> pool_wf np -> pool_wf (np_update pos f np).
Proof. intros Hf. apply np_update_wf. auto. Qed.

Lemma Safe_pool_detach s pos :
  Safe slave s -> np_get pos (sb_mMasterNotificationPool s) <> None ->
  Safe slave (exec (pool_detach pos) s).
Proof.
  intros Hs Hp. unfold pool_detach. rewrite exec_bind. cbn [fst snd eval exec getS].
  destruct (np_get _ _) as [e|]; [|done]. apply (run_preserves (Safe slave)); [|done].
  preserve; apply Safe_modify_pool; intros np;
    eauto using np_update_wf_all, pe_detach_wf, np_removePool_wf.
Qed.

(** A search over the pool returns -1 or a valid index. *)
Lemma np_find_get p np :
  (find_last p (np_mEntries np) =? -1) = false ->
  np_get (find_last p (np_mEntries np)) np <> None.
Proof.
  intros Hne%Z.eqb_neq. destruct (np_get_find_last _ np Hne) as (e & He & _). by rewrite He.
Qed.

Lemma Safe_construct : preserves (Safe slave) construct.
Proof. unfold construct. preserve. Qed.

Lemma Safe_destroy n : preserves (Safe slave) (destroy n).
Proof.
  unfold destroy. apply preserves_bind; [preserve|intros _].
  apply preserves_bind; [preserve|intros _]. apply preserves_bind; [|intros _; preserve].
  destruct (negb _); [|preserve]. apply preserves_read. intros s Hs. cbv zeta.
  destruct (np_find_id _ _ =? -1) eqn:E; [done|].
  apply Safe_pool_detach; [done | by apply np_find_get].
Qed.

Lemma keeps_safe_copy n : keeps safe_part (copy_Notification n).
Proof. unfold copy_Notification. preserve. Qed.

Lemma keeps_safe_connect cn p n : keeps safe_part (connect cn p n).
Proof. unfold connect, doConnect. preserve. Qed.

Lemma keeps_safe_send n : keeps safe_part (send n).
Proof. unfold send, doConnect. preserve; safe_keep. Qed.

#[local] Hint Resolve Safe_construct Safe_destroy keeps_safe_copy keeps_safe_connect
  keeps_safe_send : preserve.

Lemma Safe_send_erase n : preserves (Safe slave) (send_erase n).
Proof. unfold send_erase. preserve. Qed.

Lemma Safe_send_keep n : preserves (Safe slave) (send_keep n).
Proof. unfold send_keep. preserve. Qed.

Lemma Safe_erase n : preserves (Safe slave) (erase n).
Proof. unfold erase. preserve. Qed.

Lemma Safe_keep n : preserves (Safe slave) (keep n).
Proof. unfold keep. preserve. Qed.

Lemma Safe_on_list k body :
  (forall n, preserves (Safe slave) (body n)) -> preserves (Safe slave) (on_list k body).
Proof.
  intros Hb. unfold on_list. preserve.
  induction (nl_get k _); cbn [walk]; preserve; auto.
Qed.

Lemma Safe_on_first k p body :
  (forall n, preserves (Safe slave) (body n)) -> preserves (Safe slave) (on_first k p body).
Proof.
  intros Hb. unfold on_first. preserve.
  induction (nl_get k _); cbn [walk_first]; preserve; auto.
Qed.

End notifications.

#[export] Hint Resolve Safe_createClearNotificationJob Safe_construct Safe_destroy keeps_safe_copy
  keeps_safe_connect keeps_safe_send Safe_send_erase Safe_send_keep Safe_erase Safe_keep
  : preserve.

Ltac safe_list :=
  first [apply Safe_on_list | apply Safe_on_first]; intros ?; preserve.

Section lists.
Context `{Env} (slave : bool).

Lemma Safe_trigger_party k id : preserves (Safe slave) (trigger_party k id).
Proof. safe_list. Qed.

Lemma Safe_trigger_ifDescr k d g : preserves (Safe slave) (trigger_ifDescr k d g).
Proof. safe_list. Qed.

Lemma Safe_trigger_id k id b : preserves (Safe slave) (trigger_id k id b).
Proof. safe_list. Qed.

Lemma Safe_triggerPool k id : preserves (Safe slave) (triggerPool k id).
Proof. safe_list. Qed.

Lemma Safe_trigger_ids k l : preserves (Safe slave) (trigger_ids k l).
Proof. safe_list. Qed.

Lemma Safe_triggerAll k : preserves (Safe slave) (triggerAll k).
Proof. safe_list. Qed.

Lemma Safe_triggerAll_ifDescr k d : preserves (Safe slave) (triggerAll_ifDescr k d).
Proof. safe_list. Qed.

Lemma Safe_triggerNotLocal k x : preserves (Safe slave) (triggerNotLocal k x).
Proof. safe_list. Qed.

Lemma Safe_nl_remove k id : preserves (Safe slave) (nl_remove k id).
Proof. safe_list. Qed.

Lemma Safe_nl_remove_ids k c : preserves (Safe slave) (nl_remove_ids k c).
Proof. safe_list. Qed.

Lemma Safe_clearMasterNotification k : preserves (Safe slave) (clearMasterNotification k).
Proof. safe_list. Qed.

Lemma Safe_push_front k n : preserves (Safe slave) (push_front k n).
Proof. unfold push_front. preserve. Qed.

#[local] Hint Resolve Safe_push_front : preserve.

Lemma Safe_nl_add k c p f : preserves (Safe slave) (nl_add k c p f).
Proof. unfold nl_add. preserve. Qed.

Lemma Safe_add_regExpr k re c p : preserves (Safe slave) (add_regExpr k re c p).
Proof. unfold add_regExpr. preserve. Qed.

End lists.

#[export] Hint Resolve Safe_trigger_party Safe_trigger_ifDescr Safe_trigger_id Safe_triggerPool
  Safe_trigger_ids Safe_triggerAll Safe_triggerAll_ifDescr Safe_triggerNotLocal Safe_nl_remove
  Safe_nl_remove_ids Safe_clearMasterNotification Safe_nl_add Safe_add_regExpr : preserve.

(** ** The pool *)

Section pool.
Context `{Env} (slave : bool).

Lemma run_pool_find_ifDescr d b s :
  pool_wf (sb_mMasterNotificationPool s) ->
  pool_find_ifDescr d b s = (np_find_ifDescr d b (sb_mMasterNotificationPool s), s).
Proof.
  intros Hwf. unfold pool_find_ifDescr.
  by rewrite run_getS, (proj1 (pool_wf_derefs _ b Hwf)).
Qed.

Lemma run_pool_find_party p s :
  pool_wf (sb_mMasterNotificationPool s) ->
  pool_find_party p s = (np_find_party p (sb_mMasterNotificationPool s), s).
Proof.
  intros Hwf. unfold pool_find_party.
  by rewrite run_getS, (proj2 (pool_wf_derefs _ true Hwf)).
Qed.

(** A search returns -1 or a valid index. *)
Lemma InPool_pool_find_ifDescr d b :
  triple (Safe slave) (pool_find_ifDescr d b)
    (fun pos s => Safe slave s /\ ((pos =? -1) = false -> InPool slave pos s)).
Proof.
  intros s Hs. unfold eval, exec. rewrite run_pool_find_ifDescr by by eapply Safe_pool.
  split; [done|]. intros Hne. split; [done|]. by apply np_find_get.
Qed.

Lemma InPool_pool_find_party p :
  triple (Safe slave) (pool_find_party p)
    (fun pos s => Safe slave s /\ ((pos =? -1) = false -> InPool slave pos s)).
Proof.
  intros s Hs. unfold eval, exec. rewrite run_pool_find_party by by eapply Safe_pool.
  split; [done|]. intros Hne. split; [done|]. by apply np_find_get.
Qed.

Lemma InPool_pool_add mk :
  (forall id, pe_wf (mk id)) ->
  triple (Safe slave) (pool_add mk) (fun pos s => InPool slave pos s).
Proof.
  intros Hmk s (H1 & H2 & H3 & H4 & H5). split.
  - split_and!; [done | by apply np_add_wf | done..].
  - unfold eval, exec, pool_add. rewrite run_getS. cbn -[np_get].
    intros Hnone. pose proof (np_get_add (mk (sb_NextPoolID s)) (sb_mMasterNotificationPool s)) as Hget.
    discriminate (eq_trans (eq_sym Hget) Hnone).
Qed.

Lemma InPool_Safe pos s : InPool slave pos s -> Safe slave s.
Proof. by intros [? _]. Qed.

Lemma InPool_pool_get pos : preserves (InPool slave pos) (pool_get pos).
Proof.
  unfold pool_get. apply preserves_read. intros s [Hs Hp].
  destruct (np_get pos _) eqn:E; [split; [done | cbn -[np_get]; congruence] | congruence].
Qed.

Lemma np_get_update_some pos pos' f np :
  np_get pos np <> None -> np_get pos (np_update pos' f np) <> None.
Proof.
  unfold np_get, np_update. destruct (pos <? 0); [done|]. destruct (pos' <? 0); [done|]. cbn.
  destruct (decide (Z.to_nat pos = Z.to_nat pos')) as [->|Hne].
  - rewrite list_lookup_alter_eq. by destruct (np_mEntries np !! _).
  - by rewrite list_lookup_alter_ne by done.
Qed.

Lemma InPool_pool_update pos pos' f :
  (forall e, pe_wf e -> pe_wf (f e)) -> preserves (InPool slave pos) (pool_update pos' f).
Proof.
  intros Hf. apply preserves_modify. intros s [(H1 & H2 & H3 & H4 & H5) Hp].
  split; [|by apply np_get_update_some].
  split_and!; [done | by apply np_update_wf_all | done..].
Qed.

Lemma Safe_pool_update pos f :
  (forall e, pe_wf e -> pe_wf (f e)) -> preserves (Safe slave) (pool_update pos f).
Proof. intros Hf. apply Safe_modify_pool. intros np. by apply np_update_wf_all. Qed.

Lemma InPool_master_eval pos j :
  slave = true -> preserves (InPool slave pos) (master_eval j).
Proof.
  intros ->. unfold master_eval. apply preserves_read. intros s [(Hm & Hs) Hp].
  cbn in Hm. rewrite Hm. done.
Qed.

Lemma InPool_pool_attach pos k id : preserves (InPool slave pos) (pool_attach pos k id).
Proof.
  unfold pool_attach. apply preserves_bind; [apply InPool_pool_get|intros e].
  apply preserves_bind; [preserve|intros _]. by apply InPool_pool_update.
Qed.

Lemma setState_default_wf st e : pe_wf e -> pe_wf (default e (setState st e)).
Proof. destruct (setState st e) eqn:E; [by eapply setState_wf | done]. Qed.

End pool.

#[export] Hint Resolve InPool_pool_get InPool_pool_attach : preserve.
#[export] Hint Extern 3 (preserves (InPool _ _) (master_eval _)) =>
  (apply InPool_master_eval; slave_known) : preserve.
#[export] Hint Extern 3 (preserves (InPool _ _) (pool_update _ _)) =>
  (apply InPool_pool_update; intros ?; first [apply setState_default_wf | done]) : preserve.
#[export] Hint Extern 3 (preserves (Safe _) (pool_update _ _)) =>
  (apply Safe_pool_update; intros ?; first [apply setState_default_wf | done]) : preserve.

(** Running under [InPool] and forgetting it. *)
Lemma triple_InPool {A} slave pos (m : M A) :
  preserves (InPool slave pos) m -> triple (InPool slave pos) m (fun _ => Safe slave).
Proof. intros Hm s Hs. apply (InPool_Safe slave pos). by apply Hm. Qed.

(** ** Forwarding *)

Section forwarding.
Context `{Env} (slave : bool) (Hslave : slave = true).

Lemma Safe_send_notifications l : preserves (Safe slave) (send_notifications l).
Proof. unfold send_notifications. preserve. Qed.

Lemma InPool_send_notifications pos l : preserves (InPool slave pos) (send_notifications l).
Proof. unfold send_notifications. preserve. Qed.

#[local] Hint Resolve Safe_send_notifications InPool_send_notifications : preserve.

Lemma InPool_forward_new_pool d batch :
  triple (Safe slave) (forward_new_pool d batch) (fun pb s => InPool slave pb.1 s).
Proof.
  unfold forward_new_pool. eapply triple_bind; [by apply InPool_pool_add|].
  intros pos. cbv beta. eapply triple_bind.
  { apply (triple_preserves (InPool slave pos)). preserve. }
  intros e. cbv beta. apply triple_read. intros s _. cbv zeta.
  destruct (_ =? MAX_MULTIPLE_COUNT); [|intros s0 Hs0; exact Hs0].
  eapply triple_bind; [apply (triple_preserves (InPool slave pos)); preserve|].
  intros _ s0 Hs0. exact Hs0.
Qed.

Lemma Safe_forward_loop cfg l batch : preserves (Safe slave) (forward_loop cfg l batch).
Proof.
  revert batch. induction l as [|n l IH]; intros batch; cbn [forward_loop]; [preserve|].
  destruct (_ && _ && _); [|preserve; auto]. apply preserves_triple.
  eapply triple_bind; [apply InPool_pool_find_ifDescr|]. intros pos. cbv beta.
  eapply triple_bind with (R := fun pb s => InPool slave pb.1 s).
  { destruct (pos =? -1).
    - eapply triple_conseq; [apply InPool_forward_new_pool | by intros ? [? _] | done].
    - intros s [_ Hp]. by apply Hp. }
  intros [pos' batch']. cbn [fst]. eapply triple_bind.
  { apply (triple_InPool slave pos'). preserve. }
  intros e. apply (triple_preserves (Safe slave)). preserve.
Qed.

Lemma InPool_new_party_pool serverID pos :
  triple (fun s => Safe slave s /\ ((pos =? -1) = false -> InPool slave pos s))
    (if pos =? -1 then
       pos ← pool_add (fun id => new_PoolEntry_party id serverID);
       e ← pool_get pos;
       s ← getS;
       master_eval (create_Job None (pe_poolID e)
         (JA_NotifyServerDisconnect serverID
            (master_pulse s PULSE_MASTER_SERVER_DISCONNECT (pe_poolID e)) 0)
         (sizeof (arg_i DCMD_FND_NOTIFY_SERVER_DISCONNECT))
         (sizeof (arg_o DCMD_FND_NOTIFY_SERVER_DISCONNECT)));;
       mret pos
     else mret pos)
    (fun pos s => InPool slave pos s).
Proof.
  destruct (pos =? -1); [|by intros s [_ Hp]; apply Hp].
  eapply triple_bind.
  { eapply triple_conseq; [by apply InPool_pool_add | by intros ? [? _] | done]. }
  intros pos'. cbv beta. eapply triple_bind.
  { apply (triple_preserves (InPool slave pos')). preserve. }
  intros e. cbv beta. apply triple_read. intros s _.
  eapply triple_bind; [apply (triple_preserves (InPool slave pos')); preserve|].
  intros _ s0 Hs0. exact Hs0.
Qed.

Lemma Safe_bind_disconnect_pool serverID id :
  preserves (Safe slave) (bind_disconnect_pool serverID id).
Proof.
  unfold bind_disconnect_pool. apply preserves_triple.
  eapply triple_bind; [apply InPool_pool_find_party|]. intros pos. cbv beta.
  eapply triple_bind; [apply InPool_new_party_pool|]. intros pos'. cbv beta.
  apply triple_InPool. preserve.
Qed.

Lemma InPool_forwardAttachExtended_job c p d b pos id :
  preserves (InPool slave pos) (forwardAttachExtended_job c p d b pos id).
Proof. unfold forwardAttachExtended_job. preserve. Qed.

End forwarding.

#[export] Hint Extern 3 (preserves (Safe _) (send_notifications _)) =>
  (apply Safe_send_notifications; slave_known) : preserve.
#[export] Hint Extern 3 (preserves (Safe _) (forward_loop _ _ _)) =>
  (apply Safe_forward_loop; slave_known) : preserve.
#[export] Hint Extern 3 (preserves (Safe _) (bind_disconnect_pool _ _)) =>
  (apply Safe_bind_disconnect_pool; slave_known) : preserve.

Section handlers.
Context `{Env} (slave : bool).

Lemma Safe_forwardServerAvailableNotifications :
  preserves (Safe slave) forwardServerAvailableNotifications.
Proof. unfold forwardServerAvailableNotifications. preserve. Qed.

(** *** Registration *)

Lemma Safe_construct_ServerListEntry : preserves (Safe slave) construct_ServerListEntry.
Proof. unfold construct_ServerListEntry. preserve. Qed.

Lemma Safe_unregisterInterfaceMaster m : preserves (Safe slave) (unregisterInterfaceMaster m).
Proof. unfold unregisterInterfaceMaster. preserve. Qed.

Lemma Safe_register_loop cfg l d :
  slave = true -> preserves (Safe slave) (register_loop cfg l d).
Proof.
  intros Hsl. revert d. induction l as [|e l IH]; intros d; cbn [register_loop];
    unfold send_registrations; preserve; auto.
Qed.

#[local] Hint Resolve Safe_forwardServerAvailableNotifications Safe_construct_ServerListEntry
  Safe_unregisterInterfaceMaster : preserve.

Lemma Safe_registerInterfacesMaster : preserves (Safe slave) registerInterfacesMaster.
Proof.
  unfold registerInterfacesMaster, send_registrations. preserve.
  apply Safe_register_loop. slave_known.
Qed.

Lemma Safe_addInterface c d p ch l g : preserves (Safe slave) (addInterface c d p ch l g).
Proof. unfold addInterface. preserve. Qed.

#[local] Hint Resolve Safe_registerInterfacesMaster Safe_addInterface : preserve.

Lemma Safe_registerEx_loop fuel k c a items :
  preserves (Safe slave) (registerEx_loop fuel k c a items).
Proof. revert k. induction fuel; intros k; cbn [registerEx_loop]; preserve; auto. Qed.

Lemma Safe_registerMaster_loop fuel k c items :
  preserves (Safe slave) (registerMaster_loop fuel k c items).
Proof.
  revert k. induction fuel; intros k; cbn [registerMaster_loop]; preserve; auto.
  unfold registerMaster_one. preserve.
Qed.

(** *** Notifications *)

Lemma Safe_notify_available c p d b e : preserves (Safe slave) (notify_available c p d b e).
Proof. unfold notify_available, add_ifDescr. preserve. Qed.

Lemma Safe_handleNotifyServerDisconnectNoResponse c id p :
  preserves (Safe slave) (handleNotifyServerDisconnectNoResponse c id p).
Proof. unfold handleNotifyServerDisconnectNoResponse, add_party. preserve. Qed.

#[local] Hint Resolve Safe_notify_available Safe_handleNotifyServerDisconnectNoResponse
  Safe_registerEx_loop Safe_registerMaster_loop : preserve.

Lemma Safe_handleNotifyServerAvailableNoResponse c p d :
  preserves (Safe slave) (handleNotifyServerAvailableNoResponse c p d).
Proof. unfold handleNotifyServerAvailableNoResponse. preserve. Qed.

Lemma Safe_notifyAvailableEx_loop fuel k c items :
  preserves (Safe slave) (notifyAvailableEx_loop fuel k c items).
Proof.
  revert k. induction fuel; intros k; cbn [notifyAvailableEx_loop]; preserve; auto.
  unfold notifyAvailableEx_one. preserve.
Qed.

Lemma Safe_match_loop cn re n l r : preserves (Safe slave) (match_loop cn re n l r).
Proof. revert r. induction l; intros r; cbn [match_loop]; preserve; auto. Qed.

Lemma Safe_notify_first_match c id : preserves (Safe slave) (notify_first_match c id).
Proof. unfold notify_first_match. preserve. Qed.

(** *** Attach *)

Lemma Safe_addClient old c id : preserves (Safe slave) (addClient old c id).
Proof. unfold addClient. preserve. Qed.

#[local] Hint Resolve Safe_handleNotifyServerAvailableNoResponse Safe_notifyAvailableEx_loop
  Safe_match_loop Safe_notify_first_match Safe_addClient : preserve.

Lemma Safe_handleAttachLocalInterface c e :
  preserves (Safe slave) (handleAttachLocalInterface c e).
Proof. unfold handleAttachLocalInterface. preserve. Qed.

Lemma Safe_nextRequestID : preserves (Safe slave) nextRequestID.
Proof. unfold nextRequestID. preserve. Qed.

End handlers.

#[export] Hint Resolve Safe_forwardServerAvailableNotifications Safe_construct_ServerListEntry
  Safe_unregisterInterfaceMaster Safe_registerInterfacesMaster Safe_addInterface
  Safe_notify_available Safe_handleNotifyServerDisconnectNoResponse
  Safe_registerEx_loop Safe_registerMaster_loop
  Safe_handleNotifyServerAvailableNoResponse Safe_notifyAvailableEx_loop
  Safe_match_loop Safe_notify_first_match Safe_addClient Safe_handleAttachLocalInterface
  Safe_nextRequestID : preserve.

(** ** Extended attach *)

Section extended.
Context `{Env} (slave : bool) (pos : Z).

Lemma InPool_createClearNotificationJob id :
  preserves (InPool slave pos) (createClearNotificationJob id).
Proof.
  unfold createClearNotificationJob. apply preserves_getS_inv. intros s [Hs _]. preserve.
Qed.

(** A notification outside every pool takes no entry with it. *)
Lemma InPool_destroy n : n_poolID n = 0 -> preserves (InPool slave pos) (destroy n).
Proof.
  intros Hn. unfold destroy. rewrite Hn. cbn [Z.eqb negb].
  pose proof InPool_createClearNotificationJob. preserve; auto.
Qed.

Lemma InPool_construct :
  triple (InPool slave pos) construct (fun n s => n_poolID n = 0 /\ InPool slave pos s).
Proof.
  unfold construct. eapply triple_bind; [apply (triple_preserves (InPool slave pos)); preserve|].
  intros u. cbv beta. apply triple_read. intros s0 _ s1 Hs1. exact (conj eq_refl Hs1).
Qed.

Lemma eval_connect_poolID cn p n s : n_poolID (eval (connect cn p n) s).2 = n_poolID n.
Proof.
  unfold connect, doConnect. destruct (negb _); [done|]. rewrite eval_bind. by destruct (_ <? 0).
Qed.

Lemma InPool_nl_add k c p f : preserves (InPool slave pos) (nl_add k c p f).
Proof.
  unfold nl_add. apply preserves_triple. eapply triple_bind; [apply InPool_construct|].
  intros n. cbv beta. eapply triple_bind with (R := fun _ s => n_poolID n = 0 /\ InPool slave pos s).
  { intros s [Hn Hs]. split; [done|]. apply (run_preserves (InPool slave pos)); [preserve | done]. }
  intros cn. eapply triple_bind with (R := fun r s => n_poolID r.2 = 0 /\ InPool slave pos s).
  { intros s [Hn Hs]. split; [by rewrite eval_connect_poolID|].
    apply (run_preserves (InPool slave pos)); [preserve | done]. }
  intros [ok n']. cbn [snd]. intros s [Hn Hs]. revert s Hs.
  apply (triple_preserves (InPool slave pos)). unfold push_front.
  destruct ok; [|pose proof (InPool_destroy n' Hn); preserve].
  apply preserves_bind; [|intros ?; preserve]. unfold copy_Notification.
  apply preserves_triple. eapply triple_bind with (R := fun r s => n_poolID r.2 = 0 /\ InPool slave pos s).
  { intros s0 Hs0. split; [done|]. apply (run_preserves (InPool slave pos)); [preserve | done]. }
  intros [copy rest]. cbn [snd]. intros s0 [Hr Hs0]. revert s0 Hs0.
  apply (triple_preserves (InPool slave pos)). pose proof (InPool_destroy rest Hr). preserve.
Qed.

End extended.

#[export] Hint Resolve InPool_nl_add : preserve.

Section extended_handlers.
Context `{Env} (slave : bool).

Lemma Safe_forwardAttachExtendedToMaster c p d :
  slave = true -> preserves (Safe slave) (forwardAttachExtendedToMaster c p d).
Proof.
  intros Hsl. unfold forwardAttachExtendedToMaster. apply preserves_getS_inv. intros s _.
  cbv zeta. apply preserves_triple.
  eapply triple_bind; [apply InPool_pool_find_ifDescr|]. intros pos0. cbv beta.
  eapply triple_bind with (R := fun pos s => InPool slave pos s).
  { destruct (pos0 =? -1).
    - eapply triple_conseq; [by apply InPool_pool_add | by intros ? [? _] | done].
    - intros s' [_ Hp]. by apply Hp. }
  intros pos. apply triple_InPool. unfold add_ifDescr. preserve.
  by apply InPool_forwardAttachExtended_job.
Qed.

#[local] Hint Extern 3 (preserves (Safe _) (forwardAttachExtendedToMaster _ _ _)) =>
  (apply Safe_forwardAttachExtendedToMaster; slave_known) : preserve.

Lemma Safe_run_handler c r : preserves (Safe slave) (run_handler c r).
Proof.
  destruct r; cbn [run_handler]; preserve.
  - unfold handleRegisterInterface. preserve.
  - unfold handleRegisterInterfaceEx. preserve.
  - unfold handleRegisterInterfaceGroupID. preserve.
  - unfold handleUnregisterInterface. preserve.
  - unfold handleAttachInterface. preserve.
  - unfold handleAttachInterfaceExtended. preserve.
  - unfold handleGetServerInformation. preserve.
  - unfold handleDetachInterface. preserve.
  - unfold handleNotifyServerDisconnect. preserve.
  - unfold handleNotifyServerAvailable. preserve.
  - unfold handleNotifyServerAvailableEx. preserve.
  - unfold handleNotifyClientDetach, add_party. preserve.
  - unfold handleClearNofification. preserve.
  - unfold handleRegisterMasterInterface. preserve.
  - unfold handleGetInterfaceList. preserve.
  - unfold handleNotifyInterfaceListChange, add_plain. preserve.
  - unfold handleMatchInterfaceList. preserve.
  - unfold handleNotifyInterfaceListMatch. preserve.
  - unfold handleMasterPingId. preserve.
Qed.

End extended_handlers.

#[export] Hint Resolve Safe_run_handler : preserve.

(** ** Jobs, pulses, events *)

Section events.
Context `{Env} (slave : bool).

Lemma Safe_forget_pending id :
  preserves (Safe slave)
    (modify (fun s => s <| sb_mPendingAttachExtendedJobs ::= delete id |>)).
Proof.
  apply preserves_modify. intros s (H1 & H2 & H3 & H4 & H5).
  split_and!; [done..| |done|done]. cbn in *. by rewrite H3, delete_empty.
Qed.

(** Nothing is pending: the answer of an extended attach is refused. *)
Lemma run_handleJobFinishedAttachExtended j p d o id s :
  sb_mPendingAttachExtendedJobs s = ∅ ->
  handleJobFinishedAttachExtended j p d o id s =
  (j <| job_status := sb_code FNDInternalError |>, s).
Proof.
  intros Hp. unfold handleJobFinishedAttachExtended. by rewrite run_getS, Hp, lookup_empty.
Qed.

Lemma Safe_handleJobFinishedAttachExtended j p d o id :
  preserves (Safe slave) (handleJobFinishedAttachExtended j p d o id).
Proof.
  split. intros s Hs. unfold exec.
  rewrite run_handleJobFinishedAttachExtended by by eapply Safe_pending. exact Hs.
Qed.

Lemma Safe_finished_NotifyServerAvailableEx j o :
  preserves (Safe slave) (finished_NotifyServerAvailableEx j o).
Proof. unfold finished_NotifyServerAvailableEx. preserve. Qed.

Lemma Safe_finished_NotifyServerDisconnect j id :
  preserves (Safe slave) (finished_NotifyServerDisconnect j id).
Proof. unfold finished_NotifyServerDisconnect. preserve. Qed.

Lemma Safe_finished_Notify k j id : preserves (Safe slave) (finished_Notify k j id).
Proof. unfold finished_Notify. preserve. Qed.

Lemma Safe_finished_RegisterMasterEx j o :
  preserves (Safe slave) (finished_RegisterMasterEx j o).
Proof. unfold finished_RegisterMasterEx. preserve. Qed.

Lemma Safe_job_conn j : preserves (Safe slave) (job_conn j).
Proof. unfold job_conn. preserve. Qed.

Lemma Safe_finalize j : preserves (Safe slave) (finalize j).
Proof. unfold finalize. preserve. Qed.

#[local] Hint Resolve Safe_handleJobFinishedAttachExtended
  Safe_finished_NotifyServerAvailableEx Safe_finished_NotifyServerDisconnect
  Safe_finished_Notify Safe_finished_RegisterMasterEx Safe_job_conn Safe_finalize : preserve.

Lemma Safe_handleJobFinished j : preserves (Safe slave) (handleJobFinished j).
Proof. unfold handleJobFinished, job_switch. preserve. Qed.

Lemma Safe_trigger_unknown_servers : preserves (Safe slave) trigger_unknown_servers.
Proof. safe_list. Qed.

#[local] Hint Resolve Safe_handleJobFinished Safe_trigger_unknown_servers : preserve.

(** Signals from the master reach slaves only. *)
Lemma Safe_assert_master s :
  slave = true -> Safe slave s -> assertM F_master (negb (isMaster s)) = skip.
Proof. intros Hsl (Hm & _). cbn in Hm. by rewrite Hm, Hsl. Qed.

Lemma Safe_handleMasterConnected : slave = true -> preserves (Safe slave) handleMasterConnected.
Proof.
  intros Hsl. unfold handleMasterConnected. apply preserves_getS_inv. intros s Hs.
  rewrite (Safe_assert_master s Hsl Hs). preserve.
Qed.

Lemma Safe_handleMasterDisconnected :
  slave = true -> preserves (Safe slave) handleMasterDisconnected.
Proof.
  intros Hsl. unfold handleMasterDisconnected. apply preserves_getS_inv. intros s Hs.
  rewrite (Safe_assert_master s Hsl Hs). preserve.
  apply preserves_modify. intros s' (H1 & H2 & H3 & H4 & H5).
  split_and!; [done | apply np_clear_wf | done..].
Qed.

Lemma Safe_handleMasterClientDetach id : preserves (Safe slave) (handleMasterClientDetach id).
Proof. unfold handleMasterClientDetach. preserve. Qed.

Lemma Safe_handleMasterAttachExtended id :
  preserves (Safe slave) (handleMasterAttachExtended id).
Proof.
  unfold handleMasterAttachExtended. apply preserves_read. intros s Hs. cbv zeta.
  destruct (np_find_id id _ =? -1) eqn:E; [done|].
  apply (triple_exec (InPool slave (np_find_id id (sb_mMasterNotificationPool s)))).
  { split; [done | by apply np_find_get]. }
  eapply triple_bind; [apply triple_InPool; preserve|]. intros e.
  apply (triple_preserves (Safe slave)). rewrite (Safe_async slave s Hs).
  unfold handleMasterServerDisconnect, handleMasterServerAvailable. preserve.
Qed.

Lemma Safe_dispatch_pulse code v j :
  slave = true \/ code = PULSE_JOB_EXECUTED -> preserves (Safe slave) (dispatch_pulse code v j).
Proof.
  pose proof Safe_handleMasterConnected. pose proof Safe_handleMasterDisconnected.
  pose proof Safe_handleMasterClientDetach. pose proof Safe_handleMasterAttachExtended.
  intros [Hsl| ->]; unfold dispatch_pulse, handleMasterServerAvailable,
    handleMasterServerDisconnect, handleMasterServerlistChange; [preserve; auto|].
  rewrite Z.eqb_refl. preserve.
Qed.

Lemma Safe_dispatch c f : preserves (Safe slave) (dispatch c f).
Proof. unfold dispatch, dispatch_command, ensure_answered. preserve. Qed.

Lemma Safe_close_client c : preserves (Safe slave) (close_client c).
Proof. unfold close_client, clear, clear_client, clear_server. preserve. Qed.

#[local] Hint Resolve Safe_dispatch Safe_close_client : preserve.

Lemma Safe_eval_request c f wr : preserves (Safe slave) (eval_request c f wr).
Proof.
  unfold eval_request, eval_ping_id, removeClient, addSlaveClient, evaluateWriteResult. preserve.
Qed.

(** [Safe] is an invariant of the event loop. *)
Lemma Safe_run ev s : enabled ev s -> Safe slave s -> Safe slave (exec (run ev) s).
Proof.
  intros Hev Hs. destruct ev; cbn [run].
  - apply (run_preserves (Safe slave)); [unfold new_client; preserve | done].
  - apply (run_preserves (Safe slave)); [unfold handleCredentials; preserve | done].
  - by apply (run_preserves (Safe slave)); [apply Safe_eval_request|].
  - apply (run_preserves (Safe slave)); [unfold handleWrite; preserve | done].
  - by apply (run_preserves (Safe slave)); [apply Safe_close_client|].
  - by apply (run_preserves (Safe slave)); [apply Safe_close_client|].
  - apply (run_preserves (Safe slave)); [|done]. unfold job_done. preserve.
    apply Safe_dispatch_pulse. by right.
  - apply (run_preserves (Safe slave)); [|done]. apply preserves_modify.
    intros s' (H1 & H2 & H3 & H4 & H5). split_and!; [|done..]. cbn in *.
    rewrite <-H1. unfold isMaster. cbn. by destruct (sb_mAster s').
  - destruct Hev as [_ Hm]. apply (run_preserves (Safe slave)); [|done].
    apply Safe_dispatch_pulse. left. destruct Hs as (Hs & _). cbn in Hs.
    unfold isMaster in Hs. by destruct (sb_mAster s), slave.
Qed.

End events.

(** ** Properties *)

Lemma Safe_start slave file id cacheOpt asyncOpt sig :
  Safe slave (start slave file id cacheOpt asyncOpt sig).
Proof.
  split_and!; [by destruct slave | constructor | done | | done].
  cbn. unfold main_asyncMode, main_useServerCache. cbn.
  destruct asyncOpt; by rewrite andb_false_r.
Qed.

Lemma reachable_Safe `{Env} ok slave file id cacheOpt asyncOpt sig s :
  reachable ok (start slave file id cacheOpt asyncOpt sig) s -> Safe slave s.
Proof. apply reachable_inv; [apply Safe_start | eauto using Safe_run]. Qed.

(** C6. No reachable state has dereferenced the null variant of a pool entry, indexed
    the notification pool out of range or called [master()] without a master; the
    variant of every pool entry agrees with the entry's state. *)
Theorem reachable_no_crash `{Env} ok slave file id cacheOpt asyncOpt sig s :
  reachable ok (start slave file id cacheOpt asyncOpt sig) s ->
  pool_wf (sb_mMasterNotificationPool s) /\ F_pool ∉ sb_faults s /\ F_master ∉ sb_faults s.
Proof.
  intros Hr%reachable_Safe. split; [by eapply Safe_pool|].
  destruct Hr as (_ & _ & _ & _ & Hf). cbn in Hf.
  assert (Hno : forall k, crash_kind k = true -> k ∉ sb_faults s).
  { intros k Hk Hin. assert (k ∈ filter (fun k => crash_kind k = true) (sb_faults s)) as Hin'
      by by apply list_elem_of_filter. rewrite Hf in Hin'. by apply not_elem_of_nil in Hin'. }
  split; by apply Hno.
Qed.

Lemma reachable_no_crash_witness :
  reachable any_event (demo_start false) demo_state /\
  pool_wf (sb_mMasterNotificationPool demo_state) /\
  F_pool ∉ sb_faults demo_state /\ F_master ∉ sb_faults demo_state.
Proof.
  assert (Hr : reachable any_event (demo_start false) demo_state).
  { apply reachable_run_all; [constructor | by repeat constructor | exact demo_enabled]. }
  split; [exact Hr | exact (reachable_no_crash _ _ _ _ _ _ _ _ Hr)].
Defined.

(** An extended attach that was forwarded to the master never succeeds: whatever
    the master answered, the waiting client gets [FNDInternalError], because nothing
    is ever entered into the table of pending extended attaches. *)
Lemma extended_attach_refused `{Env} ok slave file id cacheOpt asyncOpt sig s j c cn p d o n :
  reachable ok (start slave file id cacheOpt asyncOpt sig) s ->
  job_arg j = JA_AttachExtended p d o n -> job_status j = 0 ->
  job_ctx j = Some c -> sb_conns s !! c = Some cn -> cn_mState cn = CS_DEFERRED ->
  sb_out (exec (handleJobFinished j) s) =
    sb_out s ++ [O_deferred c (mkResponse 0 (sb_code FNDInternalError) PL_none)].
Proof.
  intros Hr%reachable_Safe Harg Hst Hctx Hc Hdef. unfold handleJobFinished.
  rewrite Hst. cbn [Z.eqb]. unfold exec.
  erewrite run_bind; [|unfold job_switch; rewrite run_getS, Harg;
    apply run_handleJobFinishedAttachExtended; by eapply Safe_pending].
  unfold finalize. cbn. rewrite Hctx.
  erewrite run_bind; [|by apply run_get_conn]. rewrite Hdef, bool_decide_eq_true_2 by done.
  erewrite run_bind; [|done]. erewrite run_bind; [|by apply run_upd_conn]. done.
Qed.

Lemma extended_attach_refused_witness :
  let s := exec (run_all demo_slave_events) (demo_start true) in
  exists j cn d,
    sb_mQueue s = [j] /\ job_ctx j = Some 1 /\ sb_conns s !! 1 = Some cn /\
    cn_mState cn = CS_DEFERRED /\ job_arg j = JA_AttachExtended (mkPulse 24 100000 0 0) d zero_connInfo 0 /\
    sb_out (exec (handleJobFinished j) s) =
      sb_out s ++ [O_deferred 1 (mkResponse 0 (sb_code FNDInternalError) PL_none)].
Proof.
  intros s. eexists _, _, _.
  split; [by vm_compute|]. split; [reflexivity|]. split; [by vm_compute|].
  split; [reflexivity|]. split; [reflexivity|].
  eapply (extended_attach_refused any_event true None (-1) false false (0, 0));
    [| reflexivity | reflexivity | reflexivity | by vm_compute | reflexivity].
  apply reachable_run_all; [constructor | by repeat constructor | exact demo_slave_enabled].
Defined.
