(* ===== verification/Protocol.v ===== *)
(** The request/response protocol: every request is answered once.

    A handler starts with a message in [State_PROCESSING] ([Open]) and ends with it
    sent or deferred ([Done]), and on the way never trips an assertion of the
    message context ([F_message]): it does not answer twice, nor read or write the
    message after answering. *)

From S2P Require Import Prelude.
From S2P Require Import Layout.
From S2P Require Import Types.
From S2P Require Import ServerList.
From S2P Require Import ConfigFile.
From S2P Require Import ClientData.
From S2P Require Import JobQueue.
From S2P Require Import Environment.
From S2P Require Import PulseChannelManager.
From S2P Require Import NotificationPool.
From S2P Require Import MessageContext.
From S2P Require Import State.
From S2P Require Import Notifications.
From S2P Require Import Registration.
From S2P Require Import Notify.
From S2P Require Import Attach.
From S2P Require Import Jobs.
From S2P Require Import Dispatch.
From S2P Require Import System.
From S2P Require Import Frames.

(** Being processed; with [g] the read position is set as well. *)
Definition open_on (g : bool) (x : MessageContext * list Fault) : Prop :=
  mc_mState x.1 = State_PROCESSING /\ 0 <= mc_mPutOffset x.1 /\
  (g = true -> 0 <= mc_mGetOffset x.1) /\ x.2 = [].

Definition done_on (x : MessageContext * list Fault) : Prop := answered x.1 /\ x.2 = [].

Definition Open (g : bool) (s : SB) : Prop := open_on g (msg_part s).

Definition Done (s : SB) : Prop := done_on (msg_part s).

(** ** Leaves *)

Lemma keeps_Open {A} g (m : M A) : keeps msg_part m -> preserves (Open g) m.
Proof. apply (preserves_on msg_part (open_on g)). Qed.

Lemma keeps_Done {A} (m : M A) : keeps msg_part m -> preserves Done m.
Proof. apply (preserves_on msg_part done_on). Qed.

Lemma keeps_msg_base {A} (m : M A) : keeps base m -> keeps msg_part m.
Proof. apply (keeps_via base msg_part (fun b => (sb_msg b, sb_faults b))). done. Qed.

#[export] Hint Extern 4 (keeps msg_part _) =>
  (apply keeps_msg_base; solve [eauto with preserve nocore]) : preserve.
#[export] Hint Extern 4 (preserves (Open _) _) =>
  (apply keeps_Open; solve [eauto with preserve nocore]) : preserve.
#[export] Hint Extern 4 (preserves Done _) =>
  (apply keeps_Done; solve [eauto with preserve nocore]) : preserve.

(** What [with_msg] does when the assertion holds. *)
Lemma run_with_msg {A} (g : MessageContext -> bool * A * MessageContext) s :
  (g (sb_msg s)).1.1 = true ->
  with_msg g s = ((g (sb_msg s)).1.2, s <| sb_msg := (g (sb_msg s)).2 |>).
Proof.
  intros Hok. unfold with_msg. rewrite run_getS. destruct (g (sb_msg s)) as [[ok a] m].
  cbn in Hok. subst ok. by rewrite run_modify.
Qed.

Lemma run_with_msg_ (g : MessageContext -> bool * MessageContext) s :
  (g (sb_msg s)).1 = true ->
  with_msg_ g s = (tt, s <| sb_msg := (g (sb_msg s)).2 |>).
Proof.
  intros Hok. unfold with_msg_. rewrite run_with_msg; destruct (g (sb_msg s)) as [ok m]; done.
Qed.

Lemma Open_prepareResponse g v : triple (Open g) (prepareResponse v) (fun _ => Done).
Proof.
  intros s (H1 & H2 & H3 & H4). cbn in H1. unfold exec, prepareResponse.
  rewrite run_with_msg_ by by cbn; rewrite H1. split; [by left | done].
Qed.

Lemma Open_prepareResponse_data g v d len :
  d <> PL_none -> triple (Open g) (prepareResponse_data v d len) (fun _ => Done).
Proof.
  intros Hd s (H1 & H2 & H3 & H4). cbn in H1. unfold exec, prepareResponse_data.
  rewrite run_with_msg_; [split; [by left | done]|]. cbn. rewrite H1. by destruct d.
Qed.

Lemma Open_deferResponse g : triple (Open g) deferResponse (fun _ => Done).
Proof. intros s (H1 & H2 & H3 & H4). split; [by right | done]. Qed.

Lemma Done_deferResponse : preserves Done deferResponse.
Proof. split. intros s [H1 H2]. split; [by right | done]. Qed.

Lemma ancillary_size_pos a : 0 <= ancillary_size a.
Proof. by destruct a. Qed.

Lemma Open_writeAncillaryData g a : preserves (Open g) (writeAncillaryData a).
Proof.
  split. intros s (H1 & H2 & H3 & H4). cbn in H1, H2. unfold exec, writeAncillaryData.
  rewrite run_with_msg_.
  - split_and!; [done | | done..]. cbn. pose proof (ancillary_size_pos a). lia.
  - cbn. rewrite H1. by apply Z.leb_le.
Qed.

Lemma Open_readAncillaryData len : 0 <= len -> preserves (Open true) (readAncillaryData len).
Proof.
  intros Hlen. split. intros s (H1 & H2 & H3 & H4). cbn in H1, H3. unfold exec, readAncillaryData.
  rewrite run_with_msg.
  - unfold mc_readAncillaryData. cbn [fst snd].
    destruct (0 <? _); split_and!; try done. intros _. cbn. specialize (H3 eq_refl). lia.
  - cbn. rewrite H1. by apply Z.leb_le, H3.
Qed.

#[export] Hint Resolve Open_writeAncillaryData Done_deferResponse : preserve.
#[export] Hint Extern 2 (preserves (Open true) (readAncillaryData _)) =>
  (apply Open_readAncillaryData; done) : preserve.

(** Walk through a handler: operations before the answer preserve [Open], the
    answer leads to [Done], operations behind it preserve [Done]. *)
Ltac answer_step :=
  cbv zeta beta;
  lazymatch goal with
  | |- triple (Open _) (mbind _ getS) _ => apply triple_read; intros ? ?
  | |- triple (Open _) (mbind _ (prepareResponse _)) _ =>
    eapply triple_bind; [apply Open_prepareResponse | intros ?; apply (triple_preserves Done); preserve]
  | |- triple (Open _) (mbind _ (prepareResponse_data _ _ _)) _ =>
    eapply triple_bind; [by apply Open_prepareResponse_data | intros ?; apply (triple_preserves Done); preserve]
  | |- triple (Open _) (mbind _ deferResponse) _ =>
    eapply triple_bind; [apply Open_deferResponse | intros ?; apply (triple_preserves Done); preserve]
  | |- triple (Open ?g) (mbind _ _) _ =>
    eapply (triple_bind _ _ _ (fun _ => Open g));
    [apply (triple_preserves (Open g)); solve [preserve] | intros ?]
  | |- triple (Open _) (prepareResponse _) _ => apply Open_prepareResponse
  | |- triple (Open _) (prepareResponse_data _ _ _) _ => by apply Open_prepareResponse_data
  | |- triple (Open _) deferResponse _ => apply Open_deferResponse
  | |- triple (Open _) (match ?x with _ => _ end) _ => destruct x eqn:?
  end.
Ltac answer := repeat answer_step.

(** ** The operations shared by the handlers *)

Section operations.
Context `{Env}.

Lemma keeps_msg_unregisterInterfaceMaster m : keeps msg_part (unregisterInterfaceMaster m).
Proof. unfold unregisterInterfaceMaster. preserve. Qed.

Lemma keeps_msg_construct : keeps msg_part construct_ServerListEntry.
Proof. unfold construct_ServerListEntry. preserve. Qed.

Lemma keeps_msg_send_registrations l : keeps msg_part (send_registrations l).
Proof. unfold send_registrations. preserve. Qed.

#[local] Hint Resolve keeps_msg_unregisterInterfaceMaster keeps_msg_construct
  keeps_msg_send_registrations : preserve.

Lemma keeps_msg_register_loop cfg l d : keeps msg_part (register_loop cfg l d).
Proof. revert d. induction l; intros d; cbn [register_loop]; preserve; auto. Qed.

#[local] Hint Resolve keeps_msg_register_loop : preserve.

Lemma keeps_msg_registerInterfacesMaster : keeps msg_part registerInterfacesMaster.
Proof. unfold registerInterfacesMaster. preserve. Qed.

Lemma keeps_msg_addInterface c d p ch l g : keeps msg_part (addInterface c d p ch l g).
Proof. unfold addInterface. preserve. Qed.

Lemma keeps_msg_notify_available c p d b e : keeps msg_part (notify_available c p d b e).
Proof. unfold notify_available, add_ifDescr. preserve. Qed.

#[local] Hint Resolve keeps_msg_notify_available : preserve.

Lemma keeps_msg_handleNotifyServerDisconnectNoResponse c id p :
  keeps msg_part (handleNotifyServerDisconnectNoResponse c id p).
Proof. unfold handleNotifyServerDisconnectNoResponse, bind_disconnect_pool, add_party. preserve. Qed.

Lemma keeps_msg_handleNotifyServerAvailableNoResponse c p d :
  keeps msg_part (handleNotifyServerAvailableNoResponse c p d).
Proof. unfold handleNotifyServerAvailableNoResponse. preserve. Qed.

Lemma keeps_msg_notifyAvailableEx_one c n : keeps msg_part (notifyAvailableEx_one c n).
Proof. unfold notifyAvailableEx_one. preserve. Qed.

Lemma keeps_msg_addClient old c id : keeps msg_part (addClient old c id).
Proof. unfold addClient. preserve. Qed.

#[local] Hint Resolve keeps_msg_addClient : preserve.

Lemma keeps_msg_handleAttachLocalInterface c e : keeps msg_part (handleAttachLocalInterface c e).
Proof. unfold handleAttachLocalInterface. preserve. Qed.

Lemma keeps_msg_nextRequestID : keeps msg_part nextRequestID.
Proof. unfold nextRequestID. preserve. Qed.

Lemma keeps_msg_notify_first_match c id : keeps msg_part (notify_first_match c id).
Proof. unfold notify_first_match. preserve. Qed.

Lemma Open_match_loop g cn re n l r : preserves (Open g) (match_loop cn re n l r).
Proof. revert r. induction l; intros r; cbn [match_loop]; preserve; auto. Qed.

End operations.

#[export] Hint Resolve keeps_msg_unregisterInterfaceMaster keeps_msg_construct
  keeps_msg_registerInterfacesMaster keeps_msg_addInterface keeps_msg_notify_available
  keeps_msg_handleNotifyServerDisconnectNoResponse keeps_msg_handleNotifyServerAvailableNoResponse
  keeps_msg_notifyAvailableEx_one keeps_msg_addClient keeps_msg_handleAttachLocalInterface
  keeps_msg_nextRequestID keeps_msg_notify_first_match Open_match_loop : preserve.

(** ** Handlers that answer on the way *)

Section handlers.
Context `{Env}.

(** [true]: still open; [false]: answered. *)
Definition open_or_done (g b : bool) : SB -> Prop := if b then Open g else Done.

Lemma answer_registerEx_loop fuel k c a items :
  triple (Open true) (registerEx_loop fuel k c a items) (open_or_done true).
Proof.
  revert k. induction fuel as [|fuel IH]; intros k; cbn [registerEx_loop]; [by intros s|].
  answer_step. destruct (_ =? -1); [|answer; apply IH].
  eapply triple_bind; [apply Open_prepareResponse|]. by intros _ s.
Qed.

Lemma answer_notifyAvailableEx_loop fuel k c items :
  triple (Open true) (notifyAvailableEx_loop fuel k c items) (open_or_done true).
Proof.
  revert k. induction fuel as [|fuel IH]; intros k; cbn [notifyAvailableEx_loop]; [by intros s|].
  answer_step. destruct (_ =? -1); [|answer; apply IH].
  eapply triple_bind; [apply Open_prepareResponse|]. by intros _ s.
Qed.

Lemma Open_registerMaster_loop fuel k c items :
  preserves (Open true) (registerMaster_loop fuel k c items).
Proof.
  revert k. induction fuel; intros k; cbn [registerMaster_loop]; preserve; auto.
  unfold registerMaster_one. preserve.
Qed.

Lemma Open_setGetOffset off g : 0 <= off -> triple (Open g) (setGetOffset off) (fun _ => Open true).
Proof. intros Hoff s (H1 & H2 & H3 & H4). split_and!; done. Qed.

End handlers.

(** Being processed or deferred: the extended attach decides at its end. *)
Definition pending_on (x : MessageContext * list Fault) : Prop :=
  open_on false x \/ (mc_mState x.1 = State_DEFERRED /\ x.2 = []).

Definition Pending (s : SB) : Prop := pending_on (msg_part s).

Lemma keeps_Pending {A} (m : M A) : keeps msg_part m -> preserves Pending m.
Proof. apply (preserves_on msg_part pending_on). Qed.

#[export] Hint Extern 4 (preserves Pending _) =>
  (apply keeps_Pending; solve [eauto with preserve nocore]) : preserve.

Lemma Pending_deferResponse : preserves Pending deferResponse.
Proof. split. intros s [(H1 & H2 & H3 & H4)|[H1 H2]]; right; done. Qed.

#[export] Hint Resolve Pending_deferResponse : preserve.

Section extended.
Context `{Env}.

Lemma Pending_forwardAttachExtendedToMaster c p d :
  preserves Pending (forwardAttachExtendedToMaster c p d).
Proof. unfold forwardAttachExtendedToMaster, forwardAttachExtended_job, add_ifDescr. preserve. Qed.

#[local] Hint Resolve Pending_forwardAttachExtendedToMaster : preserve.

Lemma answer_handleAttachInterfaceExtended c p d :
  triple (Open false) (handleAttachInterfaceExtended c p d) (fun _ => Done).
Proof.
  unfold handleAttachInterfaceExtended. apply triple_read. intros s0 _. cbv zeta.
  apply (triple_pre _ Pending); [|by left].
  eapply (triple_bind _ _ _ (fun _ => Pending)); [apply (triple_preserves Pending); preserve|].
  intros [[result connInfo] id]. intros s Hs. rewrite exec_bind. cbn [fst snd eval exec getS].
  case_bool_decide as Hdef.
  - destruct Hs as [(H1 & _)|[H1 H2]]; [cbn in H1; unfold responseState in Hdef; congruence|].
    split; [by right | done].
  - destruct Hs as [Hs|[H1 _]]; [|done]. revert Hs. generalize s.
    destruct (_ || _); [by apply Open_prepareResponse_data | apply Open_prepareResponse].
Qed.

(** A request whose pattern [regcomp] rejects trips an assertion. *)
Definition compilable (r : Request) : Prop :=
  match r with RQ_MatchInterfaceList _ re => env_regcomp (cstr re) = 0 | _ => True end.

(** A request some handler is called for. *)
Definition handled (r : Request) : bool :=
  match r with RQ_MasterPing | RQ_Unknown _ => false | _ => true end.

Lemma answer_run_handler c r :
  compilable r -> handled r = true -> triple (Open false) (run_handler c r) (fun _ => Done).
Proof.
  intros Hre Hh. destruct r; try done; cbn [run_handler].
  - unfold handleRegisterInterface. answer.
  - eapply triple_bind; [by apply Open_setGetOffset|]. intros u. unfold handleRegisterInterfaceEx.
    eapply triple_bind; [apply answer_registerEx_loop|]. intros [|]; cbn [open_or_done]; [answer | by intros s].
  - unfold handleRegisterInterfaceGroupID. apply triple_read. intros s0 _. cbv zeta.
    eapply triple_bind with (R := fun b : bool => if b then Done else Open false).
    { destruct (check_ifDescription _ _); [|by intros s]. answer_step.
      destruct (negb _); [by intros s|]. do 2 answer_step.
      destruct a1; [|by intros s].
      eapply triple_bind; [by apply Open_prepareResponse_data|]. by intros u s1. }
    intros [|]; cbn [negb]; [by intros s | answer].
  - unfold handleUnregisterInterface. answer_step.
    eapply triple_bind with (R := fun b : bool => if b then Done else Open false).
    { destruct (cd_serverExists _ _); [|by intros s]. do 2 answer_step.
      destruct (sl_find_party _ _); [|by intros s1]. do 5 answer_step.
      eapply triple_bind; [by apply Open_prepareResponse|]. intros u.
      eapply triple_bind; [apply (triple_preserves Done); preserve|]. by intros ? s'. }
    intros [|]; cbn [negb]; [by intros s | answer].
  - unfold handleAttachInterface. answer.
  - apply answer_handleAttachInterfaceExtended.
  - unfold handleGetServerInformation. answer.
  - unfold handleDetachInterface. answer.
  - unfold handleNotifyServerDisconnect. answer.
  - unfold handleNotifyServerAvailable. answer.
  - eapply triple_bind; [by apply Open_setGetOffset|]. intros u.
    unfold handleNotifyServerAvailableEx.
    eapply triple_bind; [apply answer_notifyAvailableEx_loop|]. intros [|]; cbn [open_or_done]; [answer | by intros s].
  - unfold handleNotifyClientDetach, add_party. answer.
  - unfold handleClearNofification. answer.
  - eapply triple_bind; [by apply Open_setGetOffset|]. intros u.
    unfold handleRegisterMasterInterface.
    eapply (triple_bind _ _ _ (fun _ => Open true));
      [apply (triple_preserves (Open true)), Open_registerMaster_loop|]. intros b. answer.
  - unfold handleGetInterfaceList. answer.
  - unfold handleNotifyInterfaceListChange, add_plain. answer.
  - unfold handleMatchInterfaceList. answer_step. cbn in Hre. rewrite Hre. cbn [Z.eqb negb].
    answer.
  - unfold handleNotifyInterfaceListMatch. answer.
  - unfold handleMasterPingId. answer.
Qed.

End extended.

(** ** dispatch *)

(** A message as [eval] creates it, in a state without misuse so far. *)
Definition fresh_on (x : MessageContext * list Fault) : Prop :=
  mc_mState x.1 = State_INITIAL /\ 0 <= mc_mPutOffset x.1 /\ x.2 = [].

Definition Fresh (s : SB) : Prop := fresh_on (msg_part s).

Lemma Done_ensure_answered g : triple (Open g) ensure_answered (fun _ => Done).
Proof.
  unfold ensure_answered. apply triple_read. intros s (H1 & _). cbn in H1.
  unfold responseState. rewrite H1. rewrite !bool_decide_eq_false_2 by done. cbn [orb]. intros s' (H1' & H2 & H3 & H4).
  unfold exec, prepareResponse_force. rewrite run_with_msg_ by done. split; [by left | done].
Qed.

Lemma Done_ensure_answered_done s : Done s -> exec ensure_answered s = s.
Proof.
  intros [[Ha|Ha] _]; unfold exec, ensure_answered; rewrite run_getS; unfold responseState;
    cbn in Ha; by rewrite Ha.
Qed.

Section dispatching.
Context `{Env}.

Lemma Fresh_readData len : triple Fresh (readData len) (fun _ => Open false).
Proof.
  intros s (H1 & H2 & H3). cbn in H1. unfold exec, readData.
  rewrite run_with_msg by by cbn; rewrite H1.
  by split_and!.
Qed.

Lemma force_done v P :
  (forall s, P s -> sb_faults (base s) = []) ->
  triple P (prepareResponse_force v) (fun _ => Done).
Proof.
  intros HP s Hs. unfold exec, prepareResponse_force. rewrite run_with_msg_ by done.
  split; [by left | exact (HP s Hs)].
Qed.

Lemma Open_faults g s : Open g s -> sb_faults (base s) = [].
Proof. by intros (_ & _ & _ & ?). Qed.

Lemma answer_dispatch_command c cmd f :
  compilable (fr_request f) -> handled (fr_request f) = true ->
  triple Fresh (dispatch_command c cmd f) (fun _ => Done).
Proof.
  intros Hre Hh. unfold dispatch_command.
  eapply triple_bind; [apply Fresh_readData|]. intros nBytes.
  pose proof (force_done (sb_code FNDBadFoundationVersion) _ (Open_faults false)).
  pose proof (force_done (sb_code FNDInternalError) _ (Open_faults false)).
  destruct (0 <=? nBytes); [|done]. destruct (_ && _); [|done].
  destruct (size_ok cmd nBytes); cbn [whenM].
  - eapply triple_bind; [by apply answer_run_handler|]. intros u s Hs.
    by rewrite Done_ensure_answered_done.
  - eapply (triple_bind _ _ _ (fun _ => Open false)); [by intros s|]. intros u.
    apply Done_ensure_answered.
Qed.

(** What [eval] does first. *)
Lemma Fresh_new_message size d s :
  sb_faults (base s) = [] -> Fresh (s <| sb_msg := new_MessageContext size d |>).
Proof. intros Hs. by split_and!. Qed.

Lemma Fresh_faults s : Fresh s -> sb_faults (base s) = [].
Proof. by intros (_ & _ & ?). Qed.

Lemma keeps_msg_slave c : keeps msg_part (upd_conn c (fun cn => cn <| cn_mSlave := true |>)).
Proof. preserve. Qed.

Lemma dispatch_unhandled c f :
  handled (fr_request f) = false -> triple Fresh (dispatch c f) (fun _ => Done).
Proof.
  intros Hh. unfold dispatch. destruct (fr_request f); try done; cbn [request_dcmd].
  - eapply (triple_bind _ _ _ (fun _ => Fresh)).
    { apply (triple_keeps msg_part _ fresh_on), keeps_msg_slave. }
    intros u. eapply triple_bind; [apply force_done, Fresh_faults|]. by intros u' s.
  - eapply triple_bind; [apply force_done, Fresh_faults|]. by intros u s.
Qed.

Lemma dispatch_Done c f :
  compilable (fr_request f) -> triple Fresh (dispatch c f) (fun _ => Done).
Proof.
  intros Hre. destruct (handled (fr_request f)) eqn:Hh; [|by apply dispatch_unhandled].
  unfold dispatch. pose proof (fun cmd => answer_dispatch_command c cmd f Hre Hh) as Hd.
  destruct (request_dcmd (fr_request f)) as [cmd|] eqn:Hcmd; [|by destruct (fr_request f)].
  destruct cmd; try (eapply triple_bind; [apply Hd|]; by intros u s).
  by destruct (fr_request f).
Qed.

End dispatching.

(** ** Events *)

(** The [F_message] faults so far. *)
Definition message_faults (s : SB) : list Fault := sb_faults (base s).

Lemma keeps_faults_base {A} (m : M A) : keeps base m -> keeps message_faults m.
Proof. by apply (keeps_via base message_faults sb_faults). Qed.

Lemma keeps_faults_msg {A} (m : M A) : keeps msg_part m -> keeps message_faults m.
Proof. by apply (keeps_via msg_part message_faults snd). Qed.

#[export] Hint Extern 4 (keeps message_faults _) =>
  (first [apply keeps_faults_base; solve [eauto with preserve nocore]
         |apply keeps_faults_msg; solve [eauto with preserve nocore]]) : preserve.

(** Every request of the event is answered without an assertion. *)
Definition compilable_event `{Env} (ev : Event) : Prop :=
  match ev with Ev_request _ f _ => compilable (fr_request f) | _ => True end.

Section events.
Context `{Env}.

Lemma keeps_faults_finished_NotifyServerAvailableEx j o :
  keeps message_faults (finished_NotifyServerAvailableEx j o).
Proof. unfold finished_NotifyServerAvailableEx. preserve. Qed.

Lemma keeps_faults_finished_NotifyServerDisconnect j id :
  keeps message_faults (finished_NotifyServerDisconnect j id).
Proof. unfold finished_NotifyServerDisconnect. preserve. Qed.

Lemma keeps_faults_finished_Notify k j id : keeps message_faults (finished_Notify k j id).
Proof. unfold finished_Notify. preserve. Qed.

Lemma keeps_faults_finished_RegisterMasterEx j o :
  keeps message_faults (finished_RegisterMasterEx j o).
Proof. unfold finished_RegisterMasterEx. preserve. Qed.

Lemma keeps_faults_job_conn j : keeps message_faults (job_conn j).
Proof. unfold job_conn. preserve. Qed.

#[local] Hint Resolve keeps_faults_finished_NotifyServerAvailableEx
  keeps_faults_finished_NotifyServerDisconnect keeps_faults_finished_Notify
  keeps_faults_finished_RegisterMasterEx keeps_faults_job_conn : preserve.

Lemma keeps_faults_attachExtended j p d o id :
  keeps message_faults (handleJobFinishedAttachExtended j p d o id).
Proof.
  unfold handleJobFinishedAttachExtended, attachExtended_consistent, handleMasterServerAvailable.
  preserve.
Qed.

#[local] Hint Resolve keeps_faults_attachExtended : preserve.

Lemma keeps_faults_handleJobFinished j : keeps message_faults (handleJobFinished j).
Proof. unfold handleJobFinished, job_switch, finalize. preserve. Qed.

Lemma keeps_faults_trigger_unknown_servers : keeps base trigger_unknown_servers.
Proof. base_list. Qed.

#[local] Hint Resolve keeps_faults_handleJobFinished keeps_faults_trigger_unknown_servers : preserve.

Lemma keeps_faults_dispatch_pulse code v j : keeps message_faults (dispatch_pulse code v j).
Proof.
  unfold dispatch_pulse, handleMasterConnected, handleMasterDisconnected,
    handleMasterServerAvailable, handleMasterServerDisconnect, handleMasterClientDetach,
    handleMasterServerlistChange, handleMasterAttachExtended,
    handleMasterServerDisconnect, handleMasterServerAvailable.
  preserve.
Qed.

Lemma keeps_faults_close_client c : keeps message_faults (close_client c).
Proof. unfold close_client, clear, clear_client, clear_server. preserve. Qed.

#[local] Hint Resolve keeps_faults_dispatch_pulse keeps_faults_close_client : preserve.

Lemma faults_eval_request c f wr s :
  compilable (fr_request f) -> message_faults s = [] ->
  message_faults (exec (eval_request c f wr) s) = [].
Proof.
  intros Hre. set (P := fun s => message_faults s = []).
  change (P s -> P (exec (eval_request c f wr) s)). intros Hs.
  apply (triple_exec P P); [done|]. clear s Hs. unfold eval_request.
  eapply (triple_bind _ _ _ (fun _ => Fresh)); [intros s Hs; by apply Fresh_new_message|].
  intros u. eapply triple_bind; [by apply dispatch_Done|]. intros found.
  apply (triple_pre _ P); [|by intros s [_ ?]].
  apply (triple_preserves P), (preserves_on message_faults (fun x => x = [])).
  unfold eval_ping_id, removeClient, addSlaveClient, evaluateWriteResult. preserve.
Qed.

#[local] Hint Extern 1 (keeps message_faults (emit _)) =>
  (apply keeps_modify; intros; reflexivity) : preserve.

Lemma keeps_faults_events ev :
  match ev with Ev_request _ _ _ => False | _ => True end -> keeps message_faults (run ev).
Proof.
  destruct ev; intros Hev; [..|]; cbn [run].
  - unfold new_client. preserve.
  - unfold handleCredentials. preserve.
  - destruct Hev.
  - unfold handleWrite. preserve.
  - preserve.
  - preserve.
  - unfold job_done. preserve.
  - preserve.
  - preserve.
Qed.

Lemma faults_run ev s :
  compilable_event ev -> message_faults s = [] -> message_faults (exec (run ev) s) = [].
Proof.
  intros Hre Hs. pose proof (keeps_faults_events ev) as Hk.
  destruct ev as [| |c f wr| | | | | |];
    try exact (eq_trans (run_keeps _ _ (Hk I) s) Hs).
  exact (faults_eval_request c f wr s Hre Hs).
Qed.

End events.

Lemma no_message_fault s : F_message ∉ sb_faults s <-> message_faults s = [].
Proof.
  unfold message_faults, base. cbn. split.
  - intros Hn. apply elem_of_nil_inv. by intros k [-> Hk]%list_elem_of_filter.
  - intros Hn Hin. assert (F_message ∈ filter (fun k => k = F_message) (sb_faults s)) as Hf
      by by apply list_elem_of_filter. rewrite Hn in Hf. by apply not_elem_of_nil in Hf.
Qed.

(** ** Properties *)

(** C13. Every request is answered exactly once: from a fresh message, [dispatch] ends
    with the response sent or deferred, and no assertion of the message context
    fails on the way (answering twice, or reading and writing after the answer),
    for every command, length and content, provided [regcomp] accepts the pattern of
    a [MATCH_INTERFACELIST]. *)
Theorem dispatch_answers_once `{Env} c f s :
  mc_mState (sb_msg s) = State_INITIAL -> 0 <= mc_mPutOffset (sb_msg s) ->
  F_message ∉ sb_faults s -> compilable (fr_request f) ->
  answered (sb_msg (exec (dispatch c f) s)) /\ F_message ∉ sb_faults (exec (dispatch c f) s).
Proof.
  intros H1 H2 H3 Hre.
  rewrite no_message_fault in *. by apply (dispatch_Done c f Hre).
Qed.

Lemma dispatch_answers_once_witness :
  let s := new_SB <| sb_msg := new_MessageContext 280 (mkResponse 0 11 PL_none) |>
                  <| sb_conns := {[ 1 := new_Connection 0 0 ]} |> in
  answered (sb_msg (exec (dispatch 1 (demo_frame demo_register)) s)) /\
  F_message ∉ sb_faults (exec (dispatch 1 (demo_frame demo_register)) s).
Proof.
  intros s. apply (dispatch_answers_once 1 (demo_frame demo_register) s);
    [reflexivity | done | apply not_elem_of_nil | exact I].
Defined.

(** Along any run whose [MATCH_INTERFACELIST] patterns compile, no assertion of the
    message context ever fails. *)
Lemma reachable_no_message_misuse `{Env} slave file id cacheOpt asyncOpt sig s :
  reachable compilable_event (start slave file id cacheOpt asyncOpt sig) s ->
  F_message ∉ sb_faults s.
Proof.
  intros Hr. apply no_message_fault. revert s Hr.
  apply (reachable_inv compilable_event (fun s => message_faults s = [])); [done|].
  intros s ev Hok _. by apply faults_run.
Qed.

Lemma reachable_no_message_misuse_witness :
  reachable compilable_event (demo_start false) demo_state /\ F_message ∉ sb_faults demo_state.
Proof.
  assert (Hr : reachable compilable_event (demo_start false) demo_state).
  { apply reachable_run_all; [constructor | by repeat constructor | exact demo_enabled]. }
  split; [exact Hr | exact (reachable_no_message_misuse _ _ _ _ _ _ _ Hr)].
Defined.

(** A [MATCH_INTERFACELIST] whose pattern [regcomp] rejects fails an assertion:
    the handler answers with a null data pointer, which [AutoBuffer::write] refuses. *)
Lemma invalid_pattern_asserts `{Env} c n re s :
  env_regcomp (cstr re) <> 0 ->
  F_message ∈ sb_faults (exec (handleMatchInterfaceList c n re) s).
Proof.
  intros Hre. unfold handleMatchInterfaceList, exec. rewrite run_getS.
  rewrite (proj2 (Z.eqb_neq _ _)) by done. cbn [negb].
  unfold prepareResponse_data, with_msg_, with_msg, mc_prepareResponse_data. rewrite run_getS.
  rewrite andb_false_r. apply elem_of_cons. by left.
Qed.

Lemma invalid_pattern_asserts_witness :
  env_regcomp (cstr [91; 0]) <> 0 /\
  F_message ∈ sb_faults (exec (handleMatchInterfaceList 1 0 [91; 0]) demo_state).
Proof. split; [done | by apply (invalid_pattern_asserts 1 0 [91; 0] demo_state)]. Defined.

(** A request of the wrong protocol version is answered with
    [FNDBadFoundationVersion] and changes nothing but the message. *)
Lemma dispatch_bad_version `{Env} c f s cmd :
  request_dcmd (fr_request f) = Some cmd -> cmd <> DCMD_FND_MASTER_PING ->
  mc_mState (sb_msg s) = State_INITIAL -> 0 < mc_size (sb_msg s) ->
  check_version (fr_sbVersion f) = false ->
  dispatch c f s =
    (true, s <| sb_msg := snd (mc_prepareResponse (sb_code FNDBadFoundationVersion) true
                                 (sb_msg s <| mc_mState := State_PROCESSING |>)) |>).
Proof.
  intros Hcmd Hping Hst Hsize Hv. unfold dispatch. rewrite Hcmd.
  assert (Hd : dispatch_command c cmd f s =
    (tt, s <| sb_msg := snd (mc_prepareResponse (sb_code FNDBadFoundationVersion) true
                               (sb_msg s <| mc_mState := State_PROCESSING |>)) |>)).
  { unfold dispatch_command, readData.
    erewrite run_bind; [|apply run_with_msg; cbn; by rewrite Hst].
    assert (Hrc : 0 <= buffer_read (mc_size (sb_msg s)) rcvBuffer_size 0).
    { apply Z.lt_le_incl, buffer_read_pos; [by vm_compute | done]. }
    cbn [mc_readData fst snd]. rewrite (proj2 (Z.leb_le _ _)) by done. rewrite Hv, andb_false_r.
    unfold prepareResponse_force. by rewrite run_with_msg_. }
  destruct cmd; try done; by erewrite run_bind.
Qed.

Lemma dispatch_bad_version_witness :
  let s := new_SB <| sb_msg := new_MessageContext 280 (mkResponse 0 11 PL_none) |> in
  exists m, dispatch 1 (mkFrame 280 (mkVersion 3 0) demo_register) s = (true, s <| sb_msg := m |>).
Proof.
  intros s. eexists.
  apply (dispatch_bad_version 1 (mkFrame 280 (mkVersion 3 0) demo_register) s
           DCMD_FND_REGISTER_INTERFACE); done.
Defined.

(** A request whose length does not fit its command is answered with
    [FNDInternalError] and never reaches a handler: nothing but the message changes. *)
Lemma dispatch_bad_size `{Env} c f s cmd :
  request_dcmd (fr_request f) = Some cmd -> cmd <> DCMD_FND_MASTER_PING ->
  mc_mState (sb_msg s) = State_INITIAL ->
  sizeof lay_SFNDInterfaceVersion <= mc_size (sb_msg s) ->
  check_version (fr_sbVersion f) = true ->
  size_ok cmd (buffer_read (mc_size (sb_msg s)) rcvBuffer_size 0) = false ->
  dispatch c f s =
    (true, s <| sb_msg := snd (mc_prepareResponse (sb_code FNDInternalError) true
                                 (sb_msg s <| mc_mState := State_PROCESSING |>)) |>).
Proof.
  intros Hcmd Hping Hst Hsize Hv Hbad. unfold dispatch. rewrite Hcmd.
  assert (Hd : dispatch_command c cmd f s =
    (tt, s <| sb_msg := snd (mc_prepareResponse (sb_code FNDInternalError) true
                               (sb_msg s <| mc_mState := State_PROCESSING |>)) |>)).
  { unfold dispatch_command, readData.
    erewrite run_bind; [|apply run_with_msg; cbn; by rewrite Hst].
    assert (Hrc : sizeof lay_SFNDInterfaceVersion <= buffer_read (mc_size (sb_msg s)) rcvBuffer_size 0).
    { unfold buffer_read. assert (0 < sizeof lay_SFNDInterfaceVersion <= rcvBuffer_size) by by vm_compute.
      destruct (Z.leb_spec (rcvBuffer_size + 0) (mc_size (sb_msg s))), (Z.ltb_spec 0 rcvBuffer_size),
        (Z.ltb_spec 0 (mc_size (sb_msg s) - 0)); lia. }
    assert (0 < sizeof lay_SFNDInterfaceVersion) by by vm_compute.
    cbn [mc_readData fst snd]. rewrite (proj2 (Z.leb_le 0 _)) by lia.
    rewrite (proj2 (Z.leb_le _ _)) by done. rewrite Hv. cbn [andb]. rewrite Hbad. cbn [whenM].
    erewrite (run_bind skip); [|reflexivity]. unfold ensure_answered. rewrite run_getS.
    rewrite !bool_decide_eq_false_2 by done. cbn [orb].
    unfold prepareResponse_force. by rewrite run_with_msg_. }
  clear Hbad Hv. destruct cmd; first [by destruct Hping | erewrite run_bind; [|exact Hd]; reflexivity].
Qed.

(** The client library sends [REGISTER_INTERFACE_GROUPID] as the bare request struct of
    284 bytes, four less than the union the length test asks for. *)
Lemma dispatch_bad_size_witness :
  let r := RQ_RegisterGroupID (mkRegisterGroupIDArg demo_descr (mkImplVersion 0 0 0) 7 100 0) in
  let n := sizeof (arg_i DCMD_FND_REGISTER_INTERFACE_GROUPID) in
  let s := new_SB <| sb_msg := new_MessageContext n (mkResponse 0 11 PL_none) |> in
  n = 284 /\ exists m, dispatch 1 (mkFrame n sb_version r) s = (true, s <| sb_msg := m |>) /\
    mc_response m = mkResponse 0 (sb_code FNDInternalError) PL_none.
Proof.
  intros r n s. split; [by vm_compute|]. eexists. split.
  - apply (dispatch_bad_size 1 (mkFrame n sb_version r) s DCMD_FND_REGISTER_INTERFACE_GROUPID);
      [reflexivity | discriminate | reflexivity | vm_compute; discriminate | by vm_compute | by vm_compute].
  - by vm_compute.
Defined.
