(* ===== verification/Registry.v ===== *)
(** What registering, unregistering and hanging up do to the table of servers.

    [table s] is the server table as a finite map from interface names, without the
    master's ids: whether a registration has already been announced to the master
    is not part of the contract.  The theorems give the new table, the answer and
    the caller's ownership for each outcome of a request. *)

From S2P Require Import Prelude.
From S2P Require Import Layout.
From S2P Require Import Types.
From S2P Require Import ServerList.
From S2P Require Import ConfigFile.
From S2P Require Import ClientData.
From S2P Require Import JobQueue.
From S2P Require Import Environment.
From S2P Require Import PulseChannelManager.
From S2P Require Import NotificationPool.
From S2P Require Import MessageContext.
From S2P Require Import State.
From S2P Require Import Notifications.
From S2P Require Import Registration.
From S2P Require Import Notify.
From S2P Require Import Attach.
From S2P Require Import Jobs.
From S2P Require Import Dispatch.
From S2P Require Import System.
From S2P Require Import Frames.
From S2P Require Import ServerInv.
From S2P Require Import Protocol.

Definition forget (e : ServerListEntry) : ServerListEntry :=
  e <| sv_masterID := party_of_global 0 |>.

(** The entries without the master's ids, in order. *)
Definition view (s : SB) : list ServerListEntry := forget <$> sl_mEntries (sb_mConnectedServers s).

Definition table (s : SB) : gmap bytes ServerListEntry := forget <$> sl_abs (sb_mConnectedServers s).

Lemma table_view s : table s = abs_entries (view s).
Proof.
  unfold table, sl_abs, abs_entries, view. rewrite <-list_to_map_fmap, <-!list_fmap_compose.
  f_equal.
Qed.

Lemma view_wf s : servers_wf s -> entries_wf (view s).
Proof. apply entries_wf_map. unfold view. rewrite <-list_fmap_compose. by apply list_fmap_ext. Qed.

Lemma table_lookup_None s n : table s !! n = None <-> sl_abs (sb_mConnectedServers s) !! n = None.
Proof. unfold table. rewrite lookup_fmap. by destruct (_ !! n). Qed.

(** *** What keeps the table *)

Lemma keeps_view_servers {A} (m : M A) : keeps sb_mConnectedServers m -> keeps view m.
Proof. by apply (keeps_via _ view (fun l => forget <$> sl_mEntries l)). Qed.

#[export] Hint Extern 4 (keeps view _) =>
  (apply keeps_view_servers; solve [eauto with preserve nocore]) : preserve.

(** The connections without their notification ids. *)
Definition conns (s : SB) : gmap Z Connection := sb_conns (base s).

Lemma keeps_conns_base {A} (m : M A) : keeps base m -> keeps conns m.
Proof. by apply (keeps_via base conns sb_conns). Qed.

#[export] Hint Extern 4 (keeps conns _) =>
  (apply keeps_conns_base; solve [eauto with preserve nocore]) : preserve.

Section register_loop.
Context `{Env}.

Lemma register_loop_view cfg l d s :
  forget <$> (eval (register_loop cfg l d) s).1 = forget <$> l.
Proof.
  revert d s. induction l as [|e l IH]; intros d s; cbn [register_loop]; [done|].
  destruct (to_forward cfg e); rewrite !eval_bind, eval_ret; cbn [fst fmap list_fmap]; f_equal; apply IH.
Qed.

Lemma keeps_view_registerInterfacesMaster : keeps view registerInterfacesMaster.
Proof.
  split. intros s. unfold registerInterfacesMaster. rewrite exec_bind. cbn [fst snd eval exec getS].
  destruct (isMasterConnected s); [|done]. rewrite !exec_bind.
  rewrite (run_keeps view); [|preserve]. rewrite exec_modify. unfold view. cbn.
  rewrite register_loop_view. done.
Qed.

Lemma keeps_conns_register_loop cfg l d : keeps conns (register_loop cfg l d).
Proof.
  revert d. induction l; intros d; cbn [register_loop]; unfold send_registrations; preserve; auto.
Qed.

#[local] Hint Resolve keeps_conns_register_loop : preserve.

Lemma keeps_conns_registerInterfacesMaster : keeps conns registerInterfacesMaster.
Proof. unfold registerInterfacesMaster, send_registrations. preserve. Qed.

End register_loop.

(** *** The response *)

Lemma msg_with_msg_ g s : sb_msg (exec (with_msg_ g) s) = (g (sb_msg s)).2.
Proof.
  unfold with_msg_, with_msg, exec. rewrite run_getS. destruct (g (sb_msg s)) as [[] m]; done.
Qed.

Lemma keeps_response {A} (m : M A) s : keeps msg_part m -> sb_msg (exec m s) = sb_msg s.
Proof. intros Hm. pose proof (run_keeps _ _ Hm s) as Heq. by injection Heq. Qed.

(** ** Registering *)

Section register.
Context `{Env}.

(** Ownership, as the unregister and hang-up code reads it. *)
Definition owns (c : Z) (id : SPartyID) (s : SB) : bool :=
  match sb_conns s !! c with Some cn => cd_serverExists id (cn_mData cn) | None => false end.

Lemma owns_base c id s s' : conns s' = conns s -> owns c id s' = owns c id s.
Proof.
  intros Heq. cbn in Heq. pose proof (f_equal (lookup c) Heq) as Hc. rewrite !lookup_fmap in Hc.
  unfold owns. destruct (sb_conns s' !! c) as [cn'|], (sb_conns s !! c) as [cn|]; try done.
  cbn in Hc. injection Hc as _ _ _ _ _ _ Hs _ _. unfold cd_serverExists. by rewrite Hs.
Qed.

(** What a handler sees after [addInterface] on a free name. *)
Lemma addInterface_free c d pid chid isLocal grpid s cn :
  sb_conns s !! c = Some cn -> servers_wf s -> is_cstring (id_name d) ->
  table s !! id_name d = None ->
  let e := new_entry s cn d pid chid isLocal grpid in
  let s' := exec (addInterface c d pid chid isLocal grpid) s in
  eval (addInterface c d pid chid isLocal grpid) s = Some (sv_partyID e) /\
  table s' = <[id_name d := forget e]> (table s) /\ owns c (sv_partyID e) s' = true.
Proof.
  intros Hc Hwf Hd Hfree e s'. rewrite table_lookup_None in Hfree.
  rewrite <-sl_find_name_spec in Hfree by done.
  pose proof (addInterface_run c d pid chid isLocal grpid s cn Hc Hfree) as Hrun.
  unfold s', exec, eval. rewrite Hrun. clear Hrun. fold e.
  set (m := trigger_ifDescr _ _ _;; _). set (s1 := added s c cn e).
  assert (Hk : keeps base m) by (unfold m; preserve).
  split; [change (eval m s1 = Some (sv_partyID e)); unfold m; by rewrite !eval_bind|]. split.
  - assert (Hsv : sb_mConnectedServers (m s1).2 = sl_add e (sb_mConnectedServers s)).
    { assert (keeps sb_mConnectedServers m) as Hm by (unfold m; preserve).
      exact (run_keeps _ _ Hm s1). }
    unfold table. rewrite Hsv, sl_add_abs by done. by rewrite fmap_insert.
  - rewrite (owns_base c _ s1); [|exact (f_equal sb_conns (run_keeps _ _ Hk s1))].
    unfold owns, s1, added. cbn. rewrite lookup_insert_eq.
    change (pl_exists (sv_partyID e) (pl_insert (sv_partyID e) (cd_mServerList (cn_mData cn))) = true).
    by rewrite pl_insert_exists, global_eqb_refl.
Qed.

Lemma addInterface_known c d pid chid isLocal grpid s e :
  servers_wf s -> is_cstring (id_name d) -> table s !! id_name d = Some e ->
  addInterface c d pid chid isLocal grpid s = (None, s).
Proof.
  intros Hwf Hd Hk. unfold table in Hk. rewrite lookup_fmap in Hk.
  destruct (sl_abs (sb_mConnectedServers s) !! id_name d) as [e'|] eqn:He; [|done].
  eapply addInterface_taken. rewrite sl_find_name_spec by done. exact He.
Qed.

End register.

(** ** Unregistering *)

(** At most one entry of the table has the id. *)
Definition unique_id (id : SPartyID) (s : SB) : Prop :=
  forall n1 n2 e1 e2, table s !! n1 = Some e1 -> table s !! n2 = Some e2 ->
    global_eqb (sv_partyID e1) id = true -> global_eqb (sv_partyID e2) id = true -> n1 = n2.

Lemma global_eqb_sym a b : global_eqb a b = global_eqb b a.
Proof. apply Z.eqb_sym. Qed.

Section unregister.
Context `{Env}.

(** Announcing or withdrawing at the master is invisible in [view]; removing is not. *)
Lemma view_remove id s s' :
  view s' = view s ->
  view (s' <| sb_mConnectedServers ::= sl_remove id |>) =
    erase_first (fun e => global_eqb (sv_partyID e) id) (view s).
Proof.
  intros <-. unfold view. cbn. induction (sl_mEntries _) as [|e l IH]; cbn; [done|].
  destruct (global_eqb (sv_partyID e) id) eqn:E; cbn; [done|]. by rewrite IH.
Qed.

Lemma view_update_master id m s :
  view (s <| sb_mConnectedServers ::= sl_update_party id (fun e => e <| sv_masterID := m |>) |>)
    = view s.
Proof. unfold view. cbn. by apply update_first_map. Qed.

Lemma view_clients f s : view (s <| sb_mAttachedClients ::= f |>) = view s.
Proof. done. Qed.

Lemma erase_view_table id n e s :
  servers_wf s -> table s !! n = Some e -> global_eqb (sv_partyID e) id = true -> unique_id id s ->
  abs_entries (erase_first (fun e => global_eqb (sv_partyID e) id) (view s)) = delete n (table s).
Proof.
  intros Hwf He Hid Hu. unfold unique_id in Hu. rewrite table_view in *.
  apply (sl_remove_abs (mkServerList (view s) 0) (view_wf s Hwf) id n e); [done..|].
  intros n' e' He' Hid'. by apply (Hu n' n e' e).
Qed.

Lemma find_party_table id n e s :
  servers_wf s -> table s !! n = Some e -> global_eqb (sv_partyID e) id = true ->
  exists x, sl_find_party id (sb_mConnectedServers s) = Some x.
Proof.
  intros Hwf He Hid. unfold sl_find_party. destruct (find_first _ _) as [x|] eqn:Hx; [by exists x|].
  rewrite find_first_None in Hx. exfalso. unfold table in He. rewrite lookup_fmap in He.
  destruct (sl_abs _ !! n) as [y|] eqn:Hy; [|done]. injection He as <-.
  apply abs_entries_Some in Hy as [Hy _]; [|done]. apply Hx in Hy. rewrite global_eqb_sym in Hy.
  cbn in Hid. congruence.
Qed.

Lemma keeps_view_unregisterInterfaceMaster m : keeps view (unregisterInterfaceMaster m).
Proof. unfold unregisterInterfaceMaster. preserve. Qed.

Lemma keeps_clients_unregisterInterfaceMaster m :
  keeps sb_mAttachedClients (unregisterInterfaceMaster m).
Proof. unfold unregisterInterfaceMaster. preserve. Qed.

(** The removal common to the request and the hang-up, after the entry was found. *)
Definition drop_server (id masterID : SPartyID) : M unit :=
  masterID ← unregisterInterfaceMaster masterID;
  modify (fun s => s <| sb_mConnectedServers ::=
    sl_update_party id (fun e => e <| sv_masterID := masterID |>) |>);;
  modify (fun s => s <| sb_mConnectedServers ::= sl_remove id |>);;
  modify (fun s => s <| sb_mAttachedClients ::= cl_removeServer id |>).

Lemma drop_server_view id m s :
  view (exec (drop_server id m) s) = erase_first (fun e => global_eqb (sv_partyID e) id) (view s).
Proof.
  unfold drop_server. rewrite !exec_bind, !exec_modify.
  rewrite view_clients. apply view_remove. rewrite view_update_master. apply keeps_view_unregisterInterfaceMaster.
Qed.

Lemma drop_server_clients id m s :
  sb_mAttachedClients (exec (drop_server id m) s) = cl_removeServer id (sb_mAttachedClients s).
Proof.
  unfold drop_server. rewrite !exec_bind, !exec_modify. cbn.
  by rewrite (run_keeps _ _ (keeps_clients_unregisterInterfaceMaster m)).
Qed.

End unregister.

(** ** The requests *)

Section requests.
Context `{Env}.

(** What preparing a response leaves alone. *)
Lemma view_prepareResponse_data v d n s : view (exec (prepareResponse_data v d n) s) = view s.
Proof. apply (run_keeps view). preserve. Qed.

Lemma view_prepareResponse v s : view (exec (prepareResponse v) s) = view s.
Proof. apply (run_keeps view). preserve. Qed.

Lemma conns_prepareResponse_data v d n s : conns (exec (prepareResponse_data v d n) s) = conns s.
Proof. apply (run_keeps conns). preserve. Qed.

Lemma table_eq s s' : view s' = view s -> table s' = table s.
Proof. rewrite !table_view. by intros ->. Qed.

Lemma msg_prepareResponse v s :
  sb_msg (exec (prepareResponse v) s) = snd (mc_prepareResponse v false (sb_msg s)).
Proof. apply msg_with_msg_. Qed.

Lemma msg_prepareResponse_data v d n s :
  sb_msg (exec (prepareResponse_data v d n) s) = snd (mc_prepareResponse_data v d n (sb_msg s)).
Proof. apply msg_with_msg_. Qed.

(** Both register requests once the description and the caller are accepted. *)
Definition register_checked (c : Z) (d : SFNDInterfaceDescription) (pid chid : Z) (isLocal : bool)
    (grpid : Z) : M (option SPartyID) :=
  r ← addInterface c (ifDescr_of_SFND d) pid chid isLocal grpid;
  registerInterfacesMaster;; mret r.

Lemma register_checked_free c d pid chid isLocal grpid s cn :
  sb_conns s !! c = Some cn -> servers_wf s -> wf_SFNDDescr d -> table s !! cstr (sd_name d) = None ->
  let e := new_entry s cn (ifDescr_of_SFND d) pid chid isLocal grpid in
  let s' := exec (register_checked c d pid chid isLocal grpid) s in
  eval (register_checked c d pid chid isLocal grpid) s = Some (sv_partyID e) /\
  table s' = <[cstr (sd_name d) := forget e]> (table s) /\ owns c (sv_partyID e) s' = true /\
  sb_msg s' = sb_msg s.
Proof.
  intros Hc Hwf Hd Hfree e s'.
  pose proof (addInterface_free c (ifDescr_of_SFND d) pid chid isLocal grpid s cn Hc Hwf
    (wf_descr_name d Hd) Hfree) as (He & Ht & Ho). fold e in He, Ht, Ho.
  assert (Hs' : s' = exec registerInterfacesMaster
    (exec (addInterface c (ifDescr_of_SFND d) pid chid isLocal grpid) s)).
  { unfold s', register_checked. by rewrite !exec_bind, exec_ret. }
  split; [unfold register_checked; by rewrite !eval_bind, eval_ret|].
  rewrite Hs'. split_and!.
  - etransitivity; [|exact Ht]. apply table_eq, (run_keeps view), keeps_view_registerInterfacesMaster.
  - etransitivity; [|exact Ho]. apply owns_base, (run_keeps conns), keeps_conns_registerInterfacesMaster.
  - rewrite !keeps_response; [done | preserve..].
Qed.

Lemma register_checked_known c d pid chid isLocal grpid s e :
  servers_wf s -> wf_SFNDDescr d -> table s !! cstr (sd_name d) = Some e ->
  eval (register_checked c d pid chid isLocal grpid) s = None /\
  table (exec (register_checked c d pid chid isLocal grpid) s) = table s /\
  sb_msg (exec (register_checked c d pid chid isLocal grpid) s) = sb_msg s.
Proof.
  intros Hwf Hd Hk.
  pose proof (addInterface_known c (ifDescr_of_SFND d) pid chid isLocal grpid s e Hwf
    (wf_descr_name d Hd) Hk) as Hadd.
  unfold register_checked. rewrite eval_bind, eval_bind, eval_ret, !exec_bind, exec_ret.
  unfold eval, exec. rewrite Hadd. split; [done|]. split.
  - apply table_eq, (run_keeps view), keeps_view_registerInterfacesMaster.
  - apply (keeps_response registerInterfacesMaster s). preserve.
Qed.

Lemma exec_handleRegisterInterface c a s cn :
  check_ifDescription (ra_ifDescription a) env_after_name = true ->
  sb_conns s !! c = Some cn -> cn_isLocal cn = true ->
  exec (handleRegisterInterface c a) s =
  exec (r ← register_checked c (ra_ifDescription a) (ra_pid a) (ra_chid a)
              (isLocalService (sb_mConfig s) (cstr (sd_name (ra_ifDescription a)))) (-1);
        match r with
        | Some serverID => prepareResponse_data (sb_code FNDOK) (PL_serverID serverID)
                             (sizeof (arg_o DCMD_FND_REGISTER_INTERFACE))
        | None => prepareResponse (sb_code FNDInterfaceAlreadyRegistered)
        end) s.
Proof.
  intros Hck Hc Hl. unfold handleRegisterInterface. rewrite exec_getS, Hck.
  rewrite (exec_get_conn c cn _ s Hc), Hl. cbn [negb]. unfold register_checked.
  rewrite !exec_bind, !eval_bind, eval_ret, exec_ret. done.
Qed.

Lemma mc_data_response v d n m :
  mc_mPutOffset m = 0 -> mc_response (snd (mc_prepareResponse_data v d n m)) = mkResponse n v d.
Proof. intros Hp. unfold mc_prepareResponse_data. cbn. by rewrite Hp. Qed.

Lemma mc_plain_response v m :
  mc_mPutOffset m = 0 -> mc_response (snd (mc_prepareResponse v false m)) = mkResponse 0 v PL_none.
Proof. intros Hp. unfold mc_prepareResponse. cbn. by rewrite Hp. Qed.

(** C15. Registering a free name from a local process succeeds: the table gains exactly
    this entry, with the requested process and channel, the caller's group left
    open and the next server id; the caller becomes its owner and is sent the id. *)
Theorem register_new c a s cn :
  let d := ra_ifDescription a in
  let id := mkParty (sb_mNextServerID s) (sb_mExtendedID s) in
  let s' := exec (handleRegisterInterface c a) s in
  servers_wf s -> wf_SFNDDescr d -> check_ifDescription d env_after_name = true ->
  sb_conns s !! c = Some cn -> cn_isLocal cn = true -> mc_mPutOffset (sb_msg s) = 0 ->
  table s !! cstr (sd_name d) = None ->
  (exists e, table s' = <[cstr (sd_name d) := e]> (table s) /\ sv_partyID e = id /\
     sv_pid e = ra_pid a /\ sv_chid e = ra_chid a /\ sv_grpid e = SB_UNKNOWN_GROUP_ID /\
     sv_ifDescription e = ifDescr_of_SFND d) /\
  owns c id s' = true /\
  mc_response (sb_msg s') =
    mkResponse (sizeof (arg_o DCMD_FND_REGISTER_INTERFACE)) (sb_code FNDOK) (PL_serverID id).
Proof.
  intros d id s' Hwf Hd Hck Hc Hl Hput Hfree. unfold s'. rewrite (exec_handleRegisterInterface c a s cn) by done.
  destruct (register_checked_free c d (ra_pid a) (ra_chid a)
    (isLocalService (sb_mConfig s) (cstr (sd_name d))) (-1) s cn) as (He & Ht & Ho & Hm); [done..|].
  rewrite exec_bind. fold d. rewrite He. split_and!.
  - eexists. split; [rewrite <-Ht; apply table_eq, view_prepareResponse_data | done].
  - etransitivity; [|exact Ho]. apply owns_base, conns_prepareResponse_data.
  - rewrite msg_prepareResponse_data, Hm. by apply mc_data_response.
Qed.

(** Registering a name that is taken is refused with
    [FNDInterfaceAlreadyRegistered] and leaves the table as it is. *)
Lemma register_taken c a s cn e :
  let d := ra_ifDescription a in
  let s' := exec (handleRegisterInterface c a) s in
  servers_wf s -> wf_SFNDDescr d -> check_ifDescription d env_after_name = true ->
  sb_conns s !! c = Some cn -> cn_isLocal cn = true -> mc_mPutOffset (sb_msg s) = 0 ->
  table s !! cstr (sd_name d) = Some e ->
  table s' = table s /\
  mc_response (sb_msg s') = mkResponse 0 (sb_code FNDInterfaceAlreadyRegistered) PL_none.
Proof.
  intros d s' Hwf Hd Hck Hc Hl Hput Hk. unfold s'. rewrite (exec_handleRegisterInterface c a s cn) by done.
  destruct (register_checked_known c d (ra_pid a) (ra_chid a)
    (isLocalService (sb_mConfig s) (cstr (sd_name d))) (-1) s e) as (He & Ht & Hm); [done..|].
  rewrite exec_bind. fold d. rewrite He. split.
  - etransitivity; [|exact Ht]. apply table_eq, view_prepareResponse.
  - rewrite msg_prepareResponse, Hm. by apply mc_plain_response.
Qed.

End requests.

Section removal.
Context `{Env}.

Lemma exec_handleUnregisterInterface c id s cn x :
  sb_conns s !! c = Some cn -> cd_serverExists id (cn_mData cn) = true ->
  sl_find_party id (sb_mConnectedServers s) = Some x ->
  exec (handleUnregisterInterface c id) s =
  exec (triggerAll mServerListChangeNotifications)
    (exec (prepareResponse (sb_code FNDOK))
      (exec (drop_server id (sv_masterID x))
        (exec (trigger_party mServerDisconnectNotifications id)
          (exec (upd_data c (cd_removeServer id)) s)))).
Proof.
  intros Hc Hown Hx. unfold handleUnregisterInterface.
  rewrite (exec_get_conn c cn _ s Hc), Hown.
  assert (Hu : upd_data c (cd_removeServer id) s = (tt, exec (upd_data c (cd_removeServer id)) s)).
  { unfold exec. by rewrite (run_upd_data c _ s cn Hc). }
  unfold exec at 1. rewrite run_assoc. erewrite run_bind; [|exact Hu].
  set (s1 := exec (upd_data c (cd_removeServer id)) s).
  assert (Hs1 : sb_mConnectedServers s1 = sb_mConnectedServers s)
    by (apply (run_keeps sb_mConnectedServers); preserve).
  rewrite run_assoc, run_getS, Hs1, Hx.
  match goal with |- (?m s1).2 = _ => change ((m s1).2) with (exec m s1) end.
  unfold drop_server. rewrite !exec_bind, !eval_bind, !eval_ret, !exec_ret. done.
Qed.

(** C16. Unregistering an own server removes exactly its entry from the table and all
    attachments to it, and takes the ownership from the caller. *)
Theorem unregister_removes c id s cn n e :
  let s' := exec (handleUnregisterInterface c id) s in
  servers_wf s -> sb_conns s !! c = Some cn -> owns c id s = true ->
  table s !! n = Some e -> global_eqb (sv_partyID e) id = true -> unique_id id s ->
  table s' = delete n (table s) /\
  (forall a, a ∈ cl_mEntries (sb_mAttachedClients s') <->
     a ∈ cl_mEntries (sb_mAttachedClients s) /\ globalID (ce_mServerId a) <> globalID id) /\
  owns c id s' = false.
Proof.
  intros s' Hwf Hc Hown He Hid Hu. unfold owns in Hown. rewrite Hc in Hown.
  destruct (find_party_table id n e s Hwf He Hid) as [x Hx].
  unfold s'. rewrite (exec_handleUnregisterInterface c id s cn x) by done.
  set (s1 := exec (upd_data c (cd_removeServer id)) s).
  set (s2 := exec (trigger_party mServerDisconnectNotifications id) s1).
  assert (Hs2 : view s2 = view s).
  { etransitivity; [apply (run_keeps view); preserve|]. apply (run_keeps view). preserve. }
  split_and!.
  - rewrite <-(erase_view_table id n e s) by done. rewrite <-Hs2, <-(drop_server_view id (sv_masterID x)).
    rewrite table_view. f_equal. etransitivity; [apply (run_keeps view); preserve|].
    apply view_prepareResponse.
  - intros a. rewrite <-cl_removeServer_spec.
    assert (Hcl : forall s3, sb_mAttachedClients (exec (triggerAll mServerListChangeNotifications)
      (exec (prepareResponse (sb_code FNDOK)) s3)) = sb_mAttachedClients s3).
    { intros s3. etransitivity; [apply (run_keeps sb_mAttachedClients); preserve|].
      apply (run_keeps sb_mAttachedClients). preserve. }
    rewrite Hcl, drop_server_clients.
    assert (sb_mAttachedClients s2 = sb_mAttachedClients s) as ->; [|done].
    etransitivity; [apply (run_keeps sb_mAttachedClients); preserve|].
    apply (run_keeps sb_mAttachedClients). preserve.
  - rewrite (owns_base c id s1).
    + unfold owns, s1, exec. rewrite (run_upd_data c _ s cn Hc). cbn. rewrite lookup_insert_eq.
      change (pl_exists id (pl_remove id (cd_mServerList (cn_mData cn))) = false).
      by rewrite pl_remove_exists, global_eqb_refl.
    + etransitivity; [apply (run_keeps conns); preserve|].
      etransitivity; [apply (run_keeps conns); preserve|].
      assert (Hc2 : conns s2 = conns s1) by (apply (run_keeps conns); preserve).
      rewrite <-Hc2. apply (run_keeps conns). unfold drop_server, unregisterInterfaceMaster. preserve.
Qed.

(** A server can be unregistered only by the connection that registered it: for any
    other caller the request is answered with [FNDBadArgument] and changes nothing
    but the message. *)
Lemma unregister_foreign c id s cn :
  sb_conns s !! c = Some cn -> owns c id s = false -> mc_mState (sb_msg s) = State_PROCESSING ->
  exec (handleUnregisterInterface c id) s =
    s <| sb_msg := snd (mc_prepareResponse (sb_code FNDBadArgument) false (sb_msg s)) |>.
Proof.
  intros Hc Hown Hst. unfold owns in Hown. rewrite Hc in Hown. unfold handleUnregisterInterface.
  rewrite (exec_get_conn c cn _ s Hc), Hown, exec_bind, eval_ret, exec_ret. cbn [negb].
  unfold exec, prepareResponse. rewrite run_with_msg_; [done|]. cbn. by rewrite Hst.
Qed.

End removal.

(** ** Hang-up *)

Definition has_id (id : SPartyID) (e : ServerListEntry) : bool := global_eqb (sv_partyID e) id.

(** No two entries share a server id. *)
Definition ids_nodup (l : list ServerListEntry) : Prop :=
  NoDup ((fun e => globalID (sv_partyID e)) <$> l).

Lemma ids_nodup_erase id l : ids_nodup l -> ids_nodup (erase_first (has_id id) l).
Proof.
  intros Hnd. eapply sublist_NoDup; [exact Hnd|].
  apply fmap_sublist, erase_first_sublist.
Qed.

Lemma elem_of_erase_id id e l :
  ids_nodup l -> e ∈ erase_first (has_id id) l <-> e ∈ l /\ has_id id e = false.
Proof.
  unfold ids_nodup. induction l as [|x l IH]; cbn; [set_solver|].
  rewrite NoDup_cons. intros [Hx Hnd]. destruct (has_id id x) eqn:E.
  - split.
    + intros He. split; [by right|]. apply not_true_is_false. intros E'. apply Hx.
      unfold has_id, global_eqb in *. apply Z.eqb_eq in E, E'. rewrite E, <-E'.
      by apply (list_elem_of_fmap_2 (fun e => globalID (sv_partyID e))).
    + rewrite elem_of_cons. intros [[->|He] E']; [congruence | done].
  - rewrite !elem_of_cons, IH by done. naive_solver.
Qed.

Section hangup.
Context `{Env}.

Lemma clear_server_view id s :
  view (exec (clear_server id) s) = erase_first (has_id id) (view s).
Proof.
  unfold clear_server. rewrite exec_getS.
  destruct (sl_find_party id (sb_mConnectedServers s)) as [x|] eqn:Hx; [apply drop_server_view|].
  unfold sl_find_party in Hx. rewrite find_first_None in Hx. symmetry.
  apply erase_first_none, find_first_None. unfold view. intros e (y & -> & Hy)%list_elem_of_fmap.
  unfold has_id. rewrite global_eqb_sym. exact (Hx y Hy).
Qed.

Lemma clear_servers_view l s :
  ids_nodup (view s) ->
  let s' := exec (forM_ l clear_server) s in
  view s' `sublist_of` view s /\
  forall e, e ∈ view s' <-> e ∈ view s /\ pl_exists (sv_partyID e) l = false.
Proof.
  revert s. induction l as [|id l IH]; intros s Hnd; cbn [forM_].
  - split; [done|]. intros e. rewrite exec_skip. naive_solver.
  - rewrite exec_bind. pose proof (clear_server_view id s) as Hv.
    destruct (IH (exec (clear_server id) s)) as [Hsub He].
    { rewrite Hv. by apply ids_nodup_erase. }
    split; [etransitivity; [exact Hsub|]; rewrite Hv; apply erase_first_sublist|].
    intros e. rewrite He, Hv, elem_of_erase_id, pl_exists_cons, orb_false_iff by done.
    unfold has_id. tauto.
Qed.

Lemma keeps_view_clear_client id : keeps view (clear_client id).
Proof. unfold clear_client. preserve. Qed.

#[local] Hint Resolve keeps_view_clear_client : preserve.

Lemma exec_close_client_view c cn s :
  sb_conns s !! c = Some cn ->
  exists s1, view s1 = view s /\
    view (exec (close_client c) s) = view (exec (forM_ (cd_mServerList (cn_mData cn)) clear_server) s1).
Proof.
  intros Hc.  unfold close_client. rewrite !exec_bind, !exec_modify. unfold clear.
  set (s1 := s <| sb_mClients ::= _ |>).
  exists s1. split; [done|]. rewrite (exec_get_conn c cn _ s1 Hc). rewrite exec_bind.
  set (s2 := exec (forM_ _ clear_server) s1). clearbody s2.
  match goal with |- view (exec ?m s2 <| sb_conns ::= delete c |>) = _ =>
    change (view (exec m s2) = view s2); apply (run_keeps view)
  end. preserve.
Qed.

(** When a connection is closed, exactly the servers it owned disappear from the
    table, and the connection is gone. *)
Lemma hangup_removes c cn s :
  let s' := exec (close_client c) s in
  servers_wf s -> ids_nodup (view s) -> sb_conns s !! c = Some cn ->
  sb_conns s' !! c = None /\
  forall n e, table s' !! n = Some e <->
    table s !! n = Some e /\ owns c (sv_partyID e) s = false.
Proof.
  intros s' Hwf Hnd Hc. split.
  { unfold s', close_client. rewrite !exec_bind, exec_modify. cbn. apply lookup_delete_eq. }
  destruct (exec_close_client_view c cn s Hc) as (s1 & Hs1 & Hv). fold s' in Hv.
  rewrite <-Hs1 in Hnd. destruct (clear_servers_view (cd_mServerList (cn_mData cn)) s1 Hnd) as [Hsub He].
  rewrite <-Hv, Hs1 in Hsub, He. intros n e. rewrite !table_view.
  assert (Hwf' : entries_wf (view s')) by (eapply entries_wf_sublist; [exact Hsub | by apply view_wf]).
  rewrite (abs_entries_Some (view s') n e Hwf'), (abs_entries_Some (view s) n e (view_wf s Hwf)), He.
  unfold owns. rewrite Hc. unfold cd_serverExists. tauto.
Qed.

End hangup.

(** ** Witnesses *)

Lemma demo_servers_wf : servers_wf demo_state.
Proof.
  apply (reachable_inv any_event servers_wf (demo_start false)).
  - split; constructor.
  - intros s ev _. apply servers_wf_run.
  - apply reachable_run_all; [constructor | by repeat constructor | exact demo_enabled].
Qed.

(** The state before the registration. *)
Definition demo_before : SB := exec (run_all (take 2 demo_events)) (demo_start false).

Definition demo_arg : RegisterArg := mkRegisterArg demo_descr (mkImplVersion 0 0 0) 7 100.

Definition demo_conn (s : SB) (c : Z) : Connection := default (new_Connection 0 0) (sb_conns s !! c).

Definition demo_id : SPartyID := mkParty 500001 1000.

Lemma register_new_witness :
  table demo_before !! bytes_of_string "Media" = None /\
  owns 1 demo_id (exec (handleRegisterInterface 1 demo_arg) demo_before) = true.
Proof.
  split; [by vm_compute|].
  destruct (register_new 1 demo_arg demo_before (demo_conn demo_before 1)) as (_ & Ho & _);
    [split; constructor | exact wf_demo_descr | by vm_compute..|].
  exact Ho.
Defined.

Lemma register_taken_witness :
  mc_response (sb_msg (exec (handleRegisterInterface 2 demo_arg) demo_state)) =
    mkResponse 0 (sb_code FNDInterfaceAlreadyRegistered) PL_none.
Proof.
  eapply (register_taken 2 demo_arg demo_state (demo_conn demo_state 2));
    [exact demo_servers_wf | exact wf_demo_descr | by vm_compute..].
Defined.

Definition demo_entry (s : SB) : ServerListEntry :=
  default (new_ServerListEntry env_implVersion 0) (table s !! bytes_of_string "Media").

Lemma demo_unique : unique_id demo_id demo_state.
Proof.
  intros n1 n2 e1 e2. assert (table demo_state = {[ bytes_of_string "Media" := demo_entry demo_state ]}) as ->
    by by vm_compute.
  intros [<- _]%lookup_singleton_Some [<- _]%lookup_singleton_Some. done.
Qed.

Lemma unregister_removes_witness :
  owns 1 demo_id demo_state = true /\
  table (exec (handleUnregisterInterface 1 demo_id) demo_state) =
    delete (bytes_of_string "Media") (table demo_state).
Proof.
  split; [by vm_compute|].
  destruct (unregister_removes 1 demo_id demo_state (demo_conn demo_state 1)
    (bytes_of_string "Media") (demo_entry demo_state)) as [Ht _];
    [exact demo_servers_wf | by vm_compute.. | exact demo_unique |].
  exact Ht.
Defined.

Lemma unregister_foreign_witness :
  let s := demo_state <| sb_msg ::= (fun m => m <| mc_mState := State_PROCESSING |>) |> in
  table (exec (handleUnregisterInterface 2 demo_id) s) = table demo_state.
Proof.
  intros s. rewrite (unregister_foreign 2 demo_id s (demo_conn demo_state 2)); by vm_compute.
Defined.

Lemma hangup_removes_witness :
  table (exec (close_client 1) demo_state) !! bytes_of_string "Media" = None.
Proof.
  destruct (table (exec (close_client 1) demo_state) !! bytes_of_string "Media") as [e|] eqn:E; [|done].
  destruct (hangup_removes 1 (demo_conn demo_state 1) demo_state) as [_ Ht];
    [exact demo_servers_wf | apply (bool_decide_unpack _); by vm_compute | by vm_compute |].
  apply Ht in E as [E Hown]. assert (e = demo_entry demo_state) as ->.
  { unfold demo_entry. by rewrite E. }
  assert (Ho : owns 1 (sv_partyID (demo_entry demo_state)) demo_state = true) by by vm_compute.
  rewrite Ho in Hown. discriminate Hown.
Defined.
