(* ===== verification/Delivery.v ===== *)
(** Who is told: the pulses the [trigger] functions send.

    A trigger walks one notification list, sends and erases the notifications it
    picks and leaves the others.  [trigger_walk] reduces every trigger to a reference
    form: the surviving list is computed by a pure function and the picked
    notifications are delivered in order, each by [deliver].  The theorems give the
    list, the pulses and the channels of the triggers by server, by pool and by
    interface, the last with its access rule.  [tell] states what a delivery promises
    independently of [send] and of the destructor. *)

From S2P Require Import Prelude.
From S2P Require Import Layout.
From S2P Require Import Types.
From S2P Require Import ServerList.
From S2P Require Import ConfigFile.
From S2P Require Import ClientData.
From S2P Require Import JobQueue.
From S2P Require Import Environment.
From S2P Require Import PulseChannelManager.
From S2P Require Import NotificationPool.
From S2P Require Import MessageContext.
From S2P Require Import State.
From S2P Require Import Notifications.
From S2P Require Import Registration.
From S2P Require Import Notify.
From S2P Require Import Attach.
From S2P Require Import Jobs.
From S2P Require Import Dispatch.
From S2P Require Import System.
From S2P Require Import Frames.
From S2P Require Import Protocol.

(** ** The reference form *)

(** What a trigger does with one notification. *)
Inductive Action := A_deliver | A_keep (n : Notification).

Definition kept (a : Action) : option Notification :=
  match a with A_deliver => None | A_keep n => Some n end.

Definition delivers (a : Action) : bool := match a with A_deliver => true | A_keep _ => false end.

(** The pulses sent so far: descriptor, code and value. *)
Definition pulses (s : SB) : list (Z * Z * Z) :=
  omap (fun o => match o with O_pulse fd code value => Some (fd, code, value) | _ => None end)
    (sb_out s).

(** The open pulse channels and the clock of the kernel's answers. *)
Definition wires (s : SB) : list PulseChannel * nat := (sb_mSockets s, sb_tick s).

Section delivery.
Context `{Env}.

(** ** What the delivery of a notification promises

    A notification that is connected already gets its pulse on its own descriptor.  One
    that is not is connected first, to its node, process and channel: over the channel
    that is open already or over a new connection.  It gets its pulse on that
    descriptor, or none when the connection fails.  Then it lets the channel go. *)
Definition tell (n : Notification) (w : list PulseChannel * nat)
    : list (Z * Z * Z) * (list PulseChannel * nat) :=
  let '(fd, l, tick) :=
    if n_coid n <? 0 then pcm_attach w.2 w.1 (n_nid n) (p_pid (n_pulse n)) (p_chid (n_pulse n))
    else (n_coid n, w.1, w.2) in
  (if 0 <=? fd then [(fd, p_code (n_pulse n), p_value (n_pulse n))] else [],
   (if fd =? -1 then l else snd (release l fd), tick)).

(** One after the other, each with the channels its predecessors left. *)
Fixpoint tell_all (l : list Notification) (w : list PulseChannel * nat)
    : list (Z * Z * Z) * (list PulseChannel * nat) :=
  match l with
  | [] => ([], w)
  | n :: l => let '(ps, w) := tell n w in let '(qs, w) := tell_all l w in (ps ++ qs, w)
  end.

(** Between two states exactly these notifications have been told, in this order. *)
Definition delivered (l : list Notification) (s s' : SB) : Prop :=
  pulses s' = pulses s ++ (tell_all l (wires s)).1 /\ wires s' = (tell_all l (wires s)).2.

(** The effect of a trigger that picks the notifications of list [k] by [p]: they are
    told, in list order, and erased; the rest of the list and the other lists stay. *)
Definition triggered (k : nlist) (p : Notification -> bool) (s s' : SB) : Prop :=
  nl_get k s' = filter (fun n => p n = false) (nl_get k s) /\
  (forall k', k' <> k -> nl_get k' s' = nl_get k' s) /\
  delivered (filter (fun n => p n = true) (nl_get k s)) s s'.

Definition run_action (a : Action) (n : Notification) : M (option Notification) :=
  match a with A_deliver => send_erase n | A_keep n' => mret (Some n') end.

(** Send and destroy. *)
Definition deliver (n : Notification) : M unit := n' ← send n; destroy n'.

(** The reference form of a trigger on list [k]. *)
Definition trigger_ref (k : nlist) (act : Notification -> Action) (s : SB) : SB :=
  nl_set k (omap (fun n => kept (act n)) (nl_get k s))
    (exec (forM_ (filter (fun n => delivers (act n) = true) (nl_get k s)) deliver) s).

(** The decision of the triggers that pick by a predicate. *)
Definition pick (p : Notification -> bool) (n : Notification) : Action :=
  if p n then A_deliver else A_keep n.

(** The decision of [trigger(ifDescription, grpid)]. *)
Definition pick_ifDescr (d : InterfaceDescription) (grpid : Z) (n : Notification) : Action :=
  if bool_decide (id_name (n_ifDescription n) = id_name d) && n_active n
     && (id_majorVersion (n_ifDescription n) =? id_majorVersion d)
     && (id_minorVersion (n_ifDescription n) <=? id_minorVersion d)
  then if trigger_allowed grpid n then A_deliver else A_keep (n <| n_active := false |>)
  else A_keep n.

(** ** Lemmas *)

Lemma walk_action act body l s :
  (forall n, body n = run_action (act n) n) ->
  walk body l s =
    (omap (fun n => kept (act n)) l,
     exec (forM_ (filter (fun n => delivers (act n) = true) l) deliver) s).
Proof.
  intros Hb. revert s. induction l as [|n l IH]; intros s; cbn [walk]; [done|].
  rewrite Hb. rewrite filter_cons. cbn [omap list_omap].
  destruct (act n) as [|n'] eqn:Ha; cbn [run_action kept delivers].
  - rewrite decide_True by done. unfold send_erase. rewrite run_assoc.
    erewrite run_bind; [|apply run_eval_exec]. rewrite run_assoc.
    erewrite run_bind; [|apply run_eval_exec]. rewrite run_ret.
    erewrite run_bind; [|apply IH]. cbn [forM_]. rewrite exec_bind.
    assert (exec (deliver n) s = exec (destroy (eval (send n) s)) (exec (send n) s)) as ->
      by (unfold deliver; by rewrite exec_bind).
    done.
  - rewrite decide_False by done. rewrite run_ret. erewrite run_bind; [|apply IH]. done.
Qed.

Lemma trigger_walk k act body s :
  (forall n, body n = run_action (act n) n) -> exec (on_list k body) s = trigger_ref k act s.
Proof.
  intros Hb. unfold on_list, exec. rewrite run_getS.
  erewrite run_bind; [|by apply walk_action]. done.
Qed.

Lemma trigger_pick k (p : Notification -> bool) s :
  exec (on_list k (fun n => if p n then send_erase n else keep n)) s = trigger_ref k (pick p) s.
Proof. apply trigger_walk. intros n. unfold pick. by destruct (p n). Qed.

Lemma trigger_ifDescr_ref k d g s :
  exec (trigger_ifDescr k d g) s = trigger_ref k (pick_ifDescr d g) s.
Proof.
  apply trigger_walk. intros n. unfold pick_ifDescr.
  case_bool_decide; [|done]. cbn [andb]. destruct (n_active n && _ && _); [|done].
  by destruct (trigger_allowed g n).
Qed.

(** *** What a delivery sends *)

Lemma keeps_pulses_emit o : (forall a b c, o <> O_pulse a b c) -> keeps pulses (emit o).
Proof.
  intros Ho. apply keeps_modify. intros s. unfold pulses. cbn. rewrite omap_app.
  destruct o; [by exfalso; eapply Ho|cbn; by rewrite app_nil_r..].
Qed.

#[local] Hint Extern 1 (keeps _ (modify _)) => (apply keeps_modify; intros; reflexivity) : preserve.
#[local] Hint Extern 1 (keeps pulses (emit _)) => (apply keeps_pulses_emit; discriminate) : preserve.

(** The observation: the pulses and the channels. *)
Definition told (s : SB) : list (Z * Z * Z) * (list PulseChannel * nat) := (pulses s, wires s).

Lemma keeps_told_emit o : (forall a b c, o <> O_pulse a b c) -> keeps told (emit o).
Proof.
  intros Ho. split. intros s. unfold told. by rewrite (run_keeps _ _ (keeps_pulses_emit o Ho)).
Qed.

#[local] Hint Extern 1 (keeps told (emit _)) => (apply keeps_told_emit; discriminate) : preserve.

Lemma keeps_told_upd_data c f : keeps told (upd_data c f).
Proof. unfold upd_data, fault. preserve. Qed.

Lemma keeps_told_pool_detach pos : keeps told (pool_detach pos).
Proof.
  unfold pool_detach, createClearNotificationJob, master_eval, assertM, fault. preserve.
Qed.

Lemma keeps_told_createClear id : keeps told (createClearNotificationJob id).
Proof. unfold createClearNotificationJob, master_eval, assertM, fault. preserve. Qed.

#[local] Hint Resolve keeps_told_upd_data keeps_told_pool_detach keeps_told_createClear : preserve.

(** The destructor lets the channel go and sends nothing. *)
Lemma destroy_told n s :
  told (exec (destroy n) s) =
    (pulses s, (if n_coid n =? -1 then sb_mSockets s else snd (release (sb_mSockets s) (n_coid n)),
                sb_tick s)).
Proof.
  assert (Hd : told (exec (detach_channel (n_coid n)) s) =
    (pulses s, (snd (release (sb_mSockets s) (n_coid n)), sb_tick s))).
  { unfold detach_channel, exec. rewrite run_getS.
    destruct (release (sb_mSockets s) (n_coid n)) as [closed l]. rewrite (run_modify _ _ s).
    etransitivity; [|done].
    apply (run_keeps told (forM_ closed (fun fd => emit (O_close fd)))). preserve. }
  unfold destroy. rewrite exec_bind.
  rewrite (run_keeps told) by preserve.
  destruct (n_coid n =? -1); cbn [negb whenM]; [done|exact Hd].
Qed.

Lemma send_told n s :
  exists fd l tick,
    (if n_coid n <? 0
     then pcm_attach (sb_tick s) (sb_mSockets s) (n_nid n) (p_pid (n_pulse n)) (p_chid (n_pulse n))
     else (n_coid n, sb_mSockets s, sb_tick s)) = (fd, l, tick) /\
    n_coid (eval (send n) s) = fd /\
    told (exec (send n) s) =
      (pulses s ++ (if 0 <=? fd then [(fd, p_code (n_pulse n), p_value (n_pulse n))] else []),
       (l, tick)).
Proof.
  unfold send. destruct (Z.ltb_spec (n_coid n) 0).
  - rewrite exec_bind, eval_bind.
    destruct (pcm_attach (sb_tick s) (sb_mSockets s) (n_nid n) (p_pid (n_pulse n))
      (p_chid (n_pulse n))) as [[fd l] tick] eqn:Hp.
    exists fd, l, tick. split; [done|].
    set (m := r ← doConnect n; mret r.2).
    assert (Hrun : m s = ((if fd <? 0 then n <| n_coid := fd |> <| n_pulse := zero_pulse |>
        else n <| n_coid := fd |>), s <| sb_mSockets := l |> <| sb_tick := tick |>)).
    { unfold m, doConnect, attach_channel. rewrite !run_assoc, run_getS, Hp, run_assoc, run_modify.
      rewrite run_ret. destruct (fd <? 0); by rewrite run_ret. }
    assert (He : eval m s = if fd <? 0 then n <| n_coid := fd |> <| n_pulse := zero_pulse |>
      else n <| n_coid := fd |>) by (unfold eval; by rewrite Hrun).
    assert (Hx : exec m s = s <| sb_mSockets := l |> <| sb_tick := tick |>)
      by (unfold exec; by rewrite Hrun).
    rewrite He, Hx, eval_bind, exec_bind, eval_ret, exec_ret. clear.
    destruct (Z.ltb_spec fd 0).
    + cbn. rewrite (proj2 (Z.leb_gt 0 fd)) by done. cbn. by rewrite app_nil_r.
    + cbn. rewrite (proj2 (Z.leb_le 0 fd)) by done. cbn. split; [done|]. unfold told, pulses. cbn.
      by rewrite omap_app.
  - exists (n_coid n), (sb_mSockets s), (sb_tick s). split; [done|].
    rewrite eval_bind, exec_bind, eval_ret, exec_ret. rewrite (proj2 (Z.leb_le 0 (n_coid n))) by done.
    split; [done|]. cbn [whenM]. rewrite exec_bind, exec_ret. unfold told, pulses. cbn.
    by rewrite omap_app.
Qed.

Lemma deliver_told n s :
  told (exec (deliver n) s) = (pulses s ++ (tell n (wires s)).1, (tell n (wires s)).2).
Proof.
  destruct (send_told n s) as (fd & l & tick & Ha & Hfd & Ht). unfold deliver, tell.
  rewrite exec_bind, destroy_told, Hfd. cbn [wires fst snd]. rewrite Ha. cbn [fst snd].
  unfold told, wires in Ht. by injection Ht as -> -> ->.
Qed.

Lemma deliver_all l s : delivered l s (exec (forM_ l deliver) s).
Proof.
  revert s. induction l as [|n l IH]; intros s; cbn [forM_ tell_all].
  - split; [|done]. cbn. by rewrite app_nil_r.
  - rewrite exec_bind. pose proof (deliver_told n s) as Ht. unfold told in Ht.
    injection Ht as Hp Hw. unfold delivered in *. destruct (IH (exec (deliver n) s)) as [H1 H2].
    cbn [tell_all]. rewrite Hw in H1, H2. rewrite Hp in H1.
    destruct (tell n (wires s)) as [ps w]. cbn [fst snd] in *.
    destruct (tell_all l w) as [qs w']. cbn [fst snd] in *. rewrite H1, H2. by rewrite app_assoc.
Qed.

(** *** The other lists *)

Lemma keeps_lists_destroy n : keeps sb_lists (destroy n).
Proof.
  unfold destroy, detach_channel, upd_data, pool_detach, createClearNotificationJob, master_eval,
    assertM, fault, emit. preserve.
Qed.

Lemma keeps_lists_send n : keeps sb_lists (send n).
Proof. unfold send, doConnect, attach_channel, sendPulse, emit. preserve. Qed.

#[local] Hint Resolve keeps_lists_destroy keeps_lists_send : preserve.

Lemma nl_get_set_eq k l s : nl_get k (nl_set k l s) = l.
Proof. unfold nl_get, nl_set. cbn. by rewrite fn_lookup_insert. Qed.

Lemma nl_get_set_ne k k' l s : k <> k' -> nl_get k' (nl_set k l s) = nl_get k' s.
Proof. intros Hne. unfold nl_get, nl_set. cbn. by rewrite fn_lookup_insert_ne. Qed.

(** The two effects of a trigger in reference form. *)
Lemma trigger_ref_spec k act s :
  let s' := trigger_ref k act s in
  nl_get k s' = omap (fun n => kept (act n)) (nl_get k s) /\
  (forall k', k' <> k -> nl_get k' s' = nl_get k' s) /\
  delivered (filter (fun n => delivers (act n) = true) (nl_get k s)) s s'.
Proof.
  unfold trigger_ref. set (l := filter _ _). split_and!.
  - apply nl_get_set_eq.
  - intros k' Hne. rewrite nl_get_set_ne by done. unfold nl_get.
    assert (Hl : sb_lists (exec (forM_ l deliver) s) = sb_lists s)
      by (apply (run_keeps sb_lists); unfold deliver; preserve).
    exact (f_equal (fun f => nl_mList (f k')) Hl).
  - exact (deliver_all l s).
Qed.

Lemma omap_pick (p : Notification -> bool) (l : list Notification) : omap (fun n => kept (pick p n)) l = filter (fun n => p n = false) l.
Proof.
  induction l as [|n l IH]; [done|]. rewrite filter_cons. cbn [omap list_omap]. unfold pick at 1.
  destruct (p n) eqn:Hp; cbn; [by rewrite decide_False by done|].
  rewrite decide_True by done. by f_equal.
Qed.

Lemma delivers_pick (p : Notification -> bool) (l : list Notification) :
  filter (fun n => delivers (pick p n) = true) l = filter (fun n => p n = true) l.
Proof. apply list_filter_iff. intros n. unfold pick. by destruct (p n). Qed.

End delivery.

(** ** Properties *)

Lemma triggered_pick `{Env} k (p : Notification -> bool) s :
  triggered k p s (exec (on_list k (fun n => if p n then send_erase n else keep n)) s).
Proof.
  rewrite trigger_pick. destruct (trigger_ref_spec k (pick p) s) as (H1 & H2 & H3).
  rewrite omap_pick in H1. rewrite delivers_pick in H3. done.
Qed.

(** C18. [trigger(serverID)], [trigger(idList)], [triggerPool] and [triggerNotLocal]
    pick exactly the active notifications for that server or client, for one of those
    ids, of that pool, or of a foreign servicebroker.  Each is told, in list order, and
    erased; no other notification is touched or told.  To be told is to get one pulse
    with its own code and value: on its descriptor when it is connected, otherwise on
    the channel that is then opened to its node, process and channel number, and none
    exactly when that fails; the channel is released afterwards. *)
Theorem triggers_reach_exactly `{Env} k s :
  (forall id, triggered k (fun n => n_active n && global_eqb (n_partyID n) id) s
     (exec (trigger_party k id) s)) /\
  (forall ids, triggered k (fun n => n_active n && pl_exists (n_partyID n) ids) s
     (exec (trigger_ids k ids) s)) /\
  (forall poolID, triggered k (fun n => n_active n && (n_poolID n =? poolID)) s
     (exec (triggerPool k poolID) s)) /\
  (forall x, triggered k (fun n => n_active n && negb (x =? extendedID (n_partyID n))) s
     (exec (triggerNotLocal k x) s)).
Proof. split_and!; intros x; apply triggered_pick. Qed.

(** C19. [trigger(ifDescription, grpid)] tells a server's arrival to everyone who waits
    for its name with a version it offers, and never to a client that may not use it:
    when the server is protected by a group, a notification of a user who is neither
    root nor a member gets no pulse, is deactivated and stays.  Who is told gets one
    pulse on the channel it is connected to, or that is opened to it then; none only
    when that fails. *)
Theorem trigger_respects_group `{Env} k d grpid s :
  let s' := exec (trigger_ifDescr k d grpid) s in
  let offered n := bool_decide (id_name (n_ifDescription n) = id_name d) && n_active n
    && (id_majorVersion (n_ifDescription n) =? id_majorVersion d)
    && (id_minorVersion (n_ifDescription n) <=? id_minorVersion d) in
  let allowed n := (u32 SB_UNKNOWN_GROUP_ID =? grpid) || (n_uid n =? 0) || in_group grpid (n_uid n) in
  nl_get k s' = omap (fun n =>
    if negb (offered n) then Some n
    else if allowed n then None else Some (n <| n_active := false |>)) (nl_get k s) /\
  delivered (filter (fun n => offered n && allowed n = true) (nl_get k s)) s s' /\
  (forall k', k' <> k -> nl_get k' s' = nl_get k' s).
Proof.
  intros s' offered allowed. unfold s'. rewrite trigger_ifDescr_ref.
  destruct (trigger_ref_spec k (pick_ifDescr d grpid) s) as (H1 & H2 & H3).
  assert (Hal : forall n, allowed n = trigger_allowed grpid n).
  { intros n. unfold allowed, trigger_allowed. by destruct (_ =? grpid). }
  split_and!; [|clear H1|done].
  - rewrite H1. apply list_omap_ext, Forall_Forall2_diag, Forall_true. intros n. rewrite Hal.
    unfold pick_ifDescr. fold (offered n). destruct (offered n); [|done].
    by destruct (trigger_allowed grpid n).
  - assert (Hf : forall n, delivers (pick_ifDescr d grpid n) = true <-> offered n && allowed n = true).
    { intros n. rewrite Hal. unfold pick_ifDescr. fold (offered n). destruct (offered n); [|done].
      by destruct (trigger_allowed grpid n). }
    by rewrite (list_filter_iff _ _ _ Hf) in H3.
Qed.

(** ** Examples

    Two clients wait for server 3: the first holds a connected channel, the second is
    connected when its pulse is due. *)
Definition demo_waiting (id coid pid chid code : Z) : Notification :=
  new_Notification id <| n_partyID := party_of_global 3 |> <| n_coid := coid |>
    <| n_pulse := mkPulse code 70 chid pid |>.

Definition demo_listeners : SB :=
  nl_set mServerDisconnectNotifications
    [demo_waiting 1 6 200 9 11; demo_waiting 2 (-1) 300 2 12;
     demo_waiting 4 (-1) 300 2 13 <| n_partyID := party_of_global 4 |>]
    (new_SB <| sb_mSockets := demo_channels |>).

(** Both get their pulse, the second over the new descriptor 8, which is closed again;
    the listener to server 4 stays. *)
Example trigger_party_connects :
  let s' := exec
    (trigger_party (H := demo_attach_env) mServerDisconnectNotifications (party_of_global 3))
    demo_listeners in
  pulses s' = [(6, 11, 70); (8, 12, 70)] /\
  sb_out s' = [O_pulse 6 11 70; O_close 6; O_pulse 8 12 70; O_close 8] /\
  (n_notificationID <$> nl_get mServerDisconnectNotifications s') = [4].
Proof. vm_compute. done. Qed.
