(* ===== verification/Answers.v ===== *)
(** Who is answered: the responses the servicebroker writes to its clients.

    [answers s] are the responses among the outputs, [states s] the protocol states
    of the connections.  Only the end of [eval] and [Job::finalize] write responses;
    everything in between keeps both.  The theorems count the responses of a request
    and of a finished job and follow a forwarded attach to its answer. *)

From S2P Require Import Prelude.
From S2P Require Import Layout.
From S2P Require Import Types.
From S2P Require Import ServerList.
From S2P Require Import ConfigFile.
From S2P Require Import ClientData.
From S2P Require Import JobQueue.
From S2P Require Import Environment.
From S2P Require Import PulseChannelManager.
From S2P Require Import NotificationPool.
From S2P Require Import MessageContext.
From S2P Require Import State.
From S2P Require Import Notifications.
From S2P Require Import Registration.
From S2P Require Import Notify.
From S2P Require Import Attach.
From S2P Require Import Jobs.
From S2P Require Import Dispatch.
From S2P Require Import System.
From S2P Require Import Frames.
From S2P Require Import Protocol.

Definition answers (s : SB) : list Output := sb_out (base s).

Definition states (s : SB) : gmap Z ClientState := cn_mState <$> sb_conns (base s).

(** The responses and the protocol states. *)
Definition dialogue (s : SB) : list Output * gmap Z ClientState := (answers s, states s).

Lemma states_lookup c s : states s !! c = conn_state c s.
Proof.
  unfold states, conn_state, base. cbn. rewrite !lookup_fmap. by destruct (sb_conns s !! c).
Qed.

Lemma keeps_dialogue_base {A} (m : M A) : keeps base m -> keeps dialogue m.
Proof. apply (keeps_via base dialogue (fun s => (sb_out s, cn_mState <$> sb_conns s))). done. Qed.

Lemma keeps_dialogue_upd_data c f : keeps dialogue (upd_data c f).
Proof.
  split. intros s. unfold upd_data. rewrite exec_bind. cbn.
  destruct (sb_conns s !! c) as [cn|] eqn:Hc; [|done].
  rewrite exec_modify. unfold dialogue, answers, states, base. cbn. f_equal.
  rewrite <-!map_fmap_compose, fmap_insert. apply insert_id. by rewrite lookup_fmap, Hc.
Qed.

Lemma states_upd_conn c f s cn :
  sb_conns s !! c = Some cn -> states (exec (upd_conn c f) s) = <[c := cn_mState (f cn)]> (states s).
Proof.
  intros Hc. unfold exec. rewrite (run_upd_conn c f s cn Hc). unfold states, base. cbn.
  by rewrite !fmap_insert.
Qed.

Lemma answers_upd_conn c f s : answers (exec (upd_conn c f) s) = answers s.
Proof. apply (run_keeps answers), keeps_upd_conn; done. Qed.

Lemma answers_emit o s : answers (exec (emit o) s) = answers s ++ (if is_answer o then [o] else []).
Proof.
  unfold answers, base, emit. rewrite exec_modify. cbn. rewrite filter_app, filter_cons.
  destruct (is_answer o) eqn:E; case_decide; done.
Qed.

#[export] Hint Resolve keeps_dialogue_upd_data : preserve.
#[export] Hint Extern 4 (keeps dialogue _) =>
  (apply keeps_dialogue_base; solve [eauto with preserve nocore]) : preserve.

(** ** Finished jobs *)

Section jobs.
Context `{Env}.

Lemma keeps_dialogue_attachExtended j p d o id :
  keeps dialogue (handleJobFinishedAttachExtended j p d o id).
Proof.
  unfold handleJobFinishedAttachExtended, attachExtended_consistent, addClient, job_conn,
    handleMasterServerAvailable. preserve.
Qed.

#[local] Hint Resolve keeps_dialogue_attachExtended : preserve.

Lemma keeps_dialogue_job_switch j : keeps dialogue (job_switch j).
Proof.
  unfold job_switch, job_conn, finished_NotifyServerAvailableEx, finished_NotifyServerDisconnect,
    finished_Notify, finished_RegisterMasterEx, unregisterInterfaceMaster, construct_ServerListEntry.
  preserve.
Qed.

(** No branch changes the waiting client of the job. *)
Definition same_ctx (j j' : Job) (s : SB) : Prop := job_ctx j' = job_ctx j.

Lemma same_ctx_bind {A} j (m : M A) (k : A -> M Job) :
  (forall a, triple (fun _ => True) (k a) (same_ctx j)) -> triple (fun _ => True) (m ≫= k) (same_ctx j).
Proof. intros Hk. eapply triple_bind with (R := fun _ _ => True); [by intros s | done]. Qed.

Lemma same_ctx_ret j j' : job_ctx j' = job_ctx j -> triple (fun _ => True) (mret j') (same_ctx j).
Proof. by intros Hj s _. Qed.

Lemma job_switch_ctx j : triple (fun _ => True) (job_switch j) (same_ctx j).
Proof.
  unfold job_switch. apply same_ctx_bind. intros s. destruct (job_arg j).
  2: { unfold handleJobFinishedAttachExtended. apply same_ctx_bind. intros s1. cbv zeta.
    destruct (_ !! _) as [main|]; [|by apply same_ctx_ret].
    eapply (triple_bind _ _ _ (same_ctx j)); [|intros j';
      apply (triple_bind _ _ _ (fun _ => same_ctx j j')); [intros s2 Hs2; exact Hs2|intros u s2 Hs2; exact Hs2]].
    destruct (nl_find _ _ _); [|by apply same_ctx_ret]. destruct (_ =? -1); [by apply same_ctx_ret|].
    apply same_ctx_bind. intros e. destruct (_ && _); [by apply same_ctx_ret|].
    apply same_ctx_bind. intros r. by apply same_ctx_ret. }
  all: repeat first [apply same_ctx_bind; intros ? | apply same_ctx_ret | destruct (bool_decide _)].
  all: try done.
  all: unfold list_job_finished; split_match; try done; by destruct p.
Qed.

Lemma finalize_answer j c cn s :
  job_ctx j = Some c -> sb_conns s !! c = Some cn -> cn_mState cn = CS_DEFERRED ->
  answers (exec (finalize j) s) = answers s ++
    [O_deferred c (deferred_response (job_status j) (job_ret_val j) (job_payload j) (job_rbytes j))] /\
  states (exec (finalize j) s) = <[c := CS_WRITING]> (states s).
Proof.
  intros Hj Hc Hst. unfold finalize. rewrite Hj, (exec_get_conn c cn _ s Hc).
  rewrite bool_decide_eq_true_2 by done. cbn [assertM]. rewrite !exec_bind, exec_skip.
  rewrite answers_emit. split.
  - by rewrite answers_upd_conn.
  - pose proof (states_upd_conn c (fun cn => cn <| cn_mState := CS_WRITING |>) s cn Hc) as Hs. exact Hs.
Qed.

Lemma handleJobFinished_split j s :
  exists j', job_ctx j' = job_ctx j /\ (job_status j <> 0 -> j' = j) /\
    exists s1, dialogue s1 = dialogue s /\ exec (handleJobFinished j) s = exec (finalize j') s1.
Proof.
  unfold handleJobFinished. rewrite exec_bind. eexists. split; [|split; [|eexists; split; [|reflexivity]]].
  - destruct (job_status j =? 0); [by apply job_switch_ctx | done].
  - intros Hst. by rewrite (proj2 (Z.eqb_neq _ _)) by done.
  - destruct (job_status j =? 0); [|done]. apply (run_keeps dialogue), keeps_dialogue_job_switch.
Qed.

(** A finished job answers the client that waits for it: exactly one deferred
    response, to that client and no other, whatever the job was and whatever the
    master said; the connection then writes it, no other connection changes state;
    and if the transport failed the response is [FNDInternalError]. *)
Lemma finished_job_answers j c s :
  job_ctx j = Some c -> conn_state c s = Some CS_DEFERRED ->
  exists r, answers (exec (handleJobFinished j) s) = answers s ++ [O_deferred c r] /\
    (forall c', conn_state c' (exec (handleJobFinished j) s) =
       if bool_decide (c' = c) then Some CS_WRITING else conn_state c' s) /\
    (job_status j <> 0 -> r = mkResponse 0 (sb_code FNDInternalError) PL_none).
Proof.
  intros Hj Hst. destruct (handleJobFinished_split j s) as (j' & Hj' & Hfail & s1 & Hs1 & ->).
  injection Hs1 as Ha Hs. rewrite <-states_lookup, <-Hs, states_lookup in Hst. unfold conn_state in Hst.
  destruct (sb_conns s1 !! c) as [cn|] eqn:Hc; [|done]. injection Hst as Hst.
  destruct (finalize_answer j' c cn s1) as [H1 H2]; [by rewrite Hj'|done..|].
  eexists. split; [by rewrite H1, Ha|]. split.
  - intros c'. rewrite <-!states_lookup, H2, Hs. case_bool_decide as Hcc.
    + subst c'. apply lookup_insert_eq.
    + by rewrite lookup_insert_ne.
  - intros Hne. rewrite (Hfail Hne). unfold deferred_response. by rewrite (proj2 (Z.eqb_neq _ _)) by done.
Qed.

(** A job nobody waits for never produces a response. *)
Lemma finished_job_silent j s :
  job_ctx j = None ->
  answers (exec (handleJobFinished j) s) = answers s /\
  forall c, conn_state c (exec (handleJobFinished j) s) = conn_state c s.
Proof.
  intros Hj. destruct (handleJobFinished_split j s) as (j' & Hj' & _ & s1 & Hs1 & ->).
  injection Hs1 as Ha Hs. unfold finalize. rewrite Hj', Hj, exec_skip. split; [done|].
  intros c. by rewrite <-!states_lookup, Hs.
Qed.

End jobs.

(** ** Requests *)

Lemma keeps_dialogue_slave c : keeps dialogue (upd_conn c (fun cn => cn <| cn_mSlave := true |>)).
Proof.
  split. intros s. unfold upd_conn. rewrite exec_bind. cbn.
  destruct (sb_conns s !! c) as [cn|] eqn:Hc; [|done].
  rewrite exec_modify. unfold dialogue, answers, states, base. cbn. f_equal.
  rewrite <-!map_fmap_compose, fmap_insert. apply insert_id. by rewrite lookup_fmap, Hc.
Qed.

#[export] Hint Resolve keeps_dialogue_slave : preserve.

Section requests.
Context `{Env}.

Lemma keeps_dialogue_send_registrations l : keeps dialogue (send_registrations l).
Proof. unfold send_registrations. preserve. Qed.

#[local] Hint Resolve keeps_dialogue_send_registrations : preserve.

Lemma keeps_dialogue_register_loop cfg l d : keeps dialogue (register_loop cfg l d).
Proof. revert d. induction l; intros d; cbn [register_loop]; preserve; auto. Qed.

#[local] Hint Resolve keeps_dialogue_register_loop : preserve.

Lemma keeps_dialogue_registerInterfacesMaster : keeps dialogue registerInterfacesMaster.
Proof. unfold registerInterfacesMaster. preserve. Qed.

Lemma keeps_dialogue_addInterface c d p ch l g : keeps dialogue (addInterface c d p ch l g).
Proof. unfold addInterface, construct_ServerListEntry. preserve. Qed.

Lemma keeps_dialogue_notify_available c p d b e : keeps dialogue (notify_available c p d b e).
Proof. unfold notify_available, add_ifDescr. preserve. Qed.

#[local] Hint Resolve keeps_dialogue_registerInterfacesMaster keeps_dialogue_addInterface
  keeps_dialogue_notify_available : preserve.

Lemma keeps_dialogue_registerEx_loop fuel k c a items :
  keeps dialogue (registerEx_loop fuel k c a items).
Proof. revert k. induction fuel; intros k; cbn [registerEx_loop]; preserve; auto. Qed.

Lemma keeps_dialogue_registerMaster_loop fuel k c items :
  keeps dialogue (registerMaster_loop fuel k c items).
Proof.
  revert k. induction fuel; intros k; cbn [registerMaster_loop]; preserve; auto.
  unfold registerMaster_one, construct_ServerListEntry. preserve.
Qed.

Lemma keeps_dialogue_notifyAvailableEx_loop fuel k c items :
  keeps dialogue (notifyAvailableEx_loop fuel k c items).
Proof.
  revert k. induction fuel; intros k; cbn [notifyAvailableEx_loop]; preserve; auto.
  unfold notifyAvailableEx_one. preserve.
Qed.

Lemma keeps_dialogue_match_loop cn re n l r : keeps dialogue (match_loop cn re n l r).
Proof. revert r. induction l; intros r; cbn [match_loop]; preserve; auto. Qed.

Lemma keeps_dialogue_handleAttachLocalInterface c e :
  keeps dialogue (handleAttachLocalInterface c e).
Proof. unfold handleAttachLocalInterface, addClient. preserve. Qed.

Lemma keeps_dialogue_disconnectNoResponse c id p :
  keeps dialogue (handleNotifyServerDisconnectNoResponse c id p).
Proof. unfold handleNotifyServerDisconnectNoResponse, bind_disconnect_pool, add_party. preserve. Qed.

Lemma keeps_dialogue_availableNoResponse c p d :
  keeps dialogue (handleNotifyServerAvailableNoResponse c p d).
Proof. unfold handleNotifyServerAvailableNoResponse. preserve. Qed.

#[local] Hint Resolve keeps_dialogue_registerEx_loop keeps_dialogue_registerMaster_loop
  keeps_dialogue_notifyAvailableEx_loop keeps_dialogue_match_loop
  keeps_dialogue_handleAttachLocalInterface keeps_dialogue_disconnectNoResponse
  keeps_dialogue_availableNoResponse : preserve.

Lemma keeps_dialogue_run_handler c r : keeps dialogue (run_handler c r).
Proof.
  destruct r; cbn [run_handler];
    unfold handleRegisterInterface, handleRegisterInterfaceEx, handleRegisterInterfaceGroupID,
      handleUnregisterInterface, unregisterInterfaceMaster, handleAttachInterface,
      handleGetServerInformation, nextRequestID, handleDetachInterface, handleNotifyServerDisconnect,
      handleNotifyServerAvailable, handleNotifyServerAvailableEx, handleNotifyClientDetach, add_party,
      handleClearNofification, handleRegisterMasterInterface, handleGetInterfaceList,
      handleNotifyInterfaceListChange, add_plain, handleMatchInterfaceList,
      handleNotifyInterfaceListMatch, notify_first_match, handleMasterPingId; try solve [preserve].
  unfold handleAttachInterfaceExtended, forwardAttachExtendedToMaster, forwardAttachExtended_job,
    add_ifDescr. preserve.
Qed.

#[local] Hint Resolve keeps_dialogue_run_handler : preserve.

Lemma keeps_dialogue_dispatch c f : keeps dialogue (dispatch c f).
Proof. unfold dispatch, dispatch_command, ensure_answered. preserve. Qed.

Lemma dialogue_close_client c s :
  answers (exec (close_client c) s) = answers s /\
  states (exec (close_client c) s) = delete c (states s).
Proof.
  unfold close_client. rewrite !exec_bind, !exec_modify. set (s1 := s <| sb_mClients ::= _ |>).
  assert (Hk : dialogue (exec (clear c) s1) = dialogue s1).
  { apply (run_keeps dialogue). unfold clear, clear_server, clear_client, unregisterInterfaceMaster.
    preserve. }
  injection Hk as Ha Hs. split; [exact Ha|]. transitivity (delete c (states (exec (clear c) s1))).
  - unfold states, base. cbn. by rewrite !fmap_delete.
  - by rewrite Hs.
Qed.

(** The protocol state after the response has been handed to the socket. *)
Definition after_write (wr : WriteResult) : option ClientState :=
  match wr with
  | WR_complete => Some CS_READING_HEADER
  | WR_partial | WR_would_block => Some CS_WRITING
  | WR_error => None
  end.

Lemma evaluateWriteResult_states c wr s cn :
  sb_conns s !! c = Some cn ->
  answers (exec (evaluateWriteResult c wr) s) = answers s /\
  forall c', states (exec (evaluateWriteResult c wr) s) !! c' =
    if bool_decide (c' = c) then after_write wr else states s !! c'.
Proof.
  intros Hc. assert (Hins : forall st, answers (exec (upd_conn c (fun cn => cn <| cn_mState := st |>)) s) = answers s /\
    forall c', states (exec (upd_conn c (fun cn => cn <| cn_mState := st |>)) s) !! c' =
      if bool_decide (c' = c) then Some st else states s !! c').
  { intros st. split; [apply answers_upd_conn|]. intros c'.
    pose proof (states_upd_conn c (fun cn => cn <| cn_mState := st |>) s cn Hc) as Hs. rewrite Hs.
    case_bool_decide; [subst c'; apply lookup_insert_eq | by rewrite lookup_insert_ne]. }
  destruct wr; cbn [evaluateWriteResult after_write]; [exact (Hins _)..|].
  destruct (dialogue_close_client c s) as [Ha Hs]. split; [done|]. intros c'. rewrite Hs.
  case_bool_decide; [subst c'; apply lookup_delete_eq | by rewrite lookup_delete_ne].
Qed.

(** A request other than [MASTER_PING_ID] is answered once or deferred, and no other
    connection changes its protocol state. *)
Lemma eval_request_answered c f wr s st :
  conn_state c s = Some st -> (forall id, fr_request f <> RQ_MasterPingId id) ->
  let s' := exec (eval_request c f wr) s in
  ((exists r, answers s' = answers s ++ [O_response c r] /\ conn_state c s' = after_write wr) \/
   (answers s' = answers s /\ conn_state c s' = Some CS_DEFERRED)) /\
  forall c', c' <> c -> conn_state c' s' = conn_state c' s.
Proof.
  intros Hst Hping s'. setoid_rewrite <-states_lookup. rewrite <-states_lookup in Hst.
  unfold s', eval_request. rewrite exec_bind, exec_modify. set (s1 := s <| sb_msg := _ |>).
  rewrite exec_bind. set (s2 := exec (dispatch c f) s1).
  assert (Hd : dialogue s2 = dialogue s).
  { transitivity (dialogue s1); [apply (run_keeps dialogue (dispatch c f)), keeps_dialogue_dispatch | done]. }
  injection Hd as Ha Hs. rewrite <-Ha, <-Hs in *. clearbody s2. clear Ha Hs s'.
  assert (exists cn, sb_conns s2 !! c = Some cn) as [cn Hc].
  { rewrite states_lookup in Hst. unfold conn_state in Hst. destruct (sb_conns s2 !! c) as [cn|]; [by exists cn|done]. }
  rewrite exec_bind. assert (exec (eval_ping_id c (fr_request f)) s2 = s2) as ->.
  { destruct (fr_request f) eqn:E; try done. by destruct (Hping id). }
  rewrite exec_getS. destruct (_ && _).
  - split; [right; split; [by rewrite answers_upd_conn|]|intros c' Hne];
      pose proof (states_upd_conn c (fun cn => cn <| cn_mState := CS_DEFERRED |>) s2 cn Hc) as Hs; rewrite Hs.
    + apply lookup_insert_eq.
    + by rewrite lookup_insert_ne.
  - rewrite exec_bind. set (r := mc_response (sb_msg s2)).
    destruct (evaluateWriteResult_states c wr (exec (emit (O_response c r)) s2) cn Hc) as [Ha Hs].
    split.
    + left. exists r. rewrite Ha, answers_emit, Hs. by rewrite bool_decide_eq_true_2 by done.
    + intros c' Hne. rewrite Hs. by rewrite bool_decide_eq_false_2 by done.
Qed.

End requests.

(** ** Witnesses *)

(** A client of a slave whose attach has been forwarded to the master. *)
Definition demo_attach_events : list Event :=
  [Ev_link true; Ev_connect 0 0; Ev_credentials 1 100 0 true;
   Ev_request 1 (demo_frame (RQ_Attach demo_descr)) WR_complete].

Definition demo_deferred : SB := exec (run_all demo_attach_events) (demo_start true).

Definition demo_job : Job := default (create_Job None 0 (JA_ClearNotification 0) 0 0) (head (sb_mQueue demo_deferred)).

Lemma finished_job_answers_witness :
  conn_state 1 demo_deferred = Some CS_DEFERRED /\
  conn_state 1 (exec (handleJobFinished demo_job) demo_deferred) = Some CS_WRITING.
Proof.
  split; [by vm_compute|].
  destruct (finished_job_answers demo_job 1 demo_deferred) as (r & _ & Hs & _); [by vm_compute..|].
  exact (Hs 1).
Defined.

Lemma finished_job_silent_witness :
  answers (exec (handleJobFinished (create_Job None 0 (JA_ClearNotification 5) 0 0)) demo_deferred)
    = answers demo_deferred.
Proof. exact (proj1 (finished_job_silent (create_Job None 0 (JA_ClearNotification 5) 0 0) demo_deferred eq_refl)). Defined.

Definition demo_ready : SB := exec (run_all (take 3 demo_attach_events)) (demo_start true).
