(* ===== verification/Access.v ===== *)
(** Who may attach: the outcomes of [ATTACH_INTERFACE] and of its answer.

    An attach to a server in the table succeeds exactly for the callers [may_use]
    admits and then records one client; all other outcomes change nothing but the
    message, or forward one job to the master whose answer completes the request. *)

From S2P Require Import Prelude.
From S2P Require Import Layout.
From S2P Require Import Types.
From S2P Require Import ServerList.
From S2P Require Import ConfigFile.
From S2P Require Import ClientData.
From S2P Require Import JobQueue.
From S2P Require Import Environment.
From S2P Require Import PulseChannelManager.
From S2P Require Import NotificationPool.
From S2P Require Import MessageContext.
From S2P Require Import State.
From S2P Require Import Notifications.
From S2P Require Import Registration.
From S2P Require Import Notify.
From S2P Require Import Attach.
From S2P Require Import Jobs.
From S2P Require Import Dispatch.
From S2P Require Import System.
From S2P Require Import Frames.
From S2P Require Import Protocol.
From S2P Require Import Answers.

(** ** Specification *)

Section access.
Context `{Env}.

(** The access rule: open servers are for everyone; a server protected by a group is
    for local callers whose user is known and is root or a member of the group. *)
Definition may_use (cn : Connection) (e : ServerListEntry) : Prop :=
  sv_grpid e = SB_UNKNOWN_GROUP_ID \/
  (cn_isLocal cn = true /\ i32 (cn_mUid cn) <> SB_UNKNOWN_USER_ID /\
   (i32 (cn_mUid cn) = 0 \/
    exists members m, env_getgrgid (u32 (sv_grpid e)) = Some members /\ m ∈ members /\
      env_getpwnam m = Some (u32 (i32 (cn_mUid cn))))).

(** The id the next client gets. *)
Definition next_client (s : SB) (e : ServerListEntry) : SPartyID :=
  mkParty (sb_mNextClientID s)
    (if cf_mTreeMode (sb_mConfig s) then sb_mExtendedID s else extendedID (sv_partyID e)).

(** What the client is told about the server. *)
Definition attach_info (cn : Connection) (e : ServerListEntry) (client : SPartyID) : SConnectionInfo :=
  mkConnInfo
    (mkVersion (u16 (id_majorVersion (sv_ifDescription e))) (u16 (id_minorVersion (sv_ifDescription e))))
    (mkChannel 0 (translateLocal cn (sv_name e) (sv_pid e)) (sv_chid e)) (sv_partyID e) client.

(** The state after the client has been recorded. *)
Definition attached (c : Z) (cn : Connection) (e : ServerListEntry) (s : SB) : SB :=
  s <| sb_mNextClientID ::= (fun i => u32 (i + 1)) |>
    <| sb_mAttachedClients ::= cl_push_back (next_client s e) (sv_partyID e) c |>
    <| sb_conns ::= <[c := cn <| cn_mData ::= cd_addClient (next_client s e) |>]> |>.

(** ** Lemmas *)

Lemma in_group_spec g u :
  in_group g u = true <->
  exists members m, env_getgrgid (u32 g) = Some members /\ m ∈ members /\ env_getpwnam m = Some u.
Proof.
  unfold in_group. destruct (env_getgrgid (u32 g)) as [members|]; [|naive_solver].
  rewrite existsb_exists. setoid_rewrite <-list_elem_of_In. split.
  - intros (m & Hm & Hu). exists members, m. destruct (env_getpwnam m) as [v|]; [|done].
    apply Z.eqb_eq in Hu as ->. done.
  - intros (members' & m & [= <-] & Hm & Hu). exists m. rewrite Hu. split; [done|]. apply Z.eqb_refl.
Qed.

Lemma may_use_spec cn e :
  may_use cn e <->
  negb (sv_grpid e =? SB_UNKNOWN_GROUP_ID)
    && (negb (cn_isLocal cn) || negb (checkAccessPrivileges cn e)) = false.
Proof.
  unfold may_use, checkAccessPrivileges. rewrite <-in_group_spec.
  destruct (Z.eqb_spec (sv_grpid e) SB_UNKNOWN_GROUP_ID) as [Hg|Hg]; cbn [negb andb]; [naive_solver|].
  destruct (cn_isLocal cn); cbn [negb orb]; [|naive_solver].
  destruct (Z.eqb_spec (i32 (cn_mUid cn)) SB_UNKNOWN_USER_ID) as [Hu|Hu]; [cbn; naive_solver|].
  destruct (Z.eqb_spec (i32 (cn_mUid cn)) 0) as [H0|H0]; [cbn; naive_solver|].
  rewrite negb_false_iff. naive_solver.
Qed.

Lemma addClient_run old c serverID s cn :
  sb_conns s !! c = Some cn -> negb (sb_mUseServerCache s) || negb (cn_mSlave cn) = true ->
  let id := mkParty (sb_mNextClientID s)
              (if cf_mTreeMode (sb_mConfig s) then sb_mExtendedID s else extendedID serverID) in
  globalID id <> 0 ->
  addClient old c serverID s =
    (id, s <| sb_mNextClientID ::= (fun i => u32 (i + 1)) |>
           <| sb_mAttachedClients ::= cl_push_back id serverID c |>
           <| sb_conns ::= <[c := cn <| cn_mData ::= cd_addClient id |>]> |>).
Proof.
  intros Hc Hcond id Hid. unfold addClient. rewrite run_getS.
  erewrite run_bind; [|by apply run_get_conn]. rewrite Hcond, run_assoc, run_modify, run_ret. fold id.
  rewrite (proj2 (Z.eqb_neq _ _) Hid). cbn [negb whenM].
  erewrite run_bind; [|by apply run_upd_data]. done.
Qed.

(** The handler once the description has been checked and found. *)
Lemma handleAttach_found c d s e :
  check_ifDescription d env_after_name = true ->
  sl_find_ifDescr d (sb_mConnectedServers s) = Some e ->
  exec (handleAttachInterface c d) s =
  exec (r ← handleAttachLocalInterface c e;
        match snd r with
        | Some info => prepareResponse_data (sb_code FNDOK) (PL_connInfo info)
                         (sizeof (arg_o DCMD_FND_ATTACH_INTERFACE))
        | None => prepareResponse (sb_code (fst r))
        end) s.
Proof. intros Hck He. unfold handleAttachInterface. rewrite exec_getS, Hck, He. done. Qed.

Lemma exec_prepareResponse v s :
  mc_mState (sb_msg s) = State_PROCESSING ->
  exec (prepareResponse v) s = s <| sb_msg := snd (mc_prepareResponse v false (sb_msg s)) |>.
Proof. intros Hst. unfold exec, prepareResponse. rewrite run_with_msg_; [done|]. cbn. by rewrite Hst. Qed.

Lemma exec_prepareResponse_data v d n s :
  mc_mState (sb_msg s) = State_PROCESSING -> d <> PL_none ->
  exec (prepareResponse_data v d n) s = s <| sb_msg := snd (mc_prepareResponse_data v d n (sb_msg s)) |>.
Proof.
  intros Hst Hd. unfold exec, prepareResponse_data. rewrite run_with_msg_; [done|]. cbn.
  rewrite Hst. by destruct d.
Qed.

Lemma exec_deferResponse s : exec deferResponse s = s <| sb_msg ::= mc_deferResponse |>.
Proof. done. Qed.

Lemma run_attachLocal_allowed c s cn e :
  sb_conns s !! c = Some cn -> may_use cn e -> sb_mUseServerCache s = false ->
  globalID (next_client s e) <> 0 ->
  handleAttachLocalInterface c e s =
    ((FNDOK, Some (attach_info cn e (next_client s e))), attached c cn e s).
Proof.
  intros Hc Hmay Hcache Hid. unfold handleAttachLocalInterface.
  erewrite run_bind; [|by apply run_get_conn]. rewrite (proj1 (may_use_spec cn e) Hmay).
  erewrite run_bind; [|apply (addClient_run _ c _ s cn Hc); [by rewrite Hcache | exact Hid]].
  done.
Qed.

(** The handler for a known server and a caller the rule admits. *)
Lemma exec_attach_known c d s cn e :
  sl_find_ifDescr d (sb_mConnectedServers s) = Some e ->
  check_ifDescription d env_after_name = true -> sb_conns s !! c = Some cn -> may_use cn e ->
  sb_mUseServerCache s = false -> globalID (next_client s e) <> 0 ->
  mc_mState (sb_msg s) = State_PROCESSING ->
  exec (handleAttachInterface c d) s =
    attached c cn e s <| sb_msg :=
      snd (mc_prepareResponse_data (sb_code FNDOK) (PL_connInfo (attach_info cn e (next_client s e)))
             (sizeof (arg_o DCMD_FND_ATTACH_INTERFACE)) (sb_msg s)) |>.
Proof.
  intros He Hck Hc Hmay Hcache Hid Hst. rewrite (handleAttach_found c d s e) by done.
  unfold exec. erewrite run_bind;
    [|apply (run_attachLocal_allowed c s cn e Hc Hmay Hcache Hid)]. cbn [fst snd].
  set (s1 := attached c cn e s). change ((?m s1).2) with (exec m s1).
  by rewrite exec_prepareResponse_data.
Qed.

(** ** Properties *)

(** A caller the access rule admits is attached: it is sent [FNDOK] with the
    server's version, process, channel and id and its own fresh client id; exactly
    that client is recorded, in the list of attached clients and with its connection;
    the table, the notifications, the jobs and the other connections stay. *)
Lemma attach_known c d s cn e :
  let id := next_client s e in
  let s' := exec (handleAttachInterface c d) s in
  sl_find_ifDescr d (sb_mConnectedServers s) = Some e ->
  check_ifDescription d env_after_name = true -> sb_conns s !! c = Some cn -> may_use cn e ->
  sb_mUseServerCache s = false -> globalID id <> 0 ->
  mc_mState (sb_msg s) = State_PROCESSING -> mc_mPutOffset (sb_msg s) = 0 ->
  mc_response (sb_msg s') = mkResponse (sizeof (arg_o DCMD_FND_ATTACH_INTERFACE)) (sb_code FNDOK)
    (PL_connInfo (attach_info cn e id)) /\
  cl_mEntries (sb_mAttachedClients s') =
    cl_mEntries (sb_mAttachedClients s) ++ [mkClientEntry id (sv_partyID e) c] /\
  (exists cn', sb_conns s' = <[c := cn']> (sb_conns s) /\
     forall x, cd_clientExists x (cn_mData cn') = global_eqb x id || cd_clientExists x (cn_mData cn)) /\
  sb_mConnectedServers s' = sb_mConnectedServers s /\ sb_lists s' = sb_lists s /\
  sb_mQueue s' = sb_mQueue s /\ sb_out s' = sb_out s /\ sb_faults s' = sb_faults s.
Proof.
  intros id s' He Hck Hc Hmay Hcache Hid Hst Hput. unfold s'.
  rewrite (exec_attach_known c d s cn e) by done. split_and!; try done.
  - cbn. by rewrite Hput.
  - exists (cn <| cn_mData ::= cd_addClient id |>). split; [done|]. intros x.
    exact (pl_insert_exists id x (cd_mClientList (cn_mData cn))).
Qed.

(** C17. A caller the access rule does not admit learns nothing and changes nothing: the
    answer is [FNDAccessDenied] without data, and only the message differs. *)
Theorem attach_denied c d s cn e :
  sl_find_ifDescr d (sb_mConnectedServers s) = Some e ->
  check_ifDescription d env_after_name = true -> sb_conns s !! c = Some cn -> ~ may_use cn e ->
  mc_mState (sb_msg s) = State_PROCESSING -> mc_mPutOffset (sb_msg s) = 0 ->
  exists m, exec (handleAttachInterface c d) s = s <| sb_msg := m |> /\
    mc_mState m = State_SENT /\ mc_response m = mkResponse 0 (sb_code FNDAccessDenied) PL_none.
Proof.
  intros He Hck Hc Hmay Hst Hput. rewrite (handleAttach_found c d s e) by done.
  unfold handleAttachLocalInterface, exec. rewrite run_assoc.
  erewrite run_bind; [|by apply run_get_conn].
  rewrite may_use_spec, not_false_iff_true in Hmay. rewrite Hmay, run_ret. cbn [fst snd].
  change ((?m s).2) with (exec m s). rewrite exec_prepareResponse by done.
  eexists. split; [reflexivity|]. split; [done|]. cbn. by rewrite Hput.
Qed.

(** A description that does not pass [check] is answered with [FNDBadArgument]; one
    that is not in the table is forwarded, when it is not a local service, the
    configuration forwards it and the master is connected: the answer is deferred and
    exactly one job with the description and the waiting client is queued; otherwise
    it is answered with [FNDUnknownInterface].  Apart from that nothing changes. *)
Lemma attach_not_here c d s :
  sl_find_ifDescr d (sb_mConnectedServers s) = None \/ check_ifDescription d env_after_name = false ->
  mc_mState (sb_msg s) = State_PROCESSING -> mc_mPutOffset (sb_msg s) = 0 ->
  let s' := exec (handleAttachInterface c d) s in
  let name := cstr (sd_name d) in
  let forward := check_ifDescription d env_after_name && negb (isLocalService (sb_mConfig s) name)
    && forwardService (sb_mConfig s) name && isMasterConnected s in
  if forward then
    exists j, job_ctx j = Some c /\ job_cookie j = i32 (sb_mNextPendingRemoteServerRequestID s) /\
      (exists o, job_arg j = JA_Attach d o) /\ job_status j = 0 /\
      s' = s <| sb_mQueue ::= (fun q => q ++ [j]) |>
             <| sb_mNextPendingRemoteServerRequestID ::= (fun i => u32 (i + 1)) |>
             <| sb_msg ::= mc_deferResponse |>
  else
    exists m, s' = s <| sb_msg := m |> /\ mc_mState m = State_SENT /\
      mc_response m = mkResponse 0
        (sb_code (if check_ifDescription d env_after_name then FNDUnknownInterface else FNDBadArgument))
        PL_none.
Proof.
  intros Hnone Hst Hput s' name forward.
  assert (Hsent : forall v, exists m, exec (prepareResponse v) s = s <| sb_msg := m |> /\
    mc_mState m = State_SENT /\ mc_response m = mkResponse 0 v PL_none).
  { intros v. rewrite exec_prepareResponse by done. eexists. split; [reflexivity|]. split; [done|].
    cbn. by rewrite Hput. }
  unfold s', forward, handleAttachInterface. rewrite exec_getS. fold name.
  destruct (check_ifDescription d env_after_name) eqn:Hck; cbn [andb]; [|apply Hsent].
  destruct Hnone as [->|]; [|done].
  destruct (negb (isLocalService (sb_mConfig s) name) && forwardService (sb_mConfig s) name
    && isMasterConnected s) eqn:Hf; [|apply Hsent].
  apply andb_prop in Hf as [_ Hconn]. assert (Hm : isMaster s = false).
  { unfold isMasterConnected in Hconn. unfold isMaster. by destruct (sb_mAster s). }
  unfold exec, nextRequestID. rewrite run_assoc, run_getS, run_assoc, run_modify, run_ret.
  unfold master_eval. rewrite run_assoc, run_getS. cbn [isMaster update].
  eexists. split; [|split; [|split; [|split; [|]]]].
  5: { unfold isMaster in *. cbn. rewrite Hm. reflexivity. }
  all: try done. by eexists.
Qed.
(** *** The answer of the master *)

(** The code [execute] leaves in the job for a code received from the master. *)
Definition received_code (ret : Z) : Z := if ret <? 0 then - ret else ret.

(** A forwarded attach comes to an end with the master's answer: the job leaves the
    queue, the waiting client is sent the master's connection information when the
    code means success, the code alone when it means failure, and
    [FNDInternalError] for [FNDBadArgument]; its connection then writes.  The client
    id of the answer is recorded with the connection in either case, even when the
    master refused the attach. *)
Lemma attach_answered c s j q d o0 o ret cn :
  sb_mQueue s = j :: q -> job_ctx j = Some c -> job_arg j = JA_Attach d o0 ->
  sb_conns s !! c = Some cn -> cn_mState cn = CS_DEFERRED ->
  let s' := exec (run (Ev_job 0 ret (JA_Attach d o))) s in
  sb_mQueue s' = q /\
  sb_out s' = sb_out s ++ [O_deferred c
    (if ret =? sb_code FNDBadArgument then mkResponse 0 (sb_code FNDInternalError) PL_none
     else if received_code ret <=? sb_code FNDOK then
       mkResponse (job_rbytes j) (received_code ret) (PL_connInfo o)
     else mkResponse 0 (received_code ret) PL_none)] /\
  exists cn', sb_conns s' !! c = Some cn' /\ cn_mState cn' = CS_WRITING /\
    forall x, cd_clientExists x (cn_mData cn') =
      negb (ret =? sb_code FNDBadArgument) && global_eqb x (ci_clientID o)
      || cd_clientExists x (cn_mData cn).
Proof.
  intros Hq Hj Harg Hc Hst s'.
  set (s1 := s <| sb_mQueue := q |>).
  assert (Hs' : s' = exec (handleJobFinished (execute 0 ret (JA_Attach d o) j)) s1).
  { unfold s', run, job_done. rewrite exec_getS, Hq, exec_bind, exec_modify. done. }
  assert (Hfin : forall j' s2 cn2, job_ctx j' = Some c -> sb_conns s2 !! c = Some cn2 ->
    cn_mState cn2 = CS_DEFERRED ->
    exec (finalize j') s2 = s2 <| sb_conns ::= <[c := cn2 <| cn_mState := CS_WRITING |>]> |>
      <| sb_out ::= (fun l => l ++ [O_deferred c (deferred_response (job_status j') (job_ret_val j')
           (job_payload j') (job_rbytes j'))]) |>).
  { intros j' s2 cn2 Hj' Hc2 Hst2. unfold finalize. rewrite Hj', (exec_get_conn c cn2 _ s2 Hc2).
    rewrite bool_decide_eq_true_2 by done. cbn [assertM]. rewrite !exec_bind, exec_skip.
    unfold exec at 2. rewrite (run_upd_conn c _ s2 cn2 Hc2). done. }
  assert (Hfail : forall j' s2, job_status j' <> 0 ->
    exec (handleJobFinished j') s2 = exec (finalize j') s2).
  { intros j' s2 Hne. unfold handleJobFinished. by rewrite (proj2 (Z.eqb_neq _ _) Hne). }
  rewrite Hs'. unfold execute. cbn [Z.eqb]. unfold received_code.
  destruct (Z.eqb_spec ret (sb_code FNDBadArgument)) as [->|Hbad].
  { rewrite (Hfail _ s1) by done. rewrite (Hfin _ s1 cn); [|done..]. split; [done|]. split; [done|].
    eexists. split; [apply lookup_insert_eq|]. split; [done|]. intros x. done. }
  set (j1 := if ret <? 0 then _ else _).
  assert (Hj1 : job_ctx j1 = Some c /\ job_arg j1 = JA_Attach d o /\ job_status j1 = 0 /\
    job_rbytes j1 = job_rbytes j /\ job_ret_val j1 = if ret <? 0 then - ret else ret).
  { unfold j1. by destruct (ret <? 0). }
  destruct Hj1 as (H1 & H2 & H3 & H4 & H5). unfold handleJobFinished. rewrite exec_bind, H3. cbn [Z.eqb].
  set (cn2 := cn <| cn_mData ::= cd_addClient (ci_clientID o) |>).
  set (s2 := s1 <| sb_conns ::= <[c := cn2]> |>).
  assert (Hsw : job_switch j1 s1 = (j1, s2)).
  { unfold job_switch. rewrite run_getS, H2. unfold job_conn. rewrite H1, run_ret.
    erewrite run_bind; [|by apply (run_upd_data c _ s1 cn)]. done. }
  unfold eval, exec at 2 4 6. rewrite Hsw. cbn [fst snd].
  rewrite (Hfin j1 s2 cn2); [|done|apply lookup_insert_eq|done]. split; [done|]. split.
  - cbn [sb_out update]. unfold deferred_response, job_payload. rewrite H2, H3, H4, H5. done.
  - eexists. split; [apply lookup_insert_eq|]. split; [done|]. intros x.
    exact (pl_insert_exists (ci_clientID o) x (cd_mClientList (cn_mData cn))).
Qed.

End access.

(** ** Witnesses *)

Lemma attach_known_witness :
  let s := demo_state <| sb_msg := new_MessageContext 280 (mkResponse 0 11 PL_none)
                                     <| mc_mState := State_PROCESSING |> |> in
  rs_returncode (mc_response (sb_msg (exec (handleAttachInterface 2 demo_descr) s))) = 0.
Proof.
  intros s.
  destruct (attach_known 2 demo_descr s (default (new_Connection 0 0) (sb_conns s !! 2))
    (default (new_ServerListEntry env_implVersion 0) (sl_find_ifDescr demo_descr (sb_mConnectedServers s))))
    as [Hr _]; [by vm_compute | by vm_compute | by vm_compute | left; by vm_compute
      | by vm_compute | vm_compute; discriminate | by vm_compute | by vm_compute |].
  rewrite Hr. reflexivity.
Defined.

(** A server for group 50, whose members this environment does not know. *)
Definition demo_protected : SB :=
  demo_state <| sb_mConnectedServers ::= sl_update_party (mkParty 500001 1000)
                  (fun e => e <| sv_grpid := 50 |>) |>
             <| sb_conns ::= alter (fun cn => cn <| cn_mUid := 1000 |>) 2 |>
             <| sb_msg := new_MessageContext 280 (mkResponse 0 11 PL_none)
                            <| mc_mState := State_PROCESSING |> |>.

Lemma attach_denied_witness :
  exists m, exec (handleAttachInterface 2 demo_descr) demo_protected = demo_protected <| sb_msg := m |> /\
    mc_response m = mkResponse 0 (sb_code FNDAccessDenied) PL_none.
Proof.
  destruct (attach_denied 2 demo_descr demo_protected (default (new_Connection 0 0) (sb_conns demo_protected !! 2))
    (default (new_ServerListEntry env_implVersion 0)
       (sl_find_ifDescr demo_descr (sb_mConnectedServers demo_protected)))) as (m & Hm & _ & Hr).
  1-3, 5-6: by vm_compute.
  - intros [Hg|(_ & _ & [H0|(members & m & Hg & _)])]; [vm_compute in Hg; discriminate Hg
      | vm_compute in H0; discriminate H0 | vm_compute in Hg; discriminate Hg].
  - exists m. split; [exact Hm | exact Hr].
Defined.

Lemma attach_not_here_witness :
  let s := demo_ready <| sb_msg := new_MessageContext 280 (mkResponse 0 11 PL_none)
                           <| mc_mState := State_PROCESSING |> |> in
  responseState (exec (handleAttachInterface 1 demo_descr) s) = State_DEFERRED.
Proof.
  intros s. destruct (attach_not_here 1 demo_descr s) as (j & _ & _ & _ & _ & Hs);
    [left; by vm_compute | by vm_compute | by vm_compute |].
  exact (f_equal responseState Hs).
Defined.

Lemma attach_answered_witness :
  exists cn', sb_conns (exec (run (Ev_job 0 0 (JA_Attach demo_descr
      (mkConnInfo (mkVersion 1 0) (mkChannel 0 5 9) (mkParty 7 0) (mkParty 8 0))))) demo_deferred) !! 1
    = Some cn' /\ cn_mState cn' = CS_WRITING.
Proof.
  destruct (attach_answered 1 demo_deferred demo_job [] demo_descr zero_connInfo
    (mkConnInfo (mkVersion 1 0) (mkChannel 0 5 9) (mkParty 7 0) (mkParty 8 0)) 0
    (default (new_Connection 0 0) (sb_conns demo_deferred !! 1)))
    as (_ & _ & cn' & H1 & H2 & _); [by vm_compute..|].
  exists cn'. split; [exact H1 | exact H2].
Defined.
