(* ===== verification/Lists.v ===== *)
(** Lists of servers: the interface list requests, the merging of the master's list
    with the own servers, and the announcement of registrations to the master in
    batches of [MAX_MULTIPLE_COUNT]. *)

From S2P Require Import Prelude.
From S2P Require Import Layout.
From S2P Require Import Types.
From S2P Require Import ServerList.
From S2P Require Import ConfigFile.
From S2P Require Import ClientData.
From S2P Require Import JobQueue.
From S2P Require Import Environment.
From S2P Require Import PulseChannelManager.
From S2P Require Import NotificationPool.
From S2P Require Import MessageContext.
From S2P Require Import State.
From S2P Require Import Notifications.
From S2P Require Import Registration.
From S2P Require Import Notify.
From S2P Require Import Attach.
From S2P Require Import Jobs.
From S2P Require Import Dispatch.
From S2P Require Import System.
From S2P Require Import Frames.
From S2P Require Import Protocol.

(** ** Specification *)

(** The description of an entry as a client receives it. *)
Definition descr_of (e : ServerListEntry) : SFNDInterfaceDescription :=
  SFND_of_ifDescr (sv_ifDescription e).

(** The response that lists [l]: its length as a negative code, the descriptions as
    ancillary data. *)
Definition list_response (l : list ServerListEntry) : Response :=
  match l with
  | [] => mkResponse 0 0 PL_none
  | _ => mkResponse (Z.of_nat (length l) * sizeof lay_SFNDInterfaceDescription)
           (- Z.of_nat (length l)) (PL_ancillary (AN_ifDescription ∘ descr_of <$> l))
  end.

(** A message whose handler has just started. *)
Definition started (s : SB) : Prop :=
  mc_mState (sb_msg s) = State_PROCESSING /\ mc_mPutOffset (sb_msg s) = 0 /\
  mc_written (sb_msg s) = [].

(** The registrations a job carries. *)
Definition registrations (j : Job) : list SFNDInterfaceDescriptionEx :=
  match job_arg j with JA_RegisterMasterEx descr _ => descr | _ => [] end.

(** A well-formed registration job: between 1 and 32 interfaces, nobody waits for it,
    and its count and sizes fit its content. *)
Definition batch (j : Job) : Prop :=
  let n := Z.of_nat (length (registrations j)) in
  0 < n <= MAX_MULTIPLE_COUNT /\ job_ctx j = None /\ job_cookie j = n /\
  job_sbytes j = sizeof (arg_union DCMD_FND_REGISTER_MASTER_INTERFACE_EX)
    + n * sizeof lay_SFNDInterfaceDescriptionEx /\
  job_rbytes j = n * sizeof lay_SPartyID /\ arg_dcmd (job_arg j) = DCMD_FND_REGISTER_MASTER_INTERFACE_EX.

(** The mark of an announced entry. *)
Definition announce (cfg : ConfigFile) (e : ServerListEntry) : ServerListEntry :=
  if to_forward cfg e then e <| sv_masterID := party_of_global (u32 (-1)) |> else e.

(** The message after the descriptions of [l] have been written behind [w]. *)
Definition wrote (l : list ServerListEntry) (s : SB) : SB :=
  s <| sb_msg ::= (fun m => m
    <| mc_mPutOffset ::= Z.add (Z.of_nat (length l) * sizeof lay_SFNDInterfaceDescription) |>
    <| mc_written ::= (fun w => w ++ (AN_ifDescription ∘ descr_of <$> l)) |>) |>.

(** The state with [js] appended to the job queue. *)
Definition queued (js : list Job) (s : SB) : SB := s <| sb_mQueue ::= (fun q => q ++ js) |>.

(** ** Ancillary data *)

Lemma SFNDDescr_size_pos : 0 < sizeof lay_SFNDInterfaceDescription.
Proof. by vm_compute. Qed.

Lemma wrote_nil s : wrote [] s = s.
Proof. destruct s as [? ? ? ? ? ? ? ? ? ? ? ? ? ? ? ? ? ? ? ? ? ? ? ? ? ? m ? ? ?], m. unfold wrote. cbn. by rewrite app_nil_r. Qed.

Lemma wrote_cons e l s : wrote l (wrote [e] s) = wrote (e :: l) s.
Proof.
  destruct s as [? ? ? ? ? ? ? ? ? ? ? ? ? ? ? ? ? ? ? ? ? ? ? ? ? ? m ? ? ?], m. unfold wrote.
  generalize (sizeof lay_SFNDInterfaceDescription). intros sz. cbn -[Z.mul Z.of_nat]. do 2 f_equal; [rewrite Nat2Z.inj_succ; lia | by rewrite <-app_assoc].
Qed.

Lemma run_writeDescr e s :
  mc_mState (sb_msg s) = State_PROCESSING -> 0 <= mc_mPutOffset (sb_msg s) ->
  writeAncillaryData (AN_ifDescription (SFND_of_ifDescr (sv_ifDescription e))) s = (tt, wrote [e] s).
Proof.
  intros Hst Hput. unfold writeAncillaryData. rewrite run_with_msg_.
  - by f_equal.
  - cbn. rewrite Hst. cbn. by apply Z.leb_le.
Qed.

Lemma wrote_state l s : mc_mState (sb_msg (wrote l s)) = mc_mState (sb_msg s).
Proof. done. Qed.

Lemma wrote_put l s :
  mc_mPutOffset (sb_msg (wrote l s)) =
    Z.of_nat (length l) * sizeof lay_SFNDInterfaceDescription + mc_mPutOffset (sb_msg s).
Proof. done. Qed.

Lemma write_all l s :
  mc_mState (sb_msg s) = State_PROCESSING -> 0 <= mc_mPutOffset (sb_msg s) ->
  exec (forM_ l (fun e => writeAncillaryData
    (AN_ifDescription (SFND_of_ifDescr (sv_ifDescription e))))) s = wrote l s.
Proof.
  revert s. induction l as [|e l IH]; intros s Hst Hput; cbn [forM_].
  - by rewrite wrote_nil.
  - rewrite exec_bind. unfold exec at 2. rewrite run_writeDescr by done. cbn [snd].
    rewrite IH, wrote_cons; [done|done|]. rewrite wrote_put. pose proof SFNDDescr_size_pos. lia.
Qed.

(** Ending a list response. *)
Lemma respond_list l s :
  started s ->
  exists m, exec (prepareResponse (- Z.of_nat (length l))) (wrote l s) = s <| sb_msg := m |> /\
    mc_mState m = State_SENT /\ mc_response m = list_response l.
Proof.
  intros (Hst & Hput & Hw). unfold exec, prepareResponse. rewrite run_with_msg_ by (cbn; by rewrite Hst).
  eexists. split; [reflexivity|]. split; [done|]. cbn [mc_prepareResponse snd mc_response update].
  rewrite wrote_put, Hput, Z.add_0_r. destruct l as [|e l]; [done|].
  pose proof SFNDDescr_size_pos. rewrite (proj2 (Z.ltb_lt _ _)) by (cbn [length]; lia).
  rewrite (proj2 (Z.leb_le _ _)) by (cbn [length sb_code]; lia). cbn [andb].
  unfold list_response. f_equal. cbn. by rewrite Hw.
Qed.


(** ** GET_INTERFACELIST without a master *)

Section lists.
Context `{Env}.

(** Without a connected master [GET_INTERFACELIST] returns all servers the caller
    may see, in table order, with their number as a negative code: a slave is not told
    about local servers, everyone else about all.  A buffer smaller than the table is
    refused with [FNDBadArgument].  Nothing but the message changes. *)
Lemma getInterfaceList_local c n s cn :
  isMasterConnected s = false -> sb_conns s !! c = Some cn -> started s ->
  exists m, exec (handleGetInterfaceList c n) s = s <| sb_msg := m |> /\ mc_mState m = State_SENT /\
    mc_response m =
      if sl_size (sb_mConnectedServers s) <=? u32 (i32 n) then
        list_response (filter (fun e => negb (cn_mSlave cn && sv_local e) = true)
          (sl_mEntries (sb_mConnectedServers s)))
      else mkResponse 0 (sb_code FNDBadArgument) PL_none.
Proof.
  intros Hm Hc Hst. unfold handleGetInterfaceList. rewrite exec_getS, Hm.
  destruct (sl_size _ <=? _).
  - rewrite (exec_get_conn c cn _ s Hc).
    assert (Hf : filter (fun e => visible cn e = true) (sl_mEntries (sb_mConnectedServers s)) =
      filter (fun e => negb (cn_mSlave cn && sv_local e) = true) (sl_mEntries (sb_mConnectedServers s))).
    { apply list_filter_iff. intros e. unfold visible. by rewrite negb_andb. }
    rewrite Hf. cbv zeta. rewrite exec_bind. destruct Hst as (H1 & H2 & H3).
    rewrite write_all by (try done; lia). by apply respond_list.
  - destruct Hst as (H1 & H2 & H3). unfold exec, prepareResponse.
    rewrite run_with_msg_ by (cbn; by rewrite H1).
    eexists. split; [reflexivity|]. split; [done|]. cbn. by rewrite H2.
Qed.

(** ** MATCH_INTERFACELIST without a master *)

Lemma match_loop_run cn re inCount l retCount s :
  mc_mState (sb_msg s) = State_PROCESSING -> 0 <= mc_mPutOffset (sb_msg s) ->
  retCount + Z.of_nat (length (filter (fun e => RegExp_matches (Some re) (sv_name e) = true) l)) <= inCount ->
  let found := filter (fun e => RegExp_matches (Some re) (sv_name e) && visible cn e = true) l in
  match_loop cn re inCount l retCount s = ((retCount + Z.of_nat (length found), true), wrote found s).
Proof.
  revert retCount s. induction l as [|e l IH]; intros retCount s Hst Hput Hcount found; subst found;
    cbn [match_loop].
  - cbn. by rewrite wrote_nil, Z.add_0_r.
  - rewrite filter_cons in Hcount |- *.
    destruct (RegExp_matches (Some re) (sv_name e)); cbn [andb] in *.
    + rewrite decide_True in Hcount by done. cbn [length] in Hcount.
      rewrite (proj2 (Z.leb_gt inCount retCount)) by lia. destruct (visible cn e).
      * rewrite decide_True by done. erewrite run_bind; [|by apply run_writeDescr].
        rewrite IH; [|done| |lia].
        -- rewrite wrote_cons. cbn [length]. do 2 f_equal. lia.
        -- rewrite wrote_put. pose proof SFNDDescr_size_pos. cbn [length]. lia.
      * rewrite decide_False by done. apply IH; [done..|lia].
    + rewrite decide_False in Hcount by done. rewrite decide_False by done. by apply IH.
Qed.

(** Without a connected master [MATCH_INTERFACELIST] returns exactly the visible
    servers whose name the pattern matches, in table order, whenever the caller's
    buffer has room for all the matches. *)
Lemma matchInterfaceList_local c n re s cn :
  env_regcomp (cstr re) = 0 -> isMasterConnected s = false -> sb_conns s !! c = Some cn -> started s ->
  let l := sl_mEntries (sb_mConnectedServers s) in
  Z.of_nat (length (filter (fun e => RegExp_matches (Some (cstr re)) (sv_name e) = true) l)) <= i32 n ->
  exists m, exec (handleMatchInterfaceList c n re) s = s <| sb_msg := m |> /\ mc_mState m = State_SENT /\
    mc_response m = list_response
      (filter (fun e => RegExp_matches (Some (cstr re)) (sv_name e) && visible cn e = true) l).
Proof.
  intros Hre Hm Hc Hst l Hn. unfold handleMatchInterfaceList. rewrite exec_getS, Hre, Hm. cbn [Z.eqb negb].
  rewrite (exec_get_conn c cn _ s Hc). unfold exec. pose proof Hst as (H1 & H2 & H3).
  erewrite run_bind; [|apply match_loop_run; [done|lia|exact Hn]]. cbn [fst snd].
  rewrite Z.add_0_l. by apply respond_list.
Qed.

End lists.

(** ** The master's list *)

Lemma write_at_end {A} (zero x : A) (l : list A) : write_at zero (length l) x l = l ++ [x].
Proof.
  unfold write_at. rewrite take_ge by lia. rewrite Nat.sub_diag. cbn. by rewrite drop_ge by lia.
Qed.

Lemma append_own_spec own cookie l ret_val o :
  Z.of_nat (length o) = ret_val ->
  append_own own cookie l ret_val o =
    let mine := filter (fun e => own e = true) l in
    if bool_decide (mine = []) || (ret_val + Z.of_nat (length mine) <=? cookie)
    then Some (ret_val + Z.of_nat (length mine), o ++ (descr_of <$> mine)) else None.
Proof.
  revert ret_val o. induction l as [|e l IH]; intros ret_val o Hlen; cbn [append_own].
  - cbn. by rewrite Z.add_0_r, app_nil_r.
  - rewrite filter_cons. destruct (own e) eqn:He.
    + rewrite decide_True by done. cbv zeta. rewrite bool_decide_eq_false_2 by done. cbn [orb length].
      destruct (Z.leb_spec cookie ret_val).
      * by rewrite (proj2 (Z.leb_gt _ _)) by lia.
      * replace (Z.to_nat ret_val) with (length o) by lia. rewrite write_at_end, IH.
        2: { rewrite length_app. cbn. lia. }
        cbv zeta. set (mine := filter _ l).
        destruct (Z.leb_spec (ret_val + Z.of_nat (S (length mine))) cookie) as [Hle|Hgt].
        -- rewrite (proj2 (Z.leb_le _ _)) by lia. rewrite orb_true_r, <-app_assoc. cbn. do 2 f_equal. lia.
        -- rewrite (proj2 (Z.leb_gt _ _)) by lia. rewrite orb_false_r.
           case_bool_decide as Hm; [|done]. rewrite Hm in Hgt. cbn in Hgt. lia.
    + by rewrite decide_False, IH by done.
Qed.

(** When the master has answered a list request with [ret_val] servers, the own
    servers it does not know are appended behind them in table order; the job then
    reports the total as a negative code with the matching byte count.  It never
    writes more entries than the caller announced room for ([cookie]): if the own
    servers do not fit, the job fails and no data is returned. *)
Lemma list_job_merges own l set_o o j :
  Z.of_nat (length o) = job_ret_val j ->
  let mine := filter (fun e => own e = true) l in
  let total := job_ret_val j + Z.of_nat (length mine) in
  let j' := list_job_finished own l set_o o j in
  if bool_decide (mine = []) || (total <=? job_cookie j) then
    job_arg j' = set_o (o ++ (descr_of <$> mine)) /\ job_ret_val j' = - total /\
    job_rbytes j' = Z.of_nat (length (o ++ (descr_of <$> mine))) * sizeof lay_SFNDInterfaceDescription /\
    job_status j' = job_status j
  else job_status j' = EINVAL /\ job_rbytes j' = 0.
Proof.
  intros Hlen mine total j'. unfold j', list_job_finished. rewrite append_own_spec by done.
  cbv zeta. fold mine total. destruct (_ || _); [|done]. split_and!; try done.
  cbn -[Z.mul]. f_equal. rewrite length_app, length_fmap. unfold total. lia.
Qed.

(** ** Announcing registrations *)

Section announcing.
Context `{Env}.

Lemma queued_nil s : queued [] s = s.
Proof. destruct s. unfold queued. cbn. by rewrite app_nil_r. Qed.

Lemma queued_app js js' s : queued js' (queued js s) = queued (js ++ js') s.
Proof. destruct s. unfold queued. cbn. by rewrite app_assoc. Qed.

Lemma run_send_registrations descr s :
  isMaster s = false -> 0 < Z.of_nat (length descr) <= MAX_MULTIPLE_COUNT ->
  exists j, send_registrations descr s = (tt, queued [j] s) /\ batch j /\ registrations j = descr.
Proof.
  intros Hm Hn. unfold send_registrations, master_eval. rewrite run_getS, Hm. eexists.
  split; [reflexivity|]. split; [|done]. unfold batch. cbn [registrations job_arg create_Job].
  unfold MAX_MULTIPLE_COUNT in *. split_and!; try done; try lia. cbn. apply i32_small. lia.
Qed.

Lemma to_forward_announce cfg e : to_forward cfg (announce cfg e) = false.
Proof. unfold announce. destruct (to_forward cfg e) eqn:E; [|done]. done. Qed.

Lemma register_loop_run cfg l descr s :
  isMaster s = false -> Z.of_nat (length descr) < MAX_MULTIPLE_COUNT ->
  exists js rest,
    register_loop cfg l descr s = ((announce cfg <$> l, rest), queued js s) /\
    Forall batch js /\ Z.of_nat (length rest) < MAX_MULTIPLE_COUNT /\
    concat (registrations <$> js) ++ rest =
      descr ++ (descrEx_of <$> filter (fun e => to_forward cfg e = true) l).
Proof.
  intros Hm. revert descr s Hm. induction l as [|e l IH]; intros descr s Hm Hlen; cbn [register_loop].
  - exists [], descr. rewrite queued_nil. cbn. by rewrite app_nil_r.
  - rewrite filter_cons. cbn [fmap list_fmap]. unfold announce at 1.
    destruct (to_forward cfg e) eqn:He; cbv zeta.
    + rewrite decide_True by done.
      assert (Hlen' : Z.of_nat (length (descr ++ [descrEx_of e])) = Z.of_nat (length descr) + 1)
        by (rewrite length_app; cbn; lia).
      destruct (Z.eqb_spec (Z.of_nat (length (descr ++ [descrEx_of e]))) MAX_MULTIPLE_COUNT) as [Hfull|Hfull].
      * destruct (run_send_registrations (descr ++ [descrEx_of e]) s Hm) as (j & Hj & Hb & Hr); [lia|].
        rewrite run_assoc. erewrite run_bind; [|exact Hj]. rewrite run_ret.
        destruct (IH [] (queued [j] s)) as (js & rest & Hrun & Hjs & Hrest & Hcat); [done|by vm_compute|].
        exists (j :: js), rest. erewrite run_bind; [|exact Hrun]. split_and!; [|by constructor|done|].
        -- cbn [fst snd]. by rewrite queued_app.
        -- cbn. rewrite Hr, <-app_assoc, Hcat. by rewrite <-app_assoc.
      * rewrite run_ret. destruct (IH (descr ++ [descrEx_of e]) s Hm) as (js & rest & Hrun & Hjs & Hrest & Hcat); [lia|].
        exists js, rest. erewrite run_bind; [|exact Hrun]. split_and!; [done..|].
        rewrite Hcat. cbn. by rewrite <-app_assoc.
    + rewrite decide_False by done.
      destruct (IH descr s Hm Hlen) as (js & rest & Hrun & Hjs & Hrest & Hcat).
      exists js, rest. by erewrite run_bind; [|exact Hrun].
Qed.

Lemma connected_not_master s : isMasterConnected s = true -> isMaster s = false.
Proof. unfold isMasterConnected, isMaster. by destruct (sb_mAster s). Qed.

Lemma registerInterfacesMaster_run s :
  isMasterConnected s = true ->
  exists js,
    exec registerInterfacesMaster s = s <| sb_mQueue ::= (fun q => q ++ js) |>
      <| sb_mConnectedServers ::= (fun sl => sl <| sl_mEntries :=
           announce (sb_mConfig s) <$> sl_mEntries (sb_mConnectedServers s) |>) |> /\
    Forall batch js /\ concat (registrations <$> js) =
      descrEx_of <$> filter (fun e => to_forward (sb_mConfig s) e = true)
        (sl_mEntries (sb_mConnectedServers s)).
Proof.
  intros Hc. unfold registerInterfacesMaster, exec. rewrite run_getS, Hc.
    destruct (register_loop_run (sb_mConfig s) (sl_mEntries (sb_mConnectedServers s)) [] s)
      as (js & rest & Hrun & Hjs & Hrest & Hcat); [by apply connected_not_master | by vm_compute|].
    erewrite run_bind; [|exact Hrun]. rewrite run_modify. cbn [fst snd].
    set (s1 := queued js s <| sb_mConnectedServers ::= _ |>).
    destruct (Z.ltb_spec 0 (Z.of_nat (length rest))) as [Hpos|Hzero]; cbn [whenM].
    - destruct (run_send_registrations rest s1) as (j & Hj & Hb & Hr); [by apply connected_not_master | lia|].
      rewrite Hj. exists (js ++ [j]). cbn [snd]. split_and!.
      + unfold s1, queued. destruct s. cbn. by rewrite <-app_assoc.
      + by apply Forall_app; split; [|constructor].
      + rewrite fmap_app, concat_app. cbn. by rewrite Hr, app_nil_r.
    - assert (rest = []) as -> by (destruct rest; [done|cbn in Hzero; lia]).
      exists js. rewrite app_nil_r in Hcat. done.
Qed.

(** C20. Once the master is connected, [registerInterfacesMaster] announces every
    registration it has not been told yet, each exactly once and in table order, in
    well-formed jobs of at most 32 interfaces; it marks exactly those entries, so a
    second call sends nothing; and it changes nothing else. *)
Theorem registerInterfacesMaster_announces s :
  isMasterConnected s = true ->
  let cfg := sb_mConfig s in
  let l := sl_mEntries (sb_mConnectedServers s) in
  let s' := exec registerInterfacesMaster s in
  exists js,
    s' = s <| sb_mQueue ::= (fun q => q ++ js) |>
           <| sb_mConnectedServers ::= (fun sl => sl <| sl_mEntries := announce cfg <$> l |>) |> /\
    Forall batch js /\
    concat (registrations <$> js) = descrEx_of <$> filter (fun e => to_forward cfg e = true) l /\
    exec registerInterfacesMaster s' = s'.
Proof.
  intros Hc cfg l s'.
  destruct (registerInterfacesMaster_run s Hc) as (js & Hs' & Hjs & Hcat). exists js. fold s' in Hs'.
  split_and!; [exact Hs'|done..|].
  assert (Hc' : isMasterConnected s' = true) by (by rewrite Hs').
  destruct (registerInterfacesMaster_run s' Hc') as (js' & -> & Hjs' & Hcat').
  assert (He : sl_mEntries (sb_mConnectedServers s') = announce cfg <$> l) by (by rewrite Hs').
  assert (Hcfg : sb_mConfig s' = cfg) by (by rewrite Hs').
  rewrite He, Hcfg in *.
  assert (Hno : filter (fun e => to_forward cfg e = true) (announce cfg <$> l) = []).
  { clear. induction l as [|e l IH]; [done|]. rewrite fmap_cons, filter_cons, to_forward_announce.
    by rewrite decide_False by done. }
  rewrite Hno in Hcat'. assert (js' = []) as ->.
  { destruct js' as [|j js']; [done|]. apply Forall_cons in Hjs' as [[Hb _] _]. exfalso.
    cbn in Hcat'. apply app_eq_nil in Hcat' as [Hcat' _]. rewrite Hcat' in Hb. cbn in Hb. lia. }
  assert (Hann : announce cfg <$> (announce cfg <$> l) = announce cfg <$> l).
  { rewrite <-list_fmap_compose. apply list_fmap_ext. intros i e _. cbn. unfold announce at 1.
    by rewrite to_forward_announce. }
  rewrite Hann, <-He. generalize s'. intros [? ? ? ? ? ? ? ? ? ? ? ? ? ? ? ? ? ? ? ? ? ? ? ? ? ? ? ? ? ?].
  cbn. rewrite app_nil_r. f_equal. by destruct sb_mConnectedServers.
Qed.

End announcing.

(** ** Witnesses *)

(** The demo run with a further, local service, seen by the client of connection 2. *)
Definition demo_listed : SB :=
  demo_state <| sb_msg := new_MessageContext 280 (mkResponse 0 11 PL_none)
                            <| mc_mState := State_PROCESSING |> |>.

Definition demo_client : Connection := default (new_Connection 0 0) (sb_conns demo_listed !! 2).

Lemma getInterfaceList_local_witness :
  rs_returncode (mc_response (sb_msg (exec (handleGetInterfaceList 2 4) demo_listed))) = -1.
Proof.
  destruct (getInterfaceList_local 2 4 demo_listed demo_client) as (m & -> & _ & Hr);
    [by vm_compute | by vm_compute | split_and!; by vm_compute |].
  change (rs_returncode (mc_response m) = -1). rewrite Hr. by vm_compute.
Defined.

Lemma matchInterfaceList_local_witness :
  rs_returncode (mc_response (sb_msg
    (exec (handleMatchInterfaceList 2 4 (bytes_of_string "Media")) demo_listed))) = -1.
Proof.
  destruct (matchInterfaceList_local 2 4 (bytes_of_string "Media") demo_listed demo_client)
    as (m & -> & _ & Hr);
    [by vm_compute | by vm_compute | by vm_compute | split_and!; by vm_compute
     | vm_compute; discriminate |].
  change (rs_returncode (mc_response m) = -1). rewrite Hr. by vm_compute.
Defined.

(** The master has returned one server; one own server is appended. *)
Lemma list_job_merges_witness :
  let j := create_Job (Some 1) 4 (JA_GetInterfaceList 4 [demo_descr]) 8 0 <| job_ret_val := 1 |> in
  job_ret_val (list_job_finished (fun _ => true) [new_ServerListEntry env_implVersion 1]
    (JA_GetInterfaceList 4) [demo_descr] j) = -2.
Proof.
  intros j.
  pose proof (list_job_merges (fun _ => true) [new_ServerListEntry env_implVersion 1]
    (JA_GetInterfaceList 4) [demo_descr] j eq_refl) as H.
  exact (proj1 (proj2 H)).
Defined.

(** The registration of the demo run on a slave whose master is not there yet. *)
Definition demo_unannounced : SB :=
  exec (run_all (take 3 demo_events)) (demo_start true) <| sb_mAster := Some true |>.

Lemma registerInterfacesMaster_announces_witness :
  exists js, concat (registrations <$> js) = descrEx_of <$> sl_mEntries (sb_mConnectedServers demo_unannounced) /\
    Forall batch js.
Proof.
  destruct (registerInterfacesMaster_announces demo_unannounced eq_refl) as (js & _ & Hjs & Hcat & _).
  exists js. split; [|exact Hjs]. rewrite Hcat. by vm_compute.
Defined.
