(* ===== verification/JobOrder.v ===== *)
(** The queue of jobs only grows at its end.

    No operation of the servicebroker's thread but the return of a job takes a job off the
    queue or changes the order of the jobs in it, and none but the worker thread changes
    whether the master is connected. *)

From S2P Require Import Prelude.
From S2P Require Import Layout.
From S2P Require Import Types.
From S2P Require Import ServerList.
From S2P Require Import ConfigFile.
From S2P Require Import ClientData.
From S2P Require Import JobQueue.
From S2P Require Import Environment.
From S2P Require Import PulseChannelManager.
From S2P Require Import NotificationPool.
From S2P Require Import MessageContext.
From S2P Require Import State.
From S2P Require Import Notifications.
From S2P Require Import Registration.
From S2P Require Import Notify.
From S2P Require Import Attach.
From S2P Require Import Jobs.
From S2P Require Import Dispatch.
From S2P Require Import System.

(** What is followed through a computation: the jobs, whether the master is connected, how far
    the request is answered and the next number of a connection. *)
Definition tracked (P : list Job -> option bool -> MsgState -> Z -> Prop) (s : SB) : Prop :=
  P (sb_mQueue s) (sb_mAster s) (responseState s) (sb_nextId s).

(** A property of them that more jobs nobody waits for do not break, nor answering a request.
    With [gr_defers] neither does deferring it, nor a job somebody waits for. *)
Class Growing (P : list Job -> option bool -> MsgState -> Z -> Prop) := {
  gr_defers : Prop;
  gr_push j q m r n : job_ctx j = None \/ gr_defers -> P q m r n -> P (q ++ [j]) m r n;
  gr_answer r' q m r n : r' <> State_DEFERRED -> P q m r n -> P q m r' n;
  gr_defer q m r n : gr_defers -> P q m r n -> P q m State_DEFERRED n;
}.

(** [q] with more jobs behind it, and the master as [m] says. *)
Definition grown (q : list Job) (m : option bool) (q' : list Job) (m' : option bool) (r : MsgState) (n : Z) : Prop :=
  (exists l, q' = q ++ l) /\ m' = m.

#[export] Instance grown_growing q m : Growing (grown q m).
Proof.
  apply (Build_Growing _ True); unfold grown; [|done..]. intros j q' m' r n _ [[l ->] Hm]. split; [|done].
  exists (l ++ [j]). by rewrite app_assoc.
Defined.

(** Walk through a computation, opening the operations on the way. *)
Ltac head_of t := lazymatch t with ?f _ => head_of f | _ => t end.
Ltac grow_step :=
  first
    [ preserve_step
    | lazymatch goal with
      | |- preserves (tracked _) (modify _) => apply preserves_modify; intros ? Hgrown; exact Hgrown
      | |- preserves (tracked _) ?m => let h := head_of m in unfold h
      end ].
Ltac grow := repeat grow_step.

Section grown.
Context `{Env} (P : list Job -> option bool -> MsgState -> Z -> Prop) `{!Growing P}.
Notation grows := (preserves (tracked P)).

Lemma grows_master_eval j : job_ctx j = None \/ gr_defers -> grows (master_eval j).
Proof. intros Hj. unfold master_eval. grow. apply preserves_modify. intros s'. by apply gr_push. Qed.

Lemma grows_with_msg {A} (f : MessageContext -> bool * A * MessageContext) :
  (forall m, mc_mState (f m).2 = mc_mState m \/ mc_mState (f m).2 <> State_DEFERRED) -> grows (with_msg f).
Proof.
  intros Hf. unfold with_msg. apply preserves_read. intros s Hs. specialize (Hf (sb_msg s)).
  destruct (f (sb_msg s)) as [[ok a] m]. rewrite exec_bind, exec_modify.
  assert (tracked P (s <| sb_msg := m |>)) as Hs'.
  { destruct Hf as [Hf|Hf]; [unfold tracked, responseState in *; cbn in *; by rewrite Hf|by apply (gr_answer _ _ _ _ _ Hf Hs)]. }
  revert Hs'. apply run_preserves. grow.
Qed.

Lemma grows_readData len : grows (readData len).
Proof. apply grows_with_msg. by right. Qed.

Lemma grows_readAncillaryData len : grows (readAncillaryData len).
Proof. apply grows_with_msg. left. cbn. by case_match. Qed.

Lemma grows_writeAncillaryData a : grows (writeAncillaryData a).
Proof. apply grows_with_msg. by left. Qed.

Lemma grows_prepareResponse v : grows (prepareResponse v).
Proof. apply grows_with_msg. by right. Qed.

Lemma grows_prepareResponse_force v : grows (prepareResponse_force v).
Proof. apply grows_with_msg. by right. Qed.

Lemma grows_prepareResponse_data v d len : grows (prepareResponse_data v d len).
Proof. apply grows_with_msg. by right. Qed.

Lemma grows_deferResponse : gr_defers -> grows deferResponse.
Proof. intros Hd. apply preserves_modify. intros s. by apply gr_defer. Qed.

#[local] Hint Extern 2 (preserves (tracked _) (master_eval _)) =>
  (eapply grows_master_eval; left; reflexivity) : preserve.

Lemma grows_destroy n : grows (destroy n).
Proof. grow. Qed.

Lemma grows_copy n : grows (copy_Notification n).
Proof. grow. Qed.

Lemma grows_send n : grows (send n).
Proof. grow. Qed.

Lemma grows_get_conn c : grows (get_conn c).
Proof. grow. Qed.

Lemma grows_upd_data c f : grows (upd_data c f).
Proof. grow. Qed.

Lemma grows_upd_conn c f : grows (upd_conn c f).
Proof. grow. Qed.

#[local] Hint Resolve grows_destroy grows_copy grows_send grows_get_conn grows_upd_data grows_upd_conn : preserve.

Lemma grows_walk body l : (forall n, grows (body n)) -> grows (walk body l).
Proof. intros Hb. induction l; cbn [walk]; grow; auto. Qed.

Lemma grows_walk_first p body l : (forall n, grows (body n)) -> grows (walk_first p body l).
Proof. intros Hb. induction l; cbn [walk_first]; grow; auto. Qed.

#[local] Hint Resolve grows_walk grows_walk_first : preserve.

Lemma grows_on_list k body : (forall n, grows (body n)) -> grows (on_list k body).
Proof. intros Hb. unfold on_list. grow. Qed.

Lemma grows_on_first k p body : (forall n, grows (body n)) -> grows (on_first k p body).
Proof. intros Hb. unfold on_first. grow. Qed.

End grown.

(** A job nobody waits for, or one the property allows. *)
#[export] Hint Extern 2 (preserves (tracked _) (master_eval _)) =>
  (eapply grows_master_eval; first [left; reflexivity | right; eassumption]) : preserve.
#[export] Hint Extern 2 (preserves (tracked _) deferResponse) =>
  (eapply grows_deferResponse; eassumption) : preserve.
#[export] Hint Resolve grows_readData grows_readAncillaryData grows_writeAncillaryData
  grows_prepareResponse grows_prepareResponse_force grows_prepareResponse_data grows_destroy grows_copy grows_send grows_get_conn
  grows_upd_data grows_upd_conn : preserve.

(** With the loops over notification lists. *)
Ltac grows :=
  repeat first
    [ lazymatch goal with
      | |- preserves (tracked _) (walk _ _) => apply grows_walk; intros ?
      | |- preserves (tracked _) (on_list _ _) => apply grows_on_list; intros ?
      | |- preserves (tracked _) (on_first _ _ _) => apply grows_on_first; intros ?
      end
    | progress grow_step ].

Section operations.
Context `{Env} (P : list Job -> option bool -> MsgState -> Z -> Prop) `{!Growing P}.
Notation grows := (preserves (tracked P)).

Lemma grows_nl_add k c pulse f : grows (nl_add k c pulse f).
Proof. grows. Qed.

Lemma grows_nl_move k source poolID : grows (nl_move k source poolID).
Proof. grows. Qed.

Lemma grows_trigger_ifDescr k d g : grows (trigger_ifDescr k d g).
Proof. grows. Qed.

Lemma grows_triggerAll_ifDescr k d : grows (triggerAll_ifDescr k d).
Proof. grows. Qed.

Lemma grows_trigger_party k id : grows (trigger_party k id).
Proof. grows. Qed.

Lemma grows_setMasterNotificationID k id poolID : grows (setMasterNotificationID k id poolID).
Proof. grows. Qed.

Lemma grows_pool_detach pos : grows (pool_detach pos).
Proof. grows. Qed.

Lemma grows_nl_remove k id : grows (nl_remove k id).
Proof. grows. Qed.

Lemma grows_nl_remove_ids k c : grows (nl_remove_ids k c).
Proof. grows. Qed.

#[local] Hint Resolve grows_nl_add grows_nl_move grows_trigger_ifDescr grows_triggerAll_ifDescr grows_trigger_party
  grows_setMasterNotificationID grows_pool_detach grows_nl_remove grows_nl_remove_ids : preserve.

Lemma grows_register_loop cfg l d : grows (register_loop cfg l d).
Proof. revert d. induction l; intros d; cbn [register_loop]; grows; auto. Qed.

#[local] Hint Resolve grows_register_loop : preserve.

Lemma grows_registerInterfacesMaster : grows registerInterfacesMaster.
Proof. grows. Qed.

Lemma grows_addInterface c d pid chid isLocal grpid : grows (addInterface c d pid chid isLocal grpid).
Proof. grows. Qed.

#[local] Hint Resolve grows_registerInterfacesMaster grows_addInterface : preserve.

Lemma grows_registerEx_loop fuel k c arg items : grows (registerEx_loop fuel k c arg items).
Proof. revert k. induction fuel; intros k; cbn [registerEx_loop]; grows; auto. Qed.

Lemma grows_registerMaster_loop fuel k c items : grows (registerMaster_loop fuel k c items).
Proof. revert k. induction fuel; intros k; cbn [registerMaster_loop]; grows; auto. Qed.

Lemma grows_forward_loop cfg l n : grows (forward_loop cfg l n).
Proof. revert n. induction l; intros n; cbn [forward_loop]; grows; auto. Qed.

#[local] Hint Resolve grows_registerEx_loop grows_registerMaster_loop grows_forward_loop : preserve.

Lemma grows_handleUnregisterInterface c id : grows (handleUnregisterInterface c id).
Proof. grows. Qed.

Lemma grows_notifyAvailableEx_loop fuel k c items : grows (notifyAvailableEx_loop fuel k c items).
Proof. revert k. induction fuel; intros k; cbn [notifyAvailableEx_loop]; grows; auto. Qed.

Lemma grows_match_loop cn re n l r : grows (match_loop cn re n l r).
Proof. revert r. induction l; intros r; cbn [match_loop]; grows; auto. Qed.

#[local] Hint Resolve grows_handleUnregisterInterface grows_notifyAvailableEx_loop grows_match_loop : preserve.

(** The requests that may have to wait for the master's answer. *)
Definition may_defer (r : Request) : bool :=
  match r with
  | RQ_Attach _ | RQ_AttachExtended _ _ | RQ_GetServerInformation _ | RQ_Detach _ | RQ_GetInterfaceList _
  | RQ_MatchInterfaceList _ _ => true
  | _ => false
  end.

Lemma grows_run_handler c r : may_defer r = false \/ gr_defers -> grows (run_handler c r).
Proof. intros [Hr|Hd]; destruct r; try discriminate Hr; cbn [run_handler]; grows. Qed.

Lemma grows_dispatch c f : may_defer (fr_request f) = false \/ gr_defers -> grows (dispatch c f).
Proof. intros Hr. pose proof (grows_run_handler c _ Hr). grows. Qed.

Lemma grows_handleJobFinished j : grows (handleJobFinished j).
Proof. grows. Qed.

#[local] Hint Resolve grows_handleJobFinished : preserve.

Lemma grows_dispatch_pulse code v j : grows (dispatch_pulse code v j).
Proof. grows. Qed.

Lemma grows_close_client c : grows (close_client c).
Proof. grows. Qed.

#[local] Hint Resolve grows_dispatch_pulse grows_close_client : preserve.

Lemma grows_removeClient i : grows (removeClient i).
Proof. grows. Qed.

#[local] Hint Resolve grows_removeClient : preserve.

Lemma grows_eval_ping_id c r : grows (eval_ping_id c r).
Proof. grows. Qed.

Lemma grows_evaluateWriteResult c wr : grows (evaluateWriteResult c wr).
Proof. grows. Qed.

#[local] Hint Resolve grows_eval_ping_id grows_evaluateWriteResult : preserve.

Lemma grows_new_message size d : grows (modify (fun s => s <| sb_msg := new_MessageContext size d |>)).
Proof. apply preserves_modify. intros s. by apply gr_answer. Qed.

#[local] Hint Resolve grows_new_message : preserve.

Lemma grows_eval_request c f wr : gr_defers -> grows (eval_request c f wr).
Proof. intros Hd. pose proof (grows_dispatch c f (or_intror Hd)). grows. Qed.

(** An event that is neither the return of a job nor the worker thread's doing. *)
Definition own_event (ev : Event) : Prop := match ev with Ev_job _ _ _ | Ev_link _ => False | _ => True end.

Lemma grows_run ev : gr_defers -> (forall q m r n, P q m r n -> P q m r (n + 1)) -> own_event ev -> grows (run ev).
Proof.
  intros Hd Hn Hev. destruct ev as [node local|c pid uid ok|c f wr|c ok complete|c|c|status ret arg|b|code v];
    try done; cbn [run]; [|grows|by apply grows_eval_request|grows..].
  unfold new_client. apply preserves_bind; [grows|]. intros s. apply preserves_modify. intros s'. apply Hn.
Qed.

End operations.

#[export] Hint Resolve grows_nl_add grows_nl_move grows_trigger_ifDescr grows_triggerAll_ifDescr
  grows_trigger_party grows_setMasterNotificationID grows_pool_detach grows_nl_remove
  grows_nl_remove_ids grows_register_loop grows_registerInterfacesMaster grows_addInterface
  grows_registerEx_loop grows_registerMaster_loop grows_forward_loop
  grows_handleUnregisterInterface grows_notifyAvailableEx_loop grows_match_loop
  grows_handleJobFinished grows_dispatch_pulse grows_close_client grows_removeClient
  grows_eval_ping_id grows_evaluateWriteResult grows_new_message : preserve.

Section runs.
Context `{Env}.

(** Such an event puts new jobs behind the others. *)
Lemma run_queue ev s : own_event ev ->
  exists l, sb_mQueue (exec (run ev) s) = sb_mQueue s ++ l /\ sb_mAster (exec (run ev) s) = sb_mAster s.
Proof.
  intros Hev. destruct (run_preserves _ _ (grows_run (grown (sb_mQueue s) (sb_mAster s)) ev ltac:(exact I) ltac:(done) Hev) s) as [[l E] Hm].
  - split; [exists []; by rewrite app_nil_r|done].
  - by exists l.
Qed.

(** The return of a job takes the oldest job away and may put new ones behind the others. *)
Lemma run_job_queue status ret arg j q s : sb_mQueue s = j :: q ->
  exists l, sb_mQueue (exec (run (Ev_job status ret arg)) s) = q ++ l /\
    sb_mAster (exec (run (Ev_job status ret arg)) s) = sb_mAster s.
Proof.
  intros E. cbn [run]. unfold job_done, exec. rewrite run_getS, E, run_modify.
  destruct (run_preserves _ _ (grows_dispatch_pulse (grown q (sb_mAster s)) PULSE_JOB_EXECUTED 1
    (Some (execute status ret arg j))) (s <| sb_mQueue := q |>)) as [[l E'] Hm].
  - split; [exists []; by rewrite app_nil_r|done].
  - by exists l.
Qed.

End runs.
