(* ===== verification/Worker.v ===== *)
(** The worker thread of a slave: [src/servicebroker/WorkerThread.{hpp,cpp}], the part of
    [MasterAdapter.{hpp,cpp}] it runs, and [Notifier.{hpp,cpp}].

    The thread keeps the connection to the master, sends it the jobs of the queue one after
    the other, and reports through a pipe to the thread of the servicebroker, which handles
    everything else.  A step of the thread is an access to what the two threads share (the
    queue, [mActive], [mConnected], the trigger and the pipe) or a call that waits; the
    outcomes of the calls are arguments.

    Then the two threads together.  A reaction of the servicebroker's thread to an event is
    cut at its accesses to the queue and the trigger: it computes its new state, with the
    jobs it is about to queue, and then pushes them one by one, each push and each trigger a
    step of its own between which the worker runs on.  So a job can be pushed after the
    connection its handler tested has gone.  Not cut is the reading of [mConnected]: all
    tests a single reaction makes see the value at its beginning, while the code, which
    holds no lock, could see it change between two tests of one reaction.  Every interleaving
    of these steps is a run of the transition system of [System]. *)

From S2P Require Import Prelude.
From S2P Require Import Layout.
From S2P Require Import Types.
From S2P Require Import JobQueue.
From S2P Require Import Environment.
From S2P Require Import MessageContext.
From S2P Require Import State.
From S2P Require Import Attach.
From S2P Require Import Jobs.
From S2P Require Import Dispatch.
From S2P Require Import System.
From S2P Require Import JobOrder.

(** ** State *)

(** What the notifier writes.  [PULSE_JOB_EXECUTED] carries the address of the job, which
    holds the outcome then; here the job as it was queued, with the outcome. *)
Inductive Msg :=
  | WM_job (j : Job) (status ret : Z) (arg : JobArg)
  | WM_connected
  | WM_disconnected.

(** Where the thread is. *)
Inductive Pc :=
  | W_start
  | W_loop               (* the head of the loop of [run] *)
  | W_remove             (* the loop of [removePending] *)
  | W_connect | W_auth   (* [MasterConnectorSocket::connect] *)
  | W_idping
  | W_sleep
  | W_execute            (* the loop of [executePending] *)
  | W_job (j : Job)      (* [execute] with the job [j] *)
  | W_ping
  | W_lost | W_report    (* [disconnect] and [masterDisconnected] *)
  | W_wait
  | W_end | W_last | W_ended.

(** [w_connected] is [mConnected], [w_sem] the trigger's semaphore, which is 0 or 1,
    [w_timeout] the variable [timeout] of [run], [w_pipe] what was written and not yet read. *)
Record Worker := mkWorker {
  w_pc : Pc;
  w_queue : list Job;
  w_sem : bool;
  w_active : bool;
  w_connected : bool;
  w_timeout : bool;
  w_pipe : list Msg;
}.
#[export] Instance Eta_Worker : Eta Worker := fun w =>
  mkWorker (w_pc w) (w_queue w) (w_sem w) (w_active w) (w_connected w) (w_timeout w) (w_pipe w).

Definition new_Worker : Worker := mkWorker W_start [] false false false true [].

(** What a step meets: nothing, the outcome of [open] and [connect], the result of sending
    and receiving a ping or the credentials, the outcome of a job, a trigger or a timeout. *)
Inductive Outcome :=
  | O_tau
  | O_connect (opened : bool) (ec : Z)
  | O_sent (rc : Z)
  | O_executed (status ret : Z) (arg : JobArg)
  | O_wake
  | O_timeout.

(** ** The thread *)

Definition notify (m : Msg) (w : Worker) : Worker := w <| w_pipe ::= (fun l => l ++ [m]) |>.

(** [jobFinished] after [removePending] has set the status. *)
Definition remove_message (j : Job) : Msg := WM_job j EIO (job_ret_val j) (job_arg j).

(** One step; [None] when the outcome is not one the thread can meet there. *)
Definition worker_step (o : Outcome) (w : Worker) : option Worker :=
  match w_pc w, o with
  | W_start, O_tau => Some (w <| w_active := true |> <| w_timeout := true |> <| w_pc := W_loop |>)
  | W_loop, O_tau =>
    Some (w <| w_pc := if w_active w then if w_connected w then W_execute else W_remove else W_end |>)
  | W_remove, O_tau =>
    match w_queue w with
    | [] => Some (w <| w_pc := W_connect |>)
    | j :: q => Some (notify (remove_message j) (w <| w_queue := q |>))
    end
  | W_connect, O_connect opened ec =>
    Some (if opened && (ec =? 0) then w <| w_connected := true |> <| w_pc := W_auth |> else w <| w_pc := W_sleep |>)
  | W_auth, O_sent rc =>
    Some (if rc =? 0 then w <| w_pc := W_idping |> else w <| w_connected := false |> <| w_pc := W_sleep |>)
  | W_idping, O_sent rc =>
    Some (if rc =? 0 then notify WM_connected (w <| w_pc := W_loop |>)
          else w <| w_connected := false |> <| w_pc := W_loop |>)
  | W_sleep, O_tau => Some (w <| w_pc := W_loop |>)
  | W_execute, O_tau =>
    match w_queue w with
    | [] => Some (w <| w_pc := if w_timeout w then W_ping else W_wait |>)
    | j :: q => Some (w <| w_queue := q |> <| w_pc := W_job j |>)
    end
  | W_job j, O_executed status ret arg =>
    if decide (arg_dcmd arg = arg_dcmd (job_arg j)) then
      Some (notify (WM_job j status ret arg) (w <| w_pc := if status =? 0 then W_execute else W_lost |>))
    else None
  | W_ping, O_sent rc => Some (w <| w_pc := if rc =? 0 then W_wait else W_lost |>)
  | W_lost, O_tau => Some (w <| w_connected := false |> <| w_pc := W_report |>)
  | W_report, O_tau => Some (notify WM_disconnected (w <| w_pc := W_wait |>))
  | W_wait, O_wake =>
    if w_sem w then Some (w <| w_sem := false |> <| w_timeout := false |> <| w_pc := W_loop |>) else None
  | W_wait, O_timeout => Some (w <| w_timeout := true |> <| w_pc := W_loop |>)
  | W_end, O_tau => Some (w <| w_connected := false |> <| w_pc := W_last |>)
  | W_last, O_tau => Some (notify WM_disconnected (w <| w_pc := W_ended |>))
  | _, _ => None
  end.

(** ** The other thread *)

(** [Trigger::signal]: the semaphore does not count beyond 1. *)
Definition trigger (w : Worker) : Worker := w <| w_sem := true |>.

(** What the servicebroker's thread does to the shared state: [mQueue.push(job)],
    [mTrigger->trigger()] and [mActive = false]. *)
Inductive SharedAct := SA_push (j : Job) | SA_trigger | SA_inactive.

Definition act (a : SharedAct) (w : Worker) : Worker :=
  match a with
  | SA_push j => w <| w_queue ::= (fun q => q ++ [j]) |>
  | SA_trigger => trigger w
  | SA_inactive => w <| w_active := false |>
  end.

(** [MasterAdapter::eval] for each of the jobs, and [WorkerThread::stop], access by access. *)
Definition eval_acts (js : list Job) : list SharedAct := js ≫= (fun j => [SA_push j; SA_trigger]).
Definition stop_acts : list SharedAct := [SA_inactive; SA_trigger].

(** [MasterAdapter::eval] for each of the jobs, without a step of the worker in between. *)
Definition push_jobs (js : list Job) (w : Worker) : Worker :=
  match js with [] => w | _ => trigger (w <| w_queue ::= (fun q => q ++ js) |>) end.

(** [WorkerThread::stop], likewise. *)
Definition stop_worker (w : Worker) : Worker := trigger (w <| w_active := false |>).

(** [handleInternalNotification] hands the message on to [dispatch]. *)
Definition msg_event (m : Msg) : Event :=
  match m with
  | WM_job _ status ret arg => Ev_job status ret arg
  | WM_connected => Ev_pulse PULSE_MASTER_CONNECTED 0
  | WM_disconnected => Ev_pulse PULSE_MASTER_DISCONNECTED 0
  end.

Section system.
Context `{Env}.

(** The jobs the reaction to an event has queued; [popped] tells whether it took one off. *)
Definition queued_by (popped : nat) (s s' : SB) : list Job := drop (length (sb_mQueue s) - popped) (sb_mQueue s').

(** The steps of both threads; [out] is what the servicebroker's thread still has to do to
    the shared state before it turns to the next event.  A change of [mConnected] is seen by
    its next reaction. *)
Inductive threads_step : SB * list SharedAct * Worker -> SB * list SharedAct * Worker -> Prop :=
  | TS_event ev s w :
    own_event ev -> enabled ev s ->
    let s' := exec (run ev) s in threads_step (s, [], w) (s', eval_acts (queued_by 0 s s'), w)
  | TS_message m pipe s w :
    w_pipe w = m :: pipe ->
    let s' := exec (run (msg_event m)) s in
    threads_step (s, [], w)
      (s', eval_acts (queued_by (match m with WM_job _ _ _ _ => 1 | _ => 0 end) s s'),
       w <| w_pipe := pipe |>)
  | TS_stop s w : threads_step (s, [], w) (s, stop_acts, w)
  | TS_shared a out s w : threads_step (s, a :: out, w) (s, out, act a w)
  | TS_worker o s out w w' :
    worker_step o w = Some w' ->
    threads_step (s, out, w) (if Bool.eqb (w_connected w) (w_connected w') then s
                              else exec (run (Ev_link (w_connected w'))) s, out, w').

Inductive threads_reach (s0 : SB) : SB -> list SharedAct -> Worker -> Prop :=
  | TR_start : threads_reach s0 s0 [] new_Worker
  | TR_step s out w s' out' w' :
    threads_reach s0 s out w -> threads_step (s, out, w) (s', out', w') ->
    threads_reach s0 s' out' w'.

End system.

(** ** The order of jobs *)

(** The jobs reported in the pipe, and those still to be reported. *)
Definition reported (pipe : list Msg) : list Job :=
  omap (fun m => match m with WM_job j _ _ _ => Some j | _ => None end) pipe.
Definition executing (w : Worker) : list Job := match w_pc w with W_job j => [j] | _ => [] end.
Definition pending (w : Worker) : list Job := executing w ++ w_queue w.

(** The jobs the servicebroker's thread is about to push. *)
Definition to_push (out : list SharedAct) : list Job :=
  omap (fun a => match a with SA_push j => Some j | _ => None end) out.

Definition msg_ok (m : Msg) : Prop :=
  match m with WM_job j _ _ arg => arg_dcmd arg = arg_dcmd (job_arg j) | _ => True end.

(** [execute] of a removed job only sets its status. *)
Lemma execute_removed j :
  execute EIO (job_ret_val j) (job_arg j) j = j <| job_status := EIO |>.
Proof. by destruct j. Qed.

Lemma reported_app l m : reported (l ++ [m]) = reported l ++ reported [m].
Proof. apply omap_app. Qed.

Lemma reported_job j status ret arg l : reported [WM_job j status ret arg] ++ l = j :: l.
Proof. reflexivity. Qed.

(** The cases of a step. *)
Ltac step_cases Hs :=
  unfold worker_step in Hs;
  match type of Hs with context [match w_pc ?w with _ => _ end] => destruct (w_pc w) eqn:Epc end;
  match goal with o : Outcome |- _ => destruct o end;
  try discriminate Hs;
  repeat match type of Hs with context [match ?x with _ => _ end] => destruct x eqn:? end;
  try discriminate Hs; injection Hs as <-.

(** A step takes jobs through the thread in order. *)
Lemma worker_step_order o w w' :
  worker_step o w = Some w' ->
  reported (w_pipe w') ++ pending w' = reported (w_pipe w) ++ pending w /\
  (Forall msg_ok (w_pipe w) -> Forall msg_ok (w_pipe w')).
Proof.
  intros Hs. step_cases Hs; unfold pending, executing; rewrite ?Epc; cbn -[reported];
    rewrite ?reported_app; cbn -[reported]; rewrite ?app_nil_r, <- ?app_assoc; cbn -[reported];
    unfold remove_message; (split; [rewrite ?reported_job; try congruence|rewrite ?Forall_app, ?Forall_singleton; cbn; auto]).
Qed.

(** What a push leaves. *)
Lemma push_jobs_fields js w :
  w_pc (push_jobs js w) = w_pc w /\ w_queue (push_jobs js w) = w_queue w ++ js /\
  w_connected (push_jobs js w) = w_connected w /\ w_pipe (push_jobs js w) = w_pipe w.
Proof. destruct js; cbn; [by rewrite app_nil_r|done]. Qed.

Lemma push_jobs_pending js w : pending (push_jobs js w) = pending w ++ js.
Proof.
  destruct (push_jobs_fields js w) as (Epc & Eq & _). unfold pending, executing. by rewrite Epc, Eq, app_assoc.
Qed.

Lemma to_push_eval_acts js : to_push (eval_acts js) = js.
Proof. induction js as [|j js IH]; [done|]. cbn. f_equal. exact IH. Qed.

(** Without a step in between the accesses amount to [push_jobs] and [stop_worker]. *)
Lemma acts_eval js w : foldl (fun w a => act a w) w (eval_acts js) = push_jobs js w.
Proof.
  assert (forall js w, foldl (fun w a => act a w) (trigger w) (eval_acts js)
    = trigger (w <| w_queue ::= (fun q => q ++ js) |>)) as Hl.
  { clear. intros js. induction js as [|j js IH]; intros w.
    - destruct w. cbn. by rewrite app_nil_r.
    - change (foldl (fun w a => act a w) (trigger (trigger w <| w_queue ::= (fun q => q ++ [j]) |>))
        (eval_acts js) = trigger (w <| w_queue ::= (fun q => q ++ j :: js) |>)).
      rewrite IH. destruct w. cbn. by rewrite <- app_assoc. }
  destruct js as [|j js]; [done|]. change (foldl (fun w a => act a w)
    (trigger (w <| w_queue ::= (fun q => q ++ [j]) |>)) (eval_acts js) = push_jobs (j :: js) w).
  rewrite Hl. destruct w. cbn. by rewrite <- app_assoc.
Qed.

Lemma acts_stop w : foldl (fun w a => act a w) w stop_acts = stop_worker w.
Proof. done. Qed.

(** What an access leaves. *)
Lemma act_fields a w :
  w_connected (act a w) = w_connected w /\ w_pipe (act a w) = w_pipe w /\
  pending (act a w) = pending w ++ to_push [a].
Proof.
  destruct a as [j| |]; unfold pending, executing; cbn; rewrite ?app_nil_r; split_and!; try done.
  by rewrite app_assoc.
Qed.

(** ** The threads run the system *)

Section refinement.
Context `{Env}.

(** The servicebroker's queue are the jobs whose outcome it has not read; what is in the pipe
    answers them in order. *)
Record threads_related (s : SB) (out : list SharedAct) (w : Worker) : Prop := {
  tr_queue : sb_mQueue s = reported (w_pipe w) ++ pending w ++ to_push out;
  tr_master : sb_mAster s = Some (w_connected w);
  tr_messages : Forall msg_ok (w_pipe w);
}.

(** A reaction to the first [popped] reports of the pipe, of which [l] is left. *)
Lemma related_reaction s s' l w js popped :
  threads_related s [] w -> sb_mQueue s' = drop popped (sb_mQueue s) ++ js ->
  sb_mAster s' = sb_mAster s ->
  reported l ++ pending w = drop popped (reported (w_pipe w) ++ pending w) -> Forall msg_ok l ->
  (popped <= length (sb_mQueue s))%nat ->
  threads_related s' (eval_acts (queued_by popped s s')) (w <| w_pipe := l |>).
Proof.
  intros [Hq Hm Hok] Eq Em Hl Hlok Hlen. cbn in Hq. rewrite app_nil_r in Hq.
  assert (queued_by popped s s' = js) as ->.
  { unfold queued_by. rewrite Eq. rewrite drop_app_length'; [done|]. rewrite length_drop. lia. }
  constructor; [|by rewrite Em|done]. rewrite to_push_eval_acts, Eq, Hq, app_assoc. f_equal.
  by rewrite <- Hl.
Qed.

Lemma event_simulated s w ev :
  threads_related s [] w -> own_event ev ->
  threads_related (exec (run ev) s) (eval_acts (queued_by 0 s (exec (run ev) s))) w.
Proof.
  intros Hr Hown. destruct (run_queue ev s Hown) as (js & Eq & Em).
  enough (threads_related (exec (run ev) s) (eval_acts (queued_by 0 s (exec (run ev) s)))
    (w <| w_pipe := w_pipe w |>)) by (by destruct w).
  eapply related_reaction; [done..|apply Hr|lia].
Qed.

Lemma message_simulated s w m pipe :
  threads_related s [] w -> w_pipe w = m :: pipe ->
  enabled (msg_event m) s /\
  let s' := exec (run (msg_event m)) s in
  threads_related s'
    (eval_acts (queued_by (match m with WM_job _ _ _ _ => 1 | _ => 0 end) s s'))
    (w <| w_pipe := pipe |>).
Proof.
  intros Hr Hp. pose proof (tr_messages _ _ _ Hr) as Hok. rewrite Hp in Hok.
  apply Forall_cons in Hok as [Hm Hok]. pose proof (tr_queue _ _ _ Hr) as Hq. rewrite Hp in Hq.
  cbn [to_push omap list_omap] in Hq. rewrite app_nil_r in Hq. pose proof (tr_master _ _ _ Hr) as Ha.
  destruct m as [j status ret arg| |]; cbn [msg_event].
  - change (sb_mQueue s = j :: (reported pipe ++ pending w)) in Hq.
    destruct (run_job_queue status ret arg j _ s Hq) as (js & Eq & Em).
    split; [by exists j, (reported pipe ++ pending w)|].
    eapply related_reaction; [done|by rewrite Hq|done|by rewrite Hp|done|rewrite Hq; cbn; lia].
  - destruct (run_queue (Ev_pulse PULSE_MASTER_CONNECTED 0) s I) as (js & Eq & Em).
    split; [split; [done|by rewrite Ha]|].
    eapply related_reaction; [done..|by rewrite Hp|done|lia].
  - destruct (run_queue (Ev_pulse PULSE_MASTER_DISCONNECTED 0) s I) as (js & Eq & Em).
    split; [split; [done|by rewrite Ha]|].
    eapply related_reaction; [done..|by rewrite Hp|done|lia].
Qed.

Lemma worker_simulated o s out w w' :
  threads_related s out w -> worker_step o w = Some w' ->
  let s' := if Bool.eqb (w_connected w) (w_connected w') then s
            else exec (run (Ev_link (w_connected w'))) s in
  threads_related s' out w' /\ (s' = s \/ exists ev, enabled ev s /\ s' = exec (run ev) s).
Proof.
  intros Hr Hs. destruct (worker_step_order o w w' Hs) as [Ho Hok].
  pose proof (tr_master _ _ _ Hr) as Hm. pose proof (tr_queue _ _ _ Hr) as Hq.
  rewrite app_assoc, <- Ho, <- app_assoc in Hq.
  destruct (Bool.eqb_spec (w_connected w) (w_connected w')) as [E|E].
  - split; [|by left]. constructor; [done|by rewrite <- E|apply Hok, Hr].
  - split; [|right; exists (Ev_link (w_connected w')); split; [cbn; by rewrite Hm|done]].
    constructor; [exact Hq|cbn; by rewrite Hm|apply Hok, Hr].
Qed.

(** Each step of the threads is a step of the system or none. *)
Lemma threads_step_simulated s out w s' out' w' :
  threads_related s out w -> threads_step (s, out, w) (s', out', w') ->
  threads_related s' out' w' /\ (s' = s \/ exists ev, enabled ev s /\ s' = exec (run ev) s).
Proof.
  intros Hr Hstep. remember (s, out, w) as x eqn:Ex. remember (s', out', w') as y eqn:Ey.
  revert Ex Ey.
  destruct Hstep as [ev s1 w1 Hown Hen s1'|m pipe s1 w1 Hp s1'|s1 w1|a l s1 w1|o s1 l w1 w1' Hs];
    intros [= ? ? ?] [= ? ? ?]; subst s out w s' out' w'.
  - split; [by apply event_simulated|right; by exists ev].
  - destruct (message_simulated s1 w1 m pipe Hr Hp) as [Hen Hr'].
    split; [done|right; by exists (msg_event m)].
  - split; [|by left]. destruct Hr as [Hq Hm Hok]. by constructor.
  - split; [|by left]. destruct (act_fields a w1) as (Ec & Ep & Epe). destruct Hr as [Hq Hm Hok].
    constructor; rewrite ?Ec, ?Ep; [|done..]. rewrite Hq, Epe, <- app_assoc. do 2 f_equal.
    by destruct a.
  - by apply worker_simulated with (o := o).
Qed.

End refinement.

(** C9. The two threads of a slave run the transition system the properties of the servicebroker
    are about, whatever the master, the network and the clients do and however the steps of
    the worker interleave with the reactions of the servicebroker's thread and with each
    single push and trigger of a reaction (all tests of the connection that one reaction makes
    see the value at its beginning): every reachable state of the servicebroker's thread is
    reachable there.  The jobs it waits for are, in the order it queued them, those whose
    outcome is in the pipe, the one being executed, those of the worker's queue and those it is
    about to push, so that none is lost, repeated or overtaken; and it sees the connection to
    the master as the worker has it. *)
Theorem threads_refine_system `{Env} file id cacheOpt asyncOpt sig s out w :
  threads_reach (start true file id cacheOpt asyncOpt sig) s out w ->
  reachable any_event (start true file id cacheOpt asyncOpt sig) s /\
  sb_mQueue s = reported (w_pipe w) ++ pending w ++ to_push out /\
  sb_mAster s = Some (w_connected w).
Proof.
  intros Hr. enough (reachable any_event (start true file id cacheOpt asyncOpt sig) s /\
    threads_related s out w) as [? []] by done.
  induction Hr as [|s out w s' out' w' _ [IHr IH] Hstep].
  - split; [constructor|]. by constructor.
  - destruct (threads_step_simulated s out w s' out' w' IH Hstep) as [Hrel [->|(ev & Hen & ->)]]; [done|].
    split; [|done]. by apply reach_step.
Qed.

(** ** Every job is reported *)

(** Steps of the thread while others queue jobs. *)
Inductive WorkerOp := WO_step (o : Outcome) | WO_push (js : list Job).

Fixpoint worker_run (ops : list WorkerOp) (w : Worker) : option Worker :=
  match ops with
  | [] => Some w
  | WO_step o :: ops => w ← worker_step o w; worker_run ops w
  | WO_push js :: ops => worker_run ops (push_jobs js w)
  end.

Fixpoint steps_of (ops : list WorkerOp) : nat :=
  match ops with [] => O | WO_step _ :: ops => S (steps_of ops) | WO_push _ :: ops => steps_of ops end.

(** The thread has been started and has not been stopped. *)
Definition serving (w : Worker) : Prop :=
  (w_active w = true \/ w_pc w = W_start) /\ w_pc w <> W_end /\ w_pc w <> W_last /\ w_pc w <> W_ended.

(** How far the thread is from taking a job off the queue, or from reporting the one it has. *)
Definition pc_weight (pc : Pc) : nat :=
  match pc with
  | W_execute | W_remove => 1 | W_loop => 2
  | W_start | W_sleep | W_wait => 3
  | W_report | W_idping => 4 | W_lost | W_auth => 5
  | W_connect | W_ping | W_job _ => 6
  | W_end | W_last | W_ended => 0
  end.

Lemma push_serving js w : serving w -> serving (push_jobs js w).
Proof. by destruct js. Qed.

(** A step goes on serving, and towards the report of the first [tq] of the queue. *)
Lemma worker_step_progress o w w' tq ex :
  worker_step o w = Some w' -> serving w -> w_queue w = tq ++ ex -> executing w ++ tq <> [] ->
  serving w' /\ exists tq', w_queue w' = tq' ++ ex /\
    reported (w_pipe w') ++ executing w' ++ tq' = reported (w_pipe w) ++ executing w ++ tq /\
    (6 * length tq' + pc_weight (w_pc w') < 6 * length tq + pc_weight (w_pc w))%nat.
Proof.
  intros Hs Hsv Hq Hne. destruct (worker_step_order o w w' Hs) as [Ho _]. unfold pending in Ho. rewrite Hq in Ho.
  assert (forall tq', w_queue w' = tq' ++ ex ->
    reported (w_pipe w') ++ executing w' ++ tq' = reported (w_pipe w) ++ executing w ++ tq) as Hrep.
  { intros tq' E. rewrite E in Ho. rewrite !app_assoc in Ho. apply app_inv_tail in Ho. by rewrite !app_assoc. }
  unfold serving, executing in *.
  step_cases Hs; cbn in *; destruct Hsv as ([Ha|Ha] & He & Hl & Hd); try congruence;
    try (split; [by split_and!; auto|]; exists tq; split; [done|]; split; [by apply Hrep|cbn; lia]).
  all: destruct tq as [|j' tq]; [done|]; rewrite Hq in *; try discriminate; simplify_eq/=.
  all: split; [rewrite ?Epc; by split_and!; auto|]; exists tq; split; [done|]; split; [by apply Hrep|rewrite ?Epc; cbn; lia].
Qed.

(** Pushes and steps never take a report back. *)
Lemma worker_step_reports o w w' :
  worker_step o w = Some w' -> exists l, reported (w_pipe w') = reported (w_pipe w) ++ l.
Proof.
  intros Hs. step_cases Hs; cbn -[reported]; rewrite ?reported_app; try (by exists []; rewrite app_nil_r); by eexists.
Qed.

Lemma worker_run_reports ops : forall w w',
  worker_run ops w = Some w' -> exists l, reported (w_pipe w') = reported (w_pipe w) ++ l.
Proof.
  induction ops as [|[o|js] ops IH]; intros w w'; cbn.
  - intros [= <-]. exists []. by rewrite app_nil_r.
  - destruct (worker_step o w) as [w1|] eqn:E; [|done]. intros Hr. destruct (IH _ _ Hr) as [l' E'].
    destruct (worker_step_reports o w w1 E) as [l Hl]. exists (l ++ l'). by rewrite E', Hl, app_assoc.
  - intros Hr. destruct (IH _ _ Hr) as [l' E']. exists l'. rewrite E'. by destruct js.
Qed.

Lemma worker_reports_first ops : forall w w' tq ex,
  serving w -> w_queue w = tq ++ ex -> worker_run ops w = Some w' ->
  (6 * length tq + pc_weight (w_pc w) <= steps_of ops)%nat ->
  exists l, reported (w_pipe w') = reported (w_pipe w) ++ executing w ++ tq ++ l.
Proof.
  induction ops as [|op ops IH]; intros w w' tq ex Hsv Hq Hr Hn.
  { assert (tq = []) as -> by (destruct tq; [done|cbn in Hn; lia]). injection Hr as <-. exists [].
    unfold executing. destruct (w_pc w); cbn in Hn; try lia; by rewrite app_nil_r. }
  destruct (decide (executing w ++ tq = [])) as [E|E].
  { destruct (app_eq_nil _ _ E) as [-> ->]. by apply (worker_run_reports (op :: ops)). }
  destruct op as [o|js]; cbn [worker_run steps_of] in *.
  - destruct (worker_step o w) as [w1|] eqn:Es; [|done]. 
    destruct (worker_step_progress o w w1 tq ex Es Hsv Hq E) as (Hsv1 & tq1 & Hq1 & Hrep & Hlt).
    destruct (IH w1 w' tq1 ex Hsv1 Hq1 Hr) as [l Hl]; [lia|]. exists l.
    rewrite Hl, !app_assoc. f_equal. by rewrite <- app_assoc, Hrep, app_assoc.
  - destruct (push_jobs_fields js w) as (Epc & Eq & _ & Ep).
    destruct (IH (push_jobs js w) w' tq (ex ++ js)) as [l Hl]; [by apply push_serving|by rewrite Eq, Hq, app_assoc|done|by rewrite Epc|].
    exists l. rewrite Hl. unfold executing. by rewrite Ep, Epc.
Qed.

(** The thread never gets stuck: whatever it waits for has an outcome. *)
Lemma worker_progress w : w_pc w <> W_ended -> exists o w', worker_step o w = Some w'.
Proof.
  intros Hpc. destruct (w_pc w) as [| | | | | | | |j| | | | | | |] eqn:E; try done; unfold worker_step; rewrite E;
    [exists O_tau|exists O_tau|exists O_tau|exists (O_connect true 0)|exists (O_sent 0)|exists (O_sent 0)|exists O_tau
    |exists O_tau|exists (O_executed 0 0 (job_arg j))|exists (O_sent 0)|exists O_tau|exists O_tau|exists O_timeout
    |exists O_tau|exists O_tau]; rewrite ?decide_True by done; repeat case_match; by eexists.
Qed.

(** C10. While the worker thread is not stopped, every job is reported, in the order of the queue:
    after at most six steps for each job before it and six more, whatever the outcome of each
    call, and however many jobs are queued behind it in the meantime.  It is never stuck. *)
Theorem worker_reports ops w w' :
  serving w -> worker_run ops w = Some w' -> (6 * length (w_queue w) + 6 <= steps_of ops)%nat ->
  (exists l, reported (w_pipe w') = reported (w_pipe w) ++ pending w ++ l) /\
  (w_pc w <> W_ended -> exists o w1, worker_step o w = Some w1).
Proof.
  intros Hsv Hr Hn. split; [|apply worker_progress]. assert (pc_weight (w_pc w) <= 6)%nat as Hpc by (destruct (w_pc w); cbn; lia).
  destruct (worker_reports_first ops w w' (w_queue w) []) as [l E]; [done|by rewrite app_nil_r|done|lia|].
  exists l. unfold pending. by rewrite E, <- app_assoc.
Qed.

(** ** A concrete run *)

Inductive ThreadsOp := TO_event (ev : Event) | TO_message | TO_shared | TO_worker (o : Outcome).

Section threads_run.
Context `{Env}.

(** The thread of the servicebroker turns to the next event when it is done with the last. *)
Definition threads_op (op : ThreadsOp) (x : SB * list SharedAct * Worker)
    : option (SB * list SharedAct * Worker) :=
  let '(s, out, w) := x in
  match op, out with
  | TO_event ev, [] => let s' := exec (run ev) s in Some (s', eval_acts (queued_by 0 s s'), w)
  | TO_message, [] =>
    match w_pipe w with
    | [] => None
    | m :: pipe =>
      let s' := exec (run (msg_event m)) s in
      Some (s', eval_acts (queued_by (match m with WM_job _ _ _ _ => 1 | _ => 0 end) s s'),
            w <| w_pipe := pipe |>)
    end
  | TO_shared, a :: out => Some (s, out, act a w)
  | TO_worker o, _ =>
    w' ← worker_step o w;
    Some (if Bool.eqb (w_connected w) (w_connected w') then s
          else exec (run (Ev_link (w_connected w'))) s, out, w')
  | _, _ => None
  end.

Fixpoint threads_run (ops : list ThreadsOp) (x : SB * list SharedAct * Worker)
    : option (SB * list SharedAct * Worker) :=
  match ops with [] => Some x | op :: ops => y ← threads_op op x; threads_run ops y end.

(** The events of a run can occur. *)
Fixpoint threads_ok (ops : list ThreadsOp) (x : SB * list SharedAct * Worker) : Prop :=
  match ops with
  | [] => True
  | op :: ops =>
    match op with TO_event ev => own_event ev /\ enabled ev x.1.1 | _ => True end /\
    match threads_op op x with Some y => threads_ok ops y | None => False end
  end.

Lemma threads_op_step op x y :
  match op with TO_event ev => own_event ev /\ enabled ev x.1.1 | _ => True end ->
  threads_op op x = Some y -> threads_step x y.
Proof.
  destruct x as [[s out] w], op as [ev| | |o], out as [|a out]; cbn; intros Hok; try done.
  - destruct Hok as [Hown Hen]. intros [= <-]. by apply (TS_event ev s w).
  - destruct (w_pipe w) as [|m pipe] eqn:E; [done|]. intros [= <-]. by apply (TS_message m pipe s w).
  - intros [= <-]. apply TS_shared.
  - destruct (worker_step o w) as [w'|] eqn:E; [|done]. intros [= <-]. by eapply TS_worker.
  - destruct (worker_step o w) as [w'|] eqn:E; [|done]. intros [= <-]. by eapply TS_worker.
Qed.

Lemma threads_run_reach s0 ops : forall x y,
  threads_reach s0 x.1.1 x.1.2 x.2 -> threads_ok ops x -> threads_run ops x = Some y ->
  threads_reach s0 y.1.1 y.1.2 y.2.
Proof.
  induction ops as [|op ops IH]; intros x y Hr Hok Hrun; cbn in *; [by injection Hrun as <-|].
  destruct Hok as [Hop Hok]. destruct (threads_op op x) as [z|] eqn:E; [|done].
  apply (IH z y); [|done..]. pose proof (threads_op_step op x z Hop E) as Hs.
  destruct x as [[s out] w], z as [[s' out'] w']. by eapply TR_step.
Qed.

End threads_run.

(** The worker connects, the servicebroker is told, a client's extended attach is forwarded and
    the connection breaks while the worker executes it; meanwhile the inquiry of a second client
    has passed the test of the connection, and its job is pushed when the connection has gone. *)
Definition demo_request (c : Z) (r : Request) : ThreadsOp :=
  TO_event (Ev_request c (demo_frame r) WR_complete).
Definition demo_threads : list ThreadsOp :=
  [TO_worker O_tau; TO_worker O_tau; TO_worker O_tau; TO_worker (O_connect true 0); TO_worker (O_sent 0);
   TO_worker (O_sent 0); TO_message; TO_event (Ev_connect 0 0); TO_event (Ev_credentials 1 100 0 true);
   demo_request 1 (RQ_AttachExtended (mkPulse 1 2 3 4) demo_descr);
   TO_worker O_tau; TO_shared; TO_worker O_tau; TO_shared;
   TO_event (Ev_connect 0 0); TO_event (Ev_credentials 2 100 0 true);
   demo_request 2 (RQ_GetServerInformation demo_descr);
   TO_worker (O_executed EIO 0 (JA_AttachExtended (mkPulse 1 2 3 4) demo_descr zero_connInfo 0));
   TO_worker O_tau; TO_shared].

Lemma demo_threads_ok : threads_ok demo_threads (demo_start true, [], new_Worker).
Proof.
  cbn [threads_ok demo_threads]. vm_compute. repeat split; try discriminate; by left.
Qed.

Lemma threads_refine_system_witness :
  exists s w, threads_reach (start true None (-1) false false (0, 0)) s [SA_trigger] w /\
    w_pc w = W_report /\ sb_mAster s = Some false /\ length (reported (w_pipe w)) = 1%nat /\
    length (w_queue w) = 1%nat /\
    reachable any_event (start true None (-1) false false (0, 0)) s /\
    sb_mQueue s = reported (w_pipe w) ++ pending w.
Proof.
  destruct (threads_run demo_threads (demo_start true, [], new_Worker)) as [[[s out] w]|] eqn:E;
    [|by vm_compute in E].
  assert (threads_reach (start true None (-1) false false (0, 0)) s out w) as Hr.
  { exact (threads_run_reach _ demo_threads (demo_start true, [], new_Worker) (s, out, w)
      (TR_start _) demo_threads_ok E). }
  exists s, w.
  destruct (threads_refine_system _ _ _ _ _ s out w Hr) as (Hreach & Hq & _).
  vm_compute in E. injection E as <- <- <-. rewrite app_nil_r in Hq.
  split; [exact Hr|]. split_and!; [reflexivity..|exact Hreach|exact Hq].
Defined.

(** A job is queued before the thread runs and another one meanwhile; the master accepts the
    connection only the second time, and not the credentials. *)
Definition demo_clear : Job := create_Job None 7 (JA_ClearNotification 3) 4 4.
Definition demo_retry : list WorkerOp :=
  [WO_step O_tau; WO_step O_tau; WO_push [demo_clear]; WO_step O_tau; WO_step O_tau; WO_step O_tau;
   WO_step (O_connect false 0); WO_step O_tau; WO_step O_tau; WO_step O_tau; WO_step (O_connect true 0);
   WO_step (O_sent 1); WO_step O_tau].
Definition demo_worker : Worker := push_jobs [demo_clear] new_Worker.

Lemma worker_reports_witness :
  exists w', serving demo_worker /\ worker_run demo_retry demo_worker = Some w' /\
    length (reported (w_pipe w')) = 2%nat /\
    exists l, reported (w_pipe w') = reported (w_pipe demo_worker) ++ pending demo_worker ++ l.
Proof.
  assert (serving demo_worker) as Hsv by (split; [by right|done]).
  destruct (worker_run demo_retry demo_worker) as [w'|] eqn:E; [|by vm_compute in E].
  assert (6 * length (w_queue demo_worker) + 6 <= steps_of demo_retry)%nat as Hn by (vm_compute; lia).
  exists w'. split; [exact Hsv|]. split; [reflexivity|].
  split; [|exact (proj1 (worker_reports demo_retry demo_worker w' Hsv E Hn))].
  vm_compute in E. injection E as <-. reflexivity.
Defined.

(** ** What the thread does not do *)

(** A servicebroker that is stopped before its worker thread has begun to run does not stop it:
    the thread sets [mActive] itself. *)
Lemma early_stop_lost :
  w_active (stop_worker new_Worker) = false /\ w_active <$> worker_step O_tau (stop_worker new_Worker) = Some true.
Proof. split; reflexivity. Qed.

(** After the master was lost the thread waits before it gives back the jobs that are left, and
    no trigger ends that wait. *)
Lemma lost_master_delays_jobs :
  let w := mkWorker W_wait [] false true true false [] in
  let ops := [WO_push [demo_clear; demo_clear]; WO_step O_wake; WO_step O_tau; WO_step O_tau;
    WO_step (O_executed EIO 0 (JA_ClearNotification 3)); WO_step O_tau; WO_step O_tau] in
  match worker_run ops w with
  | Some w' => w_pc w' = W_wait /\ w_queue w' = [demo_clear] /\ worker_step O_wake w' = None
  | None => False
  end.
Proof. vm_compute. repeat split. Qed.
