(* ===== verification/Utf8.v ===== *)
(** The character set conversions of [src/base/utf8.cpp].

    A [std::string] is the list of its bytes, a [std::wstring] the list of its
    [wchar_t] values; [wchar_t] is a signed 32-bit integer.  [fromUTF8] is the
    fold of one decoder step over the bytes, [toUTF8] emits one to four bytes
    per character.  The file shows that the two are inverse on all code points,
    surrogates included, that [toUTF8] reserves exactly the space it needs, that it
    is the encoding of RFC 3629 on what the RFC admits and what it does with the
    rest, and that decoding never needs more than the reserved space. *)

From S2P Require Import Prelude.

#[local] Ltac Zify.zify_post_hook ::= Z.to_euclidean_division_equations.

(** [(char)x]: the byte pushed into a [std::string]. *)
Definition u8 (x : Z) : Z := x mod 256.

Definition is_byte (b : Z) : Prop := 0 <= b < 256.

(** ** Decoding *)

(** The locals of the loop of [fromUTF8]. *)
Record Decoder := mkDecoder {
  dec_dest : list Z;
  dec_w : Z;
  dec_bytes : Z;
}.
#[export] Instance Eta_Decoder : Eta Decoder :=
  fun d => mkDecoder (dec_dest d) (dec_w d) (dec_bytes d).

(** [L'?']. *)
Definition utf8_err : Z := 63.

Definition dec_push (x : Z) (d : Decoder) : Decoder := d <| dec_dest ::= (fun l => l ++ [x]) |>.

(** The body of the loop for one byte. *)
Definition fromUTF8_step (d : Decoder) (c : Z) : Decoder :=
  if c <=? 0x7f then
    let d := if dec_bytes d =? 0 then d else dec_push utf8_err d <| dec_bytes := 0 |> in
    dec_push c d
  else if c <=? 0xbf then
    if dec_bytes d =? 0 then dec_push utf8_err d
    else
      let d := d <| dec_w := Z.lor (Z.shiftl (dec_w d) 6) (Z.land c 0x3f) |>
                 <| dec_bytes := dec_bytes d - 1 |> in
      if dec_bytes d =? 0 then dec_push (dec_w d) d else d
  else if c <=? 0xdf then d <| dec_bytes := 1 |> <| dec_w := Z.land c 0x1f |>
  else if c <=? 0xef then d <| dec_bytes := 2 |> <| dec_w := Z.land c 0x0f |>
  else if c <=? 0xf7 then d <| dec_bytes := 3 |> <| dec_w := Z.land c 0x07 |>
  else dec_push utf8_err d <| dec_bytes := 0 |>.

Definition fromUTF8 (src : bytes) : list Z :=
  let d := foldl fromUTF8_step (mkDecoder [] 0 0) src in
  if dec_bytes d =? 0 then dec_dest d else dec_dest d ++ [utf8_err].

(** ** Encoding *)

(** What the second loop of [toUTF8] pushes for one character; a negative
    [wchar_t] is below [0x7f] and takes the first branch. *)
Definition toUTF8_char (w : Z) : bytes :=
  if w <=? 0x7f then [u8 w]
  else if w <=? 0x7ff then
    [Z.lor 0xc0 (Z.land (Z.shiftr w 6) 0x1f); Z.lor 0x80 (Z.land w 0x3f)]
  else if w <=? 0xffff then
    [Z.lor 0xe0 (Z.land (Z.shiftr w 12) 0x0f); Z.lor 0x80 (Z.land (Z.shiftr w 6) 0x3f);
     Z.lor 0x80 (Z.land w 0x3f)]
  else if w <=? 0x10ffff then
    [Z.lor 0xf0 (Z.land (Z.shiftr w 18) 0x07); Z.lor 0x80 (Z.land (Z.shiftr w 12) 0x3f);
     Z.lor 0x80 (Z.land (Z.shiftr w 6) 0x3f); Z.lor 0x80 (Z.land w 0x3f)]
  else [utf8_err].

(** The first loop: the space one character needs, and their sum. *)
Definition toUTF8_charSize (w : Z) : Z :=
  if w <=? 0x7f then 1
  else if w <=? 0x7ff then 2
  else if w <=? 0xffff then 3
  else if w <=? 0x10ffff then 4
  else 1.

Definition toUTF8_newSize (src : list Z) : Z := foldl (fun n w => n + toUTF8_charSize w) 0 src.

Definition toUTF8 (src : list Z) : bytes := flat_map toUTF8_char src.

(** ** The encoding of RFC 3629, section 3, by division *)

Definition is_code_point (w : Z) : Prop := 0 <= w <= 0x10ffff.

(** The table of octet sequences. *)
Definition utf8_pattern (w : Z) : bytes :=
  if bool_decide (w < 0x80) then [w]
  else if bool_decide (w < 0x800) then [192 + w / 64; 128 + w mod 64]
  else if bool_decide (w < 0x10000) then [224 + w / 4096; 128 + w / 64 mod 64; 128 + w mod 64]
  else [240 + w / 262144; 128 + w / 4096 mod 64; 128 + w / 64 mod 64; 128 + w mod 64].

(** The encoding is defined for the characters U+0000 to U+10FFFF, and prohibited for the
    surrogates U+D800 to U+DFFF. *)
Definition rfc3629 (w : Z) : option bytes :=
  if bool_decide (0 <= w <= 0x10ffff) && negb (bool_decide (0xd800 <= w <= 0xdfff))
  then Some (utf8_pattern w) else None.

Lemma rfc3629_Some w e :
  rfc3629 w = Some e <-> is_code_point w /\ ~ (0xd800 <= w <= 0xdfff) /\ utf8_pattern w = e.
Proof. unfold rfc3629, is_code_point. repeat case_bool_decide; cbn; naive_solver. Qed.

Example toUTF8_euro : toUTF8 [0x41; 0xe9; 0x20ac; 0x1f600] =
  [0x41; 0xc3; 0xa9; 0xe2; 0x82; 0xac; 0xf0; 0x9f; 0x98; 0x80].
Proof. reflexivity. Qed.

Example fromUTF8_euro : fromUTF8 [0x41; 0xc3; 0xa9; 0xe2; 0x82; 0xac; 0xf0; 0x9f; 0x98; 0x80; 0x80; 0xe2] =
  [0x41; 0xe9; 0x20ac; 0x1f600; utf8_err; utf8_err].
Proof. reflexivity. Qed.

(** ** Lemmas *)

(** A field of [n] bits is a remainder; setting bits above it is an addition. *)
Lemma land_low w n : 0 <= n -> Z.land w (Z.ones n) = w mod 2 ^ n.
Proof. intros H. by rewrite Z.land_ones. Qed.

Lemma lor_high a n x : 0 <= n -> 0 <= x < 2 ^ n -> Z.lor (a * 2 ^ n) x = a * 2 ^ n + x.
Proof.
  intros Hn Hx. rewrite <-Z.add_lor_land.
  enough (Z.land (a * 2 ^ n) x = 0) by lia.
  rewrite <-(Z.mod_small x (2 ^ n)), <-Z.land_ones by lia.
  rewrite (Z.land_comm x), Z.land_assoc, (Z.land_ones (a * 2 ^ n)) by lia.
  rewrite Z.mod_mul by lia. apply Z.land_0_l.
Qed.

(** The bit fields of the encoder and the decoder, as arithmetic. *)
Lemma cont_byte w : Z.lor 0x80 (Z.land w 0x3f) = 128 + w mod 64.
Proof.
  change 0x3f with (Z.ones 6). rewrite land_low by lia. apply (lor_high 2 6); [lia|]. apply Z.mod_pos_bound. lia.
Qed.

Lemma lead_byte_2 w : Z.lor 0xc0 (Z.land w 0x1f) = 192 + w mod 32.
Proof.
  change 0x1f with (Z.ones 5). rewrite land_low by lia. apply (lor_high 6 5); [lia|]. apply Z.mod_pos_bound. lia.
Qed.

Lemma lead_byte_3 w : Z.lor 0xe0 (Z.land w 0x0f) = 224 + w mod 16.
Proof.
  change 0x0f with (Z.ones 4). rewrite land_low by lia. apply (lor_high 14 4); [lia|]. apply Z.mod_pos_bound. lia.
Qed.

Lemma lead_byte_4 w : Z.lor 0xf0 (Z.land w 0x07) = 240 + w mod 8.
Proof.
  change 0x07 with (Z.ones 3). rewrite land_low by lia. apply (lor_high 30 3); [lia|]. apply Z.mod_pos_bound. lia.
Qed.

Lemma add_sextet w c : Z.lor (Z.shiftl w 6) (Z.land c 0x3f) = w * 64 + c mod 64.
Proof.
  change 0x3f with (Z.ones 6). rewrite Z.shiftl_mul_pow2, land_low by lia. apply (lor_high w 6); [lia|].
  apply Z.mod_pos_bound. lia.
Qed.

#[local] Hint Rewrite cont_byte lead_byte_2 lead_byte_3 lead_byte_4 : utf8.

Lemma toUTF8_code_points src : Forall is_code_point src -> toUTF8 src = flat_map utf8_pattern src.
Proof.
  induction 1 as [|w src Hw _ IH]; [done|]. unfold toUTF8 in *. cbn [flat_map]. rewrite IH. f_equal.
  clear IH src. unfold is_code_point in Hw. unfold toUTF8_char, utf8_pattern.
  autorewrite with utf8. rewrite !Z.shiftr_div_pow2 by lia. unfold u8.
  change (2 ^ 6) with 64. change (2 ^ 12) with 4096. change (2 ^ 18) with 262144.
  destruct (Z.leb_spec w 0x7f); [rewrite bool_decide_eq_true_2 by lia; f_equal; apply Z.mod_small; lia|].
  rewrite bool_decide_eq_false_2 by lia.
  destruct (Z.leb_spec w 0x7ff);
    [rewrite bool_decide_eq_true_2 by lia; repeat f_equal; apply Z.mod_small; lia|].
  rewrite bool_decide_eq_false_2 by lia.
  destruct (Z.leb_spec w 0xffff);
    [rewrite bool_decide_eq_true_2 by lia; repeat f_equal; apply Z.mod_small; lia|].
  rewrite bool_decide_eq_false_2 by lia.
  destruct (Z.leb_spec w 0x10ffff); [repeat f_equal; apply Z.mod_small; lia|lia].
Qed.

(** C27. [toUTF8] is the encoding of RFC 3629 on every string of characters the RFC admits.  Of
    the others it encodes the surrogates by the same pattern, in three bytes, which the RFC
    prohibits; it writes a question mark for a value above 10FFFF, and the low byte of a
    negative one. *)
Theorem toUTF8_rfc3629 src :
  (forall l, mapM rfc3629 src = Some l -> toUTF8 src = concat l) /\
  (forall w, rfc3629 w = None ->
     toUTF8 [w] = if w <? 0 then [w mod 256] else if w <=? 0x10ffff then utf8_pattern w else [63]).
Proof.
  split.
  - intros l Hl. apply mapM_Some in Hl. rewrite toUTF8_code_points, flat_map_concat_map.
    + induction Hl as [|w e src l Hw _ IH]; [done|]. cbn [map concat]. rewrite IH. f_equal.
      by apply rfc3629_Some in Hw as [_ [_ <-]].
    + induction Hl as [|w e src l Hw _ IH]; constructor; [|done]. by apply rfc3629_Some in Hw as [Hc _].
  - intros w Hw. destruct (Z.ltb_spec w 0) as [Hn|Hn]; [|destruct (Z.leb_spec w 0x10ffff)].
    + unfold toUTF8, toUTF8_char. cbn [flat_map]. by rewrite (proj2 (Z.leb_le w 0x7f)) by lia.
    + rewrite toUTF8_code_points by (repeat constructor; lia). cbn [flat_map]. by rewrite app_nil_r.
    + unfold toUTF8, toUTF8_char. cbn [flat_map]. by rewrite (proj2 (Z.leb_gt w 0x7f)), (proj2 (Z.leb_gt w 0x7ff)), (proj2 (Z.leb_gt w 0xffff)),
        (proj2 (Z.leb_gt w 0x10ffff)) by lia.
Qed.

Lemma toUTF8_rfc3629_witness :
  toUTF8 [0x20ac; 0x10ffff] = [0xe2; 0x82; 0xac; 0xf4; 0x8f; 0xbf; 0xbf] /\
  rfc3629 0xd800 = None /\ toUTF8 [0xd800] = [0xed; 0xa0; 0x80].
Proof.
  destruct (toUTF8_rfc3629 [0x20ac; 0x10ffff]) as [Henc Hother].
  split; [exact (Henc [[0xe2; 0x82; 0xac]; [0xf4; 0x8f; 0xbf; 0xbf]] eq_refl)|].
  split; [reflexivity|exact (Hother 0xd800 eq_refl)].
Defined.

Lemma toUTF8_newSize_acc src n :
  foldl (fun n w => n + toUTF8_charSize w) n src = n + Z.of_nat (length (toUTF8 src)).
Proof.
  revert n. unfold toUTF8. induction src as [|w src IH]; intros n; cbn [foldl flat_map]; [simpl; lia|].
  rewrite IH, length_app. unfold toUTF8_charSize, toUTF8_char.
  repeat case_match; cbn [length]; lia.
Qed.

(** The size the first loop of [toUTF8] reserves is the length of what the
    second loop writes, for every wide string: the string is never reallocated. *)
Lemma toUTF8_reserves src : Z.of_nat (length (toUTF8 src)) = toUTF8_newSize src.
Proof. unfold toUTF8_newSize. rewrite toUTF8_newSize_acc. lia. Qed.

(** [fromUTF8] never needs more than the [src.size()] it reserves. *)
Definition dec_pending (d : Decoder) : nat := if dec_bytes d =? 0 then 0 else 1.

Lemma fromUTF8_step_length d c :
  (length (dec_dest (fromUTF8_step d c)) + dec_pending (fromUTF8_step d c) <=
   S (length (dec_dest d) + dec_pending d))%nat.
Proof.
  destruct d as [dest w n]. unfold fromUTF8_step, dec_push, dec_pending.
  repeat (case_match; cbn in *); rewrite ?length_app; cbn; try lia;
    reflect_bools; try congruence; lia.
Qed.

Lemma fromUTF8_fold_length src d :
  (length (dec_dest (foldl fromUTF8_step d src)) + dec_pending (foldl fromUTF8_step d src) <=
   length src + (length (dec_dest d) + dec_pending d))%nat.
Proof.
  revert d. induction src as [|c src IH]; intros d; cbn [foldl length]; [lia|].
  specialize (IH (fromUTF8_step d c)). pose proof (fromUTF8_step_length d c). lia.
Qed.

(** Decoding never produces more characters than the [src.size()] it reserves. *)
Lemma fromUTF8_fits src : (length (fromUTF8 src) <= length src)%nat.
Proof.
  pose proof (fromUTF8_fold_length src (mkDecoder [] 0 0)) as H. unfold fromUTF8.
  unfold dec_pending in H. cbn in H. case_match; rewrite ?length_app; cbn; lia.
Qed.

(** ** Decoding what was encoded *)

(** A decoder between two characters. *)
Definition dec_idle (dest : list Z) (w : Z) : Decoder := mkDecoder dest w 0.

(** The branches of the decoder, as equations. *)
Lemma step_ascii dest w c :
  0 <= c <= 0x7f -> fromUTF8_step (dec_idle dest w) c = dec_idle (dest ++ [c]) w.
Proof. intros Hc. unfold fromUTF8_step. by rewrite (proj2 (Z.leb_le c 0x7f)) by lia. Qed.

Lemma step_lead dest w0 c :
  0xbf < c <= 0xf7 ->
  fromUTF8_step (dec_idle dest w0) c =
  if c <=? 0xdf then mkDecoder dest (c mod 32) 1
  else if c <=? 0xef then mkDecoder dest (c mod 16) 2
  else mkDecoder dest (c mod 8) 3.
Proof.
  intros Hc. unfold fromUTF8_step.
  rewrite (proj2 (Z.leb_gt c 0x7f)), (proj2 (Z.leb_gt c 0xbf)) by lia.
  rewrite (proj2 (Z.leb_le c 0xf7)) by lia.
  change 0x1f with (Z.ones 5). change 0x0f with (Z.ones 4). change 0x07 with (Z.ones 3).
  rewrite !land_low by lia.
  by repeat case_match.
Qed.

(** A continuation byte: the last one completes the character. *)
Definition dec_cont (dest : list Z) (w n : Z) : Decoder :=
  if n =? 0 then dec_idle (dest ++ [w]) w else mkDecoder dest w n.

Lemma step_cont dest w n x :
  0 < n -> 0 <= x < 64 ->
  fromUTF8_step (mkDecoder dest w n) (128 + x) = dec_cont dest (w * 64 + x) (n - 1).
Proof.
  intros Hn Hx. unfold fromUTF8_step.
  rewrite (proj2 (Z.leb_gt (128 + x) 0x7f)), (proj2 (Z.leb_le (128 + x) 0xbf)) by lia.
  cbn [dec_bytes]. rewrite (proj2 (Z.eqb_neq n 0)) by lia. cbn.
  change (Z.land (128 + x) 63) with (Z.land (128 + x) 0x3f). rewrite add_sextet.
  rewrite (Z.add_mod 128), (Z.mod_small x), Z.mod_small by lia.
  unfold dec_cont. rewrite Z.add_0_l. case_match; [|done].
  unfold dec_idle. cbn. by rewrite (proj1 (Z.eqb_eq (n - 1) 0)).
Qed.

Lemma dec_cont_more dest w n : 0 < n -> dec_cont dest w n = mkDecoder dest w n.
Proof. intros H. unfold dec_cont. by rewrite (proj2 (Z.eqb_neq n 0)) by lia. Qed.

Lemma decode_char dest w0 w :
  is_code_point w ->
  exists w1, foldl fromUTF8_step (dec_idle dest w0) (utf8_pattern w) = dec_idle (dest ++ [w]) w1.
Proof.
  intros Hw. unfold is_code_point in Hw. unfold utf8_pattern.
  repeat case_match; cbn [foldl]; reflect_bools.
  - eexists. apply step_ascii. lia.
  - rewrite step_lead, (proj2 (Z.leb_le _ 0xdf)) by lia.
    rewrite step_cont by lia.
    replace ((192 + w / 64) mod 32 * 64 + w mod 64) with w by lia. by eexists.
  - rewrite step_lead, (proj2 (Z.leb_gt _ 0xdf)), (proj2 (Z.leb_le _ 0xef)) by lia.
    rewrite step_cont by lia. rewrite dec_cont_more, step_cont by lia.
    replace (((224 + w / 4096) mod 16 * 64 + w / 64 mod 64) * 64 + w mod 64) with w by lia.
    by eexists.
  - rewrite step_lead, (proj2 (Z.leb_gt _ 0xdf)), (proj2 (Z.leb_gt _ 0xef)) by lia.
    rewrite step_cont by lia. rewrite dec_cont_more, step_cont by lia.
    rewrite dec_cont_more, step_cont by lia.
    replace ((((240 + w / 262144) mod 8 * 64 + w / 4096 mod 64) * 64 + w / 64 mod 64) * 64
             + w mod 64) with w by lia.
    by eexists.
Qed.

Lemma decode_string src dest w0 :
  Forall is_code_point src ->
  exists w1, foldl fromUTF8_step (dec_idle dest w0) (flat_map utf8_pattern src) =
             dec_idle (dest ++ src) w1.
Proof.
  intros H. revert dest w0.
  induction H as [|w src Hw _ IH]; intros dest w0; cbn [flat_map].
  - exists w0. by rewrite app_nil_r.
  - rewrite foldl_app. destruct (decode_char dest w0 w Hw) as [w1 ->].
    destruct (IH (dest ++ [w]) w1) as [w2 ->]. exists w2. by rewrite <-app_assoc.
Qed.

(** Decoding is the inverse of encoding on every string of code points,
    surrogates and embedded NULs included. *)
Lemma fromUTF8_toUTF8 src : Forall is_code_point src -> fromUTF8 (toUTF8 src) = src.
Proof.
  intros H. rewrite toUTF8_code_points by done. unfold fromUTF8.
  destruct (decode_string src [] 0 H) as [w1 Hd]. unfold dec_idle in Hd. by rewrite Hd.
Qed.

Lemma fromUTF8_toUTF8_witness : fromUTF8 (toUTF8 [0; 0x20ac; 0xd800; 0x10ffff]) = [0; 0x20ac; 0xd800; 0x10ffff].
Proof. apply fromUTF8_toUTF8. repeat constructor; unfold is_code_point; lia. Defined.

(** The reverse does not hold: an overlong sequence is accepted, and a lead
    byte that interrupts a sequence is dropped without the ['?'] the other
    malformed sequences produce. *)
Lemma fromUTF8_overlong : fromUTF8 [0xc0; 0x80] = [0] /\ toUTF8 [0] = [0].
Proof. by split. Qed.

Lemma surrogates_accepted w :
  0xd800 <= w <= 0xdfff -> rfc3629 w = None /\ fromUTF8 (toUTF8 [w]) = [w].
Proof.
  intros Hw. split; [unfold rfc3629; repeat case_bool_decide; done || lia|].
  apply fromUTF8_toUTF8. repeat constructor; unfold is_code_point; lia.
Qed.

Lemma fromUTF8_interrupted :
  fromUTF8 [0xe2; 0x82; 0xc3; 0xa9] = [0xe9] /\ fromUTF8 [0xe2; 0x82; 0x41] = [utf8_err; 0x41].
Proof. by split. Qed.

(** Wide characters outside Unicode are replaced, negative ones truncated. *)
Lemma toUTF8_outside w : 0x10ffff < w -> toUTF8_char w = [utf8_err].
Proof. intros H. unfold toUTF8_char. by repeat (case_match; reflect_bools; [lia|]). Qed.

Lemma toUTF8_negative w : w < 0 -> toUTF8_char w = [w mod 256].
Proof. intros H. unfold toUTF8_char. by rewrite (proj2 (Z.leb_le w 0x7f)) by lia. Qed.

(** Every byte [toUTF8] writes is a byte. *)
Lemma toUTF8_bytes src : Forall is_byte (toUTF8 src).
Proof.
  unfold toUTF8. induction src as [|w src IH]; cbn [flat_map]; [constructor|].
  apply Forall_app. split; [|done]. unfold toUTF8_char, is_byte, u8.
  autorewrite with utf8. repeat case_match;
    repeat (apply Forall_cons; split; [unfold utf8_err; lia|]); apply Forall_nil; exact I.
Qed.
