(* ===== verification/Buffer.v ===== *)
(** The growing send and receive buffer, [CBuffer] of
    [include/dsi/private/CBuffer.hpp] and [src/base/CBuffer.cpp].

    A buffer starts in an array inside the object and moves to the heap when a
    larger capacity is asked for; it never shrinks.  The memory is modelled with
    its contents, so that a write outside of it is visible: [None] is undefined
    behaviour.  [size_t] has 32 bits; the loop of [powerOf2] has fuel and the
    file shows for which arguments it ends. *)

From S2P Require Import Prelude.
From S2P Require Import Layout.

Implicit Types x n k : Z.

(** ** The header of a message and the packet sizes (include/dsi/DSI.hpp) *)

Definition lay_MessageHeader : ctype :=
  CStruct [c_i32; c_u16; c_u16; lay_SPartyID; lay_SPartyID; c_u32; c_u32; c_u32;
           CArray 1 c_i32].

Definition lay_EventInfo : ctype := CStruct [c_u32; c_u32; c_u32; c_i32].

Definition DSI_PACKET_SIZE : Z := 4 * 1024.

Definition DSI_PAYLOAD_SIZE : Z := DSI_PACKET_SIZE - sizeof lay_MessageHeader.

Example DSI_PAYLOAD_SIZE_value : DSI_PAYLOAD_SIZE = 4056 /\ sizeof lay_EventInfo = 16.
Proof. done. Qed.

(** ** The heap

    [realloc] may fail, and fresh memory has arbitrary contents. *)

Class Heap := {
  heap_alloc : Z -> bool;
  heap_junk : nat -> Z;
  (** a container of [n] elements can be allocated *)
  heap_elements : Z -> bool;
}.

(** Enough memory for every request. *)
Definition heap_ample `{Heap} : Prop :=
  (forall n, heap_alloc n = true) /\ (forall n, heap_elements n = true).

(** A heap that always has memory, filled with [0xAA]. *)
#[export] Instance simple_heap : Heap :=
  {| heap_alloc := fun _ => true; heap_junk := fun _ => 0xAA; heap_elements := fun _ => true |}.

Lemma simple_heap_ample : @heap_ample simple_heap.
Proof. by split. Qed.

Section buffer.
Context `{Heap}.

Definition junk (n : nat) : bytes := map heap_junk (seq 0 n).

(** [realloc(p, n)] for [n] not smaller than the old block. *)
Definition realloc (p : option bytes) (n : Z) : option bytes :=
  if heap_alloc n then
    let old := default [] p in Some (old ++ junk (Z.to_nat n - length old))
  else None.

(** ** The buffer *)

Inductive Calculator := one2one | powerOf2.

(** What [mBuf] points to: the array [mBuffer] of the object, nothing, or a
    heap block. *)
Inductive BufPtr :=
  | BufStatic
  | BufNull
  | BufHeap (mem : bytes).

Record CBuffer := mkCBuffer {
  mCapacity : Z;
  mBuf : BufPtr;
  mSize : Z;
  mCalculator : Calculator;
  mBuffer : bytes;
}.
#[export] Instance Eta_CBuffer : Eta CBuffer :=
  fun b => mkCBuffer (mCapacity b) (mBuf b) (mSize b) (mCalculator b) (mBuffer b).

(** The constructor; [mBuffer] is not initialised. *)
Definition CBuffer_new (func : Calculator) : CBuffer :=
  mkCBuffer DSI_PAYLOAD_SIZE BufStatic 0 func (junk (Z.to_nat DSI_PAYLOAD_SIZE)).

(** The loop of [powerOf2]: [None] when the fuel is used up. *)
Fixpoint powerOf2_loop (fuel : nat) (rc newCapacity : Z) : option Z :=
  match fuel with
  | O => None
  | S fuel =>
    if rc <? newCapacity then powerOf2_loop fuel (u32 (Z.shiftl rc 1)) newCapacity else Some rc
  end.

Definition powerOf2_fuel : nat := 21.

Definition calculate (f : Calculator) (newCapacity : Z) : option Z :=
  match f with
  | one2one => Some newCapacity
  | powerOf2 => powerOf2_loop powerOf2_fuel DSI_PAYLOAD_SIZE newCapacity
  end.

(** The memory behind [mBuf]. *)
Definition buf_mem (b : CBuffer) : option bytes :=
  match mBuf b with
  | BufStatic => Some (mBuffer b)
  | BufNull => None
  | BufHeap mem => Some mem
  end.

(** [setCapacity]; [None] when the calculation does not end. *)
Definition setCapacity (newCapacity : Z) (b : CBuffer) : option (bool * CBuffer) :=
  if (DSI_PAYLOAD_SIZE <? newCapacity) && (mCapacity b <? newCapacity) then
    actualNewCapacity ← calculate (mCalculator b) newCapacity;
    let old := match mBuf b with BufHeap mem => Some mem | _ => None end in
    match realloc old actualNewCapacity with
    | Some mem =>
      (* [if (needMemcpy) memcpy(mBuf, mBuffer, size())] *)
      let n := Z.to_nat (mSize b) in
      let mem := match mBuf b with
                 | BufStatic => take n (mBuffer b) ++ drop n mem
                 | _ => mem
                 end in
      Some (true, b <| mBuf := BufHeap mem |> <| mCapacity := actualNewCapacity |>)
    | None => Some (false, b <| mBuf := BufNull |>)
    end
  else Some (true, b).

Definition pbump (count : Z) (b : CBuffer) : CBuffer := b <| mSize ::= fun n => u32 (n + count) |>.

(** Replace the bytes of [mem] from [off] on by [data]. *)
Definition overwrite (off : nat) (data mem : bytes) : bytes :=
  take off mem ++ data ++ drop (off + length data) mem.

(** Store [data] at [pptr()]: undefined outside of the memory. *)
Definition store (data : bytes) (b : CBuffer) : option CBuffer :=
  mem ← buf_mem b;
  let off := Z.to_nat (mSize b) in
  if bool_decide (off + length data <= length mem)%nat then
    let mem := overwrite off data mem in
    Some (match mBuf b with
          | BufStatic => b <| mBuffer := mem |>
          | _ => b <| mBuf := BufHeap mem |>
          end)
  else None.

(** [CRequestWriter::avail] and [CRequestWriter::sbrk], which work on the
    buffer alone (include/dsi/CRequestWriter.hpp). *)
Definition avail (b : CBuffer) : Z := u32 (mCapacity b - mSize b).

Definition sbrk (amount : Z) (b : CBuffer) : option CBuffer :=
  snd <$> setCapacity (u32 (mCapacity b + amount)) b.

(** ** What the buffer holds *)

(** The bytes written so far. *)
Definition contents (b : CBuffer) : bytes := take (Z.to_nat (mSize b)) (default [] (buf_mem b)).

(** The largest capacity [powerOf2] reaches. *)
Definition CAPACITY_MAX : Z := DSI_PAYLOAD_SIZE * 2 ^ 20.

Definition is_capacity (n : Z) : Prop := exists k, 0 <= k <= 20 /\ n = DSI_PAYLOAD_SIZE * 2 ^ k.

(** A buffer whose memory has the size it records. *)
Record buf_ok (b : CBuffer) : Prop := {
  ok_mem : exists mem, buf_mem b = Some mem /\ Z.of_nat (length mem) = mCapacity b;
  ok_size : 0 <= mSize b <= mCapacity b;
  ok_capacity : DSI_PAYLOAD_SIZE <= mCapacity b < 2 ^ 32;
}.

(** A buffer that grows by [powerOf2]. *)
Record buf_wf (b : CBuffer) : Prop := {
  wf_mem : exists mem, buf_mem b = Some mem /\ Z.of_nat (length mem) = mCapacity b;
  wf_size : 0 <= mSize b <= mCapacity b;
  wf_capacity : is_capacity (mCapacity b);
  wf_calculator : mCalculator b = powerOf2;
}.

(** ** The capacity calculation *)

(** The values the loop of [powerOf2] runs through: the doubling leaves 32 bits
    after [CAPACITY_MAX] and ends in 0. *)
Fixpoint orbit (fuel : nat) (rc : Z) : list Z :=
  match fuel with
  | O => []
  | S fuel => rc :: orbit fuel (u32 (Z.shiftl rc 1))
  end.

Definition doublings : list Z := Eval vm_compute in orbit 31 DSI_PAYLOAD_SIZE.

Lemma doublings_closed rc :
  rc ∈ doublings -> rc <= CAPACITY_MAX /\ u32 (Z.shiftl rc 1) ∈ doublings.
Proof.
  intros Hrc.
  assert (Forall (fun rc => rc <= CAPACITY_MAX /\ u32 (Z.shiftl rc 1) ∈ doublings) doublings) as Hall.
  { apply (bool_decide_unpack _). vm_compute. exact I. }
  by apply (proj1 (Forall_forall _ _) Hall).
Qed.

Lemma powerOf2_stuck n fuel rc : rc ∈ doublings -> CAPACITY_MAX < n -> powerOf2_loop fuel rc n = None.
Proof.
  intros Hrc Hn. revert rc Hrc. induction fuel as [|fuel IH]; intros rc Hrc; [done|]. cbn [powerOf2_loop].
  destruct (doublings_closed rc Hrc). rewrite (proj2 (Z.ltb_lt rc n)) by lia. by apply IH.
Qed.

Lemma powerOf2_runs n k fuel :
  0 <= k <= 20 -> n <= CAPACITY_MAX -> (21 <= Z.to_nat k + fuel)%nat ->
  (k = 0 \/ DSI_PAYLOAD_SIZE * 2 ^ (k - 1) < n) ->
  exists j, 0 <= j <= 20 /\ powerOf2_loop fuel (DSI_PAYLOAD_SIZE * 2 ^ k) n =
                           Some (DSI_PAYLOAD_SIZE * 2 ^ j) /\
    n <= DSI_PAYLOAD_SIZE * 2 ^ j /\ (j = 0 \/ DSI_PAYLOAD_SIZE * 2 ^ (j - 1) < n).
Proof.
  intros Hk Hn. revert k Hk. induction fuel as [|fuel IH]; intros k Hk Hf Hmin; [lia|].
  cbn [powerOf2_loop]. destruct (Z.ltb_spec (DSI_PAYLOAD_SIZE * 2 ^ k) n) as [Hlt|Hge].
  2: { exists k. split_and!; [lia|lia|done|lia|done]. }
  assert (k < 20) as Hk'.
  { destruct (Z.eq_dec k 20) as [->|]; [|lia]. unfold CAPACITY_MAX in Hn. lia. }
  assert (u32 (Z.shiftl (DSI_PAYLOAD_SIZE * 2 ^ k) 1) = DSI_PAYLOAD_SIZE * 2 ^ (k + 1)) as ->.
  { rewrite Z.shiftl_mul_pow2, Z.pow_add_r by lia. rewrite u32_id; [lia|]. unfold is_u32.
    assert (0 < 2 ^ k <= 2 ^ 19) by (split; [|apply Z.pow_le_mono_r]; lia).
    change DSI_PAYLOAD_SIZE with 4056. lia. }
  apply IH; try lia. right. by replace (k + 1 - 1) with k by lia.
Qed.

Lemma powerOf2_calculates n :
  n <= CAPACITY_MAX ->
  exists rc, calculate powerOf2 n = Some rc /\ is_capacity rc /\ n <= rc /\
    (rc = DSI_PAYLOAD_SIZE \/ rc < 2 * n).
Proof.
  intros Hn. destruct (powerOf2_runs n 0 powerOf2_fuel) as (j & Hj & He & Hle & Hmin); try (unfold powerOf2_fuel; lia).
  exists (DSI_PAYLOAD_SIZE * 2 ^ j). rewrite Z.pow_0_r, Z.mul_1_r in He.
  split_and!; [done|by exists j|done|]. destruct (Z.eq_dec j 0) as [->|Hj0].
  - left. by rewrite Z.pow_0_r, Z.mul_1_r.
  - right. destruct Hmin as [->|Hmin]; [lia|].
    assert (2 ^ j = 2 ^ (j - 1) * 2) as -> by (rewrite <-Z.pow_add_r with (c := 1) by lia; f_equal; lia).
    lia.
Qed.

(** The loop of [CBuffer::powerOf2] ends exactly for the capacities up to
    4253024256: for larger ones the doubled value leaves [size_t], becomes 0 and
    the loop never ends.  When it ends, 21 tests are enough, whatever the fuel. *)
Lemma powerOf2_terminates n :
  (exists fuel rc, powerOf2_loop fuel DSI_PAYLOAD_SIZE n = Some rc) <-> n <= CAPACITY_MAX.
Proof.
  split.
  - intros (fuel & rc & Hr). apply Z.nlt_ge. intros Hn.
    rewrite powerOf2_stuck in Hr; [done| |done]. vm_compute. left.
  - intros Hn. destruct (powerOf2_calculates n Hn) as (rc & Hr & _). by exists powerOf2_fuel, rc.
Qed.

(** ** The operations on a well-formed buffer *)

Lemma length_junk (n : nat) : length (junk n) = n.
Proof. unfold junk. by rewrite length_map, length_seq. Qed.

Lemma is_capacity_le n : is_capacity n -> DSI_PAYLOAD_SIZE <= n <= CAPACITY_MAX.
Proof.
  intros (k & Hk & ->). unfold CAPACITY_MAX.
  assert (2 ^ 0 <= 2 ^ k <= 2 ^ 20) by (split; apply Z.pow_le_mono_r; lia).
  change DSI_PAYLOAD_SIZE with 4056. lia.
Qed.

Lemma CBuffer_new_wf : buf_wf (CBuffer_new powerOf2).
Proof.
  split; cbn [CBuffer_new mCapacity mSize mCalculator]; [|split; vm_compute; congruence| |done].
  - exists (junk (Z.to_nat DSI_PAYLOAD_SIZE)). split; [done|]. rewrite length_junk. done.
  - exists 0. split; [lia|done].
Qed.

Lemma contents_new f : contents (CBuffer_new f) = [].
Proof. done. Qed.

Lemma buf_wf_ok b : buf_wf b -> buf_ok b.
Proof.
  intros [Hm Hs Hc _]. pose proof (is_capacity_le _ Hc). assert (CAPACITY_MAX < 2 ^ 32) by done.
  split; [done|done|lia].
Qed.

Lemma contents_length_ok b : buf_ok b -> Z.of_nat (length (contents b)) = mSize b.
Proof.
  intros [(mem & Hm & Hl) Hs _]. unfold contents. rewrite Hm. simpl. rewrite length_take. lia.
Qed.

Lemma contents_length b : buf_wf b -> Z.of_nat (length (contents b)) = mSize b.
Proof. intros Hb. by apply contents_length_ok, buf_wf_ok. Qed.

(** The block [setCapacity] moves to: as long as asked for, same contents. *)
Lemma grown_block (p : BufPtr) (mem static : bytes) (n : nat) rc :
  (p = BufStatic /\ mem = static \/ p = BufHeap mem) -> heap_ample ->
  (n <= length mem)%nat -> Z.of_nat (length mem) <= rc ->
  exists mem', realloc (match p with BufHeap mem => Some mem | _ => None end) rc = Some mem' /\
    let mem' := match p with BufStatic => take n static ++ drop n mem' | _ => mem' end in
    Z.of_nat (length mem') = rc /\ take n mem' = take n mem.
Proof.
  intros Hp [Hheap _] Hn Hrc. unfold realloc. rewrite Hheap. eexists. split; [done|].
  destruct Hp as [[-> <-]| ->]; cbn [default from_option]; cbv zeta.
  - rewrite app_nil_l, length_app, length_take, length_drop, length_junk. split; [simpl; lia|].
    apply take_app_length'. rewrite length_take. lia.
  - rewrite length_app, length_junk. split; [simpl; lia|]. by apply take_app_le.
Qed.

(** Growing keeps the contents. *)
Lemma setCapacity_wf n b :
  heap_ample -> buf_wf b -> n <= CAPACITY_MAX ->
  exists b', setCapacity n b = Some (true, b') /\ buf_wf b' /\ n <= mCapacity b' /\
    mSize b' = mSize b /\ contents b' = contents b.
Proof.
  intros Hheap Hb Hn. pose proof Hb as [(mem & Hm & Hl) Hs Hc Hf].
  pose proof (is_capacity_le _ Hc). unfold setCapacity.
  destruct (Z.ltb_spec DSI_PAYLOAD_SIZE n); [|exists b; split_and!; [done|done|lia|done|done]].
  destruct (Z.ltb_spec (mCapacity b) n); [|exists b; split_and!; [done|done|lia|done|done]].
  cbn [andb]. rewrite Hf.
  destruct (powerOf2_calculates n Hn) as (rc & -> & Hrc & Hle & _). cbn [mbind option_bind].
  destruct (grown_block (mBuf b) mem (mBuffer b) (Z.to_nat (mSize b)) rc) as (mem' & -> & Hlen & Htake);
    [|done|lia|lia|].
  { unfold buf_mem in Hm. destruct (mBuf b); [left|discriminate|right]; split || idtac; congruence. }
  eexists. split; [done|]. destruct b as [cap ptr sz calc static]. cbn in *.
  split_and!; [|done|done|].
  - split; cbn; [by eexists|lia|done|done].
  - unfold contents. cbn. by rewrite Hm.
Qed.

(** The same for a buffer that takes the capacity as it is asked for. *)
Lemma setCapacity_ok n b :
  heap_ample -> buf_ok b -> mCalculator b = one2one -> n < 2 ^ 32 ->
  exists b', setCapacity n b = Some (true, b') /\ buf_ok b' /\ mCalculator b' = one2one /\
    n <= mCapacity b' /\ mSize b' = mSize b /\ contents b' = contents b.
Proof.
  intros Hheap Hb Hf Hn. pose proof Hb as [(mem & Hm & Hl) Hs Hc]. unfold setCapacity.
  destruct (Z.ltb_spec DSI_PAYLOAD_SIZE n); [|exists b; split_and!; [done|done|done|lia|done|done]].
  destruct (Z.ltb_spec (mCapacity b) n); [|exists b; split_and!; [done|done|done|lia|done|done]].
  cbn [andb]. rewrite Hf. cbn [calculate mbind option_bind].
  destruct (grown_block (mBuf b) mem (mBuffer b) (Z.to_nat (mSize b)) n) as (mem' & -> & Hlen & Htake);
    [|done|lia|lia|].
  { unfold buf_mem in Hm. destruct (mBuf b); [left|discriminate|right]; split || idtac; congruence. }
  eexists. split; [done|]. destruct b as [cap ptr sz calc static]. cbn in *.
  split_and!; [|done|lia|done|].
  - split; cbn; [by eexists|lia|lia].
  - unfold contents. cbn. by rewrite Hm.
Qed.

(** Storing data inside the capacity and bumping appends it to the contents. *)
Lemma store_ok data b :
  buf_ok b -> mSize b + Z.of_nat (length data) <= mCapacity b ->
  exists b', store data b = Some b' /\ buf_ok (pbump (Z.of_nat (length data)) b') /\
    mCapacity b' = mCapacity b /\ mCalculator b' = mCalculator b /\
    mSize (pbump (Z.of_nat (length data)) b') = mSize b + Z.of_nat (length data) /\
    contents (pbump (Z.of_nat (length data)) b') = contents b ++ data.
Proof.
  intros [(mem & Hm & Hl) Hs Hcap] Hfit. unfold store. rewrite Hm. cbn [mbind option_bind].
  rewrite bool_decide_eq_true_2 by lia. eexists. split; [done|].
  set (off := Z.to_nat (mSize b)) in *. set (mem' := overwrite off data mem).
  assert (length mem' = length mem) as Hl'.
  { unfold mem', overwrite. rewrite !length_app, length_take, length_drop. lia. }
  assert (u32 (mSize b + Z.of_nat (length data)) = mSize b + Z.of_nat (length data)) as Hu
    by (apply u32_id; unfold is_u32; lia).
  assert (take (off + length data) mem' = take off mem ++ data) as Ht.
  { unfold mem', overwrite. rewrite app_assoc. apply take_app_length'. rewrite length_app, length_take. lia. }
  unfold contents. rewrite Hm. destruct b as [cap ptr sz calc static]. unfold buf_mem in Hm. cbn in *.
  destruct ptr; try discriminate Hm; injection Hm as Hm; cbn in *; rewrite Hu;
    (split_and!; [split; cbn; [by eexists; split; [done|rewrite Hl'; lia]|lia|lia]|done|done|done|]);
    rewrite Z2Nat.inj_add, Nat2Z.id by lia; done.
Qed.

(** Bumping alone skips over bytes that are left as they are. *)
Lemma pbump_ok n b :
  buf_ok b -> 0 <= n -> mSize b + n <= mCapacity b ->
  buf_ok (pbump n b) /\ mSize (pbump n b) = mSize b + n /\
  exists pad, contents (pbump n b) = contents b ++ pad /\ Z.of_nat (length pad) = n.
Proof.
  intros [(mem & Hm & Hl) Hs Hcap] Hn Hfit.
  assert (u32 (mSize b + n) = mSize b + n) as Hu by (apply u32_id; unfold is_u32; lia).
  unfold contents. destruct b as [cap ptr sz calc static]. cbn in *.
  split_and!; [split; cbn; [by eexists|lia|lia]|done|].
  unfold buf_mem in *. cbn in *. rewrite Hm, Hu. cbn.
  exists (take (Z.to_nat n) (drop (Z.to_nat sz) mem)). split.
  - by rewrite take_take_drop, Z2Nat.inj_add by lia.
  - rewrite length_take, length_drop. lia.
Qed.

Lemma store_wf data b :
  buf_wf b -> mSize b + Z.of_nat (length data) <= mCapacity b ->
  exists b', store data b = Some b' /\ buf_wf (pbump (Z.of_nat (length data)) b') /\
    mCapacity b' = mCapacity b /\
    mSize (pbump (Z.of_nat (length data)) b') = mSize b + Z.of_nat (length data) /\
    contents (pbump (Z.of_nat (length data)) b') = contents b ++ data.
Proof.
  intros Hb Hfit. destruct (store_ok data b (buf_wf_ok b Hb) Hfit) as (b' & Hst & [Hm Hs _] & Hc & Hf & ? & ?).
  exists b'. split_and!; try done. destruct Hb as [_ _ Hcap Hcalc].
  split; [done|done|by destruct b'; cbn in *; rewrite Hc|by destruct b'; cbn in *; rewrite Hf].
Qed.

Lemma pbump_wf n b :
  buf_wf b -> 0 <= n -> mSize b + n <= mCapacity b ->
  buf_wf (pbump n b) /\ mSize (pbump n b) = mSize b + n /\
  exists pad, contents (pbump n b) = contents b ++ pad /\ Z.of_nat (length pad) = n.
Proof.
  intros Hb Hn Hfit. destruct (pbump_ok n b (buf_wf_ok b Hb) Hn Hfit) as ([Hm Hs _] & ? & ?).
  split; [|done]. destruct Hb as [_ _ Hcap Hcalc]. by destruct b.
Qed.

End buffer.

(** Without memory the buffer is lost: the array is given up before [realloc]
    is asked, so a failure leaves no buffer at all, and the next write is
    undefined. *)
Lemma setCapacity_out_of_memory `{Heap} n b :
  heap_alloc n = false -> mCalculator b = one2one -> mBuf b = BufStatic ->
  DSI_PAYLOAD_SIZE <= mCapacity b < n ->
  exists b', setCapacity n b = Some (false, b') /\ buf_mem b' = None /\
    forall data, store data b' = None.
Proof.
  intros Ha Hf Hp Hn. unfold setCapacity.
  rewrite (proj2 (Z.ltb_lt _ n)), (proj2 (Z.ltb_lt (mCapacity b) n)) by lia. cbn [andb].
  rewrite Hf, Hp. cbn [calculate mbind option_bind]. unfold realloc. rewrite Ha.
  eexists. split_and!; [done|by destruct b|]. intros data. by destruct b.
Qed.
