(* ===== verification/Stream.v ===== *)
(** The output and input streams for DSI messages, [COStream] and [CIStream]
    ([include/dsi/COStream.hpp], [include/dsi/CIStream.hpp], [src/base/COStream.cpp],
    [src/base/CIStream.cpp]), with their primitive data types.

    A stream writes into a [CBuffer]; a computation on the buffer returns [None]
    where the program writes outside of it.  Reading is a computation on the
    input stream with three outcomes: it is done, it throws, or it leaves the
    payload (undefined).  [roundtrips] and [safe] are the two judgements the
    composite types of [Serial] are proved with. *)

From S2P Require Import Prelude.
From S2P Require Import Buffer.
From S2P Require Import Utf8.

(** ** Outcomes of a read

    [Undefined] is behaviour the language leaves undefined, and the failure of an
    [assert]: without [NDEBUG] the program aborts there. *)

Inductive Outcome (A : Type) :=
  | Done (a : A)
  | Thrown
  | Undefined.
Arguments Done {A} a.
Arguments Thrown {A}.
Arguments Undefined {A}.

#[export] Instance Outcome_ret : MRet Outcome := @Done.
#[export] Instance Outcome_bind : MBind Outcome := fun A B f m =>
  match m with
  | Done a => f a
  | Thrown => Thrown
  | Undefined => Undefined
  end.

(** ** Scalars *)

(** The intrinsic types with a streaming operator.  A [float] or a [double] is
    its bit pattern; a C++ enumeration is streamed as [SC_uint32]. *)
Inductive scalar :=
  | SC_int8 | SC_int16 | SC_int32 | SC_int64
  | SC_uint8 | SC_uint16 | SC_uint32 | SC_uint64
  | SC_double | SC_float.

#[export] Instance scalar_eq_dec : EqDecision scalar.
Proof. solve_decision. Defined.

Definition sc_size (t : scalar) : nat :=
  match t with
  | SC_int8 | SC_uint8 => 1
  | SC_int16 | SC_uint16 => 2
  | SC_int32 | SC_uint32 | SC_float => 4
  | SC_int64 | SC_uint64 | SC_double => 8
  end.

Definition sc_signed (t : scalar) : bool :=
  match t with SC_int8 | SC_int16 | SC_int32 | SC_int64 => true | _ => false end.

Definition sc_bits (t : scalar) : Z := 8 * Z.of_nat (sc_size t).

(** The values of the type. *)
Definition is_scalar (t : scalar) (v : Z) : Prop :=
  if sc_signed t then - 2 ^ (sc_bits t - 1) <= v < 2 ^ (sc_bits t - 1) else 0 <= v < 2 ^ sc_bits t.

(** The value of [sizeof(T)] bytes read as a [T]. *)
Definition sc_value (t : scalar) (bs : bytes) : Z :=
  let x := le_value bs in
  if sc_signed t && (2 ^ (sc_bits t - 1) <=? x) then x - 2 ^ sc_bits t else x.

(** ** The output stream *)

Section ostream.
Context `{Heap}.

(** [COStream::setCapacity]: the outcome of [sbrk] is ignored. *)
Definition ostream_setCapacity (newCapacity : Z) (b : CBuffer) : option CBuffer :=
  sbrk (u32 (newCapacity - mSize b)) b.

(** Bytes skipped to align [off] to [k], a power of two. *)
Definition padding (off k : Z) : Z := Z.land (u32 (- off)) (k - 1).

(** [COStream::write(const T&)]; [data] are the bytes of the value. *)
Definition write_word (data : bytes) (b : CBuffer) : option CBuffer :=
  let k := Z.of_nat (length data) in
  b ← (if 2 * k <? avail b then Some b else ostream_setCapacity (u32 (mSize b + 2 * k)) b);
  let b := pbump (padding (mSize b) k) b in
  b ← store data b;
  Some (pbump k b).

(** [COStream::write(const void*, size_t)]. *)
Definition write_blob (data : bytes) (b : CBuffer) : option CBuffer :=
  let k := Z.of_nat (length data) in
  b ← (if k <? avail b then Some b else ostream_setCapacity (u32 (mSize b + k)) b);
  b ← store data b;
  Some (pbump k b).

Definition write_scalar (t : scalar) (v : Z) : CBuffer -> option CBuffer :=
  write_word (le_bytes (sc_size t) v).

Definition write_bool (v : bool) : CBuffer -> option CBuffer :=
  write_scalar SC_int32 (if v then 1 else 0).

Definition write_string (str : bytes) (b : CBuffer) : option CBuffer :=
  b ← write_scalar SC_uint32 (Z.of_nat (length str)) b;
  if bool_decide (str = []) then Some b else write_blob str b.

Definition write_wstring (str : list Z) (b : CBuffer) : option CBuffer :=
  if bool_decide (str = []) then write_scalar SC_uint32 0 b
  else
    let temp := toUTF8 str in
    b ← write_scalar SC_uint32 (u32 (Z.of_nat (length temp) + 1)) b;
    write_blob (temp ++ [0]) b.

End ostream.

(** ** The input stream *)

Definition ERANGE : Z := 34.

Record CIStream := mkCIStream {
  is_data : bytes;
  is_size : Z;
  is_offset : Z;
  is_error : Z;
}.
#[export] Instance Eta_CIStream : Eta CIStream :=
  fun s => mkCIStream (is_data s) (is_size s) (is_offset s) (is_error s).

Definition CIStream_new (payload : bytes) (len : Z) : CIStream := mkCIStream payload len 0 0.

(** Access to [n] bytes at [mData + mOffset]. *)
Definition peek (n : Z) (s : CIStream) : Outcome bytes :=
  if is_offset s + n <=? Z.of_nat (length (is_data s)) then
    Done (take (Z.to_nat n) (drop (Z.to_nat (is_offset s)) (is_data s)))
  else Undefined.

Definition advance (n : Z) (s : CIStream) : CIStream :=
  s <| is_offset ::= fun o => u32 (o + n) |>.

(** [CIStream::read(T&)] for [sizeof(T) = k]; [None] leaves the variable alone. *)
Definition read_word (k : Z) (s : CIStream) : Outcome (option bytes * CIStream) :=
  if is_error s =? 0 then
    let s := advance (padding (is_offset s) k) s in
    if u32 (is_offset s + k) <=? is_size s then
      v ← peek k s;
      Done (Some v, advance k s)
    else Done (None, s <| is_error := ERANGE |>)
  else Done (None, s).

Definition read_scalar (t : scalar) (old : Z) (s : CIStream) : Outcome (Z * CIStream) :=
  '(v, s) ← read_word (Z.of_nat (sc_size t)) s;
  Done (match v with Some bs => sc_value t bs | None => old end, s).

(** [CIStream::read(bool&)]. *)
Definition read_bool (old : bool) (s : CIStream) : Outcome (bool * CIStream) :=
  '(bval, s) ← read_scalar SC_int32 0 s;
  Done (negb (0 =? bval), s).

(** [CIStream::read(std::string&)]. *)
Definition read_string (old : bytes) (s : CIStream) : Outcome (bytes * CIStream) :=
  if is_error s =? 0 then
    '(numOfBytes, s) ← read_scalar SC_uint32 0 s;
    if (is_error s =? 0) && (0 <? numOfBytes) then
      if numOfBytes <=? u32 (is_size s - is_offset s) then
        tmp ← peek numOfBytes s;
        Done (tmp, advance numOfBytes s)
      else Done (old, s <| is_error := ERANGE |>)
    else Done ([], s)
  else Done (old, s).

(** [CIStream::read(std::wstring&)]. *)
Definition read_wstring (old : list Z) (s : CIStream) : Outcome (list Z * CIStream) :=
  if is_error s =? 0 then
    '(numOfBytes, s) ← read_scalar SC_uint32 0 s;
    if (is_error s =? 0) && (0 <? numOfBytes) then
      if numOfBytes <=? u32 (is_size s - is_offset s) then
        tmp ← peek (numOfBytes - 1) s;
        Done (fromUTF8 tmp, advance numOfBytes s)
      else Done (old, s <| is_error := ERANGE |>)
    else Done ([], s)
  else Done (old, s).

(** Raw access: [glen] and [gbump]. *)
Definition glen (s : CIStream) : Z := u32 (is_size s - is_offset s).

Definition gbump (len : Z) (s : CIStream) : CIStream :=
  if len <=? glen s then advance len s
  else s <| is_offset := is_size s |> <| is_error := ERANGE |>.

Example write_read_example :
  let b := (b ← write_scalar SC_uint8 7 (CBuffer_new powerOf2);
            b ← write_wstring [0xe4; 0x62] b;
            write_scalar SC_int16 (-2) b) in
  contents <$> b =
    Some [7; 0xAA; 0xAA; 0xAA; 4; 0; 0; 0; 0xc3; 0xa4; 0x62; 0; 0xfe; 0xff].
Proof. vm_compute. reflexivity. Qed.

(** ** Lemmas: bytes and padding *)

Lemma sc_bits_pos t : 8 <= sc_bits t <= 64.
Proof. by destruct t. Qed.

Lemma is_scalar_uint32 v : 0 <= v < 2 ^ 32 -> is_scalar SC_uint32 v.
Proof. exact id. Qed.

(** A value survives its byte representation. *)
Lemma sc_value_bytes t v : is_scalar t v -> sc_value t (le_bytes (sc_size t) v) = v.
Proof.
  intros Hv. unfold sc_value. rewrite le_value_bytes. fold (sc_bits t). pose proof (sc_bits_pos t).
  unfold is_scalar in Hv. assert (2 ^ sc_bits t = 2 * 2 ^ (sc_bits t - 1)) as Hp.
  { rewrite <-Z.pow_succ_r by lia. f_equal. lia. }
  destruct (sc_signed t); cbn [andb]; [|by apply Z.mod_small].
  destruct (Z.neg_nonneg_cases v) as [Hneg|Hnn].
  - rewrite <-(Z.mod_add v 1), Z.mod_small by lia. case_match; reflect_bools; lia.
  - rewrite Z.mod_small by lia. case_match; reflect_bools; lia.
Qed.

Definition is_word_size (k : Z) : Prop := k = 1 \/ k = 2 \/ k = 4 \/ k = 8.

Lemma padding_mod off k : is_word_size k -> padding off k = (- off) mod k.
Proof.
  intros Hk. unfold padding, u32.
  assert (exists j, 0 <= j <= 32 /\ k = 2 ^ j) as (j & Hj & ->).
  { destruct Hk as [-> |[-> |[-> | ->]]]; [exists 0|exists 1|exists 2|exists 3]; done. }
  replace (2 ^ j - 1) with (Z.ones j) by (rewrite Z.ones_equiv; lia). rewrite Z.land_ones by lia.
  apply Z.mod_mod_divide.
  exists (2 ^ (32 - j)). rewrite <-Z.pow_add_r by lia. f_equal. lia.
Qed.

Lemma padding_range off k : is_word_size k -> 0 <= padding off k < k.
Proof.
  intros Hk. rewrite padding_mod by done. apply Z.mod_pos_bound. unfold is_word_size in Hk. lia.
Qed.

Lemma sc_size_word t : is_word_size (Z.of_nat (sc_size t)).
Proof. unfold is_word_size. destruct t; cbn; lia. Qed.

(** ** The two judgements *)

(** The largest payload a stream can be given without its offset leaving 32 bits. *)
Definition STREAM_MAX : Z := 2 ^ 32 - 16.

(** A stream without error that stands at [off] in [data]. *)
Definition stream_at (data : bytes) (off : Z) : CIStream :=
  mkCIStream data (Z.of_nat (length data)) off 0.

(** Writing with [m], which takes at most [cost] bytes, succeeds, and reading
    with [g] what was written, whatever comes behind it, yields [a]. *)
Definition roundtrips `{Heap} {A} (m : CBuffer -> option CBuffer) (cost : Z)
    (g : CIStream -> Outcome (A * CIStream)) (a : A) : Prop :=
  forall b, buf_wf b -> mSize b + cost <= CAPACITY_MAX ->
  exists b' ext, m b = Some b' /\ buf_wf b' /\ mSize b' <= mSize b + cost /\
    contents b' = contents b ++ ext /\
    forall rest, Z.of_nat (length (contents b' ++ rest)) <= STREAM_MAX ->
      g (stream_at (contents b' ++ rest) (mSize b)) =
      Done (a, stream_at (contents b' ++ rest) (mSize b')).

(** A stream within its payload. *)
Record stream_wf (s : CIStream) : Prop := {
  sw_size : is_size s = Z.of_nat (length (is_data s));
  sw_max : is_size s <= STREAM_MAX;
  sw_offset : 0 <= is_offset s < is_size s + 8;
  sw_error : is_error s = 0 -> is_offset s <= is_size s;
}.

(** Whatever the payload, reading with [g] stays inside of it. *)
Definition safe {A} (g : CIStream -> Outcome (A * CIStream)) : Prop :=
  forall s, stream_wf s ->
    match g s with
    | Done (_, s') => stream_wf s' /\ is_data s' = is_data s
    | Thrown => True
    | Undefined => False
    end.

Lemma safe_ret {A} (a : A) : safe (fun s => Done (a, s)).
Proof. by intros s Hs. Qed.

Lemma safe_thrown {A} : safe (fun _ => @Thrown (A * CIStream)).
Proof. by intros s Hs. Qed.

Lemma safe_bind {A B} (g : CIStream -> Outcome (A * CIStream)) (h : A -> CIStream -> Outcome (B * CIStream)) :
  safe g -> (forall a, safe (h a)) -> safe (fun s => '(a, s) ← g s; h a s).
Proof.
  intros Hg Hh s Hs. specialize (Hg s Hs). cbv [mbind Outcome_bind]. destruct (g s) as [[a s']| |]; try done.
  destruct Hg as [Hs' Hd]. specialize (Hh a s' Hs'). destruct (h a s') as [[b s'']| |]; try done.
  destruct Hh as [Hs'' Hd']. by rewrite Hd', Hd.
Qed.

Section judgements.
Context `{Heap}.

Lemma roundtrips_bind {A B} m1 m2 c1 c2 (g1 : CIStream -> Outcome (A * CIStream)) a1
    (g2 : A -> CIStream -> Outcome (B * CIStream)) a2 :
  0 <= c2 -> roundtrips m1 c1 g1 a1 -> roundtrips m2 c2 (g2 a1) a2 ->
  roundtrips (fun b => b ← m1 b; m2 b) (c1 + c2) (fun s => '(a, s) ← g1 s; g2 a s) a2.
Proof.
  intros Hc H1 H2 b Hb Hmax.
  destruct (H1 b Hb) as (b1 & e1 & Hm1 & Hw1 & Hs1 & Hc1 & Hr1); [lia|].
  destruct (H2 b1 Hw1) as (b2 & e2 & Hm2 & Hw2 & Hs2 & Hc2 & Hr2); [lia|].
  exists b2, (e1 ++ e2). split_and!; [by rewrite Hm1|done|lia|by rewrite Hc2, Hc1, app_assoc|].
  intros rest Hrest. specialize (Hr1 (e2 ++ rest)). specialize (Hr2 rest Hrest).
  rewrite app_assoc, <-Hc2 in Hr1. rewrite Hr1 by done. exact Hr2.
Qed.

Lemma roundtrips_ret {A} (a : A) c : 0 <= c -> roundtrips Some c (fun s => Done (a, s)) a.
Proof.
  intros Hc b Hb Hmax. exists b, []. split_and!; [done|done|lia|by rewrite app_nil_r|done].
Qed.

(** The reader may be replaced by an equal one. *)
Lemma roundtrips_ext {A} m m' c c' (g g' : CIStream -> Outcome (A * CIStream)) a :
  roundtrips m c g a -> (forall b, m b = m' b) -> (forall s, is_error s = 0 -> g s = g' s) -> c <= c' ->
  roundtrips m' c' g' a.
Proof.
  intros Hr Hm Hg Hc b Hb Hmax. destruct (Hr b Hb) as (b' & e & H1 & H2 & H3 & H4 & H5); [lia|].
  exists b', e. rewrite <-Hm. split_and!; try done; [lia|]. intros rest Hrest. rewrite <-Hg by done. auto.
Qed.

(** ** The primitive types round-trip *)

Hypothesis Hheap : heap_ample.

(** Both [write] functions start by making room. *)
Definition reserve (n : Z) (b : CBuffer) : option CBuffer :=
  if n <? avail b then Some b else ostream_setCapacity (u32 (mSize b + n)) b.

Lemma reserve_wf n b :
  buf_wf b -> 0 <= n -> mSize b + 2 * n <= CAPACITY_MAX ->
  exists b', reserve n b = Some b' /\ buf_wf b' /\ mSize b' = mSize b /\
    mSize b + n <= mCapacity b' /\ contents b' = contents b.
Proof.
  intros Hb Hn Hmax. destruct Hb as [Hm Hs Hc Hf] eqn:E. clear E. pose proof (is_capacity_le _ Hc).
  assert (CAPACITY_MAX < 2 ^ 32) by done. unfold reserve, ostream_setCapacity, sbrk, avail.
  assert (u32 (mCapacity b - mSize b) = mCapacity b - mSize b) as -> by (apply u32_id; unfold is_u32; lia).
  destruct (Z.ltb_spec n (mCapacity b - mSize b)); [exists b; split_and!; try done; lia|].
  assert (u32 (mSize b + n) = mSize b + n) as -> by (apply u32_id; unfold is_u32; lia).
  assert (u32 (mSize b + n - mSize b) = n) as -> by (rewrite u32_id; unfold is_u32; lia).
  assert (u32 (mCapacity b + n) = mCapacity b + n) as -> by (apply u32_id; unfold is_u32; lia).
  destruct (setCapacity_wf (mCapacity b + n) b) as (b' & -> & ? & ? & ? & ?); [done|done|lia|].
  exists b'. split_and!; try done. lia.
Qed.

Lemma write_word_wf data b :
  is_word_size (Z.of_nat (length data)) -> buf_wf b ->
  mSize b + 4 * Z.of_nat (length data) <= CAPACITY_MAX ->
  exists b' pad, write_word data b = Some b' /\ buf_wf b' /\
    mSize b' = mSize b + padding (mSize b) (Z.of_nat (length data)) + Z.of_nat (length data) /\
    contents b' = contents b ++ pad ++ data /\
    Z.of_nat (length pad) = padding (mSize b) (Z.of_nat (length data)).
Proof.
  intros Hk Hb Hmax. unfold write_word. set (k := Z.of_nat (length data)) in *.
  pose proof (padding_range (mSize b) k Hk) as Hp. fold (reserve (2 * k) b).
  destruct (reserve_wf (2 * k) b) as (b1 & -> & Hw1 & Hs1 & Hc1 & Hcont1); [done|lia|lia|].
  cbn [mbind option_bind]. rewrite Hs1.
  destruct (pbump_wf (padding (mSize b) k) b1) as (Hw2 & Hs2 & pad & Hcont2 & Hpad); [done|lia|lia|].
  assert (mCapacity (pbump (padding (mSize b) k) b1) = mCapacity b1) as Hcap by (by destruct b1).
  destruct (store_wf data (pbump (padding (mSize b) k) b1)) as (b2 & -> & Hw3 & _ & Hs3 & Hcont3);
    [done|rewrite Hs2, Hs1, Hcap; fold k; lia|].
  fold k in Hw3, Hs3, Hcont3. eexists _, pad. split; [done|]. split_and!; [done| | |done].
  - rewrite Hs3, Hs2, Hs1. lia.
  - by rewrite Hcont3, Hcont2, Hcont1, app_assoc.
Qed.

Lemma write_blob_wf data b :
  buf_wf b -> mSize b + 2 * Z.of_nat (length data) <= CAPACITY_MAX ->
  exists b', write_blob data b = Some b' /\ buf_wf b' /\
    mSize b' = mSize b + Z.of_nat (length data) /\ contents b' = contents b ++ data.
Proof.
  intros Hb Hmax. unfold write_blob. fold (reserve (Z.of_nat (length data)) b).
  destruct (reserve_wf (Z.of_nat (length data)) b) as (b1 & -> & Hw1 & Hs1 & Hc1 & Hcont1); [done|lia|lia|].
  cbn [mbind option_bind].
  destruct (store_wf data b1) as (b2 & -> & Hw3 & _ & Hs3 & Hcont3); [done|lia|].
  eexists. split_and!; [done|done|by rewrite Hs3, Hs1|by rewrite Hcont3, Hcont1].
Qed.

(** Reading at the end of [pre] what follows it. *)
Lemma peek_at pre mid rest :
  peek (Z.of_nat (length mid)) (stream_at ((pre ++ mid) ++ rest) (Z.of_nat (length pre))) = Done mid.
Proof.
  unfold peek, stream_at. cbn [is_offset is_data]. rewrite (proj2 (Z.leb_le _ _)).
  - by rewrite !Nat2Z.id, <-app_assoc, drop_app_length, take_app_length.
  - rewrite !length_app. lia.
Qed.

Lemma advance_at data off n :
  0 <= off + n < 2 ^ 32 -> advance n (stream_at data off) = stream_at data (off + n).
Proof. intros Hr. unfold advance, stream_at. cbn. f_equal. by apply u32_id. Qed.

Lemma roundtrips_word data :
  is_word_size (Z.of_nat (length data)) ->
  roundtrips (write_word data) (4 * Z.of_nat (length data))
    (read_word (Z.of_nat (length data))) (Some data).
Proof.
  intros Hk b Hb Hmax. pose proof (padding_range (mSize b) _ Hk) as Hp.
  destruct (write_word_wf data b Hk Hb Hmax) as (b' & pad & Hw & Hb' & Hs & Hc & Hpad).
  exists b', (pad ++ data). split_and!; [done|done|lia|done|]. intros rest Hrest.
  pose proof (contents_length b Hb) as Hlen. pose proof (wf_size _ Hb) as Hsz.
  pose proof (contents_length b' Hb') as Hlen'.
  rewrite length_app in Hrest. unfold STREAM_MAX in Hrest.
  set (k := Z.of_nat (length data)) in *.
  unfold read_word. cbn [stream_at is_error Z.eqb is_offset].
  rewrite advance_at by lia. set (p := mSize b + padding (mSize b) k) in *.
  cbn [stream_at is_offset is_size].
  rewrite u32_id by (unfold is_u32; lia). rewrite (proj2 (Z.leb_le _ _)) by (rewrite length_app; lia).
  assert (p = Z.of_nat (length (contents b ++ pad))) as Hpl by (rewrite length_app; lia).
  rewrite Hc, app_assoc, Hpl at 1. unfold k. rewrite peek_at. cbn [mbind Outcome_bind].
  rewrite advance_at by (fold k; lia). by rewrite Hs.
Qed.

Lemma roundtrips_scalar t v old :
  is_scalar t v -> roundtrips (write_scalar t v) 32 (read_scalar t old) v.
Proof.
  intros Hv. pose proof (le_bytes_length (sc_size t) v) as Hl.
  pose proof (roundtrips_word (le_bytes (sc_size t) v)) as Hw. rewrite Hl in Hw.
  specialize (Hw (sc_size_word t)).
  pose proof (roundtrips_bind _ Some _ 0 _ _
    (fun v s => Done (match v with Some bs => sc_value t bs | None => old end, s)) v
    ltac:(done) Hw) as Hb. cbv beta iota in Hb. rewrite sc_value_bytes in Hb by done.
  eapply roundtrips_ext; [apply Hb; by apply roundtrips_ret| | |destruct t; cbn; lia]; [|done].
  intros b. unfold write_scalar. cbv beta. by destruct (write_word (le_bytes (sc_size t) v) b).
Qed.

Lemma roundtrips_bool v old : roundtrips (write_bool v) 32 (read_bool old) v.
Proof.
  assert (roundtrips (write_bool v) 32 (read_scalar SC_int32 0) (if v then 1 else 0)) as Hs
    by (apply roundtrips_scalar; by destruct v).
  pose proof (roundtrips_bind _ Some _ 0 _ _ (fun bval s => Done (negb (0 =? bval), s)) v
    ltac:(done) Hs) as Hb.
  eapply roundtrips_ext; [apply Hb; destruct v; by apply roundtrips_ret| |done|done].
  intros b. cbv beta. by destruct (write_bool v b).
Qed.

(** Reading bytes that were written as they are; the reader looks at the first
    [m] of them. *)
Lemma roundtrips_blob {A} data (m : nat) (f : bytes -> A) bad :
  (m <= length data)%nat ->
  roundtrips (write_blob data) (2 * Z.of_nat (length data))
    (fun s => if Z.of_nat (length data) <=? u32 (is_size s - is_offset s) then
                tmp ← peek (Z.of_nat m) s; Done (f tmp, advance (Z.of_nat (length data)) s)
              else bad s) (f (take m data)).
Proof.
  intros Hm b Hb Hmax.
  destruct (write_blob_wf data b Hb Hmax) as (b' & Hw & Hb' & Hs & Hc).
  exists b', data. split_and!; [done|done|lia|done|]. intros rest Hrest.
  pose proof (contents_length b Hb) as Hlen. pose proof (wf_size _ Hb) as Hsz.
  rewrite Hc in *. rewrite !length_app in Hrest. unfold STREAM_MAX in Hrest.
  cbn [stream_at is_size is_offset].
  assert (u32 (Z.of_nat (length ((contents b ++ data) ++ rest)) - mSize b) =
          Z.of_nat (length data + length rest)) as ->.
  { rewrite !length_app, u32_id; unfold is_u32; lia. }
  rewrite (proj2 (Z.leb_le _ _)) by lia.
  pose proof (peek_at (contents b) (take m data) (drop m data ++ rest)) as Hp.
  rewrite length_take, Nat.min_l, Hlen in Hp by lia.
  rewrite <-app_assoc, (app_assoc (take m data)), take_drop, app_assoc in Hp. rewrite Hp.
  cbn [mbind Outcome_bind]. rewrite advance_at by lia. by rewrite Hs.
Qed.

(** Strings, as they are and as UTF-8. *)
Definition string_cost (str : bytes) : Z := 32 + 2 * Z.of_nat (length str).

Definition is_string (str : bytes) : Prop := Z.of_nat (length str) < 2 ^ 32.

Lemma roundtrips_string str old :
  is_string str -> roundtrips (write_string str) (string_cost str) (read_string old) str.
Proof.
  intros Hstr. unfold is_string in Hstr.
  pose proof (roundtrips_scalar SC_uint32 (Z.of_nat (length str)) 0
    (is_scalar_uint32 (Z.of_nat (length str)) ltac:(lia))) as Hn.
  pose proof (roundtrips_bind _ (fun b => if bool_decide (str = []) then Some b else write_blob str b)
    _ (2 * Z.of_nat (length str)) _ _
    (fun n s => if (is_error s =? 0) && (0 <? n) then
                  if n <=? u32 (is_size s - is_offset s) then
                    tmp ← peek n s; Done (tmp, advance n s)
                  else Done (old, s <| is_error := ERANGE |>)
                else Done ([], s)) str ltac:(lia) Hn) as Hb.
  eapply roundtrips_ext; [apply Hb|done| |unfold string_cost; lia].
  - destruct (decide (str = [])) as [->|Hne].
    + rewrite bool_decide_eq_true_2 by done.
      eapply roundtrips_ext; [by apply (roundtrips_ret [] 0)|done| |done].
      intros s Hs. by rewrite Hs.
    + rewrite bool_decide_eq_false_2 by done.
      assert (0 < Z.of_nat (length str)) by (destruct str; [done|cbn; lia]).
      pose proof (roundtrips_blob str (length str) id (fun s => Done (old, s <| is_error := ERANGE |>))
        ltac:(lia)) as Hr. rewrite take_ge in Hr by lia.
      eapply roundtrips_ext; [exact Hr|done| |done].
      intros s Hs. by rewrite Hs, (proj2 (Z.ltb_lt 0 (Z.of_nat (length str)))) by lia.
  - intros s Hs. unfold read_string. by rewrite Hs.
Qed.

Definition wstring_cost (str : list Z) : Z := 34 + 2 * Z.of_nat (length (toUTF8 str)).

Definition is_wstring (str : list Z) : Prop :=
  Forall is_code_point str /\ Z.of_nat (length (toUTF8 str)) + 1 < 2 ^ 32.

Lemma toUTF8_nonempty str : str <> [] -> (0 < length (toUTF8 str))%nat.
Proof.
  destruct str as [|w str]; [done|]. intros _. unfold toUTF8. cbn [flat_map]. rewrite length_app.
  assert (0 < length (toUTF8_char w))%nat; [|lia]. unfold toUTF8_char.
  repeat case_match; cbn; lia.
Qed.

Lemma roundtrips_wstring str old :
  is_wstring str -> roundtrips (write_wstring str) (wstring_cost str) (read_wstring old) str.
Proof.
  intros [Hcp Hlen]. unfold write_wstring. destruct (decide (str = [])) as [->|Hne].
  - rewrite bool_decide_eq_true_2 by done.
    pose proof (roundtrips_scalar SC_uint32 0 0 ltac:(done)) as Hn.
    pose proof (roundtrips_bind _ Some _ 0 _ _
      (fun n s => if (is_error s =? 0) && (0 <? n) then
                  if n <=? u32 (is_size s - is_offset s) then
                    tmp ← peek (n - 1) s; Done (fromUTF8 tmp, advance n s)
                  else Done (old, s <| is_error := ERANGE |>)
                else Done ([], s)) [] ltac:(done) Hn) as Hb.
    eapply roundtrips_ext; [apply Hb| | |unfold wstring_cost; lia].
    + eapply roundtrips_ext; [by apply (roundtrips_ret [] 0)|done| |done].
      intros s Hs. by rewrite Hs.
    + intros b. cbv beta. by destruct (write_scalar _ _ b).
    + intros s Hs. unfold read_wstring. by rewrite Hs.
  - rewrite bool_decide_eq_false_2 by done. pose proof (toUTF8_nonempty str Hne) as Hpos.
    rewrite u32_id by (unfold is_u32; lia). set (n := Z.of_nat (length (toUTF8 str)) + 1) in *.
    pose proof (roundtrips_scalar SC_uint32 n 0 (is_scalar_uint32 n ltac:(lia))) as Hn.
    pose proof (roundtrips_bind _ (write_blob (toUTF8 str ++ [0])) _ (2 * n) _ _
      (fun n s => if (is_error s =? 0) && (0 <? n) then
                  if n <=? u32 (is_size s - is_offset s) then
                    tmp ← peek (n - 1) s; Done (fromUTF8 tmp, advance n s)
                  else Done (old, s <| is_error := ERANGE |>)
                else Done ([], s)) str ltac:(lia) Hn) as Hb.
    eapply roundtrips_ext; [apply Hb|done| |unfold wstring_cost; lia].
    + pose proof (roundtrips_blob (toUTF8 str ++ [0]) (length (toUTF8 str)) fromUTF8
        (fun s => Done (old, s <| is_error := ERANGE |>)) ltac:(rewrite length_app; lia)) as Hr.
      rewrite take_app_length, fromUTF8_toUTF8 in Hr by done.
      assert (Z.of_nat (length (toUTF8 str ++ [0])) = n) as Hl by (rewrite length_app; cbn; lia).
      rewrite Hl in Hr. eapply roundtrips_ext; [exact Hr|done| |done].
      intros s Hs. rewrite Hs, (proj2 (Z.ltb_lt 0 n)) by lia. cbn [Z.eqb andb].
      by replace (n - 1) with (Z.of_nat (length (toUTF8 str))) by lia.
    + intros s Hs. unfold read_wstring. by rewrite Hs.
Qed.
End judgements.

(** ** Reading stays inside of the payload *)

Lemma advance_offset n s :
  0 <= is_offset s + n < 2 ^ 32 -> is_offset (advance n s) = is_offset s + n.
Proof. intros Hr. unfold advance. cbn. by apply u32_id. Qed.

Lemma advance_fields n s :
  is_size (advance n s) = is_size s /\ is_data (advance n s) = is_data s /\
  is_error (advance n s) = is_error s.
Proof. by destruct s. Qed.

(** A checked advance. *)
Lemma advance_wf n s :
  stream_wf s -> 0 <= n -> is_offset s + n <= is_size s -> stream_wf (advance n s).
Proof.
  intros [Hz Hm Ho He] Hn Hfit. unfold STREAM_MAX in Hm.
  pose proof (advance_offset n s ltac:(lia)) as Ha.
  destruct (advance_fields n s) as (Hsz & Hdt & Her).
  split; rewrite ?Ha, ?Hsz, ?Hdt, ?Her; try done; lia.
Qed.

(** Giving up with an error. *)
Lemma error_wf s : stream_wf s -> stream_wf (s <| is_error := ERANGE |>).
Proof. intros [Hz Hm Ho He]. destruct s. split; cbn in *; try done. Qed.

Lemma peek_inside n s :
  stream_wf s -> is_offset s + n <= is_size s ->
  peek n s = Done (take (Z.to_nat n) (drop (Z.to_nat (is_offset s)) (is_data s))).
Proof.
  intros Hs Hfit. unfold peek. rewrite (proj2 (Z.leb_le _ _)); [done|].
  rewrite <-(sw_size _ Hs). done.
Qed.

Lemma read_word_safe k : is_word_size k -> safe (read_word k).
Proof.
  intros Hk s Hs. pose proof Hs as [Hz Hm Ho He]. unfold STREAM_MAX in Hm.
  unfold read_word. destruct (Z.eqb_spec (is_error s) 0) as [H0|]; [|done].
  specialize (He H0). pose proof (padding_range (is_offset s) k Hk) as Hp.
  assert (1 <= k <= 8) by (unfold is_word_size in Hk; lia).
  set (p := padding (is_offset s) k) in *.
  pose proof (advance_offset p s ltac:(lia)) as Ha.
  destruct (advance_fields p s) as (Hsz & Hdt & Her).
  rewrite Ha, Hsz, u32_id by (unfold is_u32; lia).
  destruct (Z.leb_spec (is_offset s + p + k) (is_size s)) as [Hfit|Hbig].
  - assert (stream_wf (advance p s)) as Hw by (apply advance_wf; [done|lia|lia]).
    rewrite peek_inside by (rewrite ?Ha, ?Hsz; (done || lia)). cbn [mbind Outcome_bind].
    split; [|by rewrite <-Hdt; destruct s]. apply advance_wf; [done|lia|lia].
  - split; [|by destruct s]. split; [by destruct s|by destruct s| |by destruct s].
    replace (is_offset _) with (is_offset (advance p s)) by (by destruct s).
    replace (is_size _) with (is_size s) by (by destruct s). rewrite Ha. lia.
Qed.

Lemma read_scalar_safe t old : safe (read_scalar t old).
Proof.
  apply (safe_bind (read_word (Z.of_nat (sc_size t)))
    (fun v s => Done (match v with Some bs => sc_value t bs | None => old end, s))).
  - apply read_word_safe, sc_size_word.
  - intros v. apply safe_ret.
Qed.

Lemma read_bool_safe old : safe (read_bool old).
Proof.
  apply (safe_bind (read_scalar SC_int32 0) (fun bval s => Done (negb (0 =? bval), s))).
  - apply read_scalar_safe.
  - intros v. apply safe_ret.
Qed.

(** The tail of the two string functions; [m] is what they look at. *)
Lemma read_counted_safe {A} (old : A) (f : bytes -> A) (empty : A) n m :
  m <= n ->
  safe (fun s => if (is_error s =? 0) && (0 <? n) then
                   if n <=? u32 (is_size s - is_offset s) then
                     tmp ← peek m s; Done (f tmp, advance n s)
                   else Done (old, s <| is_error := ERANGE |>)
                 else Done (empty, s)).
Proof.
  intros Hmn s Hs. pose proof Hs as [Hz Hm Ho He]. unfold STREAM_MAX in Hm.
  destruct (Z.eqb_spec (is_error s) 0) as [H0|]; [|done]. specialize (He H0).
  destruct (Z.ltb_spec 0 n) as [Hn|]; [|done]. cbn [andb].
  rewrite u32_id by (unfold is_u32; lia).
  destruct (Z.leb_spec n (is_size s - is_offset s)) as [Hfit|Hbig].
  - rewrite peek_inside by (done || lia). cbn [mbind Outcome_bind].
    split; [|by destruct s]. apply advance_wf; [done|lia|lia].
  - split; [by apply error_wf|by destruct s].
Qed.

(** Both do nothing on a stream with an error. *)
Lemma safe_guard {A} (old : A) (g : CIStream -> Outcome (A * CIStream)) :
  safe g -> safe (fun s => if is_error s =? 0 then g s else Done (old, s)).
Proof. intros Hg s Hs. destruct (is_error s =? 0); [by apply Hg|done]. Qed.

Lemma read_string_safe old : safe (read_string old).
Proof.
  unfold read_string. apply safe_guard.
  apply (safe_bind (read_scalar SC_uint32 0) _ (read_scalar_safe _ _)).
  intros n. by apply (read_counted_safe old id [] n n).
Qed.

Lemma read_wstring_safe old : safe (read_wstring old).
Proof.
  unfold read_wstring. apply safe_guard.
  apply (safe_bind (read_scalar SC_uint32 0) _ (read_scalar_safe _ _)).
  intros n. apply (read_counted_safe old fromUTF8 [] n (n - 1)). lia.
Qed.

(** After a failed read the offset may stand behind the payload; the public
    [glen] then reports almost four gigabytes. *)
Lemma glen_after_error :
  exists s s' v, stream_wf s /\ read_scalar SC_uint32 0 s = Done (v, s') /\ is_error s' = ERANGE /\
    is_size s' < is_offset s' /\ glen s' = 2 ^ 32 - 3.
Proof.
  exists (stream_at [1; 2; 3; 4; 5] 5). eexists _, _.
  split_and!; [split; cbn; try lia; done|vm_compute; reflexivity|done|done|done].
Qed.
