(* ===== verification/Serial.v ===== *)
(** The data types of DSI messages and their serialisation: vectors, maps and
    variants of [include/dsi/COStream.hpp] and [include/dsi/CIStream.hpp] over the
    primitive types of [Stream].

    A C++ type with its streaming operators is a [sty]; the overloaded operators
    of a container are a function of those of its elements, as the templates are.
    [denote] interprets a type expression, however nested, as a [sty].  A value is
    read into a variable that holds an old value, which matters: a map is not
    cleared, and the loop that reads it reuses its key and value variables.

    Shown are the round trip of every value of every supported type, that reading
    never leaves the payload for any input, and the cases that do not survive. *)

From S2P Require Import Prelude.
From S2P Require Import Buffer.
From S2P Require Import Utf8.
From S2P Require Import Stream.
From Stdlib Require Import Sorting.Sorted.

(** ** Types with streaming operators *)

Section serial.
Context `{Heap}.

Record sty := STy {
  sty_type : Type;
  (** value-initialised, as in [T()] and [resize] *)
  sty_default : sty_type;
  (** default-initialised, as in [T t;]: indeterminate for scalars *)
  sty_init : sty_type;
  (** [operator<] *)
  sty_less : sty_type -> sty_type -> bool;
  (** [operator<<] *)
  sty_put : sty_type -> CBuffer -> option CBuffer;
  (** [operator>>], given the old value *)
  sty_get : sty_type -> CIStream -> Outcome (sty_type * CIStream);
}.

(** [std::lexicographical_compare]. *)
Fixpoint lex_less {A} (less : A -> A -> bool) (a b : list A) : bool :=
  match a, b with
  | _, [] => false
  | [], _ :: _ => true
  | x :: a, y :: b => less x y || (negb (less y x) && lex_less less a b)
  end.

Definition pair_less {A B} (lessA : A -> A -> bool) (lessB : B -> B -> bool) (p q : A * B) : bool :=
  lessA p.1 q.1 || (negb (lessA q.1 p.1) && lessB p.2 q.2).

(** The primitive types; floating point numbers are compared by their values,
    which the model does not know, so they have no order here. *)
Definition sty_scalar (t : scalar) : sty := {|
  sty_type := Z;
  sty_default := 0;
  sty_init := sc_value t (junk (sc_size t));
  sty_less := fun a b => match t with SC_double | SC_float => false | _ => a <? b end;
  sty_put := write_scalar t;
  sty_get := read_scalar t;
|}.

Definition sty_bool : sty := {|
  sty_type := bool;
  sty_default := false;
  sty_init := negb (heap_junk 0 =? 0);
  sty_less := fun a b => negb a && b;
  sty_put := write_bool;
  sty_get := read_bool;
|}.

Definition sty_string : sty := {|
  sty_type := bytes;
  sty_default := [];
  sty_init := [];
  sty_less := lex_less Z.ltb;
  sty_put := write_string;
  sty_get := read_string;
|}.

Definition sty_wstring : sty := {|
  sty_type := list Z;
  sty_default := [];
  sty_init := [];
  sty_less := lex_less Z.ltb;
  sty_put := write_wstring;
  sty_get := read_wstring;
|}.

(** ** [std::vector<T>] *)

Section vector.
Variable T : sty.

Fixpoint put_all (v : list (sty_type T)) (b : CBuffer) : option CBuffer :=
  match v with
  | [] => Some b
  | x :: v => b ← sty_put T x b; put_all v b
  end.

Definition put_vector (v : list (sty_type T)) (b : CBuffer) : option CBuffer :=
  b ← write_scalar SC_int32 (i32 (Z.of_nat (length v))) b;
  put_all v b.

(** [v.resize(n)]. *)
Definition vector_resize (n : Z) (v : list (sty_type T)) : Outcome (list (sty_type T)) :=
  if n <=? Z.of_nat (length v) then Done (take (Z.to_nat n) v)
  else if heap_elements n then Done (v ++ replicate (Z.to_nat n - length v) (sty_default T))
  else Thrown.

(** The loop over the resized vector. *)
Fixpoint get_all (v : list (sty_type T)) (s : CIStream) : Outcome (list (sty_type T) * CIStream) :=
  match v with
  | [] => Done ([], s)
  | x :: v =>
    '(x, s) ← sty_get T x s;
    '(v, s) ← get_all v s;
    Done (x :: v, s)
  end.

(** The [int32_t] read is converted to [size_t]. *)
Definition get_vector (old : list (sty_type T)) (s : CIStream)
    : Outcome (list (sty_type T) * CIStream) :=
  '(newSize, s) ← read_scalar SC_int32 0 s;
  v ← vector_resize (u32 newSize) old;
  get_all v s.

Definition sty_vector : sty := {|
  sty_type := list (sty_type T);
  sty_default := [];
  sty_init := [];
  sty_less := lex_less (sty_less T);
  sty_put := put_vector;
  sty_get := get_vector;
|}.

End vector.

(** ** [std::map<K, V>]: the list of its entries in the order of the keys *)

Section map.
Variables K V : sty.

Abbreviation entries := (list (sty_type K * sty_type V)).

(** [m[key] = value]. *)
Fixpoint map_set (key : sty_type K) (value : sty_type V) (m : entries) : entries :=
  match m with
  | [] => [(key, value)]
  | (k, v) :: m' =>
    if sty_less K k key then (k, v) :: map_set key value m'
    else if sty_less K key k then (key, value) :: m
    else (k, value) :: m'
  end.

Fixpoint put_entries (m : entries) (b : CBuffer) : option CBuffer :=
  match m with
  | [] => Some b
  | (k, v) :: m => b ← sty_put K k b; b ← sty_put V v b; put_entries m b
  end.

Definition put_map (m : entries) (b : CBuffer) : option CBuffer :=
  b ← write_scalar SC_int32 (i32 (Z.of_nat (length m))) b;
  put_entries m b.

(** The loop [while (newSize-- > 0)] with its two variables. *)
Fixpoint get_entries (n : nat) (key : sty_type K) (value : sty_type V) (m : entries) (s : CIStream)
    : Outcome (entries * CIStream) :=
  match n with
  | O => Done (m, s)
  | S n =>
    '(key, s) ← sty_get K key s;
    '(value, s) ← sty_get V value s;
    get_entries n key value (map_set key value m) s
  end.

Definition get_map (old : entries) (s : CIStream) : Outcome (entries * CIStream) :=
  '(newSize, s) ← read_scalar SC_int32 0 s;
  get_entries (Z.to_nat newSize) (sty_init K) (sty_init V) old s.

Definition sty_map : sty := {|
  sty_type := entries;
  sty_default := [];
  sty_init := [];
  sty_less := lex_less (pair_less (sty_less K) (sty_less V));
  sty_put := put_map;
  sty_get := get_map;
|}.

End map.

(** ** [TVariant<TypelistT>]

    The type list holds distinct types, so a type is its position.  Type id 0 is
    the empty variant. *)

(** [RelaxedTypeAt<N, ListT>::type]; [None] is [SNilType]. *)
Definition RelaxedTypeAt (N : nat) (ts : list sty) : option sty := ts !! N.

Definition type_of (o : option sty) : Type :=
  match o with Some T => sty_type T | None => unit end.

Definition type_at (ts : list sty) (idx : nat) : Type :=
  match idx with O => unit | S i => type_of (RelaxedTypeAt i ts) end.

Record TVariant (ts : list sty) := mkVariant { mIdx : nat; mData : type_at ts mIdx }.
Arguments mkVariant {ts} mIdx mData.
Arguments mIdx {ts} t.
Arguments mData {ts} t.

Definition unset {ts} : TVariant ts := mkVariant 0 tt.

Definition type_default (o : option sty) : type_of o :=
  match o with Some T => sty_default T | None => tt end.

Definition type_put (o : option sty) : type_of o -> CBuffer -> option CBuffer :=
  match o with Some T => sty_put T | None => fun _ b => Some b end.

Definition type_get (o : option sty) : type_of o -> CIStream -> Outcome (type_of o * CIStream) :=
  match o with Some T => sty_get T | None => fun _ _ => Undefined end.

Section variant.
Variable ts : list sty.

(** [staticVisit] with the serialisation visitor, which writes nothing for an empty
    variant, and with the deserialisation visitor, which fails [assert(false)]. *)
Definition visit_put (idx : nat) : type_at ts idx -> CBuffer -> option CBuffer :=
  match idx with O => fun _ b => Some b | S i => type_put (RelaxedTypeAt i ts) end.

Definition visit_get (idx : nat) : type_at ts idx -> CIStream -> Outcome (type_at ts idx * CIStream) :=
  match idx with O => fun _ _ => Undefined | S i => type_get (RelaxedTypeAt i ts) end.

Definition put_variant (v : TVariant ts) (b : CBuffer) : option CBuffer :=
  b ← write_scalar SC_int32 (Z.of_nat (mIdx v)) b;
  visit_put (mIdx v) (mData v) b.

(** The positions in the table [funcs] of [VariantDeserializationHelper::reset],
    as the source lists them: position 7 twice, position 9 never. *)
Definition funcs : list (option nat) :=
  [None; Some 0; Some 1; Some 2; Some 3; Some 4; Some 5; Some 6; Some 7; Some 7; Some 8;
   Some 10; Some 11; Some 12; Some 13; Some 14]%nat.

Definition variant_reset (idx : Z) : Outcome (TVariant ts) :=
  if (0 <? idx) && (idx <=? Z.of_nat (length ts)) then
    match funcs !! Z.to_nat idx with
    | None => Undefined
    | Some None => Done unset
    | Some (Some N) =>
      match RelaxedTypeAt N ts with
      | Some _ => Done (mkVariant (S N) (type_default (RelaxedTypeAt N ts)))
      | None => Done unset
      end
    end
  else Done unset.

Definition get_variant (old : TVariant ts) (s : CIStream) : Outcome (TVariant ts * CIStream) :=
  '(typeId, s) ← read_scalar SC_int32 0 s;
  var ← variant_reset typeId;
  if bool_decide (mIdx var = 0%nat) then Done (var, s)
  else
    '(x, s) ← visit_get (mIdx var) (mData var) s;
    Done (mkVariant (mIdx var) x, s).

Definition sty_variant : sty := {|
  sty_type := TVariant ts;
  sty_default := unset;
  sty_init := unset;
  sty_less := fun _ _ => false;
  sty_put := put_variant;
  sty_get := get_variant;
|}.

End variant.

(** ** Type expressions *)

Inductive dtype :=
  | DScalar (t : scalar)
  | DBool
  | DString
  | DWString
  | DVector (t : dtype)
  | DMap (k v : dtype)
  | DVariant (ts : list dtype).

Fixpoint denote (t : dtype) : sty :=
  match t with
  | DScalar t => sty_scalar t
  | DBool => sty_bool
  | DString => sty_string
  | DWString => sty_wstring
  | DVector t => sty_vector (denote t)
  | DMap k v => sty_map (denote k) (denote v)
  | DVariant ts => sty_variant (map denote ts)
  end.

End serial.

Arguments mkVariant {ts} mIdx mData.
Arguments mIdx {ts} t.
Arguments mData {ts} t.

(** ** What a type promises

    [sp_ok] are the values that survive, [sp_old] the old values of the variable
    they can be read into, [sp_cost] bounds the room a value takes. *)

Class Spec (T : sty) := {
  sp_ok : sty_type T -> Prop;
  sp_old : sty_type T -> Prop;
  sp_cost : sty_type T -> Z;
}.

(** The number of elements fits the [int32_t] that is sent. *)
Definition countable {A} (l : list A) : Prop := Z.of_nat (length l) < 2 ^ 31.

Definition sum_cost {A} (cost : A -> Z) (l : list A) : Z := foldr (fun x n => cost x + n) 0 l.

Section spec.
Context `{Heap}.

Definition spec_scalar t : Spec (sty_scalar t) :=
  Build_Spec (sty_scalar t) (is_scalar t) (fun _ => True) (fun _ => 32).

Definition spec_bool : Spec sty_bool :=
  Build_Spec sty_bool (fun _ => True) (fun _ => True) (fun _ => 32).

Definition spec_string : Spec sty_string :=
  Build_Spec sty_string is_string (fun _ => True) string_cost.

Definition spec_wstring : Spec sty_wstring :=
  Build_Spec sty_wstring is_wstring (fun _ => True) wstring_cost.

Definition spec_vector T `{!Spec T} : Spec (sty_vector T) :=
  Build_Spec (sty_vector T)
    (fun v : list (sty_type T) => Forall sp_ok v /\ countable v)
    (fun v : list (sty_type T) => Forall sp_old v)
    (fun v : list (sty_type T) => 32 + sum_cost sp_cost v).

(** A map is a sorted list of entries, and is read into an empty map. *)
Definition key_less K V (p q : sty_type K * sty_type V) : Prop := sty_less K p.1 q.1 = true.

Definition spec_map K V `{!Spec K, !Spec V} : Spec (sty_map K V) :=
  Build_Spec (sty_map K V)
    (fun m : list (sty_type K * sty_type V) =>
       Forall (fun p => sp_ok p.1 /\ sp_ok p.2) m /\ countable m /\ StronglySorted (key_less K V) m)
    (fun m : list (sty_type K * sty_type V) => m = [])
    (fun m : list (sty_type K * sty_type V) =>
       32 + sum_cost (fun p => sp_cost p.1 + sp_cost p.2) m).

(** The promises of the types of a list, and the one at a position. *)
Fixpoint Specs (ts : list sty) : Type :=
  match ts with [] => unit | T :: ts => Spec T * Specs ts end.

Definition spec_opt (o : option sty) : Type := match o with Some T => Spec T | None => unit end.

Fixpoint spec_at (ts : list sty) : Specs ts -> forall i : nat, spec_opt (RelaxedTypeAt i ts) :=
  match ts with
  | [] => fun _ _ => tt
  | T :: ts => fun sp i =>
    match i with
    | O => sp.1
    | S i => spec_at ts sp.2 i
    end
  end.

Definition ok_opt (o : option sty) : spec_opt o -> type_of o -> Prop :=
  match o with Some T => fun sp => @sp_ok T sp | None => fun _ _ => False end.

Definition cost_opt (o : option sty) : spec_opt o -> type_of o -> Z :=
  match o with Some T => fun sp => @sp_cost T sp | None => fun _ _ => 0 end.

(** The positions that survive: [reset] selects the type of the id. *)
Definition good_position (N : nat) : Prop := funcs !! S N = Some (Some N).

Definition spec_variant ts (sps : Specs ts) : Spec (sty_variant ts) :=
  Build_Spec (sty_variant ts)
    (fun v : TVariant ts =>
       match v with
       | mkVariant O _ => True
       | mkVariant (S N) x => good_position N /\ ok_opt (RelaxedTypeAt N ts) (spec_at ts sps N) x
       end)
    (fun _ => True)
    (fun v : TVariant ts =>
       match v with
       | mkVariant O _ => 32
       | mkVariant (S N) x => 32 + cost_opt (RelaxedTypeAt N ts) (spec_at ts sps N) x
       end).

Fixpoint spec_of (t : dtype) : Spec (denote t) :=
  match t with
  | DScalar t => spec_scalar t
  | DBool => spec_bool
  | DString => spec_string
  | DWString => spec_wstring
  | DVector t => @spec_vector (denote t) (spec_of t)
  | DMap k v => @spec_map (denote k) (denote v) (spec_of k) (spec_of v)
  | DVariant ts =>
    spec_variant (map denote ts)
      ((fix go (ts : list dtype) : Specs (map denote ts) :=
          match ts with
          | [] => tt
          | t :: ts => (spec_of t, go ts)
          end) ts)
  end.

(** The types whose values can be read into any old value: no map outside of a
    variant, which is reset first. *)
Fixpoint overwrites (t : dtype) : bool :=
  match t with
  | DMap _ _ => false
  | DVector t => overwrites t
  | _ => true
  end.

(** Keys and values of a map are read into reused variables. *)
Fixpoint supported (t : dtype) : bool :=
  match t with
  | DVector t => supported t
  | DMap k v => overwrites k && overwrites v && supported k && supported v
  | DVariant ts => forallb supported ts
  | _ => true
  end.

End spec.
#[export] Existing Instance spec_of.

(** ** Every type keeps its promise *)

Class Law `{Heap} (T : sty) `{!Spec T} : Prop := {
  law_default : sp_old (sty_default T);
  law_cost x : 0 <= sp_cost x;
  law_roundtrips x old :
    sp_ok x -> sp_old old -> roundtrips (sty_put T x) (sp_cost x) (sty_get T old) x;
}.

Section laws.
Context `{Heap}.
Hypothesis Hheap : heap_ample.

(** A count that precedes the elements. *)
Lemma count_scalar n : 0 <= n < 2 ^ 31 -> is_scalar SC_int32 n /\ i32 n = n /\ u32 n = n.
Proof.
  intros Hn. split; [|split].
  - unfold is_scalar. change (sc_bits SC_int32) with 32. cbn [sc_signed]. lia.
  - by apply i32_small.
  - apply u32_id. unfold is_u32. lia.
Qed.

Lemma roundtrips_count {A} n m c (g : Z -> CIStream -> Outcome (A * CIStream)) a :
  0 <= n < 2 ^ 31 -> 0 <= c -> roundtrips m c (g n) a ->
  roundtrips (fun b => b ← write_scalar SC_int32 n b; m b) (32 + c)
    (fun s => '(n, s) ← read_scalar SC_int32 0 s; g n s) a.
Proof.
  intros Hn Hc Hm. apply (roundtrips_bind _ _ 32 c _ n); [done| |done].
  apply roundtrips_scalar; [done|]. by apply count_scalar.
Qed.

Lemma sum_cost_nonneg {A} (cost : A -> Z) l : (forall x, 0 <= cost x) -> 0 <= sum_cost cost l.
Proof. intros Hc. induction l as [|x l IH]; cbn; [done|]. specialize (Hc x). fold (sum_cost cost l). lia. Qed.

Section vector.
Context (T : sty) `{!Spec T, !Law T}.

Lemma vector_resize_ok (v : list (sty_type T)) old :
  countable v -> Forall sp_old old ->
  exists olds, vector_resize T (Z.of_nat (length v)) old = Done olds /\
    length olds = length v /\ Forall sp_old olds.
Proof.
  intros Hv Hold. unfold vector_resize. destruct Hheap as [_ Hel]. rewrite Hel.
  destruct (Z.leb_spec (Z.of_nat (length v)) (Z.of_nat (length old))).
  - eexists. split_and!; [done|rewrite length_take; lia|by apply Forall_take].
  - eexists. split_and!; [done|rewrite length_app, length_replicate; lia|].
    apply Forall_app. split; [done|]. apply Forall_replicate, law_default.
Qed.

Lemma roundtrips_all (v olds : list (sty_type T)) :
  Forall sp_ok v -> length olds = length v -> Forall sp_old olds ->
  roundtrips (put_all T v) (sum_cost sp_cost v) (get_all T olds) v.
Proof.
  intros Hv. revert olds. induction Hv as [|x v Hx _ IH]; intros [|o olds] Hl Hold; try done.
  - by apply (roundtrips_ret [] 0).
  - apply Forall_cons in Hold as [Ho Hold]. injection Hl as Hl.
    pose proof (sum_cost_nonneg sp_cost v (law_cost)) as Hc.
    apply (roundtrips_bind (sty_put T x) (put_all T v) (sp_cost x) (sum_cost sp_cost v) (sty_get T o) x
      (fun x s => '(v, s) ← get_all T olds s; Done (x :: v, s)));
      [done|by apply law_roundtrips|].
    eapply roundtrips_ext;
      [apply (roundtrips_bind (put_all T v) Some (sum_cost sp_cost v) 0 (get_all T olds) v (fun v s => Done (x :: v, s)));
         [done|by apply IH|by apply roundtrips_ret]| |done|lia].
    intros b. cbv beta. by destruct (put_all T v b).
Qed.

Lemma vector_law : Law (sty_vector T) (Spec0 := spec_vector T).
Proof.
  split; cbn [spec_vector sp_old sp_cost sp_ok sty_default sty_vector sty_put sty_get].
  - constructor.
  - intros v. pose proof (sum_cost_nonneg sp_cost v law_cost). lia.
  - intros v old [Hv Hc] Hold. unfold put_vector, get_vector.
    destruct (count_scalar (Z.of_nat (length v)) ltac:(unfold countable in Hc; lia)) as (_ & -> & Hu).
    apply (roundtrips_count (Z.of_nat (length v)) (put_all T v) (sum_cost sp_cost v)
      (fun n s => v ← vector_resize T (u32 n) old; get_all T v s));
      [unfold countable in Hc; lia|apply sum_cost_nonneg, law_cost|].
    rewrite Hu. destruct (vector_resize_ok v old Hc Hold) as (olds & -> & Hl & Ho).
    by apply roundtrips_all.
Qed.
End vector.

Section map.
Context (K V : sty) `{!Spec K, !Law K, !Spec V, !Law V}.
Hypothesis HK : forall x : sty_type K, sp_old x.
Hypothesis HV : forall x : sty_type V, sp_old x.

Lemma map_set_last key value (m : list (sty_type K * sty_type V)) :
  Forall (fun p => sty_less K p.1 key = true) m -> map_set K V key value m = m ++ [(key, value)].
Proof.
  induction 1 as [|[k v] m Hk _ IH]; cbn; [done|]. cbn in Hk. by rewrite Hk, IH.
Qed.

Definition entry_cost (p : sty_type K * sty_type V) : Z := sp_cost p.1 + sp_cost p.2.

Lemma entry_cost_nonneg p : 0 <= entry_cost p.
Proof.
  unfold entry_cost. pose proof (law_cost (T := K) p.1). pose proof (law_cost (T := V) p.2). lia.
Qed.

Lemma sorted_middle (m : list (sty_type K * sty_type V)) p rest :
  StronglySorted (key_less K V) (m ++ p :: rest) -> Forall (fun q => sty_less K q.1 p.1 = true) m.
Proof.
  induction m as [|q m IH]; intros Hs; [constructor|]. cbn in Hs. apply StronglySorted_inv in Hs as [Hs Hq].
  constructor; [|by apply IH]. by apply (proj1 (Forall_forall _ _) Hq), elem_of_app; right; left.
Qed.

Lemma roundtrips_entries rest : forall m key value,
  Forall (fun p => sp_ok p.1 /\ sp_ok p.2) rest -> StronglySorted (key_less K V) (m ++ rest) ->
  roundtrips (put_entries K V rest) (sum_cost entry_cost rest)
    (get_entries K V (length rest) key value m) (m ++ rest).
Proof.
  induction rest as [|[k v] rest IH]; intros m key value Hok Hs; cbn [put_entries get_entries length].
  - rewrite app_nil_r. by apply (roundtrips_ret _ 0).
  - apply Forall_cons in Hok as [[Hk Hv] Hok]. cbn in Hk, Hv.
    pose proof (sum_cost_nonneg entry_cost rest entry_cost_nonneg) as Hc.
    pose proof (law_cost (T := V) v) as Hcv.
    assert (map_set K V k v m ++ rest = m ++ (k, v) :: rest) as Hset.
    { rewrite map_set_last; [by rewrite <-app_assoc|]. by apply (sorted_middle m (k, v) rest). }
    eapply roundtrips_ext;
      [apply (roundtrips_bind (sty_put K k) (fun b => b ← sty_put V v b; put_entries K V rest b)
         (sp_cost k) (sp_cost v + sum_cost entry_cost rest) (sty_get K key) k
         (fun key s => '(value, s) ← sty_get V value s;
                       get_entries K V (length rest) key value (map_set K V key value m) s));
        [lia|by apply law_roundtrips|]|done|done|change (sum_cost entry_cost ((k, v) :: rest)) with (sp_cost k + sp_cost v + sum_cost entry_cost rest); lia].
    apply (roundtrips_bind (sty_put V v) (put_entries K V rest) (sp_cost v) (sum_cost entry_cost rest)
      (sty_get V value) v
      (fun value s => get_entries K V (length rest) k value (map_set K V k value m) s));
      [lia|by apply law_roundtrips|]. cbv beta. rewrite <-Hset. apply IH; [done|by rewrite Hset].
Qed.

Lemma map_law : Law (sty_map K V) (Spec0 := spec_map K V).
Proof.
  split; cbn [spec_map sp_old sp_cost sp_ok sty_default sty_map sty_put sty_get].
  - done.
  - intros m. pose proof (sum_cost_nonneg entry_cost m entry_cost_nonneg) as Hc.
    unfold entry_cost in Hc. lia.
  - intros m old (Hok & Hc & Hs) ->. unfold put_map, get_map. unfold countable in Hc.
    destruct (count_scalar (Z.of_nat (length m)) ltac:(lia)) as (_ & -> & _).
    apply (roundtrips_count (Z.of_nat (length m)) (put_entries K V m) (sum_cost entry_cost m)
      (fun n => get_entries K V (Z.to_nat n) (sty_init K) (sty_init V) []));
      [lia|apply (sum_cost_nonneg entry_cost), entry_cost_nonneg|].
    rewrite Nat2Z.id. by apply (roundtrips_entries m []).
Qed.
End map.

Section variant.
Context (ts : list sty) (sps : Specs ts).

Definition law_opt (o : option sty) : spec_opt o -> Prop :=
  match o with Some T => fun sp => @Law _ T sp | None => fun _ => True end.

Hypothesis Hlaws : forall N, law_opt (RelaxedTypeAt N ts) (spec_at ts sps N).

Lemma opt_cost o (sp : spec_opt o) x : law_opt o sp -> 0 <= cost_opt o sp x.
Proof. destruct o as [T|]; cbn; [|done]. intros HL. apply law_cost. Qed.

Lemma opt_roundtrips o (sp : spec_opt o) x :
  law_opt o sp -> ok_opt o sp x ->
  roundtrips (type_put o x) (cost_opt o sp x) (type_get o (type_default o)) x.
Proof.
  destruct o as [T|]; cbn; [|done]. intros HL Hx. apply law_roundtrips; [done|]. apply law_default.
Qed.

Lemma match_Some {A B} (o : option A) (x y : B) :
  o <> None -> match o with Some _ => x | None => y end = x.
Proof. by destruct o. Qed.

Lemma reset_good N :
  good_position N -> RelaxedTypeAt N ts <> None ->
  variant_reset ts (Z.of_nat (S N)) = Done (mkVariant (S N) (type_default (RelaxedTypeAt N ts))).
Proof.
  intros Hgood Hsome. unfold variant_reset.
  assert (N < length ts)%nat as Hlt by (apply lookup_lt_is_Some, not_eq_None_Some; exact Hsome).
  rewrite (proj2 (Z.ltb_lt 0 (Z.of_nat (S N)))), (proj2 (Z.leb_le (Z.of_nat (S N)) _)) by lia.
  cbn [andb]. rewrite Nat2Z.id, Hgood. by apply match_Some.
Qed.

Lemma good_position_bound N : good_position N -> (N < 15)%nat.
Proof.
  intros Hg. apply not_le. intros Hle. unfold good_position in Hg.
  rewrite lookup_ge_None_2 in Hg; [done|]. cbn. lia.
Qed.

Lemma variant_law : Law (sty_variant ts) (Spec0 := spec_variant ts sps).
Proof.
  split; cbn [spec_variant sp_old sp_cost sp_ok sty_default sty_variant sty_put sty_get]; [done| |].
  - intros [[|N] x]; [done|]. pose proof (opt_cost _ _ x (Hlaws N)). lia.
  - intros [[|N] x] old Hok _; cbn in x.
    + apply (roundtrips_count 0 Some 0 (fun typeId s => var ← variant_reset ts typeId;
        if bool_decide (mIdx var = 0%nat) then Done (var, s)
        else '(x, s) ← visit_get ts (mIdx var) (mData var) s; Done (mkVariant (mIdx var) x, s)));
        [done|done|]. destruct x. by apply roundtrips_ret.
    + destruct Hok as [Hgood Hok]. pose proof (good_position_bound N Hgood).
      assert (RelaxedTypeAt N ts <> None) as Hsome.
      { revert Hok. generalize (spec_at ts sps N) as sp. revert x. by destruct (RelaxedTypeAt N ts). }
      pose proof (opt_cost _ _ x (Hlaws N)) as Hc.
      apply (roundtrips_count (Z.of_nat (S N)) (type_put (RelaxedTypeAt N ts) x)
        (cost_opt _ (spec_at ts sps N) x)
        (fun typeId s => var ← variant_reset ts typeId;
        if bool_decide (mIdx var = 0%nat) then Done (var, s)
        else '(x, s) ← visit_get ts (mIdx var) (mData var) s; Done (mkVariant (mIdx var) x, s)));
        [lia|done|]. rewrite reset_good by done. cbn [mbind Outcome_bind mIdx bool_decide].
      pose proof (roundtrips_bind _ Some _ 0 _ x (fun x s => Done (mkVariant (S N) x, s))
        (mkVariant (S N) x) (Z.le_refl 0) (opt_roundtrips _ _ x (Hlaws N) Hok)
        (roundtrips_ret _ 0 (Z.le_refl 0))) as Hb.
      eapply roundtrips_ext; [exact Hb| |done|lia].
      intros b. cbv beta. by destruct (type_put _ x b).
Qed.
End variant.

(** ** Every type expression *)

(** Induction over nested type expressions. *)
Fixpoint dtype_nested_ind (P : dtype -> Prop)
    (Hs : forall t, P (DScalar t)) (Hb : P DBool) (Hst : P DString) (Hw : P DWString)
    (Hv : forall t, P t -> P (DVector t)) (Hm : forall k v, P k -> P v -> P (DMap k v))
    (Hva : forall ts, Forall P ts -> P (DVariant ts)) (t : dtype) : P t :=
  let rec := dtype_nested_ind P Hs Hb Hst Hw Hv Hm Hva in
  match t with
  | DScalar t => Hs t
  | DBool => Hb
  | DString => Hst
  | DWString => Hw
  | DVector t => Hv t (rec t)
  | DMap k v => Hm k v (rec k) (rec v)
  | DVariant ts =>
    Hva ts ((fix go ts : Forall P ts :=
               match ts with
               | [] => Forall_nil_2 P
               | t :: ts => Forall_cons_2 P t ts (rec t) (go ts)
               end) ts)
  end.

Lemma overwrites_old t : overwrites t = true -> forall x : sty_type (denote t), sp_old x.
Proof.
  induction t as [| | | |t IH|k v _ _|ts _] using dtype_nested_ind; cbn; try done.
  intros Ht v. apply Forall_forall. intros x _. by apply IH.
Qed.

Lemma denote_law t : supported t = true -> Law (denote t).
Proof.
  induction t as [t| | | |t IH|k v IHk IHv|ts IH] using dtype_nested_ind; intros Hs; cbn in Hs.
  - split; cbn; [done|done|]. intros x old Hx _. by apply roundtrips_scalar.
  - split; cbn; [done|done|]. intros x old Hx _. by apply roundtrips_bool.
  - split; cbn; [done|unfold string_cost; lia|]. intros x old Hx _. by apply roundtrips_string.
  - split; cbn; [done|unfold wstring_cost; lia|]. intros x old Hx _. by apply roundtrips_wstring.
  - pose proof (IH Hs). by apply vector_law.
  - reflect_bools. pose proof (IHk ltac:(done)). pose proof (IHv ltac:(done)).
    apply map_law; (apply _ || by apply overwrites_old).
  - apply variant_law. induction IH as [|t ts Ht _ IH]; [done|].
    cbn in Hs. reflect_bools. intros [|N]; cbn; [by apply Ht|by apply IH].
Qed.
End laws.



(** ** Hostile input *)

(** The variants of a type have at most the 15 types [TVariantHelper] knows. *)
Fixpoint small_variants (t : dtype) : bool :=
  match t with
  | DVector t => small_variants t
  | DMap k v => small_variants k && small_variants v
  | DVariant ts => (length ts <=? 15)%nat && forallb small_variants ts
  | _ => true
  end.

Section safety.
Context `{Heap}.

Lemma get_all_safe T (v : list (sty_type T)) : (forall old, safe (sty_get T old)) -> safe (get_all T v).
Proof.
  intros HT. induction v as [|x v IH]; cbn [get_all]; [apply safe_ret|].
  apply (safe_bind (sty_get T x) (fun x s => '(v, s) ← get_all T v s; Done (x :: v, s))); [done|].
  intros y. apply (safe_bind (get_all T v) (fun v s => Done (y :: v, s))); [done|].
  intros w. apply safe_ret.
Qed.

Lemma get_vector_safe T old : (forall old, safe (sty_get T old)) -> safe (get_vector T old).
Proof.
  intros HT. unfold get_vector.
  apply (safe_bind (read_scalar SC_int32 0) (fun n s => v ← vector_resize T (u32 n) old; get_all T v s));
    [apply read_scalar_safe|].
  intros n. destruct (vector_resize T (u32 n) old) as [v| |] eqn:Er; [by apply get_all_safe|done|].
  unfold vector_resize in Er. by repeat case_match.
Qed.

Lemma get_entries_safe K V n : forall key value m,
  (forall old, safe (sty_get K old)) -> (forall old, safe (sty_get V old)) ->
  safe (get_entries K V n key value m).
Proof.
  induction n as [|n IH]; intros key value m HK HV; cbn [get_entries]; [apply safe_ret|].
  apply (safe_bind (sty_get K key) (fun key s => '(value, s) ← sty_get V value s;
    get_entries K V n key value (map_set K V key value m) s)); [done|].
  intros k. apply (safe_bind (sty_get V value) (fun value s =>
    get_entries K V n k value (map_set K V k value m) s)); [done|].
  intros x. by apply IH.
Qed.

Lemma match_either {A B} (P : B -> Prop) (o : option A) (x y : B) :
  P x -> P y -> P (match o with Some _ => x | None => y end).
Proof. by destruct o. Qed.

Lemma variant_reset_defined ts idx : (length ts <= 15)%nat -> variant_reset ts idx <> Undefined.
Proof.
  intros Hts. unfold variant_reset.
  destruct (Z.ltb_spec 0 idx) as [Hpos|]; [|done].
  destruct (Z.leb_spec idx (Z.of_nat (length ts))) as [Hle|]; [|done]. cbn [andb].
  destruct (funcs !! Z.to_nat idx) as [[N|]|] eqn:E; [|done|].
  - by apply (match_either (fun r => r <> Undefined)).
  - apply lookup_ge_None in E. cbn in E. lia.
Qed.

(** [reset] leaves the variant empty or with one of its types. *)
Lemma variant_reset_known ts idx var :
  variant_reset ts idx = Done var -> mIdx var = 0%nat \/ exists N T, mIdx var = S N /\ ts !! N = Some T.
Proof.
  unfold variant_reset. destruct (_ && _); [|intros [= <-]; by left].
  destruct (funcs !! Z.to_nat idx) as [[N|]|]; [|intros [= <-]; by left|done].
  unfold RelaxedTypeAt at 1. destruct (ts !! N) as [T|] eqn:E; intros [= <-]; [right|by left].
  by exists N, T.
Qed.

Lemma get_variant_safe ts old :
  (length ts <= 15)%nat -> (forall T, T ∈ ts -> forall old, safe (sty_get T old)) ->
  safe (get_variant ts old).
Proof.
  intros Hlen HT. unfold get_variant.
  apply (safe_bind (read_scalar SC_int32 0) (fun typeId s => var ← variant_reset ts typeId;
    if bool_decide (mIdx var = 0%nat) then Done (var, s)
    else '(x, s) ← visit_get ts (mIdx var) (mData var) s; Done (mkVariant (mIdx var) x, s)));
    [apply read_scalar_safe|].
  intros typeId. pose proof (variant_reset_defined ts typeId Hlen) as Hd.
  destruct (variant_reset ts typeId) as [var| |] eqn:Er; [|done|done].
  cbn [mbind Outcome_bind]. case_bool_decide as Hi; [apply safe_ret|].
  destruct (variant_reset_known ts typeId var Er) as [?|(N & T & Hv & HN)]; [done|]. clear Er Hd Hi.
  destruct var as [idx x]. cbn [mIdx mData] in *. subst idx.
  apply (safe_bind (visit_get ts (S N) x) (fun x s => Done (mkVariant (S N) x, s)));
    [|intros y; apply safe_ret].
  revert x. cbn [visit_get type_at]. unfold RelaxedTypeAt. rewrite HN. intros x. apply HT.
  by eapply list_elem_of_lookup_2.
Qed.

Lemma get_safe_all t : small_variants t = true -> forall old, safe (sty_get (denote t) old).
Proof.
  induction t as [t| | | |t IH|k v IHk IHv|ts IH] using dtype_nested_ind; intros Hs old; cbn in Hs; cbn.
  - apply read_scalar_safe.
  - apply read_bool_safe.
  - apply read_string_safe.
  - apply read_wstring_safe.
  - apply get_vector_safe. auto.
  - reflect_bools. unfold get_map.
    apply (safe_bind (read_scalar SC_int32 0) (fun n => get_entries (denote k) (denote v) (Z.to_nat n)
      (sty_init _) (sty_init _) old)); [apply read_scalar_safe|].
    intros n. apply get_entries_safe; auto.
  - reflect_bools. apply get_variant_safe; [rewrite length_map; by apply Nat.leb_le|].
    intros T HT. apply list_elem_of_fmap in HT as (t & -> & Ht). apply (proj1 (Forall_forall _ _) IH t Ht).
    by apply (proj1 (forallb_forall _ _) H1), list_elem_of_In.
Qed.
End safety.

(** C25. Reading is memory-safe for every payload, also a malformed one: whatever the
    type (its variants having at most the 15 alternatives [TVariantHelper] knows) and
    the bytes, the stream is never read outside of its payload, no [assert] fails and
    the table of a variant is not left; the read ends with a stream that is again
    within the payload, or a container that does not fit into memory throws. *)
Theorem stream_get_safe `{Heap} t old s :
  small_variants t = true -> stream_wf s ->
  match sty_get (denote t) old s with
  | Done (_, s') => stream_wf s' /\ is_data s' = is_data s
  | Thrown => True
  | Undefined => False
  end.
Proof. intros Ht Hs. by apply get_safe_all. Qed.

Lemma stream_get_safe_witness :
  match sty_get (denote (DVector DString)) [] (stream_at [3; 0; 0; 0; 9; 0; 0; 0; 65] 0) with
  | Done (_, s') => stream_wf s' /\ is_data s' = [3; 0; 0; 0; 9; 0; 0; 0; 65]
  | Thrown => True
  | Undefined => False
  end.
Proof.
  apply (stream_get_safe (DVector DString) [] (stream_at [3; 0; 0; 0; 9; 0; 0; 0; 65] 0)); [done|].
  split; cbn; try done; lia.
Defined.

(** ** What does not survive *)

(** What is read back into a fresh variable after writing [a]. *)
Definition reread `{Heap} (T : sty) (a : sty_type T) : option (Outcome (sty_type T)) :=
  b ← sty_put T a (CBuffer_new powerOf2);
  Some ('(x, s) ← sty_get T (sty_default T) (stream_at (contents b) 0); Done x).

(** Maps of maps: the loop of [operator>>] reads every value into the same
    variable, and a map is not cleared before it is read, so the second value
    also has the entries of the first. *)
Definition map_of_maps : dtype := DMap (DScalar SC_uint8) (DMap (DScalar SC_uint8) DBool).

Lemma nested_maps_merge :
  reread (denote map_of_maps) [(1, [(10, true)]); (2, [(20, false)])] =
  Some (Done [(1, [(10, true)]); (2, [(10, true); (20, false)])]).
Proof. vm_compute. reflexivity. Qed.

(** Variants: type id 9 is read back as the eighth type, type id 10 as the ninth. *)
Definition ten_types : list sty := map denote
  [DScalar SC_int8; DScalar SC_int16; DScalar SC_int32; DScalar SC_int64; DScalar SC_uint8;
   DScalar SC_uint16; DScalar SC_uint32; DScalar SC_uint64; DBool; DString].

Definition reread_id (v : TVariant ten_types) : option (Outcome nat) :=
  r ← reread (sty_variant ten_types) v; Some (v' ← r; Done (mIdx v')).

Lemma variant_ninth_type :
  reread_id (mkVariant (ts := ten_types) 8 42) = Some (Done 8%nat) /\
  reread_id (mkVariant (ts := ten_types) 9 true) = Some (Done 8%nat) /\
  reread_id (mkVariant (ts := ten_types) 10 [65]) = Some (Done 9%nat).
Proof. split_and!; vm_compute; reflexivity. Qed.

(** Exactly two of the fifteen type ids are affected. *)
Lemma bad_positions N : (N < 15)%nat -> good_position N <-> N <> 8%nat /\ N <> 9%nat.
Proof.
  intros HN. unfold good_position.
  do 15 (destruct N as [|N]; [cbn; split; [intros [=]; lia|intros []; congruence]|]). lia.
Qed.
