(* ===== verification/Message.v ===== *)
(** Sending and receiving whole requests: [MessageHeader] and [EventInfo]
    ([include/dsi/DSI.hpp], [src/base/DSI.cpp]), [CRequestWriter::flush]
    ([src/base/CRequestWriter.cpp]) and [CRequestReader::receiveAll]
    ([src/base/CRequestReader.cpp]).

    A message larger than a packet is sent in several frames, each with a header.
    [flush] produces the frames from the buffer's memory, [receiveAll] collects
    them from the bytes of a connection.  [None] is undefined behaviour: a read or
    write outside of a buffer, a failed assertion.  Tracing is left out. *)

From S2P Require Import Prelude.
From S2P Require Import Layout.
From S2P Require Import Types.
From S2P Require Import Buffer.
From S2P Require Import Stream.

(** ** Headers *)

Definition DSI_PROTOCOL_VERSION_MAJOR : Z := 4.
Definition DSI_PROTOCOL_VERSION_MINOR : Z := 0.
Definition DSI_MESSAGE_MAGIC : Z := 0x200.
Definition DSI_MORE_DATA_FLAG : Z := 1.

Inductive Command :=
  | Invalid | DataRequest | DataResponse | ConnectRequest | DisconnectRequest | ConnectResponse.

#[export] Instance Command_eq_dec : EqDecision Command.
Proof. solve_decision. Defined.

(** The values of the enumeration. *)
Definition Command_value (c : Command) : Z :=
  match c with
  | Invalid => 0
  | DataRequest => 7
  | DataResponse => 8
  | ConnectRequest => 9
  | DisconnectRequest => 10
  | ConnectResponse => 11
  end.

Record MessageHeader := mkHeader {
  mh_type : Z;
  mh_protoMajor : Z;
  mh_protoMinor : Z;
  mh_serverID : SPartyID;
  mh_clientID : SPartyID;
  mh_cmd : Z;
  mh_flags : Z;
  mh_packetLength : Z;
  mh_reserved : Z;
}.
#[export] Instance Eta_MessageHeader : Eta MessageHeader := fun h =>
  mkHeader (mh_type h) (mh_protoMajor h) (mh_protoMinor h) (mh_serverID h) (mh_clientID h)
    (mh_cmd h) (mh_flags h) (mh_packetLength h) (mh_reserved h).

(** The default constructor, and the one of a message to send. *)
Definition MessageHeader_empty : MessageHeader := mkHeader 0 0 0 (mkParty 0 0) (mkParty 0 0) 0 0 0 0.

Definition MessageHeader_new (serverID clientID : SPartyID) (cmd : Command)
    (protoMinor packetLength : Z) : MessageHeader :=
  mkHeader DSI_MESSAGE_MAGIC DSI_PROTOCOL_VERSION_MAJOR protoMinor serverID clientID
    (Command_value cmd) 0 packetLength 0.

Record EventInfo := mkEventInfo {
  ei_ifVersion : Z;
  ei_type : Z;                (** [requestType] or [responseType] *)
  ei_requestID : Z;
  ei_sequenceNumber : Z;
}.

Definition EventInfo_new : EventInfo := mkEventInfo 0 0 0 0.

(** The structs in memory. *)
Definition party_bytes (p : SPartyID) : bytes := le_bytes 4 (localID p) ++ le_bytes 4 (extendedID p).

Definition header_bytes (h : MessageHeader) : bytes :=
  le_bytes 4 (mh_type h) ++ le_bytes 2 (mh_protoMajor h) ++ le_bytes 2 (mh_protoMinor h) ++
  party_bytes (mh_serverID h) ++ party_bytes (mh_clientID h) ++ le_bytes 4 (mh_cmd h) ++
  le_bytes 4 (mh_flags h) ++ le_bytes 4 (mh_packetLength h) ++ le_bytes 4 (mh_reserved h).

Definition info_bytes (i : EventInfo) : bytes :=
  le_bytes 4 (ei_ifVersion i) ++ le_bytes 4 (ei_type i) ++ le_bytes 4 (ei_requestID i) ++
  le_bytes 4 (ei_sequenceNumber i).

(** A field of [n] bytes at offset [off]. *)
Definition field (off n : nat) (bs : bytes) : Z := le_value (take n (drop off bs)).

Definition party_of_bytes (off : nat) (bs : bytes) : SPartyID :=
  mkParty (field off 4 bs) (field (off + 4) 4 bs).

Definition header_of_bytes (bs : bytes) : MessageHeader :=
  mkHeader (i32 (field 0 4 bs)) (field 4 2 bs) (field 6 2 bs) (party_of_bytes 8 bs)
    (party_of_bytes 16 bs) (field 24 4 bs) (field 28 4 bs) (field 32 4 bs) (i32 (field 36 4 bs)).

Definition sizeof_header : Z := sizeof lay_MessageHeader.
Definition sizeof_info : Z := sizeof lay_EventInfo.

(** ** The writer *)

Record CRequestWriter := mkWriter {
  rw_header : MessageHeader;
  rw_info : EventInfo;
  rw_buf : CBuffer;
}.
#[export] Instance Eta_CRequestWriter : Eta CRequestWriter :=
  fun w => mkWriter (rw_header w) (rw_info w) (rw_buf w).

(** The output side of a channel: what was sent, and the outcomes of the sends
    to come; they succeed when the list is used up. *)
Record OutChannel := mkOut { oc_sent : bytes; oc_outcomes : list bool }.

(** [sendAll(iov, n)]: the concatenation of the vectors, or a failure. *)
Definition sendAll (data : bytes) (c : OutChannel) : bool * OutChannel :=
  match oc_outcomes c with
  | false :: r => (false, mkOut (oc_sent c) r)
  | true :: r => (true, mkOut (oc_sent c ++ data) r)
  | [] => (true, mkOut (oc_sent c ++ data) [])
  end.

Section writer.
Context `{Heap}.

(** The constructor of a request; [sequenceNr] 0 asks for a fresh id, the next
    value of [createId]. *)
Definition CRequestWriter_request (type cmd_id : Z) (cmd : Command) (clientID serverID : SPartyID)
    (proto_minor sequenceNr nextID : Z) : CRequestWriter :=
  mkWriter (MessageHeader_new serverID clientID cmd proto_minor 0)
    (mkEventInfo 0 type cmd_id (if sequenceNr =? 0 then i32 nextID else sequenceNr))
    (CBuffer_new powerOf2).

(** The constructor of a response. *)
Definition CRequestWriter_response (result id : Z) (cmd : Command) (sequenceNr : Z)
    (clientID serverID : SPartyID) (proto_minor : Z) : CRequestWriter :=
  mkWriter (MessageHeader_new serverID clientID cmd proto_minor 0)
    (mkEventInfo 0 result id sequenceNr) (CBuffer_new powerOf2).

(** The constructor of a control message. *)
Definition CRequestWriter_control (cmd : Command) (clientID serverID : SPartyID)
    (proto_minor : Z) : CRequestWriter :=
  mkWriter (MessageHeader_new serverID clientID cmd proto_minor 0) EventInfo_new (CBuffer_new one2one).

Definition haveEventInfo (h : MessageHeader) : bool :=
  (mh_cmd h =? Command_value DataRequest) || (mh_cmd h =? Command_value DataResponse).

(** The bytes [gptr() + off .. gptr() + off + n]. *)
Definition load_mem (off n : Z) (b : CBuffer) : option bytes :=
  mem ← buf_mem b;
  if off + n <=? Z.of_nat (length mem) then Some (take (Z.to_nat n) (drop (Z.to_nat off) mem))
  else None.

(** The length and flag of the next frame with [rest] bytes to go. *)
Definition set_frame (rest : Z) (h : MessageHeader) : MessageHeader :=
  if DSI_PAYLOAD_SIZE <? rest then
    h <| mh_packetLength := DSI_PAYLOAD_SIZE |> <| mh_flags ::= fun f => Z.lor f DSI_MORE_DATA_FLAG |>
  else
    h <| mh_packetLength := rest |> <| mh_flags ::= fun f => Z.land f (u32 (Z.lnot DSI_MORE_DATA_FLAG)) |>.

(** The loop that sends the remaining data. *)
Fixpoint flush_loop (fuel : nat) (totalLength dataSent : Z) (h : MessageHeader) (b : CBuffer)
    (ret : bool) (c : OutChannel) : option (bool * OutChannel) :=
  match fuel with
  | O => None
  | S fuel =>
    if ret && (dataSent <? totalLength) then
      let h := set_frame (totalLength - dataSent) h in
      data ← load_mem dataSent (mh_packetLength h) b;
      let '(ret, c) := sendAll (header_bytes h ++ data) c in
      flush_loop fuel totalLength (dataSent + DSI_PAYLOAD_SIZE) h b ret c
    else Some (ret, c)
  end.

(** [CRequestWriter::flush]. *)
Definition flush (w : CRequestWriter) (c : OutChannel) : option (bool * OutChannel) :=
  if mh_type (rw_header w) =? 0 then None   (* assert(mHeader.type != 0) *)
  else
    let h := rw_header w <| mh_type := 0 |> in
    let totalLength := mSize (rw_buf w) + (if haveEventInfo h then sizeof_info else 0) in
    let h := set_frame totalLength h in
    data ← load_mem 0 (if haveEventInfo h then mh_packetLength h - sizeof_info else mh_packetLength h)
             (rw_buf w);
    let iov1 := if haveEventInfo h then info_bytes (rw_info w) else [] in
    let '(ret, c) := sendAll (header_bytes h ++ iov1 ++ data) c in
    if DSI_PAYLOAD_SIZE <? totalLength then
      flush_loop (S (Z.to_nat totalLength)) totalLength (DSI_PAYLOAD_SIZE - sizeof_info) h (rw_buf w) ret c
    else Some (ret, c).

(** ** The reader *)

(** [recvAll(ptr, len)] into a buffer with [room] bytes left behind [ptr]: the
    bytes that arrive are stored before it is known whether all will come. *)
Definition recvAll (len room : Z) (input : bytes) : option (option bytes * bytes) :=
  let data := take (Z.to_nat len) input in
  if room <? Z.of_nat (length data) then None
  else if Z.of_nat (length data) =? len then Some (Some data, drop (Z.to_nat len) input)
  else Some (None, []).

(** [setCapacity] for and [recvAll] of the payload of one frame, then [pbump]. *)
Definition recv_payload (len : Z) (b : CBuffer) (input : bytes) : option (bool * CBuffer * bytes) :=
  '(ok, b) ← setCapacity (u32 (mSize b + len)) b;
  if ok : bool then
    mem ← buf_mem b;
    '(data, input) ← recvAll len (Z.of_nat (length mem) - mSize b) input;
    match data with
    | Some data => b ← store data b; Some (true, pbump len b, input)
    | None => Some (false, b, input)
    end
  else Some (false, b, input).

(** The loop over the frames that follow.  [mCurrent] points to the first header
    until a frame with a payload was announced, and to [mHdr] from then on. *)
Fixpoint receive_loop (fuel : nat) (first : MessageHeader) (switched : bool) (mHdr : MessageHeader)
    (b : CBuffer) (input : bytes) : option (bool * CBuffer * bytes) :=
  match fuel with
  | O => None
  | S fuel =>
    let mCurrent := if switched then mHdr else first in
    if negb (Z.land (mh_flags mCurrent) DSI_MORE_DATA_FLAG =? 0) then
      '(hdr, input) ← recvAll sizeof_header sizeof_header input;
      match hdr with
      | None => Some (false, b, input)
      | Some hdr =>
        let mHdr := header_of_bytes hdr in
        if 0 <? mh_packetLength mHdr then
          '(rc, b, input) ← recv_payload (mh_packetLength mHdr) b input;
          if rc : bool then receive_loop fuel first true mHdr b input else Some (false, b, input)
        else receive_loop fuel first switched mHdr b input
      end
    else Some (true, b, input)
  end.

(** [CRequestReader::receiveAll]: the outcome, the buffer and the input left. *)
Definition receiveAll (hdr : MessageHeader) (input : bytes) : option (bool * CBuffer * bytes) :=
  let b := CBuffer_new one2one in
  if 0 <? mh_packetLength hdr then
    '(rc, b, input) ← recv_payload (mh_packetLength hdr) b input;
    if rc : bool then receive_loop (S (length input)) hdr false MessageHeader_empty b input
    else Some (false, b, input)
  else Some (true, b, input).

(** [CClientConnection]: a connection reads a header, then the message. *)
Definition receive_message (input : bytes) : option (option (MessageHeader * bytes) * bytes) :=
  '(hdr, input) ← recvAll sizeof_header sizeof_header input;
  match hdr with
  | None => Some (None, input)
  | Some hdr =>
    let hdr := header_of_bytes hdr in
    '(rc, b, input) ← receiveAll hdr input;
    Some (if rc : bool then Some (hdr, contents b) else None, input)
  end.

End writer.

(** ** Headers round-trip *)

Record header_ok (h : MessageHeader) : Prop := {
  ho_type : - 2 ^ 31 <= mh_type h < 2 ^ 31;
  ho_major : 0 <= mh_protoMajor h < 2 ^ 16;
  ho_minor : 0 <= mh_protoMinor h < 2 ^ 16;
  ho_server : is_party (mh_serverID h);
  ho_client : is_party (mh_clientID h);
  ho_cmd : is_u32 (mh_cmd h);
  ho_flags : is_u32 (mh_flags h);
  ho_length : is_u32 (mh_packetLength h);
  ho_reserved : - 2 ^ 31 <= mh_reserved h < 2 ^ 31;
}.

Lemma le_value_u32 v : is_u32 v -> le_value (le_bytes 4 v) = v.
Proof. intros Hv. rewrite le_value_bytes. by apply Z.mod_small. Qed.

Lemma le_value_u16 v : 0 <= v < 2 ^ 16 -> le_value (le_bytes 2 v) = v.
Proof. intros Hv. rewrite le_value_bytes. by apply Z.mod_small. Qed.

Lemma le_value_i32 v : - 2 ^ 31 <= v < 2 ^ 31 -> i32 (le_value (le_bytes 4 v)) = v.
Proof.
  intros Hv. rewrite le_value_bytes. change (8 * Z.of_nat 4) with 32. unfold i32.
  rewrite Z.add_mod_idemp_l, Z.mod_small by lia. lia.
Qed.

Lemma header_bytes_length h : length (header_bytes h) = 40%nat.
Proof. reflexivity. Qed.

Lemma info_bytes_length i : length (info_bytes i) = 16%nat.
Proof. reflexivity. Qed.

Lemma header_roundtrip h : header_ok h -> header_of_bytes (header_bytes h) = h.
Proof.
  intros [H1 H2 H3 [H4 H5] [H6 H7] H8 H9 H10 H11].
  destruct h as [ty ma mi [sl se] [cl ce] cmd fl len res]. cbn [mh_type mh_protoMajor mh_protoMinor
    mh_serverID mh_clientID mh_cmd mh_flags mh_packetLength mh_reserved localID extendedID] in *.
  set (h := mkHeader _ _ _ _ _ _ _ _ _). unfold header_of_bytes, party_of_bytes.
  change (field 0 4 (header_bytes h)) with (le_value (le_bytes 4 ty)).
  change (field 4 2 (header_bytes h)) with (le_value (le_bytes 2 ma)).
  change (field 6 2 (header_bytes h)) with (le_value (le_bytes 2 mi)).
  change (field 8 4 (header_bytes h)) with (le_value (le_bytes 4 sl)).
  change (field (8 + 4) 4 (header_bytes h)) with (le_value (le_bytes 4 se)).
  change (field 16 4 (header_bytes h)) with (le_value (le_bytes 4 cl)).
  change (field (16 + 4) 4 (header_bytes h)) with (le_value (le_bytes 4 ce)).
  change (field 24 4 (header_bytes h)) with (le_value (le_bytes 4 cmd)).
  change (field 28 4 (header_bytes h)) with (le_value (le_bytes 4 fl)).
  change (field 32 4 (header_bytes h)) with (le_value (le_bytes 4 len)).
  change (field 36 4 (header_bytes h)) with (le_value (le_bytes 4 res)).
  by rewrite !le_value_i32, !le_value_u16, !le_value_u32 by done.
Qed.

(** ** Receiving what was sent *)

Section exchange.
Context `{Heap}.
Hypothesis Hheap : heap_ample.

Lemma recvAll_ok data room rest :
  Z.of_nat (length data) <= room ->
  recvAll (Z.of_nat (length data)) room (data ++ rest) = Some (Some data, rest).
Proof.
  intros Hroom. unfold recvAll. rewrite Nat2Z.id, take_app_length, drop_app_length, Z.eqb_refl.
  by rewrite (proj2 (Z.ltb_ge _ _)).
Qed.

Lemma recv_header h room rest :
  40 <= room -> recvAll sizeof_header room (header_bytes h ++ rest) = Some (Some (header_bytes h), rest).
Proof. intros Hr. apply (recvAll_ok (header_bytes h)). by rewrite header_bytes_length. Qed.

(** A receive buffer. *)
Definition rbuf_ok (b : CBuffer) : Prop := buf_ok b /\ mCalculator b = one2one.

Lemma rbuf_new : rbuf_ok (CBuffer_new one2one).
Proof.
  split; [|done]. pose proof (buf_wf_ok _ CBuffer_new_wf) as [Hm Hs Hc]. by split.
Qed.

Lemma recv_payload_ok data b rest :
  rbuf_ok b -> mSize b + Z.of_nat (length data) < 2 ^ 32 ->
  exists b', recv_payload (Z.of_nat (length data)) b (data ++ rest) = Some (true, b', rest) /\
    rbuf_ok b' /\ mSize b' = mSize b + Z.of_nat (length data) /\ contents b' = contents b ++ data.
Proof.
  intros [Hb Hf] Hlen. pose proof (ok_size _ Hb) as Hsz. unfold recv_payload.
  rewrite u32_id by (unfold is_u32; lia).
  destruct (setCapacity_ok (mSize b + Z.of_nat (length data)) b)
    as (b1 & -> & Hb1 & Hf1 & Hcap & Hs1 & Hc1); [done|done|done|lia|].
  cbn [mbind option_bind]. pose proof (ok_mem _ Hb1) as (mem & Hm & Hl). rewrite Hm.
  cbn [mbind option_bind]. rewrite recvAll_ok by lia. cbn [mbind option_bind].
  destruct (store_ok data b1 Hb1 ltac:(lia)) as (b2 & -> & Hb2 & _ & Hf2 & Hs2 & Hc2).
  eexists. split; [done|]. split_and!; [split; [done|]|lia|by rewrite Hc2, Hc1].
  by destruct b2; cbn in *; rewrite Hf2.
Qed.

(** ** One frame after the other *)

(** What [set_frame] announces. *)
Lemma set_frame_spec rest h :
  0 <= rest < 2 ^ 32 -> mh_flags h = 0 \/ mh_flags h = 1 ->
  mh_packetLength (set_frame rest h) = Z.min rest DSI_PAYLOAD_SIZE /\
  mh_flags (set_frame rest h) = (if DSI_PAYLOAD_SIZE <? rest then 1 else 0) /\
  (header_ok h -> header_ok (set_frame rest h)) /\
  haveEventInfo (set_frame rest h) = haveEventInfo h /\
  mh_cmd (set_frame rest h) = mh_cmd h /\ mh_serverID (set_frame rest h) = mh_serverID h /\
  mh_clientID (set_frame rest h) = mh_clientID h /\ mh_protoMinor (set_frame rest h) = mh_protoMinor h.
Proof.
  intros Hr Hfl. change DSI_PAYLOAD_SIZE with 4056. unfold set_frame. change DSI_PAYLOAD_SIZE with 4056.
  destruct h as [ty ma mi sid cid cmd fl len res]. cbn in Hfl.
  destruct (Z.ltb_spec 4056 rest).
  - split_and!; try done; [cbn; lia|by destruct Hfl as [-> | ->]|].
    intros [H1 H2 H3 H4 H5 H6 H7 H8 H9]. cbn in *. split; cbn; try done.
    by destruct Hfl as [-> | ->].
  - split_and!; try done; [cbn; lia|by destruct Hfl as [-> | ->]|].
    intros [H1 H2 H3 H4 H5 H6 H7 H8 H9]. cbn in *. split; cbn; try done.
    by destruct Hfl as [-> | ->].
Qed.

(** The bytes of a buffer's memory from [off] on, [n] of them. *)
Definition slice (off n : Z) (mem : bytes) : bytes := take (Z.to_nat n) (drop (Z.to_nat off) mem).

Lemma slice_length off n mem :
  0 <= off -> 0 <= n -> off + n <= Z.of_nat (length mem) -> Z.of_nat (length (slice off n mem)) = n.
Proof. intros. unfold slice. rewrite length_take, length_drop. lia. Qed.

Lemma slice_split off n m mem :
  0 <= off -> 0 <= n -> 0 <= m -> slice off (n + m) mem = slice off n mem ++ slice (off + n) m mem.
Proof.
  intros. unfold slice. rewrite !Z2Nat.inj_add by lia. by rewrite <-drop_drop, take_take_drop.
Qed.

Lemma load_slice off n b mem :
  buf_mem b = Some mem -> off + n <= Z.of_nat (length mem) -> load_mem off n b = Some (slice off n mem).
Proof. intros Hm Hfit. unfold load_mem. rewrite Hm. cbn. by rewrite (proj2 (Z.leb_le _ _)). Qed.

Lemma sendAll_ok data sent : sendAll data (mkOut sent []) = (true, mkOut (sent ++ data) []).
Proof. done. Qed.

(** The receiver takes one frame that carries [data]. *)
Lemma receive_frame fuel first switched mHdr rb h data rest :
  mh_flags (if switched : bool then mHdr else first) = 1 ->
  header_ok h -> mh_packetLength h = Z.of_nat (length data) -> (0 < length data)%nat ->
  rbuf_ok rb -> mSize rb + Z.of_nat (length data) < 2 ^ 32 ->
  exists rb', receive_loop (S fuel) first switched mHdr rb (header_bytes h ++ data ++ rest) =
              receive_loop fuel first true h rb' rest /\
    rbuf_ok rb' /\ mSize rb' = mSize rb + Z.of_nat (length data) /\ contents rb' = contents rb ++ data.
Proof.
  intros Hfl Hh Hlen Hpos Hrb Hsz. cbn [receive_loop]. rewrite Hfl.
  change (negb (Z.land 1 DSI_MORE_DATA_FLAG =? 0)) with true.
  rewrite recv_header by done. cbn [mbind option_bind].
  rewrite header_roundtrip, Hlen by done. rewrite (proj2 (Z.ltb_lt _ _)) by lia.
  destruct (recv_payload_ok data rb rest Hrb Hsz) as (rb' & -> & ? & ? & ?).
  by exists rb'.
Qed.

(** The sender's loop and the receiver's loop together: the bytes from
    [dataSent] to [totalLength] of the sender's memory arrive. *)
Lemma frames_arrive totalLength b mem :
  buf_mem b = Some mem -> totalLength <= Z.of_nat (length mem) -> totalLength < 2 ^ 32 ->
  forall fuel dataSent h sent,
  0 <= dataSent < totalLength -> totalLength - dataSent < Z.of_nat fuel ->
  header_ok h -> mh_flags h = 0 \/ mh_flags h = 1 ->
  exists out, flush_loop fuel totalLength dataSent h b true (mkOut sent []) =
              Some (true, mkOut (sent ++ out) []) /\
    forall fuel' first switched mHdr rb rest,
    mh_flags (if switched : bool then mHdr else first) = 1 ->
    rbuf_ok rb -> mSize rb + (totalLength - dataSent) < 2 ^ 32 -> (length (out ++ rest) < fuel')%nat ->
    exists rb', receive_loop fuel' first switched mHdr rb (out ++ rest) = Some (true, rb', rest) /\
      contents rb' = contents rb ++ slice dataSent (totalLength - dataSent) mem.
Proof.
  intros Hm Htot Hmax. induction fuel as [|fuel IH]; intros dataSent h sent Hd Hfuel Hh Hfl; [lia|].
  cbn [flush_loop]. rewrite (proj2 (Z.ltb_lt _ _)) by lia. cbn [andb].
  set (r := totalLength - dataSent) in *.
  destruct (set_frame_spec r h ltac:(lia) Hfl) as (Hlen & Hflags & Hok & _). specialize (Hok Hh).
  set (h' := set_frame r h) in *. change DSI_PAYLOAD_SIZE with 4056 in *.
  assert (Z.of_nat (length (slice dataSent (mh_packetLength h') mem)) = mh_packetLength h') as Hdl
    by (apply slice_length; lia).
  rewrite (load_slice _ _ _ mem) by (done || lia). cbn [mbind option_bind]. rewrite sendAll_ok.
  set (data := slice dataSent (mh_packetLength h') mem) in *.
  destruct (Z.ltb_spec 4056 r) as [Hmore|Hlast].
  - destruct (IH (dataSent + 4056) h' (sent ++ header_bytes h' ++ data)) as (out & -> & Hrecv);
      [lia|lia|done|by right|].
    exists (header_bytes h' ++ data ++ out). split; [by rewrite <-!app_assoc|].
    intros [|fuel'] first switched mHdr rb rest Hcur Hrb Hsz Hf; [lia|].
    rewrite <-!app_assoc in Hf |- *. rewrite length_app, header_bytes_length in Hf.
    destruct (receive_frame fuel' first switched mHdr rb h' data (out ++ rest))
      as (rb1 & -> & Hrb1 & Hs1 & Hc1); [done|done|done|lia|done|lia|].
    destruct (Hrecv fuel' first true h' rb1 rest) as (rb2 & -> & Hc2); [done|done|lia| |].
    { rewrite length_app in Hf. lia. }
    exists rb2. split; [done|]. rewrite Hc2, Hc1, <-app_assoc. f_equal. unfold data.
    replace r with (mh_packetLength h' + (totalLength - (dataSent + 4056))) by lia.
    rewrite slice_split by lia. do 2 f_equal; lia.
  - destruct fuel as [|fuel]; [lia|]. cbn [flush_loop]. rewrite (proj2 (Z.ltb_ge _ _)) by lia. cbn [andb].
    exists (header_bytes h' ++ data). split; [done|].
    intros [|fuel'] first switched mHdr rb rest Hcur Hrb Hsz Hf; [lia|].
    rewrite <-!app_assoc in Hf |- *. rewrite length_app, header_bytes_length in Hf.
    destruct (receive_frame fuel' first switched mHdr rb h' data rest)
      as (rb1 & -> & Hrb1 & Hs1 & Hc1); [done|done|done|lia|done|lia|].
    destruct fuel' as [|fuel']; [lia|]. cbn [receive_loop]. rewrite Hflags.
    exists rb1. split; [done|]. rewrite Hc1. f_equal. unfold data. f_equal. lia.
Qed.
(** The receiver reads the header of the first frame and its payload. *)
Lemma receive_first h data rest :
  header_ok h -> mh_packetLength h = Z.of_nat (length data) -> (0 < length data)%nat ->
  exists rb, rbuf_ok rb /\ mSize rb = Z.of_nat (length data) /\ contents rb = data /\
    receive_message (header_bytes h ++ data ++ rest) =
    ('(rc, b, input) ← receive_loop (S (length rest)) h false MessageHeader_empty rb rest;
     Some (if rc : bool then Some (h, contents b) else None, input)).
Proof.
  intros Hh Hlen Hpos. pose proof (ho_length _ Hh) as Hu. unfold is_u32 in Hu.
  destruct (recv_payload_ok data (CBuffer_new one2one) rest rbuf_new) as (rb & Hrecv & Hrb & Hs & Hc);
    [cbn [CBuffer_new mSize]; lia|].
  exists rb. split_and!; [done|done|by rewrite Hc, contents_new|].
  unfold receive_message. rewrite recv_header by done. cbn [mbind option_bind].
  rewrite header_roundtrip by done. unfold receiveAll.
  rewrite Hlen, (proj2 (Z.ltb_lt _ _)), Hrecv by lia. done.
Qed.

(** What [flush] puts on the wire for the first frame. *)
Definition first_header (w : CRequestWriter) : MessageHeader :=
  let h := rw_header w <| mh_type := 0 |> in
  set_frame (mSize (rw_buf w) + (if haveEventInfo h then sizeof_info else 0)) h.

Lemma first_header_ok w :
  header_ok (rw_header w) -> mh_flags (rw_header w) = 0 -> buf_ok (rw_buf w) ->
  mSize (rw_buf w) + 16 < 2 ^ 32 ->
  let total := mSize (rw_buf w) + (if haveEventInfo (rw_header w) then 16 else 0) in
  mh_packetLength (first_header w) = Z.min total DSI_PAYLOAD_SIZE /\
  mh_flags (first_header w) = (if DSI_PAYLOAD_SIZE <? total then 1 else 0) /\
  header_ok (first_header w) /\ haveEventInfo (first_header w) = haveEventInfo (rw_header w) /\
  mh_cmd (first_header w) = mh_cmd (rw_header w) /\
  mh_serverID (first_header w) = mh_serverID (rw_header w) /\
  mh_clientID (first_header w) = mh_clientID (rw_header w) /\
  mh_protoMinor (first_header w) = mh_protoMinor (rw_header w).
Proof.
  intros Hh Hfl Hb Hmax total. pose proof (ok_size _ Hb) as Hs.
  assert (haveEventInfo (rw_header w <| mh_type := 0 |>) = haveEventInfo (rw_header w)) as He
    by (by destruct w as [[] ? ?]).
  unfold first_header. cbv zeta. rewrite He. change sizeof_info with 16. fold total.
  assert (header_ok (rw_header w <| mh_type := 0 |>)) as Hh0.
  { destruct Hh as [H1 H2 H3 H4 H5 H6 H7 H8 H9]. destruct w as [[] ? ?]; cbn in *. by split. }
  destruct (set_frame_spec total (rw_header w <| mh_type := 0 |>)) as (H1 & H2 & H3 & H4 & H5 & H6 & H7 & H8).
  { unfold total. destruct (haveEventInfo _); lia. }
  { left. by destruct w as [[] ? ?]. }
  specialize (H3 Hh0). rewrite H1, H2, H4, He, H5, H6, H7, H8.
  split_and!; try done; by destruct w as [[] ? ?].
Qed.

Lemma contents_slice b mem : buf_mem b = Some mem -> contents b = slice 0 (mSize b) mem.
Proof. intros Hm. unfold contents, slice. by rewrite Hm. Qed.

(** C26. A data request or response arrives, provided the buffer has room for 16 bytes
    behind the data and the size with twice these fits 32 bits: what [flush] sends, in one
    frame or several, is received by [CClientConnection] as one message with the same
    addresses and command, whose body is the event info followed by the data written
    to the buffer, and the bytes behind it on the connection are left.  A message
    that needs more than one frame carries 16 more bytes, which [flush] takes from
    behind the data: it counts the event info twice.  Without the room, which a message of
    4041 to 4056 bytes in a buffer of 4056 does not have, it reads outside of the buffer
    ([flush_reads_past_buffer]). *)
Theorem request_arrives w sent :
  header_ok (rw_header w) -> mh_flags (rw_header w) = 0 -> mh_type (rw_header w) <> 0 ->
  haveEventInfo (rw_header w) = true -> buf_ok (rw_buf w) ->
  mSize (rw_buf w) + sizeof_info <= mCapacity (rw_buf w) -> mSize (rw_buf w) + 2 * sizeof_info < 2 ^ 32 ->
  exists out, flush w (mkOut sent []) = Some (true, mkOut (sent ++ out) []) /\
    forall rest, exists h stray,
      receive_message (out ++ rest) =
        Some (Some (h, info_bytes (rw_info w) ++ contents (rw_buf w) ++ stray), rest) /\
      mh_cmd h = mh_cmd (rw_header w) /\ mh_serverID h = mh_serverID (rw_header w) /\
      mh_clientID h = mh_clientID (rw_header w) /\ mh_protoMinor h = mh_protoMinor (rw_header w) /\
      Z.of_nat (length stray) = (if DSI_PAYLOAD_SIZE <? mSize (rw_buf w) + sizeof_info then 16 else 0).
Proof.
  change sizeof_info with 16. intros Hh Hfl Hty Hev Hb Hcap Hmax.
  destruct (first_header_ok w) as (Hlen & Hflags & Hok & Hev1 & Hcmd & Hsv & Hcl & Hmin); [done..|lia|].
  rewrite Hev in Hlen, Hflags. pose proof (ok_size _ Hb) as Hs. pose proof (ok_mem _ Hb) as (mem & Hm & Hml).
  set (n := mSize (rw_buf w)) in *. change DSI_PAYLOAD_SIZE with 4056 in *.
  assert (haveEventInfo (rw_header w <| mh_type := 0 |>) = true) as Hev0 by (by destruct w as [[] ? ?]).
  unfold flush. rewrite (proj2 (Z.eqb_neq _ _) Hty). cbv zeta. rewrite Hev0. change sizeof_info with 16.
  fold n. assert (set_frame (n + 16) (rw_header w <| mh_type := 0 |>) = first_header w) as ->.
  { unfold first_header. cbv zeta. by rewrite Hev0. }
  rewrite Hev1, Hev. rewrite (load_slice 0 _ _ mem) by (done || lia). cbn [mbind option_bind].
  rewrite sendAll_ok. change DSI_PAYLOAD_SIZE with 4056. change (4056 - 16) with 4040.
  set (h1 := first_header w) in *. set (info := info_bytes (rw_info w)) in *.
  set (data := slice 0 (mh_packetLength h1 - 16) mem).
  assert (length info = 16%nat) as Hil by apply info_bytes_length.
  assert (Z.of_nat (length data) = mh_packetLength h1 - 16) as Hdl by (apply slice_length; lia).
  destruct (Z.ltb_spec 4056 (n + 16)) as [Hbig|Hsmall].
  - destruct (frames_arrive (n + 16) (rw_buf w) mem Hm ltac:(lia) ltac:(lia) (S (Z.to_nat (n + 16))) 4040
      h1 (sent ++ header_bytes h1 ++ info ++ data)) as (out & -> & Hrecv); [lia|lia|done|by right|].
    exists (header_bytes h1 ++ (info ++ data) ++ out). split; [by rewrite <-!app_assoc|].
    intros rest. exists h1, (slice n 16 mem).
    destruct (receive_first h1 (info ++ data) (out ++ rest)) as (rb & Hrb & Hrs & Hrc & Hrm);
      [done|rewrite length_app; lia|rewrite length_app; lia|].
    rewrite <-!app_assoc in Hrm. rewrite <-!app_assoc. rewrite Hrm.
    destruct (Hrecv (S (length (out ++ rest))) h1 false MessageHeader_empty rb rest) as (rb' & -> & Hc');
      [done|done|rewrite Hrs, length_app; lia|lia|].
    cbn [mbind option_bind]. rewrite Hc', Hrc. split_and!; [|exact Hcmd|exact Hsv|exact Hcl|exact Hmin|].
    + do 2 f_equal. rewrite <-app_assoc, (contents_slice _ mem Hm). fold n.
      do 2 f_equal. unfold data.
      replace (mh_packetLength h1 - 16) with 4040 by lia.
      replace (slice 0 n mem ++ slice n 16 mem) with (slice 0 (n + 16) mem)
        by (rewrite slice_split by lia; done).
      f_equal. transitivity (slice 0 (4040 + (n + 16 - 4040)) mem); [by rewrite slice_split by lia|f_equal; lia].
    + pose proof (slice_length n 16 mem). lia.
  - exists (header_bytes h1 ++ info ++ data). split; [done|]. intros rest. exists h1, [].
    destruct (receive_first h1 (info ++ data) rest) as (rb & Hrb & Hrs & Hrc & Hrm);
      [done|rewrite length_app; lia|rewrite length_app; lia|].
    rewrite <-!app_assoc in Hrm. rewrite <-!app_assoc. rewrite Hrm.
    assert (receive_loop (S (length rest)) h1 false MessageHeader_empty rb rest = Some (true, rb, rest))
      as -> by (cbn [receive_loop]; by rewrite Hflags).
    cbn [mbind option_bind]. rewrite Hrc, app_nil_r, (contents_slice _ mem Hm). fold n. unfold data.
    replace (mh_packetLength h1 - 16) with n by lia.
    split_and!; [reflexivity|exact Hcmd|exact Hsv|exact Hcl|exact Hmin|reflexivity].
Qed.
(** A control message (connect and disconnect requests) has no event info; up to a
    packet of data it arrives as it was written. *)
Lemma control_arrives w sent :
  header_ok (rw_header w) -> mh_flags (rw_header w) = 0 -> mh_type (rw_header w) <> 0 ->
  haveEventInfo (rw_header w) = false -> buf_ok (rw_buf w) -> 0 < mSize (rw_buf w) <= DSI_PAYLOAD_SIZE ->
  exists out, flush w (mkOut sent []) = Some (true, mkOut (sent ++ out) []) /\
    forall rest, receive_message (out ++ rest) =
      Some (Some (first_header w, contents (rw_buf w)), rest).
Proof.
  intros Hh Hfl Hty Hev Hb Hn. assert (DSI_PAYLOAD_SIZE = 4056) as Hp by done. rewrite Hp in Hn.
  destruct (first_header_ok w) as (Hlen & Hflags & Hok & Hev1 & _); [done..|lia|].
  rewrite Hev, Hp in Hlen. rewrite Hev, Hp in Hflags.
  pose proof (ok_mem _ Hb) as (mem & Hm & Hml). pose proof (ok_size _ Hb) as Hs.
  set (n := mSize (rw_buf w)) in *.
  assert (haveEventInfo (rw_header w <| mh_type := 0 |>) = false) as Hev0 by (by destruct w as [[] ? ?]).
  assert (set_frame (n + 0) (rw_header w <| mh_type := 0 |>) = first_header w) as Hfirst.
  { unfold first_header. cbv zeta. by rewrite Hev0. }
  unfold flush. rewrite (proj2 (Z.eqb_neq _ _) Hty). cbv zeta. rewrite Hev0. fold n. rewrite Hfirst, Hev1, Hev.
  set (h1 := first_header w) in *. set (data := slice 0 (mh_packetLength h1) mem).
  rewrite (load_slice 0 _ _ mem) by (exact Hm || lia). cbn [mbind option_bind]. rewrite sendAll_ok.
  rewrite Hp, (proj2 (Z.ltb_ge 4056 (n + 0))) by lia. fold data. cbn [app].
  assert (Z.of_nat (length data) = mh_packetLength h1) as Hdl by (apply slice_length; lia).
  eexists. split; [done|]. intros rest.
  destruct (receive_first h1 data rest) as (rb & Hrb & Hrs & Hrc & Hrm); [done|lia|lia|].
  rewrite <-!app_assoc, Hrm.
  assert (receive_loop (S (length rest)) h1 false MessageHeader_empty rb rest = Some (true, rb, rest)) as ->.
  { cbn [receive_loop]. rewrite Hflags, (proj2 (Z.ltb_ge 4056 (n + 0))) by lia. done. }
  cbn [mbind option_bind]. rewrite Hrc, (contents_slice _ mem Hm). fold n. unfold data.
  by replace (mh_packetLength h1) with n by lia.
Qed.

(** ** Where it goes wrong *)

(** When the 16 bytes behind the data are not part of the buffer either, [flush]
    reads outside of it: a request with 4041 to 4056 bytes of data in a buffer of
    4056 bytes. *)
Lemma flush_reads_past_buffer w sent :
  mh_type (rw_header w) <> 0 -> haveEventInfo (rw_header w) = true -> buf_ok (rw_buf w) ->
  mCapacity (rw_buf w) = DSI_PAYLOAD_SIZE -> DSI_PAYLOAD_SIZE - sizeof_info < mSize (rw_buf w) ->
  flush w (mkOut sent []) = None.
Proof.
  intros Hty Hev Hb Hcap Hn. assert (DSI_PAYLOAD_SIZE = 4056) as Hp by done.
  rewrite Hp in Hcap. rewrite Hp in Hn. change sizeof_info with 16 in Hn.
  pose proof (ok_mem _ Hb) as (mem & Hm & Hml). pose proof (ok_size _ Hb) as Hs.
  set (n := mSize (rw_buf w)) in *.
  assert (haveEventInfo (rw_header w <| mh_type := 0 |>) = true) as Hev0 by (by destruct w as [[] ? ?]).
  unfold flush. rewrite (proj2 (Z.eqb_neq _ _) Hty). cbv zeta. rewrite Hev0. change sizeof_info with 16.
  fold n. set (h1 := set_frame (n + 16) _).
  assert (mh_packetLength h1 = 4056) as Hlen.
  { unfold h1, set_frame. rewrite Hp, (proj2 (Z.ltb_lt 4056 (n + 16))) by lia. by destruct (rw_header w). }
  assert (haveEventInfo h1 = true) as ->.
  { rewrite <-Hev0. unfold h1, set_frame. case_match; by destruct (rw_header w). }
  rewrite Hlen, (load_slice 0 _ _ mem) by (exact Hm || lia). cbn [mbind option_bind].
  rewrite sendAll_ok, Hp, (proj2 (Z.ltb_lt 4056 (n + 16))) by lia.
  change (4056 - 16) with 4040. cbn [flush_loop].
  rewrite (proj2 (Z.ltb_lt 4040 (n + 16))) by lia. cbn [andb].
  set (h2 := set_frame (n + 16 - 4040) h1).
  assert (mh_packetLength h2 = n + 16 - 4040) as ->.
  { unfold h2, set_frame. rewrite Hp, (proj2 (Z.ltb_ge 4056 (n + 16 - 4040))) by lia. by destruct h1. }
  unfold load_mem. rewrite Hm. cbn [mbind option_bind]. by rewrite (proj2 (Z.leb_gt _ _)) by lia.
Qed.

(** A frame whose announced length makes the 32-bit sum of [mBuf.size()] and
    [packetLength] wrap around passes [setCapacity] without growing the buffer,
    and what arrives is written behind its end. *)
Lemma receive_overflows fuel first switched mHdr rb h rest :
  mh_flags (if switched : bool then mHdr else first) = 1 -> header_ok h -> rbuf_ok rb ->
  2 ^ 32 <= mSize rb + mh_packetLength h ->
  mCapacity rb - mSize rb < Z.of_nat (length rest) <= mh_packetLength h ->
  receive_loop (S fuel) first switched mHdr rb (header_bytes h ++ rest) = None.
Proof.
  intros Hfl Hh [Hb Hf] Hwrap Hrest. pose proof Hb as [(mem & Hm & Hml) Hs Hc].
  pose proof (ho_length _ Hh) as Hu. unfold is_u32 in Hu.
  cbn [receive_loop]. rewrite Hfl. change (negb (Z.land 1 DSI_MORE_DATA_FLAG =? 0)) with true.
  rewrite recv_header by done. cbn [mbind option_bind]. rewrite header_roundtrip by done.
  rewrite (proj2 (Z.ltb_lt 0 _)) by lia. unfold recv_payload.
  assert (u32 (mSize rb + mh_packetLength h) = mSize rb + mh_packetLength h - 2 ^ 32) as ->.
  { unfold u32. rewrite <-(Z.mod_add _ (-1)), Z.mod_small by lia. lia. }
  unfold setCapacity. rewrite (proj2 (Z.ltb_ge (mCapacity rb) _)), andb_false_r by lia.
  cbn [mbind option_bind]. rewrite Hm. cbn [mbind option_bind].
  unfold recvAll. rewrite take_ge by lia. by rewrite (proj2 (Z.ltb_lt _ _)) by lia.
Qed.

End exchange.

(** A writer with five bytes of data. *)
Definition example_writer : CRequestWriter :=
  mkWriter (MessageHeader_new (mkParty 7 0) (mkParty 3 1) DataRequest 0 0) (mkEventInfo 0 0x100 2 5)
    (pbump 5 (CBuffer_new powerOf2)).

Lemma request_arrives_witness :
  exists out, flush example_writer (mkOut [] []) = Some (true, mkOut ([] ++ out) []) /\
    forall rest, exists h stray,
      receive_message (out ++ rest) =
        Some (Some (h, info_bytes (rw_info example_writer) ++ contents (rw_buf example_writer) ++ stray), rest) /\
      mh_cmd h = mh_cmd (rw_header example_writer) /\ mh_serverID h = mh_serverID (rw_header example_writer) /\
      mh_clientID h = mh_clientID (rw_header example_writer) /\
      mh_protoMinor h = mh_protoMinor (rw_header example_writer) /\
      Z.of_nat (length stray) =
        (if DSI_PAYLOAD_SIZE <? mSize (rw_buf example_writer) + sizeof_info then 16 else 0).
Proof.
  apply (request_arrives simple_heap_ample example_writer []).
  - split; vm_compute; intuition congruence.
  - reflexivity.
  - discriminate.
  - reflexivity.
  - apply pbump_ok; [apply buf_wf_ok, CBuffer_new_wf|lia|vm_compute; congruence].
  - vm_compute. congruence.
  - vm_compute. congruence.
Defined.
