(* ===== verification/Runtime.v ===== *)
(** The process-wide services of the base library's runtime.

    What servers, clients and the communication engine of an application share: a
    monad whose computations may abort the process, [DSI::createId], the wrappers of
    the servicebroker calls ([src/base/CServicebroker.cpp]), and the channels with the
    connection caches of [CCommEngine::attach] and [attachTCP]
    ([src/base/CCommEngine.cpp], [CChannel] and its implementations).

    A [CChannel] is owned by shared pointers, the one of its [CClientConnection] and
    those a connect state machine holds; it is alive while one of them is left, which
    is what [weak_ptr::expired] asks.  A connection is a number, and its channel has
    the same number; channel 0 is the dummy channel, which is never destroyed. *)

From S2P Require Import Prelude.
From S2P Require Import Types.
From S2P Require Import Stream.
From S2P Require Import Message.

(** ** Computations that may abort

    The library is built with assertions.  A computation ends normally or aborts the
    process. *)

Inductive Crash :=
  | C_assert      (* a failed assertion *)
  | C_null        (* a null pointer is dereferenced *)
  | C_range       (* a vector is accessed behind its end *)
  | C_dangling    (* an object is used after its destruction *)
  | C_exception.  (* an exception leaves the event loop *)

Inductive Result (S A : Type) :=
  | Ok (a : A) (s : S)
  | Aborted (c : Crash).
Arguments Ok {S A} _ _.
Arguments Aborted {S A} _.

Definition Prog (S A : Type) : Type := S -> Result S A.

#[export] Instance Prog_ret S : MRet (Prog S) := fun A a s => Ok a s.
#[export] Instance Prog_bind S : MBind (Prog S) := fun A B f m s =>
  match m s with Ok a s' => f a s' | Aborted c => Aborted c end.

Definition pget {S} : Prog S S := fun s => Ok s s.
Definition pgets {S A} (f : S -> A) : Prog S A := fun s => Ok (f s) s.
Definition pmodify {S} (f : S -> S) : Prog S unit := fun s => Ok tt (f s).
Definition pskip {S} : Prog S unit := fun s => Ok tt s.
Definition pwhen {S} (b : bool) (m : Prog S unit) : Prog S unit := if b then m else pskip.
Definition abort {S A} (c : Crash) : Prog S A := fun _ => Aborted c.

(** [assert(b)]. *)
Definition passert {S} (b : bool) : Prog S unit := if b then pskip else abort C_assert.

Fixpoint pfor {S A} (l : list A) (body : A -> Prog S unit) : Prog S unit :=
  match l with
  | [] => pskip
  | x :: l => body x;; pfor l body
  end.

(** A computation on a part of a larger state. *)
Definition zoom {S T A} (get : T -> S) (set : S -> T -> T) (m : Prog S A) : Prog T A := fun t =>
  match m (get t) with
  | Ok a s => Ok a (set s t)
  | Aborted c => Aborted c
  end.

(** ** Packets

    What one request writer sends: the header of the first frame, the event info of
    data messages and the payload.  How it is cut into frames is the subject of
    [Message]. *)

Record Packet := mkPacket {
  pk_header : MessageHeader;
  pk_info : option EventInfo;
  pk_payload : bytes;
}.

(** [flush] of a writer into which [payload] was written. *)
Definition packet_of (w : CRequestWriter) (payload : bytes) : Packet :=
  let h := rw_header w <| mh_type := 0 |> in
  let info := if haveEventInfo h then Some (rw_info w) else None in
  let total := Z.of_nat (length payload) + (if haveEventInfo h then sizeof_info else 0) in
  mkPacket (set_frame total h) info payload.

(** ** Effects *)

Inductive SBCall :=
  | SB_Open
  | SB_RegisterInterface (ifDescription : SFNDInterfaceDescription) (chid : Z)
  | SB_RegisterGroupInterface (ifDescription : SFNDInterfaceDescription) (chid : Z) (group : bytes)
  | SB_RegisterInterfaceTCP (ifDescription : SFNDInterfaceDescription) (address port : Z)
  | SB_UnregisterInterface (serverID : SPartyID)
  | SB_SetServerAvailableNotification (ifDescription : SFNDInterfaceDescription) (chid code value : Z)
  | SB_SetClientDetachNotification (clientID : SPartyID) (chid code value : Z)
  | SB_SetServerDisconnectNotification (serverID : SPartyID) (chid code value : Z)
  | SB_ClearNotification (notificationID : Z)
  | SB_DetachInterface (clientID : SPartyID)
  | SB_AttachInterface (ifDescription : SFNDInterfaceDescription)
  | SB_AttachInterfaceTCP (ifDescription : SFNDInterfaceDescription).

Inductive ChanKind := CK_local | CK_tcp.
#[export] Instance ChanKind_eq_dec : EqDecision ChanKind.
Proof. solve_decision. Defined.

Inductive Effect :=
  | E_sb (handle : Z) (call : SBCall)
  | E_attached (clientID : SPartyID)   (* the client id a successful attach returns *)
  | E_connect (kind : ChanKind) (a b : Z) (ok : bool)
  | E_send (chan : Z) (p : Packet) (ok : bool)
  | E_raw (chan : Z) (data : bytes) (ok : bool)
  | E_connected (client : Z)      (* doComponentConnected *)
  | E_disconnected (client : Z)   (* doComponentDisconnected *)
  | E_response (client type id : Z) (payload : bytes)   (* processResponse *)
  | E_request (server : Z) (id : Z) (payload : bytes)   (* a request method of the user *)
  | E_unregistered (server : Z) (sessionId : Z).        (* an unregister method of the user *)

(** What the process reads from outside; the argument counts the calls made. *)
Class AppEnv := {
  env_open : nat -> Z;                         (* SBOpen *)
  env_rc : nat -> Z;                           (* the result of a servicebroker call *)
  env_party : nat -> SPartyID;                 (* the server id of a registration *)
  env_notification : nat -> Z;                 (* the id of a notification *)
  env_connInfo : nat -> SConnectionInfo;
  env_tcpInfo : nat -> STCPConnectionInfo;
  env_connect : nat -> bool;                   (* open and connect of a socket *)
  env_send : nat -> bool;                      (* sendAll *)
  env_localName : nat -> option Z;             (* the local IP address of a TCP socket *)
  env_recv : nat -> bytes;                     (* memory: a buffer after recvAll, failed or not *)
  env_pid : Z;                                 (* getpid *)
  env_address : Z;                             (* getLocalIpAddress *)
  env_force_tcp : bool;                        (* isTCPForced *)
  env_port : option Z;                         (* the number in DSI_COMMENGINE_PORT *)
  env_listen : nat -> option Z;                (* open, bind and listen: the port *)
}.

(** ** The state of the transport *)

Record Net := mkNet {
  n_nextID : Z;                            (* NextID *)
  n_tick : nat;                            (* calls made *)
  n_sbHandle : Z;                          (* SBHandle *)
  n_connections : gset Z;                  (* the CClientConnection objects *)
  n_channels : gmap Z (ChanKind * nat);    (* the channels and their owners *)
  n_newest : Z;                            (* the last connection made *)
  n_localChannels : gmap (option (Z * Z)) Z;   (* mLocalChannels *)
  n_tcpChannels : gmap (Z * Z) Z;          (* mTCPChannels *)
  n_notifyChid : Z;                        (* mSBNotifyChid *)
  n_localChid : Z;                         (* mLocalChid *)
  n_ipPort : option Z;                     (* the port of mTCPAcceptor while it is open *)
  n_log : list Effect;
}.
#[export] Instance Eta_Net : Eta Net := fun n =>
  mkNet (n_nextID n) (n_tick n) (n_sbHandle n) (n_connections n) (n_channels n) (n_newest n)
    (n_localChannels n) (n_tcpChannels n) (n_notifyChid n) (n_localChid n) (n_ipPort n) (n_log n).

(** [CCommEngine::Private]'s constructor, with the notification handle it opened. *)
Definition Net_initial (notifyChid : Z) : Net := mkNet 1 0 (-1) ∅ ∅ 0 ∅ ∅ notifyChid 0 None [].

Section net.
Context `{AppEnv}.

Definition log_effect (e : Effect) : Prog Net unit := pmodify (fun n => n <| n_log ::= fun l => l ++ [e] |>).

(** The number of the next call. *)
Definition next_tick : Prog Net nat :=
  t ← pgets n_tick;
  pmodify (fun n => n <| n_tick := S t |>);;
  mret t.

(** [__sync_fetch_and_add(&NextID, 1)]. *)
Definition createId : Prog Net Z :=
  id ← pgets n_nextID;
  pmodify (fun n => n <| n_nextID := u32 (id + 1) |>);;
  mret id.

(** ** Servicebroker calls *)

(** [CServicebroker::GetSBHandle]: opened on first use, and again after a failure. *)
Definition GetSBHandle : Prog Net Z :=
  h ← pgets n_sbHandle;
  if h <=? 0 then
    t ← next_tick;
    log_effect (E_sb 0 SB_Open);;
    pmodify (fun n => n <| n_sbHandle := env_open t |>);;
    mret (env_open t)
  else mret h.

(** A call through the handle; the result is its number. *)
Definition sb_request (call : SBCall) : Prog Net nat :=
  h ← GetSBHandle;
  t ← next_tick;
  log_effect (E_sb h call);;
  mret t.

Definition PULSE_SERVER_AVAILABLE : Z := 100.
Definition PULSE_SERVER_DISCONNECT : Z := 101.
Definition PULSE_CLIENT_DETACHED : Z := 102.

(** The calls write the id they return only when they succeed. *)
Definition sb_registerInterface (ifDescription : SFNDInterfaceDescription) (chid : Z) (userGroup : bytes)
    (serverID : SPartyID) : Prog Net (bool * SPartyID) :=
  t ← sb_request (match userGroup with
                  | _ :: _ => SB_RegisterGroupInterface ifDescription chid userGroup
                  | [] => SB_RegisterInterface ifDescription chid
                  end);
  mret (env_rc t =? 0, if env_rc t =? 0 then env_party t else serverID).

Definition sb_registerInterfaceTCP (ifDescription : SFNDInterfaceDescription) (address port : Z)
    (serverID : SPartyID) : Prog Net (bool * SPartyID) :=
  t ← sb_request (SB_RegisterInterfaceTCP ifDescription address port);
  mret (env_rc t =? 0, if env_rc t =? 0 then env_party t else serverID).

Definition sb_unregisterInterface (serverID : SPartyID) : Prog Net unit :=
  sb_request (SB_UnregisterInterface serverID);; mret tt.

Definition sb_setServerAvailableNotification (ifDescription : SFNDInterfaceDescription)
    (chid pulseValue : Z) : Prog Net Z :=
  t ← sb_request (SB_SetServerAvailableNotification ifDescription chid PULSE_SERVER_AVAILABLE pulseValue);
  mret (if env_rc t =? 0 then env_notification t else 0).

Definition sb_setClientDetachNotification (clientID : SPartyID) (chid pulseValue : Z) : Prog Net Z :=
  t ← sb_request (SB_SetClientDetachNotification clientID chid PULSE_CLIENT_DETACHED pulseValue);
  mret (if env_rc t =? 0 then env_notification t else 0).

Definition sb_setServerDisconnectNotification (serverID : SPartyID) (chid pulseValue : Z) : Prog Net Z :=
  t ← sb_request (SB_SetServerDisconnectNotification serverID chid PULSE_SERVER_DISCONNECT pulseValue);
  mret (if env_rc t =? 0 then env_notification t else 0).

Definition sb_clearNotification (notificationID : Z) : Prog Net unit :=
  sb_request (SB_ClearNotification notificationID);; mret tt.

Definition sb_detachInterface (clientID : SPartyID) : Prog Net unit :=
  sb_request (SB_DetachInterface clientID);; mret tt.

Definition sb_attachInterface (ifDescription : SFNDInterfaceDescription) (connInfo : SConnectionInfo) :
    Prog Net (Z * SConnectionInfo) :=
  t ← sb_request (SB_AttachInterface ifDescription);
  pwhen (env_rc t =? 0) (log_effect (E_attached (ci_clientID (env_connInfo t))));;
  mret (env_rc t, if env_rc t =? 0 then env_connInfo t else connInfo).

Definition sb_attachInterfaceTCP (ifDescription : SFNDInterfaceDescription) (connInfo : STCPConnectionInfo) :
    Prog Net (Z * STCPConnectionInfo) :=
  t ← sb_request (SB_AttachInterfaceTCP ifDescription);
  pwhen (env_rc t =? 0) (log_effect (E_attached (ti_clientID (env_tcpInfo t))));;
  mret (env_rc t, if env_rc t =? 0 then env_tcpInfo t else connInfo).

(** ** Channels *)

Definition alive (ch : Z) (n : Net) : bool :=
  (ch =? 0) || bool_decide (is_Some (n_channels n !! ch)).

(** [weak_ptr::expired]; an empty weak pointer is [None]. *)
Definition expired (w : option Z) (n : Net) : bool :=
  match w with Some ch => negb (alive ch n) | None => true end.

(** One more, or one less, shared pointer to a channel. *)
Definition acquire (ch : Z) (n : Net) : Net :=
  n <| n_channels ::= alter (fun '(k, r) => (k, S r)) ch |>.

Definition release_channel (ch : Z) (n : Net) : Net :=
  match n_channels n !! ch with
  | Some (k, S (S r)) => n <| n_channels ::= <[ch := (k, S r)]> |>
  | _ => n <| n_channels ::= delete ch |>
  end.

(** [new CClientConnection(sock, *d)]. *)
Definition new_connection (k : ChanKind) : Prog Net Z :=
  ch ← pgets (fun n => n_newest n + 1);
  pmodify (fun n => n <| n_newest := ch |> <| n_connections ::= fun s => {[ch]} ∪ s |>
                      <| n_channels ::= <[ch := (k, 1%nat)]> |>);;
  mret ch.

(** [sendAll(iov, n)] of a packet: the dummy channel asserts. *)
Definition send_packet (ch : Z) (p : Packet) : Prog Net bool :=
  passert (negb (ch =? 0));;
  t ← next_tick;
  log_effect (E_send ch p (env_send t));;
  mret (env_send t).

Definition send_raw (ch : Z) (data : bytes) : Prog Net bool :=
  passert (negb (ch =? 0));;
  t ← next_tick;
  log_effect (E_raw ch data (env_send t));;
  mret (env_send t).

(** [iter->second->channel()] of a cached connection: entries of the caches are
    never erased, and the connection may be gone. *)
Definition cached_channel (conn : Z) : Prog Net Z :=
  ok ← pgets (fun n => bool_decide (conn ∈ n_connections n));
  if (ok : bool) then mret conn else abort C_dangling.

(** [CCommEngine::attach]. *)
Definition attach (pid chid : Z) : Prog Net (option Z) :=
  cached ← pgets (fun n => n_localChannels n !! Some (pid, chid));
  match cached with
  | Some conn => ch ← cached_channel conn; mret (Some ch)
  | None =>
    t ← next_tick;
    log_effect (E_connect CK_local pid chid (env_connect t));;
    if env_connect t then
      conn ← new_connection CK_local;
      pmodify (fun n => n <| n_localChannels ::= <[Some (pid, chid) := conn]> |>);;
      mret (Some conn)
    else mret None
  end.

(** A new channel without a connection, owned by the shared pointer returned. *)
Definition new_private_channel : Prog Net Z :=
  ch ← pgets (fun n => n_newest n + 1);
  pmodify (fun n => n <| n_newest := ch |> <| n_channels ::= <[ch := (CK_tcp, 1%nat)]> |>);;
  mret ch.

(** [CCommEngine::attachTCP]; [Endpoint(host, port)] keeps 16 bits of the port. *)
Definition attachTCP (host port : Z) (private_ : bool) : Prog Net (option Z) :=
  let ep : Z * Z := (u32 host, u16 port) in
  cached ← (if private_ then mret None else pgets (fun n => n_tcpChannels n !! ep));
  match cached with
  | Some conn => ch ← cached_channel conn; mret (Some ch)
  | None =>
    t ← next_tick;
    log_effect (E_connect CK_tcp (u32 host) (u16 port) (env_connect t));;
    if env_connect t then
      if private_ then ch ← new_private_channel; mret (Some ch)
      else
        conn ← new_connection CK_tcp;
        pmodify (fun n => n <| n_tcpChannels ::= <[ep := conn]> |>);;
        mret (Some conn)
    else mret None
  end.

(** [startTCP], called by [getIPPort] when the acceptor is not open. *)
Definition startTCP : Prog Net Z :=
  match env_port with
  | Some iport => passert ((0 <? iport) && (iport <? 65536))
  | None => pskip
  end;;
  t ← next_tick;
  match env_listen t with
  | Some port => pmodify (fun n => n <| n_ipPort := Some port |>);; mret port
  | None => abort C_assert
  end.

Definition getIPPort : Prog Net Z :=
  open ← pgets n_ipPort;
  match open with Some port => mret port | None => startTCP end.

End net.

(** ** Lemmas *)

Lemma pbind_ok {S A B} (m : Prog S A) (k : A -> Prog S B) s a s' :
  m s = Ok a s' -> (m ≫= k) s = k a s'.
Proof. unfold mbind, Prog_bind. by intros ->. Qed.

Lemma pbind_assoc {S A B C} (m : Prog S A) (k : A -> Prog S B) (l : B -> Prog S C) s :
  ((m ≫= k) ≫= l) s = (m ≫= (fun a => k a ≫= l)) s.
Proof. unfold mbind, Prog_bind. by destruct (m s). Qed.

(** A bind that ended normally, taken apart. *)
Lemma pbind_inv {S A B} (m : Prog S A) (k : A -> Prog S B) s b s' :
  (m ≫= k) s = Ok b s' -> exists a s1, m s = Ok a s1 /\ k a s1 = Ok b s'.
Proof. unfold mbind, Prog_bind. destruct (m s) as [a s1|]; [|done]. intros Hk. by exists a, s1. Qed.

Lemma zoom_ok {S T A} (get : T -> S) set (m : Prog S A) t a s :
  m (get t) = Ok a s -> zoom get set m t = Ok a (set s t).
Proof. unfold zoom. by intros ->. Qed.

(** What holds of the final state of every run that ends normally. *)
Definition ensures {S A} (m : Prog S A) (R : S -> S -> Prop) : Prop :=
  forall s a s', m s = Ok a s' -> R s s'.

Section ensures.
Context {S : Type} (R : S -> S -> Prop) `{!Reflexive R} `{!Transitive R}.

Lemma ensures_ret {A} (a : A) : ensures (mret a) R.
Proof. by intros s b s' [= _ <-]. Qed.

Lemma ensures_bind {A B} (m : Prog S A) (k : A -> Prog S B) :
  ensures m R -> (forall a, ensures (k a) R) -> ensures (m ≫= k) R.
Proof.
  intros Hm Hk s b s' (a & s1 & H1 & H2)%pbind_inv. etrans; [by eapply Hm | by eapply Hk].
Qed.

Lemma ensures_get {A} (f : S -> A) : ensures (pgets f) R.
Proof. by intros s b s' [= _ <-]. Qed.

Lemma ensures_skip : ensures pskip R.
Proof. by intros s b s' [= _ <-]. Qed.

Lemma ensures_abort {A} c : ensures (abort (A := A) c) R.
Proof. by intros s b s' [=]. Qed.

Lemma ensures_assert b : ensures (passert b) R.
Proof. destruct b; [apply ensures_skip | apply ensures_abort]. Qed.

Lemma ensures_when b (m : Prog S unit) : ensures m R -> ensures (pwhen b m) R.
Proof. intros Hm. destruct b; [done | apply ensures_skip]. Qed.

Lemma ensures_modify (f : S -> S) : (forall s, R s (f s)) -> ensures (pmodify f) R.
Proof. intros Hf s b s' [= _ <-]. apply Hf. Qed.

Lemma ensures_for {A} (l : list A) (body : A -> Prog S unit) :
  (forall x, ensures (body x) R) -> ensures (pfor l body) R.
Proof.
  intros Hb. induction l as [|x l IH]; cbn [pfor]; [apply ensures_skip|].
  by apply ensures_bind.
Qed.

End ensures.

(** The relations used: a component is unchanged, or the log only grows. *)
Definition same {S F} (f : S -> F) (s s' : S) : Prop := f s' = f s.
#[export] Instance same_reflexive {S F} (f : S -> F) : Reflexive (same f).
Proof. intros s. reflexivity. Qed.
#[export] Instance same_transitive {S F} (f : S -> F) : Transitive (same f).
Proof. intros a b c H1 H2. unfold same in *. congruence. Qed.

(** A state property that is handed on. *)
Definition hands_on {S} (I : S -> Prop) (s s' : S) : Prop := I s -> I s'.
#[export] Instance hands_on_reflexive {S} (I : S -> Prop) : Reflexive (hands_on I).
Proof. intros s H. exact H. Qed.
#[export] Instance hands_on_transitive {S} (I : S -> Prop) : Transitive (hands_on I).
Proof. intros a b c H1 H2 H. by apply H2, H1. Qed.

(** Walk through the control structure of a computation. *)
Ltac ensure_step :=
  cbv zeta beta;
  match goal with
  | |- ensures (mbind _ _) _ => apply ensures_bind; [exact _| |intros ?]
  | |- ensures (mret _) _ => apply ensures_ret; exact _
  | |- ensures (pgets _) _ => apply ensures_get; exact _
  | |- ensures pskip _ => apply ensures_skip; exact _
  | |- ensures (abort _) _ => apply ensures_abort
  | |- ensures (passert _) _ => apply ensures_assert; exact _
  | |- ensures (pwhen _ _) _ => apply ensures_when; [exact _|]
  | |- ensures (pfor _ _) _ => apply ensures_for; [exact _|exact _|intros ?]
  | |- ensures (match ?x with _ => _ end) _ => destruct x eqn:?
  | |- ensures _ _ => solve [eauto with ensure nocore]
  end.
Ltac ensure := repeat ensure_step.
Create HintDb ensure discriminated.
#[export] Hint Constants Opaque : ensure.
#[export] Hint Variables Opaque : ensure.

(** The weakest liberal precondition: what holds if the computation ends normally. *)
Definition wlp {S A} (m : Prog S A) (Q : A -> S -> Prop) (s : S) : Prop :=
  match m s with Ok a s' => Q a s' | Aborted _ => True end.

Lemma wlp_bind {S A B} (m : Prog S A) (k : A -> Prog S B) Q s :
  wlp m (fun a => wlp (k a) Q) s -> wlp (m ≫= k) Q s.
Proof. unfold wlp, mbind, Prog_bind. by destruct (m s). Qed.

Lemma wlp_mono {S A} (m : Prog S A) (Q Q' : A -> S -> Prop) s :
  (forall a s', Q a s' -> Q' a s') -> wlp m Q s -> wlp m Q' s.
Proof. intros HQ. unfold wlp. destruct (m s); auto. Qed.

Lemma wlp_ensures {S A} (m : Prog S A) R (Q : A -> S -> Prop) s :
  ensures m R -> (forall a s', R s s' -> Q a s') -> wlp m Q s.
Proof. intros Hm HQ. unfold wlp. destruct (m s) eqn:Hs; [|done]. by apply HQ, (Hm _ _ _ Hs). Qed.

Lemma wlp_ok {S A} (m : Prog S A) Q s a s' : wlp m Q s -> m s = Ok a s' -> Q a s'.
Proof. unfold wlp. intros HQ Hm. by rewrite Hm in HQ. Qed.

Lemma wlp_ret {S A} (a : A) (Q : A -> S -> Prop) s : Q a s -> wlp (mret a) Q s.
Proof. done. Qed.
Lemma wlp_gets {S A} (f : S -> A) (Q : A -> S -> Prop) s : Q (f s) s -> wlp (pgets f) Q s.
Proof. done. Qed.
Lemma wlp_modify {S} (f : S -> S) (Q : unit -> S -> Prop) s : Q tt (f s) -> wlp (pmodify f) Q s.
Proof. done. Qed.
Lemma wlp_skip {S} (Q : unit -> S -> Prop) s : Q tt s -> wlp pskip Q s.
Proof. done. Qed.
Lemma wlp_abort {S A} c (Q : A -> S -> Prop) s : wlp (abort c) Q s.
Proof. done. Qed.
Lemma wlp_when {S} b (m : Prog S unit) Q s :
  (b = true -> wlp m Q s) -> (b = false -> Q tt s) -> wlp (pwhen b m) Q s.
Proof. destruct b; intros H1 H2; [by apply H1 | by apply H2]. Qed.
Lemma wlp_assert {S} b (Q : unit -> S -> Prop) s : (b = true -> Q tt s) -> wlp (passert b) Q s.
Proof. destruct b; intros HQ; [by apply HQ | done]. Qed.
