(* ===== verification/Stub.v ===== *)
(** The servers of an application: [CServer] and its generated subclass.

    [src/base/CServer.cpp], [include/dsi/CServer.hpp] and the parts of the generated
    stub that [CServer] calls as virtual functions
    ([src/gen/templates/CDSIStub.cpp.jet]).  The code of the user, called from
    requests, is a program over the protected functions of the stub; it may be any
    such program, and may differ from call to call.

    [mUnblockedSessions] and [mActiveSessions] are a finite map and a set, the set of
    client connections the list of its elements in its order.  The state bits of the
    responses are the set of the dangling ones; [std::bitset] is indexed by ids above
    [0x80000000], which selects distinct bits as long as the interface has at most 32
    responses. *)

From S2P Require Import Prelude.
From S2P Require Import Types.
From S2P Require Import Buffer.
From S2P Require Import Stream.
From S2P Require Import Message.
From S2P Require Import Runtime.

(** ** Constants of DSI.hpp *)

Definition RESPONSE_ID_FIRST : Z := 0x80000000.
Definition RESPONSE_ID_LAST : Z := 0xbfffffff.
Definition ATTRIBUTE_ID_FIRST : Z := 0xc0000000.
Definition ATTRIBUTE_ID_LAST : Z := 0xffffffff.
Definition INVALID_SEQUENCE_NR : Z := 0.
Definition INVALID_SESSION_ID : Z := -1.
Definition INVALID_ID : Z := ATTRIBUTE_ID_LAST.

Definition isAttributeId (id : Z) : bool := (ATTRIBUTE_ID_FIRST <=? id) && (id <=? ATTRIBUTE_ID_LAST).
Definition isResponseId (id : Z) : bool := (RESPONSE_ID_FIRST <=? id) && (id <=? RESPONSE_ID_LAST).

Inductive RequestType :=
  | REQUEST | REQUEST_NOTIFY | REQUEST_STOP_NOTIFY | REQUEST_LOAD_COMPONENT
  | REQUEST_STOP_ALL_NOTIFY | REQUEST_REGISTER_NOTIFY | REQUEST_STOP_REGISTER_NOTIFY
  | REQUEST_STOP_ALL_REGISTER_NOTIFY.
#[export] Instance RequestType_eq_dec : EqDecision RequestType.
Proof. solve_decision. Defined.

Definition RequestType_value (t : RequestType) : Z :=
  match t with
  | REQUEST => 0x100 | REQUEST_NOTIFY => 0x101 | REQUEST_STOP_NOTIFY => 0x102
  | REQUEST_LOAD_COMPONENT => 0x103 | REQUEST_STOP_ALL_NOTIFY => 0x104
  | REQUEST_REGISTER_NOTIFY => 0x105 | REQUEST_STOP_REGISTER_NOTIFY => 0x106
  | REQUEST_STOP_ALL_REGISTER_NOTIFY => 0x107
  end.

Definition RequestType_of (v : Z) : option RequestType :=
  find_first (fun t => RequestType_value t =? v)
    [REQUEST; REQUEST_NOTIFY; REQUEST_STOP_NOTIFY; REQUEST_LOAD_COMPONENT; REQUEST_STOP_ALL_NOTIFY;
     REQUEST_REGISTER_NOTIFY; REQUEST_STOP_REGISTER_NOTIFY; REQUEST_STOP_ALL_REGISTER_NOTIFY].

Inductive ResultType :=
  | RESULT_OK | RESULT_INVALID | RESULT_DATA_OK | RESULT_DATA_INVALID | RESULT_REQUEST_ERROR
  | RESULT_REQUEST_BUSY.

Definition ResultType_value (t : ResultType) : Z :=
  match t with
  | RESULT_OK => 0x200 | RESULT_INVALID => 0x201 | RESULT_DATA_OK => 0x202
  | RESULT_DATA_INVALID => 0x203 | RESULT_REQUEST_ERROR => 0x204 | RESULT_REQUEST_BUSY => 0x205
  end.

Inductive DataStateType := DATA_NOT_AVAILABLE | DATA_INVALID | DATA_OK.
#[export] Instance DataStateType_eq_dec : EqDecision DataStateType.
Proof. solve_decision. Defined.

Definition UPDATE_COMPLETE : Z := 0.

(** ** Data *)

Record ClientConnection := mkClientConn {
  cc_id : Z;
  cc_clientID : SPartyID;
  cc_serverID : SPartyID;
  cc_notificationID : Z;
  cc_channel : option Z;
  cc_protoMinor : Z;
}.

Record SessionData := mkSession {
  sd_sessionId : Z;
  sd_clientID : SPartyID;
  sd_sequenceNr : Z;
  sd_updateId : Z;
}.
#[export] Instance Eta_SessionData : Eta SessionData := fun s =>
  mkSession (sd_sessionId s) (sd_clientID s) (sd_sequenceNr s) (sd_updateId s).

(** [CServer::Notification]; the inherited [updateId] is never used. *)
Record SNotification := mkSNotification {
  sn_sessionId : Z;
  sn_clientID : SPartyID;
  sn_sequenceNr : Z;
  sn_notifyID : Z;
}.
#[export] Instance SNotification_eq_dec : EqDecision SNotification.
Proof. solve_decision. Defined.

Record CServer := mkServer {
  sv_mId : Z;
  sv_mIfDescription : SFNDInterfaceDescription;
  sv_mClientID : SPartyID;
  sv_mServerID : SPartyID;
  sv_mTCPServerID : SPartyID;
  sv_mCommEngine : bool;
  sv_mCurrentSequenceNr : Z;
  sv_mSessionId : Z;
  sv_mResponseId : Z;
  sv_mClientConnections : list ClientConnection;
  sv_mNotifications : list SNotification;
  sv_mUnblockedSessions : gmap Z SNotification;
  sv_mSessions : list SessionData;
  sv_mActiveSessions : gset Z;
  sv_mUserGroup : bytes;
  sv_mTCPIPEnabled : bool;
  sv_mResponseStateMap : gset Z;
  sv_attributes : gmap Z (DataStateType * bytes);   (* state and value of the attributes *)
}.
#[export] Instance Eta_CServer : Eta CServer := fun s =>
  mkServer (sv_mId s) (sv_mIfDescription s) (sv_mClientID s) (sv_mServerID s) (sv_mTCPServerID s)
    (sv_mCommEngine s) (sv_mCurrentSequenceNr s) (sv_mSessionId s) (sv_mResponseId s)
    (sv_mClientConnections s) (sv_mNotifications s) (sv_mUnblockedSessions s) (sv_mSessions s)
    (sv_mActiveSessions s) (sv_mUserGroup s) (sv_mTCPIPEnabled s) (sv_mResponseStateMap s)
    (sv_attributes s).

Definition NO_PARTY : SPartyID := mkParty 0 0.

(** The constructor, [id] being the value [createId] returned. *)
Definition CServer_new `{AppEnv} (id : Z) (ifDescription : SFNDInterfaceDescription) (enableTCPIP : bool)
    (attributes : gmap Z (DataStateType * bytes)) : CServer :=
  mkServer id ifDescription NO_PARTY NO_PARTY NO_PARTY false INVALID_SEQUENCE_NR INVALID_SESSION_ID
    INVALID_ID [] [] ∅ [] ∅ [] (enableTCPIP || env_force_tcp) ∅ attributes.

(** ** The generated stub and the user's code *)

(** What a method of the user may call. *)
Inductive UserProg :=
  | U_done
  | U_unblockRequest (k : Z -> UserProg)
  | U_prepareResponse (handle : Z) (k : UserProg)
  | U_respond (responseId : Z) (payload : bytes) (k : UserProg)
  | U_sendError (id : Z) (err : option Z) (k : UserProg)
  | U_setAttribute (id : Z) (value : bytes) (type position count : Z) (changed : bool) (k : UserProg)
  | U_setAttributeState (id : Z) (state : DataStateType) (k : UserProg)
  | U_registerCurrentSession (k : Z -> UserProg)
  | U_addActiveSession (sessionId : Z) (k : UserProg)
  | U_clearActiveSessions (k : UserProg).

Inductive MethodKind := M_request | M_register | M_unregister.

Class StubEnv := {
  st_getResponse : Z -> Z;                     (* the response of a request, or INVALID_ID *)
  st_method : Z -> option MethodKind;          (* the requests of the interface *)
  st_implVersion : Z;                          (* UPD_ID_implVersion *)
  st_decode : Z -> bytes -> Outcome bool;      (* reading the parameters of a request: no error *)
  st_write : Z -> bytes -> Z -> Z -> Z -> bytes;   (* an attribute's value, streamed *)
  st_user : nat -> UserProg;                   (* the user's methods *)
  st_grows : nat -> bool;                      (* push_back on a vector of that size reallocates *)
  st_junk : nat -> Z;                          (* uninitialised memory *)
}.

(** ** Searching the containers *)

(** [mClientConnections.find(ClientConnection(clientID))]. *)
Definition connection_of (clientID : SPartyID) (l : list ClientConnection) : option ClientConnection :=
  find_first (fun c => global_eqb (cc_clientID c) clientID) l.

(** [mClientConnections.insert(conn)]: nothing when the client is there already. *)
Fixpoint insert_connection (conn : ClientConnection) (l : list ClientConnection) : list ClientConnection :=
  match l with
  | [] => [conn]
  | c :: l' =>
    if globalID (cc_clientID conn) <? globalID (cc_clientID c) then conn :: c :: l'
    else if globalID (cc_clientID c) <? globalID (cc_clientID conn) then c :: insert_connection conn l'
    else c :: l'
  end.

(** [mClientConnections.erase(iter)] of the client's element. *)
Definition erase_connection (clientID : SPartyID) (l : list ClientConnection) : list ClientConnection :=
  erase_first (fun c => global_eqb (cc_clientID c) clientID) l.

(** [findSession]: the index of the session, searched from the back, or -1. *)
Definition findSession (seqNr : Z) (clientID : SPartyID) (l : list SessionData) : Z :=
  if seqNr =? INVALID_SEQUENCE_NR then -1
  else find_last (fun s => party_eqb (sd_clientID s) clientID && (sd_sequenceNr s =? seqNr)) l.

(** [erase(begin() + idx)] on a vector of [size] elements, with the storage behind
    them: the elements behind [idx] move down and the storage of the last one keeps
    its value. *)
Definition vec_erase {A} (idx size : nat) (store : list A) : list A :=
  take idx store ++ take (size - S idx) (drop (S idx) store) ++ drop (size - 1) store.

(** A [const SPartyID&]: a value of its own, or the client of a notification. *)
Inductive PartyRef := R_value (p : SPartyID) | R_notification (idx : nat).

Definition deref (r : PartyRef) (store : list SNotification) : option SPartyID :=
  match r with
  | R_value p => Some p
  | R_notification idx => sn_clientID <$> store !! idx
  end.

(** The loop of [removeNotification(clientID, id)], from index [idx - 1] down. *)
Fixpoint remove_loop (ref : PartyRef) (id : Z) (idx size : nat) (store : list SNotification) :
    nat * list SNotification :=
  match idx with
  | O => (size, store)
  | S idx =>
    match store !! idx, deref ref store with
    | Some n, Some clientID =>
      if party_eqb (sn_clientID n) clientID && ((INVALID_ID =? id) || (sn_notifyID n =? id))
      then remove_loop ref id idx (size - 1) (vec_erase idx size store)
      else remove_loop ref id idx size store
    | _, _ => (size, store)
    end
  end.

Definition removed (ref : PartyRef) (id : Z) (l : list SNotification) : list SNotification :=
  let '(size, store) := remove_loop ref id (length l) (length l) l in take size store.

(** ** The operations of [CServer] *)

Section server.
Context `{AppEnv} `{StubEnv}.

Abbreviation SrvM := (Prog (CServer * Net)).

Definition on_net {A} (m : Prog Net A) : SrvM A := zoom snd (fun n t => (t.1, n)) m.
Definition self {A} (f : CServer -> A) : SrvM A := pgets (fun t => f t.1).
Definition change (f : CServer -> CServer) : SrvM unit := pmodify (fun t => (f t.1, t.2)).

Definition getResponseState (responseId : Z) : SrvM bool :=
  self (fun s => bool_decide (responseId ∈ sv_mResponseStateMap s)).

Definition setResponseState (responseId : Z) (value : bool) : SrvM unit :=
  change (fun s => s <| sv_mResponseStateMap ::= fun m => if value then {[responseId]} ∪ m else m ∖ {[responseId]} |>).

(** [getAttributeState] of the generated stub: any other id fails an assertion. *)
Definition getAttributeState (id : Z) : SrvM DataStateType :=
  if id =? st_implVersion then mret DATA_NOT_AVAILABLE
  else
    st ← self (fun s => sv_attributes s !! id);
    match st with Some (st, _) => mret st | None => abort C_assert end.

Definition setAttributeState (id : Z) (state : DataStateType) : SrvM unit :=
  if id =? st_implVersion then pskip
  else
    st ← self (fun s => sv_attributes s !! id);
    match st with
    | Some (_, v) => change (fun s => s <| sv_attributes ::= <[id := (state, v)]> |>)
    | None => abort C_assert
    end.

(** [writeAttribute]: the bytes written. *)
Definition writeAttribute (id type position count : Z) : SrvM bytes :=
  if id =? st_implVersion then abort C_assert
  else
    st ← self (fun s => sv_attributes s !! id);
    match st with
    | Some (_, v) => mret (st_write id v type position count)
    | None => abort C_assert
    end.

Definition removeNotification (clientID : PartyRef) (id : Z) : SrvM unit :=
  change (fun s => s <| sv_mNotifications ::= removed clientID id |>).

Definition findClientConnection (clientID : PartyRef) : SrvM (option ClientConnection) :=
  p ← self (fun s => deref clientID (sv_mNotifications s));
  match p with
  | None => abort C_range
  | Some p =>
    conn ← self (fun s => connection_of p (sv_mClientConnections s));
    match conn with
    | Some c => mret (Some c)
    | None => removeNotification clientID INVALID_ID;; mret None
    end
  end.

(** [conn && !conn->channel.expired()]: the locked channel. *)
Definition locked_channel (conn : option ClientConnection) : SrvM (option Z) :=
  match conn with
  | Some c =>
    dead ← pgets (fun t => expired (cc_channel c) t.2);
    if dead : bool then mret None else mret (cc_channel c)
  | None => mret None
  end.

(** [assert(!conn->channel.expired())] of the else branches. *)
Definition assert_channel (conn : option ClientConnection) : SrvM unit :=
  match conn with
  | None => abort C_null
  | Some c => dead ← pgets (fun t => expired (cc_channel c) t.2); passert (negb dead)
  end.

(** A response writer on a connection, written and flushed.  The packet depends on the
    writer's header and event info only, and not on the heap its buffer is on. *)
Definition send_response (ch : Z) (typ : ResultType) (id seqNr : Z) (clientID : SPartyID)
    (conn : ClientConnection) (payload : bytes) : SrvM unit :=
  on_net (send_packet ch (packet_of
    (CRequestWriter_response (ResultType_value typ) id DataResponse seqNr clientID (cc_serverID conn)
       (cc_protoMinor conn)) payload));;
  mret tt.

Definition sendErrorToClient (clientID : SPartyID) (id : Z) (type : ResultType) (seqNr : Z) : SrvM unit :=
  conn ← findClientConnection (R_value clientID);
  ch ← locked_channel conn;
  match conn, ch with
  | Some c, Some ch => send_response ch type id seqNr (cc_clientID c) c (le_bytes 4 0)
  | _, _ => assert_channel conn
  end.

(** The loop of [sendNotification], [fuel] being the iterations left. *)
Fixpoint notification_loop (fuel idx : nat) (id type position count : Z) : SrvM unit :=
  match fuel with
  | O => pskip
  | S fuel =>
    n ← self (fun s => sv_mNotifications s !! idx);
    match n with
    | None => pskip     (* idx < size() *)
    | Some n =>
      (if sn_notifyID n =? id then
         conn ← findClientConnection (R_notification idx);
         ch ← locked_channel conn;
         match conn, ch with
         | Some c, Some ch =>
           st ← getAttributeState id;
           let rtyp := if decide (st = DATA_OK) then RESULT_DATA_OK else RESULT_DATA_INVALID in
           data ← (if decide (st = DATA_OK) then writeAttribute id type position count else mret []);
           send_response ch rtyp id INVALID_SEQUENCE_NR (cc_clientID c) c data
         | _, _ => assert_channel conn
         end
       else pskip);;
      notification_loop fuel (S idx) id type position count
    end
  end.

Definition sendNotification (id type position count : Z) : SrvM unit :=
  n ← self (fun s => length (sv_mNotifications s));
  notification_loop n 0 id type position count.

Definition isSessionActive (sessionId : Z) (s : CServer) : bool := bool_decide (sessionId ∈ sv_mActiveSessions s).

(** [mNotifications[idx].sequenceNr != INVALID && .sessionId == INVALID]. *)
Definition one_shot (n : SNotification) : bool :=
  negb (sn_sequenceNr n =? INVALID_SEQUENCE_NR) && (sn_sessionId n =? INVALID_SESSION_ID).

(** [notifyID == responseId && (sessionId == INVALID || isSessionActive(sessionId))]. *)
Definition listens (responseId : Z) (s : CServer) (n : SNotification) : bool :=
  (sn_notifyID n =? responseId) &&
  ((sn_sessionId n =? INVALID_SESSION_ID) || isSessionActive (sn_sessionId n) s).

(** The loop of [sendResponse] and of the generated response methods, from index
    [idx - 1] down; only the former asserts when there is no connection. *)
Fixpoint response_loop (generated : bool) (idx : nat) (responseId id : Z) (typ : ResultType)
    (payload : bytes) : SrvM unit :=
  match idx with
  | O => pskip
  | S idx =>
    n ← self (fun s => sv_mNotifications s !! idx);
    match n with
    | None => abort C_range
    | Some n =>
      ok ← self (fun s => listens responseId s n);
      (if ok : bool then
         conn ← findClientConnection (R_notification idx);
         ch ← locked_channel conn;
         match conn, ch with
         | Some c, Some ch =>
           send_response ch typ id (sn_sequenceNr n) (sn_clientID n) c payload;;
           pwhen (one_shot n) (change (fun s => s <| sv_mNotifications ::= delete idx |>))
         | _, _ => if generated then pskip else assert_channel conn
         end
       else pskip);;
      response_loop generated idx responseId id typ payload
    end
  end.

Definition end_response (responseId : Z) : SrvM unit :=
  cur ← self sv_mResponseId;
  pwhen (cur =? responseId) (change (fun s => s <| sv_mResponseId := INVALID_ID |>)).

Definition sendResponse (responseId id : Z) (typ : ResultType) (err : option Z) : SrvM unit :=
  n ← self (fun s => length (sv_mNotifications s));
  response_loop false n responseId id typ (match err with Some e => le_bytes 4 e | None => [] end);;
  end_response responseId.

(** A response method of the generated stub; the id it sends is [notifyID], which is
    the response's. *)
Definition respond (responseId : Z) (payload : bytes) : SrvM unit :=
  setResponseState responseId false;;
  n ← self (fun s => length (sv_mNotifications s));
  response_loop true n responseId responseId RESULT_OK payload;;
  end_response responseId.

(** [sendError] of the generated stub. *)
Definition sendError (id : Z) (err : option Z) : SrvM unit :=
  if isAttributeId id then
    st ← getAttributeState id;
    pwhen (negb (bool_decide (st = DATA_INVALID)))
      (setAttributeState id DATA_INVALID;;
       sendNotification id UPDATE_COMPLETE (-1) (-1))
  else
    let '(typ, responseId) :=
      if isResponseId id then (RESULT_INVALID, id) else (RESULT_REQUEST_ERROR, st_getResponse id) in
    pwhen (negb (INVALID_ID =? responseId))
      (setResponseState responseId false;;
       sendResponse responseId id typ err).

(** [unblockRequest]. *)
Definition unblockRequest : SrvM Z :=
  seq ← self sv_mCurrentSequenceNr;
  passert (negb (seq =? INVALID_SEQUENCE_NR));;
  resp ← self sv_mResponseId;
  if negb (INVALID_ID =? resp) then
    s ← self id;
    let idx := find_last (fun n => (sn_notifyID n =? resp) && (sn_sessionId n =? INVALID_SESSION_ID)
                                   && party_eqb (sn_clientID n) (sv_mClientID s)) (sv_mNotifications s) in
    handle ← match (if 0 <=? idx then sv_mNotifications s !! Z.to_nat idx else None) with
             | Some n =>
               h ← on_net createId;
               change (fun s => s <| sv_mUnblockedSessions ::= <[i32 h := n]> |>
                                  <| sv_mNotifications ::= delete (Z.to_nat idx) |>);;
               mret (i32 h)
             | None => mret INVALID_SESSION_ID
             end;
    setResponseState resp false;;
    change (fun s => s <| sv_mResponseId := INVALID_ID |> <| sv_mCurrentSequenceNr := INVALID_SEQUENCE_NR |>);;
    mret handle
  else mret INVALID_SESSION_ID.

(** [prepareResponse]. *)
Definition prepareResponse (handle : Z) : SrvM unit :=
  resp ← self sv_mResponseId;
  passert (INVALID_ID =? resp);;
  n ← self (fun s => sv_mUnblockedSessions s !! handle);
  match n with
  | Some n =>
    change (fun s => s <| sv_mUnblockedSessions ::= delete handle |> <| sv_mResponseId := sn_notifyID n |>
                       <| sv_mClientID := sn_clientID n |> <| sv_mNotifications ::= fun l => l ++ [n] |>);;
    setResponseState (sn_notifyID n) true
  | None => pskip
  end.

(** [mSessions.push_back(sd)]: the copy constructor leaves [updateId] uninitialised,
    for [sd] and, when the vector is reallocated, for all elements. *)
Definition push_session (sd : SessionData) : SrvM unit :=
  t ← on_net next_tick;
  let lose (s : SessionData) := s <| sd_updateId := st_junk t |> in
  change (fun s => s <| sv_mSessions ::= fun l =>
            (if st_grows (length l) then map lose l else l) ++ [lose sd] |>).

(** [std::remove_if] with nothing erased behind it. *)
Definition removeSessionNotifications (sessionId : Z) : SrvM unit :=
  change (fun s => s <| sv_mNotifications ::= fun l =>
            let kept := filter (fun n => sn_sessionId n <> sessionId) l in
            kept ++ drop (length kept) l |>).

Definition removeSession (sessionId : Z) : SrvM unit :=
  removeSessionNotifications sessionId;;
  change (fun s => s <| sv_mSessions ::= erase_first (fun sd => sd_sessionId sd =? sessionId) |>).

Definition removeUnblockedSessions (clientID : SPartyID) : SrvM unit :=
  change (fun s => s <| sv_mUnblockedSessions ::= filter (fun kv => party_eqb (sn_clientID kv.2) clientID = false) |>).

(** The user's code. *)
Fixpoint run_user (u : UserProg) : SrvM unit :=
  match u with
  | U_done => pskip
  | U_unblockRequest k => h ← unblockRequest; run_user (k h)
  | U_prepareResponse handle k => prepareResponse handle;; run_user k
  | U_respond responseId payload k => respond responseId payload;; run_user k
  | U_sendError id err k => sendError id err;; run_user k
  | U_setAttribute id value type position count changed k =>
    change (fun s => s <| sv_attributes ::= <[id := (DATA_OK, value)]> |>);;
    pwhen changed (sendNotification id type position count);;
    run_user k
  | U_setAttributeState id state k => setAttributeState id state;; run_user k
  | U_registerCurrentSession k =>
    sid ← self sv_mSessionId;
    passert (negb (sid =? INVALID_SESSION_ID));;
    run_user (k sid)
  | U_addActiveSession sessionId k =>
    change (fun s => s <| sv_mActiveSessions ::= fun a => {[sessionId]} ∪ a |>);;
    run_user k
  | U_clearActiveSessions k => change (fun s => s <| sv_mActiveSessions := ∅ |>);; run_user k
  end.

Definition call_user (e : Z -> Effect) : SrvM unit :=
  t ← on_net next_tick;
  me ← self sv_mId;
  on_net (log_effect (e me));;
  run_user (st_user t).

(** A data request as its handle presents it. *)
Record DataHandle := mkDataHandle {
  dh_clientID : SPartyID;
  dh_protoMinor : Z;
  dh_requestType : Z;
  dh_requestId : Z;
  dh_sequenceNumber : Z;
  dh_payload : bytes;
}.

(** Unmarshalling the parameters and calling the method. *)
Definition call_method (h : DataHandle) : SrvM unit :=
  match st_decode (dh_requestId h) (dh_payload h) with
  | Done true => call_user (fun me => E_request me (dh_requestId h) (dh_payload h))
  | Done false => pskip
  | Thrown => abort C_exception
  | Undefined => abort C_range
  end.

(** [processRequest] of the generated stub. *)
Definition processRequest (h : DataHandle) : SrvM unit :=
  match st_method (dh_requestId h) with
  | None => pskip
  | Some M_request => call_method h
  | Some kind =>
    s ← self id;
    let idx := findSession (dh_sequenceNumber h) (sv_mClientID s) (sv_mSessions s) in
    let session := if 0 <=? idx then sv_mSessions s !! Z.to_nat idx else None in
    match session with
    | Some sd => change (fun s => s <| sv_mSessionId := sd_sessionId sd |>)
    | None => pskip
    end;;
    sid ← self sv_mSessionId;
    match kind with
    | M_unregister =>
      pwhen (negb (sid =? INVALID_SESSION_ID))
        (call_user (fun me => E_unregistered me sid);;
         cur ← self sv_mSessionId;
         removeSession cur)
    | _ =>
      (if sid =? INVALID_SESSION_ID then
         new ← on_net createId;
         push_session (mkSession (i32 new) (sv_mClientID s) (dh_sequenceNumber h) (dh_requestId h));;
         change (fun s => s <| sv_mSessionId := i32 new |>)
       else match session with
            | Some _ => change (fun s => s <| sv_mSessions ::=
                          alter (fun sd => sd <| sd_updateId := dh_requestId h |>) (Z.to_nat idx) |>)
            | None => abort C_null
            end);;
      call_method h
    end;;
    change (fun s => s <| sv_mSessionId := INVALID_SESSION_ID |>)
  end.

(** The loop of [removeAllSessions]; every step takes a session off or passes it. *)
Fixpoint sessions_loop (fuel i : nat) (clientID : SPartyID) : SrvM unit :=
  match fuel with
  | O => pskip
  | S fuel =>
    sd ← self (fun s => sv_mSessions s !! i);
    match sd with
    | None => pskip
    | Some sd =>
      if party_eqb (sd_clientID sd) clientID then
        change (fun s => s <| sv_mCurrentSequenceNr := sd_sequenceNr sd |>);;
        match st_method (sd_updateId sd) with
        | Some M_register => call_user (fun me => E_unregistered me (sd_sessionId sd))
        | _ => pskip
        end;;
        change (fun s => s <| sv_mCurrentSequenceNr := INVALID_SEQUENCE_NR |>
                           <| sv_mSessions ::= delete i |>);;
        sessions_loop fuel i clientID
      else sessions_loop fuel (S i) clientID
    end
  end.

Definition removeAllSessions (clientID : SPartyID) : SrvM unit :=
  change (fun s => s <| sv_mClientID := clientID |>);;
  n ← self (fun s => length (sv_mSessions s));
  sessions_loop n 0 clientID;;
  change (fun s => s <| sv_mClientID := NO_PARTY |>).

Definition dangling (responseId : Z) : SrvM bool :=
  if negb (INVALID_ID =? responseId) then getResponseState responseId else mret false.

(** The branch for [REQUEST]. *)
Definition handle_request (h : DataHandle) : SrvM unit :=
  let responseId := st_getResponse (dh_requestId h) in
  busy ← dangling responseId;
  if busy : bool then
    sendErrorToClient (dh_clientID h) (dh_requestId h) RESULT_REQUEST_BUSY (dh_sequenceNumber h)
  else
    change (fun s => s <| sv_mResponseId := responseId |>);;
    pwhen (negb (INVALID_ID =? responseId))
      (change (fun s => s <| sv_mNotifications ::= fun l => l ++
         [mkSNotification INVALID_SESSION_ID (dh_clientID h) (dh_sequenceNumber h) responseId] |>);;
       setResponseState responseId true);;
    change (fun s => s <| sv_mClientID := dh_clientID h |> <| sv_mCurrentSequenceNr := dh_sequenceNumber h |>);;
    processRequest h;;
    change (fun s => s <| sv_mResponseId := INVALID_ID |> <| sv_mCurrentSequenceNr := INVALID_SEQUENCE_NR |>
                       <| sv_mClientID := NO_PARTY |>).

(** Has the client this notification already? *)
Definition notified (h : DataHandle) (s : CServer) : bool :=
  existsb (fun n => party_eqb (sn_clientID n) (dh_clientID h) && (sn_notifyID n =? dh_requestId h) &&
                    ((dh_requestType h =? RequestType_value REQUEST_NOTIFY) ||
                     (sn_sequenceNr n =? dh_sequenceNumber h))) (sv_mNotifications s).

(** The new notification of [REQUEST_NOTIFY] and [REQUEST_REGISTER_NOTIFY]. *)
Definition add_notification (h : DataHandle) : SrvM unit :=
  let plain := mkSNotification INVALID_SESSION_ID (dh_clientID h) INVALID_SEQUENCE_NR (dh_requestId h) in
  n ← (if dh_requestType h =? RequestType_value REQUEST_REGISTER_NOTIFY then
         l ← self sv_mSessions;
         let idx := findSession (dh_sequenceNumber h) (dh_clientID h) l in
         sid ← match (if 0 <=? idx then l !! Z.to_nat idx else None) with
               | Some sd => mret (sd_sessionId sd)
               | None =>
                 new ← on_net createId;
                 push_session (mkSession (i32 new) (dh_clientID h) (dh_sequenceNumber h) INVALID_ID);;
                 mret (i32 new)
               end;
         mret (mkSNotification sid (dh_clientID h) (dh_sequenceNumber h) (dh_requestId h))
       else mret plain);
  change (fun s => s <| sv_mNotifications ::= fun l => l ++ [n] |>).

(** The branch for [REQUEST_NOTIFY] and [REQUEST_REGISTER_NOTIFY]. *)
Definition handle_notify (h : DataHandle) : SrvM unit :=
  found ← self (notified h);
  pwhen (negb found) (add_notification h);;
  pwhen (isAttributeId (dh_requestId h))
    (st ← getAttributeState (dh_requestId h);
     match st with
     | DATA_OK =>
       conn ← findClientConnection (R_value (dh_clientID h));
       ch ← locked_channel conn;
       match conn, ch with
       | Some c, Some ch =>
         data ← writeAttribute (dh_requestId h) UPDATE_COMPLETE (-1) (-1);
         send_response ch RESULT_DATA_OK (dh_requestId h) INVALID_SEQUENCE_NR (cc_clientID c) c data
       | _, _ => assert_channel conn
       end
     | _ =>
       st ← getAttributeState (dh_requestId h);
       pwhen (bool_decide (st = DATA_INVALID))
         (sendNotification (dh_requestId h) UPDATE_COMPLETE (-1) (-1))
     end).

Definition handleDataRequest (h : DataHandle) : SrvM unit :=
  conn ← findClientConnection (R_value (dh_clientID h));
  let isProtoMinor := match conn with Some c => cc_protoMinor c | None => DSI_PROTOCOL_VERSION_MINOR end in
  if negb (isProtoMinor =? dh_protoMinor h) then pskip
  else
    match RequestType_of (dh_requestType h) with
    | Some REQUEST => handle_request h
    | Some REQUEST_NOTIFY | Some REQUEST_REGISTER_NOTIFY => handle_notify h
    | Some REQUEST_STOP_NOTIFY | Some REQUEST_STOP_REGISTER_NOTIFY =>
      removeNotification (R_value (dh_clientID h)) (dh_requestId h)
    | Some REQUEST_STOP_ALL_NOTIFY => removeNotification (R_value (dh_clientID h)) INVALID_ID
    | Some REQUEST_STOP_ALL_REGISTER_NOTIFY =>
      l ← self sv_mSessions;
      let idx := findSession (dh_sequenceNumber h) (dh_clientID h) l in
      match (if 0 <=? idx then l !! Z.to_nat idx else None) with
      | Some sd => removeSessionNotifications (sd_sessionId sd)
      | None => pskip
      end
    | _ => pskip
    end.

(** ** Connections *)

(** A connect request: the two words of its info are the process and channel of a
    local client, or the address and port of a TCP client. *)
Record ConnectHandle := mkConnectHandle {
  ch_header : MessageHeader;
  ch_channel : Z;
  ch_info : Z * Z;
}.

Definition info_words (i : Z * Z) : bytes := le_bytes 4 i.1 ++ le_bytes 4 i.2.

(** The record and the notification of a new client connection. *)
Definition add_connection (hdr : MessageHeader) (channel : option Z) : SrvM Z :=
  let isprotoMinor := DSI_PROTOCOL_VERSION_MINOR in
  let protoMinor := if mh_protoMinor hdr <? isprotoMinor then mh_protoMinor hdr else isprotoMinor in
  new ← on_net createId;
  let id := i32 new in
  chid ← on_net (pgets n_notifyChid);
  nid ← on_net (sb_setClientDetachNotification (mh_clientID hdr) chid id);
  change (fun s => s <| sv_mClientConnections ::=
    insert_connection (mkClientConn id (mh_clientID hdr) (mh_serverID hdr) nid channel protoMinor) |>);;
  mret protoMinor.

(** [ConnectResponse] with its header, as one raw vector. *)
Definition connect_response (hdr : MessageHeader) (protoMinor : Z) (info : Z * Z) : Packet :=
  mkPacket (MessageHeader_new (mh_serverID hdr) (mh_clientID hdr) ConnectResponse protoMinor 8) None
    (info_words info).

Definition handleConnectRequest (h : ConnectHandle) : SrvM unit :=
  channel ← on_net (attach (i32 (ch_info h).1) (i32 (ch_info h).2));
  protoMinor ← add_connection (ch_header h) channel;
  chid ← on_net (pgets n_localChid);
  on_net (send_packet (ch_channel h) (connect_response (ch_header h) protoMinor (u32 env_pid, u32 chid)));;
  mret tt.

(** The address the server replies with: that of the socket the request came through,
    and the engine's port. *)
Definition reply_address : SrvM (option (Z * Z)) :=
  t ← on_net next_tick;
  match env_localName t with
  | None => mret None
  | Some ip => port ← on_net getIPPort; mret (Some (u32 ip, u32 port))
  end.

Definition handleConnectRequestTCP (h : ConnectHandle) : SrvM unit :=
  enabled ← self sv_mTCPIPEnabled;
  if enabled : bool then
    channel ← on_net (attachTCP (ch_info h).1 (ch_info h).2 false);
    protoMinor ← add_connection (ch_header h) channel;
    ep ← reply_address;
    match ep with
    | None => pskip
    | Some info =>
      on_net (send_packet (ch_channel h) (connect_response (ch_header h) protoMinor info));; mret tt
    end
  else pskip.

Definition handleLegacyConnectRequestTCP (h : ConnectHandle) : SrvM unit :=
  enabled ← self sv_mTCPIPEnabled;
  info ← (if enabled : bool then
            channel ← on_net (attachTCP (ch_info h).1 (ch_info h).2 false);
            add_connection (ch_header h) channel;;
            ep ← reply_address;
            mret (default (0, 0) ep)
          else mret (0, 0));
  on_net (send_raw (ch_channel h) (info_words info));;
  mret tt.

(** What [handleDisconnectRequest] and [handleClientDetached] remove. *)
Definition cleanup_client (clientID : SPartyID) : SrvM unit :=
  removeNotification (R_value clientID) INVALID_ID;;
  removeAllSessions clientID;;
  removeUnblockedSessions clientID;;
  change (fun s => s <| sv_mClientConnections ::= erase_connection clientID |>).

Definition handleDisconnectRequest (clientID : SPartyID) : SrvM unit :=
  conn ← self (fun s => connection_of clientID (sv_mClientConnections s));
  match conn with
  | None => pskip
  | Some c =>
    pwhen (negb (cc_notificationID c =? 0)) (on_net (sb_clearNotification (cc_notificationID c)));;
    cleanup_client (cc_clientID c)
  end.

Definition handleClientDetached (id : Z) : SrvM bool :=
  conn ← self (fun s => find_first (fun c => cc_id c =? id) (sv_mClientConnections s));
  match conn with
  | None => mret false
  | Some c => cleanup_client (cc_clientID c);; mret true
  end.

(** ** Registration *)

Definition registerInterface (channel : Z) : SrvM unit :=
  s ← self id;
  r ← on_net (sb_registerInterface (sv_mIfDescription s) channel (sv_mUserGroup s) (sv_mServerID s));
  change (fun s => s <| sv_mServerID := r.2 |>).

Definition registerInterfaceTCP (address port : Z) : SrvM unit :=
  s ← self id;
  if sv_mTCPIPEnabled s && (0 <? port) then
    r ← on_net (sb_registerInterfaceTCP (sv_mIfDescription s) address (u32 port) (sv_mTCPServerID s));
    change (fun s => s <| sv_mTCPServerID := r.2 |>)
  else pskip.

Definition cleanupClientConnection (c : ClientConnection) : SrvM unit :=
  on_net (sb_clearNotification (cc_notificationID c));;
  removeNotification (R_value (cc_clientID c)) INVALID_ID.

Definition unregisterInterface : SrvM unit :=
  l ← self sv_mClientConnections;
  pfor l cleanupClientConnection;;
  change (fun s => s <| sv_mClientConnections := [] |>);;
  s ← self id;
  pwhen (negb (globalID (sv_mServerID s) =? 0))
    (on_net (sb_unregisterInterface (sv_mServerID s));;
     change (fun s => s <| sv_mServerID := NO_PARTY |>));;
  pwhen (negb (globalID (sv_mTCPServerID s) =? 0))
    (on_net (sb_unregisterInterface (sv_mTCPServerID s));;
     change (fun s => s <| sv_mTCPServerID := NO_PARTY |>)).
End server.
