(* ===== verification/Replies.v ===== *)
(** What a server sends, and to whom.

    The removal loop is a filter when the client id is a value, and is not when the id
    is read from the vector it erases from; the loops of the responses and of the
    attribute notifications reach exactly the listeners; a request gets its response,
    a second one in the meantime a busy error, and an unblocked one its response
    later. *)

From S2P Require Import Prelude.
From S2P Require Import Types.
From S2P Require Import Buffer.
From S2P Require Import Stream.
From S2P Require Import Message.
From S2P Require Import Runtime.
From S2P Require Import Stub.

(** ** The removal loop *)

(** The notifications [removeNotification(clientID, id)] is to remove. *)
Definition concerns (clientID : SPartyID) (id : Z) (n : SNotification) : bool :=
  party_eqb (sn_clientID n) clientID && ((INVALID_ID =? id) || (sn_notifyID n =? id)).

(** Erasing between the elements in front and the live ones behind. *)
Lemma vec_erase_split {A} (front back rest : list A) n :
  vec_erase (length front) (S (length front + length back)) (front ++ n :: back ++ rest) =
  front ++ back ++ drop (length back) (n :: back ++ rest).
Proof.
  unfold vec_erase. rewrite take_app_length. f_equal. f_equal.
  - rewrite drop_app_ge by lia. replace (S (length front) - length front)%nat with 1%nat by lia.
    cbn [drop]. apply take_app_length'. lia.
  - rewrite drop_app_ge by lia. f_equal. lia.
Qed.

Lemma remove_loop_value c id front back rest :
  let '(size, store) :=
    remove_loop (R_value c) id (length front) (length front + length back) (front ++ back ++ rest) in
  take size store = filter (fun n => concerns c id n = false) front ++ back.
Proof.
  revert back rest. induction front as [|n front IH] using rev_ind; intros back rest.
  - cbn. apply take_app_length.
  - rewrite length_app. cbn [length]. rewrite Nat.add_1_r. cbn [remove_loop deref Nat.add].
    rewrite <-app_assoc. cbn [app]. rewrite list_lookup_middle by done. fold (concerns c id n).
    rewrite filter_app. destruct (concerns c id n) eqn:Hc.
    + rewrite Nat.sub_1_r. cbn [Nat.pred]. rewrite vec_erase_split, filter_cons_False, filter_nil, app_nil_r by congruence.
      apply IH.
    + rewrite filter_cons_True, filter_nil by done. rewrite <-app_assoc. cbn [app].
      specialize (IH (n :: back) rest). cbn [length app] in IH. by rewrite Nat.add_succ_r in IH.
Qed.

(** With an id of its own, [removeNotification] removes what it is meant to. *)
Lemma removed_value c id l : removed (R_value c) id l = filter (fun n => concerns c id n = false) l.
Proof.
  unfold removed. pose proof (remove_loop_value c id l [] []) as H.
  cbn [length] in H. rewrite Nat.add_0_r, !app_nil_r in H. by destruct (remove_loop _ _ _ _ _).
Qed.

(** ** Sending to the listeners *)

Section replies.
Context `{AppEnv} `{StubEnv}.

(** The effects of sending packets, the first with call number [t]. *)
Fixpoint sends (t : nat) (msgs : list (Z * Packet)) : list Effect :=
  match msgs with
  | [] => []
  | (ch, p) :: msgs => E_send ch p (env_send t) :: sends (S t) msgs
  end.

(** The state of the transport after them. *)
Definition sent (msgs : list (Z * Packet)) (n : Net) : Net :=
  n <| n_tick := (n_tick n + length msgs)%nat |> <| n_log := n_log n ++ sends (n_tick n) msgs |>.

Lemma sends_app t a b : sends t (a ++ b) = sends t a ++ sends (t + length a) b.
Proof.
  revert t. induction a as [|[ch p] a IH]; intros t; cbn [sends app length]; [by rewrite Nat.add_0_r|].
  by rewrite IH, Nat.add_succ_r.
Qed.

Lemma sent_nil n : sent [] n = n.
Proof. destruct n. unfold sent. cbn. by rewrite Nat.add_0_r, app_nil_r. Qed.

Lemma sent_app a b n : sent (a ++ b) n = sent b (sent a n).
Proof. unfold sent. cbn. by rewrite length_app, sends_app, Nat.add_assoc, app_assoc. Qed.

Lemma send_packet_sent ch p n : ch <> 0 -> send_packet ch p n = Ok (env_send (n_tick n)) (sent [(ch, p)] n).
Proof.
  intros Hch. unfold send_packet. rewrite (proj2 (Z.eqb_neq _ _)) by done.
  destruct n. unfold sent. cbn. by rewrite Nat.add_1_r.
Qed.

(** A client that is connected through a channel that can be used. *)
Definition connected (s : CServer) (n : Net) (clientID : SPartyID) : Prop :=
  exists c ch, connection_of clientID (sv_mClientConnections s) = Some c /\ cc_channel c = Some ch /\
    ch <> 0 /\ alive ch n = true.

Lemma connected_sent s n clientID msgs : connected s (sent msgs n) clientID <-> connected s n clientID.
Proof. done. Qed.

(** The packet a notification's client gets. *)
Definition reply_to (s : CServer) (typ : ResultType) (id seqNr : Z) (payload : bytes)
    (clientID : SPartyID) (to : ClientConnection -> SPartyID) : option (Z * Packet) :=
  c ← connection_of clientID (sv_mClientConnections s);
  ch ← cc_channel c;
  Some (ch, packet_of (CRequestWriter_response (ResultType_value typ) id DataResponse seqNr (to c)
                         (cc_serverID c) (cc_protoMinor c)) payload).

Lemma findClientConnection_value p s n c :
  connection_of p (sv_mClientConnections s) = Some c ->
  findClientConnection (R_value p) (s, n) = Ok (Some c) (s, n).
Proof.
  intros Hc. unfold findClientConnection, mbind, Prog_bind, self, pgets. cbn [deref fst]. by rewrite Hc.
Qed.

Lemma findClientConnection_at idx nt s n c :
  sv_mNotifications s !! idx = Some nt -> connection_of (sn_clientID nt) (sv_mClientConnections s) = Some c ->
  findClientConnection (R_notification idx) (s, n) = Ok (Some c) (s, n).
Proof.
  intros Hn Hc. unfold findClientConnection, mbind, Prog_bind, self, pgets. cbn [deref fst].
  rewrite Hn. cbn. by rewrite Hc.
Qed.

(** Looking up a connected client and its channel. *)
Lemma locked_channel_ok c ch s n : cc_channel c = Some ch -> alive ch n = true ->
  locked_channel (Some c) (s, n) = Ok (Some ch) (s, n).
Proof.
  intros Hch Ha. unfold locked_channel, mbind, Prog_bind, pgets. cbn [snd]. unfold expired.
  by rewrite Hch, Ha.
Qed.

Lemma send_response_ok ch typ id seqNr to c payload s n : ch <> 0 ->
  send_response ch typ id seqNr to c payload (s, n) =
  Ok tt (s, sent [(ch, packet_of (CRequestWriter_response (ResultType_value typ) id DataResponse seqNr to
                                   (cc_serverID c) (cc_protoMinor c)) payload)] n).
Proof.
  intros Hch. unfold send_response. erewrite pbind_ok; [done|].
  unfold on_net. erewrite zoom_ok; [|by apply send_packet_sent]. done.
Qed.

Lemma pwhen_change b f s n : pwhen b (change f) (s, n) = Ok tt (if b then f s else s, n).
Proof. by destruct b. Qed.

(** *** Responses *)

(** The listeners of a response among the first notifications, in the order in which
    the loop visits them, and what the loop keeps. *)
Definition response_msgs (s : CServer) (responseId id : Z) (typ : ResultType) (payload : bytes)
    (l : list SNotification) : list (Z * Packet) :=
  omap (fun nt => reply_to s typ id (sn_sequenceNr nt) payload (sn_clientID nt) (fun _ => sn_clientID nt))
    (reverse (filter (fun nt => listens responseId s nt = true) l)).

Definition response_keeps (s : CServer) (responseId : Z) (l : list SNotification) : list SNotification :=
  filter (fun nt => listens responseId s nt && one_shot nt = false) l.

Lemma response_loop_reaches generated responseId id typ payload front back s n :
  sv_mNotifications s = front ++ back ->
  (forall nt, nt ∈ front -> listens responseId s nt = true -> connected s n (sn_clientID nt)) ->
  response_loop generated (length front) responseId id typ payload (s, n) =
  Ok tt (s <| sv_mNotifications := response_keeps s responseId front ++ back |>,
         sent (response_msgs s responseId id typ payload front) n).
Proof.
  revert back s n. induction front as [|nt front IH] using rev_ind; intros back s n Hl Hc.
  { cbn in *. rewrite sent_nil, <-Hl. by destruct s. }
  rewrite length_app. cbn [length]. rewrite Nat.add_1_r. cbn [response_loop].
  rewrite <-app_assoc in Hl. cbn [app] in Hl.
  assert (Hnt : sv_mNotifications s !! length front = Some nt) by (rewrite Hl; by apply list_lookup_middle).
  unfold response_msgs, response_keeps. rewrite !filter_app, reverse_app, omap_app, sent_app.
  erewrite pbind_ok; [|unfold self, pgets; cbn [fst]; by rewrite Hnt]. cbn match.
  erewrite pbind_ok; [|unfold self, pgets; cbn [fst]; reflexivity].
  destruct (listens responseId s nt) eqn:Hlis.
  - destruct (Hc nt) as (c & ch & Hco & Hch & Hne & Ha); [set_solver|done|].
    erewrite pbind_ok; [|erewrite pbind_ok; [|by eapply findClientConnection_at]; cbv beta;
      erewrite pbind_ok; [|by apply locked_channel_ok]; cbv beta match;
      erewrite pbind_ok; [|by apply send_response_ok]; apply pwhen_change].
    set (msg := (ch, _)). set (s1 := if one_shot nt then _ else s).
    assert (Hn1 : sv_mNotifications s1 = front ++ (if one_shot nt then back else nt :: back)).
    { unfold s1. destruct (one_shot nt); [|done]. cbn. rewrite Hl. by apply delete_middle. }
    assert (Hs1 : s1 = s <| sv_mNotifications := sv_mNotifications s1 |>).
    { unfold s1. destruct (one_shot nt); by destruct s. }
    rewrite (IH _ s1 (sent [msg] n) Hn1).
    2: { rewrite Hs1. intros nt' Hin Hnt'. apply (Hc nt'); [set_solver|done]. }
    rewrite Hs1. cbn [sv_mNotifications]. unfold response_msgs, response_keeps.
    rewrite !filter_cons, !filter_nil, Hlis. cbn [andb]. rewrite (decide_True (P := true = true)) by done.
    change (reverse [nt]) with [nt]. cbn [omap list_omap].
    assert (Hmsg : reply_to s typ id (sn_sequenceNr nt) payload (sn_clientID nt) (fun _ => sn_clientID nt) = Some msg).
    { unfold reply_to. rewrite Hco. cbn. by rewrite Hch. }
    rewrite Hmsg.
    destruct (one_shot nt); cbn; by rewrite <-?app_assoc, ?app_nil_r.
  - erewrite pbind_ok; [|reflexivity].
    rewrite (IH (nt :: back) s n Hl) by (intros nt' Hin; apply Hc; set_solver).
    rewrite !filter_cons, !filter_nil, Hlis. cbn. by rewrite sent_nil, <-app_assoc.
Qed.

Lemma end_response_ok responseId s n :
  end_response responseId (s, n) =
  Ok tt (s <| sv_mResponseId ::= fun cur => if cur =? responseId then INVALID_ID else cur |>, n).
Proof.
  unfold end_response. erewrite pbind_ok; [|reflexivity]. rewrite pwhen_change. cbn [fst].
  destruct s; cbn. by case_match.
Qed.

(** The server after a response. *)
Definition responded (responseId : Z) (s : CServer) : CServer :=
  s <| sv_mNotifications := response_keeps s responseId (sv_mNotifications s) |>
    <| sv_mResponseId ::= fun cur => if cur =? responseId then INVALID_ID else cur |>.

Definition listeners_connected (responseId : Z) (s : CServer) (n : Net) : Prop :=
  forall nt, nt ∈ sv_mNotifications s -> listens responseId s nt = true -> connected s n (sn_clientID nt).

Lemma response_loop_all generated responseId id typ payload s n :
  listeners_connected responseId s n ->
  (response_loop generated (length (sv_mNotifications s)) responseId id typ payload;; end_response responseId) (s, n) =
  Ok tt (responded responseId s, sent (response_msgs s responseId id typ payload (sv_mNotifications s)) n).
Proof.
  intros Hc. erewrite pbind_ok; [|apply (response_loop_reaches _ _ _ _ _ _ []); [by rewrite app_nil_r|done]].
  rewrite app_nil_r. apply end_response_ok.
Qed.

Lemma sendResponse_reaches responseId id typ err s n :
  listeners_connected responseId s n ->
  sendResponse responseId id typ err (s, n) =
  Ok tt (responded responseId s,
         sent (response_msgs s responseId id typ (match err with Some e => le_bytes 4 e | None => [] end)
                 (sv_mNotifications s)) n).
Proof.
  intros Hc. unfold sendResponse. erewrite pbind_ok; [|reflexivity]. by apply response_loop_all.
Qed.

(** C30. A response reaches exactly its listeners: every client with a pending request for
    it, the clients notified on it and those whose register session is active get one
    data response each, with the sequence number of their notification; the pending
    requests are then done, all other notifications stay, and the response is no longer
    dangling. *)
Theorem respond_reaches responseId payload s n :
  listeners_connected responseId s n ->
  respond responseId payload (s, n) =
  Ok tt (responded responseId (s <| sv_mResponseStateMap ::= fun m => m ∖ {[responseId]} |>),
         sent (response_msgs s responseId responseId RESULT_OK payload (sv_mNotifications s)) n).
Proof.
  intros Hc. unfold respond, setResponseState, change. erewrite pbind_ok; [|reflexivity].
  set (s1 := s <| sv_mResponseStateMap ::= _ |>). change (_, _) with (s1, n) at 1.
  erewrite pbind_ok; [|unfold self, pgets; reflexivity]. cbn beta.
  cbn [fst]. rewrite (response_loop_all true responseId responseId RESULT_OK payload s1 n Hc). reflexivity.
Qed.

(** *** Attribute notifications *)

Definition attribute_result (st : DataStateType) : ResultType :=
  if decide (st = DATA_OK) then RESULT_DATA_OK else RESULT_DATA_INVALID.

Definition attribute_data (id : Z) (st : DataStateType) (value : bytes) (type position count : Z) : bytes :=
  if decide (st = DATA_OK) then st_write id value type position count else [].

(** The packets of an attribute notification. *)
Definition attribute_msgs (s : CServer) (id : Z) (typ : ResultType) (data : bytes) (l : list SNotification) :
    list (Z * Packet) :=
  omap (fun nt => reply_to s typ id INVALID_SEQUENCE_NR data (sn_clientID nt) cc_clientID)
    (filter (fun nt => sn_notifyID nt = id) l).

Lemma getAttributeState_ok id st v s n : id <> st_implVersion -> sv_attributes s !! id = Some (st, v) ->
  getAttributeState id (s, n) = Ok st (s, n).
Proof.
  intros Hi Hs. unfold getAttributeState. rewrite (proj2 (Z.eqb_neq _ _)) by done.
  erewrite pbind_ok; [|reflexivity]. cbn [fst]. by rewrite Hs.
Qed.

Lemma writeAttribute_ok id st v type position count s n :
  id <> st_implVersion -> sv_attributes s !! id = Some (st, v) ->
  writeAttribute id type position count (s, n) = Ok (st_write id v type position count) (s, n).
Proof.
  intros Hi Hs. unfold writeAttribute. rewrite (proj2 (Z.eqb_neq _ _)) by done.
  erewrite pbind_ok; [|reflexivity]. cbn [fst]. by rewrite Hs.
Qed.

Lemma notification_loop_reaches id st v type position count front back s n :
  id <> st_implVersion -> sv_attributes s !! id = Some (st, v) -> sv_mNotifications s = front ++ back ->
  (forall nt, nt ∈ back -> sn_notifyID nt = id -> connected s n (sn_clientID nt)) ->
  notification_loop (length back) (length front) id type position count (s, n) =
  Ok tt (s, sent (attribute_msgs s id (attribute_result st) (attribute_data id st v type position count) back) n).
Proof.
  intros Hi Hst. revert front n. induction back as [|nt back IH]; intros front n Hl Hc.
  { cbn. by rewrite sent_nil. }
  cbn [length notification_loop].
  assert (Hnt : sv_mNotifications s !! length front = Some nt) by (rewrite Hl; by apply list_lookup_middle).
  erewrite pbind_ok; [|unfold self, pgets; cbn [fst]; by rewrite Hnt]. cbv beta match.
  assert (Hl' : sv_mNotifications s = (front ++ [nt]) ++ back) by by rewrite Hl, <-app_assoc.
  specialize (IH (front ++ [nt])). rewrite length_app, Nat.add_1_r in IH.
  unfold attribute_msgs in *. rewrite filter_cons. destruct (decide (sn_notifyID nt = id)) as [Heq|Hne].
  - rewrite (proj2 (Z.eqb_eq _ _)) by done.
    destruct (Hc nt) as (c & ch & Hco & Hch & Hne & Ha); [left|done|].
    assert (Hmsg : reply_to s (attribute_result st) id INVALID_SEQUENCE_NR
      (attribute_data id st v type position count) (sn_clientID nt) cc_clientID = Some (ch, packet_of
        (CRequestWriter_response (ResultType_value (attribute_result st)) id DataResponse INVALID_SEQUENCE_NR
           (cc_clientID c) (cc_serverID c) (cc_protoMinor c)) (attribute_data id st v type position count))).
    { unfold reply_to. rewrite Hco. cbn. by rewrite Hch. }
    cbn [omap list_omap]. rewrite Hmsg. set (msg := (ch, _)).
    erewrite pbind_ok.
    2: { erewrite pbind_ok; [|by eapply findClientConnection_at]; cbv beta.
         erewrite pbind_ok; [|by apply locked_channel_ok]; cbv beta match.
         erewrite pbind_ok; [|by eapply getAttributeState_ok].
         erewrite (pbind_ok _ _ _ (attribute_data id st v type position count)); [by apply send_response_ok|].
         unfold attribute_data. destruct (decide (st = DATA_OK)); [by eapply writeAttribute_ok|done]. }
    fold (attribute_result st). fold msg. rewrite (IH (sent [msg] n)); [|done|].
    + by rewrite <-sent_app.
    + intros nt' Hin. apply Hc. by right.
  - rewrite (proj2 (Z.eqb_neq _ _)) by done. erewrite pbind_ok; [|reflexivity].
    apply IH; [done|]. intros nt' Hin. apply Hc. by right.
Qed.

(** A change of an attribute is signalled to exactly the clients notified on it, in the
    order in which they asked, with the value while it is valid and without data when it
    is not; the server itself does not change. *)
Lemma sendNotification_reaches id st v type position count s n :
  id <> st_implVersion -> sv_attributes s !! id = Some (st, v) ->
  (forall nt, nt ∈ sv_mNotifications s -> sn_notifyID nt = id -> connected s n (sn_clientID nt)) ->
  sendNotification id type position count (s, n) =
  Ok tt (s, sent (attribute_msgs s id (attribute_result st) (attribute_data id st v type position count)
                    (sv_mNotifications s)) n).
Proof.
  intros Hi Hst Hc. unfold sendNotification. erewrite pbind_ok; [|reflexivity]. cbn [fst].
  by apply (notification_loop_reaches id st v type position count [] (sv_mNotifications s)).
Qed.

(** *** Requests *)

(** A data request of a connected client, as the server's engine delivers it. *)
Record request_of (h : DataHandle) (s : CServer) (n : Net) (c : ClientConnection) (ch : Z) : Prop := {
  ro_connection : connection_of (dh_clientID h) (sv_mClientConnections s) = Some c;
  ro_channel : cc_channel c = Some ch;
  ro_real : ch <> 0;
  ro_alive : alive ch n = true;
  ro_minor : cc_protoMinor c = dh_protoMinor h;
  ro_type : dh_requestType h = RequestType_value REQUEST;
}.

(** The data response to a request. *)
Definition response_to (h : DataHandle) (c : ClientConnection) (typ : ResultType) (id : Z) (to : SPartyID)
    (payload : bytes) : Packet :=
  packet_of (CRequestWriter_response (ResultType_value typ) id DataResponse (dh_sequenceNumber h) to
               (cc_serverID c) (cc_protoMinor c)) payload.

Lemma handleDataRequest_request h s n c ch :
  request_of h s n c ch -> handleDataRequest h (s, n) = handle_request h (s, n).
Proof.
  intros [Hco Hch Hne Ha Hm Ht]. unfold handleDataRequest.
  erewrite pbind_ok; [|by apply findClientConnection_value]. cbv beta match zeta.
  rewrite Hm, Z.eqb_refl, Ht. done.
Qed.

Lemma sendErrorToClient_ok h c ch id typ s n :
  request_of h s n c ch ->
  sendErrorToClient (dh_clientID h) id typ (dh_sequenceNumber h) (s, n) =
  Ok tt (s, sent [(ch, response_to h c typ id (cc_clientID c) (le_bytes 4 0))] n).
Proof.
  intros [Hco Hch Hne Ha Hm Ht]. unfold sendErrorToClient.
  erewrite pbind_ok; [|by apply findClientConnection_value]. cbv beta.
  erewrite pbind_ok; [|by apply locked_channel_ok]. cbv beta match. by apply send_response_ok.
Qed.

(** C29. While the response to a request is dangling, a further request for it is answered
    with a busy error, once and under its own sequence number, and changes nothing: the
    user's method is not called. *)
Theorem busy_request h s n c ch :
  request_of h s n c ch -> st_getResponse (dh_requestId h) <> INVALID_ID ->
  st_getResponse (dh_requestId h) ∈ sv_mResponseStateMap s ->
  handleDataRequest h (s, n) =
  Ok tt (s, sent [(ch, response_to h c RESULT_REQUEST_BUSY (dh_requestId h) (cc_clientID c) (le_bytes 4 0))] n).
Proof.
  intros Hr Hv Hd. erewrite handleDataRequest_request by done. unfold handle_request, dangling.
  rewrite (proj2 (Z.eqb_neq _ _)) by done. cbn [negb].
  erewrite pbind_ok; [|unfold getResponseState, self, pgets; cbn [fst];
    by rewrite bool_decide_eq_true_2 by done]. cbv beta match.
  by apply sendErrorToClient_ok.
Qed.

(** The server between two events. *)
Record idle (s : CServer) : Prop := {
  id_response : sv_mResponseId s = INVALID_ID;
  id_sequence : sv_mCurrentSequenceNr s = INVALID_SEQUENCE_NR;
  id_client : sv_mClientID s = NO_PARTY;
}.

(** A request whose method is called: the response it has is not dangling. *)
Record callable (h : DataHandle) (s : CServer) : Prop := {
  ca_response : st_getResponse (dh_requestId h) <> INVALID_ID;
  ca_free : st_getResponse (dh_requestId h) ∉ sv_mResponseStateMap s;
  ca_method : st_method (dh_requestId h) = Some M_request;
  ca_decode : st_decode (dh_requestId h) (dh_payload h) = Done true;
  ca_sequence : dh_sequenceNumber h <> INVALID_SEQUENCE_NR;
  ca_alone : Forall (fun nt => sn_notifyID nt <> st_getResponse (dh_requestId h)) (sv_mNotifications s);
}.

(** The server and the transport when the user's method starts. *)
Definition called (h : DataHandle) (s : CServer) : CServer :=
  s <| sv_mResponseId := st_getResponse (dh_requestId h) |>
    <| sv_mNotifications := sv_mNotifications s ++
         [mkSNotification INVALID_SESSION_ID (dh_clientID h) (dh_sequenceNumber h) (st_getResponse (dh_requestId h))] |>
    <| sv_mResponseStateMap := {[st_getResponse (dh_requestId h)]} ∪ sv_mResponseStateMap s |>
    <| sv_mClientID := dh_clientID h |> <| sv_mCurrentSequenceNr := dh_sequenceNumber h |>.

Definition logged (e : Effect) (n : Net) : Net :=
  n <| n_tick := S (n_tick n) |> <| n_log := n_log n ++ [e] |>.

Definition requested (h : DataHandle) (s : CServer) (n : Net) : Net :=
  logged (E_request (sv_mId s) (dh_requestId h) (dh_payload h)) n.

Definition finished (s : CServer) : CServer :=
  s <| sv_mResponseId := INVALID_ID |> <| sv_mCurrentSequenceNr := INVALID_SEQUENCE_NR |>
    <| sv_mClientID := NO_PARTY |>.

Lemma handle_request_called h s n s' n' :
  callable h s ->
  run_user (st_user (n_tick n)) (called h s, requested h s n) = Ok tt (s', n') ->
  handle_request h (s, n) = Ok tt (finished s', n').
Proof.
  intros [Hv Hf Hme Hde Hsq _] Hu. unfold handle_request, dangling.
  rewrite (proj2 (Z.eqb_neq _ _)) by done. cbn [negb].
  erewrite pbind_ok; [|unfold getResponseState, self, pgets; cbn [fst];
    by rewrite bool_decide_eq_false_2 by done]. cbv beta match.
  erewrite pbind_ok; [|unfold change, pmodify; reflexivity]. cbn [fst snd].
  erewrite pbind_ok; [|unfold pwhen, change, setResponseState, pmodify, mbind, Prog_bind; cbn [fst snd]; reflexivity].
  erewrite pbind_ok; [|unfold change, pmodify; cbn [fst snd]; reflexivity].
  erewrite pbind_ok.
  2: { unfold processRequest. rewrite Hme. unfold call_method. rewrite Hde. unfold call_user.
       erewrite pbind_ok; [|unfold on_net; erewrite zoom_ok; [|unfold next_tick, mbind, Prog_bind, pgets, pmodify; reflexivity]; cbn; reflexivity].
       erewrite pbind_ok; [|unfold self, pgets; cbn [fst]; reflexivity].
       erewrite pbind_ok; [|unfold on_net; erewrite zoom_ok; [|unfold log_effect, pmodify; reflexivity]; cbn; reflexivity].
       exact Hu. }
  reflexivity.
Qed.

Lemma filter_none {A} (P : A -> Prop) `{!forall x, Decision (P x)} (l : list A) :
  Forall (fun x => ~ P x) l -> filter P l = [].
Proof. induction 1 as [|x l Hx Hl IH]; [done|]. by rewrite filter_cons_False. Qed.

Lemma filter_all {A} (P : A -> Prop) `{!forall x, Decision (P x)} (l : list A) :
  Forall P l -> filter P l = l.
Proof. induction 1 as [|x l Hx Hl IH]; [done|]. by rewrite filter_cons_True, IH. Qed.

Section lone.
Context (responseId : Z) (s : CServer) (l : list SNotification).
Hypothesis alone : Forall (fun nt => sn_notifyID nt <> responseId) l.

Lemma lone_listens nt : nt ∈ l -> listens responseId s nt = false.
Proof.
  intros Hin. eapply (proj1 (Forall_forall _ _)) in alone; [|done]. unfold listens.
  by rewrite (proj2 (Z.eqb_neq _ _)).
Qed.

(** A response with one listener, the last notification. *)
Lemma lone_msgs nt id typ payload c ch :
  listens responseId s nt = true -> connection_of (sn_clientID nt) (sv_mClientConnections s) = Some c ->
  cc_channel c = Some ch ->
  response_msgs s responseId id typ payload (l ++ [nt]) =
  [(ch, packet_of (CRequestWriter_response (ResultType_value typ) id DataResponse (sn_sequenceNr nt)
      (sn_clientID nt) (cc_serverID c) (cc_protoMinor c)) payload)].
Proof.
  intros Hl Hco Hch. unfold response_msgs.
  rewrite filter_app, filter_none, filter_cons_True, filter_nil by
    (done || (apply Forall_forall; intros x Hx; by rewrite lone_listens)).
  cbn. unfold reply_to. rewrite Hco. cbn. by rewrite Hch.
Qed.

Lemma lone_keeps nt : listens responseId s nt = true -> one_shot nt = true ->
  response_keeps s responseId (l ++ [nt]) = l.
Proof.
  intros Hl Hs. unfold response_keeps.
  rewrite filter_app, filter_cons_False, filter_nil, app_nil_r by (rewrite Hl, Hs; done).
  apply filter_all, Forall_forall. intros x Hx. by rewrite lone_listens.
Qed.

Lemma lone_connected nt n : listeners_connected responseId s n \/ sv_mNotifications s = l ++ [nt] ->
  connected s n (sn_clientID nt) -> listeners_connected responseId s n.
Proof.
  intros [?|Hl] Hc; [done|]. intros x Hx Hlis. rewrite Hl in Hx.
  apply elem_of_app in Hx as [Hx|Hx]; [by rewrite lone_listens in Hlis|].
  by apply list_elem_of_singleton in Hx as ->.
Qed.
End lone.

(** Answering the only pending request for a response. *)
Lemma respond_alone r payload l nt s n c ch :
  sv_mNotifications s = l ++ [nt] -> Forall (fun x => sn_notifyID x <> r) l ->
  sn_notifyID nt = r -> sn_sessionId nt = INVALID_SESSION_ID -> sn_sequenceNr nt <> INVALID_SEQUENCE_NR ->
  connection_of (sn_clientID nt) (sv_mClientConnections s) = Some c -> cc_channel c = Some ch ->
  ch <> 0 -> alive ch n = true ->
  respond r payload (s, n) =
  Ok tt (s <| sv_mNotifications := l |> <| sv_mResponseStateMap ::= fun m => m ∖ {[r]} |>
           <| sv_mResponseId ::= fun cur => if cur =? r then INVALID_ID else cur |>,
         sent [(ch, packet_of (CRequestWriter_response (ResultType_value RESULT_OK) r DataResponse
           (sn_sequenceNr nt) (sn_clientID nt) (cc_serverID c) (cc_protoMinor c)) payload)] n).
Proof.
  intros Hs Hal Hid Hsid Hseq Hco Hch Hne Ha.
  assert (Hlis : forall s, listens r s nt = true) by (intros s'; unfold listens; by rewrite Hid, Hsid, Z.eqb_refl).
  assert (Hone : one_shot nt = true) by (unfold one_shot; by rewrite Hsid, (proj2 (Z.eqb_neq _ _))).
  rewrite respond_reaches by (apply (lone_connected r s l Hal nt); [by right|by exists c, ch]).
  rewrite Hs. erewrite lone_msgs by done.
  assert (Hk : forall s', sv_mNotifications s' = l ++ [nt] -> responded r s' = s' <| sv_mNotifications := l |>
    <| sv_mResponseId ::= fun cur => if cur =? r then INVALID_ID else cur |>).
  { intros s' Hs'. unfold responded. by rewrite Hs', lone_keeps. }
  by rewrite Hk.
Qed.

Lemma bits_restored (r : Z) (m : gset Z) : r ∉ m -> ({[r]} ∪ m) ∖ {[r]} = m.
Proof. intros Hr. apply set_eq. intros x. rewrite elem_of_difference, elem_of_union, elem_of_singleton. naive_solver. Qed.

(** A request whose method answers is answered: its client gets exactly one response,
    under the sequence number of the request and with the data of the method, nobody else
    gets anything, and the server is as before. *)
Lemma request_answered h s n c ch payload :
  request_of h s n c ch -> callable h s -> idle s ->
  st_user (n_tick n) = U_respond (st_getResponse (dh_requestId h)) payload U_done ->
  handleDataRequest h (s, n) =
  Ok tt (s, sent [(ch, response_to h c RESULT_OK (st_getResponse (dh_requestId h)) (dh_clientID h) payload)]
              (requested h s n)).
Proof.
  intros Hr Hca [Hi1 Hi2 Hi3] Hu. pose proof Hr as [Hco Hch Hne Ha Hm Ht].
  pose proof Hca as [Hv Hf Hme Hde Hsq Hal].
  erewrite handleDataRequest_request by done. set (r := st_getResponse (dh_requestId h)) in *.
  set (nt := mkSNotification INVALID_SESSION_ID (dh_clientID h) (dh_sequenceNumber h) r).
  erewrite handle_request_called; [|done|].
  2: { rewrite Hu. cbn [run_user]. erewrite pbind_ok; [reflexivity|]. fold r.
       by apply (respond_alone r payload (sv_mNotifications s) nt _ _ c ch). }
  destruct s. cbn in *. subst. by rewrite bits_restored.
Qed.

(** *** Unblocked requests *)

Lemma find_last_from_snoc {A} (p : A -> bool) l x base found :
  p x = true -> find_last_from p (l ++ [x]) base found = base + Z.of_nat (length l).
Proof.
  intros Hp. revert base found. induction l as [|y l IH]; intros base found; cbn [app find_last_from].
  - rewrite Hp. cbn. lia.
  - rewrite IH. cbn [length]. lia.
Qed.

Lemma find_last_snoc {A} (p : A -> bool) l x : p x = true -> find_last p (l ++ [x]) = Z.of_nat (length l).
Proof. intros Hp. unfold find_last. by rewrite find_last_from_snoc. Qed.

(** The pending request of a call. *)
Definition pending (h : DataHandle) : SNotification :=
  mkSNotification INVALID_SESSION_ID (dh_clientID h) (dh_sequenceNumber h) (st_getResponse (dh_requestId h)).

(** The request is put aside under the handle, and the response is free again. *)
Definition unblocked (h : DataHandle) (handle : Z) (s : CServer) : CServer :=
  s <| sv_mUnblockedSessions ::= <[handle := pending h]> |>.

Lemma unblockRequest_called h s n : callable h s ->
  unblockRequest (called h s, n) =
  Ok (i32 (n_nextID n))
     (unblocked h (i32 (n_nextID n)) (s <| sv_mClientID := dh_clientID h |> <| sv_mResponseId := INVALID_ID |>
        <| sv_mCurrentSequenceNr := INVALID_SEQUENCE_NR |>),
      n <| n_nextID := u32 (n_nextID n + 1) |>).
Proof.
  intros [Hv Hf _ _ Hsq _]. unfold unblockRequest. fold (pending h).
  erewrite pbind_ok; [|unfold self, pgets; cbn [fst]; reflexivity].
  cbn [called sv_mCurrentSequenceNr update]. rewrite (proj2 (Z.eqb_neq _ _)) by done. cbn [negb].
  erewrite pbind_ok; [|reflexivity].
  erewrite pbind_ok; [|unfold self, pgets; cbn [fst]; reflexivity].
  cbn [called sv_mResponseId update]. rewrite (proj2 (Z.eqb_neq _ _)) by done. cbn [negb].
  erewrite pbind_ok; [|unfold self, pgets; cbn [fst]; reflexivity]. cbv beta zeta. unfold id.
  change (sv_mNotifications (called h s)) with (sv_mNotifications s ++ [pending h]).
  rewrite find_last_snoc by (cbn; rewrite !Z.eqb_refl; unfold party_eqb; by rewrite Z.eqb_refl).
  rewrite (proj2 (Z.leb_le _ _)) by lia. rewrite Nat2Z.id, list_lookup_middle by done.
  erewrite pbind_ok.
  2: { erewrite pbind_ok; [|unfold on_net; erewrite zoom_ok; [|unfold createId, mbind, Prog_bind, pgets, pmodify; reflexivity]; cbn; reflexivity].
       erewrite pbind_ok; [|unfold change, pmodify; cbn [fst snd]; reflexivity]. reflexivity. }
  erewrite pbind_ok; [|unfold setResponseState, change, pmodify; cbn [fst snd]; reflexivity].
  erewrite pbind_ok; [|unfold change, pmodify; cbn [fst snd]; reflexivity].
  unfold unblocked. destruct s. cbn in *. unfold mret, Prog_ret.
  rewrite delete_middle, app_nil_r, bits_restored by done. done.
Qed.

(** Answering later, from any state in which the handle is known and nothing is pending. *)
Lemma prepared_answer handle payload nt s n c ch :
  sv_mUnblockedSessions s !! handle = Some nt -> sv_mResponseId s = INVALID_ID ->
  Forall (fun x => sn_notifyID x <> sn_notifyID nt) (sv_mNotifications s) ->
  sn_sessionId nt = INVALID_SESSION_ID -> sn_sequenceNr nt <> INVALID_SEQUENCE_NR ->
  sn_notifyID nt ∉ sv_mResponseStateMap s ->
  connection_of (sn_clientID nt) (sv_mClientConnections s) = Some c -> cc_channel c = Some ch ->
  ch <> 0 -> alive ch n = true ->
  run_user (U_prepareResponse handle (U_respond (sn_notifyID nt) payload U_done)) (s, n) =
  Ok tt (s <| sv_mUnblockedSessions ::= delete handle |> <| sv_mClientID := sn_clientID nt |>,
         sent [(ch, packet_of (CRequestWriter_response (ResultType_value RESULT_OK) (sn_notifyID nt) DataResponse
           (sn_sequenceNr nt) (sn_clientID nt) (cc_serverID c) (cc_protoMinor c)) payload)] n).
Proof.
  intros Hu Hid Hal Hsid Hseq Hf Hco Hch Hne Ha. cbn [run_user].
  erewrite pbind_ok.
  2: { unfold prepareResponse.
       erewrite pbind_ok; [|unfold self, pgets; cbn [fst]; reflexivity]. rewrite Hid, Z.eqb_refl.
       erewrite pbind_ok; [|reflexivity].
       erewrite pbind_ok; [|unfold self, pgets; cbn [fst]; by rewrite Hu]. cbv beta match.
       erewrite pbind_ok; [|unfold change, pmodify; cbn [fst snd]; reflexivity].
       unfold setResponseState, change, pmodify. cbn [fst snd]. reflexivity. }
  erewrite pbind_ok; [|by apply (respond_alone _ payload (sv_mNotifications s) nt _ _ c ch)].
  destruct s. cbn in *. subst. rewrite Z.eqb_refl, bits_restored by done. done.
Qed.

(** C28. A request its method unblocks is answered later: the request itself sends nothing
    and leaves the response free for other clients; preparing the response with the
    handle and calling it sends the client exactly one response, under the sequence number
    of its request, and the handle is used up. *)
Theorem unblocked_request_answered h s n c ch payload :
  request_of h s n c ch -> callable h s -> idle s -> sv_mUnblockedSessions s !! i32 (n_nextID n) = None ->
  st_user (n_tick n) = U_unblockRequest (fun _ => U_done) ->
  exists s1 n1, handleDataRequest h (s, n) = Ok tt (s1, n1) /\
    n_log n1 = n_log n ++ [E_request (sv_mId s) (dh_requestId h) (dh_payload h)] /\
    sv_mResponseStateMap s1 = sv_mResponseStateMap s /\
    run_user (U_prepareResponse (i32 (n_nextID n))
                (U_respond (st_getResponse (dh_requestId h)) payload U_done)) (s1, n1) =
    Ok tt (s <| sv_mClientID := dh_clientID h |>,
           sent [(ch, response_to h c RESULT_OK (st_getResponse (dh_requestId h)) (dh_clientID h) payload)] n1).
Proof.
  intros Hr Hca [Hi1 Hi2 Hi3] Hnew Hu. pose proof Hr as [Hco Hch Hne Ha Hm Ht].
  pose proof Hca as [Hv Hf Hme Hde Hsq Hal].
  exists (unblocked h (i32 (n_nextID n)) s), (requested h s n <| n_nextID := u32 (n_nextID n + 1) |>).
  split; [|split; [done|split; [done|]]].
  - erewrite handleDataRequest_request by done. erewrite handle_request_called; [|done|].
    2: { rewrite Hu. cbn [run_user]. erewrite pbind_ok; [|by apply unblockRequest_called]. reflexivity. }
    unfold unblocked. destruct s. cbn in *. by subst.
  - etrans; [apply (prepared_answer (i32 (n_nextID n)) payload (pending h) _ _ c ch); try done|].
    + cbn. apply lookup_insert_eq.
    + f_equal. f_equal. unfold unblocked. destruct s. cbn in *. by rewrite delete_insert_id.
Qed.
End replies.

(** ** Asking for notifications *)

Section notify.
Context `{AppEnv} `{StubEnv}.

Lemma notified_added h s :
  notified h (s <| sv_mNotifications ::= fun l => l ++
    [mkSNotification INVALID_SESSION_ID (dh_clientID h) INVALID_SEQUENCE_NR (dh_requestId h)] |>) = true \/
  dh_requestType h <> RequestType_value REQUEST_NOTIFY.
Proof.
  destruct (decide (dh_requestType h = RequestType_value REQUEST_NOTIFY)) as [Ht|]; [left|by right].
  unfold notified. cbn. rewrite existsb_app. cbn. rewrite Ht. unfold party_eqb. by rewrite !Z.eqb_refl, orb_true_r.
Qed.

Lemma handle_notify_plain h s n c :
  connection_of (dh_clientID h) (sv_mClientConnections s) = Some c -> cc_protoMinor c = dh_protoMinor h ->
  dh_requestType h = RequestType_value REQUEST_NOTIFY -> isAttributeId (dh_requestId h) = false ->
  handleDataRequest h (s, n) =
  Ok tt (if notified h s then s else s <| sv_mNotifications ::= fun l => l ++
    [mkSNotification INVALID_SESSION_ID (dh_clientID h) INVALID_SEQUENCE_NR (dh_requestId h)] |>, n).
Proof.
  intros Hco Hm Ht Hid. unfold handleDataRequest.
  erewrite pbind_ok; [|by apply findClientConnection_value]. cbv beta match zeta.
  rewrite Hm, Z.eqb_refl, Ht. change (RequestType_of _) with (Some REQUEST_NOTIFY). cbn [negb].
  unfold handle_notify. erewrite pbind_ok; [|unfold self, pgets; cbn [fst]; reflexivity].
  rewrite Hid. cbn [pwhen]. destruct (notified h s); cbn [negb pwhen]; [done|].
  unfold add_notification. rewrite Ht. done.
Qed.

(** Asking for a notification is idempotent: the first request adds exactly one entry for
    the client and the id, unless it is there, and asking again changes nothing, nor is
    anything sent. *)
Lemma notify_once h s n c :
  connection_of (dh_clientID h) (sv_mClientConnections s) = Some c -> cc_protoMinor c = dh_protoMinor h ->
  dh_requestType h = RequestType_value REQUEST_NOTIFY -> isAttributeId (dh_requestId h) = false ->
  exists s1, handleDataRequest h (s, n) = Ok tt (s1, n) /\ handleDataRequest h (s1, n) = Ok tt (s1, n) /\
    notified h s1 = true /\
    s1 = s <| sv_mNotifications := sv_mNotifications s ++
      if notified h s then [] else
        [mkSNotification INVALID_SESSION_ID (dh_clientID h) INVALID_SEQUENCE_NR (dh_requestId h)] |>.
Proof.
  intros Hco Hm Ht Hid. eexists. split; [by eapply handle_notify_plain|].
  destruct (notified_added h s) as [Hadd|]; [|done].
  destruct (notified h s) eqn:Hn.
  - split; [erewrite handle_notify_plain by done; by rewrite Hn|]. split; [done|]. destruct s. cbn. by rewrite app_nil_r.
  - split; [erewrite handle_notify_plain by done; by rewrite Hadd|]. split; [done|]. done.
Qed.
End notify.

(** ** Defects *)

Section defects.
Context `{AppEnv} `{StubEnv}.

(** [findClientConnection] hands the reference into the vector on to the loop that
    erases from it.  Once the notification referred to is gone, the reference is to the
    one that moved down: notifications of that client are removed instead. *)
Lemma removed_aliased :
  let n0 := mkSNotification (-1) (mkParty 2 0) 0 7 in
  let n1 := mkSNotification (-1) (mkParty 1 0) 0 8 in
  let n2 := mkSNotification (-1) (mkParty 2 0) 0 9 in
  removed (R_notification 1) INVALID_ID [n0; n1; n2] = [n2] /\
  removed (R_value (mkParty 1 0)) INVALID_ID [n0; n1; n2] = [n0; n2].
Proof. by vm_compute. Qed.

(** A client whose channel could not be connected, or has gone, is asked nothing: its
    first notification on a valid attribute aborts the server. *)
Lemma dead_channel_aborts h s n c v :
  connection_of (dh_clientID h) (sv_mClientConnections s) = Some c -> expired (cc_channel c) n = true ->
  cc_protoMinor c = dh_protoMinor h -> dh_requestType h = RequestType_value REQUEST_NOTIFY ->
  isAttributeId (dh_requestId h) = true -> dh_requestId h <> st_implVersion ->
  sv_attributes s !! dh_requestId h = Some (DATA_OK, v) ->
  handleDataRequest h (s, n) = Aborted C_assert.
Proof.
  intros Hco He Hm Ht Hid Hi Hv. unfold handleDataRequest.
  erewrite pbind_ok; [|by apply findClientConnection_value]. cbv beta match zeta.
  rewrite Hm, Z.eqb_refl, Ht. change (RequestType_of _) with (Some REQUEST_NOTIFY). cbn [negb].
  unfold handle_notify. erewrite pbind_ok; [|unfold self, pgets; cbn [fst]; reflexivity].
  set (s1 := if notified h s then s else s <| sv_mNotifications ::= fun l => l ++
    [mkSNotification INVALID_SESSION_ID (dh_clientID h) INVALID_SEQUENCE_NR (dh_requestId h)] |>).
  erewrite (pbind_ok _ _ _ tt (s1, n)).
  2: { unfold s1. destruct (notified h s); [done|]. cbn [negb pwhen]. unfold add_notification. rewrite Ht.
       erewrite pbind_ok; [|reflexivity]. unfold change, pmodify. by cbn. }
  assert (Hs1 : sv_mClientConnections s1 = sv_mClientConnections s /\ sv_attributes s1 = sv_attributes s)
    by (unfold s1; by destruct (notified h s)).
  destruct Hs1 as [Hc1 Ha1]. rewrite Hid. cbn [pwhen].
  erewrite pbind_ok; [|eapply getAttributeState_ok; [done|by rewrite Ha1]]. cbv beta match.
  erewrite pbind_ok; [|apply findClientConnection_value; by rewrite Hc1]. cbv beta.
  erewrite pbind_ok; [|unfold locked_channel; erewrite pbind_ok; [|reflexivity]; cbn [snd]; by rewrite He].
  cbv beta match. unfold assert_channel. erewrite pbind_ok; [|reflexivity]. cbn [snd]. by rewrite He.
Qed.

(** So does a notification on an attribute id the interface does not have, from
    anybody. *)
Lemma unknown_attribute_aborts h s n c :
  connection_of (dh_clientID h) (sv_mClientConnections s) = Some c ->
  cc_protoMinor c = dh_protoMinor h -> dh_requestType h = RequestType_value REQUEST_NOTIFY ->
  isAttributeId (dh_requestId h) = true -> dh_requestId h <> st_implVersion ->
  sv_attributes s !! dh_requestId h = None ->
  handleDataRequest h (s, n) = Aborted C_assert.
Proof.
  intros Hco Hm Ht Hid Hi Hv. unfold handleDataRequest.
  erewrite pbind_ok; [|by apply findClientConnection_value]. cbv beta match zeta.
  rewrite Hm, Z.eqb_refl, Ht. change (RequestType_of _) with (Some REQUEST_NOTIFY). cbn [negb].
  unfold handle_notify. erewrite pbind_ok; [|unfold self, pgets; cbn [fst]; reflexivity].
  rewrite Hid. cbn [pwhen].
  assert (Hg : forall s1, sv_attributes s1 !! dh_requestId h = None ->
    getAttributeState (dh_requestId h) (s1, n) = Aborted C_assert).
  { intros s1 H1. unfold getAttributeState. rewrite (proj2 (Z.eqb_neq _ _)) by done.
    erewrite pbind_ok; [|reflexivity]. cbn [fst]. by rewrite H1. }
  destruct (notified h s); cbn [negb pwhen].
  - erewrite pbind_ok; [|reflexivity]. unfold mbind at 1, Prog_bind at 1. by rewrite Hg.
  - erewrite pbind_ok.
    2: { unfold add_notification. rewrite Ht. erewrite pbind_ok; [|reflexivity]. unfold change, pmodify. cbn. reflexivity. }
    unfold mbind at 1, Prog_bind at 1. by rewrite Hg.
Qed.
End defects.

(** ** Examples: a server with one client, which listens to one response and one attribute *)

#[local] Instance demo_env : AppEnv := {|
  env_open := fun _ => 4;
  env_rc := fun _ => 0;
  env_party := fun _ => mkParty 9 0;
  env_notification := fun _ => 11;
  env_connInfo := fun _ => mkConnInfo (mkVersion 1 0) (mkChannel 0 77 3) (mkParty 9 0) (mkParty 5 0);
  env_tcpInfo := fun _ => mkTCPConnInfo (mkVersion 1 0) 0x7f000001 3746 (mkParty 9 0) (mkParty 6 0);
  env_connect := fun _ => true;
  env_send := fun _ => true;
  env_localName := fun _ => Some 0x7f000001;
  env_recv := fun _ => [];
  env_pid := 77;
  env_address := 0x7f000001;
  env_force_tcp := false;
  env_port := None;
  env_listen := fun _ => Some 3746;
|}.

#[local] Instance demo_stub : StubEnv := {|
  st_getResponse := fun _ => 0x80000000;
  st_method := fun id => if id =? 1 then Some M_request else None;
  st_implVersion := 0xfffffffe;
  st_decode := fun _ _ => Done true;
  st_write := fun _ v _ _ _ => v;
  st_user := fun t => match t with
                      | O => U_respond 0x80000000 [42] U_done
                      | _ => U_unblockRequest (fun _ => U_done)
                      end;
  st_grows := fun _ => true;
  st_junk := fun _ => 0;
|}.

Definition demo_client : ClientConnection := mkClientConn 1 (mkParty 5 0) (mkParty 9 0) 11 (Some 2) 0.

Definition demo_server : CServer :=
  CServer_new 1 (mkSFNDDescr (mkVersion 1 0) []) false {[0xc0000000 := (DATA_OK, [1; 2])]}
  <| sv_mClientConnections := [demo_client] |>
  <| sv_mNotifications := [mkSNotification INVALID_SESSION_ID (mkParty 5 0) 0 0x80000001;
                           mkSNotification INVALID_SESSION_ID (mkParty 5 0) 0 0xc0000000] |>.

Definition demo_net : Net := Net_initial 3 <| n_channels := {[2 := (CK_local, 1%nat)]} |>.

Definition demo_request : DataHandle := mkDataHandle (mkParty 5 0) 0 (RequestType_value REQUEST) 1 17 [].

Lemma demo_connected n : n_channels n = n_channels demo_net -> connected demo_server n (mkParty 5 0).
Proof. intros Hn. exists demo_client, 2. unfold alive. rewrite Hn. by vm_compute. Qed.

Lemma demo_request_of n s : n_channels n = n_channels demo_net -> sv_mClientConnections s = [demo_client] ->
  request_of demo_request s n demo_client 2.
Proof. intros Hn Hs. split; rewrite ?Hs; unfold alive; rewrite ?Hn; by vm_compute. Qed.

Lemma demo_listeners id nt : nt ∈ sv_mNotifications demo_server -> sn_notifyID nt = id ->
  connected demo_server demo_net (sn_clientID nt).
Proof.
  cbn. intros [->|[->|[]%elem_of_nil]%elem_of_cons]%elem_of_cons _; by apply demo_connected.
Qed.

Lemma respond_reaches_witness :
  respond 0x80000001 [42] (demo_server, demo_net) =
  Ok tt (responded 0x80000001 (demo_server <| sv_mResponseStateMap ::= fun m => m ∖ {[0x80000001]} |>),
         sent (response_msgs demo_server 0x80000001 0x80000001 RESULT_OK [42] (sv_mNotifications demo_server)) demo_net).
Proof. apply respond_reaches. intros nt Hin _. by eapply demo_listeners. Defined.

Lemma sendNotification_reaches_witness :
  sendNotification 0xc0000000 UPDATE_COMPLETE (-1) (-1) (demo_server, demo_net) =
  Ok tt (demo_server, sent (attribute_msgs demo_server 0xc0000000 (attribute_result DATA_OK)
                      (attribute_data 0xc0000000 DATA_OK [1; 2] UPDATE_COMPLETE (-1) (-1))
                      (sv_mNotifications demo_server)) demo_net).
Proof.
  apply (sendNotification_reaches 0xc0000000 DATA_OK [1; 2] UPDATE_COMPLETE (-1) (-1) demo_server demo_net).
  - done.
  - by vm_compute.
  - intros nt Hin Hid. by eapply demo_listeners.
Defined.

Lemma busy_request_witness :
  let s := demo_server <| sv_mResponseStateMap := {[0x80000000]} |> in
  handleDataRequest demo_request (s, demo_net) =
  Ok tt (s, sent [(2, response_to demo_request demo_client RESULT_REQUEST_BUSY 1 (mkParty 5 0) (le_bytes 4 0))] demo_net).
Proof.
  apply (busy_request demo_request _ demo_net demo_client 2).
  - by apply demo_request_of.
  - done.
  - change (0x80000000 ∈ ({[0x80000000]} : gset Z)). set_solver.
Defined.

Lemma demo_callable : callable demo_request demo_server.
Proof. split; try done; cbn; repeat constructor; done. Qed.

Lemma request_answered_witness :
  handleDataRequest demo_request (demo_server, demo_net) =
  Ok tt (demo_server,
         sent [(2, response_to demo_request demo_client RESULT_OK (st_getResponse (dh_requestId demo_request))
                     (dh_clientID demo_request) [42])]
           (requested demo_request demo_server demo_net)).
Proof.
  apply (request_answered demo_request demo_server demo_net demo_client 2 [42]).
  - by apply demo_request_of.
  - apply demo_callable.
  - done.
  - reflexivity.
Defined.

Lemma unblocked_request_answered_witness :
  let n := demo_net <| n_tick := 1%nat |> in
  exists s1 n1, handleDataRequest demo_request (demo_server, n) = Ok tt (s1, n1) /\
    n_log n1 = n_log n ++ [E_request (sv_mId demo_server) (dh_requestId demo_request) (dh_payload demo_request)] /\
    sv_mResponseStateMap s1 = sv_mResponseStateMap demo_server /\
    run_user (U_prepareResponse (i32 (n_nextID n)) (U_respond (st_getResponse (dh_requestId demo_request)) [43] U_done)) (s1, n1) =
    Ok tt (demo_server <| sv_mClientID := dh_clientID demo_request |>,
           sent [(2, response_to demo_request demo_client RESULT_OK (st_getResponse (dh_requestId demo_request))
                     (dh_clientID demo_request) [43])] n1).
Proof.
  intros n. apply (unblocked_request_answered demo_request demo_server n demo_client 2 [43]).
  - by apply demo_request_of.
  - apply demo_callable.
  - done.
  - reflexivity.
  - reflexivity.
Defined.

Definition demo_notify : DataHandle := mkDataHandle (mkParty 5 0) 0 (RequestType_value REQUEST_NOTIFY) 0x80000002 0 [].

Lemma notify_once_witness :
  exists s1, handleDataRequest demo_notify (demo_server, demo_net) = Ok tt (s1, demo_net) /\
    handleDataRequest demo_notify (s1, demo_net) = Ok tt (s1, demo_net) /\ notified demo_notify s1 = true /\
    s1 = demo_server <| sv_mNotifications := sv_mNotifications demo_server ++
      if notified demo_notify demo_server then [] else
        [mkSNotification INVALID_SESSION_ID (dh_clientID demo_notify) INVALID_SEQUENCE_NR
           (dh_requestId demo_notify)] |>.
Proof. apply (notify_once demo_notify demo_server demo_net demo_client); reflexivity. Defined.
