(* ===== verification/Cleanup.v ===== *)
(** What a server keeps and forgets.

    Frame lemmas for the operations of [CServer], the order of its client connections,
    and the clean-up when a client disconnects or is gone. *)

From S2P Require Import Prelude.
From S2P Require Import Types.
From S2P Require Import Buffer.
From S2P Require Import Stream.
From S2P Require Import Message.
From S2P Require Import Runtime.
From S2P Require Import Stub.
From S2P Require Import Replies.
From Stdlib Require Import Sorting.Sorted.

(** ** Frames *)

(** A relation between the server before and after. *)
Definition on_srv (R : CServer -> CServer -> Prop) (t t' : CServer * Net) : Prop := R t.1 t'.1.
#[export] Instance on_srv_reflexive R `{!Reflexive R} : Reflexive (on_srv R).
Proof. intros t. unfold on_srv. reflexivity. Qed.
#[export] Instance on_srv_transitive R `{!Transitive R} : Transitive (on_srv R).
Proof. intros a b c. unfold on_srv. apply transitivity. Qed.

(** What the functions of the stub that the user may call leave alone. *)
Record user_frame (s s' : CServer) : Prop := {
  uf_sessions : sv_mSessions s' = sv_mSessions s;
  uf_connections : sv_mClientConnections s' = sv_mClientConnections s;
  uf_sessionId : sv_mSessionId s' = sv_mSessionId s;
}.
#[export] Instance user_frame_reflexive : Reflexive user_frame.
Proof. by intros s. Qed.
#[export] Instance user_frame_transitive : Transitive user_frame.
Proof. intros a b c [] []. split; congruence. Qed.

(** No notification or unblocked request appears that was not there. *)
Record shrinks (s s' : CServer) : Prop := {
  sh_notifications : forall x, x ∈ sv_mNotifications s' -> x ∈ sv_mNotifications s;
  sh_unblocked : forall h x, sv_mUnblockedSessions s' !! h = Some x ->
    sv_mUnblockedSessions s !! h = Some x \/ x ∈ sv_mNotifications s;
}.
#[export] Instance shrinks_reflexive : Reflexive shrinks.
Proof. split; auto. Qed.
#[export] Instance shrinks_transitive : Transitive shrinks.
Proof.
  intros a b c [H1 H2] [H3 H4]. split; [auto|]. intros h x [Hx|Hx]%H4; [by apply H2 | right; auto].
Qed.

Lemma elem_of_vec_erase {A} (x : A) idx size store : x ∈ vec_erase idx size store -> x ∈ store.
Proof.
  unfold vec_erase. rewrite !elem_of_app.
  intros [H|[H|H]].
  1, 2: apply elem_of_take in H as (i & H & _).
  3: apply list_elem_of_lookup in H as (i & H).
  all: rewrite ?lookup_drop in H; by eapply list_elem_of_lookup_2.
Qed.

(** Whatever the reference is to, [removeNotification] adds nothing. *)
Lemma elem_of_removed ref id x l : x ∈ removed ref id l -> x ∈ l.
Proof.
  unfold removed. assert (H : forall idx size store,
    x ∈ (remove_loop ref id idx size store).2 -> x ∈ store).
  { induction idx as [|idx IH]; intros size store; cbn [remove_loop]; [done|].
    repeat case_match; try done; intros Hx%IH; [by eapply elem_of_vec_erase|done]. }
  specialize (H (length l) (length l) l). destruct (remove_loop _ _ _ _ _) as [size store]. cbn in H.
  intros (i & Hi & _)%elem_of_take. apply H. by eapply list_elem_of_lookup_2.
Qed.

Lemma elem_of_delete_list {A} (x : A) (i : nat) (l : list A) : x ∈ delete i l -> x ∈ l.
Proof.
  revert i. induction l as [|y l IH]; intros [|i]; cbn; [done..| |].
  - by right.
  - intros [->|?%IH]%elem_of_cons; [left|by right].
Qed.

(** What a relation has to allow for the functions of the stub to stay in it: taking
    notifications off, putting a pending request aside, and everything that touches
    neither the containers nor the current session. *)
Class ServerFrame (R : CServer -> CServer -> Prop) := {
  fr_reflexive :: Reflexive R;
  fr_transitive :: Transitive R;
  fr_removed s ref id : R s (s <| sv_mNotifications ::= removed ref id |>);
  fr_delete s (i : nat) : R s (s <| sv_mNotifications ::= delete i |>);
  fr_unblock s h (i : nat) x : sv_mNotifications s !! i = Some x ->
    R s (s <| sv_mUnblockedSessions ::= <[h := x]> |> <| sv_mNotifications ::= delete i |>);
  fr_other s s' : sv_mSessions s' = sv_mSessions s -> sv_mClientConnections s' = sv_mClientConnections s ->
    sv_mSessionId s' = sv_mSessionId s -> sv_mNotifications s' = sv_mNotifications s ->
    sv_mUnblockedSessions s' = sv_mUnblockedSessions s -> R s s';
}.

#[export] Instance user_frame_Frame : ServerFrame user_frame.
Proof. by split; try exact _; intros; split. Qed.

#[export] Instance shrinks_Frame : ServerFrame shrinks.
Proof.
  split; try exact _.
  - intros s ref id. split; [intros x; apply elem_of_removed|by left].
  - intros s i. split; [intros x; apply elem_of_delete_list|by left].
  - intros s h i x Hx. split; [intros y; apply elem_of_delete_list|]. intros k y. cbn.
    intros [[<- <-]|[_ Hy]]%lookup_insert_Some; [right; by eapply list_elem_of_lookup_2 | by left].
  - intros s s' _ _ _ Hn Hu. split; [by rewrite Hn|]. rewrite Hu. by left.
Qed.

Section frames.
Context `{AppEnv} `{StubEnv}.

Section one.
Context (R : CServer -> CServer -> Prop) `{!ServerFrame R}.

Lemma ensures_on_net {A} (m : Prog Net A) : ensures (on_net m) (on_srv R).
Proof.
  intros [s n] a [s' n']. unfold on_net, zoom. cbn. destruct (m n); [|done].
  intros [= _ <- _]. unfold on_srv. reflexivity.
Qed.

Lemma ensures_self {A} (f : CServer -> A) : ensures (self f) (on_srv R).
Proof. apply ensures_get; exact _. Qed.

Lemma ensures_change f : (forall s, R s (f s)) -> ensures (change f) (on_srv R).
Proof. intros Hf [s n] [] [s' n'] [= <- <-]. apply Hf. Qed.

Lemma ensures_other f :
  (forall s, sv_mSessions (f s) = sv_mSessions s) ->
  (forall s, sv_mClientConnections (f s) = sv_mClientConnections s) ->
  (forall s, sv_mSessionId (f s) = sv_mSessionId s) ->
  (forall s, sv_mNotifications (f s) = sv_mNotifications s) ->
  (forall s, sv_mUnblockedSessions (f s) = sv_mUnblockedSessions s) -> ensures (change f) (on_srv R).
Proof. intros H1 H2 H3 H4 H5. apply ensures_change. intros s. by apply fr_other. Qed.

(** A computation that starts by reading the server. *)
Lemma ensures_read {A} (k : CServer -> Prog (CServer * Net) A) :
  (forall s n a s' n', k s (s, n) = Ok a (s', n') -> R s s') -> ensures (self id ≫= k) (on_srv R).
Proof. intros Hk [s n] a [s' n'] Hs. exact (Hk s n a s' n' Hs). Qed.

Lemma on_net_inv {A} (m : Prog Net A) s n a s' n' : on_net m (s, n) = Ok a (s', n') -> s' = s.
Proof. unfold on_net, zoom. cbn. destruct (m n); [|done]. by intros [=]. Qed.
End one.
End frames.

(** The leaves: calls out, reads and the elementary updates. *)
Ltac srv_step :=
  cbv zeta beta;
  match goal with
  | |- ensures (on_net _) _ => apply ensures_on_net; exact _
  | |- ensures (self _) _ => apply ensures_self; exact _
  | |- ensures (change _) _ => solve [apply ensures_other; first [exact _ | done] | apply ensures_change; [exact _|intros ?; apply fr_delete]
                               | apply ensures_change; intros ?; apply fr_delete]
  | _ => ensure_step
  end.
Ltac srv := repeat srv_step.

#[export] Hint Extern 0 (ServerFrame _) => exact _ : ensure.

Section operations.
Context `{AppEnv} `{StubEnv} (R : CServer -> CServer -> Prop) `{!ServerFrame R}.

Lemma setResponseState_frame r b : ensures (setResponseState r b) (on_srv R).
Proof. unfold setResponseState. srv. Qed.
Lemma getAttributeState_frame id : ensures (getAttributeState id) (on_srv R).
Proof. unfold getAttributeState. srv. Qed.
Lemma setAttributeState_frame id st : ensures (setAttributeState id st) (on_srv R).
Proof. unfold setAttributeState. srv. Qed.
Lemma writeAttribute_frame id a b c : ensures (writeAttribute id a b c) (on_srv R).
Proof. unfold writeAttribute. srv. Qed.
Lemma removeNotification_frame ref id : ensures (removeNotification ref id) (on_srv R).
Proof. apply ensures_change. intros s. apply fr_removed. Qed.
Hint Resolve setResponseState_frame getAttributeState_frame setAttributeState_frame writeAttribute_frame
  removeNotification_frame : ensure.

Lemma findClientConnection_frame ref : ensures (findClientConnection ref) (on_srv R).
Proof. unfold findClientConnection. srv. Qed.
Lemma locked_channel_frame c : ensures (locked_channel c) (on_srv R).
Proof. unfold locked_channel. srv. Qed.
Lemma assert_channel_frame c : ensures (assert_channel c) (on_srv R).
Proof. unfold assert_channel. srv. Qed.
Lemma send_response_frame ch typ id seq to c p : ensures (send_response ch typ id seq to c p) (on_srv R).
Proof. unfold send_response. srv. Qed.
Hint Resolve findClientConnection_frame locked_channel_frame assert_channel_frame send_response_frame : ensure.

Lemma sendErrorToClient_frame cl id typ seq : ensures (sendErrorToClient cl id typ seq) (on_srv R).
Proof. unfold sendErrorToClient. srv. Qed.
Lemma notification_loop_frame fuel idx id a b c : ensures (notification_loop fuel idx id a b c) (on_srv R).
Proof. revert idx. induction fuel as [|fuel IH]; intros idx; cbn [notification_loop]; srv. Qed.
Lemma response_loop_frame g idx r id typ p : ensures (response_loop g idx r id typ p) (on_srv R).
Proof. induction idx as [|idx IH]; cbn [response_loop]; srv. Qed.
Lemma end_response_frame r : ensures (end_response r) (on_srv R).
Proof. unfold end_response. srv. Qed.
Hint Resolve sendErrorToClient_frame notification_loop_frame response_loop_frame end_response_frame : ensure.

Lemma sendNotification_frame id a b c : ensures (sendNotification id a b c) (on_srv R).
Proof. unfold sendNotification. srv. Qed.
Lemma sendResponse_frame r id typ e : ensures (sendResponse r id typ e) (on_srv R).
Proof. unfold sendResponse. srv. Qed.
Lemma respond_frame r p : ensures (respond r p) (on_srv R).
Proof. unfold respond. srv. Qed.
Hint Resolve sendNotification_frame sendResponse_frame respond_frame : ensure.

Lemma sendError_frame id e : ensures (sendError id e) (on_srv R).
Proof. unfold sendError. srv. Qed.

Lemma unblockRequest_frame : ensures unblockRequest (on_srv R).
Proof.
  unfold unblockRequest. srv_step; [srv|]. srv_step; [srv|]. srv_step; [srv|]. srv_step; [|srv].
  apply ensures_read. unfold id. intros s n h s3 n3. cbv zeta.
  set (idx := find_last _ _). intros (h1 & [s1 n1] & H1 & H2)%pbind_inv.
  trans s1.
  - clear H2. destruct (if 0 <=? idx then _ else None) as [x|] eqn:Hx; [|by injection H1 as _ <- _].
    apply pbind_inv in H1 as (id & [s2 n2] & Hid%on_net_inv & Hr). subst s2.
    apply pbind_inv in Hr as (u & t & Ht & Hr). injection Ht as _ <-. injection Hr as _ <- _.
    apply fr_unblock. by destruct (0 <=? idx).
  - revert H2. match goal with |- ?m _ = _ -> _ => assert (He : ensures m (on_srv R)) by srv end.
    apply He.
Qed.
Hint Resolve sendError_frame unblockRequest_frame : ensure.

(** The user's code, up to the calls of [prepareResponse]. *)
Lemma run_user_frame u :
  (forall h, ensures (prepareResponse h) (on_srv R)) -> ensures (run_user u) (on_srv R).
Proof. intros Hp. induction u; cbn [run_user]; srv; auto. Qed.
End operations.
#[export] Hint Resolve setResponseState_frame getAttributeState_frame setAttributeState_frame
  writeAttribute_frame removeNotification_frame findClientConnection_frame locked_channel_frame
  assert_channel_frame send_response_frame sendErrorToClient_frame notification_loop_frame
  response_loop_frame end_response_frame sendNotification_frame sendResponse_frame respond_frame
  sendError_frame unblockRequest_frame : ensure.

Section user.
Context `{AppEnv} `{StubEnv}.

(** Programs that prepare no response. *)
Fixpoint quiet (u : UserProg) : Prop :=
  match u with
  | U_done => True
  | U_prepareResponse _ _ => False
  | U_unblockRequest k | U_registerCurrentSession k => forall z, quiet (k z)
  | U_respond _ _ k | U_sendError _ _ k | U_setAttribute _ _ _ _ _ _ k | U_setAttributeState _ _ k
  | U_addActiveSession _ k | U_clearActiveSessions k => quiet k
  end.

Lemma quiet_frame R `{!ServerFrame R} u : quiet u -> ensures (run_user u) (on_srv R).
Proof. induction u; cbn [run_user quiet]; intros Hq; srv; auto; done. Qed.

Lemma prepareResponse_user_frame h : ensures (prepareResponse h) (on_srv user_frame).
Proof.
  unfold prepareResponse. repeat (ensure_step || apply ensures_self || apply setResponseState_frame; try exact _).
  apply ensures_change. by split.
Qed.

Lemma user_program_frame u : ensures (run_user u) (on_srv user_frame).
Proof. apply run_user_frame; [exact _|]. apply prepareResponse_user_frame. Qed.
End user.

(** ** The order of the client connections *)

Definition before (a b : ClientConnection) : Prop := globalID (cc_clientID a) < globalID (cc_clientID b).

Lemma insert_connection_sorted c l : StronglySorted before l -> StronglySorted before (insert_connection c l).
Proof.
  induction 1 as [|d l Hs IH Hd]; cbn [insert_connection]; [repeat constructor|].
  destruct (Z.ltb_spec (globalID (cc_clientID c)) (globalID (cc_clientID d))).
  - constructor; [by constructor|]. constructor; [done|].
    eapply Forall_impl; [exact Hd|]. unfold before. intros x Hx. lia.
  - destruct (Z.ltb_spec (globalID (cc_clientID d)) (globalID (cc_clientID c))); [|by constructor].
    constructor; [done|]. apply Forall_forall. intros x Hx.
    assert (Hin : x ∈ c :: l).
    { clear -Hx. induction l as [|e l IH]; cbn in *; [done|].
      repeat case_match; rewrite !elem_of_cons in *; naive_solver. }
    apply elem_of_cons in Hin as [->|Hin]; [done|]. by eapply Forall_forall in Hd.
Qed.

Lemma sublist_sorted {A} (R : A -> A -> Prop) k l : k `sublist_of` l -> StronglySorted R l -> StronglySorted R k.
Proof.
  induction 1 as [|x k l Hkl IH|x k l Hkl IH]; intros Hs; [done|..]; inversion Hs; subst.
  - constructor; [auto|]. by eapply Forall_sublist_of.
  - auto.
Qed.

Lemma erase_connection_sorted p l : StronglySorted before l -> StronglySorted before (erase_connection p l).
Proof. apply sublist_sorted, erase_first_sublist. Qed.

Lemma connection_of_erased p l : StronglySorted before l -> connection_of p (erase_connection p l) = None.
Proof.
  intros Hs. apply find_first_None. induction Hs as [|c l Hs IH Hc]; cbn; [set_solver|].
  destruct (global_eqb (cc_clientID c) p) eqn:He.
  - intros x Hx. eapply Forall_forall in Hc; [|exact Hx]. unfold before, global_eqb in *.
    apply Z.eqb_eq in He. apply Z.eqb_neq. lia.
  - intros x [->|Hx]%elem_of_cons; [done|by apply IH].
Qed.

(** The others stay connected. *)
Lemma connection_of_others p q l : globalID p <> globalID q ->
  connection_of q (erase_connection p l) = connection_of q l.
Proof.
  intros Hne. unfold connection_of, erase_connection. induction l as [|c l IH]; cbn; [done|].
  destruct (global_eqb (cc_clientID c) p) eqn:Hp.
  - assert (Hq : global_eqb (cc_clientID c) q = false); [|by rewrite Hq].
    unfold global_eqb in *. apply Z.eqb_eq in Hp. apply Z.eqb_neq. congruence.
  - cbn. by rewrite IH.
Qed.

(** ** An invariant of every server *)

Record server_inv (s : CServer) : Prop := {
  si_sorted : StronglySorted before (sv_mClientConnections s);
  si_session : sv_mSessionId s = INVALID_SESSION_ID;
}.

Definition inv_kept (s s' : CServer) : Prop := server_inv s -> server_inv s'.
#[export] Instance inv_kept_Frame : ServerFrame inv_kept.
Proof.
  assert (Hsame : forall s s', sv_mClientConnections s' = sv_mClientConnections s ->
    sv_mSessionId s' = sv_mSessionId s -> inv_kept s s').
  { intros s s' Hc Hs [H1 H2]. split; congruence. }
  split; try (intros; by apply Hsame).
  - by intros s Hs.
  - intros a b c H1 H2 H. by apply H2, H1.
Qed.

Definition same_connections (s s' : CServer) : Prop := sv_mClientConnections s' = sv_mClientConnections s.
#[export] Instance same_connections_Frame : ServerFrame same_connections.
Proof. split; try done. intros a b c H1 H2. unfold same_connections in *. congruence. Qed.

(** The calls an engine and the user make. *)
Inductive ServerCall :=
  | SC_data (h : DataHandle)
  | SC_connect (h : ConnectHandle)
  | SC_connectTCP (h : ConnectHandle)
  | SC_connectLegacy (h : ConnectHandle)
  | SC_disconnect (clientID : SPartyID)
  | SC_detached (id : Z)
  | SC_register (channel : Z)
  | SC_registerTCP (address port : Z)
  | SC_unregister
  | SC_user (u : UserProg).

Section invariant.
Context `{AppEnv} `{StubEnv}.

Definition run_call (c : ServerCall) : Prog (CServer * Net) unit :=
  match c with
  | SC_data h => handleDataRequest h
  | SC_connect h => handleConnectRequest h
  | SC_connectTCP h => handleConnectRequestTCP h
  | SC_connectLegacy h => handleLegacyConnectRequestTCP h
  | SC_disconnect p => handleDisconnectRequest p
  | SC_detached id => handleClientDetached id;; mret tt
  | SC_register ch => registerInterface ch
  | SC_registerTCP a p => registerInterfaceTCP a p
  | SC_unregister => unregisterInterface
  | SC_user u => run_user u
  end.

Lemma inv_change f :
  (forall s, StronglySorted before (sv_mClientConnections s) -> StronglySorted before (sv_mClientConnections (f s))) ->
  (forall s, sv_mSessionId (f s) = sv_mSessionId s) -> ensures (change f) (on_srv inv_kept).
Proof. intros H1 H2. apply ensures_change. intros s [H3 H4]. split; [auto|by rewrite H2]. Qed.

Lemma run_user_inv u : ensures (run_user u) (on_srv inv_kept).
Proof.
  intros t a t' Ht [H1 H2]. destruct (user_program_frame u t a t' Ht) as [_ Hc Hs]. split; congruence.
Qed.
Hint Resolve run_user_inv : ensure.

Ltac srv_inv := repeat first
  [ srv_step | cbv zeta beta; match goal with |- ensures (change _) _ => apply inv_change; [done|done] end ].

Lemma call_user_inv e : ensures (call_user e) (on_srv inv_kept).
Proof. unfold call_user. srv_inv. Qed.
Hint Resolve call_user_inv : ensure.
Lemma call_method_inv h : ensures (call_method h) (on_srv inv_kept).
Proof. unfold call_method. srv_inv. Qed.
Lemma push_session_inv sd : ensures (push_session sd) (on_srv inv_kept).
Proof. unfold push_session. srv_inv. Qed.
Lemma removeSession_inv sid : ensures (removeSession sid) (on_srv inv_kept).
Proof. unfold removeSession, removeSessionNotifications. srv_inv. Qed.
Hint Resolve call_method_inv push_session_inv removeSession_inv : ensure.

Lemma run_user_connections u : ensures (run_user u) (on_srv same_connections).
Proof. intros t a t' Ht. by destruct (user_program_frame u t a t' Ht). Qed.
Hint Resolve run_user_connections : ensure.

Ltac srv_conn := repeat first
  [ srv_step | cbv zeta beta; match goal with |- ensures (change _) _ => apply ensures_change; done end ].

Lemma processRequest_connections h : ensures (processRequest h) (on_srv same_connections).
Proof.
  unfold processRequest, call_method, call_user, push_session, removeSession, removeSessionNotifications.
  srv_conn.
Qed.

(** [processRequest] ends outside of any session. *)
Lemma processRequest_session h s n s' n' :
  sv_mSessionId s = INVALID_SESSION_ID -> processRequest h (s, n) = Ok tt (s', n') ->
  sv_mSessionId s' = INVALID_SESSION_ID.
Proof.
  intros Hs. unfold processRequest. destruct (st_method (dh_requestId h)) as [[]|].
  - assert (Hf : ensures (call_method h) (on_srv user_frame)).
    { pose proof user_program_frame. unfold call_method, call_user. srv_conn; auto. }
    intros Hr. pose proof (uf_sessionId _ _ (Hf _ _ _ Hr)) as He. cbn in He. congruence.
  - intros (s1 & t1 & _ & (? & t2 & _ & (? & t3 & _ & (? & t4 & _ & Hr)%pbind_inv)%pbind_inv)%pbind_inv)%pbind_inv.
    by injection Hr as <- _.
  - intros (s1 & t1 & _ & (? & t2 & _ & (? & t3 & _ & (? & t4 & _ & Hr)%pbind_inv)%pbind_inv)%pbind_inv)%pbind_inv.
    by injection Hr as <- _.
  - intros Hr. injection Hr as <- _. done.
Qed.

Lemma processRequest_inv h : ensures (processRequest h) (on_srv inv_kept).
Proof.
  intros [s n] [] [s' n'] Hr [H1 H2]. split; [|by eapply processRequest_session].
  pose proof (processRequest_connections h _ _ _ Hr) as Hc. unfold on_srv, same_connections in Hc. cbn in *. congruence.
Qed.
Hint Resolve processRequest_inv : ensure.

Lemma handleDataRequest_inv h : ensures (handleDataRequest h) (on_srv inv_kept).
Proof.
  unfold handleDataRequest, handle_request, handle_notify, add_notification, dangling, getResponseState,
    removeSessionNotifications.
  srv_inv.
Qed.

Lemma add_connection_inv hdr ch : ensures (add_connection hdr ch) (on_srv inv_kept).
Proof.
  unfold add_connection. srv_inv. apply inv_change; [|done]. intros s. apply insert_connection_sorted.
Qed.

Lemma sessions_loop_inv fuel i p : ensures (sessions_loop fuel i p) (on_srv inv_kept).
Proof. revert i. induction fuel as [|fuel IH]; intros i; cbn [sessions_loop]; srv_inv. Qed.
Hint Resolve add_connection_inv sessions_loop_inv : ensure.

Lemma cleanup_client_inv p : ensures (cleanup_client p) (on_srv inv_kept).
Proof.
  unfold cleanup_client, removeAllSessions, removeUnblockedSessions. srv_inv.
  apply inv_change; [|done]. intros s. apply erase_connection_sorted.
Qed.
Hint Resolve handleDataRequest_inv cleanup_client_inv : ensure.

Lemma run_call_inv c : ensures (run_call c) (on_srv inv_kept).
Proof.
  destruct c; cbn [run_call]; [srv_inv|..].
  - unfold handleConnectRequest. srv_inv.
  - unfold handleConnectRequestTCP, reply_address. srv_inv.
  - unfold handleLegacyConnectRequestTCP, reply_address. srv_inv.
  - unfold handleDisconnectRequest. srv_inv.
  - unfold handleClientDetached. srv_inv.
  - unfold registerInterface. srv_inv.
  - unfold registerInterfaceTCP. srv_inv.
  - unfold unregisterInterface, cleanupClientConnection. srv_inv.
    apply inv_change; [|done]. intros s _. constructor.
  - srv_inv.
Qed.
End invariant.

(** ** Clean-up *)

Section cleanup.
Context `{AppEnv} `{StubEnv}.

(** C31. Along every sequence of requests, connects, disconnects, registrations and calls of
    the user, for every program of the user, the client connections of a server stay
    strictly ordered by client, so that no client has two, and no register session is
    left open between the calls. *)
Theorem server_invariant cs id d tcp attributes n s' n' :
  pfor cs run_call (CServer_new id d tcp attributes, n) = Ok tt (s', n') ->
  server_inv s' /\ NoDup (map (fun c => globalID (cc_clientID c)) (sv_mClientConnections s')).
Proof.
  intros Hr. assert (Hinv : server_inv s').
  { apply (ensures_for (on_srv inv_kept) cs run_call run_call_inv _ _ _ Hr). split; [constructor|done]. }
  split; [done|]. destruct Hinv as [Hs _]. clear Hr. induction Hs as [|c l Hs IH Hc]; cbn; constructor; [|done].
  intros (x & Hx & Hin)%list_elem_of_fmap. eapply Forall_forall in Hc; [|done]. unfold before in Hc. cbn in Hx. lia.
Qed.

(** A method of the user, called at some moment, aborts the program with [c]. *)
Definition user_aborts (c : Crash) : Prop :=
  exists t s, run_user (st_user t) s = Aborted c.

(** A call whose result, if it is not aborted by a method of the user, satisfies [Q]. *)
Definition unless_user {A} (r : Result (CServer * Net) A) (Q : A -> CServer -> Prop) : Prop :=
  match r with Ok a t => Q a t.1 | Aborted c => user_aborts c end.

Lemma unless_user_bind {A B} (m : Prog (CServer * Net) A) (k : A -> Prog (CServer * Net) B) t Q R :
  unless_user (m t) R -> (forall a s' n', R a s' -> unless_user (k a (s', n')) Q) ->
  unless_user ((m ≫= k) t) Q.
Proof.
  unfold mbind, Prog_bind. destruct (m t) as [a [s' n']|c]; cbn; [|done]. intros Hr Hk. by apply Hk.
Qed.

Lemma unless_user_mono {A} (r : Result (CServer * Net) A) (Q R : A -> CServer -> Prop) :
  unless_user r R -> (forall a s, R a s -> Q a s) -> unless_user r Q.
Proof. destruct r as [a t|c]; cbn; auto. Qed.

(** The methods of the user prepare no response. *)
Definition user_quiet : Prop := forall t, quiet (st_user t).

(** What a method leaves of the server. *)
Definition user_effect (s s' : CServer) : Prop := user_frame s s' /\ (user_quiet -> shrinks s s').

Lemma call_user_effect e s n : unless_user (call_user e (s, n)) (fun _ => user_effect s).
Proof.
  set (n1 := n <| n_tick := S (n_tick n) |>). set (n2 := n1 <| n_log ::= fun l => l ++ [e (sv_mId s)] |>).
  assert (Hc : call_user e (s, n) = run_user (st_user (n_tick n)) (s, n2)).
  { unfold call_user.
    erewrite pbind_ok; [|unfold on_net; erewrite zoom_ok; [|unfold next_tick, mbind, Prog_bind, pgets, pmodify; reflexivity]; cbn; reflexivity].
    erewrite pbind_ok; [|unfold self, pgets; cbn [fst]; reflexivity].
    erewrite pbind_ok; [|unfold on_net; erewrite zoom_ok; [|unfold log_effect, pmodify; reflexivity]; cbn; reflexivity].
    reflexivity. }
  rewrite Hc. destruct (run_user (st_user (n_tick n)) (s, n2)) as [[] [s' n']|c] eqn:Hr; cbn; [|by eexists _, _].
  split; [apply (user_program_frame _ _ _ _ Hr)|].
  intros Hq. apply (quiet_frame shrinks _ (Hq _) _ _ _ Hr).
Qed.

Definition not_of (p : SPartyID) (sd : SessionData) : Prop := party_eqb (sd_clientID sd) p = false.
#[local] Instance not_of_dec p sd : Decision (not_of p sd) := decide (party_eqb (sd_clientID sd) p = false).

Lemma sessions_loop_effect p front back s n :
  sv_mSessions s = front ++ back ->
  unless_user (sessions_loop (length back) (length front) p (s, n)) (fun _ s' =>
    sv_mSessions s' = front ++ filter (not_of p) back /\
    sv_mClientConnections s' = sv_mClientConnections s /\ (user_quiet -> shrinks s s')).
Proof.
  revert front s n. induction back as [|sd back IH]; intros front s n Hs.
  { cbn. split; [done|]. split; [done|]. reflexivity. }
  cbn [length sessions_loop].
  erewrite pbind_ok; [|unfold self, pgets; cbn [fst]; rewrite Hs; by rewrite list_lookup_middle]. cbv beta match.
  rewrite filter_cons. destruct (decide (not_of p sd)) as [Hn|Hn]; unfold not_of in Hn.
  - rewrite Hn. specialize (IH (front ++ [sd]) s n). rewrite length_app, Nat.add_1_r in IH.
    rewrite <- !app_assoc in IH. cbn [app] in IH. by apply IH.
  - apply not_false_is_true in Hn. rewrite Hn.
    erewrite pbind_ok; [|unfold change, pmodify; cbn [fst snd]; reflexivity]. cbv beta.
    set (s1 := s <| sv_mCurrentSequenceNr := _ |>).
    apply (unless_user_bind _ _ _ _ (fun _ => user_effect s1)).
    { destruct (st_method (sd_updateId sd)) as [[]|]; try (split; reflexivity).
      apply call_user_effect. }
    intros _ s2 n2 [[Hf1 Hf2 Hf3] Hsh1].
    erewrite pbind_ok; [|unfold change, pmodify; cbn [fst snd]; reflexivity]. cbv beta.
    set (s3 := s2 <| sv_mCurrentSequenceNr := _ |> <| sv_mSessions ::= _ |>).
    eapply unless_user_mono; [apply (IH front s3 n2)|].
    { unfold s3. cbn. rewrite Hf1. unfold s1. cbn. rewrite Hs. apply delete_middle. }
    intros _ s' (Hs' & Hc' & Hsh'). split; [done|]. split; [by rewrite Hc'|]. intros Hq.
    trans s1; [by apply fr_other|]. trans s2; [auto|]. trans s3; [by split; [auto|left]|auto].
Qed.

(** What is gone whatever the user's methods do: the connection, the register sessions and
    the unblocked requests of the client. *)
Record gone (p : SPartyID) (s s' : CServer) : Prop := {
  go_connections : sv_mClientConnections s' = erase_connection p (sv_mClientConnections s);
  go_sessions : sv_mSessions s' = filter (not_of p) (sv_mSessions s);
  go_unblocked : forall h x, sv_mUnblockedSessions s' !! h = Some x -> party_eqb (sn_clientID x) p = false;
}.

(** What is left of a client: nothing; of the others, their connections, their sessions and
    no more notifications and unblocked requests than they had. *)
Record forgotten (p : SPartyID) (s s' : CServer) : Prop := {
  fg_connections : sv_mClientConnections s' = erase_connection p (sv_mClientConnections s);
  fg_notifications : forall x, x ∈ sv_mNotifications s' ->
    party_eqb (sn_clientID x) p = false /\ x ∈ sv_mNotifications s;
  fg_sessions : sv_mSessions s' = filter (not_of p) (sv_mSessions s);
  fg_unblocked : forall h x, sv_mUnblockedSessions s' !! h = Some x ->
    party_eqb (sn_clientID x) p = false /\
    (sv_mUnblockedSessions s !! h = Some x \/ x ∈ sv_mNotifications s);
}.

Definition cleaned (p : SPartyID) (s s' : CServer) : Prop := gone p s s' /\ (user_quiet -> forgotten p s s').

Lemma cleanup_client_cleans p s n : unless_user (cleanup_client p (s, n)) (fun _ => cleaned p s).
Proof.
  unfold cleanup_client.
  set (s1 := s <| sv_mNotifications ::= removed (R_value p) INVALID_ID |>).
  erewrite (pbind_ok _ _ _ tt (s1, n)) by done.
  set (s2 := s1 <| sv_mClientID := p |>).
  apply (unless_user_bind _ _ _ _ (fun _ s3 => sv_mSessions s3 = filter (not_of p) (sv_mSessions s) /\
    sv_mClientConnections s3 = sv_mClientConnections s /\ (user_quiet -> shrinks s2 s3))).
  { unfold removeAllSessions. erewrite (pbind_ok _ _ _ tt (s2, n)) by done.
    erewrite (pbind_ok _ _ _ (length (sv_mSessions s2)) (s2, n)) by done.
    eapply unless_user_bind; [apply (sessions_loop_effect p [] (sv_mSessions s2) s2 n); done|].
    intros _ s3 n3 (Hs3 & Hc3 & Hsh). split; [done|]. split; [done|]. intros Hq.
    destruct (Hsh Hq). by split. }
  intros _ s4 n4 (Hs4 & Hc4 & Hsh).
  erewrite pbind_ok; [|unfold removeUnblockedSessions, change, pmodify; cbn [fst snd]; reflexivity].
  unfold change, pmodify. cbn [unless_user fst]. split.
  - split; cbn; [by rewrite Hc4|done|]. by intros h x [_ Hp]%map_lookup_filter_Some.
  - intros Hq. destruct (Hsh Hq) as [Hn4 Hu4].
    assert (Hn : forall x, x ∈ sv_mNotifications s4 -> party_eqb (sn_clientID x) p = false /\ x ∈ sv_mNotifications s).
    { intros x Hx%Hn4. unfold s2, s1 in Hx. cbn in Hx. rewrite removed_value in Hx.
      apply list_elem_of_filter in Hx as [Hx Hin]. split; [|done]. unfold concerns in Hx.
      rewrite Z.eqb_refl in Hx. cbn in Hx. by rewrite andb_true_r in Hx. }
    split; cbn; [by rewrite Hc4|exact Hn|done|].
    intros h x [Hx Hp]%map_lookup_filter_Some. cbn in Hp. split; [done|].
    apply Hu4 in Hx as [Hx|Hx]; [by left|]. right. unfold s2, s1 in Hx. cbn in Hx.
    by eapply elem_of_removed.
Qed.

(** The same clean-up follows the pulse that a client is gone. *)
Lemma detached_forgets id s n c :
  find_first (fun c => cc_id c =? id) (sv_mClientConnections s) = Some c ->
  unless_user (handleClientDetached id (s, n)) (fun found s' => found = true /\ cleaned (cc_clientID c) s s').
Proof.
  intros Hc. unfold handleClientDetached.
  erewrite pbind_ok; [|unfold self, pgets; cbn [fst]; by rewrite Hc]. cbv beta match.
  eapply unless_user_bind; [apply cleanup_client_cleans|]. intros [] s' n' Hf. exact (conj eq_refl Hf).
Qed.

(** A servicebroker call that nothing is read from. *)
Lemma sb_request_returns call n : exists t n', sb_request call n = Ok t n'.
Proof.
  unfold sb_request, GetSBHandle, mbind, Prog_bind, pgets. destruct (n_sbHandle n <=? 0); cbn; eauto.
Qed.

(** C32. A disconnect request of a connected client, for every program of the user: it is
    aborted only if a method of the user, called when a register session ends, aborts.
    Otherwise it takes off the list the connection of the client and no other, its register
    sessions and no others, and leaves no unblocked request of it.  Unless the methods of the
    user prepare responses then, nothing else appears and no notification of the client is
    left ([prepared_while_leaving] shows one that is). *)
Theorem disconnect_forgets p c s n :
  server_inv s -> connection_of p (sv_mClientConnections s) = Some c ->
  match handleDisconnectRequest p (s, n) with
  | Ok _ (s', n') =>
    gone (cc_clientID c) s s' /\ (user_quiet -> forgotten (cc_clientID c) s s') /\
    connection_of p (sv_mClientConnections s') = None /\
    (forall q, globalID q <> globalID p ->
       connection_of q (sv_mClientConnections s') = connection_of q (sv_mClientConnections s))
  | Aborted x => user_aborts x
  end.
Proof.
  intros [Hsort _] Hc. unfold handleDisconnectRequest.
  erewrite pbind_ok; [|unfold self, pgets; cbn [fst]; by rewrite Hc]. cbv beta match.
  assert (Hclear : exists n1, pwhen (negb (cc_notificationID c =? 0))
    (on_net (sb_clearNotification (cc_notificationID c))) (s, n) = Ok tt (s, n1)).
  { destruct (negb _); cbn [pwhen]; [|by eexists]. unfold on_net, zoom, sb_clearNotification. cbn.
    destruct (sb_request_returns (SB_ClearNotification (cc_notificationID c)) n) as (t & n1 & Hr).
    erewrite pbind_ok by exact Hr. by eexists. }
  destruct Hclear as [n1 Hclear]. erewrite pbind_ok; [|exact Hclear].
  pose proof (cleanup_client_cleans (cc_clientID c) s n1) as Hclean.
  destruct (cleanup_client (cc_clientID c) (s, n1)) as [[] [s' n']|x]; [|exact Hclean].
  destruct Hclean as [Hg Hf]. cbn [fst] in Hg, Hf. split; [done|]. split; [done|].
  assert (globalID (cc_clientID c) = globalID p) as Hid.
  { apply find_first_Some in Hc as [_ Hid]. by apply Z.eqb_eq. }
  rewrite (go_connections _ _ _ Hg). split.
  - assert (He : connection_of p = connection_of (cc_clientID c)); [|by rewrite He; apply connection_of_erased].
    unfold connection_of, global_eqb. by rewrite Hid.
  - intros q Hq. apply connection_of_others. congruence.
Qed.
End cleanup.

(** ** Examples *)

#[local] Existing Instance demo_env.
#[local] Instance quiet_stub : StubEnv := {|
  st_getResponse := fun _ => 0x80000000;
  st_method := fun id => if id =? 2 then Some M_register else Some M_request;
  st_implVersion := 0xfffffffe;
  st_decode := fun _ _ => Done true;
  st_write := fun _ v _ _ _ => v;
  st_user := fun _ => U_clearActiveSessions U_done;
  st_grows := fun _ => false;
  st_junk := fun _ => 0;
|}.

Lemma demo_server_inv : server_inv demo_server.
Proof. split; [repeat constructor|done]. Qed.

Lemma disconnect_forgets_witness :
  exists s' n', handleDisconnectRequest (mkParty 5 0) (demo_server, demo_net) = Ok tt (s', n') /\
    forgotten (cc_clientID demo_client) demo_server s' /\
    connection_of (mkParty 5 0) (sv_mClientConnections s') = None.
Proof.
  pose proof (disconnect_forgets (mkParty 5 0) demo_client demo_server demo_net demo_server_inv eq_refl) as Hd.
  destruct (handleDisconnectRequest (mkParty 5 0) (demo_server, demo_net)) as [[] [s' n']|x] eqn:Hr;
    [|by vm_compute in Hr].
  destruct Hd as (_ & Hf & Hc & _). exists s', n'. split; [reflexivity|]. split; [|exact Hc].
  apply Hf. intros t. exact I.
Defined.

Definition demo_calls : list ServerCall :=
  [SC_connect (mkConnectHandle (MessageHeader_new (mkParty 9 0) (mkParty 6 0) ConnectRequest 0 8) 2 (78, 4));
   SC_data (mkDataHandle (mkParty 6 0) 0 (RequestType_value REQUEST_NOTIFY) 0x80000000 0 []);
   SC_disconnect (mkParty 5 0); SC_detached 4].

Lemma server_invariant_witness :
  exists s' n', pfor demo_calls run_call (CServer_new 1 (mkSFNDDescr (mkVersion 1 0) []) false ∅, demo_net)
                = Ok tt (s', n') /\
    (server_inv s' /\ NoDup (map (fun c => globalID (cc_clientID c)) (sv_mClientConnections s'))).
Proof.
  destruct (pfor demo_calls run_call (CServer_new 1 (mkSFNDDescr (mkVersion 1 0) []) false ∅, demo_net))
    as [[] [s' n']|] eqn:Hr; [|by vm_compute in Hr].
  exists s', n'. split; [done|]. by eapply server_invariant.
Defined.

(** A user that prepares the response to an unblocked request when a register session ends. *)
Definition preparing_stub : StubEnv := {|
  st_getResponse := fun _ => 0x80000000;
  st_method := fun id => if id =? 2 then Some M_register else Some M_request;
  st_implVersion := 0xfffffffe;
  st_decode := fun _ _ => Done true;
  st_write := fun _ v _ _ _ => v;
  st_user := fun _ => U_prepareResponse 7 U_done;
  st_grows := fun _ => false;
  st_junk := fun _ => 0;
|}.

(** [cleanup_client] removes the notifications before it ends the sessions: that of the
    unblocked request comes back and outlives its client. *)
Example prepared_while_leaving :
  let n5 := mkSNotification INVALID_SESSION_ID (mkParty 5 0) 0 0x80000000 in
  let s := demo_server <| sv_mSessions := [mkSession 3 (mkParty 5 0) 1 2] |>
                       <| sv_mUnblockedSessions := {[7 := n5]} |> in
  match @handleDisconnectRequest _ preparing_stub (mkParty 5 0) (s, demo_net) with
  | Ok _ (s', _) => sv_mClientConnections s' = [] /\ sv_mNotifications s' = [n5]
  | Aborted _ => False
  end.
Proof. vm_compute. done. Qed.
