(* ===== verification/Proxy.v ===== *)
(** The clients of an application: [CClient] and the state machine that connects it.

    [src/base/CClient.cpp], [include/dsi/CClient.hpp], [src/base/CClientConnectSM.cpp].
    A client waits for its server with a notification at the servicebroker; the pulse
    starts a [CClientConnectSM], which attaches at the servicebroker, opens a channel to
    the server and sends a connect request; the server's reply completes the connection
    or fails it.  The state machine lives in [mConnector] and owns a shared pointer to
    the channel it asked through.  The callbacks of the user, and the generated proxy in
    between, are lists of calls of the proxy's functions. *)

From S2P Require Import Prelude.
From S2P Require Import Types.
From S2P Require Import Buffer.
From S2P Require Import Stream.
From S2P Require Import Message.
From S2P Require Import Runtime.
From S2P Require Import Stub.

(** ** Data *)

Record CClientConnectSM := mkConnector {
  sm_mConnInfo : SConnectionInfo;
  sm_mTcpConnInfo : STCPConnectionInfo;
  sm_mChannel : option Z;
  sm_reading : bool;     (* asyncRead is pending *)
}.
#[export] Instance Eta_CClientConnectSM : Eta CClientConnectSM := fun m =>
  mkConnector (sm_mConnInfo m) (sm_mTcpConnInfo m) (sm_mChannel m) (sm_reading m).

(** The constructor clears both infos. *)
Definition CClientConnectSM_new : CClientConnectSM :=
  mkConnector (mkConnInfo (mkVersion 0 0) (mkChannel 0 0 0) NO_PARTY NO_PARTY)
    (mkTCPConnInfo (mkVersion 0 0) 0 0 NO_PARTY NO_PARTY) None false.

Record CClient := mkClient {
  cl_mId : Z;
  cl_mIfDescription : SFNDInterfaceDescription;
  cl_mClientID : SPartyID;
  cl_mServerID : SPartyID;
  cl_mCommEngine : bool;
  cl_mCurrentSequenceNr : Z;
  cl_mNotificationID : Z;
  cl_mChannel : option Z;
  cl_mConnector : option CClientConnectSM;
  cl_mProtoMinor : Z;
}.
#[export] Instance Eta_CClient : Eta CClient := fun c =>
  mkClient (cl_mId c) (cl_mIfDescription c) (cl_mClientID c) (cl_mServerID c) (cl_mCommEngine c)
    (cl_mCurrentSequenceNr c) (cl_mNotificationID c) (cl_mChannel c) (cl_mConnector c) (cl_mProtoMinor c).

(** The constructor: the channel is the dummy channel. *)
Definition CClient_new (id : Z) (ifDescription : SFNDInterfaceDescription) : CClient :=
  mkClient id ifDescription NO_PARTY NO_PARTY false INVALID_SEQUENCE_NR 0 (Some 0) None 0.

(** [operator uint64_t] as a condition. *)
Definition party_set (p : SPartyID) : bool := negb (globalID p =? 0).

Definition isConnected (c : CClient) (n : Net) : bool :=
  party_set (cl_mClientID c) && party_set (cl_mServerID c) && negb (expired (cl_mChannel c) n).

(** What the user's callbacks may call. *)
Inductive ClientAction :=
  | CA_setNotification (id : Z)
  | CA_clearNotification (id : Z)
  | CA_clearAllNotifications
  | CA_request (id : Z) (payload : bytes).

Class ProxyEnv := { px_user : nat -> list ClientAction }.

(** A data response as its handle presents it. *)
Record ResponseHandle := mkResponseHandle {
  rh_protoMinor : Z;
  rh_responseType : Z;
  rh_requestId : Z;
  rh_sequenceNumber : Z;
  rh_payload : bytes;
}.

Section client.
Context `{AppEnv} `{ProxyEnv}.

Abbreviation ClM := (Prog (CClient * Net)).

Definition cl_net {A} (m : Prog Net A) : ClM A := zoom snd (fun n t => (t.1, n)) m.
Definition me {A} (f : CClient -> A) : ClM A := pgets (fun t => f t.1).
Definition edit (f : CClient -> CClient) : ClM unit := pmodify (fun t => (f t.1, t.2)).

(** [if (!mChannel.expired()) writer(...).flush() else assert(!mChannel.expired())]. *)
Definition send_on_channel (p : CClient -> Packet) : ClM unit :=
  c ← me id;
  dead ← pgets (fun t => expired (cl_mChannel c) t.2);
  match cl_mChannel c, dead with
  | Some ch, false => cl_net (send_packet ch (p c));; mret tt
  | _, _ => abort C_assert
  end.

(** A request writer with an empty payload, or the one of a request; a sequence number of
    0 asks for a new id. *)
Definition send_request (type : RequestType) (id : Z) (protoMinor : CClient -> Z) (payload : bytes) : ClM unit :=
  c ← me (fun c => c);
  dead ← pgets (fun t => expired (cl_mChannel c) t.2);
  match cl_mChannel c, dead with
  | Some ch, false =>
    seq ← cl_net createId;
    cl_net (send_packet ch (packet_of
      (CRequestWriter_request (RequestType_value type) id DataRequest (cl_mClientID c) (cl_mServerID c)
         (protoMinor c) INVALID_SEQUENCE_NR seq) payload));;
    mret tt
  | _, _ => abort C_assert
  end.

Definition setNotification (id : Z) : ClM unit := send_request REQUEST_NOTIFY id cl_mProtoMinor [].
Definition clearNotification (id : Z) : ClM unit :=
  send_request REQUEST_STOP_NOTIFY id (fun _ => DSI_PROTOCOL_VERSION_MINOR) [].
Definition clearAllNotifications : ClM unit :=
  send_request REQUEST_STOP_ALL_NOTIFY INVALID_ID (fun _ => DSI_PROTOCOL_VERSION_MINOR) [].

Definition run_client_action (a : ClientAction) : ClM unit :=
  match a with
  | CA_setNotification id => setNotification id
  | CA_clearNotification id => clearNotification id
  | CA_clearAllNotifications => clearAllNotifications
  | CA_request id payload => send_request REQUEST id cl_mProtoMinor payload
  end.

(** A callback of the user. *)
Definition callback (e : Z -> Effect) : ClM unit :=
  t ← cl_net next_tick;
  i ← me cl_mId;
  cl_net (log_effect (e i));;
  pfor (px_user t) run_client_action.

Definition sendDisconnectRequest : ClM unit :=
  send_on_channel (fun c => packet_of (CRequestWriter_control DisconnectRequest (cl_mClientID c) (cl_mServerID c)
                                         DSI_PROTOCOL_VERSION_MINOR) []).

Definition setServerAvailableNotification (channel : Z) : ClM unit :=
  c ← me id;
  nid ← cl_net (sb_setServerAvailableNotification (cl_mIfDescription c) channel (cl_mId c));
  edit (fun c => c <| cl_mNotificationID := nid |>).

(** [CClient::removeNotification]. *)
Definition clear_server_notification : ClM unit :=
  nid ← me cl_mNotificationID;
  pwhen (negb (nid =? 0))
    (cl_net (sb_clearNotification nid);;
     edit (fun c => c <| cl_mNotificationID := 0 |>)).

(** [~CClientConnectSM] and its member [mChannel]. *)
Definition drop_connector : ClM unit :=
  m ← me cl_mConnector;
  edit (fun c => c <| cl_mConnector := None |>);;
  match m with
  | Some sm => match sm_mChannel sm with
               | Some ch => cl_net (pmodify (release_channel ch))
               | None => pskip
               end
  | None => pskip
  end.

Definition detachInterface (resetNotification : bool) : ClM unit :=
  clear_server_notification;;
  drop_connector;;
  c ← me id;
  pwhen (party_set (cl_mClientID c))
    (sendDisconnectRequest;;
     cl_net (sb_detachInterface (cl_mClientID c));;
     edit (fun c => c <| cl_mClientID := NO_PARTY |>));;
  c ← me id;
  pwhen (party_set (cl_mServerID c))
    (pwhen (cl_mCommEngine c) (callback E_disconnected);;
     edit (fun c => c <| cl_mServerID := NO_PARTY |>));;
  engine ← me cl_mCommEngine;
  pwhen (resetNotification && engine)
    (chid ← cl_net (pgets n_notifyChid);
     setServerAvailableNotification chid).

(** ** The connect state machine *)

(** The state machine that runs; [this] is not null. *)
Definition this {A} (f : CClientConnectSM -> A) : ClM A :=
  m ← me cl_mConnector;
  match m with Some sm => mret (f sm) | None => abort C_dangling end.

Definition edit_sm (f : CClientConnectSM -> CClientConnectSM) : ClM unit :=
  edit (fun c => c <| cl_mConnector ::= fmap f |>).

(** [mChannel = ...]: one more owner of the channel attached to, except for a private one,
    which is handed over. *)
Definition own_channel (ch : option Z) (private_ : bool) : ClM unit :=
  match ch with
  | Some ch => if private_ then pskip else cl_net (pmodify (acquire ch))
  | None => pskip
  end;;
  edit_sm (fun m => m <| sm_mChannel := ch |>).

Definition onFailure : ClM bool :=
  tcp ← this (fun m => ti_clientID (sm_mTcpConnInfo m));
  pwhen (party_set tcp) (cl_net (sb_detachInterface tcp));;
  conn ← this (fun m => ci_clientID (sm_mConnInfo m));
  pwhen (party_set conn) (cl_net (sb_detachInterface conn));;
  detachInterface true;;
  mret false.

Definition finalizeConnectRequest : ClM bool :=
  c ← me id;
  chid ← cl_net (pgets n_notifyChid);
  nid ← cl_net (sb_setServerDisconnectNotification (cl_mServerID c) chid (cl_mId c));
  edit (fun c => c <| cl_mNotificationID := nid |>);;
  callback E_connected;;
  drop_connector;;
  mret false.

(** [handle.getProtoMinor() < isprotoMinor ? ... : isprotoMinor]. *)
Definition negotiated (minor : Z) : Z :=
  if minor <? DSI_PROTOCOL_VERSION_MINOR then minor else DSI_PROTOCOL_VERSION_MINOR.

(** A connect request with its info in the payload. *)
Definition connect_request (clientID serverID : SPartyID) (payload : bytes) : Packet :=
  packet_of (CRequestWriter_control ConnectRequest clientID serverID DSI_PROTOCOL_VERSION_MINOR) payload.

Definition initiateConnectRequest : ClM bool :=
  info ← this sm_mConnInfo;
  ch ← this sm_mChannel;
  edit (fun c => c <| cl_mClientID := ci_clientID info |>);;
  chid ← cl_net (pgets n_localChid);
  match ch with
  | Some ch =>
    cl_net (send_packet ch (connect_request (ci_clientID info) (ci_serverID info)
                              (info_words (u32 env_pid, u32 chid))))
  | None => abort C_null
  end.

(** The extended info is followed by four bytes that are not initialised. *)
Definition initiateConnectRequestTCP : ClM bool :=
  engine ← me cl_mCommEngine;
  if engine : bool then
    info ← this sm_mTcpConnInfo;
    ch ← this sm_mChannel;
    t ← cl_net next_tick;
    match env_localName t, ch with
    | Some ip, Some ch =>
      port ← cl_net getIPPort;
      sent ← cl_net (send_packet ch (connect_request (ti_clientID info) (ti_serverID info)
                                       (info_words (u32 ip, u32 port) ++ take 4 (env_recv t))));
      if sent : bool then edit_sm (fun m => m <| sm_reading := true |>);; mret true else mret false
    | None, _ => mret false
    | _, None => abort C_null
    end
  else mret false.

(** The two halves of [CClientConnectSM::attach]: by TCP, then by a local channel if no
    channel is open.  The results are [detach]. *)
Definition sm_attach_tcp (connID : SPartyID) : ClM bool :=
  c ← me id;
  tcp ← this sm_mTcpConnInfo;
  q ← cl_net (sb_attachInterfaceTCP (cl_mIfDescription c) tcp);
  if negb (q.1 =? 0) then mret true
  else
    edit_sm (fun m => m <| sm_mTcpConnInfo := q.2 |>);;
    ch ← cl_net (attachTCP (ti_ipaddress q.2) (ti_port q.2) true);
    own_channel ch true;;
    match ch with
    | Some _ =>
      ok ← initiateConnectRequestTCP;
      if ok : bool then
        cl_net (sb_detachInterface connID);;
        edit_sm (fun m => m <| sm_mConnInfo ::= fun i =>
          mkConnInfo (ci_ifVersion i) (ci_channel i) (ci_serverID i) NO_PARTY |>);;
        mret false
      else mret true
    | None => mret true
    end.

Definition sm_attach_local (channel : SFNDChannelInfo) (detach : bool) : ClM bool :=
  if ch_nid channel =? 0 then
    ch ← cl_net (attach (ch_pid channel) (ch_chid channel));
    own_channel ch false;;
    match ch with
    | Some _ =>
      ok ← initiateConnectRequest;
      if ok : bool then
        tcp ← this (fun m => ti_clientID (sm_mTcpConnInfo m));
        pwhen (party_set tcp) (cl_net (sb_detachInterface tcp));;
        mret false
      else mret detach
    | None => mret detach
    end
  else mret detach.

Definition sm_attach_info : ClM bool :=
  c ← me id;
  info ← this sm_mConnInfo;
  r ← cl_net (sb_attachInterface (cl_mIfDescription c) info);
  if negb (r.1 =? 0) then mret true
  else
    edit_sm (fun m => m <| sm_mConnInfo := r.2 |>);;
    detach ← (if env_force_tcp || negb (ch_nid (ci_channel r.2) =? 0) then sm_attach_tcp (ci_clientID r.2)
              else mret true);
    ch ← this sm_mChannel;
    match ch with
    | Some _ => mret detach
    | None => sm_attach_local (ci_channel r.2) detach
    end.

(** [CClientConnectSM::attach]. *)
Definition sm_attach : ClM unit :=
  detach ← sm_attach_info;
  pwhen detach (onFailure;; mret tt).

(** [CClient::attachInterface], on the pulse that the server is available. *)
Definition attachInterface : ClM unit :=
  c ← me id;
  passert (cl_mCommEngine c);;
  passert (bool_decide (cl_mConnector c = None));;
  edit (fun c => c <| cl_mConnector := Some CClientConnectSM_new |>);;
  sm_attach.

(** [CClientConnectSM::handleConnectResponse]. *)
Definition sm_handleConnectResponse (h : ConnectHandle) : ClM unit :=
  if negb ((ch_info h).1 =? 0) then
    edit (fun c => c <| cl_mServerID := mh_serverID (ch_header h) |>);;
    ch ← cl_net (attach (i32 (ch_info h).1) (i32 (ch_info h).2));
    edit (fun c => c <| cl_mChannel := ch |> <| cl_mProtoMinor := negotiated (mh_protoMinor (ch_header h)) |>);;
    finalizeConnectRequest;;
    mret tt
  else onFailure;; mret tt.

Definition handleConnectResponse (h : ConnectHandle) : ClM unit :=
  c ← me id;
  passert (bool_decide (is_Some (cl_mConnector c)));;
  sm_handleConnectResponse h.

(** The end of a connect by TCP: the ids of the TCP attach, the shared channel. *)
Definition connect_by_tcp (address port protoMinor : Z) : ClM bool :=
  info ← this sm_mTcpConnInfo;
  edit (fun c => c <| cl_mClientID := ti_clientID info |> <| cl_mServerID := ti_serverID info |>);;
  ch ← cl_net (attachTCP address port false);
  edit (fun c => c <| cl_mChannel := ch |> <| cl_mProtoMinor := protoMinor |>);;
  finalizeConnectRequest.

Definition onConnectRequestTCP (hdr : MessageHeader) (info : Z * Z) : ClM bool :=
  if negb (info.1 =? 0) then connect_by_tcp info.1 info.2 (negotiated (mh_protoMinor hdr)) else onFailure.

(** The eight bytes read are a legacy reply, or the start of a message whose other forty
    bytes follow; the outcome of reading them is not looked at. *)
Definition onLegacyConnectRequestTCP (info : bytes) : ClM bool :=
  let ipAddress := field 0 4 info in
  if DSI_MESSAGE_MAGIC =? ipAddress then
    t ← cl_net next_tick;
    let buf := info ++ env_recv t in
    let hdr := header_of_bytes buf in
    if mh_cmd hdr =? Command_value ConnectResponse then
      onConnectRequestTCP hdr (field 40 4 buf, field 44 4 buf)
    else onFailure
  else if negb (ipAddress =? 0) then connect_by_tcp ipAddress (field 4 4 info) DSI_PROTOCOL_VERSION_MINOR
  else onFailure.

(** [readHandlerTCP]: the bytes read, or an error. *)
Definition readHandlerTCP (buffer : option bytes) : ClM bool :=
  edit_sm (fun m => m <| sm_reading := false |>);;
  match buffer with
  | Some info => onLegacyConnectRequestTCP info
  | None => onFailure
  end.

Definition handleDataResponse (h : ResponseHandle) : ClM unit :=
  minor ← me cl_mProtoMinor;
  if negb (minor =? rh_protoMinor h) then pskip
  else
    edit (fun c => c <| cl_mCurrentSequenceNr := rh_sequenceNumber h |>);;
    callback (fun client => E_response client (rh_responseType h) (rh_requestId h) (rh_payload h));;
    edit (fun c => c <| cl_mCurrentSequenceNr := INVALID_SEQUENCE_NR |>).
End client.
