(* ===== verification/Connect.v ===== *)
(** The life cycle of a client, and the ledger of its attachments.

    A client is waiting for its server, connecting or connected; every event moves it
    along the edges of that cycle.  A connect by a local channel succeeds when the
    servicebroker, the channel and the server agree.  Every client id the servicebroker
    hands out is given back or still in use. *)

From S2P Require Import Prelude.
From S2P Require Import Types.
From S2P Require Import Buffer.
From S2P Require Import Stream.
From S2P Require Import Message.
From S2P Require Import Runtime.
From S2P Require Import Stub.
From S2P Require Import Replies.
From S2P Require Import Proxy.

(** ** Phases *)

Inductive Phase := Waiting | Connecting | Connected.

Definition phase (c : CClient) : Phase :=
  match cl_mConnector c with
  | Some _ => Connecting
  | None => if party_set (cl_mClientID c) then Connected else Waiting
  end.

Inductive phase_edge : Phase -> Phase -> Prop :=
  | PE_stay p : phase_edge p p
  | PE_available : phase_edge Waiting Connecting
  | PE_complete : phase_edge Connecting Connected
  | PE_refused : phase_edge Connecting Waiting
  | PE_lost : phase_edge Connected Waiting.

(** A client between two events.  While it connects by a local channel it holds the id of
    the attach, while it waits for the reply by TCP its state machine does. *)
Definition client_wf (c : CClient) : Prop :=
  match cl_mConnector c with
  | None => party_set (cl_mServerID c) = party_set (cl_mClientID c)
  | Some sm =>
    party_set (cl_mServerID c) = false /\
    if sm_reading sm then
      party_set (cl_mClientID c) = false /\
      party_set (ti_clientID (sm_mTcpConnInfo sm)) = true /\
      party_set (ti_serverID (sm_mTcpConnInfo sm)) = true
    else party_set (cl_mClientID c) = true
  end.

(** What an engine asks a client to do. *)
Inductive ClientEvent :=
  | CE_available                       (* PULSE_SERVER_AVAILABLE *)
  | CE_response (h : ConnectHandle)    (* ConnectResponse *)
  | CE_read (buffer : option bytes)    (* the reply to a connect request by TCP *)
  | CE_detach (reset : bool)           (* the server or the channel is gone, or the engine stops *)
  | CE_data (h : ResponseHandle).      (* DataResponse *)

(** ** The ids the servicebroker has given out *)

Definition count_id (s : gset Z) (e : Effect) : gset Z :=
  match e with
  | E_attached p => {[globalID p]} ∪ s
  | E_sb _ (SB_DetachInterface p) => s ∖ {[globalID p]}
  | _ => s
  end.

Definition outstanding (n : Net) : gset Z := foldl count_id ∅ (n_log n).

(** The ids a client holds. *)
Definition holds (c : CClient) (x : Z) : Prop :=
  x = globalID (cl_mClientID c) \/
  exists sm, cl_mConnector c = Some sm /\ sm_reading sm = true /\ x = globalID (ti_clientID (sm_mTcpConnInfo sm)).

(** Every id given out is held by the client, or elsewhere. *)
Definition ledger (elsewhere : Z -> Prop) (c : CClient) (n : Net) : Prop :=
  forall x, x ∈ outstanding n -> elsewhere x \/ holds c x.

(** The id [p] is given back, if it is one. *)
Definition gives_back (p : SPartyID) (n n' : Net) : Prop :=
  forall x, x ∈ outstanding n' -> x ∈ outstanding n /\ (x = globalID p -> x = 0).

(** The client is unchanged and no id is given out or back. *)
Definition unchanged_but_log (t t' : CClient * Net) : Prop := t'.1 = t.1 /\ outstanding t'.2 = outstanding t.2.
#[export] Instance kept_reflexive : Reflexive unchanged_but_log.
Proof. by intros t. Qed.
#[export] Instance kept_transitive : Transitive unchanged_but_log.
Proof. intros a b c [H1 H2] [H3 H4]. unfold unchanged_but_log. by rewrite H3, H4. Qed.

Lemma not_set p : party_set p = false -> globalID p = 0.
Proof. unfold party_set. destruct (Z.eqb_spec (globalID p) 0); [done|done]. Qed.

(** The connector after some edits. *)
Ltac follow_connector := cbn; match goal with H : cl_mConnector _ = Some _ |- _ => rewrite H; cbn; reflexivity end.

Ltac at_connector :=
  first [eassumption | cbn; match goal with H : cl_mConnector _ = Some _ |- _ => rewrite H; reflexivity end].

Section client.
Context `{AppEnv} `{ProxyEnv}.

Definition run_event (e : ClientEvent) : Prog (CClient * Net) unit :=
  match e with
  | CE_available => attachInterface
  | CE_response h => handleConnectResponse h
  | CE_read b => readHandlerTCP b;; mret tt
  | CE_detach reset => detachInterface reset
  | CE_data h => handleDataResponse h
  end.

(** The servicebroker's pulse comes to a client that waits for it, a response to the client
    it names, the reply by TCP to one that reads. *)
Definition event_ok (e : ClientEvent) (c : CClient) : Prop :=
  match e with
  | CE_available => phase c = Waiting
  | CE_response h =>
    global_eqb (cl_mClientID c) (mh_clientID (ch_header h)) = true /\
    party_set (mh_clientID (ch_header h)) = true /\ party_set (mh_serverID (ch_header h)) = true
  | CE_read _ => exists sm, cl_mConnector c = Some sm /\ sm_reading sm = true
  | _ => True
  end.

(** ** Frames *)

Lemma quiet_log e : (forall s, count_id s e = s) -> ensures (log_effect e) (same outstanding).
Proof.
  intros He. apply ensures_modify. intros n. unfold same, outstanding. cbn. rewrite foldl_app. apply He.
Qed.
Hint Extern 1 (ensures (log_effect _) _) => apply quiet_log; done : ensure.
Hint Extern 1 (ensures (pmodify _) (same outstanding)) => apply ensures_modify; done : ensure.

Lemma quiet_tick : ensures next_tick (same outstanding).
Proof. unfold next_tick. ensure. Qed.
Hint Resolve quiet_tick : ensure.
Lemma quiet_createId : ensures createId (same outstanding).
Proof. unfold createId. ensure. Qed.
Lemma quiet_handle : ensures GetSBHandle (same outstanding).
Proof. unfold GetSBHandle. ensure. Qed.
Hint Resolve quiet_createId quiet_handle : ensure.
Lemma quiet_request call : (forall s h, count_id s (E_sb h call) = s) -> ensures (sb_request call) (same outstanding).
Proof. intros Hc. unfold sb_request. ensure. Qed.
Hint Extern 1 (ensures (sb_request _) _) => apply quiet_request; done : ensure.
Lemma quiet_available d ch v : ensures (sb_setServerAvailableNotification d ch v) (same outstanding).
Proof. unfold sb_setServerAvailableNotification. ensure. Qed.
Lemma quiet_disconnect p ch v : ensures (sb_setServerDisconnectNotification p ch v) (same outstanding).
Proof. unfold sb_setServerDisconnectNotification. ensure. Qed.
Lemma quiet_clear i : ensures (sb_clearNotification i) (same outstanding).
Proof. unfold sb_clearNotification. ensure. Qed.
Lemma quiet_send ch p : ensures (send_packet ch p) (same outstanding).
Proof. unfold send_packet. ensure. Qed.
Lemma quiet_cached c : ensures (cached_channel c) (same outstanding).
Proof. unfold cached_channel. ensure. Qed.
Lemma quiet_connection k : ensures (new_connection k) (same outstanding).
Proof. unfold new_connection. ensure. Qed.
Lemma quiet_private : ensures new_private_channel (same outstanding).
Proof. unfold new_private_channel. ensure. Qed.
Hint Resolve quiet_available quiet_disconnect quiet_clear quiet_send quiet_cached quiet_connection quiet_private : ensure.
Lemma quiet_attach p ch : ensures (attach p ch) (same outstanding).
Proof. unfold attach. ensure. Qed.
Lemma quiet_attachTCP h p b : ensures (attachTCP h p b) (same outstanding).
Proof. unfold attachTCP. ensure. Qed.
Lemma quiet_port : ensures getIPPort (same outstanding).
Proof. unfold getIPPort, startTCP. ensure. Qed.
Lemma quiet_release ch : ensures (pmodify (release_channel ch)) (same outstanding).
Proof.
  apply ensures_modify. intros n. unfold same, outstanding, release_channel.
  by destruct (n_channels n !! ch) as [[k [|[|r]]]|].
Qed.
Hint Resolve quiet_attach quiet_attachTCP quiet_port quiet_release : ensure.

Lemma kept_net {A} (m : Prog Net A) : ensures m (same outstanding) -> ensures (cl_net m) unchanged_but_log.
Proof.
  intros Hm [c n] a [c' n']. unfold cl_net, zoom. cbn. destruct (m n) as [b n1|] eqn:Hn; [|done].
  intros [= <- <- <-]. split; [done|]. apply (Hm _ _ _ Hn).
Qed.
Lemma kept_me {A} (f : CClient -> A) : ensures (me f) unchanged_but_log.
Proof. by intros [c n] a [c' n'] [= _ <- <-]. Qed.
Hint Resolve kept_me : ensure.
Hint Extern 2 (ensures (cl_net _) unchanged_but_log) => apply kept_net; ensure : ensure.

Lemma kept_request type id minor p : ensures (send_request type id minor p) unchanged_but_log.
Proof. unfold send_request. ensure. Qed.
Hint Resolve kept_request : ensure.
Lemma kept_action a : ensures (run_client_action a) unchanged_but_log.
Proof.
  destruct a; cbn [run_client_action]; unfold setNotification, clearNotification, clearAllNotifications; ensure.
Qed.
Hint Resolve kept_action : ensure.
Lemma kept_callback e : (forall i s, count_id s (e i) = s) -> ensures (callback e) unchanged_but_log.
Proof. intros He. unfold callback. ensure. Qed.
Lemma kept_disconnect : ensures sendDisconnectRequest unchanged_but_log.
Proof. unfold sendDisconnectRequest, send_on_channel. ensure. Qed.
Hint Extern 1 (ensures (callback _) _) => apply kept_callback; done : ensure.
Hint Resolve kept_disconnect : ensure.

(** ** Weakest preconditions *)

Lemma wlp_kept {A} (m : Prog (CClient * Net) A) (Q : A -> CClient * Net -> Prop) c n :
  ensures m unchanged_but_log -> (forall a n', outstanding n' = outstanding n -> Q a (c, n')) -> wlp m Q (c, n).
Proof.
  intros Hm HQ. apply (wlp_ensures _ _ _ _ Hm). intros a [c' n'] [Hc Hn]. cbn in *. subst. by apply HQ.
Qed.

Lemma wlp_me {A} (f : CClient -> A) (Q : A -> CClient * Net -> Prop) c n : Q (f c) (c, n) -> wlp (me f) Q (c, n).
Proof. done. Qed.
Lemma wlp_edit f (Q : unit -> CClient * Net -> Prop) c n : Q tt (f c, n) -> wlp (edit f) Q (c, n).
Proof. done. Qed.
Lemma wlp_this {A} (f : CClientConnectSM -> A) (Q : A -> CClient * Net -> Prop) c n sm :
  cl_mConnector c = Some sm -> Q (f sm) (c, n) -> wlp (this f) Q (c, n).
Proof. intros Hc HQ. unfold this. apply wlp_bind, wlp_me. rewrite Hc. exact HQ. Qed.

Lemma wlp_net {A} (m : Prog Net A) (Q : A -> CClient * Net -> Prop) c n :
  wlp m (fun a n' => Q a (c, n')) n -> wlp (cl_net m) Q (c, n).
Proof. unfold wlp, cl_net, zoom. cbn. by destruct (m n). Qed.

Lemma wlp_quiet {A} (m : Prog Net A) (Q : A -> Net -> Prop) n :
  ensures m (same outstanding) -> (forall a n', outstanding n' = outstanding n -> Q a n') -> wlp m Q n.
Proof. intros Hm HQ. by apply (wlp_ensures _ _ _ _ Hm). Qed.

Lemma wlp_log e (Q : unit -> Net -> Prop) n :
  (forall n', outstanding n' = count_id (outstanding n) e -> Q tt n') -> wlp (log_effect e) Q n.
Proof. intros HQ. apply wlp_modify, HQ. unfold outstanding. cbn. by rewrite foldl_app. Qed.

Lemma wlp_sb_request call (Q : nat -> Net -> Prop) n :
  (forall h t n', outstanding n' = count_id (outstanding n) (E_sb h call) -> Q t n') -> wlp (sb_request call) Q n.
Proof.
  intros HQ. unfold sb_request. apply wlp_bind, wlp_quiet; [ensure|]. intros h n1 H1.
  apply wlp_bind, wlp_quiet; [ensure|]. intros t n2 H2.
  apply wlp_bind, wlp_log. intros n3 H3. apply wlp_ret, (HQ h). congruence.
Qed.

Lemma wlp_detach_id p (Q : unit -> CClient * Net -> Prop) c n :
  (forall n', gives_back p n n' -> Q tt (c, n')) -> wlp (cl_net (sb_detachInterface p)) Q (c, n).
Proof.
  intros HQ. apply wlp_net, wlp_bind, wlp_sb_request. intros h t n' Hn. apply wlp_ret, HQ.
  intros x. rewrite Hn. cbn. set_solver.
Qed.

Lemma wlp_detach_if p (Q : unit -> CClient * Net -> Prop) c n :
  (forall n', gives_back p n n' -> Q tt (c, n')) ->
  wlp (pwhen (party_set p) (cl_net (sb_detachInterface p))) Q (c, n).
Proof.
  intros HQ. apply wlp_when; intros Hp; [by apply wlp_detach_id|]. apply HQ. intros x Hx. split; [done|].
  by rewrite (not_set _ Hp).
Qed.

(** What an attach gives out. *)
Definition given (rc : Z) (p : SPartyID) (n n' : Net) : Prop :=
  outstanding n' = if rc =? 0 then {[globalID p]} ∪ outstanding n else outstanding n.

Lemma wlp_attach d info (Q : Z * SConnectionInfo -> CClient * Net -> Prop) c n :
  (forall t n', given (env_rc t) (ci_clientID (env_connInfo t)) n n' ->
    Q (env_rc t, if env_rc t =? 0 then env_connInfo t else info) (c, n')) ->
  wlp (cl_net (sb_attachInterface d info)) Q (c, n).
Proof.
  intros HQ. apply wlp_net, wlp_bind, wlp_sb_request. intros h t n1 H1.
  apply wlp_bind, wlp_when; intros Hrc; [apply wlp_log; intros n2 H2|]; apply wlp_ret, HQ; unfold given;
    rewrite Hrc; cbn in *; congruence.
Qed.

Lemma wlp_attachTCP d info (Q : Z * STCPConnectionInfo -> CClient * Net -> Prop) c n :
  (forall t n', given (env_rc t) (ti_clientID (env_tcpInfo t)) n n' ->
    Q (env_rc t, if env_rc t =? 0 then env_tcpInfo t else info) (c, n')) ->
  wlp (cl_net (sb_attachInterfaceTCP d info)) Q (c, n).
Proof.
  intros HQ. apply wlp_net, wlp_bind, wlp_sb_request. intros h t n1 H1.
  apply wlp_bind, wlp_when; intros Hrc; [apply wlp_log; intros n2 H2|]; apply wlp_ret, HQ; unfold given;
    rewrite Hrc; cbn in *; congruence.
Qed.

Ltac wlp_step :=
  cbv beta;
  match goal with
  | |- wlp (mbind _ _) _ _ => apply wlp_bind
  | |- wlp (me _) _ _ => apply wlp_me; cbv beta
  | |- wlp (this _) _ _ => eapply wlp_this; [at_connector|cbv beta]
  | |- wlp (pwhen (party_set ?p) (cl_net (sb_detachInterface ?p))) _ _ => apply wlp_detach_if; intros ? ?
  | |- wlp (edit _) _ _ => apply wlp_edit; cbv beta
  | |- wlp (edit_sm _) _ _ => apply wlp_edit; cbv beta
  | |- wlp (cl_net (sb_detachInterface _)) _ _ => apply wlp_detach_id; intros ? ?
  | |- wlp (mret _) _ _ => apply wlp_ret
  | |- wlp pskip _ _ => apply wlp_skip
  | |- wlp (abort _) _ _ => apply wlp_abort
  | |- wlp (pwhen _ _) _ _ => apply wlp_when; intros ?
  | |- wlp (passert _) _ _ => apply wlp_assert; intros ?
  | |- wlp (match ?x with _ => _ end) _ _ => destruct x eqn:?
  | |- wlp _ _ _ => apply wlp_kept; [solve [ensure]|intros ? ? ?]
  end.
Ltac wlp_run := repeat wlp_step.

(** An id in the last state, followed back to the first. *)
Ltac trace_back :=
  repeat match goal with
  | H : outstanding ?n = _, Hx : _ ∈ outstanding ?n |- _ => rewrite H in Hx
  | H : gives_back _ _ ?n, Hx : _ ∈ outstanding ?n |- _ => apply H in Hx as [Hx ?]
  end.

(** ** Detaching *)

Definition is_idle (c : CClient) : Prop :=
  cl_mConnector c = None /\ party_set (cl_mClientID c) = false /\ party_set (cl_mServerID c) = false.

(** [detachInterface] ends in the waiting state and gives the id of the client back. *)
Lemma wlp_detach reset (Q : unit -> CClient * Net -> Prop) c n :
  (forall c' n', is_idle c' -> gives_back (cl_mClientID c) n n' -> Q tt (c', n')) ->
  wlp (detachInterface reset) Q (c, n).
Proof.
  intros HQ. unfold detachInterface, clear_server_notification, drop_connector, setServerAvailableNotification.
  wlp_run.
  all: cbn in *; apply HQ; [done|].
  all: intros x Hx; trace_back; repeat match goal with H : party_set _ = false |- _ => apply not_set in H end.
  all: split; [done|congruence || done].
Qed.

(** Without a new notification at the servicebroker, none is left. *)
Lemma wlp_detach_silent (Q : unit -> CClient * Net -> Prop) c n :
  (forall c' n', is_idle c' -> cl_mNotificationID c' = 0 -> Q tt (c', n')) ->
  wlp (detachInterface false) Q (c, n).
Proof.
  intros HQ. unfold detachInterface, clear_server_notification, drop_connector. wlp_run.
  all: try done.
  all: apply HQ; [done|]; try reflexivity.
  all: match goal with H : negb (cl_mNotificationID _ =? 0) = false |- _ => apply negb_false_iff, Z.eqb_eq in H; exact H end.
Qed.

(** The ids held elsewhere; 0 is no id. *)
Context (elsewhere : Z -> Prop) (elsewhere_0 : elsewhere 0).
Lemma no_id x : x = 0 -> elsewhere x.
Proof. by intros ->. Qed.
Hint Resolve no_id : core.

(** A state machine at work: the ids it knows may have been given out. *)
Definition attaching (c : CClient) (n : Net) : Prop :=
  exists sm, cl_mConnector c = Some sm /\ party_set (cl_mServerID c) = false /\
    forall x, x ∈ outstanding n ->
      elsewhere x \/ x = globalID (cl_mClientID c) \/ x = globalID (ci_clientID (sm_mConnInfo sm)) \/
      x = globalID (ti_clientID (sm_mTcpConnInfo sm)).

(** A state machine that waits for the server. *)
Definition waiting (c : CClient) (n : Net) : Prop :=
  is_Some (cl_mConnector c) /\ client_wf c /\ ledger elsewhere c n.

Definition gave_back (c : CClient) (n : Net) : Prop := is_idle c /\ forall x, x ∈ outstanding n -> elsewhere x.

Lemma gave_back_wf c n : gave_back c n -> client_wf c /\ ledger elsewhere c n.
Proof.
  intros [(Hc & H1 & H2) Hn]. unfold client_wf. rewrite Hc, H1, H2. split; [done|]. left. auto.
Qed.

(** Every id is given back. *)
Lemma wlp_onFailure (Q : bool -> CClient * Net -> Prop) c n :
  attaching c n -> (forall c' n', gave_back c' n' -> Q false (c', n')) -> wlp onFailure Q (c, n).
Proof.
  intros (sm & Hsm & _ & Ho) HQ. unfold onFailure.
  wlp_run. apply wlp_detach; intros c' n3 Hu H3. apply wlp_ret, HQ. split; [done|].
  intros x Hx. trace_back. destruct (Ho _ Hx) as [?|[?|[?|?]]]; auto.
Qed.

(** ** Attaching *)

(** The servicebroker hands out ids other than 0. *)
Definition broker_ok : Prop := forall t,
  party_set (ci_clientID (env_connInfo t)) = true /\
  party_set (ti_clientID (env_tcpInfo t)) = true /\ party_set (ti_serverID (env_tcpInfo t)) = true.

(** A state machine that has asked for the ids of its infos and has not sent a request. *)
Definition preparing (c : CClient) (sm : CClientConnectSM) (n : Net) : Prop :=
  cl_mConnector c = Some sm /\ sm_reading sm = false /\
  party_set (cl_mServerID c) = false /\ party_set (cl_mClientID c) = false /\
  forall x, x ∈ outstanding n ->
    elsewhere x \/ x = globalID (ci_clientID (sm_mConnInfo sm)) \/ x = globalID (ti_clientID (sm_mTcpConnInfo sm)).

Lemma preparing_attaching c sm n : preparing c sm n -> attaching c n.
Proof. intros (Hc & _ & Hs & _ & Hx). exists sm. split; [done|]. split; [done|]. intros x H1%Hx. tauto. Qed.

Lemma wlp_sm_attach_tcp connID (Q : bool -> CClient * Net -> Prop) c n sm :
  broker_ok -> preparing c sm n ->
  ci_clientID (sm_mConnInfo sm) = connID -> party_set (ti_clientID (sm_mTcpConnInfo sm)) = false ->
  (forall c' n' sm', preparing c' sm' n' -> ci_clientID (sm_mConnInfo sm') = connID -> Q true (c', n')) ->
  (forall c' n' sm', waiting c' n' -> cl_mConnector c' = Some sm' -> is_Some (sm_mChannel sm') -> Q false (c', n')) ->
  wlp (sm_attach_tcp connID) Q (c, n).
Proof.
  intros Hb (Hsm & Hr & Hs & Hc & Ho) Hid Ht%not_set Q1 Q2. unfold sm_attach_tcp.
  wlp_step. wlp_step. wlp_step. wlp_step. wlp_step. apply wlp_attachTCP. intros t n1 H1. unfold given in H1.
  destruct (Hb t) as (_ & Hb1 & Hb2). cbn [fst snd]. destruct (env_rc t =? 0) eqn:Hrc; cbn [negb].
  2:{ apply wlp_ret. apply (Q1 _ _ sm); [|done]. repeat split; try done. by rewrite H1. }
  assert (Hx : forall x, x ∈ outstanding n1 -> elsewhere x \/ x = globalID connID \/ x = globalID (ti_clientID (env_tcpInfo t))).
  { intros x. rewrite H1, elem_of_union, elem_of_singleton. intros [->|[Hx|[Hx|Hx]]%Ho]; subst; auto. }
  clear H1 Ho. unfold own_channel, initiateConnectRequestTCP. wlp_run.
  2-5: eapply Q1; [split; [follow_connector|repeat split; try done]|done];
       intros x Hn; trace_back; apply Hx in Hn; cbn; subst connID; tauto.
  eapply Q2; [split; [|split]|follow_connector|done].
  - cbn. rewrite Hsm. by eexists.
  - unfold client_wf. cbn. by rewrite Hsm.
  - intros x Hn. trace_back. apply Hx in Hn as [Hn|[Hn|Hn]]; [left; done|left; auto|].
    right. right. eexists. split; [follow_connector|]. done.
Qed.

Lemma wlp_sm_attach_local channel (Q : bool -> CClient * Net -> Prop) c n sm :
  preparing c sm n -> party_set (ci_clientID (sm_mConnInfo sm)) = true ->
  (forall c' n', attaching c' n' -> Q true (c', n')) ->
  (forall c' n', waiting c' n' -> Q false (c', n')) ->
  wlp (sm_attach_local channel true) Q (c, n).
Proof.
  intros (Hsm & Hr & Hs & Hc & Ho) Hid Q1 Q2. unfold sm_attach_local, own_channel, initiateConnectRequest.
  wlp_run.
  2-4: apply Q1; eexists; split; [follow_connector|split; [done|]];
       intros x Hn; trace_back; apply Ho in Hn; cbn; tauto.
  apply Q2. split; [cbn; rewrite Hsm; by eexists|split].
  - unfold client_wf. cbn. rewrite Hsm. cbn. by rewrite Hr.
  - intros x Hn. trace_back. apply Ho in Hn as [Hn|[Hn|Hn]]; [left; done| |left; auto].
    right. left. done.
Qed.

(** [CClientConnectSM::attach] leaves a client that waits for the server, or one that is
    detached again. *)
Lemma wlp_sm_attach (Q : unit -> CClient * Net -> Prop) c n :
  broker_ok -> cl_mConnector c = Some CClientConnectSM_new ->
  party_set (cl_mServerID c) = false -> party_set (cl_mClientID c) = false ->
  (forall x, x ∈ outstanding n -> elsewhere x) ->
  (forall c' n', waiting c' n' \/ gave_back c' n' -> Q tt (c', n')) ->
  wlp sm_attach Q (c, n).
Proof.
  intros Hb Hsm Hs Hc Ho HQ. unfold sm_attach.
  assert (Hfail : forall c' n', attaching c' n' ->
    wlp (pwhen true (onFailure;; mret tt)) Q (c', n')).
  { intros c' n' Ha. apply wlp_bind, wlp_onFailure; [done|]. intros. apply wlp_ret, HQ. auto. }
  assert (Hp0 : preparing c CClientConnectSM_new n) by (repeat split; auto).
  unfold sm_attach_info. do 6 wlp_step.
  apply wlp_attach. intros t n1 H1. destruct (Hb t) as (Hb1 & _). unfold given in H1. cbn [fst snd].
  destruct (env_rc t =? 0) eqn:Hrc; cbn [negb].
  2:{ apply wlp_ret, Hfail. apply (preparing_attaching _ CClientConnectSM_new).
      repeat split; auto. rewrite H1. auto. }
  wlp_step. wlp_step. set (sm1 := mkConnector (env_connInfo t) (sm_mTcpConnInfo CClientConnectSM_new) None false).
  set (c1 := c <| cl_mConnector ::= _ |>).
  assert (Hp : preparing c1 sm1 n1).
  { split; [unfold c1; follow_connector|]. repeat split; auto. intros x. rewrite H1, elem_of_union, elem_of_singleton.
    intros [->|Hx%Ho]; auto. }
  clearbody c1. wlp_step.
  assert (Hlocal : forall c' n' sm', preparing c' sm' n' -> party_set (ci_clientID (sm_mConnInfo sm')) = true ->
    wlp (sm_attach_local (ci_channel (env_connInfo t)) true) (fun detach t => wlp (pwhen detach (onFailure;; mret tt)) Q t) (c', n')).
  { intros c' n' sm' Hp' Hi. apply (wlp_sm_attach_local _ _ _ _ _ Hp' Hi); [done|]. intros. apply wlp_skip, HQ. auto. }
  assert (Hrest : forall c' n' sm', preparing c' sm' n' -> party_set (ci_clientID (sm_mConnInfo sm')) = true ->
    wlp (ch ← this sm_mChannel;
         match ch with Some _ => mret true | None => sm_attach_local (ci_channel (env_connInfo t)) true end)
      (fun detach t => wlp (pwhen detach (onFailure;; mret tt)) Q t) (c', n')).
  { intros c' n' sm' Hp' Hi. wlp_step. eapply wlp_this; [apply Hp'|].
    destruct (sm_mChannel sm'); [apply wlp_ret, Hfail, (preparing_attaching _ sm'), Hp'|by eapply Hlocal]. }
  destruct (env_force_tcp || _).
  - eapply wlp_sm_attach_tcp; try done; [|].
    + intros c' n' sm' Hp' Hi. eapply Hrest; [done|]. congruence.
    + intros c' n' sm' Hw Hc' [ch Hch]. wlp_step. eapply wlp_this; [done|]. rewrite Hch.
      apply wlp_ret, wlp_skip, HQ. auto.
  - apply wlp_ret. by eapply Hrest.
Qed.

(** ** Events *)

Lemma wlp_finalize (Q : bool -> CClient * Net -> Prop) c n :
  (forall c' n', outstanding n' = outstanding n -> cl_mConnector c' = None ->
     cl_mClientID c' = cl_mClientID c -> cl_mServerID c' = cl_mServerID c -> Q false (c', n')) ->
  wlp finalizeConnectRequest Q (c, n).
Proof. intros HQ. unfold finalizeConnectRequest, drop_connector. wlp_run; apply HQ; cbn in *; congruence. Qed.

(** What an event may do to a client. *)
Definition event_done (c c' : CClient) (n' : Net) : Prop :=
  client_wf c' /\ ledger elsewhere c' n' /\ phase_edge (phase c) (phase c').

Lemma done_detached c c' n' : gave_back c' n' -> event_done c c' n'.
Proof.
  intros Hg. destruct (gave_back_wf _ _ Hg) as [Hw Hl]. destruct Hg as [(H1 & H2 & H3) _].
  split; [done|]. split; [done|]. unfold phase. rewrite H1, H2.
  destruct (cl_mConnector c), (party_set (cl_mClientID c)); constructor.
Qed.

Lemma done_connected c c' n' :
  phase c = Connecting -> cl_mConnector c' = None ->
  party_set (cl_mClientID c') = true -> party_set (cl_mServerID c') = true ->
  ledger elsewhere c' n' -> event_done c c' n'.
Proof.
  intros Hp H1 H2 H3 Hl. split; [unfold client_wf; rewrite H1; congruence|]. split; [done|].
  rewrite Hp. unfold phase. rewrite H1, H2. constructor.
Qed.

Lemma connecting c sm : cl_mConnector c = Some sm -> phase c = Connecting.
Proof. unfold phase. by intros ->. Qed.

Lemma wlp_response h c n :
  client_wf c -> event_ok (CE_response h) c -> ledger elsewhere c n ->
  wlp (handleConnectResponse h) (fun _ t => event_done c t.1 t.2) (c, n).
Proof.
  intros Hw (Hid & Hh & Hs) Hl. unfold handleConnectResponse, sm_handleConnectResponse.
  assert (Hset : party_set (cl_mClientID c) = true).
  { unfold global_eqb, party_set in *. apply Z.eqb_eq in Hid. by rewrite Hid. }
  do 4 wlp_step. match goal with H : bool_decide _ = true |- _ => apply bool_decide_eq_true in H as [sm Hsm] end.
  cbn in Hsm. unfold client_wf in Hw. rewrite Hsm in Hw. destruct Hw as [Hsv Hr].
  assert (Hrd : sm_reading sm = false) by (destruct (sm_reading sm); [destruct Hr; congruence|done]).
  assert (Ho : forall x, x ∈ outstanding n -> elsewhere x \/ x = globalID (cl_mClientID c)).
  { intros x [Hx|[Hx|(sm' & Hc' & Hr' & _)]]%Hl; auto. congruence. }
  wlp_step.
  - wlp_run. apply wlp_finalize. intros c' n2 Hn Hc' E1 E2. wlp_run. cbn [fst snd].
    apply done_connected; [by eapply connecting|done|by rewrite E1|by rewrite E2|].
    intros x Hx. trace_back. destruct (Ho _ Hx); [by left|]. right. left. by rewrite E1.
  - wlp_step. apply wlp_onFailure; [|intros; wlp_step; by apply done_detached].
    exists sm. split; [done|]. split; [done|]. intros x [Hx|Hx]%Ho; auto.
Qed.

Lemma wlp_connect_by_tcp address port minor c0 c n sm :
  phase c0 = Connecting -> cl_mConnector c = Some sm ->
  party_set (ti_clientID (sm_mTcpConnInfo sm)) = true -> party_set (ti_serverID (sm_mTcpConnInfo sm)) = true ->
  (forall x, x ∈ outstanding n -> elsewhere x \/ x = globalID (ti_clientID (sm_mTcpConnInfo sm))) ->
  wlp (connect_by_tcp address port minor) (fun _ t => event_done c0 t.1 t.2) (c, n).
Proof.
  intros Hp Hsm Hc Hs Ho. unfold connect_by_tcp. wlp_run.
  apply wlp_finalize. intros c' n2 Hn Hc' E1 E2. cbn [fst snd]. apply done_connected; [done|done|by rewrite E1|by rewrite E2|].
  intros x Hx. cbn [snd] in Hx. trace_back. destruct (Ho _ Hx); [by left|]. right. left. by rewrite E1.
Qed.

Lemma wlp_read buffer c n :
  client_wf c -> event_ok (CE_read buffer) c -> ledger elsewhere c n ->
  wlp (readHandlerTCP buffer) (fun _ t => event_done c t.1 t.2) (c, n).
Proof.
  intros Hw (sm & Hsm & Hrd) Hl. unfold client_wf in Hw. rewrite Hsm, Hrd in Hw. destruct Hw as (Hsv & Hcl & H1 & H2).
  assert (Ho : forall x, x ∈ outstanding n -> elsewhere x \/ x = globalID (ti_clientID (sm_mTcpConnInfo sm))).
  { intros x [Hx|[Hx|(sm' & Hc' & _ & Hx)]]%Hl; auto; [rewrite (not_set _ Hcl) in Hx; auto|]. right. congruence. }
  assert (Hfail : forall n', outstanding n' = outstanding n ->
    wlp onFailure (fun _ t => event_done c t.1 t.2) (c <| cl_mConnector ::= fmap (fun m => m <| sm_reading := false |>) |>, n')).
  { intros n' Hn. apply wlp_onFailure; [|intros; by apply done_detached].
    eexists. split; [follow_connector|]. split; [done|]. intros x Hx. trace_back. destruct (Ho _ Hx); auto. }
  assert (Htcp : forall n' a p m, outstanding n' = outstanding n ->
    wlp (connect_by_tcp a p m) (fun _ t => event_done c t.1 t.2)
      (c <| cl_mConnector ::= fmap (fun m => m <| sm_reading := false |>) |>, n')).
  { intros n' a p m Hn. eapply wlp_connect_by_tcp; [by eapply connecting|follow_connector|done|done|].
    intros x Hx. trace_back. by apply Ho. }
  unfold readHandlerTCP, onLegacyConnectRequestTCP, onConnectRequestTCP. do 2 wlp_step.
  destruct buffer as [info|]; [|by apply Hfail]. cbv zeta.
  destruct (_ =? field 0 4 info).
  - do 2 wlp_step. destruct (mh_cmd _ =? _); [|by apply Hfail]. destruct (negb _); [by apply Htcp|by apply Hfail].
  - destruct (negb _); [by apply Htcp|by apply Hfail].
Qed.

Lemma wlp_data h c n : client_wf c -> ledger elsewhere c n ->
  wlp (handleDataResponse h) (fun _ t => event_done c t.1 t.2) (c, n).
Proof.
  intros Hw Hl. unfold handleDataResponse. wlp_run; (split; [done|]; split; [|constructor]).
  - done.
  - intros x Hx. cbn [snd] in Hx. trace_back. by apply Hl.
Qed.

(** The spec of every event but a detach while the reply by TCP is awaited. *)
Lemma wlp_event e c n :
  broker_ok -> client_wf c -> event_ok e c -> ledger elsewhere c n ->
  (forall reset sm, e = CE_detach reset -> cl_mConnector c = Some sm ->
     sm_reading sm = true -> elsewhere (globalID (ti_clientID (sm_mTcpConnInfo sm)))) ->
  wlp (run_event e) (fun _ t => event_done c t.1 t.2) (c, n).
Proof.
  intros Hb Hw He Hl Hd. destruct e as [|h|b|reset|h]; cbn [run_event].
  - unfold event_ok, phase in He. destruct (cl_mConnector c) eqn:Hc; [done|].
    destruct (party_set (cl_mClientID c)) eqn:Hcl; [done|]. unfold client_wf in Hw. rewrite Hc, Hcl in Hw.
    unfold attachInterface. do 7 wlp_step. apply wlp_sm_attach; try done.
    + intros x [Hx|[Hx|(sm & Hsm & _)]]%Hl; [done| |congruence]. rewrite (not_set _ Hcl) in Hx. auto.
    + intros c' n' [([sm' Hsm'] & Hw' & Hl')|Hg]; [|by apply done_detached].
      split; [done|]. split; [done|]. unfold phase. rewrite Hc, Hcl. cbn [fst]. rewrite Hsm'. constructor.
  - by apply wlp_response.
  - apply wlp_bind. eapply wlp_mono; [|by apply wlp_read]. intros a [c' n'] Hq. by apply wlp_ret.
  - apply wlp_detach. intros c' n' Hu Hg. apply done_detached. split; [done|]. intros x Hx. trace_back.
    apply Hl in Hx as [Hx|[Hx|(sm & Hsm & Hr & ->)]]; auto. by eapply Hd.
  - by apply wlp_data.
Qed.
End client.

(** ** The life cycle *)

(** One event; the rest of the process may do anything in between. *)
Definition client_step `{AppEnv} `{ProxyEnv} (c c' : CClient) : Prop :=
  exists e n n', event_ok e c /\ run_event e (c, n) = Ok tt (c', n').

Lemma event_wf `{AppEnv} `{ProxyEnv} c c' :
  broker_ok -> client_wf c -> client_step c c' -> client_wf c' /\ phase_edge (phase c) (phase c').
Proof.
  intros Hb Hw (e & n & n' & He & Hr).
  pose proof (wlp_ok _ _ _ _ _ (wlp_event (fun _ => True) I e c n Hb Hw He (fun _ _ => or_introl I)
    (fun _ _ _ _ _ => I)) Hr) as (H1 & _ & H2). done.
Qed.

(** C33. A client that an application made, whatever its engine, the servicebroker's answers, the
    servers and its own callbacks make of the events, as long as these come as expected
    ([event_ok]: the pulse that the server is available to a client that waits for it, a connect
    response with its ids set to the client it names, a reply by TCP to one that reads it;
    detaches and data at any time): it is well formed after every event, and every event that
    ends normally moves it along the cycle of waiting, connecting and connected, which is never
    entered at its end.  A second pulse aborts a connecting client and takes a connected one
    back to connecting ([second_pulse], [second_pulse_reconnects]). *)
Theorem client_life_cycle `{AppEnv} `{ProxyEnv} id d engine c c' :
  broker_ok ->
  rtc client_step (CClient_new id d <| cl_mCommEngine := engine |>) c ->
  client_step c c' ->
  client_wf c' /\ phase_edge (phase c) (phase c').
Proof.
  intros Hb Hr Hs. apply event_wf; [done| |done].
  assert (client_wf (CClient_new id d <| cl_mCommEngine := engine |>)) as Hw by done.
  induction Hr as [|c0 c1 c2 H1 _ IH]; [done|]. apply IH; [done|]. by eapply event_wf.
Qed.

(** The id an event loses: that of the attach by TCP of a client that is detached while its state
    machine waits for the reply. *)
Definition leaked (e : ClientEvent) (c : CClient) (x : Z) : Prop :=
  exists reset sm, e = CE_detach reset /\ cl_mConnector c = Some sm /\ sm_reading sm = true /\
    x = globalID (ti_clientID (sm_mTcpConnInfo sm)).

(** C34. The ledger of the servicebroker's ids: after every expected event each client id that was
    given out and not given back is the id of the client, or one its state machine will give it,
    or is held elsewhere; the only one that can be lost is that of the attach by TCP of a client
    that is detached while its state machine waits for the reply ([tcp_detach_leaks] shows that
    it is). *)
Theorem ids_accounted `{AppEnv} `{ProxyEnv} (elsewhere : Z -> Prop) e c n c' n' :
  broker_ok -> elsewhere 0 -> client_wf c -> event_ok e c -> ledger elsewhere c n ->
  run_event e (c, n) = Ok tt (c', n') ->
  ledger (fun x => elsewhere x \/ leaked e c x) c' n'.
Proof.
  intros Hb He0 Hw He Hl Hr.
  refine (proj1 (proj2 (wlp_ok _ _ _ _ _ (wlp_event _ (or_introl He0) e c n Hb Hw He _ _) Hr))).
  - intros x Hx. destruct (Hl x Hx); auto.
  - intros reset sm He' Hc Hrd. right. by exists reset, sm.
Qed.

(** ** A connect that succeeds *)

(** The computation ends normally, and the states are related. *)
Definition runs {S A} (m : Prog S A) (R : S -> S -> Prop) : Prop :=
  forall s, exists a s', m s = Ok a s' /\ R s s'.

Section runs.
Context {S : Type} (R : S -> S -> Prop) `{!Reflexive R} `{!Transitive R}.

Lemma runs_ret {A} (a : A) : runs (mret a) R.
Proof. intros s. by exists a, s. Qed.
Lemma runs_gets {A} (f : S -> A) : runs (pgets f) R.
Proof. intros s. by exists (f s), s. Qed.
Lemma runs_skip : runs pskip R.
Proof. intros s. by exists tt, s. Qed.
Lemma runs_modify (f : S -> S) : (forall s, R s (f s)) -> runs (pmodify f) R.
Proof. intros Hf s. by exists tt, (f s). Qed.
Lemma runs_bind {A B} (m : Prog S A) (k : A -> Prog S B) :
  runs m R -> (forall a, runs (k a) R) -> runs (m ≫= k) R.
Proof.
  intros Hm Hk s. destruct (Hm s) as (a & s1 & H1 & R1). destruct (Hk a s1) as (b & s2 & H2 & R2).
  exists b, s2. rewrite (pbind_ok _ _ _ _ _ H1). split; [done|]. by etrans.
Qed.
Lemma runs_for {A} (l : list A) (body : A -> Prog S unit) :
  (forall x, runs (body x) R) -> runs (pfor l body) R.
Proof.
  intros Hb. induction l as [|x l IH]; cbn [pfor]; [apply runs_skip|]. by apply runs_bind.
Qed.
End runs.

(** The total weakest precondition. *)
Definition twp {S A} (m : Prog S A) (Q : A -> S -> Prop) (s : S) : Prop :=
  exists a s', m s = Ok a s' /\ Q a s'.

Lemma twp_bind {S A B} (m : Prog S A) (k : A -> Prog S B) Q s :
  twp m (fun a => twp (k a) Q) s -> twp (m ≫= k) Q s.
Proof.
  intros (a & s1 & H1 & b & s2 & H2 & HQ). exists b, s2. by rewrite (pbind_ok _ _ _ _ _ H1).
Qed.
Lemma twp_runs {S A} (m : Prog S A) R (Q : A -> S -> Prop) s :
  runs m R -> (forall a s', R s s' -> Q a s') -> twp m Q s.
Proof. intros Hm HQ. destruct (Hm s) as (a & s' & H1 & H2). exists a, s'. auto. Qed.
Lemma twp_ok {S A} (m : Prog S A) Q s a s' : m s = Ok a s' -> Q a s' -> twp m Q s.
Proof. intros Hm HQ. by exists a, s'. Qed.
Lemma twp_assert {S} b (Q : unit -> S -> Prop) s : b = true -> Q tt s -> twp (passert b) Q s.
Proof. intros -> HQ. by exists tt, s. Qed.

(** The transport is as before and the log only grows. *)
Definition grows (n n' : Net) : Prop :=
  n_connections n' = n_connections n /\ n_channels n' = n_channels n /\ n_newest n' = n_newest n /\
  n_localChannels n' = n_localChannels n /\ n_tcpChannels n' = n_tcpChannels n /\
  n_localChid n' = n_localChid n /\ forall e, e ∈ n_log n -> e ∈ n_log n'.
#[export] Instance grows_reflexive : Reflexive grows.
Proof. by intros n. Qed.
#[export] Instance grows_transitive : Transitive grows.
Proof.
  intros a b c (A1 & A2 & A3 & A4 & A5 & A6 & A7) (B1 & B2 & B3 & B4 & B5 & B6 & B7).
  unfold grows. rewrite B1, B2, B3, B4, B5, B6. repeat split; auto.
Qed.

(** Every connection has its channel, and the caches name connections. *)
Record net_wf (n : Net) : Prop := {
  nw_owned : forall ch, ch ∈ n_connections n ->
    exists k r, n_channels n !! ch = Some (k, S r) /\ 0 < ch <= n_newest n;
  nw_channels : forall ch, is_Some (n_channels n !! ch) -> ch <= n_newest n;
  nw_local : forall ep ch, n_localChannels n !! ep = Some ch -> ch ∈ n_connections n;
  nw_newest : 0 <= n_newest n;
}.

Lemma grows_wf n n' : grows n n' -> net_wf n -> net_wf n'.
Proof.
  intros (H1 & H2 & H3 & H4 & _) [A B C D]. split; rewrite ?H1, ?H2, ?H3, ?H4; auto.
Qed.

Section local.
Context `{AppEnv} `{ProxyEnv}.

(** The servicebroker answers every call, the sockets connect and send, and the server is on
    this host. *)
Record all_well : Prop := {
  aw_local : env_force_tcp = false;
  aw_rc t : env_rc t = 0;
  aw_nid t : ch_nid (ci_channel (env_connInfo t)) = 0;
  aw_connect t : env_connect t = true;
  aw_send t : env_send t = true;
}.
Ltac runs_step :=
  cbv zeta beta;
  match goal with
  | |- runs (mbind _ _) _ => apply runs_bind; [exact _| |intros ?]
  | |- runs (mret _) _ => apply runs_ret; exact _
  | |- runs (pgets _) _ => apply runs_gets; exact _
  | |- runs pskip _ => apply runs_skip; exact _
  | |- runs (pwhen ?b _) _ => unfold pwhen; destruct b
  | |- runs (pfor _ _) _ => apply runs_for; [exact _|exact _|intros ?]
  | |- runs (match ?x with _ => _ end) _ => destruct x
  | |- runs _ _ => solve [eauto with ensure nocore]
  end.
Ltac run := repeat runs_step.

Lemma runs_log e : runs (log_effect e) grows.
Proof. apply runs_modify. intros n. repeat split. intros x Hx. cbn. set_solver. Qed.
Hint Resolve runs_log : ensure.
Hint Extern 1 (runs (pmodify _) grows) => apply runs_modify; intros; by repeat split : ensure.
Lemma runs_tick : runs next_tick grows.
Proof. unfold next_tick. run. Qed.
Hint Resolve runs_tick : ensure.
Lemma runs_createId : runs createId grows.
Proof. unfold createId. run. Qed.
Lemma runs_handle : runs GetSBHandle grows.
Proof. unfold GetSBHandle. run. Qed.
Hint Resolve runs_createId runs_handle : ensure.
Lemma runs_request call : runs (sb_request call) grows.
Proof. unfold sb_request. run. Qed.
Hint Resolve runs_request : ensure.
Lemma runs_disconnect p ch v : runs (sb_setServerDisconnectNotification p ch v) grows.
Proof. unfold sb_setServerDisconnectNotification. run. Qed.
Lemma runs_detach p : runs (sb_detachInterface p) grows.
Proof. unfold sb_detachInterface. run. Qed.
Lemma runs_sb_attach d i : runs (sb_attachInterface d i) grows.
Proof. unfold sb_attachInterface. run. Qed.
Hint Resolve runs_disconnect runs_detach runs_sb_attach : ensure.

Context (Hwell : all_well).

(** A packet on a channel. *)
Lemma twp_send ch p (Q : bool -> Net -> Prop) n :
  ch <> 0 -> (forall n', grows n n' -> E_send ch p true ∈ n_log n' -> Q true n') -> twp (send_packet ch p) Q n.
Proof.
  intros Hch HQ. unfold send_packet. apply twp_bind, twp_assert; [by apply negb_true_iff, Z.eqb_neq|].
  apply twp_bind. eapply twp_runs; [apply runs_tick|]. intros t n1 H1.
  apply twp_bind. eapply twp_ok; [reflexivity|]. rewrite (aw_send Hwell). eexists _, _. split; [reflexivity|].
  apply HQ; [etrans; [done|]; repeat split; intros x Hx|]; cbn; set_solver.
Qed.

(** Connections and channels may be added. *)
Definition extends (n n' : Net) : Prop :=
  n_connections n ⊆ n_connections n' /\ n_channels n ⊆ n_channels n' /\ n_localChid n' = n_localChid n /\
  forall e, e ∈ n_log n -> e ∈ n_log n'.

Lemma twp_attach pid chid (Q : option Z -> Net -> Prop) n :
  net_wf n ->
  (forall ch n', net_wf n' -> extends n n' -> ch ∈ n_connections n' -> Q (Some ch) n') ->
  twp (attach pid chid) Q n.
Proof.
  intros Hw HQ. unfold attach. apply twp_bind. eapply twp_ok; [reflexivity|].
  destruct (n_localChannels n !! Some (pid, chid)) as [conn|] eqn:Hc.
  - apply twp_bind. pose proof (nw_local _ Hw _ _ Hc) as Hin.
    exists conn, n. split; [unfold cached_channel, mbind, Prog_bind, pgets; by rewrite bool_decide_true|].
    exists (Some conn), n. split; [done|]. apply HQ; [done|by repeat split|done].
  - apply twp_bind. eapply twp_runs; [apply runs_tick|]. intros t n1 H1.
    apply twp_bind. eapply twp_runs; [apply runs_log|]. intros [] n2 H2.
    rewrite (aw_connect Hwell). apply twp_bind. eapply twp_ok; [reflexivity|].
    apply twp_bind. eapply twp_ok; [reflexivity|]. eexists _, _. split; [reflexivity|].
    assert (Hg : grows n n2) by (by etrans). pose proof (grows_wf _ _ Hg Hw) as [A B C D].
    assert (Hf : n_channels n2 !! (n_newest n2 + 1) = None).
    { destruct (n_channels n2 !! (n_newest n2 + 1)) eqn:Hx; [|done]. pose proof (B _ (mk_is_Some _ _ Hx)). lia. }
    destruct Hg as (G1 & G2 & G3 & G4 & G5 & G6 & G7).
    apply HQ; [split; cbn| |cbn; set_solver].
    + intros ch [->%elem_of_singleton|Hin]%elem_of_union; [rewrite lookup_insert_eq; eexists _, _; split; [done|lia]|].
      destruct (A _ Hin) as (k & r & H3 & H4). exists k, r. rewrite lookup_insert_ne by lia. split; [done|lia].
    + intros ch. destruct (decide (ch = n_newest n2 + 1)) as [->|Hne]; [lia|].
      rewrite lookup_insert_ne by done. intros Hs%B. lia.
    + intros ep ch. destruct (decide (ep = Some (pid, chid))) as [->|Hne].
      * rewrite lookup_insert_eq. intros [= <-]. set_solver.
      * rewrite lookup_insert_ne by done. intros Hs%C. set_solver.
    + lia.
    + split; [|split; [|split]]; cbn; [rewrite <- G1; set_solver|rewrite <- G2; by apply insert_subseteq|done|done].
Qed.

Lemma twp_net {A} (m : Prog Net A) (Q : A -> CClient * Net -> Prop) c n :
  twp m (fun a n' => Q a (c, n')) n -> twp (cl_net m) Q (c, n).
Proof. intros (a & n' & Hm & HQ). exists a, (c, n'). unfold cl_net, zoom. cbn. by rewrite Hm. Qed.

Lemma twp_this {A} (f : CClientConnectSM -> A) (Q : A -> CClient * Net -> Prop) c n sm :
  cl_mConnector c = Some sm -> Q (f sm) (c, n) -> twp (this f) Q (c, n).
Proof. intros Hc HQ. exists (f sm), (c, n). split; [|done]. unfold this, mbind, Prog_bind, me, pgets. cbn. by rewrite Hc. Qed.

(** What a callback may do runs while the channel is alive. *)
Lemma twp_request type id minor p (Q : unit -> CClient * Net -> Prop) c n ch :
  cl_mChannel c = Some ch -> ch <> 0 -> alive ch n = true ->
  (forall n', grows n n' -> Q tt (c, n')) -> twp (send_request type id minor p) Q (c, n).
Proof.
  intros Hc Hz Ha HQ. unfold send_request. apply twp_bind. eapply twp_ok; [reflexivity|].
  apply twp_bind. eapply twp_ok; [reflexivity|]. cbn [fst snd]. rewrite Hc. unfold expired. rewrite Ha. cbn [negb].
  apply twp_bind, twp_net. eapply twp_runs; [apply runs_createId|]. intros i n1 H1.
  apply twp_bind, twp_net, twp_send; [done|]. intros n2 H2 _. eapply twp_ok; [reflexivity|]. apply HQ. by etrans.
Qed.

Lemma grows_alive ch n n' : grows n n' -> alive ch n' = alive ch n.
Proof. intros (_ & Hc & _). unfold alive. by rewrite Hc. Qed.

Lemma twp_callback e (Q : unit -> CClient * Net -> Prop) c n ch :
  cl_mChannel c = Some ch -> ch <> 0 -> alive ch n = true ->
  (forall n', grows n n' -> e (cl_mId c) ∈ n_log n' -> Q tt (c, n')) -> twp (callback e) Q (c, n).
Proof.
  intros Hc Hz Ha HQ. unfold callback. apply twp_bind, twp_net. eapply twp_runs; [apply runs_tick|]. intros t n1 H1.
  apply twp_bind. eapply twp_ok; [reflexivity|]. apply twp_bind. eapply twp_ok; [reflexivity|].
  assert (Hn : forall n2, grows n1 n2 /\ e (cl_mId c) ∈ n_log n2 -> twp (pfor (px_user t) run_client_action) Q (c, n2)).
  { induction (px_user t) as [|a l IH]; intros n2 [H2 He].
    - eapply twp_ok; [reflexivity|]. apply HQ; [by etrans|done].
    - cbn [pfor]. apply twp_bind. assert (Hr : forall n3, grows n2 n3 -> twp (pfor l run_client_action) Q (c, n3)).
      { intros n3 H3. apply IH. split; [by etrans|]. by apply H3. }
      assert (alive ch n2 = true) by (by rewrite (grows_alive _ _ _ H2), (grows_alive _ _ _ H1)).
      destruct a; cbn [run_client_action]; unfold setNotification, clearNotification, clearAllNotifications;
        apply (twp_request _ _ _ _ _ _ _ ch); assumption. }
  apply Hn. split; [repeat split; intros x Hx|]; cbn; set_solver.
Qed.

(** The connect request of a client to the server of its [info], on the channel [ch], which
    its state machine owns. *)
Definition request_sent (info : SConnectionInfo) (c : CClient) (n : Net) (ch : Z) : Prop :=
  exists sm k r,
    cl_mConnector c = Some sm /\ sm_mChannel sm = Some ch /\ sm_reading sm = false /\
    n_channels n !! ch = Some (k, S (S r)) /\ cl_mClientID c = ci_clientID info /\
    E_send ch (connect_request (ci_clientID info) (ci_serverID info)
                 (info_words (u32 env_pid, u32 (n_localChid n)))) true ∈ n_log n.

Lemma acquire_channel ch n k r :
  n_channels n !! ch = Some (k, r) -> n_channels (acquire ch n) !! ch = Some (k, S r).
Proof. intros Hc. cbn. by rewrite lookup_alter_eq, Hc. Qed.

Lemma acquire_wf ch n : net_wf n -> net_wf (acquire ch n).
Proof.
  intros [A B C D]. split; cbn; [| |done|done].
  - intros x Hx. destruct (A _ Hx) as (k & r & H1 & H2). destruct (decide (x = ch)) as [->|Hne].
    + rewrite lookup_alter_eq, H1. by exists k, (S r).
    + rewrite lookup_alter_ne by done. by exists k, r.
  - intros x. destruct (decide (x = ch)) as [->|Hne]; [rewrite lookup_alter_eq, fmap_is_Some|rewrite lookup_alter_ne by done]; apply B.
Qed.

Ltac twp_step :=
  cbv beta; cbn [fst snd];
  match goal with
  | |- twp (mbind _ _) _ _ => apply twp_bind
  | |- twp (this _) _ _ => eapply twp_this; [at_connector|cbv beta]
  | |- twp (cl_net _) _ _ => apply twp_net
  | |- twp (pwhen false _) _ _ => unfold pwhen at 1
  | |- twp (passert _) _ _ => apply twp_assert; [done|]
  | |- twp _ _ _ => eapply twp_ok; [reflexivity|]
  end.

(** The local half of [attach], from a state machine that holds no id of an attach by TCP. *)
Lemma twp_sm_attach_local channel (Q : bool -> CClient * Net -> Prop) c n sm :
  net_wf n -> ch_nid channel = 0 -> cl_mConnector c = Some sm -> sm_reading sm = false ->
  party_set (ti_clientID (sm_mTcpConnInfo sm)) = false ->
  (forall c' n' ch, net_wf n' -> request_sent (sm_mConnInfo sm) c' n' ch ->
     cl_mCommEngine c' = cl_mCommEngine c -> cl_mId c' = cl_mId c -> Q false (c', n')) ->
  twp (sm_attach_local channel true) Q (c, n).
Proof.
  intros Hw Hnid Hsm Hr Ht HQ. unfold sm_attach_local. rewrite Hnid. change (0 =? 0) with true. cbv iota.
  twp_step. twp_step. apply twp_attach; [done|]. intros ch n1 Hw1 Hx Hin.
  destruct (nw_owned _ Hw1 _ Hin) as (k & r & Hk & Hch & _). unfold own_channel.
  do 4 twp_step. unfold edit_sm. twp_step. twp_step. unfold initiateConnectRequest. do 9 twp_step.
  cbn [sm_mChannel sm_mConnInfo sm_mTcpConnInfo sm_reading]. twp_step.
  apply twp_send; [lia|]. intros n2 H2 Hlog. cbv iota. do 3 twp_step. cbn [sm_mTcpConnInfo]. rewrite Ht.
  do 3 twp_step.
  pose proof H2 as (_ & Hc2 & _ & _ & _ & Hl2 & _).
  eapply HQ; try reflexivity.
  - eapply grows_wf; [exact H2|by apply acquire_wf].
  - do 3 eexists. split; [cbn; rewrite Hsm; reflexivity|]. split; [reflexivity|]. split; [exact Hr|].
    split; [rewrite Hc2; by apply acquire_channel|]. split; [reflexivity|]. rewrite Hl2. exact Hlog.
Qed.

Lemma twp_attachInterface (Q : unit -> CClient * Net -> Prop) c n :
  net_wf n -> cl_mCommEngine c = true -> cl_mConnector c = None ->
  (forall c' n' t ch, net_wf n' -> request_sent (env_connInfo t) c' n' ch -> cl_mCommEngine c' = true ->
     cl_mId c' = cl_mId c -> Q tt (c', n')) ->
  twp attachInterface Q (c, n).
Proof.
  intros Hw He Hc HQ. unfold attachInterface, sm_attach, sm_attach_info. do 4 twp_step.
  twp_step. apply twp_assert; [by rewrite bool_decide_true|]. do 9 twp_step. unfold sb_attachInterface.
  twp_step. eapply twp_runs; [apply runs_request|]. intros t n1 H1.
  twp_step. rewrite (aw_rc Hwell). unfold pwhen at 1. eapply twp_runs; [apply runs_log|]. intros [] n2 H2.
  cbn [fst snd] in *. change (0 =? 0) with true. twp_step. cbn [fst snd]. change (negb (0 =? 0)) with false. cbv iota.
  rewrite (aw_local Hwell), (aw_nid Hwell). change (false || negb (0 =? 0)) with false. cbv iota.
  do 6 twp_step. cbn [sm_mChannel].
  eapply twp_sm_attach_local; [eapply grows_wf; [|exact Hw]; by etrans|apply (aw_nid Hwell)|reflexivity|done|done|].
  intros c' n3 ch Hw3 Hs E1 E2. twp_step. twp_step. eapply HQ; [done|exact Hs|by rewrite E1|by rewrite E2].
Qed.

(** The channel stays while another owner is left. *)
Lemma release_alive ch ch2 k r n :
  n_channels n !! ch = Some (k, S (S r)) -> alive ch2 n = true -> alive ch2 (release_channel ch n) = true.
Proof.
  intros Hc Ha. unfold release_channel. rewrite Hc. unfold alive in *. cbn.
  destruct (decide (ch2 = ch)) as [->|Hne]; [|by rewrite lookup_insert_ne].
  rewrite lookup_insert_eq. apply orb_true_iff. right. by apply bool_decide_eq_true.
Qed.

Lemma twp_response h (Q : unit -> CClient * Net -> Prop) c n info ch :
  net_wf n -> request_sent info c n ch -> (ch_info h).1 <> 0 ->
  (forall c' n', isConnected c' n' = party_set (cl_mClientID c) && party_set (mh_serverID (ch_header h)) ->
     cl_mServerID c' = mh_serverID (ch_header h) -> cl_mProtoMinor c' = negotiated (mh_protoMinor (ch_header h)) ->
     cl_mConnector c' = None -> E_connected (cl_mId c) ∈ n_log n' -> Q tt (c', n')) ->
  twp (handleConnectResponse h) Q (c, n).
Proof.
  intros Hw (sm & k & r & Hsm & Hch & Hr & Hk & Hid & _) Hpid HQ.
  unfold handleConnectResponse, sm_handleConnectResponse.
  twp_step. twp_step. twp_step. apply twp_assert; [by rewrite bool_decide_true by (by eexists)|].
  rewrite (proj2 (Z.eqb_neq _ _) Hpid). cbn [negb]. do 4 twp_step. apply twp_attach; [done|].
  intros ch2 n1 Hw1 (_ & Hx & _ & _) Hin. destruct (nw_owned _ Hw1 _ Hin) as (k2 & r2 & Hk2 & Hz & _).
  do 3 twp_step. unfold finalizeConnectRequest. do 7 twp_step.
  eapply twp_runs; [apply runs_disconnect|]. intros nid n2 H2. do 3 twp_step.
  assert (Ha : alive ch2 n1 = true).
  { unfold alive. rewrite Hk2, bool_decide_true by (by eexists). apply orb_true_r. }
  eapply (twp_callback _ _ _ _ ch2); [done|lia|by rewrite (grows_alive _ _ _ H2)|].
  intros n3 H3 Hlog. unfold drop_connector. do 5 twp_step.
  replace (cl_mConnector _) with (Some sm) by (symmetry; exact Hsm). cbv iota. rewrite Hch. do 4 twp_step.
  assert (Hk3 : n_channels n3 !! ch = Some (k, S (S r))).
  { destruct H3 as (_ & -> & _). destruct H2 as (_ & -> & _). eapply lookup_weaken; [exact Hk|exact Hx]. }
  apply HQ; try done.
  - unfold isConnected. cbn. unfold expired.
    rewrite (release_alive _ _ _ _ _ Hk3), andb_true_r; [done|].
    by rewrite (grows_alive _ _ _ H3), (grows_alive _ _ _ H2).
  - unfold release_channel. rewrite Hk3. exact Hlog.
Qed.
End local.

(** A client that waits for its server, on the pulse that the server is available, ends its
    attach with a connect request sent to the server's channel, and on the server's answer is
    connected to the server the answer names, with the protocol version both speak, and tells
    its user: nothing aborts on the way, if the servicebroker answers, the sockets work and
    the server is on this host. *)
Lemma connects_locally `{AppEnv} `{ProxyEnv} c n h :
  all_well -> broker_ok -> net_wf n -> client_wf c -> phase c = Waiting -> cl_mCommEngine c = true ->
  (ch_info h).1 <> 0 -> party_set (mh_serverID (ch_header h)) = true ->
  exists c1 n1 t ch c2 n2,
    attachInterface (c, n) = Ok tt (c1, n1) /\ request_sent (env_connInfo t) c1 n1 ch /\
    handleConnectResponse h (c1, n1) = Ok tt (c2, n2) /\ isConnected c2 n2 = true /\
    cl_mServerID c2 = mh_serverID (ch_header h) /\ cl_mProtoMinor c2 = negotiated (mh_protoMinor (ch_header h)) /\
    E_connected (cl_mId c) ∈ n_log n2.
Proof.
  intros Hwell Hb Hn Hw Hp He Hpid Hs. unfold phase in Hp. destruct (cl_mConnector c) eqn:Hc; [done|].
  destruct (twp_attachInterface Hwell (fun _ t1 => exists t ch,
    request_sent (env_connInfo t) t1.1 t1.2 ch /\ net_wf t1.2 /\ cl_mId t1.1 = cl_mId c /\ party_set (cl_mClientID t1.1) = true) c n Hn He Hc)
    as ([] & [c1 n1] & H1 & t & ch & H2 & H3 & Hid & Hset).
  { intros c' n' t ch Hw' Hr _ Hid. exists t, ch. split; [done|]. split; [done|]. split; [done|].
    destruct Hr as (_ & _ & _ & _ & _ & _ & _ & Ht & _). cbn [fst]. rewrite Ht. apply Hb. }
  destruct (twp_response Hwell h (fun _ t2 => isConnected t2.1 t2.2 = true /\
      cl_mServerID t2.1 = mh_serverID (ch_header h) /\
      cl_mProtoMinor t2.1 = negotiated (mh_protoMinor (ch_header h)) /\ E_connected (cl_mId c) ∈ n_log t2.2) c1 n1 _ ch H3 H2 Hpid)
    as ([] & [c2 n2] & H4 & H5).
  { intros c' n' Hcon Hsv Hm _ Hl. cbn in *. rewrite Hcon, Hset, Hs, <- Hid. done. }
  exists c1, n1, t, ch, c2, n2. done.
Qed.

(** ** A concrete client *)

#[local] Existing Instance demo_env.
#[local] Instance demo_proxy : ProxyEnv := {| px_user := fun _ => [CA_setNotification 3] |}.

Definition demo_ifDescription : SFNDInterfaceDescription := mkSFNDDescr (mkVersion 1 0) [112; 105; 110; 103].
Definition demo_pinger : CClient := CClient_new 1 demo_ifDescription <| cl_mCommEngine := true |>.
Definition demo_waiting : CClient * Net := (demo_pinger, Net_initial 12).

Definition demo_response (pid : Z) : ConnectHandle :=
  mkConnectHandle (mkHeader 0 4 1 (mkParty 9 0) (mkParty 5 0) 2 0 8 0) 1 (pid, 4).

Definition state_of {S A} (s : S) (r : Result S A) : S := match r with Ok _ s' => s' | Aborted _ => s end.
Definition demo_attached : CClient * Net := state_of demo_waiting (run_event CE_available demo_waiting).

Lemma demo_broker : broker_ok.
Proof. intros t. done. Qed.

Lemma client_life_cycle_witness :
  broker_ok /\ rtc client_step demo_pinger demo_attached.1 /\
  client_step demo_attached.1 (state_of demo_attached (run_event (CE_response (demo_response 88)) demo_attached)).1 /\
  client_wf (state_of demo_attached (run_event (CE_response (demo_response 88)) demo_attached)).1 /\
  phase_edge (phase demo_attached.1)
    (phase (state_of demo_attached (run_event (CE_response (demo_response 88)) demo_attached)).1).
Proof.
  assert (rtc client_step demo_pinger demo_attached.1) as H1.
  { apply rtc_once. exists CE_available, (Net_initial 12), demo_attached.2. split; [done|]. by vm_compute. }
  assert (client_step demo_attached.1
    (state_of demo_attached (run_event (CE_response (demo_response 88)) demo_attached)).1) as H2.
  { exists (CE_response (demo_response 88)), demo_attached.2,
      (state_of demo_attached (run_event (CE_response (demo_response 88)) demo_attached)).2.
    split; [by repeat split|]. by vm_compute. }
  split; [exact demo_broker|]. split; [exact H1|]. split; [exact H2|].
  exact (client_life_cycle 1 demo_ifDescription true _ _ demo_broker H1 H2).
Defined.

Lemma connects_locally_witness :
  exists c1 n1 t ch c2 n2,
    attachInterface (demo_pinger, Net_initial 12) = Ok tt (c1, n1) /\ request_sent (env_connInfo t) c1 n1 ch /\
    handleConnectResponse (demo_response 88) (c1, n1) = Ok tt (c2, n2) /\ isConnected c2 n2 = true /\
    cl_mServerID c2 = mh_serverID (ch_header (demo_response 88)) /\
    cl_mProtoMinor c2 = negotiated (mh_protoMinor (ch_header (demo_response 88))) /\
    E_connected (cl_mId demo_pinger) ∈ n_log n2.
Proof.
  apply (connects_locally demo_pinger (Net_initial 12) (demo_response 88)).
  - by split.
  - exact demo_broker.
  - split; [intros ch Hch|intros ch [x Hx]|intros ep ch Hch|]; cbn in *; set_solver.
  - done.
  - done.
  - done.
  - done.
  - done.
Defined.

Example demo_phases :
  phase demo_pinger = Waiting /\ phase demo_attached.1 = Connecting /\
  phase (state_of demo_attached (run_event (CE_response (demo_response 88)) demo_attached)).1 = Connected.
Proof. by vm_compute. Qed.

Lemma ids_accounted_witness :
  ledger (fun x => 0 = x \/ leaked (CE_response (demo_response 88)) demo_attached.1 x)
    (state_of demo_attached (run_event (CE_response (demo_response 88)) demo_attached)).1
    (state_of demo_attached (run_event (CE_response (demo_response 88)) demo_attached)).2.
Proof.
  assert (ledger (eq 0) demo_attached.1 demo_attached.2) as Hl.
  { intros x Hx. assert (outstanding demo_attached.2 = {[5]}) as Ho by by vm_compute. right. left.
    rewrite Ho in Hx. apply elem_of_singleton in Hx as ->. by vm_compute. }
  apply (ids_accounted (eq 0) (CE_response (demo_response 88)) demo_attached.1 demo_attached.2).
  - exact demo_broker.
  - reflexivity.
  - by vm_compute.
  - by repeat split.
  - exact Hl.
  - by vm_compute.
Defined.

(** A second pulse, which the servicebroker does not send: a client that connects fails an
    assertion, one that is connected begins to connect again. *)
Lemma second_pulse `{AppEnv} `{ProxyEnv} c n :
  phase c = Connecting -> run_event CE_available (c, n) = Aborted C_assert.
Proof.
  unfold phase. destruct (cl_mConnector c) as [sm|] eqn:Hc; [|by destruct (party_set _)]. intros _.
  unfold run_event, attachInterface, me, pgets, passert, mbind, Prog_bind. cbn [fst id]. rewrite Hc.
  by destruct (cl_mCommEngine c).
Qed.

Example second_pulse_reconnects :
  let t := state_of demo_attached (run_event (CE_response (demo_response 88)) demo_attached) in
  phase t.1 = Connected /\ phase (state_of t (run_event CE_available t)).1 = Connecting.
Proof. by vm_compute. Qed.

(** A client that is detached while the reply by TCP is awaited keeps its id at the
    servicebroker: the state machine that knows it is gone. *)
#[local] Definition tcp_env : AppEnv := {|
  env_open := env_open;
  env_rc := env_rc;
  env_party := env_party;
  env_notification := env_notification;
  env_connInfo := fun _ => mkConnInfo (mkVersion 1 0) (mkChannel 7 77 3) (mkParty 9 0) (mkParty 5 0);
  env_tcpInfo := env_tcpInfo;
  env_connect := env_connect;
  env_send := env_send;
  env_localName := env_localName;
  env_recv := env_recv;
  env_pid := env_pid;
  env_address := env_address;
  env_force_tcp := env_force_tcp;
  env_port := env_port;
  env_listen := env_listen;
|}.

Lemma tcp_detach_leaks :
  match run_event (H := tcp_env) CE_available demo_waiting with
  | Ok _ t =>
    match run_event (H := tcp_env) (CE_detach true) t with
    | Ok _ (c, n) => phase c = Waiting /\ 6 ∈ outstanding n
    | Aborted _ => False
    end
  | Aborted _ => False
  end.
Proof. vm_compute. split; [reflexivity|by apply (bool_decide_unpack _)]. Qed.

(** A server that refuses a local connect ends the client's process: the disconnect request
    goes to the dummy channel. *)
Lemma refused_connect_aborts :
  run_event (CE_response (demo_response 0)) demo_attached = Aborted C_assert.
Proof. by vm_compute. Qed.
