(* ===== verification/Engine.v ===== *)
(** The communication engine of an application: [CCommEngine].

    [src/base/CCommEngine.cpp], [include/dsi/CCommEngine.hpp].  The engine keeps lists of
    pointers to the clients and servers of the application and caches from party ids to
    them; it hands every message of a connection and every pulse of the servicebroker to
    the object it is for, and detaches the clients of a connection that ends.

    Objects are found by a number that stands for their address; an object that was
    destroyed is not in its table any more, and reading it aborts.  The event loop takes
    the events the dispatcher reports.  An exception that leaves a handler ends the model's
    computation, where the code logs it and leaves the loop.  Generic devices and traces
    are left out. *)

From S2P Require Import Prelude.
From S2P Require Import Types.
From S2P Require Import Buffer.
From S2P Require Import Stream.
From S2P Require Import Message.
From S2P Require Import Runtime.
From S2P Require Import Stub.
From S2P Require Import Proxy.

(** ** Data *)

(** [CCommEngine::Private]; its channels and acceptors' addresses are in [Net]. *)
Record CCommEngine := mkEngine {
  en_net : Net;
  en_clients : gmap Z CClient;       (* the objects that exist *)
  en_servers : gmap Z CServer;
  en_mClientList : list Z;
  en_mServerList : list Z;
  en_mClientCache : gmap Z Z;        (* by globalID *)
  en_mServerCache : gmap Z Z;
  en_mActive : bool;
  en_mLocalAcceptor : bool;          (* is it open? *)
}.
#[export] Instance Eta_CCommEngine : Eta CCommEngine := fun e =>
  mkEngine (en_net e) (en_clients e) (en_servers e) (en_mClientList e) (en_mServerList e)
    (en_mClientCache e) (en_mServerCache e) (en_mActive e) (en_mLocalAcceptor e).

Definition CCommEngine_new (notifyChid : Z) : CCommEngine :=
  mkEngine (Net_initial notifyChid) ∅ ∅ [] [] ∅ ∅ false false.

(** What the process reads from outside. *)
Class EngineEnv := {
  ee_open : nat -> option Z;     (* opening mLocalAcceptor: its file descriptor *)
  ee_bind : nat -> bool;         (* binding it and listening *)
  ee_result : nat -> Z;          (* the exit code the event loop was stopped with *)
}.

(** ** The list algorithms *)

(** [removeFromCache]: the first entry, in the order of the keys, that holds the object. *)
Definition first_key (p : Z) (m : gmap Z Z) : option Z :=
  map_fold (fun k q acc => if q =? p then Some (match acc with Some a => Z.min a k | None => k end) else acc) None m.

Definition removeFromCache (p : Z) (m : gmap Z Z) : gmap Z Z :=
  match first_key p m with Some k => delete k m | None => m end.

(** ** What clients and servers have in common

    The templates of the engine work on both. *)

Class EngineObject (T : Type) := {
  ob_objects : CCommEngine -> gmap Z T;
  ob_put : Z -> T -> CCommEngine -> CCommEngine;
  ob_list : CCommEngine -> list Z;
  ob_cache : CCommEngine -> gmap Z Z;
  ob_remember : Z -> Z -> CCommEngine -> CCommEngine;
  ob_mId : T -> Z;
  ob_party : T -> SPartyID;                 (* mClientID or mServerID *)
  ob_isParty : SPartyID -> T -> bool;       (* FindByPartyID *)
}.

#[export] Instance CClient_object : EngineObject CClient := {|
  ob_objects := en_clients;
  ob_put p c e := e <| en_clients ::= <[p := c]> |>;
  ob_list := en_mClientList;
  ob_cache := en_mClientCache;
  ob_remember k p e := e <| en_mClientCache ::= <[k := p]> |>;
  ob_mId := cl_mId;
  ob_party := cl_mClientID;
  ob_isParty id c := global_eqb (cl_mClientID c) id;
|}.

#[export] Instance CServer_object : EngineObject CServer := {|
  ob_objects := en_servers;
  ob_put p s e := e <| en_servers ::= <[p := s]> |>;
  ob_list := en_mServerList;
  ob_cache := en_mServerCache;
  ob_remember k p e := e <| en_mServerCache ::= <[k := p]> |>;
  ob_mId := sv_mId;
  ob_party := sv_mServerID;
  ob_isParty id s := party_eqb (sv_mServerID s) id || party_eqb (sv_mTCPServerID s) id;
|}.

Section engine.
Context `{AppEnv} `{StubEnv} `{ProxyEnv} `{EngineEnv}.

Abbreviation EngM := (Prog CCommEngine).

Definition en_do {A} (m : Prog Net A) : EngM A := zoom en_net (fun n e => e <| en_net := n |>) m.
Definition this_engine {A} (f : CCommEngine -> A) : EngM A := pgets f.
Definition set_engine (f : CCommEngine -> CCommEngine) : EngM unit := pmodify f.

(** ** Objects *)

Section objects.
Context {T : Type} `{EngineObject T}.

(** [p->...]. *)
Definition read {A} (f : T -> A) (p : Z) : EngM A :=
  o ← this_engine (fun e => ob_objects e !! p);
  match o with Some o => mret (f o) | None => abort C_dangling end.

Definition call {A} (p : Z) (m : Prog (T * Net) A) : EngM A := fun e =>
  match ob_objects e !! p with
  | None => Aborted C_dangling
  | Some o =>
    match m (o, en_net e) with
    | Ok a (o', n') => Ok a (ob_put p o' (e <| en_net := n' |>))
    | Aborted c => Aborted c
    end
  end.

(** [std::find_if] over the pointers of a list. *)
Fixpoint find_ptr (f : T -> bool) (l : list Z) : EngM (option Z) :=
  match l with
  | [] => mret None
  | p :: l =>
    found ← read f p;
    if found : bool then mret (Some p) else find_ptr f l
  end.

(** [findClient(int32_t)], [findServer(int32_t)]. *)
Definition find_by_id (id : Z) : EngM (option Z) :=
  l ← this_engine ob_list;
  find_ptr (fun o => ob_mId o =? id) l.

(** [findClient(const SPartyID&)], [findServer(const SPartyID&)]. *)
Definition find_by_party (id : SPartyID) : EngM (option Z) :=
  cached ← this_engine (fun e => ob_cache e !! globalID id);
  match cached with
  | Some p => mret (Some p)
  | None =>
    l ← this_engine ob_list;
    found ← find_ptr (ob_isParty id) l;
    match found with
    | None => mret None
    | Some p =>
      key ← read ob_party p;
      set_engine (ob_remember (globalID key) p);;
      mret (Some p)
    end
  end.
End objects.

Definition findClient (id : SPartyID) : EngM (option Z) := find_by_party (T := CClient) id.
Definition findServer (id : SPartyID) : EngM (option Z) := find_by_party (T := CServer) id.
Definition findClient_id (id : Z) : EngM (option Z) := find_by_id (T := CClient) id.

(** ** Adding and removing *)

Definition set_client_engine (b : bool) : Prog (CClient * Net) unit := edit (fun c => c <| cl_mCommEngine := b |>).
Definition set_server_engine (b : bool) : Prog (CServer * Net) unit := change (fun s => s <| sv_mCommEngine := b |>).

Definition Private_add_client (p : Z) : EngM unit :=
  set_engine (fun e => e <| en_mClientList ::= fun l => l ++ [p] |>);;
  active ← this_engine en_mActive;
  chid ← this_engine (fun e => n_notifyChid (en_net e));
  pwhen active (call p (setServerAvailableNotification chid)).

Definition Private_remove_client (p : Z) : EngM unit :=
  set_engine (fun e => e <| en_mClientList ::= std_remove p |> <| en_mClientCache ::= removeFromCache p |>);;
  active ← this_engine en_mActive;
  pwhen active (call p (detachInterface false)).

(** [CCommEngine::add] and [CCommEngine::remove]. *)
Definition add_client (p : Z) : EngM bool :=
  has ← read cl_mCommEngine p;
  if has : bool then mret false
  else call p (set_client_engine true);; Private_add_client p;; mret true.

Definition remove_client (p : Z) : EngM bool :=
  has ← read cl_mCommEngine p;
  if has : bool then Private_remove_client p;; call p (set_client_engine false);; mret true
  else mret false.

(** [~CClient]: [mCommEngine] is cleared before [remove] tests it. *)
Definition destroy_client (p : Z) : EngM unit :=
  has ← read cl_mCommEngine p;
  pwhen has (call p (set_client_engine false);; remove_client p;; mret tt);;
  set_engine (fun e => e <| en_clients ::= delete p |>).

Definition register_tcp (p : Z) : EngM unit :=
  tcp ← read sv_mTCPIPEnabled p;
  pwhen tcp (port ← en_do getIPPort; call p (registerInterfaceTCP env_address port)).

Definition register_local (p : Z) : EngM unit :=
  chid ← this_engine (fun e => n_localChid (en_net e));
  call p (registerInterface chid).

(** [Private::registerInterface]. *)
Definition registerServer (p : Z) : EngM unit := register_tcp p;; register_local p.

Definition Private_add_server (p : Z) : EngM unit :=
  set_engine (fun e => e <| en_mServerList ::= fun l => l ++ [p] |>);;
  active ← this_engine en_mActive;
  pwhen active (register_local p;; register_tcp p;; register_local p).

Definition Private_remove_server (p : Z) : EngM unit :=
  set_engine (fun e => e <| en_mServerList ::= std_remove p |> <| en_mServerCache ::= removeFromCache p |>);;
  active ← this_engine en_mActive;
  pwhen active (call p unregisterInterface).

Definition add_server (p : Z) : EngM bool :=
  has ← read sv_mCommEngine p;
  if has : bool then mret false
  else call p (set_server_engine true);; Private_add_server p;; mret true.

Definition remove_server (p : Z) : EngM bool :=
  has ← read sv_mCommEngine p;
  if has : bool then Private_remove_server p;; call p (set_server_engine false);; mret true
  else mret false.

(** [~CServer]. *)
Definition destroy_server (p : Z) : EngM unit :=
  has ← read sv_mCommEngine p;
  pwhen has (remove_server p;; mret tt);;
  set_engine (fun e => e <| en_servers ::= delete p |>).

(** ** Messages *)

(** The eight bytes of a connect request's info at the start of the reader's buffer, which is
    larger than any short payload. *)
Definition read_info (body : bytes) : EngM (Z * Z) :=
  t ← en_do next_tick;
  let mem := body ++ env_recv t in
  mret (field 0 4 mem, field 4 4 mem).

(** The event info and the payload behind it; the length of a payload that is shorter than
    the event info wraps, and the handle then covers memory behind the buffer. *)
Definition read_event (body : bytes) : EngM (EventInfo * bytes) :=
  if Z.of_nat (length body) <? sizeof_info then abort C_range
  else mret (mkEventInfo (field 0 4 body) (field 4 4 body) (field 8 4 body) (i32 (field 12 4 body)),
             drop (Z.to_nat sizeof_info) body).

(** [dynamic_cast<CTCPChannel*>]. *)
Definition is_tcp (ch : Z) : EngM bool :=
  this_engine (fun e => match n_channels (en_net e) !! ch with Some (CK_tcp, _) => true | _ => false end).

(** The answer to a connect request for a server that is not here. *)
Definition refuse_connect (hdr : MessageHeader) (ch : Z) : EngM bool :=
  tcp ← is_tcp ch;
  if tcp : bool then en_do (send_raw ch (info_words (0, 0)))
  else en_do (send_packet ch (packet_of
         (CRequestWriter_control ConnectResponse (mh_clientID hdr) (mh_serverID hdr) DSI_PROTOCOL_VERSION_MINOR)
         (info_words (0, 0)))).

Definition handle_connect (hdr : MessageHeader) (ch : Z) (body : bytes) : EngM bool :=
  server ← findServer (mh_serverID hdr);
  match server with
  | None => refuse_connect hdr ch
  | Some p =>
    tcp ← is_tcp ch;
    info ← read_info body;
    let h := mkConnectHandle hdr ch info in
    call p (if tcp : bool then
              if mh_packetLength hdr =? 8 then handleLegacyConnectRequestTCP h else handleConnectRequestTCP h
            else handleConnectRequest h);;
    mret true
  end.

Definition handle_disconnect (hdr : MessageHeader) : EngM bool :=
  server ← findServer (mh_serverID hdr);
  match server with
  | Some p => call p (handleDisconnectRequest (mh_clientID hdr))
  | None => pskip
  end;;
  mret true.

Definition handle_connected (hdr : MessageHeader) (ch : Z) (body : bytes) : EngM bool :=
  client ← findClient (mh_clientID hdr);
  match client with
  | Some p =>
    info ← read_info body;
    call p (Proxy.handleConnectResponse (mkConnectHandle hdr ch info))
  | None => pskip
  end;;
  mret true.

Definition handle_data_request (hdr : MessageHeader) (body : bytes) : EngM bool :=
  server ← findServer (mh_serverID hdr);
  match server with
  | Some p =>
    ev ← read_event body;
    call p (handleDataRequest (mkDataHandle (mh_clientID hdr) (mh_protoMinor hdr) (ei_type ev.1)
                                 (ei_requestID ev.1) (ei_sequenceNumber ev.1) ev.2))
  | None => pskip
  end;;
  mret true.

Definition handle_data_response (hdr : MessageHeader) (body : bytes) : EngM bool :=
  client ← findClient (mh_clientID hdr);
  match client with
  | Some p =>
    ev ← read_event body;
    call p (handleDataResponse (mkResponseHandle (mh_protoMinor hdr) (ei_type ev.1) (ei_requestID ev.1)
                                  (ei_sequenceNumber ev.1) ev.2))
  | None => pskip
  end;;
  mret true.

(** [handleMessage]: [body] is what [receiveAll] read into its buffer, if it succeeded.  The
    minor version is only looked at by the clients and servers. *)
Definition handleMessage (hdr : MessageHeader) (ch : Z) (body : option bytes) : EngM bool :=
  if negb (mh_protoMajor hdr =? DSI_PROTOCOL_VERSION_MAJOR) then mret false
  else
    match body with
    | None => mret false
    | Some body =>
      if mh_cmd hdr =? Command_value ConnectRequest then handle_connect hdr ch body
      else if mh_cmd hdr =? Command_value DisconnectRequest then handle_disconnect hdr
      else if mh_cmd hdr =? Command_value ConnectResponse then handle_connected hdr ch body
      else if mh_cmd hdr =? Command_value DataRequest then handle_data_request hdr body
      else if mh_cmd hdr =? Command_value DataResponse then handle_data_response hdr body
      else mret true
    end.

(** ** Pulses *)

Fixpoint detached_loop (value : Z) (l : list Z) : EngM unit :=
  match l with
  | [] => pskip
  | p :: l =>
    found ← call p (handleClientDetached value);
    if found : bool then pskip else detached_loop value l
  end.

Definition handlePulse (code value : Z) : EngM unit :=
  if code =? PULSE_SERVER_AVAILABLE then
    client ← findClient_id value;
    match client with Some p => call p attachInterface | None => pskip end
  else if code =? PULSE_SERVER_DISCONNECT then
    client ← findClient_id value;
    match client with
    | Some p =>
      set_engine (fun e => e <| en_mClientCache ::= removeFromCache p |>);;
      call p (detachInterface true)
    | None => pskip
    end
  else if code =? PULSE_CLIENT_DETACHED then
    l ← this_engine en_mServerList;
    detached_loop value l
  else pskip.

(** ** Connections *)

(** The connections of one server: when [handleClientDetached] erased the element the
    iterator stands on, the iterator is advanced all the same. *)
Fixpoint cleanup_connections (ch p : Z) (l : list ClientConnection) : EngM unit :=
  match l with
  | [] => pskip
  | c :: l =>
    pwhen (bool_decide (cc_channel c = Some ch))
      (call p (handleClientDetached (cc_id c));;
       there ← read (fun s => bool_decide (is_Some (connection_of (cc_clientID c) (sv_mClientConnections s)))) p;
       if there : bool then pskip else abort C_dangling);;
    cleanup_connections ch p l
  end.

Definition cleanup_server (ch p : Z) : EngM unit :=
  l ← read sv_mClientConnections p;
  cleanup_connections ch p l.

Definition cleanup_client_of (ch p : Z) : EngM unit :=
  mine ← read (fun c => bool_decide (cl_mChannel c = Some ch)) p;
  pwhen mine (call p (detachInterface true)).

Definition cleanupChannel (ch : Z) : EngM unit :=
  servers ← this_engine en_mServerList;
  pfor servers (cleanup_server ch);;
  clients ← this_engine en_mClientList;
  pfor clients (cleanup_client_of ch).

(** [~CClientConnection]; the caches of the channels still name the connection. *)
Definition delete_connection (ch : Z) : EngM unit :=
  cleanupChannel ch;;
  set_engine (fun e => e <| en_net ::= fun n => release_channel ch (n <| n_connections ::= fun s => s ∖ {[ch]} |>) |>).

(** [handleMessageHeader]: the header that was read, or an error. *)
Definition handleMessageHeader (ch : Z) (msg : option (MessageHeader * option bytes)) : EngM unit :=
  rc ← match msg with
       | Some (hdr, body) => handleMessage hdr ch body
       | None => mret false
       end;
  pwhen (negb rc) (delete_connection ch).

Definition handleNewLocalConnection (address : option (Z * Z)) : EngM unit :=
  conn ← en_do (new_connection CK_local);
  en_do (pmodify (fun n => n <| n_localChannels ::= <[address := conn]> |>)).

Definition handleNewTCPConnection (address : Z * Z) : EngM unit :=
  conn ← en_do (new_connection CK_tcp);
  en_do (pmodify (fun n => n <| n_tcpChannels ::= <[address := conn]> |>)).

(** ** The event loop *)

Inductive EngineEvent :=
  | EV_pulse (code value : Z)
  | EV_message (ch : Z) (msg : option (MessageHeader * option bytes))
  | EV_local (address : option (Z * Z))
  | EV_tcp (address : Z * Z)
  | EV_read (client : Z) (buffer : option bytes)   (* the asynchronous read of a state machine *)
  | EV_add_client (p : Z)                          (* the application calls the engine *)
  | EV_remove_client (p : Z)
  | EV_add_server (p : Z)
  | EV_remove_server (p : Z).

Definition handle_event (ev : EngineEvent) : EngM unit :=
  match ev with
  | EV_pulse code value => handlePulse code value
  | EV_message ch msg => handleMessageHeader ch msg
  | EV_local address => handleNewLocalConnection address
  | EV_tcp address => handleNewTCPConnection address
  | EV_read p buffer => call p (readHandlerTCP buffer);; mret tt
  | EV_add_client p => add_client p;; mret tt
  | EV_remove_client p => remove_client p;; mret tt
  | EV_add_server p => add_server p;; mret tt
  | EV_remove_server p => remove_server p;; mret tt
  end.

Definition start_objects : EngM unit :=
  servers ← this_engine en_mServerList;
  pfor servers registerServer;;
  clients ← this_engine en_mClientList;
  chid ← this_engine (fun e => n_notifyChid (en_net e));
  pfor clients (fun p => call p (setServerAvailableNotification chid)).

Definition stop_objects : EngM unit :=
  clients ← this_engine en_mClientList;
  pfor clients (fun p => call p (detachInterface false));;
  servers ← this_engine en_mServerList;
  pfor servers (fun p => call p unregisterInterface).

(** [run], its loop handling [events] before it is stopped. *)
Definition run (events : list EngineEvent) : EngM Z :=
  open ← this_engine en_mLocalAcceptor;
  if open : bool then mret (-1)
  else
    t ← en_do next_tick;
    match ee_open t with
    | None => mret (-1)
    | Some fd =>
      set_engine (fun e => e <| en_mLocalAcceptor := true |> <| en_net ::= fun n => n <| n_localChid := fd |> |>);;
      t ← en_do next_tick;
      retval ←
        (if ee_bind t then
           start_objects;;
           set_engine (fun e => e <| en_mActive := true |>);;
           pfor events handle_event;;
           t ← en_do next_tick;
           set_engine (fun e => e <| en_mActive := false |>);;
           stop_objects;;
           mret (ee_result t)
         else mret (-1));
      set_engine (fun e => e <| en_mLocalAcceptor := false |> <| en_net ::= fun n => n <| n_ipPort := None |> |>);;
      mret retval
    end.
End engine.
