(* ===== verification/Handshake.v ===== *)
(** Two processes that talk: a client and its engine, a server and its engine.

    The packets one engine sends are the messages the other handles; that they arrive byte
    by byte as they were sent is the subject of [Message]. *)

From S2P Require Import Prelude.
From S2P Require Import Types.
From S2P Require Import Buffer.
From S2P Require Import Stream.
From S2P Require Import Message.
From S2P Require Import Runtime.
From S2P Require Import Stub.
From S2P Require Import Replies.
From S2P Require Import Proxy.
From S2P Require Import Connect.
From S2P Require Import Engine.

(** ** Total preconditions of engines *)

Section calls.
Context `{AppEnv}.

Lemma twp_call {T} `{EngineObject T} {A} p (m : Prog (T * Net) A) (Q : A -> CCommEngine -> Prop) e o :
  ob_objects e !! p = Some o ->
  twp m (fun a t => Q a (ob_put p t.1 (e <| en_net := t.2 |>))) (o, en_net e) ->
  twp (call p m) Q e.
Proof.
  intros Ho (a & [o' n'] & Hm & HQ). exists a, (ob_put p o' (e <| en_net := n' |>)). split; [|done].
  unfold call. by rewrite Ho, Hm.
Qed.

Lemma twp_read {T} `{EngineObject T} {A} p (f : T -> A) (Q : A -> CCommEngine -> Prop) e o :
  ob_objects e !! p = Some o -> Q (f o) e -> twp (read f p) Q e.
Proof.
  intros Ho HQ. exists (f o), e. split; [|done]. unfold read, mbind, Prog_bind, this_engine, pgets. by rewrite Ho.
Qed.

(** The list names existing objects, and only [p] has the property. *)
Record singles_out {T} `{EngineObject T} (f : T -> bool) (e : CCommEngine) (p : Z) : Prop := {
  so_listed : p ∈ ob_list e;
  so_exist : forall q, q ∈ ob_list e -> is_Some (ob_objects e !! q);
  so_holds : forall o, ob_objects e !! p = Some o -> f o = true;
  so_only : forall q o, q ∈ ob_list e -> ob_objects e !! q = Some o -> f o = true -> q = p;
}.

Lemma twp_find_ptr {T} `{EngineObject T} f l (Q : option Z -> CCommEngine -> Prop) e p :
  p ∈ l -> (forall q, q ∈ l -> is_Some (ob_objects e !! q)) ->
  (forall o, ob_objects e !! p = Some o -> f o = true) ->
  (forall q o, q ∈ l -> ob_objects e !! q = Some o -> f o = true -> q = p) ->
  Q (Some p) e -> twp (find_ptr f l) Q e.
Proof.
  intros Hp He Hh Ho HQ. induction l as [|q l IH]; [by apply elem_of_nil in Hp|]. cbn [find_ptr].
  destruct (He q) as [o Hq]; [by left|]. apply twp_bind. eapply twp_read; [done|]. destruct (f o) eqn:Hf.
  - rewrite (Ho q o) by (done || by left). eapply twp_ok; [reflexivity|done].
  - apply elem_of_cons in Hp as [->|Hp]; [by rewrite (Hh _ Hq) in Hf|].
    apply IH; [done|intros x Hx; apply He; by right|intros x o' Hx; apply Ho; by right].
Qed.

Lemma twp_find_id {T} `{EngineObject T} id (Q : option Z -> CCommEngine -> Prop) e p :
  singles_out (fun o : T => ob_mId o =? id) e p -> Q (Some p) e -> twp (find_by_id (T := T) id) Q e.
Proof.
  intros [H1' H2' H3' H4'] HQ. unfold find_by_id. apply twp_bind. eapply twp_ok; [reflexivity|].
  by eapply twp_find_ptr.
Qed.

(** The engine finds [p] under the id: it has it in its cache, or it is the only one. *)
Definition finds T `{EngineObject T} (id : SPartyID) (e : CCommEngine) (p : Z) : Prop :=
  is_Some (ob_objects e !! p) /\
  (ob_cache e !! globalID id = Some p \/ (ob_cache e !! globalID id = None /\ singles_out (ob_isParty id) e p)).

(** Only the cache changes. *)
Definition cached (e e' : CCommEngine) : Prop :=
  en_net e' = en_net e /\ en_clients e' = en_clients e /\ en_servers e' = en_servers e /\
  en_mClientList e' = en_mClientList e /\ en_mServerList e' = en_mServerList e.

Lemma twp_findServer id (Q : option Z -> CCommEngine -> Prop) e p :
  finds CServer id e p -> (forall e', cached e e' -> Q (Some p) e') -> twp (findServer id) Q e.
Proof.
  intros [[o Ho] Hf] HQ. unfold findServer, find_by_party. apply twp_bind. eapply twp_ok; [reflexivity|].
  destruct Hf as [->|[-> [H1' H2' H3' H4']]]; [eapply twp_ok; [reflexivity|by apply HQ]|].
  apply twp_bind. eapply twp_ok; [reflexivity|]. apply twp_bind. eapply twp_find_ptr; try done.
  apply twp_bind. eapply twp_read; [done|]. apply twp_bind. eapply twp_ok; [reflexivity|].
  eapply twp_ok; [reflexivity|]. by apply HQ.
Qed.
Lemma twp_findClient id (Q : option Z -> CCommEngine -> Prop) e p :
  finds CClient id e p -> (forall e', cached e e' -> Q (Some p) e') -> twp (findClient id) Q e.
Proof.
  intros [[o Ho] Hf] HQ. unfold findClient, find_by_party. apply twp_bind. eapply twp_ok; [reflexivity|].
  destruct Hf as [->|[-> [H1' H2' H3' H4']]]; [eapply twp_ok; [reflexivity|by apply HQ]|].
  apply twp_bind. eapply twp_ok; [reflexivity|]. apply twp_bind. eapply twp_find_ptr; try done.
  apply twp_bind. eapply twp_read; [done|]. apply twp_bind. eapply twp_ok; [reflexivity|].
  eapply twp_ok; [reflexivity|]. by apply HQ.
Qed.

Lemma twp_do {A} (m : Prog Net A) (Q : A -> CCommEngine -> Prop) e :
  twp m (fun a n' => Q a (e <| en_net := n' |>)) (en_net e) -> twp (en_do m) Q e.
Proof. intros (a & n' & Hm & HQ). exists a, (e <| en_net := n' |>). unfold en_do, zoom. by rewrite Hm. Qed.
End calls.

(** ** The two sides of a connect *)

Section client_side.
Context `{AppEnv} `{ProxyEnv} `{StubEnv}.
Context (Hwell : all_well).

Lemma twp_pulse (Q : unit -> CCommEngine -> Prop) e p c :
  net_wf (en_net e) -> singles_out (fun o : CClient => ob_mId o =? cl_mId c) e p -> en_clients e !! p = Some c ->
  cl_mCommEngine c = true -> cl_mConnector c = None ->
  (forall c' n' t ch, net_wf n' -> request_sent (env_connInfo t) c' n' ch -> cl_mId c' = cl_mId c ->
     Q tt (e <| en_net := n' |> <| en_clients ::= <[p := c']> |>)) ->
  twp (handlePulse PULSE_SERVER_AVAILABLE (cl_mId c)) Q e.
Proof.
  intros Hn Hs Hp He Hc HQ. unfold handlePulse. change (PULSE_SERVER_AVAILABLE =? PULSE_SERVER_AVAILABLE) with true.
  cbv iota. apply twp_bind. eapply twp_find_id; [exact Hs|]. eapply (twp_call (T := CClient)); [exact Hp|].
  apply twp_attachInterface; [done|done|done|done|]. intros c' n' t ch Hw' Hr _ Hid. by eapply HQ.
Qed.

Lemma twp_read_info body (Q : Z * Z -> CCommEngine -> Prop) e a b :
  length body = 8%nat -> le_value (take 4 body) = a -> le_value (take 4 (drop 4 body)) = b ->
  (forall n', grows (en_net e) n' -> Q (a, b) (e <| en_net := n' |>)) -> twp (read_info body) Q e.
Proof.
  intros Hl <- <- HQ. unfold read_info. apply twp_bind, twp_do. eapply twp_runs; [apply runs_tick|]. intros t n' Hg.
  eapply twp_ok; [reflexivity|]. unfold field. rewrite drop_0, take_app_le by lia.
  rewrite drop_app_le, take_app_le by (rewrite ?length_drop; lia). by apply HQ.
Qed.

(** The server's answer, at the client's engine. *)
Lemma twp_connected (Q : bool -> CCommEngine -> Prop) e p c info ch chc hdr words :
  net_wf (en_net e) -> finds CClient (mh_clientID hdr) e p -> en_clients e !! p = Some c ->
  request_sent info c (en_net e) ch -> is_u32 words.1 -> is_u32 words.2 -> words.1 <> 0 ->
  mh_protoMajor hdr = DSI_PROTOCOL_VERSION_MAJOR -> mh_cmd hdr = Command_value ConnectResponse ->
  (forall c' e', en_clients e' !! p = Some c' ->
     isConnected c' (en_net e') = party_set (cl_mClientID c) && party_set (mh_serverID hdr) ->
     cl_mServerID c' = mh_serverID hdr -> cl_mProtoMinor c' = negotiated (mh_protoMinor hdr) ->
     E_connected (cl_mId c) ∈ n_log (en_net e') -> Q true e') ->
  twp (handleMessage hdr chc (Some (info_words words))) Q e.
Proof.
  intros Hn Hf Hp Hr Hw1 Hw2 Hpid Hmaj Hcmd HQ. unfold handleMessage. rewrite Hmaj, Hcmd, Z.eqb_refl.
  change (twp (handle_connected hdr chc (info_words words)) Q e). unfold handle_connected.
  apply twp_bind. eapply twp_findClient; [exact Hf|]. intros e1 (E1 & E2 & _).
  apply twp_bind, twp_bind. apply (twp_read_info _ _ _ words.1 words.2); [done|by apply le_value_u32|by apply le_value_u32|].
  intros n2 Hg. eapply (twp_call (T := CClient)); [cbn; rewrite E2; exact Hp|]. cbn [en_net].
  destruct Hr as (sm & k & r & R1 & R2 & R3 & R4 & R5 & R6). rewrite E1 in Hg.
  pose proof Hg as (_ & G2 & _ & _ & _ & G6 & G7).
  eapply (twp_response Hwell _ _ _ _ info ch); [by eapply grows_wf| |exact Hpid|].
  { change (request_sent info c n2 ch). exists sm, k, r. rewrite G2, G6. repeat split; try done. by apply G7. }
  intros c' n' Hcon Hsv Hm _ Hl. eapply twp_ok; [reflexivity|]. eapply HQ; [cbn; by rewrite lookup_insert_eq| | | |]; done.
Qed.
End client_side.

Section server_side.
Context `{AppEnv} `{StubEnv} `{ProxyEnv}.
Context (Hwell : all_well).

Lemma twp_on_net {A} (m : Prog Net A) (Q : A -> CServer * Net -> Prop) s n :
  twp m (fun a n' => Q a (s, n')) n -> twp (on_net m) Q (s, n).
Proof. intros (a & n' & Hm & HQ). exists a, (s, n'). unfold on_net, zoom. cbn. by rewrite Hm. Qed.

Lemma runs_client_detach p ch v : runs (sb_setClientDetachNotification p ch v) grows.
Proof.
  unfold sb_setClientDetachNotification. apply (runs_bind grows); [apply runs_request|]. intros t. apply (runs_ret grows).
Qed.

(** The new connection has an id and a notification of its own. *)
Lemma twp_add_connection hdr channel (Q : Z -> CServer * Net -> Prop) s n :
  (forall i nid n', grows n n' ->
     Q (negotiated (mh_protoMinor hdr))
       (s <| sv_mClientConnections ::= insert_connection
               (mkClientConn i (mh_clientID hdr) (mh_serverID hdr) nid channel (negotiated (mh_protoMinor hdr))) |>, n')) ->
  twp (add_connection hdr channel) Q (s, n).
Proof.
  intros HQ. unfold add_connection. apply twp_bind, twp_on_net. eapply twp_runs; [apply runs_createId|]. intros i n1 G1.
  apply twp_bind, twp_on_net. eapply twp_ok; [reflexivity|].
  apply twp_bind, twp_on_net. eapply twp_runs; [apply runs_client_detach|]. intros nid n2 G2.
  apply twp_bind. eapply twp_ok; [reflexivity|]. eapply twp_ok; [reflexivity|]. cbn [fst snd].
  apply HQ. by etrans.
Qed.

Lemma inserted_connection conn l :
  connection_of (cc_clientID conn) l = None -> connection_of (cc_clientID conn) (insert_connection conn l) = Some conn.
Proof.
  assert (Hself : global_eqb (cc_clientID conn) (cc_clientID conn) = true) by (unfold global_eqb; apply Z.eqb_refl).
  unfold connection_of. induction l as [|c l IH]; cbn; [by rewrite Hself|].
  destruct (global_eqb (cc_clientID c) (cc_clientID conn)) eqn:Hc; [done|]. intros Hl.
  unfold global_eqb in Hc. apply Z.eqb_neq in Hc.
  destruct (globalID (cc_clientID conn) <? globalID (cc_clientID c)) eqn:Hlt; cbn; [by rewrite Hself|].
  apply Z.ltb_ge in Hlt. rewrite (proj2 (Z.ltb_lt _ _)) by lia. cbn. unfold global_eqb at 1.
  rewrite (proj2 (Z.eqb_neq _ _)) by done. by apply IH.
Qed.

(** A connect request by a local channel is accepted. *)
Lemma twp_handleConnectRequest h (Q : unit -> CServer * Net -> Prop) s n :
  net_wf n -> ch_channel h <> 0 ->
  connection_of (mh_clientID (ch_header h)) (sv_mClientConnections s) = None ->
  (forall s' n', connected s' n' (mh_clientID (ch_header h)) ->
     E_send (ch_channel h) (connect_response (ch_header h) (negotiated (mh_protoMinor (ch_header h)))
                              (u32 env_pid, u32 (n_localChid n))) true ∈ n_log n' -> Q tt (s', n')) ->
  twp (handleConnectRequest h) Q (s, n).
Proof.
  intros Hw Hch Hnew HQ. unfold handleConnectRequest.
  apply twp_bind, twp_on_net, twp_attach; [done|done|]. intros ch2 n1 Hw1 (_ & _ & Hlc & _) Hin.
  destruct (nw_owned _ Hw1 _ Hin) as (k2 & r2 & Hk2 & Hz & _).
  apply twp_bind, twp_add_connection. intros i nid n2 G2. apply twp_bind, twp_on_net. eapply twp_ok; [reflexivity|].
  apply twp_bind, twp_on_net, twp_send; [done|done|]. intros n3 G3 Hlog. eapply twp_ok; [reflexivity|].
  pose proof G2 as (_ & _ & _ & _ & _ & L2 & _). apply HQ; [|by rewrite <- Hlc, <- L2].
  set (conn := mkClientConn i _ _ nid (Some ch2) _). exists conn, ch2. split; [|split; [done|split; [lia|]]].
  - cbn. by apply (inserted_connection conn).
  - rewrite (grows_alive _ _ _ G3), (grows_alive _ _ _ G2). unfold alive. rewrite Hk2.
    rewrite bool_decide_true by (by eexists). apply orb_true_r.
Qed.

(** The connect request, at the server's engine. *)
Lemma twp_accept (Q : bool -> CCommEngine -> Prop) e p s hdr chs k words :
  net_wf (en_net e) -> finds CServer (mh_serverID hdr) e p -> en_servers e !! p = Some s ->
  n_channels (en_net e) !! chs = Some (CK_local, k) -> chs <> 0 ->
  connection_of (mh_clientID hdr) (sv_mClientConnections s) = None ->
  is_u32 words.1 -> is_u32 words.2 ->
  mh_protoMajor hdr = DSI_PROTOCOL_VERSION_MAJOR -> mh_cmd hdr = Command_value ConnectRequest ->
  (forall s' e', en_servers e' !! p = Some s' -> connected s' (en_net e') (mh_clientID hdr) ->
     E_send chs (connect_response hdr (negotiated (mh_protoMinor hdr)) (u32 env_pid, u32 (n_localChid (en_net e)))) true
       ∈ n_log (en_net e') -> Q true e') ->
  twp (handleMessage hdr chs (Some (info_words words))) Q e.
Proof.
  intros Hn Hf Hp Hk Hz Hnew Hw1 Hw2 Hmaj Hcmd HQ. unfold handleMessage. rewrite Hmaj, Hcmd, Z.eqb_refl.
  change (twp (handle_connect hdr chs (info_words words)) Q e). unfold handle_connect.
  apply twp_bind. eapply twp_findServer; [exact Hf|]. intros e1 (E1 & _ & E3 & _).
  apply twp_bind. eapply twp_ok; [reflexivity|]. cbv beta. rewrite E1, Hk.
  apply twp_bind. apply (twp_read_info _ _ _ words.1 words.2); [done|by apply le_value_u32|by apply le_value_u32|].
  intros n2 Hg. rewrite E1 in Hg. pose proof Hg as (_ & _ & _ & _ & _ & G6 & _).
  apply twp_bind. eapply (twp_call (T := CServer)); [cbn; rewrite E3; exact Hp|]. cbn [en_net].
  apply twp_handleConnectRequest; [by eapply grows_wf|done|done|].
  intros s' n' Hc Hl. eapply twp_ok; [reflexivity|]. eapply HQ; [cbn; by rewrite lookup_insert_eq|exact Hc|].
  rewrite <- G6. exact Hl.
Qed.
End server_side.

(** ** A client connects to a server *)

(** A process: what its libraries read from outside, its stubs, its proxies and its engine. *)
Record Process := {
  pr_app : AppEnv;
  pr_stub : StubEnv;
  pr_proxy : ProxyEnv;
}.

Definition on_pulse (P : Process) (code value : Z) : Prog CCommEngine unit :=
  handlePulse (H := pr_app P) (H0 := pr_stub P) (H1 := pr_proxy P) code value.
(** The message a packet is when it arrives on the connection [ch]. *)
Definition packet_body (p : Packet) : bytes :=
  match pk_info p with Some i => info_bytes i | None => [] end ++ pk_payload p.
Definition on_packet (P : Process) (ch : Z) (p : Packet) : Prog CCommEngine bool :=
  handleMessage (H := pr_app P) (H0 := pr_stub P) (H1 := pr_proxy P) (pk_header p) ch (Some (packet_body p)).

Definition healthy (P : Process) : Prop := all_well (H := pr_app P) /\ broker_ok (H := pr_app P).
Definition pid_of (P : Process) : Z := env_pid (AppEnv := pr_app P).

(** What the servicebroker tells a client of the process. *)
Definition told (P : Process) (t : nat) : SConnectionInfo := env_connInfo (AppEnv := pr_app P) t.

(** A client that waits for its server; the ids the servicebroker gives out are new. *)
Record waiting_client (P : Process) (e : CCommEngine) (p : Z) (c : CClient) : Prop := {
  wc_net : net_wf (en_net e);
  wc_object : en_clients e !! p = Some c;
  wc_found : singles_out (fun o : CClient => ob_mId o =? cl_mId c) e p;
  wc_engine : cl_mCommEngine c = true;
  wc_free : cl_mConnector c = None;
  wc_fresh t q c' : q <> p -> en_clients e !! q = Some c' -> globalID (cl_mClientID c') <> globalID (ci_clientID (told P t));
  wc_cache t : en_mClientCache e !! globalID (ci_clientID (told P t)) = None;
}.

(** The server the servicebroker names to the clients of the process [P]. *)
Record listening_server (P : Process) (e : CCommEngine) (p : Z) (s : CServer) : Prop := {
  ls_net : net_wf (en_net e);
  ls_object : en_servers e !! p = Some s;
  ls_found t : finds CServer (ci_serverID (told P t)) e p;
  ls_named t : party_set (ci_serverID (told P t)) = true;
  ls_new t : connection_of (ci_clientID (told P t)) (sv_mClientConnections s) = None;
}.

(** After the pulse the engine finds its client under the id it got. *)
Lemma finds_connecting P e p c c' n' t :
  waiting_client P e p c -> cl_mClientID c' = ci_clientID (told P t) ->
  finds CClient (ci_clientID (told P t)) (e <| en_net := n' |> <| en_clients ::= <[p := c']> |>) p.
Proof.
  intros Hw Hid. destruct Hw as [_ Hobj [S1 S2 _ _] _ _ Hfr Hca]. split; [cbn; rewrite lookup_insert_eq; by eexists|].
  right. split; [apply Hca|]. split; cbn in *.
  - exact S1.
  - intros q Hq. destruct (decide (q = p)) as [->|Hne]; [rewrite lookup_insert_eq; by eexists|].
    rewrite lookup_insert_ne by done. by apply S2.
  - intros o. rewrite lookup_insert_eq. intros [= <-]. unfold global_eqb. rewrite Hid. apply Z.eqb_refl.
  - intros q o Hq Ho Hg. destruct (decide (q = p)) as [|Hne]; [done|]. rewrite lookup_insert_ne in Ho by done.
    exfalso. apply (Hfr t q o Hne Ho). by apply Z.eqb_eq.
Qed.

(** C1. Two processes connect: on the pulse that its server is available the engine of a
    waiting client sends a connect request; the engine of the server, handling it, has the
    server accept the client and sends a connect response; the engine of the client, handling
    that, has the client connected to this server, and the server's channel to the client can
    be used.  Nothing aborts, whatever the user of the client does when it is told. *)
Theorem connect_handshake (C S : Process) ec pc c es ps s chs k chc :
  healthy C -> all_well (H := pr_app S) -> u32 (pid_of S) <> 0 ->
  waiting_client C ec pc c -> listening_server C es ps s ->
  n_channels (en_net es) !! chs = Some (CK_local, k) -> chs <> 0 ->
  exists ec1 ch request es1 response ec2 c2 s2,
    on_pulse C PULSE_SERVER_AVAILABLE (cl_mId c) ec = Ok tt ec1 /\
    E_send ch request true ∈ n_log (en_net ec1) /\
    on_packet S chs request es = Ok true es1 /\
    E_send chs response true ∈ n_log (en_net es1) /\
    on_packet C chc response ec1 = Ok true ec2 /\
    en_clients ec2 !! pc = Some c2 /\ isConnected c2 (en_net ec2) = true /\
    E_connected (cl_mId c) ∈ n_log (en_net ec2) /\
    en_servers es1 !! ps = Some s2 /\ connected s2 (en_net es1) (mh_clientID (pk_header response)).
Proof.
  intros [Hwc Hbc] Hws Hpid Hcl Hsv Hchs Hz. pose proof Hcl as [C1 C2 C3 C4 C5 _ _]. pose proof Hsv as [S1 S2 S3 S4 S5].
  assert (Hpulse : twp (on_pulse C PULSE_SERVER_AVAILABLE (cl_mId c)) (fun _ ec1 => exists c1 n1 t ch,
    ec1 = ec <| en_net := n1 |> <| en_clients ::= <[pc := c1]> |> /\
    net_wf n1 /\ request_sent (H := pr_app C) (told C t) c1 n1 ch /\ cl_mId c1 = cl_mId c) ec).
  { eapply (twp_pulse Hwc); try done. intros c' n' t ch Hn' Hr Hid. by exists c', n', t, ch. }
  destruct Hpulse as ([] & ec1 & Hp1 & c1 & n1 & t & ch & -> & Hn1 & Hr & Hid).
  pose proof Hr as (sm & k1 & r & _ & _ & _ & _ & Hcid & Hlog).
  set (words := (u32 (pid_of C), u32 (n_localChid n1))).
  set (request := connect_request (ci_clientID (told C t)) (ci_serverID (told C t)) (info_words words)).
  assert (Haccept : twp (on_packet S chs request) (fun rc es1 => rc = true /\ exists s2,
    en_servers es1 !! ps = Some s2 /\ connected s2 (en_net es1) (ci_clientID (told C t)) /\
    E_send chs (connect_response (pk_header request) (negotiated 0) (u32 (pid_of S), u32 (n_localChid (en_net es)))) true
      ∈ n_log (en_net es1)) es).
  { eapply (twp_accept Hws _ _ _ s _ _ k words); try done; [apply S3|apply S5|apply u32_range|apply u32_range|].
    intros s' e' H1 H2 H3. split; [done|]. by exists s'. }
  destruct Haccept as (rc & es1 & Ha & -> & s2 & A1 & A2 & A3).
  set (response := connect_response _ _ _) in A3. set (ec1 := ec <| en_net := n1 |> <| en_clients ::= <[pc := c1]> |>) in *.
  assert (Hcon : twp (on_packet C chc response) (fun rc ec2 => rc = true /\ exists c2,
    en_clients ec2 !! pc = Some c2 /\ isConnected c2 (en_net ec2) = true /\ E_connected (cl_mId c) ∈ n_log (en_net ec2)) ec1).
  { eapply (twp_connected Hwc _ _ pc c1 (told C t) ch);
      [exact Hn1| |unfold ec1; cbn; by rewrite lookup_insert_eq|exact Hr|apply u32_range|apply u32_range|exact Hpid
      |reflexivity|reflexivity|].
    - by apply (finds_connecting C ec pc c).
    - intros c' e' E1 E2 E3 E4 E5. split; [done|]. exists c'. rewrite <- Hid. split; [done|]. split; [|done].
      rewrite E2, Hcid. change (mh_serverID (pk_header response)) with (ci_serverID (told C t)). rewrite S4.
      replace (party_set (ci_clientID (told C t))) with true by (symmetry; apply Hbc). done. }
  destruct Hcon as (rc & ec2 & Hc & -> & c2 & B1 & B2 & B3).
  exists ec1, ch, request, es1, response, ec2, c2, s2. repeat split; try done.
Qed.

(** ** A request and its answer *)

Section request_side.
Context `{AppEnv} `{ProxyEnv} `{StubEnv}.

Record info_ok (i : EventInfo) : Prop := {
  io_version : is_u32 (ei_ifVersion i);
  io_type : is_u32 (ei_type i);
  io_request : is_u32 (ei_requestID i);
  io_sequence : - 2 ^ 31 <= ei_sequenceNumber i < 2 ^ 31;
}.

Lemma read_event_ok i payload (Q : EventInfo * bytes -> CCommEngine -> Prop) e :
  info_ok i -> Q (i, payload) e -> twp (read_event (info_bytes i ++ payload)) Q e.
Proof.
  intros [H1' H2' H3' H4'] HQ. destruct i as [v ty r sq]. cbn [ei_ifVersion ei_type ei_requestID ei_sequenceNumber] in *.
  set (i := mkEventInfo v ty r sq) in *. unfold read_event.
  assert (Hl : (Z.of_nat (length (info_bytes i ++ payload)) <? sizeof_info) = false).
  { apply Z.ltb_ge. rewrite length_app. change (length (info_bytes i)) with 16%nat. change sizeof_info with 16. lia. }
  rewrite Hl. eapply twp_ok; [reflexivity|].
  change (field 0 4 (info_bytes i ++ payload)) with (le_value (le_bytes 4 v)).
  change (field 4 4 (info_bytes i ++ payload)) with (le_value (le_bytes 4 ty)).
  change (field 8 4 (info_bytes i ++ payload)) with (le_value (le_bytes 4 r)).
  change (field 12 4 (info_bytes i ++ payload)) with (le_value (le_bytes 4 sq)).
  change (drop (Z.to_nat sizeof_info) (info_bytes i ++ payload)) with payload.
  by rewrite (le_value_u32 v), (le_value_u32 ty), (le_value_u32 r), le_value_i32.
Qed.

(** A request of the user, on a channel that can be used. *)
Lemma twp_user_request (Hwell : all_well) id payload (Q : unit -> CClient * Net -> Prop) c n ch :
  cl_mChannel c = Some ch -> ch <> 0 -> alive ch n = true ->
  (forall n', grows n n' ->
     E_send ch (packet_of (CRequestWriter_request (RequestType_value REQUEST) id DataRequest (cl_mClientID c)
                  (cl_mServerID c) (cl_mProtoMinor c) INVALID_SEQUENCE_NR (n_nextID n)) payload) true ∈ n_log n' ->
     Q tt (c, n')) ->
  twp (run_client_action (CA_request id payload)) Q (c, n).
Proof.
  intros Hc Hz Ha HQ. cbn [run_client_action]. unfold send_request. apply twp_bind. eapply twp_ok; [reflexivity|].
  apply twp_bind. eapply twp_ok; [reflexivity|]. cbn [fst snd]. rewrite Hc. unfold expired. rewrite Ha. cbn [negb].
  apply twp_bind, twp_net, twp_bind. eapply twp_ok; [reflexivity|]. apply twp_bind. eapply twp_ok; [reflexivity|].
  eapply twp_ok; [reflexivity|].
  apply twp_bind, twp_net, (twp_send Hwell); [done|]. intros n2 G2 Hl. eapply twp_ok; [reflexivity|].
  apply HQ; [|exact Hl]. etrans; [|exact G2]. by repeat split.
Qed.

(** The answer, at the client's engine. *)
Lemma twp_data_response (Hwell : all_well) (Q : bool -> CCommEngine -> Prop) e p c hdr chc i payload ch :
  finds CClient (mh_clientID hdr) e p -> en_clients e !! p = Some c -> info_ok i ->
  cl_mChannel c = Some ch -> ch <> 0 -> alive ch (en_net e) = true -> mh_protoMinor hdr = cl_mProtoMinor c ->
  mh_protoMajor hdr = DSI_PROTOCOL_VERSION_MAJOR -> mh_cmd hdr = Command_value DataResponse ->
  (forall e', E_response (cl_mId c) (ei_type i) (ei_requestID i) payload ∈ n_log (en_net e') -> Q true e') ->
  twp (handleMessage hdr chc (Some (info_bytes i ++ payload))) Q e.
Proof.
  intros Hf Hp Hi Hc Hz Ha Hm Hmaj Hcmd HQ. unfold handleMessage. rewrite Hmaj, Hcmd, Z.eqb_refl.
  change (twp (handle_data_response hdr (info_bytes i ++ payload)) Q e). unfold handle_data_response.
  apply twp_bind. eapply twp_findClient; [exact Hf|]. intros e1 (E1 & E2 & _).
  apply twp_bind, twp_bind, read_event_ok; [done|]. eapply (twp_call (T := CClient)); [cbn; rewrite E2; exact Hp|].
  unfold handleDataResponse. apply twp_bind. eapply twp_ok; [reflexivity|]. cbn [fst snd rh_protoMinor].
  rewrite Hm, Z.eqb_refl. cbn [negb]. apply twp_bind. eapply twp_ok; [reflexivity|]. cbn [fst snd].
  apply twp_bind. rewrite E1. eapply (twp_callback Hwell _ _ _ _ ch); [done|done|done|]. intros n' G Hl.
  eapply twp_ok; [reflexivity|]. eapply twp_ok; [reflexivity|]. by apply HQ.
Qed.
End request_side.

(** What the header of a packet keeps of its writer's. *)
Lemma packet_header w payload :
  let h := pk_header (packet_of w payload) in
  mh_protoMajor h = mh_protoMajor (rw_header w) /\ mh_protoMinor h = mh_protoMinor (rw_header w) /\
  mh_serverID h = mh_serverID (rw_header w) /\ mh_clientID h = mh_clientID (rw_header w) /\ mh_cmd h = mh_cmd (rw_header w).
Proof. unfold packet_of, set_frame. cbn [pk_header]. by destruct (DSI_PAYLOAD_SIZE <? _). Qed.

Lemma finds_net T `{EngineObject T} id e e' p :
  ob_objects e' = ob_objects e -> ob_list e' = ob_list e -> ob_cache e' = ob_cache e ->
  finds T id e p -> finds T id e' p.
Proof.
  intros H1 H2 H3 [Ho Hf]. split; [by rewrite H1|]. rewrite H3. destruct Hf as [|[Hc [A B D E]]]; [by left|]. right.
  split; [done|]. split; rewrite ?H1, ?H2; done.
Qed.

(** The request of a client as the server's engine presents it. *)
Definition presented (c : CClient) (id seq : Z) (payload : bytes) : DataHandle :=
  mkDataHandle (cl_mClientID c) (cl_mProtoMinor c) (RequestType_value REQUEST) id seq payload.

(** A request at the server's engine. *)
Lemma twp_data_request (P : Process) (Q : bool -> CCommEngine -> Prop) e p s c seq id payload chs conn ch2 rpayload :
  let r := @st_getResponse (pr_stub P) id in
  let request := packet_of (CRequestWriter_request (RequestType_value REQUEST) id DataRequest (cl_mClientID c)
                              (cl_mServerID c) (cl_mProtoMinor c) INVALID_SEQUENCE_NR seq) payload in
  let h := presented c id (i32 seq) payload in
  is_u32 id -> finds CServer (cl_mServerID c) e p -> en_servers e !! p = Some s ->
  request_of h s (en_net e) conn ch2 -> callable (H0 := pr_stub P) h s -> idle s ->
  @st_user (pr_stub P) (n_tick (en_net e)) = U_respond r rpayload U_done ->
  (forall e', en_servers e' !! p = Some s -> E_request (sv_mId s) id payload ∈ n_log (en_net e') ->
     E_send ch2 (response_to h conn RESULT_OK r (cl_mClientID c) rpayload) (@env_send (pr_app P) (S (n_tick (en_net e))))
       ∈ n_log (en_net e') -> Q true e') ->
  twp (on_packet P chs request) Q e.
Proof.
  intros r request h Hid Hf Hp Hr Hca Hi Hu HQ. unfold on_packet, packet_body.
  change (pk_info request) with (Some (mkEventInfo 0 (RequestType_value REQUEST) id (i32 seq))). cbv iota.
  change (pk_payload request) with payload. unfold handleMessage.
  destruct (packet_header (CRequestWriter_request (RequestType_value REQUEST) id DataRequest (cl_mClientID c)
                              (cl_mServerID c) (cl_mProtoMinor c) INVALID_SEQUENCE_NR seq) payload) as (A1 & A2 & A3 & A4 & A5).
  fold request in A1, A2, A3, A4, A5. rewrite A1, A5. cbn [rw_header] in A2, A3, A4.
  change (twp (handle_data_request (H := pr_app P) (H0 := pr_stub P) (pk_header request)
    (info_bytes (mkEventInfo 0 (RequestType_value REQUEST) id (i32 seq)) ++ payload)) Q e).
  unfold handle_data_request. apply twp_bind. eapply twp_findServer; [rewrite A3; exact Hf|]. intros e1 (E1 & _ & E3 & _).
  apply twp_bind, twp_bind, read_event_ok; [split; [done|done|done|apply i32_range]|].
  eapply (twp_call (T := CServer)); [cbn; rewrite E3; exact Hp|].
  eapply twp_ok.
  { rewrite A2, A4, E1. cbn [fst snd ei_type ei_requestID ei_sequenceNumber].
    exact (request_answered (H := pr_app P) (H0 := pr_stub P) h s _ conn ch2 rpayload Hr Hca Hi Hu). }
  eapply twp_ok; [reflexivity|]. apply HQ; [cbn; by rewrite lookup_insert_eq| |].
  - apply elem_of_app. left. apply elem_of_app. right. by left.
  - apply elem_of_app. right. by left.
Qed.

(** A client that is connected through [ch], at its engine. *)
Record connected_client (e : CCommEngine) (p : Z) (c : CClient) (ch : Z) : Prop := {
  kc_object : en_clients e !! p = Some c;
  kc_found : finds CClient (cl_mClientID c) e p;
  kc_channel : cl_mChannel c = Some ch;
  kc_real : ch <> 0;
  kc_alive : alive ch (en_net e) = true;
}.

(** C2. A request and its answer, from the client's user to the client's user: the request
    packet of a connected client makes the engine of its server call the user's method with
    the parameters of the request; the response the method gives, under the request's sequence
    number, makes the engine of the client hand its data to the client.  The server is as it
    was before. *)
Theorem request_roundtrip (C S : Process) ec pc c ch es ps s conn ch2 id payload rpayload chs chc :
  let h := presented c id (i32 (n_nextID (en_net ec))) payload in
  let r := @st_getResponse (pr_stub S) id in
  all_well (H := pr_app C) -> all_well (H := pr_app S) ->
  is_u32 id -> is_u32 r -> connected_client ec pc c ch ->
  finds CServer (cl_mServerID c) es ps -> en_servers es !! ps = Some s ->
  request_of h s (en_net es) conn ch2 -> callable (H0 := pr_stub S) h s -> idle s ->
  @st_user (pr_stub S) (n_tick (en_net es)) = U_respond r rpayload U_done ->
  exists ec1 request es1 response ec2,
    call pc (run_client_action (H := pr_app C) (CA_request id payload)) ec = Ok tt ec1 /\
    E_send ch request true ∈ n_log (en_net ec1) /\
    on_packet S chs request es = Ok true es1 /\
    E_request (sv_mId s) id payload ∈ n_log (en_net es1) /\ en_servers es1 !! ps = Some s /\
    E_send ch2 response true ∈ n_log (en_net es1) /\
    on_packet C chc response ec1 = Ok true ec2 /\
    E_response (cl_mId c) (ResultType_value RESULT_OK) r rpayload ∈ n_log (en_net ec2).
Proof.
  intros h r Hwc Hws Hid Hr [K1 K2 K3 K4 K5] Hf Hs Hreq Hca Hi Hu.
  set (request := packet_of (CRequestWriter_request (RequestType_value REQUEST) id DataRequest (cl_mClientID c)
                    (cl_mServerID c) (cl_mProtoMinor c) INVALID_SEQUENCE_NR (n_nextID (en_net ec))) payload).
  set (response := response_to h conn RESULT_OK r (cl_mClientID c) rpayload).
  assert (Hsend : twp (call pc (run_client_action (H := pr_app C) (CA_request id payload))) (fun _ ec1 =>
    en_clients ec1 = en_clients ec /\ en_mClientList ec1 = en_mClientList ec /\ en_mClientCache ec1 = en_mClientCache ec /\
    alive ch (en_net ec1) = true /\ E_send ch request true ∈ n_log (en_net ec1)) ec).
  { eapply (twp_call (T := CClient)); [exact K1|]. apply (twp_user_request Hwc _ _ _ _ _ ch); [done|done|done|].
    intros n' G Hl. cbn. rewrite (insert_id _ _ _ K1). split; [done|]. split; [done|]. split; [done|].
    split; [|exact Hl]. by rewrite (grows_alive _ _ _ G). }
  destruct Hsend as ([] & ec1 & Hc1 & L1 & L2 & L3 & L4 & L5).
  assert (Hsv : twp (on_packet S chs request) (fun rc es1 => rc = true /\ en_servers es1 !! ps = Some s /\
    E_request (sv_mId s) id payload ∈ n_log (en_net es1) /\ E_send ch2 response true ∈ n_log (en_net es1)) es).
  { eapply (twp_data_request S _ es ps s c (n_nextID (en_net ec)) id payload chs conn ch2 rpayload); try done.
    intros e' F1 F2 F3. rewrite (aw_send Hws) in F3. done. }
  destruct Hsv as (rc & es1 & Hs1 & -> & M1 & M2 & M3).
  assert (Hrs : twp (on_packet C chc response) (fun rc ec2 => rc = true /\
    E_response (cl_mId c) (ResultType_value RESULT_OK) r rpayload ∈ n_log (en_net ec2)) ec1).
  { unfold on_packet, packet_body. set (info := mkEventInfo 0 (ResultType_value RESULT_OK) r (dh_sequenceNumber h)).
    change (pk_info response) with (Some info). cbv iota. change (pk_payload response) with rpayload.
    destruct (packet_header (CRequestWriter_response (ResultType_value RESULT_OK) r DataResponse (dh_sequenceNumber h)
      (cl_mClientID c) (cc_serverID conn) (cc_protoMinor conn)) rpayload) as (A1 & A2 & A3 & A4 & A5).
    fold (response_to h conn RESULT_OK r (cl_mClientID c) rpayload) in A1, A2, A3, A4, A5. fold response in A1, A2, A3, A4, A5.
    eapply (twp_data_response Hwc _ ec1 pc c _ _ info rpayload ch);
      [|by rewrite L1| |exact K3|exact K4|exact L4| |rewrite A1; reflexivity|rewrite A5; reflexivity|].
    - rewrite A4. eapply finds_net; [exact L1|exact L2|exact L3|exact K2].
    - split; [by vm_compute|by vm_compute|exact Hr|apply i32_range].
    - rewrite A2. exact (ro_minor _ _ _ _ _ Hreq).
    - intros e' Hl. split; [reflexivity|exact Hl]. }
  destruct Hrs as (rc & ec2 & Hc2 & -> & N1).
  exists ec1, request, es1, response, ec2. split_and!; assumption.
Qed.

(** ** Concrete processes *)

Definition demo_process : Process :=
  {| pr_app := demo_env; pr_stub := demo_stub; pr_proxy := demo_proxy |}.

(** One engine waits with a client, one listens with a server on the connection 7. *)
Definition waiting_engine : CCommEngine :=
  CCommEngine_new 12 <| en_clients := {[1 := demo_pinger]} |> <| en_mClientList := [1] |> <| en_mActive := true |>.
Definition listening_demo : CServer := demo_server <| sv_mServerID := mkParty 9 0 |> <| sv_mClientConnections := [] |>.
Definition listening_net : Net :=
  Net_initial 13 <| n_connections := {[7]} |> <| n_channels := {[7 := (CK_local, 1%nat)]} |> <| n_newest := 7 |>.
Definition listening_engine : CCommEngine :=
  CCommEngine_new 13 <| en_servers := {[2 := listening_demo]} |> <| en_mServerList := [2] |> <| en_mActive := true |>
    <| en_net := listening_net |>.

Lemma listening_net_wf : net_wf listening_net.
Proof.
  split; cbn.
  - intros ch ->%elem_of_singleton. eexists _, _. by split.
  - intros ch [x Hx]. destruct (decide (ch = 7)) as [->|Hne]; [done|]. by rewrite lookup_singleton_ne in Hx.
  - done.
  - done.
Qed.

Lemma demo_all_well : all_well (H := demo_env).
Proof. by split. Qed.

Lemma demo_waiting : waiting_client demo_process waiting_engine 1 demo_pinger.
Proof.
  split; try done.
  - split; [intros ch Hch|intros ch [x Hx]|intros ep ch Hch|]; cbn in *; set_solver.
  - split; cbn; [by left| | |].
    + intros q ->%list_elem_of_singleton. by eexists.
    + by intros o [= <-].
    + by intros q o ->%list_elem_of_singleton.
  - intros t q c' Hq. cbn. by rewrite lookup_singleton_ne.
Qed.

Lemma demo_listening : listening_server demo_process listening_engine 2 listening_demo.
Proof.
  split; try done; [exact listening_net_wf|]. intros t. split; [by eexists|]. right. split; [done|].
  split; cbn; [by left| | |].
  - intros q ->%list_elem_of_singleton. by eexists.
  - by intros o [= <-].
  - by intros q o ->%list_elem_of_singleton.
Qed.

Lemma connect_handshake_witness :
  exists ec1 ch request es1 response ec2 c2 s2,
    on_pulse demo_process PULSE_SERVER_AVAILABLE (cl_mId demo_pinger) waiting_engine = Ok tt ec1 /\
    E_send ch request true ∈ n_log (en_net ec1) /\
    on_packet demo_process 7 request listening_engine = Ok true es1 /\
    E_send 7 response true ∈ n_log (en_net es1) /\
    on_packet demo_process 1 response ec1 = Ok true ec2 /\
    en_clients ec2 !! 1 = Some c2 /\ isConnected c2 (en_net ec2) = true /\
    E_connected (cl_mId demo_pinger) ∈ n_log (en_net ec2) /\
    en_servers es1 !! 2 = Some s2 /\ connected s2 (en_net es1) (mh_clientID (pk_header response)).
Proof.
  apply (connect_handshake demo_process demo_process waiting_engine 1 demo_pinger listening_engine 2 listening_demo 7 1 1).
  - split; [exact demo_all_well|exact demo_broker].
  - exact demo_all_well.
  - by vm_compute.
  - exact demo_waiting.
  - exact demo_listening.
  - reflexivity.
  - discriminate.
Defined.

(** A connected client, and the server it is connected to. *)
Definition talking_pinger : CClient :=
  demo_pinger <| cl_mClientID := mkParty 5 0 |> <| cl_mServerID := mkParty 9 0 |> <| cl_mChannel := Some 3 |>.
Definition talking_engine : CCommEngine :=
  CCommEngine_new 12 <| en_clients := {[1 := talking_pinger]} |> <| en_mClientList := [1] |>
    <| en_net ::= fun n => n <| n_channels := {[3 := (CK_local, 1%nat)]} |> |>.
Definition answering_server : CServer := demo_server <| sv_mServerID := mkParty 9 0 |>.
Definition answering_engine : CCommEngine :=
  CCommEngine_new 13 <| en_servers := {[2 := answering_server]} |> <| en_mServerList := [2] |> <| en_net := demo_net |>.

Lemma request_roundtrip_witness :
  exists ec1 request es1 response ec2,
    call 1 (run_client_action (H := demo_env) (CA_request 1 [8; 9])) talking_engine = Ok tt ec1 /\
    E_send 3 request true ∈ n_log (en_net ec1) /\
    on_packet demo_process 7 request answering_engine = Ok true es1 /\
    E_request (sv_mId answering_server) 1 [8; 9] ∈ n_log (en_net es1) /\ en_servers es1 !! 2 = Some answering_server /\
    E_send 2 response true ∈ n_log (en_net es1) /\
    on_packet demo_process 4 response ec1 = Ok true ec2 /\
    E_response (cl_mId talking_pinger) (ResultType_value RESULT_OK) 0x80000000 [42] ∈ n_log (en_net ec2).
Proof.
  apply (request_roundtrip demo_process demo_process talking_engine 1 talking_pinger 3 answering_engine 2
           answering_server demo_client 2 1 [8; 9] [42] 7 4).
  - exact demo_all_well.
  - exact demo_all_well.
  - by vm_compute.
  - by vm_compute.
  - split; try done. split; [by eexists|]. right. split; [done|]. split; cbn; [by left| | |].
    + intros q ->%list_elem_of_singleton. by eexists.
    + by intros o [= <-].
    + by intros q o ->%list_elem_of_singleton.
  - split; [by eexists|]. right. split; [done|]. split; cbn; [by left| | |].
    + intros q ->%list_elem_of_singleton. by eexists.
    + by intros o [= <-].
    + by intros q o ->%list_elem_of_singleton.
  - reflexivity.
  - split; by vm_compute.
  - split; try done. repeat constructor; by vm_compute.
  - by split.
  - reflexivity.
Defined.
