(* ===== verification/Wire.v ===== *)
(** The bytes of the protocol's structs.

    The structs of [include/dsi/private/servicebroker.h] travel as they lie in
    memory.  Memory is a list of bytes; fields are read and written at the
    offsets of [Layout].  [Wire] gives for each struct its layout and the two
    directions between its bytes and its value, [WireLaws] the round trip. *)

From S2P Require Import Prelude.
From S2P Require Import Layout.
From S2P Require Import Types.

(** ** Memory *)

Definition load (off len : Z) (m : bytes) : bytes := take (Z.to_nat len) (drop (Z.to_nat off) m).

(** A write; [None] when it leaves the object. *)
Definition store (off : Z) (data m : bytes) : option bytes :=
  if (0 <=? off) && (off + Z.of_nat (length data) <=? Z.of_nat (length m))
  then Some (take (Z.to_nat off) m ++ data ++ drop (Z.to_nat off + length data) m)
  else None.

(** [memset(p, 0, n)] of a whole object. *)
Definition zeroed (n : Z) : bytes := replicate (Z.to_nat n) 0.

(** ** Structs *)

Fixpoint offsets (fs : list ctype) (off : Z) : list Z :=
  match fs with
  | [] => []
  | f :: fs' => let o := align_up (alignof f) off in o :: offsets fs' (o + sizeof f)
  end.

Definition members (t : ctype) : list ctype :=
  match t with CStruct fs => fs | _ => [] end.

Definition field_offset (t : ctype) (i : nat) : Z := nth i (offsets (members t) 0) 0.
Definition field_size (t : ctype) (i : nat) : Z := sizeof (nth i (members t) (CStruct [])).

(** Member [i] of a struct that lies at the beginning of [m]. *)
Definition field (t : ctype) (i : nat) (m : bytes) : bytes :=
  load (field_offset t i) (field_size t i) m.

(** The members with the padding before each, from offset [off] on. *)
Fixpoint members_mem (fs : list ctype) (vals : list bytes) (off : Z) : bytes :=
  match fs, vals with
  | f :: fs', v :: vals' =>
    let o := align_up (alignof f) off in
    zeroed (o - off) ++ v ++ members_mem fs' vals' (o + sizeof f)
  | _, _ => []
  end.

Definition pad_to (n : Z) (m : bytes) : bytes := m ++ zeroed (n - Z.of_nat (length m)).

(** A struct with the given members and zero padding. *)
Definition struct_mem (t : ctype) (vals : list bytes) : bytes :=
  pad_to (sizeof t) (members_mem (members t) vals 0).

(** ** Integers *)

Definition u16_mem (v : Z) : bytes := le_bytes 2 v.
Definition u32_mem (v : Z) : bytes := le_bytes 4 v.
Definition u_of (m : bytes) : Z := le_value m.
Definition i32_of (m : bytes) : Z := i32 (le_value m).

(** ** The structs *)

Class Wire (A : Type) := {
  wire_type : ctype;
  to_mem : A -> bytes;
  of_mem : bytes -> A;
  wire_ok : A -> Prop;
}.
Arguments wire_type A {_}.

Class WireLaws (A : Type) `{Wire A} := {
  to_mem_length (a : A) : wire_ok a -> Z.of_nat (length (to_mem a)) = sizeof (wire_type A);
  of_to_mem (a : A) : wire_ok a -> of_mem (to_mem a) = a;
}.

Definition is_u16 (x : Z) : Prop := 0 <= x < 2 ^ 16.
Definition is_i32 (x : Z) : Prop := - 2 ^ 31 <= x < 2 ^ 31.

#[export] Instance SPartyID_Wire : Wire SPartyID := {|
  wire_type := lay_SPartyID;
  to_mem p := u32_mem (localID p) ++ u32_mem (extendedID p);
  of_mem m := mkParty (u_of (load 0 4 m)) (u_of (load 4 4 m));
  wire_ok := is_party;
|}.

#[export] Instance Version_Wire : Wire SFNDInterfaceVersion := {|
  wire_type := lay_SFNDInterfaceVersion;
  to_mem v := struct_mem lay_SFNDInterfaceVersion
    [u16_mem (v_majorVersion v); u16_mem (v_minorVersion v)];
  of_mem m := let f i := field lay_SFNDInterfaceVersion i m in
    mkVersion (u_of (f 0%nat)) (u_of (f 1%nat));
  wire_ok v := is_u16 (v_majorVersion v) /\ is_u16 (v_minorVersion v);
|}.

#[export] Instance ImplVersion_Wire : Wire SFNDImplementationVersion := {|
  wire_type := lay_SFNDImplementationVersion;
  to_mem v := struct_mem lay_SFNDImplementationVersion
    [u16_mem (iv_majorVersion v); u16_mem (iv_minorVersion v); u16_mem (iv_patchlevel v)];
  of_mem m := let f i := field lay_SFNDImplementationVersion i m in
    mkImplVersion (u_of (f 0%nat)) (u_of (f 1%nat)) (u_of (f 2%nat));
  wire_ok v := is_u16 (iv_majorVersion v) /\ is_u16 (iv_minorVersion v) /\ is_u16 (iv_patchlevel v);
|}.

#[export] Instance Description_Wire : Wire SFNDInterfaceDescription := {|
  wire_type := lay_SFNDInterfaceDescription;
  to_mem d := struct_mem lay_SFNDInterfaceDescription [to_mem (sd_version d); sd_name d];
  of_mem m := let f i := field lay_SFNDInterfaceDescription i m in
    mkSFNDDescr (of_mem (f 0%nat)) (f 1%nat);
  wire_ok d := wire_ok (sd_version d) /\ Z.of_nat (length (sd_name d)) = NAME_MAX + 1;
|}.

#[export] Instance Channel_Wire : Wire SFNDChannelInfo := {|
  wire_type := lay_SFNDChannelInfo;
  to_mem c := struct_mem lay_SFNDChannelInfo
    [u32_mem (ch_nid c); u32_mem (ch_pid c); u32_mem (ch_chid c)];
  of_mem m := let f i := field lay_SFNDChannelInfo i m in
    mkChannel (u_of (f 0%nat)) (i32_of (f 1%nat)) (i32_of (f 2%nat));
  wire_ok c := is_u32 (ch_nid c) /\ is_i32 (ch_pid c) /\ is_i32 (ch_chid c);
|}.

#[export] Instance DescriptionEx_Wire : Wire SFNDInterfaceDescriptionEx := {|
  wire_type := lay_SFNDInterfaceDescriptionEx;
  to_mem d := struct_mem lay_SFNDInterfaceDescriptionEx
    [to_mem (dx_implVersion d); u32_mem (dx_chid d); u32_mem (dx_pid d); u32_mem (dx_nd d);
     to_mem (dx_serverID d); to_mem (dx_ifDescription d)];
  of_mem m := let f i := field lay_SFNDInterfaceDescriptionEx i m in
    mkSFNDDescrEx (of_mem (f 0%nat)) (i32_of (f 1%nat)) (i32_of (f 2%nat)) (i32_of (f 3%nat))
      (of_mem (f 4%nat)) (of_mem (f 5%nat));
  wire_ok d := wire_ok (dx_implVersion d) /\ is_i32 (dx_chid d) /\ is_i32 (dx_pid d) /\
    is_i32 (dx_nd d) /\ wire_ok (dx_serverID d) /\ wire_ok (dx_ifDescription d);
|}.

#[export] Instance ConnInfo_Wire : Wire SConnectionInfo := {|
  wire_type := lay_SConnectionInfo;
  to_mem c := struct_mem lay_SConnectionInfo
    [to_mem (ci_ifVersion c); to_mem (ci_channel c); to_mem (ci_serverID c); to_mem (ci_clientID c)];
  of_mem m := let f i := field lay_SConnectionInfo i m in
    mkConnInfo (of_mem (f 0%nat)) (of_mem (f 1%nat)) (of_mem (f 2%nat)) (of_mem (f 3%nat));
  wire_ok c := wire_ok (ci_ifVersion c) /\ wire_ok (ci_channel c) /\ wire_ok (ci_serverID c) /\
    wire_ok (ci_clientID c);
|}.

#[export] Instance ServerInfo_Wire : Wire SServerInfo := {|
  wire_type := lay_SServerInfo;
  to_mem i := struct_mem lay_SServerInfo [to_mem (si_channel i); to_mem (si_serverID i)];
  of_mem m := let f i := field lay_SServerInfo i m in
    mkServerInfo (of_mem (f 0%nat)) (of_mem (f 1%nat));
  wire_ok i := wire_ok (si_channel i) /\ wire_ok (si_serverID i);
|}.

#[export] Instance Pulse_Wire : Wire SFNDPulseInfo := {|
  wire_type := lay_SFNDPulseInfo;
  to_mem p := struct_mem lay_SFNDPulseInfo
    [u32_mem (p_code p); u32_mem (p_value p); u32_mem (p_chid p); u32_mem (p_pid p)];
  of_mem m := let f i := field lay_SFNDPulseInfo i m in
    mkPulse (i32_of (f 0%nat)) (i32_of (f 1%nat)) (i32_of (f 2%nat)) (i32_of (f 3%nat));
  wire_ok p := is_i32 (p_code p) /\ is_i32 (p_value p) /\ is_i32 (p_chid p) /\ is_i32 (p_pid p);
|}.

#[export] Instance NotificationDescription_Wire : Wire SFNDNotificationDescription := {|
  wire_type := lay_SFNDNotificationDescription;
  to_mem d := struct_mem lay_SFNDNotificationDescription
    [u32_mem (nd_cookie d); to_mem (nd_pulse d); to_mem (nd_ifDescription d)];
  of_mem m := let f i := field lay_SFNDNotificationDescription i m in
    mkNotDescr (u_of (f 0%nat)) (of_mem (f 1%nat)) (of_mem (f 2%nat));
  wire_ok d := is_u32 (nd_cookie d) /\ wire_ok (nd_pulse d) /\ wire_ok (nd_ifDescription d);
|}.

#[export] Instance NotificationID_Wire : Wire SFNDNotificationID := {|
  wire_type := lay_SFNDNotificationID;
  to_mem i := struct_mem lay_SFNDNotificationID [u32_mem (ni_cookie i); u32_mem (ni_notificationID i)];
  of_mem m := let f i := field lay_SFNDNotificationID i m in
    mkNotID (u_of (f 0%nat)) (u_of (f 1%nat));
  wire_ok i := is_u32 (ni_cookie i) /\ is_u32 (ni_notificationID i);
|}.

(** ** Memory *)

Lemma store_in off data m :
  0 <= off -> off + Z.of_nat (length data) <= Z.of_nat (length m) ->
  exists m', store off data m = Some m' /\ length m' = length m.
Proof.
  intros Ho Hl. unfold store. rewrite (proj2 (Z.leb_le 0 off)), (proj2 (Z.leb_le _ _)) by lia.
  eexists. split; [reflexivity|]. rewrite !length_app, length_take, length_drop. lia.
Qed.

Lemma store_length off data m m' : store off data m = Some m' -> length m' = length m.
Proof.
  unfold store. intros H. case_match; [|done]. reflect_bools. injection H as <-.
  rewrite !length_app, length_take, length_drop. lia.
Qed.

Lemma load_store_same off data m m' :
  store off data m = Some m' -> load off (Z.of_nat (length data)) m' = data.
Proof.
  unfold store, load. intros H. case_match; [|done]. reflect_bools. injection H as <-.
  rewrite Nat2Z.id, drop_app_le, drop_ge, app_nil_l by (rewrite length_take; lia).
  by rewrite take_app_le, take_ge by lia.
Qed.

Lemma load_store_other off data m m' o n :
  store off data m = Some m' -> 0 <= o -> 0 <= n ->
  o + n <= off \/ off + Z.of_nat (length data) <= o -> load o n m' = load o n m.
Proof.
  unfold store, load. intros H Ho Hn Hd. case_match; [|done]. reflect_bools. injection H as <-.
  destruct Hd as [Hd|Hd].
  - rewrite drop_app_le by (rewrite length_take; lia).
    rewrite take_app_le by (rewrite length_drop, length_take; lia).
    rewrite !take_drop_commute, take_take. do 2 f_equal. lia.
  - rewrite drop_app_ge by (rewrite length_take; lia). rewrite length_take.
    rewrite drop_app_ge by lia. rewrite drop_drop. f_equal. f_equal. lia.
Qed.

Lemma length_zeroed n : 0 <= n -> Z.of_nat (length (zeroed n)) = n.
Proof. intros. unfold zeroed. rewrite length_replicate. lia. Qed.

Lemma length_load off n m :
  0 <= off -> 0 <= n -> off + n <= Z.of_nat (length m) -> Z.of_nat (length (load off n m)) = n.
Proof. intros. unfold load. rewrite length_take, length_drop. lia. Qed.

Lemma load_app_l off n m k :
  0 <= off -> 0 <= n -> off + n <= Z.of_nat (length m) -> load off n (m ++ k) = load off n m.
Proof.
  intros. unfold load. rewrite drop_app_le by lia. by rewrite take_app_le by (rewrite length_drop; lia).
Qed.

Lemma load_load o n off len m :
  0 <= o -> 0 <= n -> 0 <= off -> o + n <= len -> load o n (load off len m) = load (off + o) n m.
Proof.
  intros Ho Hn Hoff Hlen. unfold load. rewrite take_drop_commute, take_take.
  rewrite Nat.min_l by lia. rewrite Z2Nat.inj_add by assumption.
  rewrite <-drop_drop. by rewrite (take_drop_commute _ (Z.to_nat n)).
Qed.

(** ** Structs *)

Lemma align_up_ge a x : 0 < a -> x <= align_up a x.
Proof.
  intros Ha. unfold align_up. pose proof (Z.mod_pos_bound (x + a - 1) a Ha).
  pose proof (Z.div_mod (x + a - 1) a). lia.
Qed.

Lemma foldr_align_pos (fs : list ctype) :
  0 < foldr (fun f a => Z.max (alignof f) a) 1 fs.
Proof. induction fs; cbn; lia. Qed.

(** Members fit: every value has the size of its member. *)
Definition fits (f : ctype) (v : bytes) : Prop := 0 < alignof f /\ Z.of_nat (length v) = sizeof f.

Lemma members_mem_load fs vals off i v :
  Forall2 fits fs vals -> 0 <= off -> vals !! i = Some v ->
  load (nth i (offsets fs off) 0 - off) (Z.of_nat (length v)) (members_mem fs vals off) = v /\
  off <= nth i (offsets fs off) 0 /\
  nth i (offsets fs off) 0 - off + Z.of_nat (length v) <= Z.of_nat (length (members_mem fs vals off)).
Proof.
  intros Hf. revert off i. induction Hf as [|f w fs vals [Ha Hw] Hf IH]; intros off i Ho Hi; [done|].
  cbn [members_mem offsets]. set (o := align_up (alignof f) off).
  assert (off <= o) as Hge by (by apply align_up_ge).
  assert (Z.of_nat (length (zeroed (o - off))) = o - off) as Hz by (apply length_zeroed; lia).
  destruct i as [|i]; cbn in Hi |- *.
  - injection Hi as ->. split_and!; [|lia|rewrite !length_app; lia].
    unfold load. rewrite drop_app_ge by lia. replace (Z.to_nat (o - off) - _)%nat with O by lia.
    rewrite drop_0. by rewrite take_app_le, take_ge by lia.
  - destruct (IH (o + sizeof f) i) as (H1 & H2 & H3); [lia|done|].
    split_and!; [|lia|rewrite !length_app; lia].
    rewrite <-H1 at 2. unfold load.
    rewrite drop_app_ge by lia. rewrite drop_app_ge by lia. f_equal. f_equal. lia.
Qed.

(** Member [i] of a struct that was put together. *)
Lemma field_struct_mem t vals i v :
  Forall2 fits (members t) vals -> vals !! i = Some v -> field t i (struct_mem t vals) = v.
Proof.
  intros Hf Hi. unfold field, struct_mem, pad_to, field_offset, field_size.
  destruct (members_mem_load _ _ 0 i v Hf ltac:(lia) Hi) as (H1 & H2 & H3).
  destruct (Forall2_lookup_r _ _ _ _ _ Hf Hi) as (f & Hl & _ & Hs).
  rewrite (nth_lookup_Some _ _ _ _ Hl). rewrite <-Hs, load_app_l by lia.
  by rewrite Z.sub_0_r in H1.
Qed.

Lemma struct_mem_length t vals :
  Z.of_nat (length (members_mem (members t) vals 0)) <= sizeof t ->
  Z.of_nat (length (struct_mem t vals)) = sizeof t.
Proof. intros. unfold struct_mem, pad_to. rewrite length_app, Nat2Z.inj_add, length_zeroed; lia. Qed.

Fixpoint end_offset (fs : list ctype) (off : Z) : Z :=
  match fs with
  | [] => off
  | f :: fs' => end_offset fs' (align_up (alignof f) off + sizeof f)
  end.

Lemma members_mem_length fs vals off :
  Forall2 fits fs vals -> Z.of_nat (length (members_mem fs vals off)) = end_offset fs off - off.
Proof.
  intros Hf. revert off. induction Hf as [|f w fs vals [Ha Hw] Hf IH]; intros off; cbn; [lia|].
  pose proof (align_up_ge (alignof f) off Ha).
  rewrite !length_app, !Nat2Z.inj_add, IH, length_zeroed by lia. lia.
Qed.

Lemma sizeof_struct fs :
  sizeof (CStruct fs) = align_up (foldr (fun f a => Z.max (alignof f) a) 1 fs) (end_offset fs 0).
Proof.
  reflexivity.
Qed.

Lemma struct_length fs vals :
  Forall2 fits fs vals -> Z.of_nat (length (struct_mem (CStruct fs) vals)) = sizeof (CStruct fs).
Proof.
  intros Hf. apply struct_mem_length. cbn [members]. rewrite members_mem_length, sizeof_struct by done.
  rewrite Z.sub_0_r. apply align_up_ge, foldr_align_pos.
Qed.

(** ** Integers *)

Lemma u16_of_mem v : is_u16 v -> u_of (u16_mem v) = v.
Proof. intros. unfold u_of, u16_mem. rewrite le_value_bytes. by apply Z.mod_small. Qed.

Lemma u32_of_mem v : is_u32 v -> u_of (u32_mem v) = v.
Proof. intros. unfold u_of, u32_mem. rewrite le_value_bytes. by apply Z.mod_small. Qed.

Lemma i32_u32 v : i32 (u32 v) = i32 v.
Proof. unfold i32, u32. by rewrite Zplus_mod_idemp_l. Qed.

Lemma i32_id v : is_i32 v -> i32 v = v.
Proof. unfold i32, is_i32. intros. rewrite Z.mod_small; lia. Qed.

Lemma i32_of_mem v : i32_of (u32_mem v) = i32 v.
Proof. unfold i32_of, u32_mem. rewrite le_value_bytes. apply i32_u32. Qed.

Lemma u32_mem_length v : Z.of_nat (length (u32_mem v)) = 4.
Proof. done. Qed.

Lemma u16_mem_length v : Z.of_nat (length (u16_mem v)) = 2.
Proof. done. Qed.

Lemma fits_u32 v : fits c_u32 (u32_mem v).
Proof. split; [done|apply u32_mem_length]. Qed.

Lemma fits_u16 v : fits c_u16 (u16_mem v).
Proof. split; [done|apply u16_mem_length]. Qed.

Lemma fits_to_mem {A} `{WireLaws A} t (a : A) :
  wire_type A = t -> 0 < alignof t -> wire_ok a -> fits t (to_mem a).
Proof. intros <- Ha Ho. split; [done|by apply to_mem_length]. Qed.
#[export] Hint Resolve fits_u32 fits_u16 : wire.

(** ** The structs keep their values *)

Ltac wire_fits :=
  lazymatch goal with
  | |- Forall2 fits _ [] => apply Forall2_nil_2
  | |- Forall2 fits _ (_ :: _) => apply Forall2_cons_2; [wire_fits|wire_fits]
  | |- fits _ (u32_mem _) => apply fits_u32
  | |- fits _ (u16_mem _) => apply fits_u16
  | |- fits _ (to_mem _) => apply fits_to_mem; [reflexivity|reflexivity|assumption]
  | |- fits _ _ => split; [reflexivity|assumption]
  end.

Ltac wire_fields :=
  repeat match goal with
  | |- context [field ?t ?i (struct_mem ?t ?vals)] =>
    rewrite (field_struct_mem t vals i _ ltac:(wire_fits) eq_refl)
  end;
  rewrite ?u16_of_mem, ?u32_of_mem, ?i32_of_mem, ?i32_id, ?of_to_mem by assumption.

Ltac wire_laws W :=
  constructor; intros a Hok; unfold W in *; cbn [wire_ok of_mem to_mem wire_type] in *; destruct_and?;
  [ apply struct_length; wire_fits | wire_fields; by destruct a ].

#[export] Instance SPartyID_laws : WireLaws SPartyID.
Proof.
  constructor; intros [l e] [Hl He].
  - cbn [to_mem SPartyID_Wire]. rewrite length_app, Nat2Z.inj_add, !u32_mem_length. reflexivity.
  - cbn -[u_of u32_mem load]. f_equal.
    + rewrite load_app_l by (rewrite ?u32_mem_length; lia). by apply u32_of_mem.
    + by apply u32_of_mem.
Qed.

#[export] Instance Version_laws : WireLaws SFNDInterfaceVersion.
Proof. wire_laws Version_Wire. Qed.

#[export] Instance ImplVersion_laws : WireLaws SFNDImplementationVersion.
Proof. wire_laws ImplVersion_Wire. Qed.

#[export] Instance Description_laws : WireLaws SFNDInterfaceDescription.
Proof. wire_laws Description_Wire. Qed.

#[export] Instance Channel_laws : WireLaws SFNDChannelInfo.
Proof. wire_laws Channel_Wire. Qed.

#[export] Instance DescriptionEx_laws : WireLaws SFNDInterfaceDescriptionEx.
Proof. wire_laws DescriptionEx_Wire. Qed.

#[export] Instance ConnInfo_laws : WireLaws SConnectionInfo.
Proof. wire_laws ConnInfo_Wire. Qed.

#[export] Instance ServerInfo_laws : WireLaws SServerInfo.
Proof. wire_laws ServerInfo_Wire. Qed.

#[export] Instance Pulse_laws : WireLaws SFNDPulseInfo.
Proof. wire_laws Pulse_Wire. Qed.

#[export] Instance NotificationDescription_laws : WireLaws SFNDNotificationDescription.
Proof. wire_laws NotificationDescription_Wire. Qed.

#[export] Instance NotificationID_laws : WireLaws SFNDNotificationID.
Proof. wire_laws NotificationID_Wire. Qed.
