(* ===== verification/AutoBuffer.v ===== *)
(** The read and write buffers of a client handle: [AutoBuffer<512>] of
    [src/servicebroker/AutoBuffer.hpp], and the frame headers of
    [src/servicebroker/frames.h].

    The memory is modelled with its contents.  [None] stands for an access outside
    of the buffer, a failed assertion or an allocation that throws.  [size_t] and
    [int] have 32 bits. *)

From S2P Require Import Prelude.
From S2P Require Import Layout.
From S2P Require Import Types.
From S2P Require Import Buffer.
From S2P Require Import Wire.

(** ** Frames *)

Definition lay_sb_frame : ctype := CStruct [c_i32; c_i32].
Definition lay_sb_request_frame : ctype := CStruct [lay_sb_frame; c_i32; c_i32].
Definition lay_sb_response_frame : ctype := CStruct [lay_sb_frame; c_i32; c_i32].

Definition SB_FRAME_MAGIC : Z := 1263682131.

(** [sizeof(sb_request_frame_t)], which is also that of the response. *)
Definition FRAME_SIZE : Z := sizeof lay_sb_request_frame.

Definition INIT_REQUEST_FRAME (size cmd : Z) : bytes :=
  struct_mem lay_sb_request_frame
    [struct_mem lay_sb_frame [u32_mem SB_FRAME_MAGIC; u32_mem size]; u32_mem cmd; u32_mem 0].

Definition INIT_RESPONSE_FRAME (size retval : Z) : bytes :=
  struct_mem lay_sb_response_frame
    [struct_mem lay_sb_frame [u32_mem SB_FRAME_MAGIC; u32_mem size]; u32_mem retval; u32_mem 0].

Definition frame_magic (m : bytes) : Z := i32_of (field lay_sb_frame 0 (field lay_sb_request_frame 0 m)).
Definition frame_fr_size (m : bytes) : Z := i32_of (field lay_sb_frame 1 (field lay_sb_request_frame 0 m)).
(** [fr_cmd] of a request, [fr_returncode] of a response. *)
Definition frame_code (m : bytes) : Z := i32_of (field lay_sb_request_frame 1 m).

(** ** The buffer *)

Definition AUTO_SIZE : Z := 512.

(** [ab_heap] is the heap block [buf_] points to, if it is not [internal_]. *)
Record AutoBuffer := mkAutoBuffer { ab_internal : bytes; ab_heap : option bytes; ab_pos : Z }.
#[export] Instance Eta_AutoBuffer : Eta AutoBuffer :=
  fun b => mkAutoBuffer (ab_internal b) (ab_heap b) (ab_pos b).

(** The memory [buf_] points to; [capa_] is its size. *)
Definition ab_mem (b : AutoBuffer) : bytes := default (ab_internal b) (ab_heap b).
Definition ab_capacity (b : AutoBuffer) : Z := Z.of_nat (length (ab_mem b)).

Definition ab_set_mem (m : bytes) (b : AutoBuffer) : AutoBuffer :=
  match ab_heap b with
  | Some _ => b <| ab_heap := Some m |>
  | None => b <| ab_internal := m |>
  end.

Section autobuffer.
Context `{Heap}.

(** The constructor; [internal_] is not initialised. *)
Definition ab_new : AutoBuffer := mkAutoBuffer (junk (Z.to_nat AUTO_SIZE)) None 0.

Definition ab_seek (off : Z) (b : AutoBuffer) : AutoBuffer := b <| ab_pos := off |>.
Definition ab_bump (off : Z) (b : AutoBuffer) : AutoBuffer := b <| ab_pos ::= (fun p => p + off) |>.
Definition ab_reset (b : AutoBuffer) : AutoBuffer := b <| ab_heap := None |> <| ab_pos := 0 |>.

Definition ab_reserve (len : Z) (b : AutoBuffer) : option AutoBuffer :=
  if (ab_capacity b <? len) && (AUTO_SIZE <? len)
  then m ← realloc (Some (ab_mem b)) len; Some (b <| ab_heap := Some m |>)
  else Some b.

(** [request().fr_envelope.fr_size] and the like look at the beginning of the buffer. *)
Definition ab_fr_size (b : AutoBuffer) : Z := frame_fr_size (ab_mem b).

(** [fr_size + sizeof(sb_request_frame_t)] as a [size_t]. *)
Definition ab_total (b : AutoBuffer) : Z := u32 (ab_fr_size b + FRAME_SIZE).

(** The result and the bytes copied. *)
Definition ab_read (len offset : Z) (b : AutoBuffer) : option (Z * bytes) :=
  let rc := if i32 (len + offset) <=? i32 (ab_fr_size b + FRAME_SIZE) then i32 len
            else i32 (u32 (ab_fr_size b + FRAME_SIZE - offset)) in
  if 0 <? rc then
    if offset + rc <=? ab_capacity b then Some (rc, load offset rc (ab_mem b)) else None
  else Some (-1, []).

(** Bytes stored at an offset of the memory. *)
Definition ab_store (off : Z) (data : bytes) (b : AutoBuffer) : option AutoBuffer :=
  m ← store off data (ab_mem b); Some (ab_set_mem m b).

Definition ab_write (data : bytes) (offset : Z) (b : AutoBuffer) : option AutoBuffer :=
  b ← ab_reserve (Z.of_nat (length data) + offset) b; ab_store offset data b.

(** ** Invariant *)

Definition ab_wf (b : AutoBuffer) : Prop :=
  Z.of_nat (length (ab_internal b)) = AUTO_SIZE /\ AUTO_SIZE <= ab_capacity b /\
  0 <= ab_pos b <= ab_capacity b.

Lemma ab_mem_set m b : ab_mem (ab_set_mem m b) = m.
Proof. unfold ab_mem, ab_set_mem. by destruct (ab_heap b) eqn:E; cbn; rewrite ?E. Qed.

Lemma junk_length n : length (junk n) = n.
Proof. unfold junk. by rewrite length_map, length_seq. Qed.

Lemma ab_new_wf : ab_wf ab_new.
Proof. unfold ab_wf, ab_capacity, ab_mem, ab_new. cbn [ab_internal ab_heap ab_pos default]. rewrite junk_length. done. Qed.

Lemma ab_reset_wf b : ab_wf b -> ab_wf (ab_reset b).
Proof. unfold ab_wf, ab_capacity. intros (H1 & H2 & H3). cbn. unfold AUTO_SIZE in *. lia. Qed.

Lemma ab_store_spec off data b :
  ab_wf b -> 0 <= off -> off + Z.of_nat (length data) <= ab_capacity b ->
  exists m b', store off data (ab_mem b) = Some m /\ ab_store off data b = Some b' /\
    b' = ab_set_mem m b /\ ab_wf b' /\ ab_mem b' = m /\ ab_pos b' = ab_pos b /\
    ab_capacity b' = ab_capacity b.
Proof.
  intros (H1 & H2 & H3) Ho Hl. destruct (store_in off data (ab_mem b)) as (m & Hm & Hlen); [done|done|].
  exists m, (ab_set_mem m b). unfold ab_store. rewrite Hm. split_and!; try done.
  - unfold ab_wf, ab_capacity in *. rewrite !ab_mem_set, Hlen.
    unfold ab_set_mem, ab_mem in *. destruct (ab_heap b); cbn in *; lia.
  - apply ab_mem_set.
  - unfold ab_set_mem. by destruct (ab_heap b).
  - unfold ab_capacity. by rewrite ab_mem_set, Hlen.
Qed.

(** The first bytes of the memory are kept. *)
Definition extends (m m' : bytes) : Prop := exists k, m' = m ++ k.

Lemma ab_reserve_spec len b :
  heap_ample -> ab_wf b ->
  exists b', ab_reserve len b = Some b' /\ ab_wf b' /\ ab_pos b' = ab_pos b /\
    len <= ab_capacity b' /\ ab_capacity b <= ab_capacity b' /\ extends (ab_mem b) (ab_mem b') /\
    ab_internal b' = ab_internal b.
Proof.
  intros [Hh _] (H1 & H2 & H3). unfold ab_reserve, realloc. rewrite Hh.
  destruct ((ab_capacity b <? len) && (AUTO_SIZE <? len)) eqn:E; reflect_bools.
  - cbn [mbind option_bind default]. eexists. split; [reflexivity|].
    assert (Z.of_nat (length (ab_mem b ++ junk (Z.to_nat len - length (ab_mem b)))) = len) as Hl.
    { unfold ab_capacity in *. rewrite length_app, junk_length. lia. }
    unfold ab_wf, ab_capacity in *. cbn. unfold ab_mem in *. cbn. rewrite Hl.
    split_and!; try done; try lia; by eexists.
  - exists b. apply andb_false_iff in E. split_and!; [done|done|done| |done|exists []; by rewrite app_nil_r|done].
    destruct E; reflect_bools; lia.
Qed.

Lemma load_extends o n m m' :
  extends m m' -> 0 <= o -> 0 <= n -> o + n <= Z.of_nat (length m) -> load o n m' = load o n m.
Proof. intros [k ->] Ho Hn Hl. by apply load_app_l. Qed.

(** A write keeps what lies before it. *)
Lemma ab_write_spec data offset b :
  heap_ample -> ab_wf b -> 0 <= offset ->
  exists b', ab_write data offset b = Some b' /\ ab_wf b' /\ ab_pos b' = ab_pos b /\
    offset + Z.of_nat (length data) <= ab_capacity b' /\ ab_capacity b <= ab_capacity b' /\
    load offset (Z.of_nat (length data)) (ab_mem b') = data /\
    (forall o n, 0 <= o -> 0 <= n -> o + n <= offset -> o + n <= ab_capacity b ->
       load o n (ab_mem b') = load o n (ab_mem b)).
Proof.
  intros Hh Hb Ho. destruct (ab_reserve_spec (Z.of_nat (length data) + offset) b Hh Hb)
    as (b1 & E1 & W1 & P1 & C1 & C2 & X1 & _).
  destruct (ab_store_spec offset data b1 W1 Ho) as (m & b2 & E2 & E3 & -> & W2 & M2 & P2 & C3); [lia|].
  exists (ab_set_mem m b1). unfold ab_write. rewrite E1. cbn [mbind option_bind]. rewrite E3, M2, P2, C3.
  split_and!; try done; try lia.
  - by eapply load_store_same.
  - intros o n Ho' Hn Hl Hc. rewrite (load_store_other _ _ _ _ _ _ E2) by lia.
    by apply load_extends.
Qed.

Lemma ab_reserve_small len b : len <= AUTO_SIZE -> ab_reserve len b = Some b.
Proof. intros Hl. unfold ab_reserve. rewrite (proj2 (Z.ltb_ge AUTO_SIZE len)) by lia. by rewrite andb_false_r. Qed.

End autobuffer.

(** ** Frames: lemmas *)

Lemma request_frame_length size cmd : Z.of_nat (length (INIT_REQUEST_FRAME size cmd)) = FRAME_SIZE.
Proof. done. Qed.

Lemma response_frame_eq size code : INIT_RESPONSE_FRAME size code = INIT_REQUEST_FRAME size code.
Proof. done. Qed.

Lemma frame_fits size code :
  Forall2 fits (members lay_sb_request_frame)
    [struct_mem lay_sb_frame [u32_mem SB_FRAME_MAGIC; u32_mem size]; u32_mem code; u32_mem 0].
Proof. repeat constructor. Qed.

(** The fields of a frame at the beginning of a memory. *)
Lemma frame_fields size code rest :
  let m := INIT_REQUEST_FRAME size code ++ rest in
  frame_magic m = SB_FRAME_MAGIC /\ frame_fr_size m = i32 size /\ frame_code m = i32 code.
Proof.
  assert (forall i v, [struct_mem lay_sb_frame [u32_mem SB_FRAME_MAGIC; u32_mem size]; u32_mem code; u32_mem 0] !! i = Some v ->
    field lay_sb_request_frame i (INIT_REQUEST_FRAME size code ++ rest) = v) as Hf.
  { intros i v Hi. rewrite <-(field_struct_mem lay_sb_request_frame _ i v (frame_fits size code) Hi).
    unfold field. apply load_app_l; by destruct i as [|[|[|]]]. }
  cbn zeta. unfold frame_magic, frame_fr_size, frame_code.
  rewrite (Hf 0%nat _ eq_refl), (Hf 1%nat _ eq_refl).
  wire_fields.
  done.
Qed.

Lemma frame_load m k :
  load 0 FRAME_SIZE m = load 0 FRAME_SIZE k ->
  frame_fr_size m = frame_fr_size k /\ frame_magic m = frame_magic k /\ frame_code m = frame_code k.
Proof.
  intros He.
  assert (forall i, (i < 3)%nat -> field lay_sb_request_frame i m = field lay_sb_request_frame i k) as Hf.
  { intros i Hi. unfold field.
    assert (0 <= field_offset lay_sb_request_frame i /\ 0 <= field_size lay_sb_request_frame i /\
      field_offset lay_sb_request_frame i + field_size lay_sb_request_frame i <= FRAME_SIZE) as (H1 & H2 & H3)
      by (destruct i as [|[|[|]]]; [done..|lia]).
    rewrite <-(Z.add_0_l (field_offset _ _)). rewrite <-!(load_load _ _ 0 FRAME_SIZE) by lia. by rewrite He. }
  unfold frame_fr_size, frame_magic, frame_code. rewrite !Hf by lia. done.
Qed.
