(* ===== verification/Requests.v ===== *)
(** Requests and responses as bytes.

    What [Servicebroker::dispatch] and the handlers see of a received request, and
    what [SocketMessageContext] ([src/servicebroker/SocketMessageContext.cpp]) leaves
    in the write buffer.  Memory the program reads without having written it, the
    local variables [rcvBuffer] of [dispatch] and those of the handlers, is a
    parameter.  The message context on the write buffer implements the one on values
    of [MessageContext]. *)

From S2P Require Import Prelude.
From S2P Require Import Layout.
From S2P Require Import Types.
From S2P Require Import MessageContext.
From S2P Require Import Buffer.
From S2P Require Import Wire.
From S2P Require Import AutoBuffer.

(** ** Reading a request *)

(** [memcpy] of [data] over the beginning of an object. *)
Definition overlay (data m : bytes) : bytes := data ++ drop (length data) m.

(** [readData(&rcvBuffer, sizeof(rcvBuffer))] of a request with this body. *)
Definition rcvBuffer (stack body : bytes) : bytes :=
  overlay (load 0 rcvBuffer_size body) stack.

(** The local variable of [len] bytes a handler reads its ancillary data into, after
    the [k]-th read. *)
Fixpoint ancillary_local (len off : Z) (local body : bytes) (k : nat) : bytes :=
  overlay (load (off + Z.of_nat k * len) len body)
    match k with O => local | S k' => ancillary_local len off local body k' end.

(** Members of [arg.i] of a command. *)
Definition arg (c : dcmd) (i : nat) (m : bytes) : bytes := field (arg_i c) i m.

Definition arg_items {A} `{Wire A} (c : dcmd) (local body : bytes) (k : nat) : A :=
  of_mem (ancillary_local (sizeof (wire_type A)) (sizeof (arg_i c)) local body k).

(** The argument a handler gets: [m] is [rcvBuffer], [local] the handler's variable. *)
Definition decode_arg (c : dcmd) (m local body : bytes) : Request :=
  let a i := arg c i m in
  match c with
  | DCMD_FND_REGISTER_INTERFACE =>
    RQ_Register (mkRegisterArg (of_mem (a 1%nat)) (of_mem (a 2%nat)) (i32_of (a 3%nat)) (i32_of (a 4%nat)))
  | DCMD_FND_REGISTER_INTERFACE_GROUPID =>
    RQ_RegisterGroupID (mkRegisterGroupIDArg (of_mem (a 1%nat)) (of_mem (a 2%nat)) (i32_of (a 3%nat))
      (i32_of (a 4%nat)) (i32_of (a 5%nat)))
  | DCMD_FND_REGISTER_INTERFACE_EX =>
    RQ_RegisterEx (mkRegisterExArg (of_mem (a 1%nat)) (i32_of (a 2%nat)) (i32_of (a 3%nat)) (i32_of (a 4%nat)))
      (arg_items c local body)
  | DCMD_FND_REGISTER_MASTER_INTERFACE_EX => RQ_RegisterMasterEx (i32_of (a 1%nat)) (arg_items c local body)
  | DCMD_FND_UNREGISTER_INTERFACE => RQ_Unregister (of_mem (a 2%nat))
  | DCMD_FND_ATTACH_INTERFACE => RQ_Attach (of_mem (a 1%nat))
  | DCMD_FND_ATTACH_INTERFACE_EXTENDED => RQ_AttachExtended (of_mem (a 1%nat)) (of_mem (a 2%nat))
  | DCMD_FND_GET_SERVER_INFORMATION => RQ_GetServerInformation (of_mem (a 1%nat))
  | DCMD_FND_NOTIFY_SERVER_DISCONNECT => RQ_NotifyServerDisconnect (of_mem (a 2%nat)) (of_mem (a 3%nat))
  | DCMD_FND_NOTIFY_SERVER_AVAILABLE => RQ_NotifyServerAvailable (of_mem (a 1%nat)) (of_mem (a 2%nat))
  | DCMD_FND_NOTIFY_SERVER_AVAILABLE_EX => RQ_NotifyServerAvailableEx (i32_of (a 1%nat)) (arg_items c local body)
  | DCMD_FND_DETACH_INTERFACE => RQ_Detach (of_mem (a 2%nat))
  | DCMD_FND_MASTER_PING_ID => RQ_MasterPingId (u_of (a 1%nat))
  | DCMD_FND_NOTIFY_CLIENT_DETACH => RQ_NotifyClientDetach (of_mem (a 2%nat)) (of_mem (a 3%nat))
  | DCMD_FND_CLEAR_NOTIFICATION => RQ_ClearNotification (u_of (a 1%nat))
  | DCMD_FND_GET_INTERFACELIST => RQ_GetInterfaceList (u_of (a 1%nat))
  | DCMD_FND_NOTIFY_INTERFACELIST_CHANGE => RQ_NotifyInterfaceListChange (of_mem (a 1%nat))
  | DCMD_FND_MATCH_INTERFACELIST => RQ_MatchInterfaceList (u_of (a 1%nat)) (a 2%nat)
  | DCMD_FND_NOTIFY_INTERFACELIST_MATCH => RQ_NotifyInterfaceListMatch (of_mem (a 1%nat)) (a 2%nat)
  | DCMD_FND_MASTER_PING => RQ_MasterPing
  end.

(** The request at the beginning of a read buffer. *)
Definition frame_of (stack local m : bytes) : Frame :=
  let size := frame_fr_size m in
  let body := load FRAME_SIZE size m in
  let rcv := rcvBuffer stack body in
  mkFrame size (of_mem (load 0 (sizeof lay_SFNDInterfaceVersion) rcv))
    match dcmd_of_code (frame_code m) with
    | Some c => decode_arg c rcv local body
    | None => RQ_Unknown (frame_code m)
    end.

(** ** Writing a response *)

Definition ancillary_mem (a : Ancillary) : bytes :=
  match a with
  | AN_serverID id => to_mem id
  | AN_notification n => to_mem n
  | AN_ifDescription d => to_mem d
  end.

(** The bytes a handler passes to the context; [under] is what the request left in the
    place of a connection information that is not written. *)
Definition payload_mem (under : bytes) (p : Payload) : bytes :=
  match p with
  | PL_none => []
  | PL_serverID id => to_mem id
  | PL_connInfo c => to_mem c
  | PL_AttachExtended c id =>
    struct_mem (arg_o DCMD_FND_ATTACH_INTERFACE_EXTENDED)
      [match c with Some c => to_mem c | None => under end; u32_mem id]
  | PL_serverInfo i => to_mem i
  | PL_notificationID id => u32_mem id
  | PL_ancillary l => concat (ancillary_mem <$> l)
  | PL_interfaces l => concat (to_mem <$> l)
  end.

Definition response_mem (under : bytes) (r : Response) : bytes :=
  INIT_RESPONSE_FRAME (rs_size r) (rs_returncode r) ++ payload_mem under (rs_payload r).

Section context.
Context `{Heap}.

(** [response().fr_envelope.fr_size = size; response().fr_returncode = retval]. *)
Definition put_response (size retval : Z) (b : AutoBuffer) : option AutoBuffer :=
  b ← ab_store 4 (u32_mem size) b; ab_store 8 (u32_mem retval) b.

Definition buf_writeAncillaryData (data : bytes) (putOffset : Z) (b : AutoBuffer) : option AutoBuffer :=
  ab_write data (putOffset + FRAME_SIZE) b.

Definition buf_prepareResponse (retval putOffset : Z) (b : AutoBuffer) : option AutoBuffer :=
  put_response (if (0 <? putOffset) && (retval <=? sb_code FNDOK) then putOffset else 0) retval b.

Definition buf_prepareResponse_data (retval putOffset : Z) (data : bytes) (b : AutoBuffer) : option AutoBuffer :=
  b ← put_response (if (0 <? putOffset) && (retval =? sb_code FNDOK) then putOffset
                    else Z.of_nat (length data)) retval b;
  ab_write data FRAME_SIZE b.

(** [eval] starts with this response. *)
Definition buf_default (b : AutoBuffer) : option AutoBuffer :=
  ab_store 0 (INIT_RESPONSE_FRAME 0 (sb_code FNDUnknownCommand)) b.

(** ** The calls of a handler on its context *)

Inductive ContextCall :=
  | Call_readData (len : Z)
  | Call_setGetOffset (off : Z)
  | Call_readAncillaryData (len : Z)
  | Call_defer
  | Call_write (a : Ancillary)
  | Call_prepare (retval : Z) (force : bool)
  | Call_prepare_data (retval : Z) (p : Payload).

Definition call_size (under : bytes) (p : Payload) : Z := Z.of_nat (length (payload_mem under p)).

(** On values, and on the write buffer beside it. *)
Definition call_context (under : bytes) (k : ContextCall) (m : MessageContext) : bool * MessageContext :=
  match k with
  | Call_readData len => let '(ok, _, m) := mc_readData len m in (ok, m)
  | Call_setGetOffset off => (true, mc_setGetOffset off m)
  | Call_readAncillaryData len => let '(ok, _, m) := mc_readAncillaryData len m in (ok, m)
  | Call_defer => (true, mc_deferResponse m)
  | Call_write a => mc_writeAncillaryData a m
  | Call_prepare retval force => mc_prepareResponse retval force m
  | Call_prepare_data retval p => mc_prepareResponse_data retval p (call_size under p) m
  end.

Definition call_buffer (under : bytes) (k : ContextCall) (m : MessageContext) (b : AutoBuffer) : option AutoBuffer :=
  match k with
  | Call_readData _ | Call_setGetOffset _ | Call_readAncillaryData _ | Call_defer => Some b
  | Call_write a => buf_writeAncillaryData (ancillary_mem a) (mc_mPutOffset m) b
  | Call_prepare retval _ => buf_prepareResponse retval (mc_mPutOffset m) b
  | Call_prepare_data retval p => buf_prepareResponse_data retval (mc_mPutOffset m) (payload_mem under p) b
  end.

(** A call whose assertions hold; a response with a struct is not mixed with ancillary
    data. *)
Definition call_ok (under : bytes) (k : ContextCall) (m : MessageContext) : Prop :=
  fst (call_context under k m) = true /\
  match k with
  | Call_write (AN_serverID id) => wire_ok id
  | Call_write (AN_notification n) => wire_ok n
  | Call_write (AN_ifDescription d) => wire_ok d
  | Call_prepare_data _ p => mc_mPutOffset m = 0
  | Call_defer => mc_mState m <> State_SENT
  | _ => True
  end.

(** What the buffer holds for a context. *)
Record holds (under : bytes) (m : MessageContext) (b : AutoBuffer) : Prop := {
  ho_wf : ab_wf b;
  ho_pos : ab_pos b = 0;
  ho_put : mc_mPutOffset m = Z.of_nat (length (concat (ancillary_mem <$> mc_written m)));
  ho_room : FRAME_SIZE + mc_mPutOffset m <= ab_capacity b;
  ho_written : load FRAME_SIZE (mc_mPutOffset m) (ab_mem b) = concat (ancillary_mem <$> mc_written m);
  ho_response : load 0 (FRAME_SIZE + call_size under (rs_payload (mc_response m))) (ab_mem b) =
                response_mem under (mc_response m);
  ho_size : rs_size (mc_response m) = call_size under (rs_payload (mc_response m));
  ho_processing : mc_mState m <> State_SENT -> rs_payload (mc_response m) = PL_none;
  ho_fits : FRAME_SIZE + rs_size (mc_response m) <= ab_capacity b;
}.

(** A sequence of calls on both. *)
Fixpoint calls (under : bytes) (ks : list ContextCall) (m : MessageContext) (b : AutoBuffer)
    : option (MessageContext * AutoBuffer) :=
  match ks with
  | [] => Some (m, b)
  | k :: ks => b' ← call_buffer under k m b; calls under ks (snd (call_context under k m)) b'
  end.

Fixpoint calls_ok (under : bytes) (ks : list ContextCall) (m : MessageContext) : Prop :=
  match ks with
  | [] => True
  | k :: ks => call_ok under k m /\ calls_ok under ks (snd (call_context under k m))
  end.

(** ** Lemmas *)

Lemma load_split o a n m : 0 <= o -> 0 <= a -> 0 <= n -> load o (a + n) m = load o a m ++ load (o + a) n m.
Proof.
  intros Ho Ha Hn. unfold load. rewrite !Z2Nat.inj_add by done.
  rewrite <-drop_drop. symmetry. apply take_take_drop.
Qed.

Lemma response_frame_words size code :
  INIT_RESPONSE_FRAME size code = u32_mem SB_FRAME_MAGIC ++ u32_mem size ++ u32_mem code ++ u32_mem 0.
Proof. reflexivity. Qed.

Lemma put_response_spec size retval s0 r0 b :
  ab_wf b -> load 0 FRAME_SIZE (ab_mem b) = INIT_RESPONSE_FRAME s0 r0 ->
  exists b', put_response size retval b = Some b' /\ ab_wf b' /\ ab_pos b' = ab_pos b /\
    ab_capacity b' = ab_capacity b /\
    load 0 FRAME_SIZE (ab_mem b') = INIT_RESPONSE_FRAME size retval /\
    (forall o n, FRAME_SIZE <= o -> 0 <= n -> load o n (ab_mem b') = load o n (ab_mem b)).
Proof.
  intros Hb Hh. assert (AUTO_SIZE <= ab_capacity b) as Hc by apply Hb.
  pose proof (u32_mem_length size) as Hls. pose proof (u32_mem_length retval) as Hlr.
  destruct (ab_store_spec 4 (u32_mem size) b Hb) as (m1 & b1 & S1 & E1 & -> & W1 & M1 & P1 & C1);
    [lia|rewrite Hls; unfold AUTO_SIZE in Hc; lia|].
  destruct (ab_store_spec 8 (u32_mem retval) _ W1) as (m2 & b2 & S2 & E2 & -> & W2 & M2 & P2 & C2);
    [lia|rewrite Hlr, C1; unfold AUTO_SIZE in Hc; lia|].
  exists (ab_set_mem m2 (ab_set_mem m1 b)). unfold put_response. rewrite E1. cbn [mbind option_bind].
  rewrite E2, M2, P2, C2. rewrite M1 in S2. split_and!; try done.
  - change FRAME_SIZE with (4 + (4 + (4 + 4))) in *. rewrite !load_split in Hh |- * by lia.
    rewrite response_frame_words in *. cbn [Z.add] in *.
    assert (forall o, 0 <= o <= 12 -> length (load o 4 (ab_mem b)) = 4%nat) as Hl.
    { intros o Ho. apply Nat2Z.inj. rewrite length_load; unfold ab_capacity, AUTO_SIZE in *; lia. }
    apply app_inj_1 in Hh as [Hh1 Hh]; [|by rewrite Hl by lia].
    apply app_inj_1 in Hh as [_ Hh]; [|by rewrite Hl by lia].
    apply app_inj_1 in Hh as [_ Hh4]; [|by rewrite Hl by lia].
    f_equal; [|f_equal; [|f_equal]].
    + rewrite (load_store_other _ _ _ _ _ _ S2), (load_store_other _ _ _ _ _ _ S1) by lia. done.
    + rewrite (load_store_other _ _ _ _ _ _ S2) by lia. exact (load_store_same _ _ _ _ S1).
    + exact (load_store_same _ _ _ _ S2).
    + rewrite (load_store_other _ _ _ _ _ _ S2), (load_store_other _ _ _ _ _ _ S1) by lia. done.
  - intros o n Ho Hn. change FRAME_SIZE with 16 in Ho.
    by rewrite (load_store_other _ _ _ _ _ _ S2), (load_store_other _ _ _ _ _ _ S1) by lia.
Qed.

Lemma ancillary_mem_size a :
  match a with
  | AN_serverID id => wire_ok id
  | AN_notification n => wire_ok n
  | AN_ifDescription d => wire_ok d
  end -> Z.of_nat (length (ancillary_mem a)) = ancillary_size a.
Proof. destruct a; intros Hok; exact (to_mem_length _ Hok). Qed.

Lemma concat_snoc {A} (l : list (list A)) x : concat (l ++ [x]) = concat l ++ x.
Proof. rewrite concat_app. cbn. by rewrite app_nil_r. Qed.

Lemma head_of_response under r m :
  load 0 (FRAME_SIZE + call_size under (rs_payload r)) m = response_mem under r ->
  load 0 FRAME_SIZE m = INIT_RESPONSE_FRAME (rs_size r) (rs_returncode r).
Proof.
  unfold response_mem, call_size. intros Hr. rewrite load_split in Hr; [|done|done|lia].
  apply app_inj_1 in Hr as [Hr _]; [done|].
  apply (f_equal length) in Hr. rewrite !length_app in Hr. cbn [Z.add] in Hr.
  unfold load in *. rewrite !length_take, !length_drop in *. change (length (INIT_RESPONSE_FRAME _ _)) with 16%nat in *.
  change (Z.to_nat FRAME_SIZE) with 16%nat in *. lia.
Qed.

Lemma call_write_holds under a m b :
  heap_ample -> holds under m b -> call_ok under (Call_write a) m ->
  exists b', call_buffer under (Call_write a) m b = Some b' /\
    holds under (snd (call_context under (Call_write a) m)) b'.
Proof.
  intros Hh [Hwf Hpos Hput Hroom Hw Hr Hs Hpr Hf] [Ha Hok]. cbn in Ha. reflect_bools.
  pose proof (ancillary_mem_size a Hok) as Hsz. assert (0 <= ancillary_size a) as Hsz' by (rewrite <-Hsz; lia).
  destruct (ab_write_spec (ancillary_mem a) (mc_mPutOffset m + FRAME_SIZE) b Hh Hwf) as
    (b' & E & W & P & C1 & C2 & L1 & L2); [change FRAME_SIZE with 16; lia|].
  exists b'. split; [exact E|]. specialize (Hpr ltac:(congruence)). rewrite Hpr in *.
  change (call_size under PL_none) with 0 in *. cbn [call_context].
  assert (concat (ancillary_mem <$> mc_written m ++ [a]) =
          concat (ancillary_mem <$> mc_written m) ++ ancillary_mem a) as Hc
    by (rewrite fmap_app; apply concat_snoc).
  apply Build_holds; cbn [mc_writeAncillaryData snd mc_mPutOffset mc_written mc_response mc_mState];
    change FRAME_SIZE with 16 in *.
  - done.
  - by rewrite P.
  - change (ancillary_size a + mc_mPutOffset m = Z.of_nat (length (concat (ancillary_mem <$> mc_written m ++ [a])))).
    rewrite Hc, length_app. lia.
  - change (16 + (ancillary_size a + mc_mPutOffset m) <= ab_capacity b'). lia.
  - change (load 16 (ancillary_size a + mc_mPutOffset m) (ab_mem b') =
            concat (ancillary_mem <$> mc_written m ++ [a])).
    rewrite Hc, (Z.add_comm (ancillary_size a)), load_split by lia. f_equal.
    + rewrite <-Hw. apply L2; lia.
    + rewrite Hsz in L1. by rewrite (Z.add_comm 16).
  - change (load 0 (16 + call_size under (rs_payload (mc_response m))) (ab_mem b') = response_mem under (mc_response m)).
    rewrite Hpr, <-Hr. change (call_size under PL_none) with 0. apply L2; lia.
  - change (rs_size (mc_response m) = call_size under (rs_payload (mc_response m))). by rewrite Hpr.
  - by intros _.
  - change (16 + rs_size (mc_response m) <= ab_capacity b'). lia.
Qed.

Lemma call_prepare_holds under retval force m b :
  holds under m b -> call_ok under (Call_prepare retval force) m ->
  exists b', call_buffer under (Call_prepare retval force) m b = Some b' /\
    holds under (snd (call_context under (Call_prepare retval force) m)) b'.
Proof.
  intros [Hwf Hpos Hput Hroom Hw Hr Hs Hpr Hf] _.
  pose proof (head_of_response _ _ _ Hr) as Hhd. cbn [call_buffer call_context snd].
  unfold buf_prepareResponse. edestruct put_response_spec as (b' & E & W & P & C & L1 & L2); [done|exact Hhd|].
  exists b'. split; [exact E|]. assert (0 <= mc_mPutOffset m) as Hp0 by lia.
  unfold mc_prepareResponse. cbn [snd]. set (ok := (0 <? mc_mPutOffset m) && (retval <=? sb_code FNDOK)) in *.
  set (r := if ok then _ else _ : Response).
  assert (rs_size r = (if ok then mc_mPutOffset m else 0) /\ rs_returncode r = retval /\
    payload_mem under (rs_payload r) = if ok then concat (ancillary_mem <$> mc_written m) else []) as (R1 & R2 & R3)
    by (unfold r; by destruct ok).
  assert (rs_size r = call_size under (rs_payload r)) as R4.
  { unfold call_size. rewrite R1, R3. by destruct ok. }
  change FRAME_SIZE with 16 in *. apply Build_holds; cbn [mc_mPutOffset mc_written mc_response mc_mState].
  - done.
  - by rewrite P.
  - done.
  - change (16 + mc_mPutOffset m <= ab_capacity b'). lia.
  - change (load 16 (mc_mPutOffset m) (ab_mem b') = concat (ancillary_mem <$> mc_written m)).
    rewrite L2 by lia. done.
  - change (load 0 (16 + call_size under (rs_payload r)) (ab_mem b') = response_mem under r).
    rewrite <-R4, R1. unfold response_mem. rewrite R1, R2, R3. rewrite load_split by (try destruct ok; lia).
    rewrite L1. f_equal. destruct ok; [|done]. rewrite <-Hw. apply L2; lia.
  - exact R4.
  - done.
  - change (16 + rs_size r <= ab_capacity b'). rewrite R1, C. unfold ab_wf, AUTO_SIZE in Hwf. destruct ok; lia.
Qed.

Lemma call_prepare_data_holds under retval p m b :
  heap_ample -> holds under m b -> call_ok under (Call_prepare_data retval p) m ->
  exists b', call_buffer under (Call_prepare_data retval p) m b = Some b' /\
    holds under (snd (call_context under (Call_prepare_data retval p) m)) b'.
Proof.
  intros Hh [Hwf Hpos Hput Hroom Hw Hr Hs Hpr Hf] [_ H0].
  pose proof (head_of_response _ _ _ Hr) as Hhd. cbn [call_buffer call_context snd].
  unfold buf_prepareResponse_data, mc_prepareResponse_data. rewrite H0. cbn [Z.ltb Z.compare andb].
  edestruct put_response_spec as (b1 & E1 & W1 & P1 & C1 & L1 & L2); [done|exact Hhd|].
  destruct (ab_write_spec (payload_mem under p) FRAME_SIZE b1 Hh W1) as (b2 & E2 & W2 & P2 & R1 & R2 & L3 & L4);
    [done|].
  exists b2. rewrite E1. cbn [mbind option_bind]. split; [exact E2|]. cbn [snd].
  set (r := mkResponse _ _ _). change FRAME_SIZE with 16 in *.
  apply Build_holds.
  - done.
  - by rewrite P2, P1.
  - done.
  - change (16 + mc_mPutOffset m <= ab_capacity b2). lia.
  - change (load 16 (mc_mPutOffset m) (ab_mem b2) = concat (ancillary_mem <$> mc_written m)).
    rewrite H0. destruct (concat (ancillary_mem <$> mc_written m)) eqn:Em; [done|cbn in Hput; lia].
  - change (load 0 (16 + call_size under p) (ab_mem b2) = response_mem under r).
    unfold call_size, response_mem. rewrite load_split by lia. change (0 + 16) with 16. rewrite L3. f_equal.
    rewrite L4 by (unfold ab_wf, AUTO_SIZE in W1; lia). exact L1.
  - done.
  - done.
  - exact R1.
Qed.

(** Calls that only look at the read side. *)
Lemma holds_same under m m' b :
  holds under m b -> mc_mPutOffset m' = mc_mPutOffset m -> mc_written m' = mc_written m ->
  mc_response m' = mc_response m -> (mc_mState m' <> State_SENT -> mc_mState m <> State_SENT) -> holds under m' b.
Proof. intros [Hwf Hpos Hput Hroom Hw Hr Hs Hpr Hf] E1 E2 E3 Hst. constructor; rewrite ?E1, ?E2, ?E3; auto. Qed.

Lemma calls_hold under ks m b :
  heap_ample -> holds under m b -> calls_ok under ks m ->
  exists m' b', calls under ks m b = Some (m', b') /\ holds under m' b'.
Proof.
  intros Hh. revert m b. induction ks as [|k ks IH]; intros m b Hm Hok; [by exists m, b|].
  destruct Hok as [Hk Hok].
  assert (exists b', call_buffer under k m b = Some b' /\ holds under (snd (call_context under k m)) b')
    as (b' & E & Hm').
  { destruct k as [len|off|len| |a|ret f|ret p];
      [| | | |by apply call_write_holds|by apply call_prepare_holds|by apply call_prepare_data_holds];
      exists b; (split; [done|]); apply (holds_same under m _ b Hm); try done; destruct Hk as [Hk Hk2]; cbn in Hk;
      reflect_bools; cbn; try done.
    - by rewrite Hk.
    - unfold mc_readAncillaryData in *. cbn. by case_match.
    - unfold mc_readAncillaryData in *. cbn. by case_match.
    - unfold mc_readAncillaryData in *. cbn. by case_match.
    - unfold mc_readAncillaryData in *. cbn. by case_match. }
  cbn. rewrite E. cbn. by apply IH.
Qed.

End context.
