(* ===== verification/ClientHandle.v ===== *)
(** A client handle and its bytes: [ServicebrokerClientBase] and
    [ServicebrokerClient] of [src/servicebroker/ServicebrokerServer.{hpp,cpp}].

    The handle collects a request from the pieces the socket delivers, has it
    evaluated, and sends the response in the pieces the socket takes.  What the
    evaluation does to the servicebroker is [Dispatch.eval_request]; here it is seen
    as the calls it makes on its message context.  A read or write of the socket takes
    at least one byte and at most what was asked for. *)

From S2P Require Import Prelude.
From S2P Require Import Layout.
From S2P Require Import Types.
From S2P Require Import MessageContext.
From S2P Require Import Environment.
From S2P Require Import State.
From S2P Require Import Buffer.
From S2P Require Import Wire.
From S2P Require Import AutoBuffer.
From S2P Require Import Requests.

(** ** State and reactions *)

Record Handle := mkHandle { hd_state : ClientState; hd_read : AutoBuffer; hd_write : AutoBuffer }.
#[export] Instance Eta_Handle : Eta Handle :=
  fun h => mkHandle (hd_state h) (hd_read h) (hd_write h).

(** What the handle does next: wait for up to [n] bytes, have bytes written, evaluate
    the request in its read buffer, wait for a job, or delete itself. *)
Inductive Reaction :=
  | Re_read (n : Z)
  | Re_write (data : bytes)
  | Re_eval
  | Re_wait
  | Re_delete.

(** The outcome of [write_some]. *)
Inductive Written := Wr_ok (n : Z) | Wr_would_block | Wr_error.

Section handle.
Context `{Heap}.

Definition new_Handle : Handle := mkHandle CS_READING_HEADER ab_new ab_new.

(** The bytes from [ptr()] to the end of the response. *)
Definition unsent (h : Handle) : bytes :=
  load (ab_pos (hd_write h)) (ab_total (hd_write h) - ab_pos (hd_write h)) (ab_mem (hd_write h)).

Definition arm (h : Handle) : Reaction :=
  match hd_state h with
  | CS_READING_HEADER | CS_READING_BODY =>
    let room := ab_capacity (hd_read h) - ab_pos (hd_read h) in
    if 0 <? room then Re_read room else Re_delete
  | _ => Re_write (unsent h)
  end.

(** The end of [handleRead]: is the request complete? *)
Definition check_complete (h : Handle) : Handle * Reaction :=
  (h, if ab_pos (hd_read h) =? ab_total (hd_read h) then Re_eval else arm h).

(** [handleRead] after the socket put [data] at [ptr()]. *)
Definition handleRead (data : bytes) (h : Handle) : option (Handle * Reaction) :=
  b ← ab_store (ab_pos (hd_read h)) data (hd_read h);
  let amount := Z.of_nat (length data) in
  match hd_state h with
  | CS_READING_HEADER =>
    let b := ab_bump amount b in
    if FRAME_SIZE <=? ab_pos b then
      if frame_magic (ab_mem b) =? SB_FRAME_MAGIC then
        b ← ab_reserve (ab_total b) b;
        Some (check_complete (h <| hd_read := b |> <| hd_state := CS_READING_BODY |>))
      else Some (h <| hd_read := b |>, Re_delete)
    else Some (check_complete (h <| hd_read := b |>))
  | CS_READING_BODY => Some (check_complete (h <| hd_read := ab_bump amount b |>))
  | _ => Some (check_complete (h <| hd_read := b |>))
  end.

(** [handleWrite]. *)
Definition handleWrite (amount : Z) (h : Handle) : Handle * Reaction :=
  let b := ab_bump amount (hd_write h) in
  let h := if ab_pos b =? ab_total b
           then h <| hd_state := CS_READING_HEADER |> <| hd_write := ab_reset b |>
           else h <| hd_write := b |> in
  (h, arm h).

Definition evaluateWriteResult (wr : Written) (h : Handle) : Handle * Reaction :=
  match wr with
  | Wr_ok rc =>
    let h := if rc <? ab_total (hd_write h)
             then h <| hd_write ::= ab_bump rc |> <| hd_state := CS_WRITING |>
             else h <| hd_write ::= ab_reset |> <| hd_state := CS_READING_HEADER |> in
    (h, arm h)
  | Wr_would_block => let h := h <| hd_state := CS_WRITING |> in (h, arm h)
  | Wr_error => (h, Re_delete)
  end.

(** [eval]: the default response, the calls of the handler with [under] the request
    bytes below the answer, and the context it leaves. *)
Definition eval_calls (under : bytes) (ks : list ContextCall) (h : Handle) : option (MessageContext * Handle) :=
  b ← buf_default (hd_write h);
  let m := new_MessageContext (ab_fr_size (hd_read h)) (mkResponse 0 (sb_code FNDUnknownCommand) PL_none) in
  '(m, b) ← calls under ks m b;
  Some (m, h <| hd_write := b |>).

(** The rest of [eval]: [found] is the result of [dispatch]. *)
Definition eval_finish (found : bool) (m : MessageContext) (wr : Written) (h : Handle) : Handle * Reaction :=
  if found && bool_decide (mc_mState m = State_DEFERRED)
  then (h <| hd_state := CS_DEFERRED |>, Re_wait)
  else evaluateWriteResult wr (h <| hd_read ::= ab_reset |> <| hd_write ::= ab_seek 0 |>).

(** [sendDeferredResponse(status, retval, data, len)]. *)
Definition sendDeferredResponse (status retval : Z) (data : bytes) (h : Handle) : option (Handle * Reaction) :=
  b ← (if negb (status =? 0) then ab_store 0 (INIT_RESPONSE_FRAME 0 (sb_code FNDInternalError)) (hd_write h)
       else if retval <=? sb_code FNDOK then
         b ← ab_write data FRAME_SIZE (hd_write h);
         ab_store 0 (INIT_RESPONSE_FRAME (Z.of_nat (length data)) retval) b
       else ab_store 0 (INIT_RESPONSE_FRAME 0 retval) (hd_write h));
  let h := h <| hd_read ::= ab_reset |> <| hd_write := ab_seek 0 b |> <| hd_state := CS_WRITING |> in
  Some (h, arm h).

(** ** Sockets that deliver and take pieces

    The socket has [pending] bytes; [sched] says how many it would deliver at a time.
    [pump] runs until the handle does something else than read; [None] when the
    schedule ends first. *)
Fixpoint pump (sched : list Z) (room : Z) (pending : bytes) (h : Handle)
    : option (Handle * bytes * Reaction) :=
  match sched with
  | [] => None
  | k :: sched =>
    let data := load 0 (Z.min k room) pending in
    '(h, r) ← handleRead data h;
    let rest := drop (length data) pending in
    match r with
    | Re_read room => pump sched room rest h
    | _ => Some (h, rest, r)
    end
  end.

(** The bytes the socket takes of what the handle wants to write. *)
Fixpoint drain (sched : list Z) (offer : bytes) (h : Handle) : option (bytes * Handle * Reaction) :=
  match sched with
  | [] => None
  | k :: sched =>
    let data := load 0 k offer in
    let '(h, r) := handleWrite (Z.of_nat (length data)) h in
    match r with
    | Re_write offer => '(out, h, r) ← drain sched offer h; Some (data ++ out, h, r)
    | _ => Some (data, h, r)
    end
  end.

(** A request and its response: what the socket takes, the context and the handle after
    it.  [rs] and [ws] are the socket's schedules, [wr] the result of the first write. *)
Definition exchange (rs ws : list Z) (req under : bytes) (ks : list ContextCall) (wr : Written) (h : Handle)
    : option (bytes * MessageContext * Handle) :=
  match arm h with
  | Re_read room =>
    '(h, rest, r) ← pump rs room req h;
    match r, rest with
    | Re_eval, [] =>
      '(m, h) ← eval_calls under ks h;
      let taken := match wr with
                   | Wr_ok rc => load 0 rc (ab_mem (hd_write h))
                   | _ => []
                   end in
      let '(h, r) := eval_finish true m wr h in
      match r with
      | Re_read _ => Some (taken, m, h)
      | Re_write offer => '(more, h, _) ← drain ws offer h; Some (taken ++ more, m, h)
      | _ => None
      end
    | _, _ => None
    end
  | _ => None
  end.

(** ** Invariant *)

(** A size field at the beginning of the memory is not negative, and will not be while a
    header is being read over it. *)
Definition quiet (m : bytes) : Prop :=
  (forall i b, (i < 8)%nat -> m !! i = Some b -> 0 <= b < 256) /\ nth 7 m 0 < 128.

Record ready (h : Handle) : Prop := {
  rd_state : hd_state h = CS_READING_HEADER;
  rd_read : ab_wf (hd_read h) /\ ab_heap (hd_read h) = None /\ ab_pos (hd_read h) = 0;
  rd_quiet : quiet (ab_internal (hd_read h));
  rd_write : ab_wf (hd_write h) /\ ab_pos (hd_write h) = 0;
}.

(** A request as a client sends it. *)
Record is_request (size cmd : Z) (body : bytes) : Prop := {
  ir_size : Z.of_nat (length body) = size;
  ir_max : size < 2 ^ 31 - FRAME_SIZE;
  ir_cmd : is_i32 cmd;
}.

Definition request_mem (cmd : Z) (body : bytes) : bytes :=
  INIT_REQUEST_FRAME (Z.of_nat (length body)) cmd ++ body.

(** ** Lemmas *)

Lemma frame_fr_size_load m : frame_fr_size m = i32_of (load 4 4 m).
Proof. unfold frame_fr_size, field. by rewrite load_load. Qed.

Lemma take_4 (l : bytes) : (4 <= length l)%nat -> exists a b c d, take 4 l = [a; b; c; d].
Proof. destruct l as [|a [|b [|c [|d l]]]]; cbn; intros; try lia. by exists a, b, c, d. Qed.

(** A quiet memory has a size that is not negative. *)
Lemma quiet_size m : quiet m -> FRAME_SIZE <= Z.of_nat (length m) -> 0 <= frame_fr_size m < 2 ^ 31.
Proof.
  intros [Hb Hn] Hl. rewrite frame_fr_size_load. unfold i32_of, load. change (Z.to_nat 4) with 4%nat.
  change FRAME_SIZE with 16 in Hl.
  destruct m as [|m0 [|m1 [|m2 [|m3 [|a [|b [|c [|d m]]]]]]]]; cbn in Hl; try lia.
  cbn [nth drop take le_value] in *.
  pose proof (Hb 4%nat a ltac:(lia) eq_refl). pose proof (Hb 5%nat b ltac:(lia) eq_refl).
  pose proof (Hb 6%nat c ltac:(lia) eq_refl). pose proof (Hb 7%nat d ltac:(lia) eq_refl).
  change (take 0 m) with (@nil Z). cbn [le_value]. rewrite i32_small; lia.
Qed.

Lemma is_byte_le_bytes k v : Forall (fun b => 0 <= b < 256) (le_bytes k v).
Proof. revert v. induction k; intros v; cbn; [done|]. constructor; [apply Z.mod_pos_bound; lia|done]. Qed.

Lemma request_frame_bytes size cmd : Forall (fun b => 0 <= b < 256) (INIT_REQUEST_FRAME size cmd).
Proof.
  change (INIT_REQUEST_FRAME size cmd) with (u32_mem SB_FRAME_MAGIC ++ u32_mem size ++ u32_mem cmd ++ u32_mem 0).
  rewrite !Forall_app. split_and!; apply is_byte_le_bytes.
Qed.

(** The prefix [g] of a memory. *)
Definition begins (g m : bytes) : Prop := load 0 (Z.of_nat (length g)) m = g.

Lemma begins_split g m : begins g m -> m = g ++ drop (length g) m.
Proof.
  unfold begins, load. rewrite Nat2Z.id, drop_0. intros Hg. rewrite <-(take_drop (length g) m) at 1. by rewrite Hg.
Qed.

Lemma begins_app g k : begins g (g ++ k).
Proof. unfold begins, load. rewrite Nat2Z.id, drop_0. by rewrite take_app_le, take_ge by lia. Qed.

(** Storing behind the prefix makes it longer. *)
Lemma begins_store g d m m' :
  begins g m -> store (Z.of_nat (length g)) d m = Some m' -> begins (g ++ d) m'.
Proof.
  intros Hg Hs. unfold begins. rewrite length_app, Nat2Z.inj_add, load_split by lia.
  rewrite (load_store_other _ _ _ _ _ _ Hs) by lia. rewrite Hg. f_equal. exact (load_store_same _ _ _ _ Hs).
Qed.

Lemma begins_extends g m m' : begins g m -> extends m m' -> begins g m'.
Proof.
  intros Hg [k ->]. rewrite (begins_split g m Hg), <-app_assoc. apply begins_app.
Qed.

Lemma begins_frame size cmd body m :
  Z.of_nat (length body) = size -> size < 2 ^ 31 - FRAME_SIZE ->
  forall g rest, FRAME_SIZE <= Z.of_nat (length g) -> g ++ rest = request_mem cmd body -> begins g m ->
  frame_magic m = SB_FRAME_MAGIC /\ frame_fr_size m = size /\ frame_code m = i32 cmd.
Proof.
  intros Hs Hm g rest Hg Hr Hb. unfold request_mem in Hr. rewrite Hs in Hr.
  assert (exists k, g = INIT_REQUEST_FRAME size cmd ++ k) as [k ->].
  { exists (drop 16 g). rewrite <-(take_drop 16 g) at 1. f_equal.
    apply (f_equal (take 16)) in Hr. rewrite take_app_le in Hr by (change FRAME_SIZE with 16 in Hg; lia).
    rewrite Hr. by rewrite take_app_le, take_ge. }
  rewrite (begins_split _ _ Hb), <-app_assoc. destruct (frame_fields size cmd (k ++ drop (length (INIT_REQUEST_FRAME size cmd ++ k)) m)) as (H1 & H2 & H3).
  split_and!; [done| |done]. rewrite H2. apply i32_small. change FRAME_SIZE with 16 in Hm. lia.
Qed.

(** A quiet memory stays quiet while a request is stored over its beginning. *)
Lemma quiet_store cmd body g d rest m m' :
  Z.of_nat (length body) < 2 ^ 31 -> g ++ d ++ rest = request_mem cmd body ->
  quiet m -> store (Z.of_nat (length g)) d m = Some m' -> quiet m'.
Proof.
  intros Hlen He [Hq Hn] Hs. unfold store in Hs. case_match; [|done]. reflect_bools. injection Hs as <-.
  rewrite !Nat2Z.id.
  (* a byte of the new memory is one of the request or the old one *)
  assert (forall i, (take (length g) m ++ d ++ drop (length g + length d) m) !! i = m !! i \/
    (take (length g) m ++ d ++ drop (length g + length d) m) !! i = request_mem cmd body !! i) as Hcase.
  { intros i. rewrite <-He. assert (length (take (length g) m) = length g) as Ht by (rewrite length_take; lia).
    destruct (decide (i < length g)%nat) as [Hl|Hl].
    - left. rewrite lookup_app_l, lookup_take_lt by lia. done.
    - destruct (decide (i < length g + length d)%nat) as [Hl2|Hl2].
      + right. rewrite (lookup_app_r (take _ _)), (lookup_app_r g), Ht by lia. by rewrite !lookup_app_l by lia.
      + left. rewrite (lookup_app_r (take _ _)), (lookup_app_r d), Ht, lookup_drop by lia. f_equal. lia. }
  assert (forall i b, (i < 8)%nat -> request_mem cmd body !! i = Some b -> 0 <= b < 256) as Hr.
  { intros i b Hi Hb. unfold request_mem in Hb. rewrite lookup_app_l in Hb
      by (change (length (INIT_REQUEST_FRAME (Z.of_nat (length body)) cmd)) with 16%nat; lia).
    pose proof (request_frame_bytes (Z.of_nat (length body)) cmd) as Hf. rewrite Forall_lookup in Hf. by eapply Hf. }
  assert (nth 7 (request_mem cmd body) 0 < 128) as H7.
  { change (nth 7 (request_mem cmd body) 0) with (Z.of_nat (length body) / 256 / 256 / 256 mod 256).
    rewrite !Z.div_div by lia. rewrite Z.mod_small; [|split; [apply Z.div_pos; lia|]]; apply Z.div_lt_upper_bound; lia. }
  split.
  - intros i b Hi Hb. destruct (Hcase i) as [E|E]; rewrite E in Hb; [by eapply Hq|by eapply Hr].
  - rewrite nth_lookup. destruct (Hcase 7%nat) as [-> | ->]; by rewrite <-nth_lookup.
Qed.

(** ** Receiving a request *)

(** The handle has received [g]. *)
Record received (g : bytes) (h : Handle) : Prop := {
  rc_wf : ab_wf (hd_read h);
  rc_pos : ab_pos (hd_read h) = Z.of_nat (length g);
  rc_begins : begins g (ab_mem (hd_read h));
  rc_quiet : quiet (ab_internal (hd_read h));
}.

(** It waits for the rest of the request [req]. *)
Definition waiting (req g : bytes) (h : Handle) : Prop :=
  (Z.of_nat (length g) < FRAME_SIZE /\ hd_state h = CS_READING_HEADER /\ ab_heap (hd_read h) = None) \/
  (FRAME_SIZE <= Z.of_nat (length g) /\ hd_state h = CS_READING_BODY /\
   Z.of_nat (length req) <= ab_capacity (hd_read h)).

Lemma request_mem_length cmd body :
  Z.of_nat (length (request_mem cmd body)) = FRAME_SIZE + Z.of_nat (length body).
Proof. unfold request_mem. rewrite length_app, Nat2Z.inj_add, request_frame_length. done. Qed.

(** The total a complete header announces. *)
Lemma total_of_request size cmd body g rest b :
  is_request size cmd body -> g ++ rest = request_mem cmd body -> FRAME_SIZE <= Z.of_nat (length g) ->
  begins g (ab_mem b) ->
  frame_magic (ab_mem b) = SB_FRAME_MAGIC /\ ab_total b = Z.of_nat (length (request_mem cmd body)).
Proof.
  intros [Hs Hm _] He Hg Hb. destruct (begins_frame size cmd body (ab_mem b) Hs Hm g rest Hg He Hb) as (H1 & H2 & _).
  split; [done|]. unfold ab_total, ab_fr_size. rewrite H2, request_mem_length.
  change FRAME_SIZE with 16 in *. rewrite u32_id by (unfold is_u32; lia). lia.
Qed.

(** A piece stored behind what was received. *)
Lemma received_store size cmd body g d rest h :
  is_request size cmd body -> received g h -> g ++ d ++ rest = request_mem cmd body ->
  Z.of_nat (length g) + Z.of_nat (length d) <= ab_capacity (hd_read h) ->
  exists b, ab_store (ab_pos (hd_read h)) d (hd_read h) = Some b /\ ab_capacity b = ab_capacity (hd_read h) /\
    (ab_heap (hd_read h) = None -> ab_heap b = None) /\
    received (g ++ d) (h <| hd_read := ab_bump (Z.of_nat (length d)) b |>).
Proof.
  intros [Hs Hm _] [Hwf Hpos Hbeg Hq] He Hl. rewrite Hpos.
  destruct (ab_store_spec (Z.of_nat (length g)) d (hd_read h) Hwf) as (m & b & S1 & E & -> & W & M & P & C); [lia|done|].
  exists (ab_set_mem m (hd_read h)). split_and!; [done|done| |].
  { unfold ab_set_mem. intros Eh. by rewrite Eh. }
  constructor; cbn [hd_read].
  - destruct W as (W1 & W2 & W3). split; [exact W1|]. split; [exact W2|].
    change (0 <= ab_pos (ab_set_mem m (hd_read h)) + Z.of_nat (length d) <= ab_capacity (ab_set_mem m (hd_read h))).
    lia.
  - change (ab_pos (ab_set_mem m (hd_read h)) + Z.of_nat (length d) = Z.of_nat (length (g ++ d))).
    rewrite length_app. lia.
  - change (begins (g ++ d) (ab_mem (ab_set_mem m (hd_read h)))). rewrite M. by eapply begins_store.
  - change (quiet (ab_internal (ab_set_mem m (hd_read h)))). unfold ab_set_mem.
    destruct (ab_heap (hd_read h)) eqn:Eh; [done|]. cbn.
    unfold ab_mem in S1. rewrite Eh in S1. cbn in S1.
    eapply (quiet_store cmd body g d rest); [|done|done|done]. change FRAME_SIZE with 16 in Hm. lia.
Qed.

(** The end of [handleRead] when [g] was received. *)
Lemma check_complete_spec size cmd body g rest h :
  is_request size cmd body -> g ++ rest = request_mem cmd body ->
  received g h -> waiting (request_mem cmd body) g h ->
  check_complete h =
    (h, if bool_decide (rest = []) then Re_eval
        else Re_read (ab_capacity (hd_read h) - ab_pos (hd_read h))) /\
  (rest <> [] -> 0 < ab_capacity (hd_read h) - ab_pos (hd_read h)).
Proof.
  intros Hr He [Hwf Hpos Hbeg Hq] Hw. unfold check_complete.
  assert (Z.of_nat (length g) + Z.of_nat (length rest) = Z.of_nat (length (request_mem cmd body))) as Hlen
    by (rewrite <-He, length_app; lia).
  pose proof (request_mem_length cmd body) as Hreq. change FRAME_SIZE with 16 in Hreq.
  assert (rest <> [] -> 0 < Z.of_nat (length rest)) as Hrest by (destruct rest; cbn; [done|lia]).
  assert (rest <> [] -> 0 < ab_capacity (hd_read h) - ab_pos (hd_read h)) as Hroom.
  { intros Hne. specialize (Hrest Hne). destruct Hw as [(Hl & _)|(_ & _ & Hc)]; [|lia].
    change FRAME_SIZE with 16 in Hl. destruct Hwf as (_ & Hc & _). unfold AUTO_SIZE in Hc. lia. }
  assert (rest <> [] -> arm h = Re_read (ab_capacity (hd_read h) - ab_pos (hd_read h))) as Harm.
  { intros Hne. unfold arm. specialize (Hroom Hne). apply Z.ltb_lt in Hroom.
    destruct Hw as [(_ & -> & _)|(_ & -> & _)]; by rewrite Hroom. }
  assert (ab_pos (hd_read h) = ab_total (hd_read h) <-> rest = []) as Hiff.
  { destruct Hw as [(Hl & _ & Hh)|(Hl & _ & _)].
    - assert (ab_pos (hd_read h) <> ab_total (hd_read h)).
      { destruct (quiet_size (ab_mem (hd_read h))) as [Q1 Q2].
        - unfold ab_mem. rewrite Hh. done.
        - destruct Hwf as (_ & Hc & _). unfold ab_capacity, AUTO_SIZE in Hc. change FRAME_SIZE with 16. lia.
        - unfold ab_total, ab_fr_size. change FRAME_SIZE with 16 in *. rewrite u32_id by (unfold is_u32; lia). lia. }
      split; [done|]. intros ->. rewrite length_nil in Hlen. change FRAME_SIZE with 16 in Hl. lia.
    - destruct (total_of_request size cmd body g rest (hd_read h) Hr He Hl Hbeg) as [_ ->]. rewrite Hpos.
      split; [intros; destruct rest; [done|rewrite length_cons in Hlen; lia]|intros ->; rewrite length_nil in Hlen; lia]. }
  split; [|done]. f_equal. case_bool_decide as Hb.
  - apply Hiff in Hb. by rewrite (proj2 (Z.eqb_eq _ _) Hb).
  - rewrite (proj2 (Z.eqb_neq _ _)); [by apply Harm|]. by rewrite Hiff.
Qed.

(** One piece. *)
Lemma handleRead_step size cmd body g d rest h :
  is_request size cmd body -> g ++ d ++ rest = request_mem cmd body -> heap_ample ->
  received g h -> waiting (request_mem cmd body) g h ->
  Z.of_nat (length d) <= ab_capacity (hd_read h) - ab_pos (hd_read h) ->
  exists h', handleRead d h =
      Some (h', if bool_decide (rest = []) then Re_eval
                else Re_read (ab_capacity (hd_read h') - ab_pos (hd_read h'))) /\
    received (g ++ d) h' /\ waiting (request_mem cmd body) (g ++ d) h' /\ hd_write h' = hd_write h /\
    (rest <> [] -> 0 < ab_capacity (hd_read h') - ab_pos (hd_read h')).
Proof.
  intros Hr He Hheap Hrc Hw Hl. pose proof (rc_pos _ _ Hrc) as Hpos.
  destruct (received_store size cmd body g d rest h Hr Hrc He) as (b & E & C & Hn & R); [lia|].
  assert ((g ++ d) ++ rest = request_mem cmd body) as He' by by rewrite <-app_assoc.
  set (b2 := ab_bump (Z.of_nat (length d)) b) in *. assert (ab_wf b2) as W2 by exact (rc_wf _ _ R).
  assert (ab_pos b2 = Z.of_nat (length (g ++ d))) as P2 by exact (rc_pos _ _ R).
  assert (begins (g ++ d) (ab_mem b2)) as B2 by exact (rc_begins _ _ R).
  assert (quiet (ab_internal b2)) as Q2 by exact (rc_quiet _ _ R).
  (* every branch ends with [check_complete] *)
  assert (forall h', hd_write h' = hd_write h -> received (g ++ d) h' -> waiting (request_mem cmd body) (g ++ d) h' ->
    exists h'', Some (check_complete h') =
      Some (h'', if bool_decide (rest = []) then Re_eval
                else Re_read (ab_capacity (hd_read h'') - ab_pos (hd_read h''))) /\
    received (g ++ d) h'' /\ waiting (request_mem cmd body) (g ++ d) h'' /\ hd_write h'' = hd_write h /\
    (rest <> [] -> 0 < ab_capacity (hd_read h'') - ab_pos (hd_read h''))) as Hend.
  { intros h' Hwr Hrc' Hw'. destruct (check_complete_spec size cmd body (g ++ d) rest h' Hr He' Hrc' Hw') as [-> Hroom].
    by exists h'. }
  unfold handleRead. rewrite E. cbn [mbind option_bind]. fold b2.
  destruct Hw as [(Hg & Hst & Hh)|(Hg & Hst & Hc)]; rewrite Hst.
  - rewrite P2.
    destruct (FRAME_SIZE <=? _) eqn:Ef; reflect_bools.
    + destruct (total_of_request size cmd body (g ++ d) rest b2 Hr He' Ef B2) as [-> Ht].
      rewrite Z.eqb_refl, Ht.
      destruct (ab_reserve_spec (Z.of_nat (length (request_mem cmd body))) b2 Hheap W2)
        as (b3 & -> & W3 & P3 & C3 & _ & X3 & I3).
      cbn [mbind option_bind]. apply Hend; [done| |right; done].
      constructor; cbn; [done|lia|by eapply begins_extends|by rewrite I3].
    + apply Hend; [done|done|left]. split_and!; [lia|exact Hst|]. by apply Hn.
  - apply Hend; [done|destruct h; exact R|right]. split_and!; [rewrite length_app; lia|exact Hst|].
    change (Z.of_nat (length (request_mem cmd body)) <= ab_capacity b). by rewrite C.
Qed.

(** The whole request arrives, however the socket cuts it. *)
Lemma pump_request size cmd body sched g pending h :
  is_request size cmd body -> heap_ample -> g ++ pending = request_mem cmd body -> pending <> [] ->
  received g h -> waiting (request_mem cmd body) g h ->
  Forall (fun k => 1 <= k) sched -> (length pending <= length sched)%nat ->
  0 < ab_capacity (hd_read h) - ab_pos (hd_read h) ->
  exists h', pump sched (ab_capacity (hd_read h) - ab_pos (hd_read h)) pending h = Some (h', [], Re_eval) /\
    received (request_mem cmd body) h' /\ hd_write h' = hd_write h.
Proof.
  intros Hr Hheap. revert g pending h.
  induction sched as [|k sched IH]; intros g pending h He Hne Hrc Hw Hs Hlen Hroom.
  - destruct pending; [done|cbn in Hlen; lia].
  - apply Forall_cons_1 in Hs as [Hk Hs]. cbn [pump].
    set (room := ab_capacity (hd_read h) - ab_pos (hd_read h)) in *.
    set (d := load 0 (Z.min k room) pending). set (rest := drop (length d) pending).
    assert (d ++ rest = pending) as Hd.
    { unfold rest, d, load. rewrite drop_0, length_take. rewrite <-(take_drop (Z.to_nat (Z.min k room)) pending) at 4.
      f_equal. destruct (Nat.min_spec (Z.to_nat (Z.min k room)) (length pending)) as [[_ ->]|[Hge ->]]; [done|].
      by rewrite !drop_ge by lia. }
    assert (1 <= Z.of_nat (length d) <= room) as Hdl.
    { unfold d, load. rewrite drop_0, length_take. destruct pending; [done|cbn; lia]. }
    destruct (handleRead_step size cmd body g d rest h Hr) as (h' & -> & Hrc' & Hw' & Hwr & Hroom');
      [by rewrite Hd|done|done|done|fold room; lia|].
    cbn [mbind option_bind]. case_bool_decide as Hb.
    + rewrite Hb in *. exists h'. split_and!; [done| |done]. rewrite app_nil_r in Hd. by rewrite Hd, He in Hrc'.
    + destruct (IH (g ++ d) rest h') as (h'' & E & Hrc'' & Hwr''); try done.
      * by rewrite <-app_assoc, Hd.
      * rewrite <-Hd, length_app in Hlen. cbn in Hlen. lia.
      * by apply Hroom'.
      * exists h''. split_and!; [done|done|congruence].
Qed.

(** ** Sending a response *)

(** The write buffer holds [resp], of which [n] bytes are sent. *)
Record sending (resp : bytes) (n : Z) (h : Handle) : Prop := {
  sn_wf : ab_wf (hd_write h);
  sn_pos : ab_pos (hd_write h) = n;
  sn_range : 0 <= n <= Z.of_nat (length resp);
  sn_begins : begins resp (ab_mem (hd_write h));
  sn_total : ab_total (hd_write h) = Z.of_nat (length resp);
  sn_room : Z.of_nat (length resp) <= ab_capacity (hd_write h);
}.

(** The handle can read the next request once the response is out. *)
Definition read_empty (h : Handle) : Prop :=
  ab_wf (hd_read h) /\ ab_heap (hd_read h) = None /\ ab_pos (hd_read h) = 0 /\
  quiet (ab_internal (hd_read h)).

Lemma arm_ready h : ready h -> arm h = Re_read AUTO_SIZE.
Proof.
  intros [Hs (Hw & Hh & Hp) _ _]. unfold arm. rewrite Hs, Hp. unfold ab_capacity, ab_mem. rewrite Hh. cbn [default].
  destruct Hw as (-> & _). done.
Qed.

Lemma ready_of h :
  hd_state h = CS_READING_HEADER -> read_empty h -> ab_wf (hd_write h) -> ab_pos (hd_write h) = 0 -> ready h.
Proof. intros H1 (H2 & H3 & H4 & H5) H6 H7. by constructor. Qed.

Lemma unsent_spec resp n h : sending resp n h -> unsent h = drop (Z.to_nat n) resp.
Proof.
  intros [Hwf Hp Hn Hb Ht Hr]. unfold unsent. rewrite Hp, Ht. rewrite (begins_split _ _ Hb). unfold load.
  rewrite drop_app_le, take_app_le, take_ge; rewrite ?length_drop; try lia. done.
Qed.

Lemma handleWrite_step resp n k h :
  sending resp n h -> hd_state h = CS_WRITING -> read_empty h ->
  1 <= k -> n + k <= Z.of_nat (length resp) ->
  (n + k < Z.of_nat (length resp) /\
   exists h', handleWrite k h = (h', Re_write (drop (Z.to_nat (n + k)) resp)) /\ sending resp (n + k) h' /\
     hd_state h' = CS_WRITING /\ read_empty h') \/
  (n + k = Z.of_nat (length resp) /\
   exists h', handleWrite k h = (h', Re_read AUTO_SIZE) /\ ready h').
Proof.
  intros [Hwf Hp Hn Hb Ht Hr] Hst Hre Hk Hle. unfold handleWrite.
  change (ab_pos (ab_bump k (hd_write h))) with (ab_pos (hd_write h) + k).
  change (ab_total (ab_bump k (hd_write h))) with (ab_total (hd_write h)). rewrite Hp, Ht.
  destruct (n + k =? Z.of_nat (length resp)) eqn:E; reflect_bools.
  - right. split; [done|]. set (h' := h <| hd_state := CS_READING_HEADER |> <| hd_write := _ |>).
    assert (ready h') as Hr'.
    { assert (ab_wf (ab_bump k (hd_write h))) as Hw.
      { destruct Hwf as (W1 & W2 & W3). split; [exact W1|]. split; [exact W2|].
        change (0 <= ab_pos (hd_write h) + k <= ab_capacity (hd_write h)). lia. }
      by apply ready_of; [|exact Hre|apply (ab_reset_wf _ Hw)|]. }
    exists h'. split; [|done]. f_equal. by apply arm_ready.
  - left. split; [lia|]. set (h' := h <| hd_write := _ |>).
    assert (sending resp (n + k) h') as Hs.
    { constructor; [|cbn|lia|exact Hb|exact Ht|exact Hr].
      - destruct Hwf as (W1 & W2 & W3). split; [exact W1|]. split; [exact W2|].
        change (0 <= ab_pos (hd_write h) + k <= ab_capacity (hd_write h)). lia.
      - by rewrite Hp. }
    exists h'. split_and!; [|done|exact Hst|exact Hre].
    f_equal. unfold arm. change (hd_state h') with (hd_state h). rewrite Hst. f_equal. by apply unsent_spec.
Qed.

Lemma drain_response resp sched n h :
  sending resp n h -> hd_state h = CS_WRITING -> read_empty h -> n < Z.of_nat (length resp) ->
  Forall (fun k => 1 <= k) sched -> Z.of_nat (length resp) - n <= Z.of_nat (length sched) ->
  exists h', drain sched (drop (Z.to_nat n) resp) h = Some (drop (Z.to_nat n) resp, h', Re_read AUTO_SIZE) /\ ready h'.
Proof.
  revert n h. induction sched as [|k sched IH]; intros n h Hs Hst Hre Hn Hf Hl; [cbn in Hl; lia|].
  apply Forall_cons_1 in Hf as [Hk Hf]. cbn [drain]. pose proof (sn_range _ _ _ Hs) as Hrng.
  set (d := load 0 k (drop (Z.to_nat n) resp)).
  assert (1 <= Z.of_nat (length d) /\ n + Z.of_nat (length d) <= Z.of_nat (length resp)) as [Hd1 Hd2].
  { unfold d, load. rewrite drop_0, length_take, length_drop. lia. }
  assert (drop (Z.to_nat n) resp = d ++ drop (Z.to_nat (n + Z.of_nat (length d))) resp) as Hsplit.
  { rewrite Z2Nat.inj_add, Nat2Z.id, <-drop_drop by lia.
    rewrite <-(take_drop (length d) (drop (Z.to_nat n) resp)) at 1. f_equal.
    unfold d, load. rewrite drop_0, length_take. destruct (Nat.min_spec (Z.to_nat k) (length (drop (Z.to_nat n) resp)))
      as [[_ ->]|[Hge ->]]; [done|]. by rewrite !take_ge by lia. }
  destruct (handleWrite_step resp n (Z.of_nat (length d)) h Hs Hst Hre Hd1 Hd2)
    as [(Hlt & h' & -> & Hs' & Hst' & Hre')|(Heq & h' & -> & Hr')].
  - destruct (IH _ h' Hs' Hst' Hre') as (h'' & E & Hr''); [done|done|cbn in Hl; lia|].
    exists h''. split; [|done]. rewrite E. cbn. by rewrite <-Hsplit.
  - exists h'. split; [|done]. rewrite Hsplit. by rewrite Heq, Nat2Z.id, drop_ge, app_nil_r by lia.
Qed.

(** ** Evaluating a request *)

Definition default_response : Response := mkResponse 0 (sb_code FNDUnknownCommand) PL_none.

Lemma default_holds under size b :
  ab_wf b -> ab_pos b = 0 ->
  exists b', buf_default b = Some b' /\ holds under (new_MessageContext size default_response) b'.
Proof.
  intros Hw Hp. assert (AUTO_SIZE <= ab_capacity b) as Hc by apply Hw. unfold AUTO_SIZE in Hc.
  destruct (ab_store_spec 0 (INIT_RESPONSE_FRAME 0 (sb_code FNDUnknownCommand)) b Hw) as (m & b' & S & E & -> & W & M & P & C);
    [lia|rewrite response_frame_eq, request_frame_length; change FRAME_SIZE with 16; lia|].
  exists (ab_set_mem m b). split; [exact E|]. constructor; try done.
  - by rewrite P.
  - change (16 + 0 <= ab_capacity (ab_set_mem m b)). lia.
  - rewrite M. exact (load_store_same _ _ _ _ S).
  - change (16 + 0 <= ab_capacity (ab_set_mem m b)). lia.
Qed.

(** What [holds] says of the write buffer is what the rest of [eval] needs to send it. *)
Lemma holds_sending under m b h :
  holds under m b -> rs_size (mc_response m) < 2 ^ 31 - FRAME_SIZE ->
  sending (response_mem under (mc_response m)) 0 (h <| hd_write := ab_seek 0 b |>).
Proof.
  intros [Hwf Hpos Hput Hroom Hw Hr Hs Hpr Hf] Hmax. set (r := mc_response m) in *.
  assert (Z.of_nat (length (response_mem under r)) = 16 + rs_size r) as Hl.
  { unfold response_mem. by rewrite length_app, Nat2Z.inj_add, response_frame_eq, request_frame_length, Hs. }
  rewrite <-Hs in Hr. change FRAME_SIZE with 16 in *. rewrite <-Hl in Hr.
  assert (0 <= rs_size r) as Hnn by (rewrite Hs; unfold call_size; lia).
  constructor; cbn [hd_write]; try done.
  - destruct Hwf as (W1 & W2 & W3). split; [exact W1|]. split; [exact W2|]. change (0 <= 0 <= ab_capacity b). lia.
  - unfold ab_total, ab_fr_size. change (ab_mem (hd_write (h <| hd_write := ab_seek 0 b |>))) with (ab_mem b).
    rewrite (begins_split _ _ Hr). unfold response_mem. rewrite <-app_assoc, response_frame_eq.
    destruct (frame_fields (rs_size r) (rs_returncode r) (payload_mem under (rs_payload r) ++
      drop (length (INIT_REQUEST_FRAME (rs_size r) (rs_returncode r) ++ payload_mem under (rs_payload r))) (ab_mem b)))
      as (_ & -> & _).
    rewrite i32_small by lia. change FRAME_SIZE with 16.
    rewrite u32_id by (unfold is_u32; lia). change (INIT_REQUEST_FRAME ?s ?c ++ ?p) with (INIT_RESPONSE_FRAME s c ++ p).
    fold (response_mem under r). lia.
  - change (ab_capacity (hd_write (h <| hd_write := ab_seek 0 b |>))) with (ab_capacity b). lia.
Qed.

Lemma received_reset req h : received req h -> ab_heap (ab_reset (hd_read h)) = None ->
  forall b, read_empty (h <| hd_read ::= ab_reset |> <| hd_write := b |>).
Proof.
  intros [Hwf _ _ Hq] _ b. split_and!; [|done|done|exact Hq].
  destruct Hwf as (W1 & W2 & W3). split; [exact W1|]. cbn. unfold ab_capacity, ab_mem. cbn. lia.
Qed.

(** The calls on values only. *)
Fixpoint value_calls (under : bytes) (ks : list ContextCall) (m : MessageContext) : MessageContext :=
  match ks with
  | [] => m
  | k :: ks => value_calls under ks (snd (call_context under k m))
  end.

Lemma calls_value under ks m b m' b' : calls under ks m b = Some (m', b') -> m' = value_calls under ks m.
Proof.
  revert m b. induction ks as [|k ks IH]; intros m b; cbn; [by intros [= <- _]|].
  destruct (call_buffer under k m b); [|done]. cbn. apply IH.
Qed.

(** A context as [eval] sets it up for a request of [size] bytes. *)
Definition fresh_context (size : Z) : MessageContext := new_MessageContext size default_response.

(** The first [write_some] takes at most what it was given. *)
Definition write_possible (total : Z) (wr : Written) : Prop :=
  match wr with Wr_ok n => 0 <= n <= total | Wr_would_block => True | Wr_error => False end.

Lemma finish_spec resp m wr h :
  mc_mState m <> State_DEFERRED -> sending resp 0 (h <| hd_write ::= ab_seek 0 |>) ->
  read_empty (h <| hd_read ::= ab_reset |>) -> write_possible (Z.of_nat (length resp)) wr ->
  0 < Z.of_nat (length resp) ->
  (exists n h', eval_finish true m wr h = (h', Re_write (drop (Z.to_nat n) resp)) /\ sending resp n h' /\
     hd_state h' = CS_WRITING /\ read_empty h' /\ n < Z.of_nat (length resp) /\
     match wr with Wr_ok k => k = n | _ => n = 0 end) \/
  (exists h', eval_finish true m wr h = (h', Re_read AUTO_SIZE) /\ ready h' /\
     match wr with Wr_ok k => k = Z.of_nat (length resp) | _ => False end).
Proof.
  intros Hst Hs Hre Hwr Hpos. unfold eval_finish. rewrite bool_decide_false by done. cbn [andb].
  set (h1 := h <| hd_read ::= ab_reset |> <| hd_write ::= ab_seek 0 |>).
  assert (sending resp 0 h1) as Hs1 by (destruct Hs; by constructor).
  pose proof Hs1 as [Hwf Hp Hn Hb Ht Hr].
  destruct wr as [k| |]; [|left|done].
  - cbn in Hwr. unfold evaluateWriteResult. rewrite Ht. destruct (k <? Z.of_nat (length resp)) eqn:E; reflect_bools.
    + left. set (h2 := h1 <| hd_write ::= ab_bump k |> <| hd_state := CS_WRITING |>).
      assert (sending resp k h2) as Hs2.
      { constructor; [|done|lia|exact Hb|exact Ht|exact Hr].
        destruct Hwf as (W1 & W2 & W3). split; [exact W1|]. split; [exact W2|].
        change (0 <= 0 + k <= ab_capacity (hd_write h1)). lia. }
      exists k, h2. split_and!; [|done|done|exact Hre|done|done]. f_equal. unfold arm. cbn [hd_state h2]. f_equal.
      by apply unsent_spec.
    + right. set (h2 := h1 <| hd_write ::= ab_reset |> <| hd_state := CS_READING_HEADER |>).
      assert (ready h2) as Hr2 by (by apply ready_of; [|exact Hre|apply (ab_reset_wf _ Hwf)|]).
      exists h2. split_and!; [|done|lia]. f_equal. by apply arm_ready.
  - set (h2 := h1 <| hd_state := CS_WRITING |>). exists 0, h2.
    assert (sending resp 0 h2) as Hs2 by (destruct Hs1; by constructor).
    split_and!; [|done|done|exact Hre|done|done]. unfold evaluateWriteResult. fold h2. f_equal.
    unfold arm. cbn [hd_state h2]. f_equal. by apply unsent_spec.
Qed.

Lemma frame_of_begins size cmd body stack local m :
  is_request size cmd body -> begins (request_mem cmd body) m ->
  frame_of stack local m = frame_of stack local (request_mem cmd body).
Proof.
  intros Hr Hb. pose proof (request_mem_length cmd body) as Hl. change FRAME_SIZE with 16 in Hl.
  destruct Hr as [Hs Hm _].
  destruct (begins_frame size cmd body m Hs Hm (request_mem cmd body) []) as (_ & H1 & H2);
    [change FRAME_SIZE with 16; lia|by rewrite app_nil_r|done|].
  destruct (begins_frame size cmd body (request_mem cmd body) Hs Hm (request_mem cmd body) []) as (_ & H3 & H4);
    [change FRAME_SIZE with 16; lia|by rewrite app_nil_r| |].
  { unfold begins, load. by rewrite Nat2Z.id, drop_0, take_ge. }
  unfold frame_of. rewrite H1, H2, H3, H4.
  assert (load FRAME_SIZE size m = load FRAME_SIZE size (request_mem cmd body)) as ->; [|done].
  rewrite (begins_split _ _ Hb). apply load_app_l; change FRAME_SIZE with 16; lia.
Qed.

(** The first half: the request is collected, and evaluated with an untouched write buffer. *)
Lemma exchange_request size cmd body rs h :
  heap_ample -> ready h -> is_request size cmd body -> Forall (fun k => 1 <= k) rs ->
  Z.of_nat (length (request_mem cmd body)) <= Z.of_nat (length rs) ->
  exists h1, pump rs AUTO_SIZE (request_mem cmd body) h = Some (h1, [], Re_eval) /\
    received (request_mem cmd body) h1 /\ hd_write h1 = hd_write h /\ ab_fr_size (hd_read h1) = size /\
    forall stack local, frame_of stack local (ab_mem (hd_read h1)) = frame_of stack local (request_mem cmd body).
Proof.
  intros Hheap Hready Hreq Hrs Hlrs.
  pose proof (request_mem_length cmd body) as Hlen. change FRAME_SIZE with 16 in Hlen.
  pose proof Hready as [Hst (Hrw & Hrh & Hrp) Hq (Hww & Hwp)].
  assert (ab_capacity (hd_read h) - ab_pos (hd_read h) = AUTO_SIZE) as Hcap.
  { rewrite Hrp. unfold ab_capacity, ab_mem. rewrite Hrh. cbn [default]. destruct Hrw as (-> & _). done. }
  destruct (pump_request size cmd body rs [] (request_mem cmd body) h Hreq Hheap) as (h1 & Hpump & Hrc & Hw1);
    [done| | |left; by split_and!|done|lia|by rewrite Hcap|].
  { intros E. rewrite E in Hlen. cbn in Hlen. lia. }
  { by constructor. }
  rewrite Hcap in Hpump. pose proof (rc_begins _ _ Hrc) as Hbeg.
  destruct (begins_frame size cmd body (ab_mem (hd_read h1)) (ir_size _ _ _ Hreq) (ir_max _ _ _ Hreq) (request_mem cmd body) [])
    as (_ & Hfs & _); [change FRAME_SIZE with 16; lia|by rewrite app_nil_r|done|].
  exists h1. split_and!; try done. intros. by apply (frame_of_begins size).
Qed.

(** The second half: the response is built and sent. *)
Lemma exchange_response size rs ws req under ks wr h h1 :
  heap_ample -> ready h -> pump rs AUTO_SIZE req h = Some (h1, [], Re_eval) ->
  received req h1 -> hd_write h1 = hd_write h -> ab_fr_size (hd_read h1) = size ->
  Forall (fun k => 1 <= k) ws -> calls_ok under ks (fresh_context size) ->
  let m := value_calls under ks (fresh_context size) in
  let resp := response_mem under (mc_response m) in
  mc_mState m <> State_DEFERRED -> rs_size (mc_response m) < 2 ^ 31 - FRAME_SIZE ->
  write_possible (Z.of_nat (length resp)) wr -> Z.of_nat (length resp) <= Z.of_nat (length ws) ->
  exists h', exchange rs ws req under ks wr h = Some (resp, m, h') /\ ready h'.
Proof.
  intros Hheap Hready Hpump Hrc Hw1 Hfs Hws Hok m resp Hdef Hmax Hwr Hlws.
  pose proof Hready as [_ _ _ (Hww & Hwp)].
  destruct (default_holds under (ab_fr_size (hd_read h1)) (hd_write h1)) as (b0 & Hb0 & Hh0); [by rewrite Hw1..|].
  rewrite Hfs in Hh0.
  destruct (calls_hold under ks _ _ Hheap Hh0 Hok) as (m' & b1 & Hc & Hh1).
  assert (m' = m) as -> by exact (calls_value _ _ _ _ _ _ Hc).
  assert (eval_calls under ks h1 = Some (m, h1 <| hd_write := b1 |>)) as Hev.
  { unfold eval_calls. rewrite Hb0. cbn [mbind option_bind]. rewrite Hfs. fold default_response.
    by rewrite Hc. }
  set (h2 := h1 <| hd_write := b1 |>) in *.
  assert (sending resp 0 (h2 <| hd_write ::= ab_seek 0 |>)) as Hs by exact (holds_sending under m b1 h1 Hh1 Hmax).
  assert (begins resp (ab_mem (hd_write h2))) as Hb2 by exact (sn_begins _ _ _ Hs).
  destruct (finish_spec resp m wr h2 Hdef Hs (received_reset _ h1 Hrc eq_refl b1) Hwr) as
    [(n & h3 & Hfin & Hs3 & Hst3 & Hre3 & Hn & Hwr3)|(h3 & Hfin & Hr3 & Hwr3)].
  { unfold resp, response_mem. rewrite length_app, response_frame_eq. pose proof (request_frame_length (rs_size (mc_response m)) (rs_returncode (mc_response m))) as E.
    change FRAME_SIZE with 16 in E. lia. }
  all: assert (exchange rs ws req under ks wr h =
    let taken := match wr with Wr_ok rc => load 0 rc (ab_mem (hd_write h2)) | _ => [] end in
    let '(h', r) := eval_finish true m wr h2 in
    match r with
    | Re_read _ => Some (taken, m, h')
    | Re_write offer => '(more, h', _) ← drain ws offer h'; Some (taken ++ more, m, h')
    | _ => None
    end) as -> by (unfold exchange; rewrite (arm_ready h Hready), Hpump; cbn [mbind option_bind]; rewrite Hev; done).
  all: rewrite Hfin; cbn zeta.
  - destruct (drain_response resp ws n h3 Hs3 Hst3 Hre3 Hn Hws) as (h4 & Hdr & Hr4);
      [pose proof (sn_range _ _ _ Hs3); lia|].
    rewrite Hdr. cbn [mbind option_bind]. exists h4. split; [|done].
    do 3 f_equal. destruct wr as [k| |]; subst; [|by rewrite drop_0..].
      unfold load. rewrite drop_0. rewrite (begins_split _ _ Hb2), take_app_le by lia. apply take_drop.
  - exists h3. split; [|done]. destruct wr as [k| |]; [|done..]. subst k. do 2 f_equal. f_equal. exact Hb2.
Qed.

(** C4. A client handle exchanges messages correctly whatever the socket does: a request
    delivered in any pieces (at least one byte at a time, at most what the handle asked for)
    is collected completely and evaluated once; whatever legal calls the handler makes on its
    message context, the bytes the socket takes, in any pieces again, are exactly the frame of
    the response the context holds as a value; the size, version and argument the dispatcher
    reads from the buffer are those of the request, and afterwards the handle is ready for the
    next request.  The memory of fresh and reused buffers is arbitrary. *)
Theorem exchange_correct size cmd body rs ws under ks wr h :
  heap_ample -> ready h -> is_request size cmd body ->
  Forall (fun k => 1 <= k) rs -> Forall (fun k => 1 <= k) ws ->
  Z.of_nat (length (request_mem cmd body)) <= Z.of_nat (length rs) ->
  calls_ok under ks (fresh_context size) ->
  let m := value_calls under ks (fresh_context size) in
  let resp := response_mem under (mc_response m) in
  mc_mState m <> State_DEFERRED -> rs_size (mc_response m) < 2 ^ 31 - FRAME_SIZE ->
  write_possible (Z.of_nat (length resp)) wr -> Z.of_nat (length resp) <= Z.of_nat (length ws) ->
  exists h', exchange rs ws (request_mem cmd body) under ks wr h = Some (resp, m, h') /\ ready h' /\
    exists h1, pump rs AUTO_SIZE (request_mem cmd body) h = Some (h1, [], Re_eval) /\
      forall stack local, frame_of stack local (ab_mem (hd_read h1)) = frame_of stack local (request_mem cmd body).
Proof.
  intros Hheap Hready Hreq Hrs Hws Hlrs Hok m resp Hdef Hmax Hwr Hlws.
  destruct (exchange_request size cmd body rs h) as (h1 & Hp & Hrc & Hw1 & Hfs & Hf); [done..|].
  destruct (exchange_response size rs ws _ under ks wr h h1 Hheap Hready Hp Hrc Hw1 Hfs) as (h' & E & Hr); [done..|].
  exists h'. split_and!; [done|done|]. by exists h1.
Qed.

End handle.

(** ** Witness and boundary cases *)

(** A heap of zeroes, as a fresh process has it. *)
Definition zero_heap : Heap :=
  {| heap_alloc := fun _ => true; heap_junk := fun _ => 0; heap_elements := fun _ => true |}.

Lemma new_Handle_ready : @ready (@new_Handle zero_heap).
Proof.
  constructor; [done| | |].
  - split; [apply (@ab_new_wf zero_heap)|done].
  - split; [|done]. intros i b Hi Hb. do 8 (destruct i as [|i]; [by injection Hb as <-|]). lia.
  - split; [apply (@ab_new_wf zero_heap)|done].
Qed.

(** A ping that arrives byte by byte; the response leaves in pieces. *)
Lemma exchange_correct_witness :
  exists h', @exchange zero_heap (replicate 16 1) (replicate 16 3)
      (request_mem (dcmd_code DCMD_FND_MASTER_PING) []) [] [Call_prepare 0 true] (Wr_ok 5) (@new_Handle zero_heap) =
    Some (INIT_RESPONSE_FRAME 0 0, value_calls [] [Call_prepare 0 true] (fresh_context 0), h') /\ ready h'.
Proof.
  destruct (@exchange_correct zero_heap 0 (dcmd_code DCMD_FND_MASTER_PING) [] (replicate 16 1) (replicate 16 3) []
    [Call_prepare 0 true] (Wr_ok 5) (@new_Handle zero_heap)) as (h' & E & Hr & _).
  - by split.
  - apply new_Handle_ready.
  - by constructor.
  - by apply (bool_decide_unpack _).
  - by apply (bool_decide_unpack _).
  - done.
  - done.
  - done.
  - done.
  - done.
  - done.
  - exists h'. split; [exact E|exact Hr].
Defined.

(** The test for a complete request is made on the size field before it has arrived: in
    memory that happens to hold a size of -12 there, four bytes make a request. *)
Definition stale_heap : Heap :=
  {| heap_alloc := fun _ => true;
     heap_junk := fun i => match i with 4%nat => 0xF4 | 5%nat | 6%nat | 7%nat => 0xFF | _ => 0 end;
     heap_elements := fun _ => true |}.

Lemma stale_size_evaluated :
  option_map snd (@handleRead stale_heap [83; 66; 82; 75] (@new_Handle stale_heap)) = Some Re_eval.
Proof. vm_compute. reflexivity. Qed.

(** A header with a negative size makes the handle allocate nearly 4 GB: without so much
    memory the allocation throws, and nothing catches it. *)
Definition small_heap : Heap :=
  {| heap_alloc := fun n => n <? 2 ^ 31; heap_junk := fun _ => 0; heap_elements := fun _ => true |}.

Lemma negative_size_throws :
  @handleRead small_heap (INIT_REQUEST_FRAME (-17) (dcmd_code DCMD_FND_MASTER_PING)) (@new_Handle small_heap) = None.
Proof. vm_compute. reflexivity. Qed.

(** Two requests in one piece are taken for an incomplete one: neither is evaluated. *)
Lemma pipelined_requests_wait :
  let ping := request_mem (dcmd_code DCMD_FND_MASTER_PING) [] in
  option_map snd (@handleRead zero_heap (ping ++ ping) (@new_Handle zero_heap)) = Some (Re_read (512 - 32)).
Proof. vm_compute. reflexivity. Qed.
