(* ===== verification/ClientIo.v ===== *)
(** How an application talks to the servicebroker: [src/servicebroker/clientIo.cpp].

    The socket is a stream in each direction.  The kernel takes or delivers any number
    of bytes at a time and may interrupt a call; the results of the successive calls are
    a script, on which the loops recurse.  A computation returns [None] when the script
    ends, that is when the call never returns.  One thread uses a handle at a time: the
    mutex is left out. *)

From S2P Require Import Prelude.
From S2P Require Import Layout.
From S2P Require Import Types.
From S2P Require Import Wire.
From S2P Require Import Buffer.
From S2P Require Import AutoBuffer.

(** ** The socket *)

(** The result of a [send], [sendmsg] or [recv]: up to [n] bytes, [EINTR], or another
    error.  A [recv] of 0 bytes is the end of the stream. *)
Inductive SockResult := SR_some (n : Z) | SR_interrupted | SR_failed.

Record Socket := mkSocket {
  so_sends : list SockResult;
  so_recvs : list SockResult;
  so_sent : bytes;
  so_incoming : bytes;
}.
#[export] Instance Eta_Socket : Eta Socket :=
  fun s => mkSocket (so_sends s) (so_recvs s) (so_sent s) (so_incoming s).

(** The bytes taken of [data] when the kernel takes up to [n]. *)
Definition taken (n : Z) (data : bytes) : nat := Nat.min (Z.to_nat n) (length data).

(** ** [sendAll] and [recvAll]

    The loops are on the bytes that are left, which are [len - total]. *)

(** The error flag, the bytes sent and the rest of the script. *)
Fixpoint send_loop (script : list SockResult) (data : bytes) : option (bool * bytes * list SockResult) :=
  match script with
  | [] => None
  | SR_some n :: script =>
    let rc := taken n data in
    match drop rc data with
    | [] => Some (false, data, script)
    | rest => '(err, sent, script) ← send_loop script rest; Some (err, take rc data ++ sent, script)
    end
  | SR_interrupted :: script =>
    match data with
    | [] => Some (false, [], script)
    | _ => send_loop script data
    end
  | SR_failed :: script => Some (true, [], script)
  end.

Definition sendAll (data : bytes) (s : Socket) : option (bool * Socket) :=
  '(err, sent, script) ← send_loop (so_sends s) data;
  Some (err, s <| so_sends := script |> <| so_sent ::= (fun o => o ++ sent) |>).

(** [recv] of up to [len] bytes: the number it returns, if it does. *)
Definition recv_count (n : Z) (len : Z) (incoming : bytes) : option Z :=
  if n =? 0 then Some 0
  else match incoming with
       | [] => if len =? 0 then Some 0 else None
       | _ => Some (Z.of_nat (Nat.min (taken n incoming) (Z.to_nat len)))
       end.

(** The error flag, the bytes received, those still to come and the rest of the script. *)
Fixpoint recv_loop (script : list SockResult) (len : Z) (incoming : bytes)
    : option (bool * bytes * bytes * list SockResult) :=
  match script with
  | [] => None
  | SR_some n :: script =>
    rc ← recv_count n len incoming;
    if rc =? 0 then Some (true, [], incoming, script)
    else
      let data := load 0 rc incoming in
      let rest := drop (length data) incoming in
      if rc <? len then
        '(err, more, rest, script) ← recv_loop script (len - rc) rest;
        Some (err, data ++ more, rest, script)
      else Some (false, data, rest, script)
  | SR_interrupted :: script =>
    if 0 <? len then recv_loop script len incoming else Some (false, [], incoming, script)
  | SR_failed :: script => Some (true, [], incoming, script)
  end.

Definition recvAll (len : Z) (s : Socket) : option (bool * bytes * Socket) :=
  '(err, data, rest, script) ← recv_loop (so_recvs s) len (so_incoming s);
  Some (err, data, s <| so_recvs := script |> <| so_incoming := rest |>).

(** ** [sendiov]

    [in] is the array of the caller; an element is the bytes from its [iov_base] on, as
    many as [iov_len].  [hdr.msg_iov] is the element with index [first], [count] is
    [hdr.msg_iovlen]. *)

(** The [for] loop after a [sendmsg] that took [rc] bytes: the array and [empty_iovs].
    The elements are those of [in], from its beginning. *)
Fixpoint adjust (iovs : list bytes) (count : nat) (rc : Z) : list bytes * nat :=
  match count, iovs with
  | S count, v :: iovs =>
    if 0 <? rc then
      if rc <? Z.of_nat (length v) then (drop (Z.to_nat rc) v :: iovs, O)
      else let '(iovs, n) := adjust iovs count (rc - Z.of_nat (length v)) in (v :: iovs, S n)
    else (v :: iovs, O)
  | _, _ => (iovs, O)
  end.

Fixpoint sendiov_loop (script : list SockResult) (iovs : list bytes) (first count : nat) (left : Z)
    : option (bool * bytes * list SockResult) :=
  match script with
  | [] => None
  | SR_some n :: script =>
    let data := concat (take count (drop first iovs)) in
    let rc := taken n data in
    let left := left - Z.of_nat rc in
    if 0 <? left then
      let '(iovs, empty) := adjust iovs count (Z.of_nat rc) in
      '(err, sent, script) ← sendiov_loop script iovs (first + empty) (count - empty) left;
      Some (err, take rc data ++ sent, script)
    else Some (false, take rc data, script)
  | SR_interrupted :: script =>
    if 0 <? left then sendiov_loop script iovs first count left else Some (false, [], script)
  | SR_failed :: script => Some (true, [], script)
  end.

Definition sendiov (iovs : list bytes) (total_len : Z) (s : Socket) : option (bool * Socket) :=
  '(err, sent, script) ← sendiov_loop (so_sends s) iovs 0 (length iovs) total_len;
  Some (err, s <| so_sends := script |> <| so_sent ::= (fun o => o ++ sent) |>).

(** ** Requests *)

(** The loop over the output vectors: lengths, [rest] bytes of the response body. *)
Fixpoint receive_out (out : list Z) (rest : Z) (s : Socket) : option (bool * list bytes * Socket) :=
  match out with
  | [] => Some (false, [], s)
  | len :: out =>
    if 0 <? rest then
      let cur := if len <? rest then len else rest in
      '(err, data, s) ← recvAll cur s;
      if (err : bool) then Some (true, [data], s)
      else '(err, datas, s) ← receive_out out (rest - cur) s; Some (err, data :: datas, s)
    else Some (false, [], s)
  end.

(** [sendAndReceiveV]: the result, [*rc] (before: [rc]) and what was received for each output
    vector.  [copied] says that [in[0].iov_base] is not null, so that the vector is copied,
    [malloc] whether there is memory for it. *)
Definition sendAndReceiveV (cmd : Z) (ins : list bytes) (outs : list Z) (rc : Z) (copied malloc : bool) (s : Socket)
    : option (Z * Z * list bytes * Socket) :=
  let total_body_length := foldr (fun v n => Z.of_nat (length v) + n) 0 ins in
  let f := INIT_REQUEST_FRAME total_body_length cmd in
  if copied && negb malloc then Some (-1, rc, [], s)
  else
    '(err, s) ← sendiov (f :: ins) (total_body_length + FRAME_SIZE) s;
    if (err : bool) then Some (-1, rc, [], s)
    else
      '(err, f, s) ← recvAll FRAME_SIZE s;
      if (err : bool) || negb (frame_magic f =? SB_FRAME_MAGIC) then Some (-1, rc, [], s)
      else
        '(err, datas, s) ← receive_out outs (u32 (frame_fr_size f)) s;
        Some (if (err : bool) then -1 else 0, frame_code f, datas, s).

(** [sendAndReceive] with an argument object: its first [inputlen] bytes are sent, the response
    body overwrites its beginning. *)
Definition sendAndReceive (cmd : Z) (ptr : bytes) (inputlen outputlen : Z) (rc : Z) (s : Socket)
    : option (Z * Z * bytes * Socket) :=
  '(ret, rc, datas, s) ←
    sendAndReceiveV cmd [load 0 inputlen ptr] (if 0 <? outputlen then [outputlen] else []) rc false true s;
  let data := concat datas in
  Some (ret, rc, data ++ drop (length data) ptr, s).

(** ** [make_unix_path] *)

(** [sprintf("%d", n)] for numbers that are not negative. *)
Fixpoint digits (fuel : nat) (n : Z) (acc : bytes) : bytes :=
  match fuel with
  | O => acc
  | S fuel => if n <? 10 then (48 + n) :: acc else digits fuel (n / 10) ((48 + n mod 10) :: acc)
  end.

Definition sprintf_d (n : Z) : bytes := if n <? 0 then 45 :: digits 10 (- n) [] else digits 10 n [].

(** The abstract name of a pulse socket; [None] is the null pointer. *)
Definition make_unix_path (len pid chid : Z) : option bytes :=
  if 20 <? len then
    let name := 0 :: sprintf_d pid ++ 47 :: sprintf_d chid in
    Some (name ++ zeroed (len - Z.of_nat (length name)))
  else None.

(** ** The names of pulse sockets *)

(** Reading digits up to the first other character. *)
Fixpoint number (acc : Z) (s : bytes) : Z * bytes :=
  match s with
  | c :: s' => if (48 <=? c) && (c <=? 57) then number (acc * 10 + (c - 48)) s' else (acc, s)
  | [] => (acc, [])
  end.

Definition ends_number (s : bytes) : Prop := match s with c :: _ => c < 48 \/ 57 < c | [] => True end.

Lemma number_stop acc s : ends_number s -> number acc s = (acc, s).
Proof. destruct s as [|c s]; [done|]. cbn. intros Hc. by rewrite (proj2 (andb_false_iff _ _)) by (rewrite !Z.leb_gt; lia). Qed.

Lemma digits_app fuel n acc s : digits fuel n (acc ++ s) = digits fuel n acc ++ s.
Proof.
  revert n acc. induction fuel as [|fuel IH]; intros n acc; cbn [digits]; [done|].
  destruct (n <? 10); [done|]. rewrite <-IH. done.
Qed.

Lemma number_digits fuel n acc s :
  0 <= n < 10 ^ Z.of_nat fuel ->
  exists d, digits fuel n acc = d ++ acc /\ Forall (fun c => 48 <= c <= 57) d /\
    forall k, number k (d ++ s) = number (k * 10 ^ Z.of_nat (length d) + n) s.
Proof.
  revert n acc s. induction fuel as [|fuel IH]; intros n acc s Hn; [exists []; cbn in *; split_and!; [done..|]; intros k; f_equal; lia|].
  cbn [digits]. destruct (n <? 10) eqn:E; reflect_bools.
  - exists [48 + n]. split_and!; [done|by repeat constructor; lia|]. intros k.
    cbn [app number length]. rewrite (proj2 (Z.leb_le 48 _)), (proj2 (Z.leb_le _ 57)) by lia.
    cbn [andb]. f_equal. change (10 ^ Z.of_nat 1) with 10. lia.
  - rewrite Nat2Z.inj_succ, Z.pow_succ_r in Hn by lia.
    pose proof (Z.mod_pos_bound n 10 ltac:(lia)). pose proof (Z.div_mod n 10 ltac:(lia)).
    destruct (IH (n / 10) ((48 + n mod 10) :: acc) ((48 + n mod 10) :: s)) as (d & E1 & Hd & Hk).
    { split; [apply Z.div_pos; lia|apply Z.div_lt_upper_bound; lia]. }
    exists (d ++ [48 + n mod 10]). rewrite E1, <-!app_assoc. split_and!; [done| |].
    + apply Forall_app. split; [done|]. repeat constructor; lia.
    + intros k. cbn [app]. rewrite Hk. cbn [number].
      rewrite (proj2 (Z.leb_le 48 _)), (proj2 (Z.leb_le _ 57)) by lia. cbn [andb]. f_equal.
      rewrite length_app, Nat2Z.inj_add, Z.pow_add_r by lia. change (10 ^ Z.of_nat (length [48 + n mod 10])) with 10. lia.
Qed.

(** The number [sprintf_d] prints can be read back. *)
Lemma number_sprintf_d n s :
  0 <= n < 2 ^ 31 -> ends_number s -> number 0 (sprintf_d n ++ s) = (n, s).
Proof.
  intros Hn Hs. unfold sprintf_d. rewrite (proj2 (Z.ltb_ge n 0)) by lia.
  destruct (number_digits 10 n [] s) as (d & -> & _ & Hk); [change (10 ^ Z.of_nat 10) with 10000000000; lia|].
  rewrite app_nil_r, Hk, Z.mul_0_l. by apply number_stop.
Qed.

(** Different pulse sockets have different names. *)
Lemma make_unix_path_inj len pid chid pid' chid' :
  20 < len -> 0 <= pid < 2 ^ 31 -> 0 <= chid < 2 ^ 31 -> 0 <= pid' < 2 ^ 31 -> 0 <= chid' < 2 ^ 31 ->
  make_unix_path len pid chid = make_unix_path len pid' chid' -> pid = pid' /\ chid = chid'.
Proof.
  intros Hl H1 H2 H3 H4. unfold make_unix_path. rewrite (proj2 (Z.ltb_lt 20 len)) by done.
  cbn zeta. cbn [app]. rewrite <-!app_assoc. cbn [app]. intros E. injection E as E.
  set (z := zeroed _) in E at 1. set (z' := zeroed _) in E.
  assert (forall k, ends_number (zeroed k)) as Hz by (intros k; unfold zeroed; destruct (Z.to_nat k); cbn; lia).
  pose proof (f_equal (number 0) E) as En. rewrite !number_sprintf_d in En by (done || (cbn; lia)).
  injection En as -> En. split; [done|].
  pose proof (f_equal (number 0) En) as Em. rewrite !number_sprintf_d in Em by (done || apply Hz).
  by injection Em as ->.
Qed.

(** ** Healthy sockets

    No call fails, and every call that is not interrupted moves at least one byte. *)

Definition healthy (script : list SockResult) : Prop :=
  Forall (fun r => match r with SR_some n => 1 <= n | SR_interrupted => True | SR_failed => False end) script.

(** How many calls move something. *)
Fixpoint moves (script : list SockResult) : Z :=
  match script with
  | [] => 0
  | SR_some _ :: script => 1 + moves script
  | _ :: script => moves script
  end.

Lemma moves_nonneg script : 0 <= moves script.
Proof. induction script as [|[] script IH]; cbn [moves]; lia. Qed.

Lemma take_drop_app {A} (l : list A) n : take n l ++ drop n l = l.
Proof. apply take_drop. Qed.

Lemma recv_loop_spec script len incoming :
  healthy script -> 0 < len -> len <= Z.of_nat (length incoming) -> len <= moves script ->
  exists script', recv_loop script len incoming =
      Some (false, load 0 len incoming, drop (Z.to_nat len) incoming, script') /\
    healthy script' /\ moves script - len <= moves script'.
Proof.
  revert len incoming. induction script as [|r script IH]; intros len incoming Hh Hl Hin Hm; [cbn in Hm; lia|].
  apply Forall_cons_1 in Hh as [Hr Hh]. destruct r as [n| |]; cbn [recv_loop moves] in *; [| |done].
  - unfold recv_count. rewrite (proj2 (Z.eqb_neq n 0)) by lia.
    destruct incoming as [|b incoming'] eqn:Ei; [cbn in Hin; lia|]. rewrite <-Ei in *.
    cbn [mbind option_bind]. set (rc := Z.of_nat (Nat.min (taken n incoming) (Z.to_nat len))).
    assert (1 <= rc <= len /\ rc <= Z.of_nat (length incoming)) as [Hrc Hrc2].
    { unfold rc, taken. rewrite Ei in *. cbn [length] in *. lia. }
    rewrite (proj2 (Z.eqb_neq rc 0)) by lia.
    assert (length (load 0 rc incoming) = Z.to_nat rc) as Hd.
    { apply Nat2Z.inj. rewrite length_load; lia. }
    rewrite Hd. destruct (rc <? len) eqn:E; reflect_bools.
    + destruct (IH (len - rc) (drop (Z.to_nat rc) incoming) Hh) as (script' & -> & Hh' & Hm'); try lia.
      { rewrite length_drop. lia. }
      exists script'. cbn [mbind option_bind]. split_and!; [|done|lia].
      rewrite drop_drop. do 3 f_equal; [|do 2 f_equal; lia].
      f_equal. replace len with (rc + (len - rc)) at 2 by lia.
      unfold load. rewrite !drop_0, Z2Nat.inj_add by lia. apply take_take_drop.
    + replace rc with len in * by lia. exists script. by split_and!; [|done|lia].
  - rewrite (proj2 (Z.ltb_lt 0 len)) by lia. apply IH; try done.
Qed.

Lemma recvAll_spec len s :
  healthy (so_recvs s) -> 0 < len -> len <= Z.of_nat (length (so_incoming s)) -> len <= moves (so_recvs s) ->
  exists script', recvAll len s = Some (false, load 0 len (so_incoming s),
      s <| so_recvs := script' |> <| so_incoming := drop (Z.to_nat len) (so_incoming s) |>) /\
    healthy script' /\ moves (so_recvs s) - len <= moves script'.
Proof.
  intros Hh Hl Hi Hm. destruct (recv_loop_spec _ _ _ Hh Hl Hi Hm) as (script' & E & H1 & H2).
  exists script'. unfold recvAll. by rewrite E.
Qed.

Lemma send_loop_spec script data :
  healthy script -> (length data <= Z.to_nat (moves script))%nat -> data <> [] ->
  exists script', send_loop script data = Some (false, data, script') /\ healthy script'.
Proof.
  revert data. induction script as [|r script IH]; intros data Hh Hm Hne; [destruct data; [done|cbn in Hm; lia]|].
  apply Forall_cons_1 in Hh as [Hr Hh]. pose proof (moves_nonneg script).
  destruct r as [n| |]; cbn [send_loop moves] in *; [|destruct data; [done|by apply IH]|done].
  destruct (drop (taken n data) data) as [|b rest] eqn:E; [by exists script|].
  destruct (IH (b :: rest) Hh) as (script' & -> & Hh'); [|done|].
  - rewrite <-E, length_drop. destruct data; [done|]. unfold taken. cbn [length] in *. lia.
  - exists script'. split; [|done]. cbn [mbind option_bind]. by rewrite <-E, take_drop.
Qed.

(** [sendAll] sends everything, however the kernel cuts it. *)
Lemma sendAll_spec data s :
  healthy (so_sends s) -> Z.of_nat (length data) <= moves (so_sends s) -> data <> [] ->
  exists script', sendAll data s = Some (false, s <| so_sends := script' |> <| so_sent ::= (fun o => o ++ data) |>) /\
    healthy script'.
Proof.
  intros Hh Hm Hne. destruct (send_loop_spec (so_sends s) data Hh) as (script' & E & Hh'); [lia|done|].
  exists script'. unfold sendAll. by rewrite E.
Qed.

(** ** When [sendiov] works

    The array is adjusted from its beginning, not from [msg_iov] on.  That is right as
    long as the calls stay within the first element, and after the first call that
    goes beyond it the next one must take everything. *)

Fixpoint takes_all (left : Z) (script : list SockResult) : bool :=
  match script with
  | SR_some n :: _ => left <=? n
  | SR_interrupted :: script => takes_all left script
  | _ => false
  end.

(** [first] and [rest]: the bytes left of the first element and of the others. *)
Fixpoint cuts_once (first rest : Z) (script : list SockResult) : bool :=
  match script with
  | SR_some n :: script =>
    if first + rest <=? n then true
    else if n <? first then cuts_once (first - Z.max 0 n) rest script
    else takes_all (first + rest - n) script
  | SR_interrupted :: script => cuts_once first rest script
  | _ => false
  end.

Lemma taken_all n data : Z.of_nat (length data) <= n -> taken n data = length data.
Proof. unfold taken. lia. Qed.

Lemma sendiov_last script iovs first count left :
  takes_all left script = true -> 0 < left ->
  Z.of_nat (length (concat (take count (drop first iovs)))) = left ->
  exists script', sendiov_loop script iovs first count left =
    Some (false, concat (take count (drop first iovs)), script').
Proof.
  induction script as [|r script IH]; intros Ht Hl Hlen; [done|]. destruct r as [n| |]; cbn [takes_all sendiov_loop] in *; [| |done].
  - reflect_bools. rewrite taken_all by lia. rewrite Hlen, (proj2 (Z.ltb_ge 0 _)) by lia.
    exists script. by rewrite take_ge by lia.
  - rewrite (proj2 (Z.ltb_lt 0 left)) by lia. by apply IH.
Qed.

Lemma sendiov_two script f v :
  cuts_once (Z.of_nat (length f)) (Z.of_nat (length v)) script = true -> f <> [] ->
  exists script', sendiov_loop script [f; v] 0 2 (Z.of_nat (length f) + Z.of_nat (length v)) =
    Some (false, f ++ v, script').
Proof.
  revert f. induction script as [|r script IH]; intros f Hc Hne; [done|].
  assert (0 < Z.of_nat (length f)) as Hpos by (destruct f; [done|cbn [length]; lia]).
  destruct r as [n| |]; cbn [cuts_once sendiov_loop] in *; [| |done].
  - change (concat (take 2 (drop 0 [f; v]))) with (f ++ v ++ []). rewrite app_nil_r.
    destruct (_ <=? n) eqn:E; reflect_bools.
    + rewrite taken_all by (rewrite length_app; lia). rewrite length_app.
      rewrite (proj2 (Z.ltb_ge 0 _)) by lia. exists script. by rewrite take_ge by (rewrite length_app; lia).
    + assert (taken n (f ++ v) = Z.to_nat n) as Htk by (unfold taken; rewrite length_app; lia).
      rewrite Htk. rewrite (proj2 (Z.ltb_lt 0 _)) by lia.
      destruct (n <? Z.of_nat (length f)) eqn:E2; reflect_bools.
      * (* within the first element *)
        assert (adjust [f; v] 2 (Z.of_nat (Z.to_nat n)) = ([drop (Z.to_nat n) f; v], O)) as ->.
        { cbn [adjust]. destruct (0 <? Z.of_nat (Z.to_nat n)) eqn:E3; reflect_bools.
          - rewrite (proj2 (Z.ltb_lt _ _)) by lia. by rewrite Nat2Z.id.
          - by replace (Z.to_nat n) with O by lia. }
        cbn [Nat.add Nat.sub]. destruct (IH (drop (Z.to_nat n) f)) as (script' & Hs).
        { rewrite length_drop. by replace (Z.of_nat (length f - Z.to_nat n)) with (Z.of_nat (length f) - Z.max 0 n) by lia. }
        { intros Hd. apply (f_equal length) in Hd. rewrite length_drop in Hd. cbn in Hd. lia. }
        exists script'. rewrite length_drop in Hs.
        replace (Z.of_nat (length f) + Z.of_nat (length v) - Z.of_nat (Z.to_nat n))
          with (Z.of_nat (length f - Z.to_nat n) + Z.of_nat (length v)) by lia.
        rewrite Hs. cbn [mbind option_bind]. rewrite take_app_le by lia.
        by rewrite app_assoc, take_drop.
      * (* into the second *)
        assert (adjust [f; v] 2 (Z.of_nat (Z.to_nat n)) = ([f; drop (Z.to_nat n - length f) v], S O)) as ->.
        { cbn [adjust]. rewrite (proj2 (Z.ltb_lt 0 _)), (proj2 (Z.ltb_ge _ _)) by lia.
          destruct (0 <? Z.of_nat (Z.to_nat n) - Z.of_nat (length f)) eqn:E4; reflect_bools.
          - rewrite (proj2 (Z.ltb_lt _ _)) by lia. do 3 f_equal. f_equal. lia.
          - by replace (Z.to_nat n - length f)%nat with O by lia. }
        cbn [Nat.add Nat.sub].
        destruct (sendiov_last script [f; drop (Z.to_nat n - length f) v] 1 1
          (Z.of_nat (length f) + Z.of_nat (length v) - Z.of_nat (Z.to_nat n))) as (script' & ->).
        { by replace (Z.of_nat (Z.to_nat n)) with n by lia. }
        { lia. }
        { cbn. rewrite app_nil_r, length_drop. lia. }
        exists script'. cbn [mbind option_bind concat take drop]. rewrite app_nil_r.
        rewrite take_app_ge by lia. by rewrite <-app_assoc, take_drop.
  - rewrite (proj2 (Z.ltb_lt 0 _)) by lia. by apply IH.
Qed.

(** What goes wrong otherwise: with two short calls the bytes of the second are sent
    again, and [sendiov] still reports success. *)
Lemma sendiov_repeats :
  sendiov_loop [SR_some 3; SR_some 1; SR_some 9] [[1; 2]; [3; 4; 5; 6]] 0 2 6 =
    Some (false, [1; 2; 3] ++ [4] ++ [4; 5; 6], []).
Proof. reflexivity. Qed.

(** Or nothing is sent any more, and the loop does not end. *)
Lemma sendiov_hangs k :
  sendiov_loop (SR_some 3 :: SR_some 2 :: replicate k (SR_some 9)) [[1; 2]; [3; 4; 5; 6]] 0 2 6 = None.
Proof.
  assert (forall iovs, sendiov_loop (replicate k (SR_some 9)) iovs 2 0 1 = None) as Hk.
  { induction k as [|k IH]; intros iovs; [done|].
    cbn [replicate sendiov_loop]. change (concat (take 0 (drop 2 iovs))) with (@nil Z). change (taken 9 []) with O.
    destruct iovs; cbn; by rewrite IH. }
  cbn [sendiov_loop]. cbv -[sendiov_loop replicate]. cbn [sendiov_loop]. cbv -[sendiov_loop replicate].
  by rewrite Hk.
Qed.

(** ** A call *)

(** A socket that behaves during a call with [inlen] bytes of argument and a response of
    [size] bytes. *)
Definition behaves (inlen size : Z) (s : Socket) : Prop :=
  cuts_once FRAME_SIZE inlen (so_sends s) = true /\ healthy (so_recvs s) /\
  FRAME_SIZE + size <= moves (so_recvs s).

Lemma begins_app_frame size code rest :
  load 0 16 (INIT_RESPONSE_FRAME size code ++ rest) = INIT_REQUEST_FRAME size code.
Proof. unfold load. by rewrite drop_0, take_app_le, take_ge. Qed.

Lemma sendAndReceive_spec cmd ptr inlen outlen rc size code body rest s :
  0 <= inlen <= Z.of_nat (length ptr) -> behaves inlen size s ->
  so_incoming s = INIT_RESPONSE_FRAME size code ++ body ++ rest ->
  Z.of_nat (length body) = size -> size < 2 ^ 31 -> size <= outlen ->
  exists s', sendAndReceive cmd ptr inlen outlen rc s = Some (0, i32 code, body ++ drop (length body) ptr, s') /\
    so_sent s' = so_sent s ++ INIT_REQUEST_FRAME inlen cmd ++ load 0 inlen ptr /\
    so_incoming s' = rest.
Proof.
  intros Hin (Hc & Hh & Hm) Hinc Hb Hsz Hout. unfold sendAndReceive, sendAndReceiveV. cbn [andb foldr].
  set (v := load 0 inlen ptr). assert (Z.of_nat (length v) = inlen) as Hv by (apply length_load; lia).
  rewrite Z.add_0_r, Hv. set (f := INIT_REQUEST_FRAME inlen cmd).
  assert (Z.of_nat (length f) = FRAME_SIZE) as Hf by apply request_frame_length.
  destruct (sendiov_two (so_sends s) f v) as (sends & Hs); [by rewrite Hf, Hv|by intros ?|].
  unfold sendiov. cbn [length]. rewrite (Z.add_comm inlen), <-Hf, <-Hv, Hs. cbn [mbind option_bind].
  rewrite Hf. set (s1 := s <| so_sends := sends |> <| so_sent ::= _ |>).
  change FRAME_SIZE with 16 in *.
  assert (Z.of_nat (length (so_incoming s)) = 16 + size + Z.of_nat (length rest)) as Hlen.
  { rewrite Hinc, !length_app, response_frame_eq, !Nat2Z.inj_add, request_frame_length, Hb. change FRAME_SIZE with 16. lia. }
  destruct (recvAll_spec 16 s1) as (r1 & -> & Hh1 & Hm1); [exact Hh|lia| |change (so_recvs s1) with (so_recvs s); lia|].
  { change (so_incoming s1) with (so_incoming s). lia. }
  cbn [mbind option_bind orb]. change (so_incoming s1) with (so_incoming s). change (so_recvs s1) with (so_recvs s) in *.
  assert (load 0 16 (so_incoming s) = INIT_REQUEST_FRAME size code ++ []) as ->.
  { rewrite Hinc, app_nil_r. apply (begins_app_frame size code). }
  destruct (frame_fields size code []) as (-> & -> & ->). rewrite Z.eqb_refl. cbn [negb].
  assert (0 <= size) as Hsz0 by lia. rewrite (i32_small size), (u32_id size) by (unfold is_u32; lia).
  assert (drop (Z.to_nat 16) (so_incoming s) = body ++ rest) as Hrest.
  { rewrite Hinc. by apply drop_app_length'. }
  set (s2 := s1 <| so_recvs := r1 |> <| so_incoming := _ |>).
  destruct (0 <? outlen) eqn:Eo; reflect_bools.
  - cbn [receive_out]. destruct (0 <? size) eqn:Es; reflect_bools.
    + replace (if outlen <? size then outlen else size) with size by (case_match; reflect_bools; lia).
      destruct (recvAll_spec size s2) as (r2 & -> & _); [exact Hh1|done| |change (so_recvs s2) with r1; lia|].
      { change (so_incoming s2) with (drop (Z.to_nat 16) (so_incoming s)). rewrite Hrest, length_app. lia. }
      cbn [mbind option_bind]. change (so_incoming s2) with (drop (Z.to_nat 16) (so_incoming s)). rewrite Hrest.
      assert (load 0 size (body ++ rest) = body) as ->.
      { unfold load. rewrite drop_0, take_app_le, take_ge by lia. done. }
      eexists. cbn [concat]. rewrite app_nil_r. split_and!; [reflexivity|reflexivity|].
      cbn. rewrite drop_app_ge by lia. by replace (Z.to_nat size - length body)%nat with O by lia.
    + assert (body = []) as -> by (destruct body; [done|cbn [length] in Hb; lia]).
      exists s2. by split_and!.
  - assert (body = []) as -> by (destruct body; [done|cbn [length] in Hb; lia]).
    exists s2. cbn [receive_out mbind option_bind concat app length]. by split_and!.
Qed.
