(* ===== verification/ClientLib.v ===== *)
(** The library applications call the servicebroker with: [src/servicebroker/clientlib.c].

    A call fills the argument of its command in memory, sends it and picks the results
    out of the answer.  The arguments are the bytes of the union, written at the offsets
    of [Layout].  An output parameter is an option: [None] where the function leaves the
    caller's variable alone.  A null pointer is [None] too; the other output pointers
    are not null.  A computation returns [None] when the call never returns or writes
    outside of an object. *)

From S2P Require Import Prelude.
From S2P Require Import Layout.
From S2P Require Import Types.
From S2P Require Import Wire.
From S2P Require Import AutoBuffer.
From S2P Require Import ClientIo.

(** ** A monad for the calls *)

Definition Io (A : Type) : Type := Socket -> option (A * Socket).

#[export] Instance Io_ret : MRet Io := fun A a s => Some (a, s).
#[export] Instance Io_bind : MBind Io := fun A B k m s => '(a, s) ← m s; k a s.

(** A computation on memory. *)
Definition in_memory {A} (m : option A) : Io A := fun s => a ← m; Some (a, s).

(** ** Filling the argument *)

Definition INIT_ARGUMENT (c : dcmd) : option bytes :=
  store 0 (to_mem sb_version) (zeroed (sizeof (arg_union c))).

(** A write to member [i] of [arg.i]. *)
Definition put (c : dcmd) (i : nat) (data m : bytes) : option bytes :=
  store (field_offset (arg_i c) i) data m.

Definition put_version (off major minor : Z) (m : bytes) : option bytes :=
  m ← store off (u16_mem major) m; store (off + 2) (u16_mem minor) m.

(** The offset of [name] in a description. *)
Definition name_offset : Z := field_offset lay_SFNDInterfaceDescription 1.

(** [FILL_DESCRIPTION] on the description at member [i]. *)
Definition FILL_DESCRIPTION (c : dcmd) (i : nat) (ifname : bytes) (major minor : Z) (m : bytes) : option bytes :=
  let descr := field_offset (arg_i c) i in
  m ← store (descr + name_offset) (strncpy (Z.to_nat (NAME_MAX + 1)) ifname) m;
  put_version descr major minor m.

(** [strcat] to the string that begins at [off]. *)
Definition strcat (off : Z) (s m : bytes) : option bytes :=
  store (off + Z.of_nat (length (cstr (drop (Z.to_nat off) m)))) (s ++ [0]) m.

(** [FILL_DESCRIPTION_TCP]. *)
Definition FILL_DESCRIPTION_TCP (c : dcmd) (i : nat) (ifname : bytes) (major minor : Z) (m : bytes) : option bytes :=
  let descr := field_offset (arg_i c) i in
  m ← store (descr + name_offset) (strncpy (Z.to_nat (NAME_MAX + 1 - 4)) ifname) m;
  m ← strcat (descr + name_offset) tcp_suffix m;
  put_version descr major minor m.

Definition put_pulse (c : dcmd) (i : nat) (pid chid code value : Z) (m : bytes) : option bytes :=
  let p j := field_offset (arg_i c) i + field_offset lay_SFNDPulseInfo j in
  m ← store (p 2%nat) (u32_mem chid) m;
  m ← store (p 3%nat) (u32_mem pid) m;
  m ← store (p 0%nat) (u32_mem code) m;
  store (p 1%nat) (u32_mem value) m.

(** ** Calling *)

(** [sendAndReceive] of [arg.i]: result, return code and the argument afterwards. *)
Definition transact (c : dcmd) (arg : bytes) (outputlen rc : Z) : Io (Z * Z * bytes) := fun s =>
  '(ret, rc, m, s) ← sendAndReceive (dcmd_code c) arg (sizeof (arg_i c)) outputlen rc s;
  Some ((ret, rc, m), s).

(** Member [i] of [arg.o]. *)
Definition answer (c : dcmd) (i : nat) (m : bytes) : bytes := field (arg_o c) i m.

(** The common end of most calls: the output is written when everything went well. *)
Definition finish {A} (r : Z * Z * bytes) (out : bytes -> A) : Z * option A :=
  let '(ret, rc, m) := r in (rc, if (ret =? 0) && (rc =? 0) then Some (out m) else None).

Section clientlib.

(** [getpid()] and [getgrnam(name)->gr_gid]. *)
Variable getpid : Z.
Variable getgrnam : bytes -> option Z.

(** [SB_UNKNOWN_GROUP_ID], [ENOENT] and the like are not looked at by the caller. *)
Definition failed {A} : Io (Z * option A) := mret (-1, None).

(** ** Registering *)

Definition register_arg (ifName : bytes) (majorVersion minorVersion chid : Z) : option bytes :=
  let c := DCMD_FND_REGISTER_INTERFACE in
  m ← INIT_ARGUMENT c;
  m ← FILL_DESCRIPTION c 1 ifName majorVersion minorVersion m;
  m ← put c 3 (u32_mem chid) m;
  put c 4 (u32_mem getpid) m.

Definition SBRegisterInterface (ifName : option bytes) (majorVersion minorVersion chid : Z) : Io (Z * option SPartyID) :=
  match ifName with
  | Some ifName =>
    arg ← in_memory (register_arg ifName majorVersion minorVersion chid);
    r ← transact DCMD_FND_REGISTER_INTERFACE arg (sizeof (arg_o DCMD_FND_REGISTER_INTERFACE)) (-1);
    mret (finish r (fun m => of_mem (answer DCMD_FND_REGISTER_INTERFACE 0 m)))
  | None => failed
  end.

Definition register_tcp_arg (ifName : bytes) (majorVersion minorVersion ipaddress port : Z) : option bytes :=
  let c := DCMD_FND_REGISTER_INTERFACE in
  m ← INIT_ARGUMENT c;
  m ← FILL_DESCRIPTION_TCP c 1 ifName majorVersion minorVersion m;
  m ← put c 3 (u32_mem port) m;
  put c 4 (u32_mem ipaddress) m.

Definition SBRegisterInterfaceTCP (ifName : option bytes) (majorVersion minorVersion ipaddress port : Z)
    : Io (Z * option SPartyID) :=
  match ifName with
  | Some ifName =>
    arg ← in_memory (register_tcp_arg ifName majorVersion minorVersion ipaddress port);
    r ← transact DCMD_FND_REGISTER_INTERFACE arg (sizeof (arg_o DCMD_FND_REGISTER_INTERFACE)) (-1);
    mret (finish r (fun m => of_mem (answer DCMD_FND_REGISTER_INTERFACE 0 m)))
  | None => failed
  end.

Definition register_group_arg (ifName : bytes) (majorVersion minorVersion chid grpid : Z) : option bytes :=
  let c := DCMD_FND_REGISTER_INTERFACE_GROUPID in
  m ← INIT_ARGUMENT c;
  m ← FILL_DESCRIPTION c 1 ifName majorVersion minorVersion m;
  m ← put c 3 (u32_mem chid) m;
  m ← put c 4 (u32_mem getpid) m;
  put c 5 (u32_mem grpid) m.

Definition SBRegisterGroupInterface (ifName : option bytes) (majorVersion minorVersion chid : Z)
    (groupName : option bytes) : Io (Z * option SPartyID) :=
  let call ifName grpid :=
    arg ← in_memory (register_group_arg ifName majorVersion minorVersion chid grpid);
    r ← transact DCMD_FND_REGISTER_INTERFACE_GROUPID arg
      (sizeof (arg_o DCMD_FND_REGISTER_INTERFACE_GROUPID)) (-1);
    mret (finish r (fun m => of_mem (answer DCMD_FND_REGISTER_INTERFACE_GROUPID 0 m))) in
  match ifName, groupName with
  | Some ifName, Some groupName =>
    match getgrnam groupName with
    | Some gid => call ifName gid
    | None => failed
    end
  | Some ifName, None => call ifName SB_UNKNOWN_GROUP_ID
  | None, _ => failed
  end.

(** The fixed part of [SBRegisterInterfaceEx]; [count] is [descrCount]. *)
Definition registerEx_arg (chid pid count : Z) : option bytes :=
  let c := DCMD_FND_REGISTER_INTERFACE_EX in
  m ← INIT_ARGUMENT c;
  m ← put c 2 (u32_mem chid) m;
  m ← put c 3 (u32_mem pid) m;
  put c 4 (u32_mem count) m.

(** The array [serverId] points to, as many elements as were received. *)
Definition server_ids (count : nat) (m : bytes) : list SPartyID :=
  map (fun k => of_mem (load (Z.of_nat k * sizeof lay_SPartyID) (sizeof lay_SPartyID) m))
    (seq 0 (Nat.min count (Z.to_nat (Z.of_nat (length m) / sizeof lay_SPartyID)))).

(** [sendAndReceiveV] with the argument and the descriptions; the result is [*rc]. *)
Definition register_all (arg : bytes) (descrs : list SFNDInterfaceDescription) (malloc : bool)
    : Io (Z * list SPartyID) := fun s =>
  '(_, rc, datas, s) ← sendAndReceiveV (dcmd_code DCMD_FND_REGISTER_INTERFACE_EX)
    [load 0 (sizeof (arg_i DCMD_FND_REGISTER_INTERFACE_EX)) arg; concat (to_mem <$> descrs)]
    [Z.of_nat (length descrs) * sizeof lay_SPartyID] (-1) true malloc s;
  Some ((rc, server_ids (length descrs) (concat datas)), s).

Definition SBRegisterInterfaceEx (ifDescr : option (list SFNDInterfaceDescription)) (chid : Z) (malloc : bool)
    : Io (Z * list SPartyID) :=
  match ifDescr with
  | Some descrs =>
    arg ← in_memory (registerEx_arg chid getpid (Z.of_nat (length descrs)));
    register_all arg descrs malloc
  | None => mret (-1, [])
  end.

(** The loop that appends [_tcp]: a name that is too long is invalidated. *)
Definition tcp_description (d : SFNDInterfaceDescription) : SFNDInterfaceDescription :=
  let name := cstr (sd_name d) in
  mkSFNDDescr (sd_version d)
    (if Z.of_nat (length name) <=? NAME_MAX - 4
     then name ++ tcp_suffix ++ [0] ++ drop (length name + 5) (sd_name d)
     else 0 :: drop 1 (sd_name d)).

Definition SBRegisterInterfaceExTCP (ifDescr : option (list SFNDInterfaceDescription)) (ipaddress port : Z)
    (malloc : bool) : Io (Z * list SPartyID) :=
  match ifDescr with
  | Some (d :: descrs) =>
    arg ← in_memory (registerEx_arg port ipaddress (Z.of_nat (length (d :: descrs))));
    register_all arg (tcp_description <$> d :: descrs) malloc
  | _ => mret (-1, [])
  end.

Definition party_arg (c : dcmd) (id : SPartyID) : option bytes :=
  m ← INIT_ARGUMENT c; put c 2 (to_mem id) m.

Definition SBUnregisterInterface (serverId : SPartyID) : Io Z :=
  arg ← in_memory (party_arg DCMD_FND_UNREGISTER_INTERFACE serverId);
  '(_, rc, _) ← transact DCMD_FND_UNREGISTER_INTERFACE arg 0 (-1);
  mret rc.

(** ** Attaching *)

Definition description_arg (c : dcmd) (ifName : bytes) (majorVersion minorVersion : Z) : option bytes :=
  m ← INIT_ARGUMENT c; FILL_DESCRIPTION c 1 ifName majorVersion minorVersion m.

Definition SBAttachInterface (ifName : option bytes) (majorVersion minorVersion : Z) : Io (Z * option SConnectionInfo) :=
  match ifName with
  | Some ifName =>
    arg ← in_memory (description_arg DCMD_FND_ATTACH_INTERFACE ifName majorVersion minorVersion);
    r ← transact DCMD_FND_ATTACH_INTERFACE arg (sizeof (arg_o DCMD_FND_ATTACH_INTERFACE)) (-1);
    mret (finish r of_mem)
  | None => failed
  end.

Definition attachExtended_arg (ifName : bytes) (majorVersion minorVersion chid code value : Z) : option bytes :=
  let c := DCMD_FND_ATTACH_INTERFACE_EXTENDED in
  m ← INIT_ARGUMENT c;
  m ← put_pulse c 1 getpid chid code value m;
  FILL_DESCRIPTION c 2 ifName majorVersion minorVersion m.

(** The return code is not looked at before the outputs are written. *)
Definition SBAttachInterfaceExtended (ifName : option bytes) (majorVersion minorVersion chid code value : Z)
    : Io (Z * option (SConnectionInfo * Z)) :=
  let c := DCMD_FND_ATTACH_INTERFACE_EXTENDED in
  match ifName with
  | Some ifName =>
    arg ← in_memory (attachExtended_arg ifName majorVersion minorVersion chid code value);
    '(ret, rc, m) ← transact c arg (sizeof (arg_o c)) (-1);
    mret (rc, if ret =? 0 then Some (of_mem (answer c 0 m), u_of (answer c 1 m)) else None)
  | None => failed
  end.

Definition SBGetServerInformation (ifName : option bytes) (majorVersion minorVersion : Z) : Io (Z * option SServerInfo) :=
  match ifName with
  | Some ifName =>
    arg ← in_memory (description_arg DCMD_FND_GET_SERVER_INFORMATION ifName majorVersion minorVersion);
    r ← transact DCMD_FND_GET_SERVER_INFORMATION arg (sizeof (arg_o DCMD_FND_GET_SERVER_INFORMATION)) (-1);
    mret (finish r of_mem)
  | None => failed
  end.

Definition attach_tcp_arg (ifName : bytes) (majorVersion minorVersion : Z) : option bytes :=
  m ← INIT_ARGUMENT DCMD_FND_ATTACH_INTERFACE;
  FILL_DESCRIPTION_TCP DCMD_FND_ATTACH_INTERFACE 1 ifName majorVersion minorVersion m.

Definition SBAttachInterfaceTCP (ifName : option bytes) (majorVersion minorVersion : Z)
    : Io (Z * option STCPConnectionInfo) :=
  match ifName with
  | Some ifName =>
    arg ← in_memory (attach_tcp_arg ifName majorVersion minorVersion);
    r ← transact DCMD_FND_ATTACH_INTERFACE arg (sizeof (arg_o DCMD_FND_ATTACH_INTERFACE)) (-1);
    mret (finish r (fun m =>
      let o : SConnectionInfo := of_mem m in
      mkTCPConnInfo (ci_ifVersion o) (u32 (ch_pid (ci_channel o))) (u16 (ch_chid (ci_channel o)))
        (ci_serverID o) (ci_clientID o)))
  | None => failed
  end.

Definition SBDetachInterface (clientId : SPartyID) : Io Z :=
  arg ← in_memory (party_arg DCMD_FND_DETACH_INTERFACE clientId);
  '(_, rc, _) ← transact DCMD_FND_DETACH_INTERFACE arg 0 (-1);
  mret rc.

(** ** Notifications *)

Definition notification_of (c : dcmd) (r : Z * Z * bytes) : Z * option Z := finish r (fun m => u_of (answer c 0 m)).

Definition party_pulse_arg (c : dcmd) (id : SPartyID) (chid code value : Z) : option bytes :=
  m ← INIT_ARGUMENT c;
  m ← put c 2 (to_mem id) m;
  put_pulse c 3 getpid chid code value m.

Definition SBSetClientDetachNotification (clientID : SPartyID) (chid code value : Z) : Io (Z * option Z) :=
  let c := DCMD_FND_NOTIFY_CLIENT_DETACH in
  arg ← in_memory (party_pulse_arg c clientID chid code value);
  r ← transact c arg (sizeof (arg_o c)) (-1);
  mret (notification_of c r).

Definition serverAvailable_arg (ifName : bytes) (majorVersion minorVersion chid code value : Z) : option bytes :=
  let c := DCMD_FND_NOTIFY_SERVER_AVAILABLE in
  m ← INIT_ARGUMENT c;
  m ← FILL_DESCRIPTION c 2 ifName majorVersion minorVersion m;
  put_pulse c 1 getpid chid code value m.

Definition SBSetServerAvailableNotification (ifName : option bytes) (majorVersion minorVersion chid code value : Z)
    : Io (Z * option Z) :=
  let c := DCMD_FND_NOTIFY_SERVER_AVAILABLE in
  match ifName with
  | Some ifName =>
    arg ← in_memory (serverAvailable_arg ifName majorVersion minorVersion chid code value);
    r ← transact c arg (sizeof (arg_o c)) (-1);
    mret (notification_of c r)
  | None => failed
  end.

Definition SBSetServerDisconnectNotification (serverID : SPartyID) (chid code value : Z) : Io (Z * option Z) :=
  let c := DCMD_FND_NOTIFY_SERVER_DISCONNECT in
  arg ← in_memory (party_pulse_arg c serverID chid code value);
  r ← transact c arg (sizeof (arg_o c)) (-1);
  mret (notification_of c r).

Definition clear_arg (notificationID : Z) : option bytes :=
  m ← INIT_ARGUMENT DCMD_FND_CLEAR_NOTIFICATION;
  put DCMD_FND_CLEAR_NOTIFICATION 1 (u32_mem notificationID) m.

Definition SBClearNotification (notificationID : Z) : Io Z :=
  arg ← in_memory (clear_arg notificationID);
  '(_, rc, _) ← transact DCMD_FND_CLEAR_NOTIFICATION arg 0 (-1);
  mret rc.

Definition listChange_arg (chid code value : Z) : option bytes :=
  let c := DCMD_FND_NOTIFY_INTERFACELIST_CHANGE in
  m ← INIT_ARGUMENT c; put_pulse c 1 getpid chid code value m.

Definition SBSetInterfaceListChangeNotification (chid code value : Z) : Io (Z * option Z) :=
  let c := DCMD_FND_NOTIFY_INTERFACELIST_CHANGE in
  arg ← in_memory (listChange_arg chid code value);
  r ← transact c arg (sizeof (arg_o c)) (-1);
  mret (notification_of c r).

Definition matchChange_arg (regExpr : option bytes) (chid code value : Z) : option bytes :=
  let c := DCMD_FND_NOTIFY_INTERFACELIST_MATCH in
  m ← INIT_ARGUMENT c;
  m ← put_pulse c 1 getpid chid code value m;
  match regExpr with
  | Some re => put c 2 (strncpy (Z.to_nat (NAME_MAX + 1)) re) m
  | None => Some m
  end.

Definition SBSetInterfaceMatchChangeNotification (regExpr : option bytes) (chid code value : Z) : Io (Z * option Z) :=
  let c := DCMD_FND_NOTIFY_INTERFACELIST_MATCH in
  arg ← in_memory (matchChange_arg regExpr chid code value);
  r ← transact c arg (sizeof (arg_o c)) (-1);
  mret (notification_of c r).

(** ** Lists

    The argument is built in the caller's array [ifs], given as its memory; the result is
    the return code, [*outCount] if it is written, and the array. *)

(** [INIT_ARGUMENT( *arg )] in the memory of the caller. *)
Definition init_in_place (c : dcmd) (ifs : bytes) : option bytes :=
  m ← store 0 (zeroed (sizeof (arg_union c))) ifs; store 0 (to_mem sb_version) m.

(** The end of both functions. *)
Definition list_result (r : Z * Z * bytes) : Z * option Z * bytes :=
  let '(rc, opt, ifs) := r in
  if rc =? 0 then if opt <? 0 then (0, Some (- opt), ifs) else (opt, None, ifs) else (rc, None, ifs).

Definition getInterfaceList_arg (ifs : bytes) (inCount : Z) : option bytes :=
  let c := DCMD_FND_GET_INTERFACELIST in
  m ← init_in_place c ifs; put c 1 (u32_mem inCount) m.

Definition SBGetInterfaceList (ifs : bytes) (inCount : Z) : Io (Z * option Z * bytes) :=
  if 0 <? inCount then
    arg ← in_memory (getInterfaceList_arg ifs inCount);
    r ← transact DCMD_FND_GET_INTERFACELIST arg (sizeof lay_SFNDInterfaceDescription * inCount) 0;
    mret (list_result r)
  else mret (-1, None, ifs).

Definition matchInterfaceList_arg (regExpr : option bytes) (ifs : bytes) (inCount : Z) : option bytes :=
  let c := DCMD_FND_MATCH_INTERFACELIST in
  m ← init_in_place c ifs;
  m ← put c 1 (u32_mem inCount) m;
  match regExpr with
  | Some re => put c 2 (strncpy (Z.to_nat (NAME_MAX + 1)) re) m
  | None => Some m
  end.

Definition SBMatchInterfaceList (regExpr : option bytes) (ifs : bytes) (inCount : Z) : Io (Z * option Z * bytes) :=
  if 0 <? inCount then
    arg ← in_memory (matchInterfaceList_arg regExpr ifs inCount);
    r ← transact DCMD_FND_MATCH_INTERFACELIST arg (sizeof lay_SFNDInterfaceDescription * inCount) 0;
    mret (list_result r)
  else mret (-1, None, ifs).

Definition SBGetDSIVersion : SFNDInterfaceVersion := sb_version.

(** ** Opening the connection *)

Definition UNIX_PATH_MAX : Z := 108.
Definition FND_SERVICEBROKER_ROOT : bytes := bytes_of_string "/var/run/servicebroker/".

(** The path [SBOpen] connects to: [SB_PATH] of the environment wins; [None] when there is
    none or it is too long. *)
Definition SBOpen_path (envpath filename : option bytes) : option bytes :=
  let filename := match envpath with Some p => Some p | None => filename end in
  f ← filename;
  if Z.of_nat (length f + length FND_SERVICEBROKER_ROOT) <? UNIX_PATH_MAX
  then Some (FND_SERVICEBROKER_ROOT ++ f) else None.

(** [sendAuthPackage]: the package, and the result for what [sendmsg] returns. *)
Definition auth_package : bytes := bytes_of_string "AUTH" ++ u32_mem getpid.

Fixpoint sendAuthPackage (script : list SockResult) : option (Z * bytes) :=
  match script with
  | [] => None
  | SR_interrupted :: script => sendAuthPackage script
  | SR_failed :: _ => Some (-1, [])
  | SR_some n :: _ =>
    let rc := taken n auth_package in
    Some (if Nat.eqb rc (length auth_package) then 0 else Z.of_nat rc, take rc auth_package)
  end.

(** [SBOpen]: the handle or -1, and the bytes sent.  [socket] is the result of [socket],
    [connect] says to which paths a connection can be made. *)
Definition SBOpen (envpath filename : option bytes) (socket : Z) (connect : bytes -> bool) (script : list SockResult)
    : option (Z * bytes) :=
  match SBOpen_path envpath filename with
  | Some path =>
    if 0 <=? socket then
      if connect path then
        '(ret, sent) ← sendAuthPackage script;
        Some (if ret =? 0 then socket else -1, sent)
      else Some (-1, [])
    else Some (socket, [])
  | None => Some (-1, [])
  end.

(** [SBOpenNotificationHandle]; [bind] says which names are free. *)
Definition SBOpenNotificationHandle (socket : Z) (bind : bytes -> bool) : Z :=
  if 0 <? socket then
    match make_unix_path UNIX_PATH_MAX getpid socket with
    | Some path => if bind path then socket else -1
    | None => socket
    end
  else socket.

(** ** Opening *)

(** An open handle has passed the whole authentication package in one piece, to the path
    that was asked for, when no call takes nothing. *)
Lemma SBOpen_authenticated envpath filename socket connect script fd sent :
  Forall (fun r => match r with SR_some n => 1 <= n | _ => True end) script ->
  SBOpen envpath filename socket connect script = Some (fd, sent) -> 0 <= fd ->
  fd = socket /\ sent = auth_package /\
  exists path, SBOpen_path envpath filename = Some path /\ connect path = true.
Proof.
  intros Hs. unfold SBOpen. destruct (SBOpen_path envpath filename) as [path|]; [|intros [= <- <-]; lia].
  destruct (0 <=? socket) eqn:E1; reflect_bools; [|intros [= <- <-]; lia].
  destruct (connect path) eqn:E2; [|intros [= <- <-]; lia].
  destruct (sendAuthPackage script) as [[ret out]|] eqn:E; [|done]. cbn [mbind option_bind].
  destruct (ret =? 0) eqn:E3; reflect_bools; intros [= <- <-]; [|lia]. subst ret. intros _.
  split_and!; [done| |by exists path].
  induction Hs as [|[n| |] script Hn Hs IH]; cbn [sendAuthPackage] in E; [done| |by apply IH|done].
  assert (length auth_package = 8%nat) as Hl by done.
  destruct (Nat.eqb_spec (taken n auth_package) (length auth_package)) as [Ht|Ht].
  - injection E as <-. rewrite Ht. by apply take_ge.
  - injection E as Hr _. unfold taken in *. lia.
Qed.

End clientlib.
