(* ===== verification/ClientCalls.v ===== *)
(** What the calls of the client library mean to the servicebroker.

    The bytes a call sends are, for the dispatcher, a request of the right length and
    version with the arguments of the call; together with [ClientIo], [ClientHandle] and
    [Dispatch] this is a whole call from the application to the broker's handler and
    back. *)

From S2P Require Import Prelude.
From S2P Require Import Layout.
From S2P Require Import Types.
From S2P Require Import MessageContext.
From S2P Require Import Wire.
From S2P Require Import AutoBuffer.
From S2P Require Import Requests.
From S2P Require Import ClientHandle.
From S2P Require Import ClientIo.
From S2P Require Import ClientLib.
From S2P Require Import State.
From S2P Require Import Dispatch.

(** ** The calls with one argument struct *)

Inductive Call :=
  | CL_Register (ifName : bytes) (major minor chid : Z)
  | CL_RegisterTCP (ifName : bytes) (major minor ipaddress port : Z)
  | CL_RegisterGroup (ifName : bytes) (major minor chid grpid : Z)
  | CL_Unregister (serverId : SPartyID)
  | CL_Attach (ifName : bytes) (major minor : Z)
  | CL_AttachExtended (ifName : bytes) (major minor chid code value : Z)
  | CL_GetServerInformation (ifName : bytes) (major minor : Z)
  | CL_AttachTCP (ifName : bytes) (major minor : Z)
  | CL_Detach (clientId : SPartyID)
  | CL_ClientDetach (clientID : SPartyID) (chid code value : Z)
  | CL_ServerAvailable (ifName : bytes) (major minor chid code value : Z)
  | CL_ServerDisconnect (serverID : SPartyID) (chid code value : Z)
  | CL_Clear (notificationID : Z)
  | CL_ListChange (chid code value : Z)
  | CL_MatchChange (regExpr : option bytes) (chid code value : Z).

Definition call_cmd (k : Call) : dcmd :=
  match k with
  | CL_Register _ _ _ _ | CL_RegisterTCP _ _ _ _ _ => DCMD_FND_REGISTER_INTERFACE
  | CL_RegisterGroup _ _ _ _ _ => DCMD_FND_REGISTER_INTERFACE_GROUPID
  | CL_Unregister _ => DCMD_FND_UNREGISTER_INTERFACE
  | CL_Attach _ _ _ | CL_AttachTCP _ _ _ => DCMD_FND_ATTACH_INTERFACE
  | CL_AttachExtended _ _ _ _ _ _ => DCMD_FND_ATTACH_INTERFACE_EXTENDED
  | CL_GetServerInformation _ _ _ => DCMD_FND_GET_SERVER_INFORMATION
  | CL_Detach _ => DCMD_FND_DETACH_INTERFACE
  | CL_ClientDetach _ _ _ _ => DCMD_FND_NOTIFY_CLIENT_DETACH
  | CL_ServerAvailable _ _ _ _ _ _ => DCMD_FND_NOTIFY_SERVER_AVAILABLE
  | CL_ServerDisconnect _ _ _ _ => DCMD_FND_NOTIFY_SERVER_DISCONNECT
  | CL_Clear _ => DCMD_FND_CLEAR_NOTIFICATION
  | CL_ListChange _ _ _ => DCMD_FND_NOTIFY_INTERFACELIST_CHANGE
  | CL_MatchChange _ _ _ _ => DCMD_FND_NOTIFY_INTERFACELIST_MATCH
  end.

Section calls.
Variable pid : Z.

(** The argument the library builds. *)
Definition call_arg (k : Call) : option bytes :=
  match k with
  | CL_Register n a i chid => register_arg pid n a i chid
  | CL_RegisterTCP n a i ip port => register_tcp_arg n a i ip port
  | CL_RegisterGroup n a i chid grpid => register_group_arg pid n a i chid grpid
  | CL_Unregister id => party_arg DCMD_FND_UNREGISTER_INTERFACE id
  | CL_Attach n a i => description_arg DCMD_FND_ATTACH_INTERFACE n a i
  | CL_AttachExtended n a i chid code value => attachExtended_arg pid n a i chid code value
  | CL_GetServerInformation n a i => description_arg DCMD_FND_GET_SERVER_INFORMATION n a i
  | CL_AttachTCP n a i => attach_tcp_arg n a i
  | CL_Detach id => party_arg DCMD_FND_DETACH_INTERFACE id
  | CL_ClientDetach id chid code value => party_pulse_arg pid DCMD_FND_NOTIFY_CLIENT_DETACH id chid code value
  | CL_ServerAvailable n a i chid code value => serverAvailable_arg pid n a i chid code value
  | CL_ServerDisconnect id chid code value => party_pulse_arg pid DCMD_FND_NOTIFY_SERVER_DISCONNECT id chid code value
  | CL_Clear id => clear_arg id
  | CL_ListChange chid code value => listChange_arg pid chid code value
  | CL_MatchChange re chid code value => matchChange_arg pid re chid code value
  end.

(** What the call means. *)
Definition name_array (n : bytes) : bytes := strncpy (Z.to_nat (NAME_MAX + 1)) n.
Definition meant_descr (n : bytes) (a i : Z) : SFNDInterfaceDescription :=
  mkSFNDDescr (mkVersion (u16 a) (u16 i)) (name_array n).
Definition meant_pulse (chid code value : Z) : SFNDPulseInfo :=
  mkPulse (i32 code) (i32 value) (i32 chid) (i32 pid).

Definition call_request (k : Call) : Request :=
  match k with
  | CL_Register n a i chid =>
    RQ_Register (mkRegisterArg (meant_descr n a i) (mkImplVersion 0 0 0) (i32 chid) (i32 pid))
  | CL_RegisterTCP n a i ip port =>
    RQ_Register (mkRegisterArg (meant_descr (n ++ tcp_suffix) a i) (mkImplVersion 0 0 0) (i32 port) (i32 ip))
  | CL_RegisterGroup n a i chid grpid =>
    RQ_RegisterGroupID (mkRegisterGroupIDArg (meant_descr n a i) (mkImplVersion 0 0 0) (i32 chid) (i32 pid) (i32 grpid))
  | CL_Unregister id => RQ_Unregister id
  | CL_Attach n a i => RQ_Attach (meant_descr n a i)
  | CL_AttachExtended n a i chid code value => RQ_AttachExtended (meant_pulse chid code value) (meant_descr n a i)
  | CL_GetServerInformation n a i => RQ_GetServerInformation (meant_descr n a i)
  | CL_AttachTCP n a i => RQ_Attach (meant_descr (n ++ tcp_suffix) a i)
  | CL_Detach id => RQ_Detach id
  | CL_ClientDetach id chid code value => RQ_NotifyClientDetach id (meant_pulse chid code value)
  | CL_ServerAvailable n a i chid code value => RQ_NotifyServerAvailable (meant_pulse chid code value) (meant_descr n a i)
  | CL_ServerDisconnect id chid code value => RQ_NotifyServerDisconnect id (meant_pulse chid code value)
  | CL_Clear id => RQ_ClearNotification (u32 id)
  | CL_ListChange chid code value => RQ_NotifyInterfaceListChange (meant_pulse chid code value)
  | CL_MatchChange re chid code value =>
    RQ_NotifyInterfaceListMatch (meant_pulse chid code value) (name_array (default [] re))
  end.

(** Strings are C strings, ids fit their fields, and [_tcp] fits behind the name. *)
Definition call_valid (k : Call) : Prop :=
  match k with
  | CL_Register n _ _ _ | CL_RegisterGroup n _ _ _ _ | CL_Attach n _ _ | CL_AttachExtended n _ _ _ _ _
  | CL_GetServerInformation n _ _ | CL_ServerAvailable n _ _ _ _ _ => is_cstring n
  | CL_RegisterTCP n _ _ _ _ | CL_AttachTCP n _ _ => is_cstring n /\ Z.of_nat (length n) <= NAME_MAX - 4
  | CL_Unregister id | CL_Detach id | CL_ClientDetach id _ _ _ | CL_ServerDisconnect id _ _ _ => is_party id
  | CL_MatchChange re _ _ _ => is_cstring (default [] re)
  | CL_Clear _ | CL_ListChange _ _ _ => True
  end.

(** The frame a call sends, and its body. *)
Definition call_body (k : Call) (arg : bytes) : bytes := load 0 (sizeof (arg_i (call_cmd k))) arg.

End calls.

(** ** Reading structs in the middle of a memory *)

Lemma field_load t i o n m :
  0 <= o -> 0 <= field_offset t i -> 0 <= field_size t i -> field_offset t i + field_size t i <= n ->
  field t i (load o n m) = load (o + field_offset t i) (field_size t i) m.
Proof. intros. unfold field. by apply load_load. Qed.

Lemma of_mem_version o m : 0 <= o -> of_mem (load o 4 m) = mkVersion (u_of (load o 2 m)) (u_of (load (o + 2) 2 m)).
Proof.
  intros Ho. cbn [of_mem Version_Wire]. rewrite !field_load by done.
  change (field_offset lay_SFNDInterfaceVersion 0) with 0. by rewrite Z.add_0_r.
Qed.

Lemma of_mem_impl o m : 0 <= o ->
  of_mem (load o 6 m) = mkImplVersion (u_of (load o 2 m)) (u_of (load (o + 2) 2 m)) (u_of (load (o + 4) 2 m)).
Proof.
  intros Ho. cbn [of_mem ImplVersion_Wire]. rewrite !field_load by done.
  change (field_offset lay_SFNDImplementationVersion 0) with 0. by rewrite Z.add_0_r.
Qed.

Lemma of_mem_descr o m : 0 <= o ->
  of_mem (load o 260 m) =
    mkSFNDDescr (mkVersion (u_of (load o 2 m)) (u_of (load (o + 2) 2 m))) (load (o + 4) 256 m).
Proof.
  intros Ho. cbn [of_mem Description_Wire]. rewrite !field_load by done.
  change (field_offset lay_SFNDInterfaceDescription 0) with 0. rewrite Z.add_0_r.
  change (field_size lay_SFNDInterfaceDescription 0) with 4. by rewrite of_mem_version.
Qed.

Lemma of_mem_pulse o m : 0 <= o ->
  of_mem (load o 16 m) =
    mkPulse (i32_of (load o 4 m)) (i32_of (load (o + 4) 4 m)) (i32_of (load (o + 8) 4 m)) (i32_of (load (o + 12) 4 m)).
Proof.
  intros Ho. cbn [of_mem Pulse_Wire]. rewrite !field_load by done.
  change (field_offset lay_SFNDPulseInfo 0) with 0. by rewrite Z.add_0_r.
Qed.

(** ** Stores in a row *)

Lemma store_step off data m n k :
  Z.of_nat (length m) = n -> Z.of_nat (length data) = k -> 0 <= off -> off + k <= n ->
  exists m', store off data m = Some m' /\ Z.of_nat (length m') = n /\ load off k m' = data /\
    (forall o j, 0 <= o -> 0 <= j -> o + j <= off \/ off + k <= o -> load o j m' = load o j m).
Proof.
  intros Hm Hd Ho Hl. destruct (store_in off data m Ho) as (m' & E & L); [lia|].
  exists m'. split_and!; [done|congruence| |].
  - rewrite <-Hd. by eapply load_store_same.
  - intros o j Ho' Hj Hdis. eapply load_store_other; [done|done|done|lia].
Qed.

Lemma load_zeroed o j n : 0 <= o -> 0 <= j -> o + j <= n -> load o j (zeroed n) = zeroed j.
Proof.
  intros. unfold load, zeroed. rewrite drop_replicate, take_replicate. f_equal. lia.
Qed.

Lemma length_party id : Z.of_nat (length (to_mem (A:=SPartyID) id)) = 8.
Proof. cbn [to_mem SPartyID_Wire]. by rewrite length_app, Nat2Z.inj_add, !u32_mem_length. Qed.

Lemma length_name k n : Z.of_nat (length (strncpy k n)) = Z.of_nat k.
Proof. by rewrite length_strncpy. Qed.

(** A computation on a memory that writes [k] bytes at [off] and nothing else. *)
Definition fills (f : bytes -> option bytes) (off k : Z) (m m' : bytes) : Prop :=
  f m = Some m' /\ Z.of_nat (length m') = Z.of_nat (length m) /\
  (forall o j, 0 <= o -> 0 <= j -> o + j <= off \/ off + k <= o -> load o j m' = load o j m).

Lemma fills_store off data k m :
  Z.of_nat (length data) = k -> 0 <= off -> off + k <= Z.of_nat (length m) ->
  exists m', fills (store off data) off k m m' /\ load off k m' = data.
Proof.
  intros Hd Ho Hl. destruct (store_step off data m _ k eq_refl Hd Ho Hl) as (m' & E & L & S & O).
  exists m'. by split_and!.
Qed.

(** One after the other. *)
Lemma fills_bind f g o1 k1 o2 k2 o k m m1 m2 :
  fills f o1 k1 m m1 -> fills g o2 k2 m1 m2 -> o <= o1 -> o1 + k1 <= o + k -> o <= o2 -> o2 + k2 <= o + k ->
  fills (fun m => f m ≫= g) o k m m2.
Proof.
  intros (E1 & L1 & O1) (E2 & L2 & O2) H1 H2 H3 H4. split_and!.
  - by rewrite E1.
  - congruence.
  - intros o' j Ho Hj Hd. rewrite O2, O1 by lia. done.
Qed.

Lemma put_version_spec off a i m :
  0 <= off -> off + 4 <= Z.of_nat (length m) ->
  exists m', fills (put_version off a i) off 4 m m' /\
    load off 2 m' = u16_mem a /\ load (off + 2) 2 m' = u16_mem i.
Proof.
  intros Ho Hl. destruct (fills_store off (u16_mem a) 2 m) as (m1 & F1 & S1); [done|done|lia|].
  destruct (fills_store (off + 2) (u16_mem i) 2 m1) as (m2 & F2 & S2); [done|lia|destruct F1 as (_ & -> & _); lia|].
  exists m2. split_and!; [|destruct F2 as (_ & _ & ->); [done|lia|lia|lia]|done].
  by eapply (fills_bind (store off (u16_mem a)) (store (off + 2) (u16_mem i))); [exact F1|exact F2|lia..].
Qed.

(** A description at [descr] with the given name. *)
Definition is_descr (descr : Z) (n : bytes) (a i : Z) (m : bytes) : Prop :=
  load descr 2 m = u16_mem a /\ load (descr + 2) 2 m = u16_mem i /\ load (descr + 4) 256 m = name_array n.

Lemma FILL_DESCRIPTION_spec c k n a i m :
  let descr := field_offset (arg_i c) k in
  0 <= descr -> descr + 260 <= Z.of_nat (length m) ->
  exists m', fills (FILL_DESCRIPTION c k n a i) descr 260 m m' /\ is_descr descr n a i m'.
Proof.
  intros descr Ho Hl. destruct (fills_store (descr + 4) (name_array n) 256 m) as (m1 & F1 & S1);
    [apply length_name|lia|lia|].
  destruct (put_version_spec descr a i m1) as (m2 & F2 & S2 & S3); [done|destruct F1 as (_ & -> & _); lia|].
  exists m2. split.
  - by eapply (fills_bind (store (descr + 4) (name_array n)) (put_version descr a i)); [exact F1|exact F2|lia..].
  - split_and!; [done|done|]. destruct F2 as (_ & _ & ->); [done|lia|lia|lia].
Qed.

Lemma cstr_zeros n k : is_cstring n -> cstr (n ++ replicate k 0) = n.
Proof.
  intros Hn. destruct k as [|k]; cbn [replicate].
  - rewrite app_nil_r. induction Hn as [|b n Hb Hn IH]; [done|]. cbn. rewrite (proj2 (Z.eqb_neq b 0)) by lia. by rewrite IH.
  - by apply cstr_app_nul.
Qed.

(** [strncpy] of the name and [strcat] of the suffix in zeroed memory. *)
Lemma FILL_DESCRIPTION_TCP_spec c k n a i m :
  let descr := field_offset (arg_i c) k in
  0 <= descr -> descr + 260 <= Z.of_nat (length m) ->
  is_cstring n -> Z.of_nat (length n) <= NAME_MAX - 4 -> load (descr + 4) 256 m = zeroed 256 ->
  exists m', fills (FILL_DESCRIPTION_TCP c k n a i) descr 260 m m' /\ is_descr descr (n ++ tcp_suffix) a i m'.
Proof.
  intros descr Ho Hl Hn Hlen Hz. unfold NAME_MAX in Hlen.
  destruct (fills_store (descr + 4) (strncpy 252 n) 252 m) as (m1 & F1 & S1); [apply length_name|lia|lia|].
  (* the name in the memory after [strncpy] *)
  assert (load (descr + 4) 256 m1 = n ++ replicate (256 - length n) 0) as S256.
  { change 256 with (252 + 4). rewrite load_split by lia. rewrite S1.
    destruct F1 as (_ & _ & ->); [|lia..].
    assert (load (descr + 4 + 252) 4 m = zeroed 4) as ->.
    { rewrite <-(load_load 252 4 (descr + 4) 256) by lia. rewrite Hz. done. }
    unfold strncpy. rewrite take_ge by lia. rewrite <-app_assoc. f_equal.
    change (zeroed 4) with (replicate 4 0). rewrite <-replicate_add. f_equal. lia. }
  assert (drop (Z.to_nat (descr + 4)) m1 = n ++ replicate (256 - length n) 0 ++ drop 256 (drop (Z.to_nat (descr + 4)) m1)) as Hdrop.
  { rewrite app_assoc, <-S256. unfold load. by rewrite take_drop. }
  assert (length (cstr (drop (Z.to_nat (descr + 4)) m1)) = length n) as Hc.
  { rewrite Hdrop. replace (256 - length n)%nat with (S (255 - length n)) by lia. cbn [replicate app].
    by rewrite cstr_app_nul. }
  destruct (fills_store (descr + 4 + Z.of_nat (length n)) (tcp_suffix ++ [0]) 5 m1) as (m2 & F2 & S2);
    [done|lia|destruct F1 as (_ & -> & _); lia|].
  assert (fills (strcat (descr + 4) tcp_suffix) (descr + 4) 256 m1 m2) as F2'.
  { destruct F2 as (E & L & O). split_and!; [unfold strcat; by rewrite Hc|done|]. intros o j Hj1 Hj2 Hd. apply O; lia. }
  assert (load (descr + 4) 256 m2 = name_array (n ++ tcp_suffix)) as S256'.
  { replace 256 with (Z.of_nat (length n) + (5 + (251 - Z.of_nat (length n)))) by lia.
    rewrite !load_split by lia. rewrite S2. destruct F2 as (_ & _ & O). rewrite !O by lia.
    assert (forall o j, 0 <= o -> 0 <= j -> o + j <= 256 -> load (descr + 4 + o) j m1 = load o j (n ++ replicate (256 - length n) 0)) as Hsub.
    { intros o j H1 H2 H3. rewrite <-S256. symmetry. apply load_load; lia. }
    rewrite <-(Z.add_0_r (descr + 4)) at 1. rewrite Hsub by lia.
    replace (descr + 4 + Z.of_nat (length n) + 5) with (descr + 4 + (Z.of_nat (length n) + 5)) by lia. rewrite Hsub by lia.
    unfold load at 1 2. rewrite drop_0, Nat2Z.id, take_app_le, take_ge by lia.
    rewrite drop_app_ge by lia. rewrite drop_replicate, take_replicate.
    unfold name_array, strncpy. change (Z.to_nat (NAME_MAX + 1)) with 256%nat. rewrite take_ge by (rewrite length_app; cbn; lia).
    rewrite <-!app_assoc. do 2 f_equal. change [0] with (replicate 1 0). rewrite <-replicate_add. f_equal.
    rewrite length_app. cbn. lia. }
  destruct (put_version_spec descr a i m2) as (m3 & F3 & S3 & S4);
    [done|destruct F2' as (_ & -> & _); destruct F1 as (_ & -> & _); lia|].
  exists m3. split.
  - assert (fills (fun m => store (descr + 4) (strncpy 252 n) m ≫= strcat (descr + 4) tcp_suffix) descr 260 m m2) as F12
      by (eapply fills_bind; [exact F1|exact F2'|lia..]).
    destruct (fills_bind _ (put_version descr a i) descr 260 descr 4 descr 260 m m2 m3 F12 F3) as (E & L & O); [lia..|].
    split_and!; [|done|done]. rewrite <-E. unfold FILL_DESCRIPTION_TCP. fold descr. change name_offset with 4.
    change (Z.to_nat (NAME_MAX + 1 - 4)) with 252%nat. by destruct (store (descr + 4) (strncpy 252 n) m).
  - split_and!; [done|done|]. destruct F3 as (_ & _ & ->); [done|lia|lia|lia].
Qed.

Lemma put_pulse_spec pid c k chid code value m :
  let p := field_offset (arg_i c) k in
  0 <= p -> p + 16 <= Z.of_nat (length m) ->
  exists m', fills (put_pulse c k pid chid code value) p 16 m m' /\
    load p 4 m' = u32_mem code /\ load (p + 4) 4 m' = u32_mem value /\
    load (p + 8) 4 m' = u32_mem chid /\ load (p + 12) 4 m' = u32_mem pid.
Proof.
  intros p Ho Hl.
  destruct (fills_store (p + 8) (u32_mem chid) 4 m) as (m1 & F1 & S1); [done|lia|lia|].
  assert (Z.of_nat (length m1) = Z.of_nat (length m)) as L1 by apply F1.
  destruct (fills_store (p + 12) (u32_mem pid) 4 m1) as (m2 & F2 & S2); [done|lia|lia|].
  assert (Z.of_nat (length m2) = Z.of_nat (length m1)) as L2 by apply F2.
  destruct (fills_store (p + 0) (u32_mem code) 4 m2) as (m3 & F3 & S3); [done|lia|lia|].
  assert (Z.of_nat (length m3) = Z.of_nat (length m2)) as L3 by apply F3.
  destruct (fills_store (p + 4) (u32_mem value) 4 m3) as (m4 & F4 & S4); [done|lia|lia|].
  destruct F1 as (E1 & _ & O1), F2 as (E2 & _ & O2), F3 as (E3 & _ & O3), F4 as (E4 & L4 & O4).
  rewrite Z.add_0_r in *.
  exists m4. split_and!.
  - split_and!; [|lia|intros o j H1 H2 H3; rewrite O4, O3, O2, O1 by lia; done].
    unfold put_pulse. fold p. change (field_offset lay_SFNDPulseInfo 2) with 8. change (field_offset lay_SFNDPulseInfo 3) with 12.
    change (field_offset lay_SFNDPulseInfo 0) with 0. change (field_offset lay_SFNDPulseInfo 1) with 4. rewrite Z.add_0_r.
    rewrite E1. cbn [mbind option_bind]. rewrite E2. cbn [mbind option_bind]. rewrite E3. done.
  - rewrite O4 by lia. done.
  - done.
  - rewrite O4, O3, O2 by lia. done.
  - rewrite O4, O3 by lia. done.
Qed.

Lemma INIT_ARGUMENT_spec c :
  4 <= sizeof (arg_union c) ->
  exists m, INIT_ARGUMENT c = Some m /\ Z.of_nat (length m) = sizeof (arg_union c) /\
    load 0 4 m = to_mem sb_version /\
    (forall o j, 4 <= o -> 0 <= j -> o + j <= sizeof (arg_union c) -> load o j m = zeroed j).
Proof.
  intros Hc. unfold INIT_ARGUMENT.
  destruct (store_step 0 (to_mem sb_version) (zeroed (sizeof (arg_union c))) (sizeof (arg_union c)) 4)
    as (m & E & L & S & O); [apply length_zeroed; lia|done|lia|lia|].
  exists m. split_and!; [done|done|done|]. intros o j H1 H2 H3. rewrite O by lia. apply load_zeroed; lia.
Qed.

(** Writing a member. *)
Lemma put_spec c i data m :
  Z.of_nat (length data) = field_size (arg_i c) i -> 0 <= field_offset (arg_i c) i ->
  field_offset (arg_i c) i + field_size (arg_i c) i <= Z.of_nat (length m) ->
  exists m', fills (put c i data) (field_offset (arg_i c) i) (field_size (arg_i c) i) m m' /\
    load (field_offset (arg_i c) i) (field_size (arg_i c) i) m' = data.
Proof. intros. by apply fills_store. Qed.

(** ** The arguments of the calls *)

(** [sbVersion] and the request the dispatcher decodes from a memory. *)
Definition decodes (k : Call) (r : Request) (m : bytes) : Prop :=
  load 0 4 m = to_mem sb_version /\ forall local body, decode_arg (call_cmd k) m local body = r.

Ltac num x := let v := eval vm_compute in x in constr:(v).

(** Numbers for the offsets and sizes of members. *)
Ltac offsets_to_numbers :=
  repeat match goal with
  | |- context [field_offset (arg_i ?c) ?i] => let v := num (field_offset (arg_i c) i) in change (field_offset (arg_i c) i) with v
  | |- context [field_size (arg_i ?c) ?i] => let v := num (field_size (arg_i c) i) in change (field_size (arg_i c) i) with v
  | H : context [field_offset (arg_i ?c) ?i] |- _ => let v := num (field_offset (arg_i c) i) in change (field_offset (arg_i c) i) with v in H
  | H : context [field_size (arg_i ?c) ?i] |- _ => let v := num (field_size (arg_i c) i) in change (field_size (arg_i c) i) with v in H
  end.

(** The next step of building an argument: [lem] gives a memory. *)
Ltac build lem :=
  let m := fresh "m" in let E := fresh "E" in let L := fresh "L" in let O := fresh "O" in let S := fresh "S" in
  destruct lem as (m & (E & L & O) & S); offsets_to_numbers;
  [first [apply length_name | apply length_party | apply u32_mem_length | lia | assumption | vm_compute; (reflexivity || discriminate) | idtac]..|].

(** Loads from a chain of memories. *)
Ltac loads :=
  repeat match goal with
  | S : load ?o ?n ?m = _ |- context [load ?o ?n ?m] => rewrite S
  | O : forall o j, 0 <= o -> 0 <= j -> _ -> load o j ?m = load o j _ |- context [load ?o ?n ?m] => rewrite (O o n) by lia
  | O : forall o j, 4 <= o -> 0 <= j -> _ -> load o j ?m = zeroed j |- context [load ?o ?n ?m] => rewrite (O o n) by lia
  end.

Lemma u_of_u32_mem v : u_of (u32_mem v) = u32 v.
Proof. unfold u_of, u32_mem. by rewrite le_value_bytes. Qed.

Lemma u_of_u16_mem v : u_of (u16_mem v) = u16 v.
Proof. unfold u_of, u16_mem. by rewrite le_value_bytes. Qed.

Lemma zero_impl : of_mem (zeroed 6) = mkImplVersion 0 0 0.
Proof. reflexivity. Qed.

Ltac start_arg c :=
  let m := fresh "m" in let E := fresh "E" in let L := fresh "L" in let S := fresh "S" in let O := fresh "O" in
  destruct (INIT_ARGUMENT_spec c) as (m & E & L & S & O); [done|];
  let u := num (sizeof (arg_union c)) in change (sizeof (arg_union c)) with u in *.

(** The argument is built: run the chain, and decode the last memory. *)
Ltac built :=
  repeat match goal with H : is_descr _ _ _ _ _ |- _ => destruct H as (? & ? & ?) end; destruct_and?;
  repeat match goal with E : _ = Some _ |- _ => rewrite E; cbn [mbind option_bind]; clear E end;
  eexists; split; [reflexivity|]; split; [lia|];
  split; [by loads|]; intros local body; cbn [decode_arg call_cmd call_request]; unfold arg, field; offsets_to_numbers;
  rewrite ?of_mem_descr, ?of_mem_pulse by lia; loads;
  change (zeroed 256) with (name_array []); rewrite ?zero_impl, ?i32_of_mem, ?u_of_u32_mem, ?u_of_u16_mem, ?of_to_mem by assumption;
  reflexivity.

(** One tactic for each shape of argument. *)

Ltac register_call c pid n a i x y :=
  start_arg c;
  match goal with L : Z.of_nat (length ?m) = _ |- _ => build (FILL_DESCRIPTION_spec c 1 n a i m) end;
  match goal with D : is_descr _ _ _ _ ?m |- _ => build (put_spec c 3 (u32_mem x) m) end;
  match goal with D : load _ _ ?m = u32_mem x |- _ => build (put_spec c 4 (u32_mem y) m) end.

Ltac description_call c n a i :=
  unfold description_arg; start_arg c;
  match goal with L : Z.of_nat (length ?m) = _ |- _ => build (FILL_DESCRIPTION_spec c 1 n a i m) end; built.

Ltac party_call c id :=
  unfold party_arg; start_arg c;
  match goal with L : Z.of_nat (length ?m) = _ |- _ => build (put_spec c 2 (to_mem id) m) end; built.

Ltac party_pulse_call pid c id chid code value :=
  unfold party_pulse_arg; start_arg c;
  match goal with L : Z.of_nat (length ?m) = _ |- _ => build (put_spec c 2 (to_mem id) m) end;
  match goal with S : load _ _ ?m = to_mem id |- _ => build (put_pulse_spec pid c 3 chid code value m) end; built.

Definition call_encodes (pid : Z) (k : Call) : Prop :=
  exists arg, call_arg pid k = Some arg /\ Z.of_nat (length arg) = sizeof (arg_union (call_cmd k)) /\
    decodes k (call_request pid k) arg.

(** The calls that register. *)
Lemma register_calls pid n a i x y :
  is_cstring n ->
  call_encodes pid (CL_Register n a i x) /\ call_encodes pid (CL_RegisterGroup n a i x y) /\
  (Z.of_nat (length n) <= NAME_MAX - 4 -> call_encodes pid (CL_RegisterTCP n a i x y)).
Proof.
  intros Hn. unfold call_encodes. cbn [call_arg call_cmd]. split_and!.
  - unfold register_arg. register_call DCMD_FND_REGISTER_INTERFACE pid n a i x pid. built.
  - unfold register_group_arg. register_call DCMD_FND_REGISTER_INTERFACE_GROUPID pid n a i x pid.
    build (put_spec DCMD_FND_REGISTER_INTERFACE_GROUPID 5 (u32_mem y) m2). built.
  - intros Hl. unfold register_tcp_arg. start_arg DCMD_FND_REGISTER_INTERFACE.
    build (FILL_DESCRIPTION_TCP_spec DCMD_FND_REGISTER_INTERFACE 1 n a i m); [by loads|].
    build (put_spec DCMD_FND_REGISTER_INTERFACE 3 (u32_mem y) m0).
    build (put_spec DCMD_FND_REGISTER_INTERFACE 4 (u32_mem x) m1). built.
Qed.

(** The calls with a description. *)
Lemma description_calls pid n a i chid code value :
  is_cstring n ->
  call_encodes pid (CL_Attach n a i) /\ call_encodes pid (CL_GetServerInformation n a i) /\
  (Z.of_nat (length n) <= NAME_MAX - 4 -> call_encodes pid (CL_AttachTCP n a i)) /\
  call_encodes pid (CL_AttachExtended n a i chid code value) /\
  call_encodes pid (CL_ServerAvailable n a i chid code value).
Proof.
  intros Hn. unfold call_encodes. cbn [call_arg call_cmd]. split_and!.
  - description_call DCMD_FND_ATTACH_INTERFACE n a i.
  - description_call DCMD_FND_GET_SERVER_INFORMATION n a i.
  - intros Hl. unfold attach_tcp_arg. start_arg DCMD_FND_ATTACH_INTERFACE.
    build (FILL_DESCRIPTION_TCP_spec DCMD_FND_ATTACH_INTERFACE 1 n a i m); [by loads|]. built.
  - unfold attachExtended_arg. start_arg DCMD_FND_ATTACH_INTERFACE_EXTENDED.
    build (put_pulse_spec pid DCMD_FND_ATTACH_INTERFACE_EXTENDED 1 chid code value m).
    build (FILL_DESCRIPTION_spec DCMD_FND_ATTACH_INTERFACE_EXTENDED 2 n a i m0). built.
  - unfold serverAvailable_arg. start_arg DCMD_FND_NOTIFY_SERVER_AVAILABLE.
    build (FILL_DESCRIPTION_spec DCMD_FND_NOTIFY_SERVER_AVAILABLE 2 n a i m).
    build (put_pulse_spec pid DCMD_FND_NOTIFY_SERVER_AVAILABLE 1 chid code value m0). built.
Qed.

(** The calls about a server, a client or a notification. *)
Lemma id_calls pid id n chid code value :
  is_party id ->
  call_encodes pid (CL_Unregister id) /\ call_encodes pid (CL_Detach id) /\
  call_encodes pid (CL_ClientDetach id chid code value) /\ call_encodes pid (CL_ServerDisconnect id chid code value) /\
  call_encodes pid (CL_Clear n).
Proof.
  intros Hn. unfold call_encodes. cbn [call_arg call_cmd]. split_and!.
  - party_call DCMD_FND_UNREGISTER_INTERFACE id.
  - party_call DCMD_FND_DETACH_INTERFACE id.
  - party_pulse_call pid DCMD_FND_NOTIFY_CLIENT_DETACH id chid code value.
  - party_pulse_call pid DCMD_FND_NOTIFY_SERVER_DISCONNECT id chid code value.
  - unfold clear_arg. start_arg DCMD_FND_CLEAR_NOTIFICATION.
    build (put_spec DCMD_FND_CLEAR_NOTIFICATION 1 (u32_mem n) m). built.
Qed.

(** The calls about the list of interfaces. *)
Lemma list_calls pid re chid code value :
  is_cstring (default [] re) ->
  call_encodes pid (CL_ListChange chid code value) /\ call_encodes pid (CL_MatchChange re chid code value).
Proof.
  intros Hn. unfold call_encodes. cbn [call_arg call_cmd]. split.
  - unfold listChange_arg. start_arg DCMD_FND_NOTIFY_INTERFACELIST_CHANGE.
    build (put_pulse_spec pid DCMD_FND_NOTIFY_INTERFACELIST_CHANGE 1 chid code value m). built.
  - unfold matchChange_arg. start_arg DCMD_FND_NOTIFY_INTERFACELIST_MATCH.
    build (put_pulse_spec pid DCMD_FND_NOTIFY_INTERFACELIST_MATCH 1 chid code value m).
    destruct re as [re|]; cbn [default].
    + change (strncpy (Z.to_nat (NAME_MAX + 1)) re) with (name_array re).
      build (put_spec DCMD_FND_NOTIFY_INTERFACELIST_MATCH 2 (name_array re) m0). built.
    + built.
Qed.

Lemma calls_encode pid k : call_valid k -> call_encodes pid k.
Proof.
  destruct k as [n a i chid|n a i ip port|n a i chid g|id|n a i|n a i chid code value|n a i|n a i|id|id chid code value
    |n a i chid code value|id chid code value|id|chid code value|re chid code value]; cbn [call_valid]; intros Hv.
  - by apply (register_calls pid n a i chid 0).
  - destruct Hv as [Hn Hl]. by apply (register_calls pid n a i ip port).
  - by apply (register_calls pid n a i chid g).
  - by apply (id_calls pid id 0 0 0 0).
  - by apply (description_calls pid n a i 0 0 0).
  - by apply (description_calls pid n a i chid code value).
  - by apply (description_calls pid n a i 0 0 0).
  - destruct Hv as [Hn Hl]. by apply (description_calls pid n a i 0 0 0).
  - by apply (id_calls pid id 0 0 0 0).
  - by apply (id_calls pid id 0 chid code value).
  - by apply (description_calls pid n a i chid code value).
  - by apply (id_calls pid id 0 chid code value).
  - apply (id_calls pid (mkParty 0 0) id 0 0 0). split; vm_compute; by split.
  - apply (list_calls pid None chid code value). constructor.
  - by apply list_calls.
Qed.

(** ** What the dispatcher sees *)

Lemma fields_inside c :
  forallb (fun i => (0 <=? field_offset (arg_i c) i) && (0 <=? field_size (arg_i c) i) &&
    (field_offset (arg_i c) i + field_size (arg_i c) i <=? sizeof (arg_i c))) (seq 0 (length (members (arg_i c)))) = true.
Proof. destruct c; vm_compute; reflexivity. Qed.

(** Two memories with the same argument struct decode to the same request. *)
Lemma decode_arg_ext c m m' local body :
  load 0 (sizeof (arg_i c)) m = load 0 (sizeof (arg_i c)) m' -> decode_arg c m local body = decode_arg c m' local body.
Proof.
  intros He.
  assert (forall i, (i < length (members (arg_i c)))%nat -> arg c i m = arg c i m') as Hf.
  { intros i Hi.
    pose proof (fields_inside c) as Hin. rewrite forallb_forall in Hin.
    specialize (Hin i ltac:(apply in_seq; lia)). reflect_bools.
    unfold arg, field. rewrite <-(Z.add_0_l (field_offset _ _)).
    rewrite <-!(load_load _ _ 0 (sizeof (arg_i c))) by lia. by rewrite He. }
  destruct c; cbn [decode_arg]; rewrite ?Hf by (cbn; lia); reflexivity.
Qed.

Lemma arg_sizes k :
  4 <= sizeof (arg_i (call_cmd k)) <= sizeof (arg_union (call_cmd k)) /\ sizeof (arg_i (call_cmd k)) <= rcvBuffer_size.
Proof. split_and!; destruct k; vm_compute; discriminate. Qed.

Lemma frame_of_request stack local cmd body c :
  dcmd_of_code cmd = Some c -> Z.of_nat (length body) < 2 ^ 31 -> Z.of_nat (length body) <= rcvBuffer_size ->
  is_i32 cmd -> 4 <= Z.of_nat (length body) -> load 0 4 body = to_mem sb_version ->
  frame_of stack local (request_mem cmd body) =
    mkFrame (Z.of_nat (length body)) sb_version (decode_arg c (rcvBuffer stack body) local body).
Proof.
  intros Hc Hl Hr Hi H4 Hv. unfold frame_of, request_mem.
  destruct (frame_fields (Z.of_nat (length body)) cmd body) as (_ & -> & ->).
  rewrite i32_small, i32_id, Hc by (done || lia).
  assert (load FRAME_SIZE (Z.of_nat (length body)) (INIT_REQUEST_FRAME (Z.of_nat (length body)) cmd ++ body) = body) as ->.
  { unfold load. rewrite drop_app_length' by done. by rewrite Nat2Z.id, take_ge. }
  f_equal. assert (load 0 (sizeof lay_SFNDInterfaceVersion) (rcvBuffer stack body) = to_mem sb_version) as ->; [|done].
  rewrite <-Hv. unfold rcvBuffer, overlay. rewrite load_app_l.
  - apply (load_load 0 4 0); lia.
  - done.
  - done.
  - change (sizeof lay_SFNDInterfaceVersion) with 4.
    unfold load. rewrite drop_0, length_take. lia.
Qed.

(** The frame of a call whose argument decodes to [r]. *)
Lemma call_frame k r arg :
  Z.of_nat (length arg) = sizeof (arg_union (call_cmd k)) -> decodes k r arg ->
  is_request (sizeof (arg_i (call_cmd k))) (dcmd_code (call_cmd k)) (call_body k arg) /\
  forall stack local, frame_of stack local (request_mem (dcmd_code (call_cmd k)) (call_body k arg)) =
    mkFrame (sizeof (arg_i (call_cmd k))) sb_version r.
Proof.
  intros Hl [Hver Hdec]. pose proof (arg_sizes k) as [[Hs1 Hs2] Hs3].
  assert (Z.of_nat (length (call_body k arg)) = sizeof (arg_i (call_cmd k))) as Hb by (apply length_load; lia).
  assert (sizeof (arg_i (call_cmd k)) < 2 ^ 31 - FRAME_SIZE /\ is_i32 (dcmd_code (call_cmd k))) as [Hm Hi]
    by (split; [|split]; destruct k; vm_compute; (reflexivity || discriminate)).
  change FRAME_SIZE with 16 in *. split; [by constructor|].
  intros stack local. rewrite (frame_of_request _ _ _ _ (call_cmd k)); rewrite ?Hb; try done; try lia.
  - f_equal. rewrite <-(Hdec local (call_body k arg)). apply decode_arg_ext.
    unfold rcvBuffer, overlay. rewrite load_app_l.
    + rewrite load_load by lia. change (0 + 0) with 0. unfold call_body.
      apply (load_load 0 (sizeof (arg_i (call_cmd k))) 0); lia.
    + done.
    + lia.
    + unfold load at 1. rewrite drop_0, length_take. lia.
  - apply dcmd_of_code_code.
  - unfold call_body. rewrite load_load by lia. done.
Qed.

(** C5. What an application asks for is what the broker's handler gets: for every call of the
    client library with one argument struct, the argument it builds is a request frame of the
    command's code, and the dispatcher reads from it the library's protocol version and exactly
    the values of the call (names padded to their array, [_tcp] appended for the TCP calls,
    integers at the width of their fields), whatever is in the uninitialised parts of its
    buffers.  The length passes the dispatcher's test for every command except
    [DCMD_FND_REGISTER_INTERFACE_GROUPID], whose union has trailing padding. *)
Theorem call_arrives pid k :
  call_valid k ->
  exists arg, call_arg pid k = Some arg /\
    let body := call_body k arg in
    is_request (sizeof (arg_i (call_cmd k))) (dcmd_code (call_cmd k)) body /\
    (forall stack local, frame_of stack local (request_mem (dcmd_code (call_cmd k)) body) =
       mkFrame (sizeof (arg_i (call_cmd k))) sb_version (call_request pid k)) /\
    size_ok (call_cmd k) (buffer_read (sizeof (arg_i (call_cmd k))) rcvBuffer_size 0) =
      bool_decide (call_cmd k <> DCMD_FND_REGISTER_INTERFACE_GROUPID).
Proof.
  intros Hv. destruct (calls_encode pid k Hv) as (arg & Ha & Hl & Hdec).
  destruct (call_frame k _ arg Hl Hdec) as [Hreq Hf]. exists arg. split; [done|]. cbn zeta.
  split_and!; [done|done|by destruct k; vm_compute].
Qed.

Lemma call_arrives_witness :
  exists arg, call_arg 42 (CL_AttachTCP (bytes_of_string "Media") 1 0) = Some arg /\
    forall stack local,
      frame_of stack local (request_mem (dcmd_code DCMD_FND_ATTACH_INTERFACE)
        (call_body (CL_AttachTCP (bytes_of_string "Media") 1 0) arg)) =
      mkFrame 264 sb_version
        (RQ_Attach (mkSFNDDescr (mkVersion 1 0) (bytes_of_string "Media_tcp" ++ replicate 247 0))).
Proof.
  destruct (call_arrives 42 (CL_AttachTCP (bytes_of_string "Media") 1 0)) as (arg & Ha & _ & Hf & _).
  - split; [|by vm_compute]. repeat constructor; lia.
  - exists arg. split; [exact Ha|exact Hf].
Defined.
