(* ===== verification/WholeCall.v ===== *)
(** A whole call: the application, the bytes on the socket, the client handle, the
    dispatcher and the handler, and the way back.

    What the parts guarantee separately ([ClientCalls], [ClientIo], [ClientHandle],
    [Access]) is put together for [SBAttachInterface]. *)

From S2P Require Import Prelude.
From S2P Require Import Layout.
From S2P Require Import Types.
From S2P Require Import ServerList.
From S2P Require Import ConfigFile.
From S2P Require Import ClientData.
From S2P Require Import Environment.
From S2P Require Import MessageContext.
From S2P Require Import State.
From S2P Require Import Attach.
From S2P Require Import Dispatch.
From S2P Require Import System.
From S2P Require Import Protocol.
From S2P Require Import Access.
From S2P Require Import Buffer.
From S2P Require Import Wire.
From S2P Require Import AutoBuffer.
From S2P Require Import Requests.
From S2P Require Import ClientHandle.
From S2P Require Import ClientIo.
From S2P Require Import ClientLib.
From S2P Require Import ClientCalls.

(** ** The broker's side *)

(** What the calls of a successful handler with one struct as answer do to a context. *)
Definition answer_calls (p : Payload) : list ContextCall :=
  [Call_readData rcvBuffer_size; Call_prepare_data (sb_code FNDOK) p].

Section broker.
Context `{Env}.

(** The state in which [eval] calls [dispatch]. *)
Definition evaluating (size : Z) (s : SB) : SB := s <| sb_msg := fresh_context size |>.

(** The dispatcher on a request whose handler answers. *)
Lemma exec_dispatch_answered c f cmd s :
  let nBytes := buffer_read (fr_size f) rcvBuffer_size 0 in
  let s1 := s <| sb_msg := snd (mc_readData rcvBuffer_size (fresh_context (fr_size f))) |> in
  request_dcmd (fr_request f) = Some cmd -> cmd <> DCMD_FND_MASTER_PING ->
  sizeof lay_SFNDInterfaceVersion <= nBytes -> check_version (fr_sbVersion f) = true -> size_ok cmd nBytes = true ->
  responseState (exec (run_handler c (fr_request f)) s1) = State_SENT ->
  dispatch c f (evaluating (fr_size f) s) = (true, exec (run_handler c (fr_request f)) s1).
Proof.
  intros nBytes s1 Hcmd Hping Hn Hv Hsz Hst. unfold dispatch. rewrite Hcmd.
  assert (dispatch_command c cmd f (evaluating (fr_size f) s) = (tt, exec (run_handler c (fr_request f)) s1)) as Hd.
  { unfold dispatch_command.
    assert (readData rcvBuffer_size (evaluating (fr_size f) s) = (nBytes, s1)) as Hr
      by (unfold readData; by rewrite run_with_msg).
    rewrite (run_bind _ _ _ _ _ Hr).
    rewrite (proj2 (Z.leb_le 0 nBytes)) by (change (sizeof lay_SFNDInterfaceVersion) with 4 in Hn; lia).
    rewrite (proj2 (Z.leb_le _ nBytes)), Hv, Hsz by done. cbn [andb whenM].
    unfold exec in *. destruct (run_handler c (fr_request f) s1) as [[] s2] eqn:E. cbn [snd] in Hst.
    rewrite (run_bind _ _ _ _ _ E). unfold ensure_answered. by rewrite run_getS, Hst. }
  destruct cmd; try (by destruct (Hping eq_refl)); rewrite (run_bind _ _ _ _ _ Hd); reflexivity.
Qed.

End broker.

(** ** Attaching *)

Section attach.
Context `{Env} `{Heap}.

Definition attach_response (info : SConnectionInfo) : Response :=
  mkResponse (sizeof (arg_o DCMD_FND_ATTACH_INTERFACE)) (sb_code FNDOK) (PL_connInfo info).

Lemma attach_value_calls (info : SConnectionInfo) size :
  wire_ok info -> 0 <= size ->
  value_calls [] (answer_calls (PL_connInfo info)) (fresh_context size) =
    snd (mc_prepareResponse_data (sb_code FNDOK) (PL_connInfo info) (sizeof (arg_o DCMD_FND_ATTACH_INTERFACE))
           (snd (mc_readData rcvBuffer_size (fresh_context size)))).
Proof.
  intros Hw Hs. unfold answer_calls. cbn [value_calls call_context snd].
  assert (call_size [] (PL_connInfo info) = sizeof (arg_o DCMD_FND_ATTACH_INTERFACE)) as -> by exact (to_mem_length _ Hw).
  done.
Qed.

Lemma attach_calls_facts (info : SConnectionInfo) size :
  wire_ok info -> 0 <= size ->
  let ks := answer_calls (PL_connInfo info) in
  calls_ok [] ks (fresh_context size) /\
  mc_mState (value_calls [] ks (fresh_context size)) = State_SENT /\
  mc_response (value_calls [] ks (fresh_context size)) = attach_response info.
Proof.
  intros Hw Hs ks. unfold ks. rewrite (attach_value_calls info size Hw Hs). split_and!; [done|reflexivity..].
Qed.

Lemma attach_response_length (info : SConnectionInfo) :
  wire_ok info -> Z.of_nat (length (to_mem info)) = sizeof (arg_o DCMD_FND_ATTACH_INTERFACE).
Proof. exact (to_mem_length info). Qed.

(** The application's side. *)
(** The client reads the answer in the union, where the argument is left behind it. *)
Lemma of_mem_conn_app m k :
  Z.of_nat (length m) = 32 -> of_mem (A:=SConnectionInfo) (m ++ k) = of_mem m.
Proof.
  intros Hm. cbn [of_mem ConnInfo_Wire]. unfold field.
  f_equal; f_equal; apply load_app_l; rewrite ?Hm; vm_compute; discriminate.
Qed.

Lemma attach_client n major minor (info : SConnectionInfo) sock tail :
  is_cstring n -> wire_ok info ->
  behaves (sizeof (arg_i DCMD_FND_ATTACH_INTERFACE)) (sizeof (arg_o DCMD_FND_ATTACH_INTERFACE)) sock ->
  so_incoming sock = response_mem [] (attach_response info) ++ tail ->
  exists arg sock',
    Z.of_nat (length arg) = sizeof (arg_union DCMD_FND_ATTACH_INTERFACE) /\
    decodes (CL_Attach n major minor) (RQ_Attach (meant_descr n major minor)) arg /\
    SBAttachInterface (Some n) major minor sock = Some ((0, Some info), sock') /\
    so_sent sock' = so_sent sock ++
      request_mem (dcmd_code DCMD_FND_ATTACH_INTERFACE) (call_body (CL_Attach n major minor) arg) /\
    so_incoming sock' = tail.
Proof.
  intros Hn Hw Hb Hin.
  destruct (calls_encode 0 (CL_Attach n major minor) Hn) as (arg & Ha & Hl & Hdec).
  change (sizeof (arg_union (call_cmd (CL_Attach n major minor)))) with 264 in Hl.
  pose proof (attach_response_length info Hw) as Hi.
  assert (sizeof (arg_o DCMD_FND_ATTACH_INTERFACE) = 32) as Ho by reflexivity.
  assert (sizeof (arg_i DCMD_FND_ATTACH_INTERFACE) = 264) as Hsi by reflexivity.
  rewrite Ho in Hi, Hb. rewrite Hsi in Hb.
  destruct (sendAndReceive_spec (dcmd_code DCMD_FND_ATTACH_INTERFACE) arg 264 32 (-1) 32 (sb_code FNDOK) (to_mem info) tail sock)
    as (sock' & E & Es & Er); [lia|done|by rewrite Hin; unfold response_mem; rewrite <-app_assoc|done|done|done|].
  exists arg, sock'. split_and!; [exact Hl|exact Hdec| | |done].
  - unfold SBAttachInterface. cbn [call_arg] in Ha. rewrite Ha.
    unfold mbind, Io_bind, in_memory. cbn [mbind option_bind]. unfold transact.
    rewrite Ho, Hsi, E. cbn [mbind option_bind]. unfold mret, Io_ret, finish. cbn -[of_mem to_mem].
    do 4 f_equal. rewrite of_mem_conn_app by done. by apply of_to_mem.
  - rewrite Es. unfold request_mem, call_body. cbn [call_cmd].
    by rewrite Hsi, length_load by lia.
Qed.

(** The broker's side of a request that decodes to an attach. *)
Lemma attach_broker c d s cn e :
  let size := sizeof (arg_i DCMD_FND_ATTACH_INTERFACE) in
  let info := attach_info cn e (next_client s e) in
  sl_find_ifDescr d (sb_mConnectedServers s) = Some e ->
  check_ifDescription d env_after_name = true -> sb_conns s !! c = Some cn -> may_use cn e ->
  sb_mUseServerCache s = false -> globalID (next_client s e) <> 0 -> wire_ok info ->
  dispatch c (mkFrame size sb_version (RQ_Attach d)) (evaluating size s) =
    (true, attached c cn e s <| sb_msg := value_calls [] (answer_calls (PL_connInfo info)) (fresh_context size) |>).
Proof.
  intros size info He Hck Hc Hmay Hcache Hid Hw.
  set (s1 := s <| sb_msg := snd (mc_readData rcvBuffer_size (fresh_context size)) |>).
  assert (exec (handleAttachInterface c d) s1 =
    attached c cn e s <| sb_msg := value_calls [] (answer_calls (PL_connInfo info)) (fresh_context size) |>) as Hex.
  { rewrite (attach_value_calls info size Hw) by done.
    by rewrite (exec_attach_known c d s1 cn e He Hck Hc Hmay Hcache Hid). }
  assert (exec (run_handler c (RQ_Attach d)) s1 = exec (handleAttachInterface c d) s1) as Hrun by reflexivity.
  pose proof (exec_dispatch_answered c (mkFrame size sb_version (RQ_Attach d)) DCMD_FND_ATTACH_INTERFACE s) as Hdis.
  cbn zeta in Hdis. cbn [fr_request fr_size fr_sbVersion] in Hdis. fold s1 in Hdis. rewrite Hrun, Hex in Hdis.
  apply Hdis; try (vm_compute; reflexivity); vm_compute; discriminate.
Qed.

(** C3. A call of [SBAttachInterface] from end to end.  The application's call and the
    broker's client handle talk over sockets that cut the stream into pieces: the bytes the
    library sends are the request the handle collects, the dispatcher reads the caller's
    description from them, the handler attaches the caller to the server [e] of the table
    and records the new client, the bytes the handle sends are the answer the library
    receives, and the call returns 0 with the server's version, channel and id and the new
    client's id.  The handle is ready for the next request. *)
Theorem attach_call n major minor c s cn e sock tail rs ws wr h :
  let d := meant_descr n major minor in
  let info := attach_info cn e (next_client s e) in
  let size := sizeof (arg_i DCMD_FND_ATTACH_INTERFACE) in
  let resp := response_mem [] (attach_response info) in
  is_cstring n -> behaves size (sizeof (arg_o DCMD_FND_ATTACH_INTERFACE)) sock -> so_incoming sock = resp ++ tail ->
  sl_find_ifDescr d (sb_mConnectedServers s) = Some e -> check_ifDescription d env_after_name = true ->
  sb_conns s !! c = Some cn -> may_use cn e -> sb_mUseServerCache s = false ->
  globalID (next_client s e) <> 0 -> wire_ok info ->
  heap_ample -> ready h -> Forall (fun k => 1 <= k) rs -> Forall (fun k => 1 <= k) ws ->
  FRAME_SIZE + size <= Z.of_nat (length rs) -> Z.of_nat (length resp) <= Z.of_nat (length ws) ->
  write_possible (Z.of_nat (length resp)) wr ->
  exists req sock' m h',
    SBAttachInterface (Some n) major minor sock = Some ((0, Some info), sock') /\
    so_sent sock' = so_sent sock ++ req /\ so_incoming sock' = tail /\
    exchange rs ws req [] (answer_calls (PL_connInfo info)) wr h = Some (resp, m, h') /\ ready h' /\
    forall stack local,
      dispatch c (frame_of stack local req) (evaluating size s) = (true, attached c cn e s <| sb_msg := m |>).
Proof.
  intros d info size resp Hn Hb Hin He Hck Hc Hmay Hcache Hid Hw Hheap Hready Hrs Hws Hlrs Hlws Hwr.
  destruct (attach_client n major minor info sock tail Hn Hw Hb Hin) as (arg & sock' & Hl & Hdec & Ecall & Es & Ei).
  destruct (call_frame (CL_Attach n major minor) _ arg Hl Hdec) as [Hreq Hf].
  set (body := call_body (CL_Attach n major minor) arg) in *.
  set (req := request_mem (dcmd_code DCMD_FND_ATTACH_INTERFACE) body) in *.
  assert (Z.of_nat (length req) = FRAME_SIZE + size) as Hlen
    by (unfold req; by rewrite request_mem_length, (ir_size _ _ _ Hreq)).
  destruct (exchange_request size _ body rs h Hheap Hready Hreq Hrs) as (h1 & Hp & Hrc & Hw1 & Hfs & _);
    [by change (Z.of_nat (length req) <= Z.of_nat (length rs)); rewrite Hlen|].
  destruct (attach_calls_facts info size Hw ltac:(done)) as (Hok & Hst & Hrs').
  destruct (exchange_response size rs ws req [] (answer_calls (PL_connInfo info)) wr h h1 Hheap Hready Hp Hrc Hw1 Hfs Hws Hok)
    as (h' & Ex & Hr'); rewrite ?Hst, ?Hrs'; [discriminate|reflexivity|exact Hwr|exact Hlws|].
  rewrite Hrs' in Ex.
  eexists req, sock', _, h'. split_and!; [exact Ecall|exact Es|exact Ei|exact Ex|exact Hr'|].
  intros stack local. change (dcmd_code (call_cmd (CL_Attach n major minor))) with (dcmd_code DCMD_FND_ATTACH_INTERFACE) in Hf.
  unfold req. rewrite Hf. by apply (attach_broker c d s cn e).
Qed.

End attach.

(** ** Witness *)

Definition demo_caller : Connection := default (new_Connection 0 0) (sb_conns demo_state !! 2).
Definition demo_server : ServerListEntry :=
  default (new_ServerListEntry env_implVersion 0) (sl_find_ifDescr demo_descr (sb_mConnectedServers demo_state)).
Definition demo_info : SConnectionInfo := attach_info demo_caller demo_server (next_client demo_state demo_server).

(** The application's socket: the request leaves in two pieces, the answer comes byte by byte. *)
Definition demo_socket : Socket :=
  mkSocket [SR_some 7; SR_interrupted; SR_some 1000] (replicate 48 (SR_some 1)) []
    (response_mem [] (attach_response demo_info)).

(** The client of the demonstration attaches once more. *)
Lemma attach_call_witness :
  exists req sock' m h',
    SBAttachInterface (Some (bytes_of_string "Media")) 1 0 demo_socket = Some ((0, Some demo_info), sock') /\
    so_sent sock' = req /\
    @exchange zero_heap (replicate 280 1) (replicate 48 1) req [] (answer_calls (PL_connInfo demo_info)) (Wr_ok 5)
      (@new_Handle zero_heap) = Some (response_mem [] (attach_response demo_info), m, h') /\
    forall stack local, dispatch 2 (frame_of stack local req) (evaluating 264 demo_state) =
      (true, attached 2 demo_caller demo_server demo_state <| sb_msg := m |>).
Proof.
  destruct (@attach_call _ zero_heap (bytes_of_string "Media") 1 0 2 demo_state demo_caller demo_server demo_socket []
    (replicate 280 1) (replicate 48 1) (Wr_ok 5) (@new_Handle zero_heap))
    as (req & sock' & m & h' & E & Es & _ & Ex & _ & Hd).
  - repeat constructor; lia.
  - split_and!; [reflexivity|repeat constructor; lia|by vm_compute].
  - reflexivity.
  - by vm_compute.
  - by vm_compute.
  - by vm_compute.
  - left. by vm_compute.
  - by vm_compute.
  - vm_compute. discriminate.
  - vm_compute. repeat split; discriminate.
  - done.
  - apply new_Handle_ready.
  - by apply Forall_replicate.
  - by apply Forall_replicate.
  - by vm_compute.
  - by vm_compute.
  - by vm_compute.
  - exists req, sock', m, h'. split_and!; [exact E|exact Es|exact Ex|exact Hd].
Defined.

(** ** Calls that go wrong *)

(** A connection that breaks after the header of the answer: the call returns 0, which is
    success, and has no connection information. *)
Lemma broken_answer_reported_as_success :
  let s := mkSocket [SR_some 1000] [SR_some 16; SR_failed] [] (INIT_RESPONSE_FRAME 32 (sb_code FNDOK)) in
  fst <$> SBAttachInterface (Some (bytes_of_string "Media")) 1 0 s = Some (0, None).
Proof. vm_compute. reflexivity. Qed.

(** A refused extended attach still writes its outputs: they are what the request left in
    the argument union, here the pulse for the connection information and the beginning of
    the interface's name for the notification. *)
Lemma refused_attach_writes_outputs :
  let s := mkSocket [SR_some 1000] [SR_some 16] [] (INIT_RESPONSE_FRAME 0 (sb_code FNDUnknownInterface)) in
  fst <$> SBAttachInterfaceExtended 42 (Some (bytes_of_string "MediaPlayer")) 1 0 7 8 9 s =
    Some (sb_code FNDUnknownInterface,
      Some (mkConnInfo (mkVersion 4 0) (mkChannel 8 9 7) (mkParty 42 1) (mkParty 0x6964654D 0x616C5061), 0x726579)).
Proof. vm_compute. reflexivity. Qed.

(** A name of 252 characters and [_tcp] need 257 bytes: the last is behind the argument. *)
Lemma tcp_suffix_overflows : attach_tcp_arg (replicate 252 65) 1 0 = None.
Proof. vm_compute. reflexivity. Qed.

(** The argument of [SBMatchInterfaceList] does not fit into an array of one element. *)
Lemma match_list_overflows : matchInterfaceList_arg None (zeroed (sizeof lay_SFNDInterfaceDescription)) 1 = None.
Proof. vm_compute. reflexivity. Qed.

(** An empty list leaves [*outCount] alone; the code of an invalid regular expression is
    taken for a count. *)
Lemma empty_list_without_count :
  let s := mkSocket [SR_some 1000] [SR_some 16] [] (INIT_RESPONSE_FRAME 0 0) in
  (fun r => (fst (fst (fst r)), snd (fst (fst r)))) <$> SBGetInterfaceList (zeroed 520) 2 s = Some (0, None).
Proof. vm_compute. reflexivity. Qed.

Lemma invalid_expression_as_count :
  let s := mkSocket [SR_some 1000] [SR_some 16] [] (INIT_RESPONSE_FRAME 0 (- sb_code FNDRegularExpression)) in
  (fun r => (fst (fst (fst r)), snd (fst (fst r)))) <$> SBMatchInterfaceList (Some (bytes_of_string "[")) (zeroed 520) 2 s =
    Some (0, Some (sb_code FNDRegularExpression)).
Proof. vm_compute. reflexivity. Qed.
