(* ===== verification/Slist.v ===== *)
(** The intrusive singly linked list: [src/common/Slist.hpp].

    The list is a ring of hooks through the sentinel [mFirst].  It is modelled over a
    heap that maps the address of a hook to its [mNext]; an access to an object that
    is not there and a failed assertion are [None].  Both accessor policies read and
    write one pointer per element, which is the entry of the heap.  The loops recurse
    on the number of hooks in the heap: every loop visits a hook once. *)

From S2P Require Import Prelude.

(** ** State *)

(** [hk_first] is the address of [mFirst]; [hk_disposed] the elements given to the
    disposer, which deletes them. *)
Record Slist := mkSlist { hk_first : Z; hk_next : gmap Z Z; hk_disposed : list Z }.
#[export] Instance Eta_Slist : Eta Slist := fun s => mkSlist (hk_first s) (hk_next s) (hk_disposed s).

(** ** Hooks *)

Definition slist_next (p : Z) (s : Slist) : option Z := hk_next s !! p.

Definition slist_set_next (p n : Z) (s : Slist) : option Slist :=
  match hk_next s !! p with
  | Some _ => Some (s <| hk_next ::= <[p := n]> |>)
  | None => None
  end.

Definition hookAfter (element after : Z) (s : Slist) : option Slist :=
  n ← slist_next after s;
  s ← slist_set_next element n s;
  slist_set_next after element s.

Definition unhookNext (d : Z) (s : Slist) : option Slist :=
  to_unhook ← slist_next d s;
  n ← slist_next to_unhook s;
  s ← slist_set_next d n s;
  slist_set_next to_unhook 0 s.

(** ** Iterators

    An iterator is its pointer. *)

(** [operator++]. *)
Definition slist_step (p : Z) (s : Slist) : option Z := if p =? 0 then None else slist_next p s.

Definition slist_end (s : Slist) : Z := hk_first s.

Definition slist_empty (s : Slist) : option bool := n ← slist_next (hk_first s) s; Some (n =? hk_first s).

Definition slist_begin (s : Slist) : option Z :=
  e ← slist_empty s; if (e : bool) then Some (hk_first s) else slist_next (hk_first s) s.

Definition slist_front (s : Slist) : option Z :=
  e ← slist_empty s; if (e : bool) then None else slist_next (hk_first s) s.

(** More than the iterations of any loop. *)
Definition slist_fuel (s : Slist) : nat := S (size (hk_next s)).

Fixpoint distance (fuel : nat) (first last : Z) (s : Slist) : option Z :=
  match fuel with
  | O => None
  | S fuel =>
    if first =? last then Some 0
    else p ← slist_step first s; n ← distance fuel p last s; Some (1 + n)
  end.

Definition slist_size (s : Slist) : option Z :=
  b ← slist_begin s; distance (slist_fuel s) b (slist_end s) s.

(** ** Changing the list *)

Definition slist_clear (s : Slist) : option Slist := slist_set_next (hk_first s) (hk_first s) s.

Definition slist_push_front (v : Z) (s : Slist) : option Slist := hookAfter v (hk_first s) s.

Definition slist_pop_front (s : Slist) : option Slist :=
  e ← slist_empty s; if (e : bool) then None else unhookNext (hk_first s) s.

(** The [for] loop of [erase]. *)
Fixpoint erase_loop (fuel : nat) (iter where_ : Z) (s : Slist) : option (Z * Slist) :=
  match fuel with
  | O => None
  | S fuel =>
    if iter =? slist_end s then None
    else
      tmp ← slist_step iter s;
      if tmp =? where_ then
        s ← unhookNext iter s; n ← slist_step iter s; Some (n, s)
      else erase_loop fuel tmp where_ s
  end.

Definition slist_erase (where_ : Z) (s : Slist) : option (Z * Slist) :=
  b ← slist_begin s;
  if where_ =? b then
    s ← slist_pop_front s; b ← slist_begin s; Some (b, s)
  else erase_loop (slist_fuel s) b where_ s.

(** A disposer that deletes its argument. *)
Definition dispose (p : Z) (s : Slist) : option Slist :=
  match hk_next s !! p with
  | Some _ => Some (s <| hk_next ::= delete p |> <| hk_disposed ::= (fun l => l ++ [p]) |>)
  | None => None
  end.

Definition erase_and_dispose (where_ : Z) (s : Slist) : option (Z * Slist) :=
  '(iter, s) ← slist_erase where_ s; s ← dispose where_ s; Some (iter, s).

Fixpoint clear_and_dispose_loop (fuel : nat) (s : Slist) : option Slist :=
  match fuel with
  | O => None
  | S fuel =>
    n ← slist_size s;
    if 0 <? n then b ← slist_begin s; '(_, s) ← erase_and_dispose b s; clear_and_dispose_loop fuel s
    else Some s
  end.

Definition clear_and_dispose (s : Slist) : option Slist := clear_and_dispose_loop (slist_fuel s) s.

Definition insert_after (where_ data : Z) (s : Slist) : option Slist :=
  if where_ =? 0 then None else hookAfter data where_ s.

(** The [for] loop of [insert]. *)
Fixpoint insert_loop (fuel : nat) (iter where_ data : Z) (s : Slist) : option Slist :=
  match fuel with
  | O => None
  | S fuel =>
    if iter =? slist_end s then None
    else
      tmp ← slist_step iter s;
      if (tmp =? where_) || (tmp =? slist_end s) then hookAfter data iter s
      else insert_loop fuel tmp where_ data s
  end.

Definition slist_insert (where_ data : Z) (s : Slist) : option Slist :=
  b ← slist_begin s;
  if where_ =? b then slist_push_front data s else insert_loop (slist_fuel s) b where_ data s.

(** The loop of [remove] and [remove_if], and with [disposing] of their variants with a
    disposer; [pred] is [*iter == val] for the former. *)
Fixpoint remove_loop (fuel : nat) (disposing : bool) (pred : Z -> bool) (iter : Z) (s : Slist) : option Slist :=
  match fuel with
  | O => None
  | S fuel =>
    if iter =? slist_end s then Some s
    else if pred iter then
      '(iter, s) ← (if disposing then erase_and_dispose iter s else slist_erase iter s);
      remove_loop fuel disposing pred iter s
    else iter ← slist_step iter s; remove_loop fuel disposing pred iter s
  end.

Definition remove_if (pred : Z -> bool) (s : Slist) : option Slist :=
  b ← slist_begin s; remove_loop (slist_fuel s) false pred b s.

Definition remove_if_and_dispose (pred : Z -> bool) (s : Slist) : option Slist :=
  b ← slist_begin s; remove_loop (slist_fuel s) true pred b s.

(** The loop over the old list in [reverse]. *)
Fixpoint reverse_loop (fuel : nat) (data : Z) (s : Slist) : option Slist :=
  match fuel with
  | O => None
  | S fuel =>
    if data =? hk_first s then Some s
    else n ← slist_next data s; s ← slist_push_front data s; reverse_loop fuel n s
  end.

Definition slist_reverse (s : Slist) : option Slist :=
  e ← slist_empty s;
  if (e : bool) then Some s
  else old ← slist_next (hk_first s) s; s ← slist_clear s; reverse_loop (slist_fuel s) old s.

(** ** What a list is *)

(** The elements hooked from [p] on, up to [last]. *)
Fixpoint chain (h : gmap Z Z) (last p : Z) (xs : list Z) : Prop :=
  match xs with
  | [] => p = last
  | x :: xs => p = x /\ exists n, h !! x = Some n /\ chain h last n xs
  end.

(** [s] is the list [xs], a ring through the sentinel; [live] are the objects that exist. *)
Record slist_repr (s : Slist) (xs : list Z) (live : gset Z) : Prop := {
  sr_dom : dom (hk_next s) = {[hk_first s]} ∪ live;
  sr_first : hk_first s <> 0 /\ hk_first s ∉ live /\ 0 ∉ live;
  sr_nodup : NoDup xs;
  sr_live : Forall (fun x => x ∈ live) xs;
  sr_ring : chain (hk_next s) (hk_first s) (hk_first s) (hk_first s :: xs);
}.

(** The first of [xs], or the end. *)
Definition head_or (last : Z) (xs : list Z) : Z := match xs with [] => last | x :: _ => x end.

(** ** Chains *)

Lemma chain_head h last p xs : chain h last p xs -> p = head_or last xs.
Proof. destruct xs; [done|]. by intros [-> _]. Qed.

Lemma chain_app h last p xs ys :
  chain h last p (xs ++ ys) <-> chain h (head_or last ys) p xs /\ chain h last (head_or last ys) ys.
Proof.
  revert p. induction xs as [|x xs IH]; intros p; cbn [app chain].
  - split; [intros Hc; rewrite <-(chain_head _ _ _ _ Hc); done|by intros [-> Hc]].
  - setoid_rewrite IH. naive_solver.
Qed.

Lemma chain_ext h h' last p xs : (forall x, x ∈ xs -> h' !! x = h !! x) -> chain h last p xs -> chain h' last p xs.
Proof.
  revert p. induction xs as [|x xs IH]; intros p Hx; cbn [chain]; [done|]. intros [-> (n & E & Hc)].
  split; [done|]. exists n. rewrite Hx by (by left). split; [done|]. apply IH; [|done]. intros y Hy. apply Hx. by right.
Qed.

Lemma chain_insert h last p xs y n : y ∉ xs -> chain h last p xs -> chain (<[y := n]> h) last p xs.
Proof.
  intros Hy. apply chain_ext. intros x Hx. apply lookup_insert_ne. by intros ->.
Qed.

(** The next of an element of a ring. *)
Lemma chain_next h last p ys a zs : chain h last p (ys ++ a :: zs) -> h !! a = Some (head_or last zs).
Proof.
  intros Hc. apply chain_app in Hc as [_ [_ (n & E & Hc)]]. by rewrite E, (chain_head _ _ _ _ Hc).
Qed.

(** Hooking [v] behind [a]. *)
Lemma hook_chain h last p ys a v zs :
  NoDup (ys ++ a :: v :: zs) -> chain h last p (ys ++ a :: zs) ->
  chain (<[a := v]> (<[v := head_or last zs]> h)) last p (ys ++ a :: v :: zs).
Proof.
  intros Hnd Hc. apply NoDup_app in Hnd as (_ & Hys & Hnd).
  apply NoDup_cons in Hnd as [Ha Hnd]. apply NoDup_cons in Hnd as [Hv Hnd].
  rewrite not_elem_of_cons in Ha. destruct Ha as [Hav Ha].
  apply chain_app in Hc as [H1 [_ (n & E & H2)]]. apply chain_app. split.
  - do 2 (apply chain_insert; [intros Hi; apply (Hys _ Hi); set_solver|]). exact H1.
  - split; [done|]. exists v. rewrite lookup_insert_eq. split; [done|]. split; [done|]. exists (head_or last zs).
    rewrite lookup_insert_ne, lookup_insert_eq by done. split; [done|].
    rewrite (chain_head _ _ _ _ H2) in H2. do 2 (apply chain_insert; [done|]). exact H2.
Qed.

(** Unhooking [b] from behind [a]. *)
Lemma unhook_chain h last p ys a b zs :
  NoDup (ys ++ a :: b :: zs) -> chain h last p (ys ++ a :: b :: zs) ->
  chain (<[b := 0]> (<[a := head_or last zs]> h)) last p (ys ++ a :: zs).
Proof.
  intros Hnd Hc. apply NoDup_app in Hnd as (_ & Hys & Hnd).
  apply NoDup_cons in Hnd as [Ha Hnd]. apply NoDup_cons in Hnd as [Hb Hnd].
  rewrite not_elem_of_cons in Ha. destruct Ha as [Hab Ha].
  apply chain_app in Hc as [H1 [_ (n & E & [-> (m & E2 & H2)])]]. apply chain_app. split.
  - do 2 (apply chain_insert; [intros Hi; apply (Hys _ Hi); set_solver|]). exact H1.
  - split; [done|]. exists (head_or last zs). rewrite lookup_insert_ne, lookup_insert_eq by done. split; [done|].
    rewrite (chain_head _ _ _ _ H2) in H2. do 2 (apply chain_insert; [done|]). exact H2.
Qed.

(** ** The basic operations *)

Lemma set_next_dom p n s : p ∈ dom (hk_next s) -> slist_set_next p n s = Some (s <| hk_next ::= <[p := n]> |>).
Proof. intros [m Hm]%elem_of_dom. unfold slist_set_next. by rewrite Hm. Qed.

Lemma sr_dom_in s xs live x : slist_repr s xs live -> x ∈ hk_first s :: xs -> x ∈ dom (hk_next s).
Proof.
  intros [Hd _ _ Hl _] Hx. rewrite Hd. rewrite Forall_forall in Hl. apply elem_of_cons in Hx as [->|Hx]; set_solver.
Qed.

Lemma sr_ring_nodup s xs live : slist_repr s xs live -> NoDup (hk_first s :: xs).
Proof.
  intros [_ (_ & Hf & _) Hnd Hl _]. apply NoDup_cons. split; [|done]. intros Hx.
  rewrite Forall_forall in Hl. by apply Hf, Hl.
Qed.

Lemma sr_nonzero s xs live x : slist_repr s xs live -> x ∈ hk_first s :: xs -> x <> 0.
Proof.
  intros [_ (H1 & _ & H2) _ Hl _] Hx ->. rewrite Forall_forall in Hl. apply elem_of_cons in Hx as [Hx|Hx]; [done|].
  by apply H2, Hl.
Qed.

(** What the loops look at. *)
Lemma sr_next s xs live ys a zs :
  slist_repr s xs live -> hk_first s :: xs = ys ++ a :: zs ->
  slist_next a s = Some (head_or (hk_first s) zs) /\ slist_step a s = Some (head_or (hk_first s) zs).
Proof.
  intros Hr He. pose proof (sr_ring _ _ _ Hr) as Hc. rewrite He in Hc. apply chain_next in Hc.
  split; [done|]. unfold slist_step. rewrite (proj2 (Z.eqb_neq a 0)); [done|].
  apply (sr_nonzero s xs live); [done|]. rewrite He. set_solver.
Qed.

Lemma head_or_first s xs live zs :
  slist_repr s xs live -> (exists ys, xs = ys ++ zs) -> (head_or (hk_first s) zs =? hk_first s) = bool_decide (zs = []).
Proof.
  intros Hr [ys ->]. destruct zs as [|z zs]; [by rewrite bool_decide_true, Z.eqb_refl|].
  rewrite bool_decide_false by done. apply Z.eqb_neq. intros E. cbn in E. subst z.
  apply sr_ring_nodup in Hr. apply NoDup_cons in Hr as [Hr _]. apply Hr. set_solver.
Qed.

Lemma slist_empty_spec s xs live : slist_repr s xs live -> slist_empty s = Some (bool_decide (xs = [])).
Proof.
  intros Hr. unfold slist_empty. destruct (sr_next s xs live [] (hk_first s) xs Hr eq_refl) as [-> _].
  cbn [mbind option_bind]. f_equal. apply (head_or_first s xs live); [done|]. by exists [].
Qed.

Lemma slist_begin_spec s xs live : slist_repr s xs live -> slist_begin s = Some (head_or (hk_first s) xs).
Proof.
  intros Hr. unfold slist_begin. rewrite (slist_empty_spec _ _ _ Hr). cbn [mbind option_bind].
  case_bool_decide; [by subst|]. by destruct (sr_next s xs live [] (hk_first s) xs Hr eq_refl) as [-> _].
Qed.

(** Both ends of a change: [s'] has another heap with the same objects. *)
Lemma sr_change s xs live h' xs' :
  slist_repr s xs live -> dom h' = dom (hk_next s) -> NoDup (hk_first s :: xs') -> Forall (fun x => x ∈ live) xs' ->
  chain h' (hk_first s) (hk_first s) (hk_first s :: xs') -> slist_repr (s <| hk_next := h' |>) xs' live.
Proof.
  intros [Hd Hf _ _ _] Hd' Hnd Hl Hc. constructor; cbn; try done.
  - congruence.
  - by apply NoDup_cons in Hnd as [_ ?].
Qed.

Lemma hookAfter_spec s xs live a v ys zs :
  slist_repr s xs live -> v ∈ live -> v ∉ xs -> hk_first s :: xs = ys ++ a :: zs ->
  exists s', hookAfter v a s = Some s' /\ slist_repr s' (drop 1 (ys ++ a :: v :: zs)) live /\
    hk_first s' = hk_first s /\ hk_disposed s' = hk_disposed s.
Proof.
  intros Hr Hv Hnv He. pose proof (sr_next s xs live ys a zs Hr He) as [Hn _].
  assert (v ∈ dom (hk_next s)) as Hvd by (rewrite (sr_dom _ _ _ Hr); set_solver).
  assert (a ∈ dom (hk_next s)) as Had by (apply (sr_dom_in s xs live); [done|rewrite He; set_solver]).
  assert (v <> hk_first s) as Hvf by (intros ->; destruct (sr_first _ _ _ Hr) as (_ & Hf & _); done).
  assert (hk_first s :: drop 1 (ys ++ a :: v :: zs) = ys ++ a :: v :: zs) as Hdrop
    by (destruct ys; injection He as <- _; by rewrite ?drop_0).
  assert (NoDup (ys ++ a :: v :: zs)) as Hnd.
  { apply (NoDup_Permutation_proper _ (v :: hk_first s :: xs)).
    - rewrite He. symmetry. change (a :: zs) with ([a] ++ zs). change (a :: v :: zs) with ([a] ++ v :: zs).
      rewrite !app_assoc. apply Permutation_middle.
    - apply NoDup_cons. split; [|by apply (sr_ring_nodup s xs live)]. rewrite not_elem_of_cons. done. }
  unfold hookAfter. rewrite Hn. cbn [mbind option_bind]. rewrite set_next_dom by done. cbn [mbind option_bind].
  rewrite set_next_dom by (cbn; rewrite dom_insert; set_solver). eexists. split; [reflexivity|].
  split; [|done]. apply (sr_change s xs live).
  - done.
  - rewrite !dom_insert_L. set_solver.
  - by rewrite Hdrop.
  - assert (Forall (fun x => x ∈ v :: xs) (drop 1 (ys ++ a :: v :: zs))) as Hsub.
    { apply Forall_forall. intros x Hx. assert (x ∈ ys ++ a :: v :: zs /\ x <> hk_first s) as [Hx1 Hx2].
      { rewrite <-Hdrop. split; [by right|]. intros ->. rewrite <-Hdrop in Hnd. by apply NoDup_cons in Hnd as [Hnd _]. }
      assert (x ∈ v :: hk_first s :: xs) by (rewrite He; set_solver). set_solver. }
    eapply Forall_impl; [exact Hsub|]. intros x Hx. pose proof (sr_live _ _ _ Hr) as Hl. rewrite Forall_forall in Hl.
    apply elem_of_cons in Hx as [->|Hx]; [done|by apply Hl].
  - rewrite Hdrop. pose proof (sr_ring _ _ _ Hr) as Hc. rewrite He in Hc. cbn. by apply hook_chain.
Qed.

Lemma nodup_unhook (ys zs : list Z) a b : NoDup (ys ++ a :: b :: zs) -> NoDup (ys ++ a :: zs).
Proof. intros Hnd. eapply sublist_NoDup; [exact Hnd|]. apply sublist_app; [done|]. by do 2 constructor. Qed.

Lemma unhookNext_spec s xs live a b ys zs :
  slist_repr s xs live -> hk_first s :: xs = ys ++ a :: b :: zs ->
  exists s', unhookNext a s = Some s' /\ slist_repr s' (drop 1 (ys ++ a :: zs)) live /\
    hk_first s' = hk_first s /\ hk_disposed s' = hk_disposed s.
Proof.
  intros Hr He. destruct (sr_next s xs live ys a (b :: zs) Hr He) as [Hn _].
  destruct (sr_next s xs live (ys ++ [a]) b zs Hr) as [Hn2 _]; [by rewrite <-app_assoc|].
  assert (a ∈ dom (hk_next s)) as Had by (apply (sr_dom_in s xs live); [done|rewrite He; set_solver]).
  assert (b ∈ dom (hk_next s)) as Hbd by (apply (sr_dom_in s xs live); [done|rewrite He; set_solver]).
  assert (hk_first s :: drop 1 (ys ++ a :: zs) = ys ++ a :: zs) as Hdrop
    by (destruct ys; injection He as <- _; by rewrite ?drop_0).
  pose proof (sr_ring_nodup _ _ _ Hr) as Hnd. rewrite He in Hnd.
  unfold unhookNext. rewrite Hn. cbn [mbind option_bind]. change (head_or (hk_first s) (b :: zs)) with b. rewrite Hn2. cbn [mbind option_bind].
  rewrite set_next_dom by done. cbn [mbind option_bind].
  rewrite set_next_dom by (cbn; rewrite dom_insert; set_solver). eexists. split; [reflexivity|].
  split; [|done]. apply (sr_change s xs live).
  - done.
  - rewrite !dom_insert_L. set_solver.
  - rewrite Hdrop. by apply nodup_unhook in Hnd.
  - pose proof (sr_live _ _ _ Hr) as Hl. apply Forall_forall. intros x Hx. rewrite Forall_forall in Hl. apply Hl.
    assert (x ∈ ys ++ a :: zs /\ x <> hk_first s) as [Hx1 Hx2].
    { rewrite <-Hdrop. split; [by right|]. intros ->.
      apply nodup_unhook in Hnd. rewrite <-Hdrop in Hnd. by apply NoDup_cons in Hnd as [Hnd _]. }
    assert (x ∈ hk_first s :: xs) by (rewrite He; set_solver). set_solver.
  - rewrite Hdrop. pose proof (sr_ring _ _ _ Hr) as Hc. rewrite He in Hc. cbn. by apply unhook_chain.
Qed.

(** ** The operations on lists *)

(** [s'] is [s] with the elements [xs'], nothing disposed. *)
Definition becomes (s s' : Slist) (xs' : list Z) (live : gset Z) : Prop :=
  slist_repr s' xs' live /\ hk_first s' = hk_first s /\ hk_disposed s' = hk_disposed s.

Lemma push_front_spec s xs live v :
  slist_repr s xs live -> v ∈ live -> v ∉ xs -> exists s', slist_push_front v s = Some s' /\ becomes s s' (v :: xs) live.
Proof.
  intros Hr Hv Hn. destruct (hookAfter_spec s xs live (hk_first s) v [] xs Hr Hv Hn eq_refl) as (s' & E & Hr' & Hs).
  by exists s'.
Qed.

Lemma pop_front_spec s x xs live :
  slist_repr s (x :: xs) live -> exists s', slist_pop_front s = Some s' /\ becomes s s' xs live.
Proof.
  intros Hr. unfold slist_pop_front. rewrite (slist_empty_spec _ _ _ Hr). cbn [mbind option_bind].
  destruct (unhookNext_spec s (x :: xs) live (hk_first s) x [] xs Hr eq_refl) as (s' & E & Hr' & Hs).
  by exists s'.
Qed.

Lemma clear_spec s xs live : slist_repr s xs live -> exists s', slist_clear s = Some s' /\ becomes s s' [] live.
Proof.
  intros Hr. unfold slist_clear. rewrite set_next_dom by (apply (sr_dom_in s xs live); [done|by left]).
  eexists. split; [done|]. split; [|done]. apply (sr_change s xs live); try done.
  - rewrite dom_insert_L. pose proof (sr_dom _ _ _ Hr). set_solver.
  - apply NoDup_singleton.
  - split; [done|]. exists (hk_first s). by rewrite lookup_insert_eq.
Qed.

(** A loop has enough fuel. *)
Lemma slist_fuel_spec s xs live : slist_repr s xs live -> (length xs < slist_fuel s)%nat.
Proof.
  intros Hr. unfold slist_fuel. rewrite <-size_dom.
  assert (list_to_set (C:=gset Z) xs ⊆ dom (hk_next s)) as Hsub.
  { intros x Hx%elem_of_list_to_set. apply (sr_dom_in s xs live); [done|by right]. }
  apply subseteq_size in Hsub. rewrite size_list_to_set in Hsub by apply Hr. lia.
Qed.

Lemma distance_spec s xs live ys zs fuel :
  slist_repr s xs live -> xs = ys ++ zs -> (length zs < fuel)%nat ->
  distance fuel (head_or (hk_first s) zs) (hk_first s) s = Some (Z.of_nat (length zs)).
Proof.
  intros Hr. revert ys zs. induction fuel as [|fuel IH]; intros ys zs Hxs Hf; [lia|]. cbn [distance].
  rewrite (head_or_first s xs live zs Hr) by (by exists ys). destruct zs as [|z zs]; [done|].
  rewrite bool_decide_false by done. cbn [head_or].
  destruct (sr_next s xs live (hk_first s :: ys) z zs Hr) as [_ ->]; [by rewrite Hxs|].
  cbn [mbind option_bind]. rewrite (IH (ys ++ [z]) zs); [|by rewrite <-app_assoc|cbn in Hf; lia].
  cbn [mbind option_bind length]. f_equal. lia.
Qed.

Lemma slist_size_spec s xs live : slist_repr s xs live -> slist_size s = Some (Z.of_nat (length xs)).
Proof.
  intros Hr. unfold slist_size. rewrite (slist_begin_spec _ _ _ Hr). cbn [mbind option_bind].
  apply (distance_spec s xs live []); [done|done|by apply (slist_fuel_spec s xs live)].
Qed.

(** Two positions of a list without duplicates are different. *)
Lemma head_or_ne s xs live l y zs :
  slist_repr s xs live -> xs = l ++ y :: zs -> forall m w r, zs = m ++ w :: r -> (y =? w) = false.
Proof.
  intros Hr Hxs m w r Hz. apply Z.eqb_neq. intros ->. pose proof (sr_nodup _ _ _ Hr) as Hnd. rewrite Hxs, Hz in Hnd.
  apply NoDup_app in Hnd as (_ & _ & Hnd). apply NoDup_cons in Hnd as [Hnd _]. apply Hnd. set_solver.
Qed.

Lemma erase_loop_spec s xs live fuel l1 iter l2 w r :
  slist_repr s xs live -> xs = (l1 ++ iter :: l2) ++ w :: r -> (length l2 < fuel)%nat ->
  exists s', erase_loop fuel iter w s = Some (head_or (hk_first s) r, s') /\
    becomes s s' ((l1 ++ iter :: l2) ++ r) live.
Proof.
  intros Hr. revert l1 iter l2. induction fuel as [|fuel IH]; intros l1 iter l2 Hxs Hf; [lia|]. cbn [erase_loop].
  pose proof (head_or_first s xs live (iter :: l2 ++ w :: r) Hr) as Hne. cbn [head_or] in Hne. unfold slist_end.
  rewrite Hne by (exists l1; by rewrite Hxs, <-app_assoc). rewrite bool_decide_false by done.
  assert (hk_first s :: xs = (hk_first s :: l1) ++ iter :: (l2 ++ w :: r)) as He by (rewrite Hxs, <-app_assoc; done).
  destruct (sr_next s xs live _ iter (l2 ++ w :: r) Hr He) as [_ ->]. cbn [mbind option_bind].
  destruct l2 as [|y l2].
  - cbn [app head_or] in *. rewrite Z.eqb_refl.
    destruct (unhookNext_spec s xs live iter w (hk_first s :: l1) r Hr He) as (s' & -> & Hr' & Hf' & Hd').
    cbn [mbind option_bind].
    assert (drop 1 ((hk_first s :: l1) ++ iter :: r) = (l1 ++ [iter]) ++ r) as Hd by (rewrite <-app_assoc; done).
    rewrite Hd in Hr'. destruct (sr_next s' _ live (hk_first s' :: l1) iter r Hr') as [_ ->]; [by rewrite <-app_assoc|].
    cbn [mbind option_bind]. rewrite Hf'. by exists s'.
  - cbn [app head_or]. rewrite (head_or_ne s xs live (l1 ++ [iter]) y (l2 ++ w :: r) Hr) with (m := l2) (r := r);
      [|by rewrite Hxs, <-!app_assoc|done].
    destruct (IH (l1 ++ [iter]) y l2) as (s' & -> & Hb); [by rewrite Hxs, <-!app_assoc|cbn in Hf; lia|].
    exists s'. split; [done|]. by rewrite <-(app_assoc l1) in Hb.
Qed.

Lemma erase_spec s xs live l w r :
  slist_repr s xs live -> xs = l ++ w :: r ->
  exists s', slist_erase w s = Some (head_or (hk_first s) r, s') /\ becomes s s' (l ++ r) live.
Proof.
  intros Hr Hxs. unfold slist_erase. rewrite (slist_begin_spec _ _ _ Hr). cbn [mbind option_bind].
  destruct l as [|x l].
  - subst xs. cbn [app head_or] in *. rewrite Z.eqb_refl.
    destruct (pop_front_spec s w r live Hr) as (s' & -> & Hr' & Hf & Hd). cbn [mbind option_bind].
    rewrite (slist_begin_spec _ _ _ Hr'), Hf. by exists s'.
  - pose proof (head_or_ne s xs live [] x (l ++ w :: r) Hr Hxs l w r eq_refl) as Hne.
    rewrite Hxs. cbn [app head_or]. rewrite Z.eqb_sym, Hne.
    pose proof (slist_fuel_spec s xs live Hr) as Hfuel. rewrite Hxs in Hfuel. cbn in Hfuel. rewrite length_app in Hfuel.
    apply (erase_loop_spec s xs live _ [] x l); [done|done|lia].
Qed.

Lemma dispose_spec s xs live w :
  slist_repr s xs live -> w ∈ live -> w ∉ xs ->
  exists s', dispose w s = Some s' /\ slist_repr s' xs (live ∖ {[w]}) /\
    hk_first s' = hk_first s /\ hk_disposed s' = hk_disposed s ++ [w].
Proof.
  intros Hr Hw Hn. assert (w ∈ dom (hk_next s)) as [m Hm]%elem_of_dom by (rewrite (sr_dom _ _ _ Hr); set_solver).
  unfold dispose. rewrite Hm. eexists. split; [done|]. split; [|done].
  destruct Hr as [Hd (H1 & H2 & H3) Hnd Hl Hc].
  assert (w <> hk_first s) as Hwf by (by intros ->).
  constructor; cbn.
  - rewrite dom_delete_L, Hd. set_solver.
  - set_solver.
  - done.
  - rewrite Forall_forall in Hl |- *. intros x Hx. specialize (Hl x Hx). set_solver.
  - change (chain (delete w (hk_next s)) (hk_first s) (hk_first s) (hk_first s :: xs)).
    apply (chain_ext (hk_next s)); [|exact Hc]. intros x Hx. apply lookup_delete_ne. intros ->.
    by apply elem_of_cons in Hx as [Hx|Hx].
Qed.

Lemma erase_and_dispose_spec s xs live l w r :
  slist_repr s xs live -> xs = l ++ w :: r ->
  exists s', erase_and_dispose w s = Some (head_or (hk_first s) r, s') /\ slist_repr s' (l ++ r) (live ∖ {[w]}) /\
    hk_first s' = hk_first s /\ hk_disposed s' = hk_disposed s ++ [w].
Proof.
  intros Hr Hxs. unfold erase_and_dispose. destruct (erase_spec s xs live l w r Hr Hxs) as (s1 & -> & Hr1 & Hf1 & Hd1).
  cbn [mbind option_bind]. pose proof (sr_nodup _ _ _ Hr) as Hnd. pose proof (sr_live _ _ _ Hr) as Hl. rewrite Hxs in Hnd, Hl.
  destruct (dispose_spec s1 (l ++ r) live w Hr1) as (s2 & -> & Hr2 & Hf2 & Hd2).
  - rewrite Forall_forall in Hl. apply Hl. set_solver.
  - apply NoDup_app in Hnd as (_ & Hnl & Hnd). apply NoDup_cons in Hnd as [Hnr _]. intros Hw.
    apply elem_of_app in Hw as [Hw|Hw]; [|done]. apply (Hnl _ Hw). by left.
  - cbn [mbind option_bind]. exists s2. rewrite Hf2, Hd2, Hf1, Hd1. done.
Qed.

Lemma insert_loop_spec s xs live fuel l1 iter l2 r v :
  slist_repr s xs live -> xs = (l1 ++ iter :: l2) ++ r -> v ∈ live -> v ∉ xs -> (length l2 < fuel)%nat ->
  exists s', insert_loop fuel iter (head_or (hk_first s) r) v s = Some s' /\
    becomes s s' ((l1 ++ iter :: l2) ++ v :: r) live.
Proof.
  intros Hr Hxs Hv Hn. revert l1 iter l2 Hxs. induction fuel as [|fuel IH]; intros l1 iter l2 Hxs Hf; [lia|].
  cbn [insert_loop]. unfold slist_end.
  pose proof (head_or_first s xs live (iter :: l2 ++ r) Hr) as Hne. cbn [head_or] in Hne.
  rewrite Hne by (exists l1; by rewrite Hxs, <-app_assoc). rewrite bool_decide_false by done.
  assert (hk_first s :: xs = (hk_first s :: l1) ++ iter :: (l2 ++ r)) as He by (rewrite Hxs, <-app_assoc; done).
  destruct (sr_next s xs live _ iter (l2 ++ r) Hr He) as [_ ->]. cbn [mbind option_bind].
  destruct l2 as [|y l2].
  - cbn [app]. rewrite Z.eqb_refl. cbn [orb].
    destruct (hookAfter_spec s xs live iter v (hk_first s :: l1) r Hr Hv Hn He) as (s' & -> & Hr' & Hs).
    exists s'. split; [done|]. split; [|done].
    assert (drop 1 ((hk_first s :: l1) ++ iter :: v :: r) = (l1 ++ [iter]) ++ v :: r) as <- by (rewrite <-app_assoc; done).
    done.
  - cbn [app head_or].
    assert ((y =? head_or (hk_first s) r) = false) as ->.
    { destruct r as [|w r].
      - pose proof (head_or_first s xs live (y :: l2) Hr) as Hy. cbn [head_or] in Hy |- *. rewrite Hy; [done|].
        exists (l1 ++ [iter]). by rewrite Hxs, app_nil_r, <-app_assoc.
      - apply (head_or_ne s xs live (l1 ++ [iter]) y (l2 ++ w :: r) Hr) with (m := l2) (r := r); [|done].
        by rewrite Hxs, <-!app_assoc. }
    pose proof (head_or_first s xs live (y :: l2 ++ r) Hr) as Hy. cbn [head_or] in Hy.
    rewrite Hy by (exists (l1 ++ [iter]); by rewrite Hxs, <-!app_assoc). rewrite bool_decide_false by done. cbn [orb].
    destruct (IH (l1 ++ [iter]) y l2) as (s' & -> & Hb); [by rewrite Hxs, <-!app_assoc|cbn in Hf; lia|].
    exists s'. split; [done|]. by rewrite <-(app_assoc l1) in Hb.
Qed.

Lemma insert_spec s xs live l r v :
  slist_repr s xs live -> xs = l ++ r -> v ∈ live -> v ∉ xs ->
  exists s', slist_insert (head_or (hk_first s) r) v s = Some s' /\ becomes s s' (l ++ v :: r) live.
Proof.
  intros Hr Hxs Hv Hn. unfold slist_insert. rewrite (slist_begin_spec _ _ _ Hr). cbn [mbind option_bind].
  destruct l as [|x l].
  - subst xs. cbn [app]. rewrite Z.eqb_refl. by apply push_front_spec.
  - assert ((head_or (hk_first s) r =? x) = false) as Hne.
    { rewrite Z.eqb_sym. destruct r as [|w r]; cbn [head_or].
      - pose proof (head_or_first s xs live xs Hr) as Hx. rewrite Hxs in Hx at 1. cbn [head_or app] in Hx.
        rewrite Hx by (by exists []). by rewrite Hxs.
      - by apply (head_or_ne s xs live [] x (l ++ w :: r) Hr Hxs l w r). }
    assert (head_or (hk_first s) xs = x) as -> by (by rewrite Hxs). rewrite Hne.
    pose proof (slist_fuel_spec s xs live Hr) as Hfuel. rewrite Hxs in Hfuel. cbn in Hfuel. rewrite length_app in Hfuel.
    apply (insert_loop_spec s xs live _ [] x l r v); [done|done|done|done|lia].
Qed.

Lemma insert_after_spec s xs live l w r v :
  slist_repr s xs live -> xs = l ++ w :: r -> v ∈ live -> v ∉ xs ->
  exists s', insert_after w v s = Some s' /\ becomes s s' (l ++ w :: v :: r) live.
Proof.
  intros Hr Hxs Hv Hn. unfold insert_after.
  rewrite (proj2 (Z.eqb_neq w 0)) by (apply (sr_nonzero s xs live); [done|rewrite Hxs; set_solver]).
  destruct (hookAfter_spec s xs live w v (hk_first s :: l) r Hr Hv Hn) as (s' & -> & Hr' & Hs); [by rewrite Hxs|].
  by exists s'.
Qed.

Lemma remove_loop_spec fuel disposing pred s xs live l r :
  slist_repr s xs live -> xs = l ++ r -> (length r < fuel)%nat ->
  let gone := filter (fun x => pred x = true) r in
  exists s', remove_loop fuel disposing pred (head_or (hk_first s) r) s = Some s' /\
    slist_repr s' (l ++ filter (fun x => pred x = false) r)
      (if disposing then live ∖ list_to_set gone else live) /\
    hk_first s' = hk_first s /\ hk_disposed s' = hk_disposed s ++ (if disposing then gone else []).
Proof.
  revert s xs live l r. induction fuel as [|fuel IH]; intros s xs live l r Hr Hxs Hf; [lia|]. cbn [remove_loop].
  unfold slist_end. rewrite (head_or_first s xs live r Hr) by (by exists l). destruct r as [|x r].
  - rewrite bool_decide_true by done. exists s. rewrite !filter_nil. split; [done|]. rewrite <-Hxs.
    assert ((if disposing then live ∖ list_to_set [] else live) = live) as -> by (destruct disposing; set_solver).
    split_and!; [done|done|]. by destruct disposing; rewrite app_nil_r.
  - rewrite bool_decide_false by done. cbn [head_or]. destruct (pred x) eqn:Hp.
    + rewrite (filter_cons_True (fun x => pred x = true)), (filter_cons_False (fun x => pred x = false)) by congruence.
      cbn [length] in Hf. destruct disposing.
      * destruct (erase_and_dispose_spec s xs live l x r Hr Hxs) as (s1 & -> & Hr1 & Hf1 & Hd1). cbn [mbind option_bind].
        rewrite <-Hf1. destruct (IH s1 _ _ l r Hr1 eq_refl) as (s' & -> & Hr' & Hf' & Hd'); [lia|].
        exists s'. split_and!; [done| |congruence|].
        -- cbn [list_to_set foldr]. rewrite difference_difference_l_L in Hr'. done.
        -- rewrite Hd', Hd1, <-app_assoc. done.
      * destruct (erase_spec s xs live l x r Hr Hxs) as (s1 & -> & Hr1 & Hf1 & Hd1). cbn [mbind option_bind].
        rewrite <-Hf1. destruct (IH s1 _ _ l r Hr1 eq_refl) as (s' & -> & Hr' & Hf' & Hd'); [lia|].
        exists s'. split_and!; [done|done|congruence|]. by rewrite Hd', Hd1.
    + rewrite (filter_cons_False (fun x => pred x = true)), (filter_cons_True (fun x => pred x = false)) by congruence.
      destruct (sr_next s xs live (hk_first s :: l) x r Hr) as [_ ->]; [by rewrite Hxs|]. cbn [mbind option_bind].
      destruct (IH s xs live (l ++ [x]) r Hr) as (s' & -> & Hr' & Hs'); [by rewrite <-app_assoc|cbn in Hf; lia|].
      exists s'. split; [done|]. by rewrite <-app_assoc in Hr'.
Qed.

Lemma clear_and_dispose_spec fuel s xs live :
  slist_repr s xs live -> (length xs < fuel)%nat ->
  exists s', clear_and_dispose_loop fuel s = Some s' /\ slist_repr s' [] (live ∖ list_to_set xs) /\
    hk_first s' = hk_first s /\ hk_disposed s' = hk_disposed s ++ xs.
Proof.
  revert s xs live. induction fuel as [|fuel IH]; intros s xs live Hr Hf; [lia|]. cbn [clear_and_dispose_loop].
  rewrite (slist_size_spec _ _ _ Hr). cbn [mbind option_bind]. destruct xs as [|x xs].
  - cbn. exists s. rewrite app_nil_r, difference_empty_L. done.
  - rewrite (proj2 (Z.ltb_lt 0 _)) by (cbn [length]; lia). rewrite (slist_begin_spec _ _ _ Hr). cbn [mbind option_bind head_or].
    destruct (erase_and_dispose_spec s (x :: xs) live [] x xs Hr eq_refl) as (s1 & -> & Hr1 & Hf1 & Hd1).
    cbn [mbind option_bind]. destruct (IH s1 xs _ Hr1) as (s' & -> & Hr' & Hf' & Hd'); [cbn in Hf; lia|].
    exists s'. split_and!; [done| |congruence|].
    + cbn [list_to_set foldr]. by rewrite difference_difference_l_L in Hr'.
    + by rewrite Hd', Hd1, <-app_assoc.
Qed.

Lemma set_next_frame p n s s' x : slist_set_next p n s = Some s' -> x <> p -> hk_next s' !! x = hk_next s !! x.
Proof. unfold slist_set_next. case_match; [|done]. intros [= <-] Hx. cbn. by rewrite lookup_insert_ne. Qed.

Lemma hookAfter_frame v a s s' x : hookAfter v a s = Some s' -> x <> v -> x <> a -> hk_next s' !! x = hk_next s !! x.
Proof.
  unfold hookAfter. destruct (slist_next a s) as [n|]; [|done]. cbn [mbind option_bind].
  destruct (slist_set_next v n s) as [s1|] eqn:E; [|done]. cbn [mbind option_bind]. intros E2 Hv Ha.
  rewrite (set_next_frame _ _ _ _ _ E2 Ha). by apply (set_next_frame _ _ _ _ _ E).
Qed.

Lemma reverse_loop_spec fuel s acc live p r :
  slist_repr s acc live -> chain (hk_next s) (hk_first s) p r -> NoDup r -> Forall (fun x => x ∈ live) r ->
  (forall x, x ∈ r -> x ∉ acc) -> (length r < fuel)%nat ->
  exists s', reverse_loop fuel p s = Some s' /\ becomes s s' (rev r ++ acc) live.
Proof.
  revert s acc p r. induction fuel as [|fuel IH]; intros s acc p r Hr Hc Hnd Hl Hdis Hf; [lia|]. cbn [reverse_loop].
  destruct r as [|x r].
  - rewrite Hc, Z.eqb_refl. by exists s.
  - destruct Hc as [-> (n & E & Hc)]. apply NoDup_cons in Hnd as [Hx Hnd]. apply Forall_cons in Hl as [Hxl Hl].
    assert (x <> hk_first s) as Hxf by (intros ->; destruct (sr_first _ _ _ Hr) as (_ & Hf1 & _); done).
    rewrite (proj2 (Z.eqb_neq x _)) by done. unfold slist_next. rewrite E. cbn [mbind option_bind].
    destruct (push_front_spec s acc live x Hr Hxl) as (s1 & E1 & Hr1 & Hf1 & Hd1); [apply Hdis; by left|].
    rewrite E1. cbn [mbind option_bind].
    destruct (IH s1 (x :: acc) n r Hr1) as (s' & -> & Hr' & Hf' & Hd').
    + rewrite Hf1. apply (chain_ext (hk_next s)); [|done]. intros y Hy. apply (hookAfter_frame _ _ _ _ _ E1); [by intros ->|].
      intros ->. rewrite Forall_forall in Hl. destruct (sr_first _ _ _ Hr) as (_ & Hf2 & _). by apply Hf2, Hl.
    + done.
    + done.
    + intros y Hy Hya. apply elem_of_cons in Hya as [->|Hya]; [done|]. apply (Hdis y); [by right|done].
    + cbn in Hf. lia.
    + exists s'. split; [done|]. cbn [rev]. rewrite <-app_assoc. split; [done|]. split; congruence.
Qed.

Lemma reverse_spec s xs live :
  slist_repr s xs live -> exists s', slist_reverse s = Some s' /\ becomes s s' (rev xs) live.
Proof.
  intros Hr. unfold slist_reverse. rewrite (slist_empty_spec _ _ _ Hr). cbn [mbind option_bind].
  case_bool_decide as He; [by subst; exists s|].
  destruct (sr_next s xs live [] (hk_first s) xs Hr eq_refl) as [-> _]. cbn [mbind option_bind].
  destruct (clear_spec s xs live Hr) as (s1 & E1 & Hr1 & Hf1 & Hd1). rewrite E1. cbn [mbind option_bind].
  assert (slist_fuel s1 = slist_fuel s) as ->.
  { unfold slist_fuel. rewrite <-!size_dom. by rewrite (sr_dom _ _ _ Hr1), (sr_dom _ _ _ Hr), Hf1. }
  destruct (reverse_loop_spec (slist_fuel s) s1 [] live (head_or (hk_first s) xs) xs Hr1) as (s' & -> & Hr' & Hf' & Hd').
  - rewrite Hf1. pose proof (sr_ring _ _ _ Hr) as [_ (p & E & Hc)]. rewrite (chain_head _ _ _ _ Hc) in Hc.
    apply (chain_ext (hk_next s)); [|exact Hc]. intros x Hx. apply (set_next_frame _ _ _ _ _ E1). intros ->.
    pose proof (sr_ring_nodup _ _ _ Hr) as Hnd. by apply NoDup_cons in Hnd as [Hnd _].
  - apply Hr.
  - apply Hr.
  - intros x _. apply not_elem_of_nil.
  - by apply (slist_fuel_spec s xs live).
  - exists s'. split; [done|]. rewrite app_nil_r in Hr'. split; [done|]. split; congruence.
Qed.

(** ** Every sequence of operations *)

Inductive SlistOp :=
  | SO_push_front (v : Z)
  | SO_pop_front
  | SO_insert_after (where_ v : Z)
  | SO_insert (where_ : option Z) (v : Z)   (* [None]: before [end()] *)
  | SO_erase (where_ : Z)
  | SO_erase_and_dispose (where_ : Z)
  | SO_remove_if (pred : Z -> bool)
  | SO_remove_if_and_dispose (pred : Z -> bool)
  | SO_reverse
  | SO_clear
  | SO_clear_and_dispose.

Definition slist_op (o : SlistOp) (s : Slist) : option Slist :=
  match o with
  | SO_push_front v => slist_push_front v s
  | SO_pop_front => slist_pop_front s
  | SO_insert_after w v => insert_after w v s
  | SO_insert w v => slist_insert (default (slist_end s) w) v s
  | SO_erase w => snd <$> slist_erase w s
  | SO_erase_and_dispose w => snd <$> erase_and_dispose w s
  | SO_remove_if pred => remove_if pred s
  | SO_remove_if_and_dispose pred => remove_if_and_dispose pred s
  | SO_reverse => slist_reverse s
  | SO_clear => slist_clear s
  | SO_clear_and_dispose => clear_and_dispose s
  end.

Fixpoint slist_run (os : list SlistOp) (s : Slist) : option Slist :=
  match os with [] => Some s | o :: os => s ← slist_op o s; slist_run os s end.

(** The same on lists: the elements, and those disposed. *)
Fixpoint before_first (x : Z) (l : list Z) : list Z :=
  match l with [] => [] | y :: l => if y =? x then [] else y :: before_first x l end.

Fixpoint after_first (x : Z) (l : list Z) : list Z :=
  match l with [] => [] | y :: l => if y =? x then l else after_first x l end.

Definition list_op (o : SlistOp) (xs : list Z) : list Z * list Z :=
  match o with
  | SO_push_front v => (v :: xs, [])
  | SO_pop_front => (drop 1 xs, [])
  | SO_insert_after w v => (before_first w xs ++ w :: v :: after_first w xs, [])
  | SO_insert (Some w) v => (before_first w xs ++ v :: w :: after_first w xs, [])
  | SO_insert None v => (xs ++ [v], [])
  | SO_erase w => (before_first w xs ++ after_first w xs, [])
  | SO_erase_and_dispose w => (before_first w xs ++ after_first w xs, [w])
  | SO_remove_if pred => (filter (fun x => pred x = false) xs, [])
  | SO_remove_if_and_dispose pred => (filter (fun x => pred x = false) xs, filter (fun x => pred x = true) xs)
  | SO_reverse => (rev xs, [])
  | SO_clear => ([], [])
  | SO_clear_and_dispose => ([], xs)
  end.

(** A new element exists and is in no list; positions are in the list. *)
Definition op_ok (o : SlistOp) (xs : list Z) (live : gset Z) : Prop :=
  match o with
  | SO_push_front v | SO_insert None v => v ∈ live /\ v ∉ xs
  | SO_insert_after w v | SO_insert (Some w) v => v ∈ live /\ v ∉ xs /\ w ∈ xs
  | SO_pop_front => xs <> []
  | SO_erase w | SO_erase_and_dispose w => w ∈ xs
  | _ => True
  end.

Fixpoint list_run (os : list SlistOp) (xs : list Z) : list Z * list Z :=
  match os with
  | [] => (xs, [])
  | o :: os =>
    let '(xs, gone) := list_op o xs in let '(xs, gone') := list_run os xs in (xs, gone ++ gone')
  end.

Fixpoint ops_ok (os : list SlistOp) (xs : list Z) (live : gset Z) : Prop :=
  match os with
  | [] => True
  | o :: os => op_ok o xs live /\ ops_ok os (list_op o xs).1 (live ∖ list_to_set (list_op o xs).2)
  end.

(** What a user sees of a list: the elements an iteration visits. *)
Fixpoint iterate (fuel : nat) (iter : Z) (s : Slist) : option (list Z) :=
  match fuel with
  | O => None
  | S fuel =>
    if iter =? slist_end s then Some []
    else p ← slist_step iter s; l ← iterate fuel p s; Some (iter :: l)
  end.

Definition slist_elements (s : Slist) : option (list Z) := b ← slist_begin s; iterate (slist_fuel s) b s.

Lemma split_first x l : x ∈ l -> l = before_first x l ++ x :: after_first x l.
Proof.
  induction l as [|y l IH]; [by intros ?%elem_of_nil|]. intros Hx. cbn. destruct (Z.eqb_spec y x) as [->|Hy]; [done|].
  apply elem_of_cons in Hx as [->|Hx]; [done|]. cbn. f_equal. by apply IH.
Qed.

Lemma iterate_spec fuel s xs live ys zs :
  slist_repr s xs live -> xs = ys ++ zs -> (length zs < fuel)%nat ->
  iterate fuel (head_or (hk_first s) zs) s = Some zs.
Proof.
  intros Hr. revert ys zs. induction fuel as [|fuel IH]; intros ys zs Hxs Hf; [lia|]. cbn [iterate]. unfold slist_end.
  rewrite (head_or_first s xs live zs Hr) by (by exists ys). destruct zs as [|z zs]; [done|].
  rewrite bool_decide_false by done. cbn [head_or].
  destruct (sr_next s xs live (hk_first s :: ys) z zs Hr) as [_ ->]; [by rewrite Hxs|]. cbn [mbind option_bind].
  rewrite (IH (ys ++ [z]) zs); [done|by rewrite <-app_assoc|cbn in Hf; lia].
Qed.

Lemma slist_elements_spec s xs live : slist_repr s xs live -> slist_elements s = Some xs.
Proof.
  intros Hr. unfold slist_elements. rewrite (slist_begin_spec _ _ _ Hr). cbn [mbind option_bind].
  apply (iterate_spec _ s xs live []); [done|done|by apply (slist_fuel_spec s xs live)].
Qed.

(** One operation. *)
Definition refines (s : Slist) (live : gset Z) (res : option Slist) (after : list Z * list Z) : Prop :=
  exists s', res = Some s' /\ slist_repr s' after.1 (live ∖ list_to_set after.2) /\
    hk_first s' = hk_first s /\ hk_disposed s' = hk_disposed s ++ after.2.

Lemma refines_becomes s live res xs' :
  (exists s', res = Some s' /\ becomes s s' xs' live) -> refines s live res (xs', []).
Proof.
  intros (s' & E & Hr & Hf & Hd). exists s'. cbn. rewrite difference_empty_L, app_nil_r. by split_and!.
Qed.

Lemma slist_op_refines o s xs live :
  slist_repr s xs live -> op_ok o xs live -> refines s live (slist_op o s) (list_op o xs).
Proof.
  intros Hr Hok. destruct o as [v| |w v|[w|] v|w|w|pred|pred| | |]; cbn [op_ok slist_op list_op default] in *.
  - apply refines_becomes. destruct Hok. by apply push_front_spec.
  - apply refines_becomes. destruct xs as [|x xs]; [done|]. by apply pop_front_spec in Hr.
  - apply refines_becomes. destruct Hok as (Hv & Hn & Hw%split_first). by apply (insert_after_spec s xs live).
  - apply refines_becomes. destruct Hok as (Hv & Hn & Hw%split_first).
    by apply (insert_spec s xs live (before_first w xs) (w :: after_first w xs) v).
  - apply refines_becomes. destruct Hok as (Hv & Hn).
    apply (insert_spec s xs live xs [] v); [done|by rewrite app_nil_r|done|done].
  - apply refines_becomes. destruct (erase_spec s xs live _ w _ Hr (split_first _ _ Hok)) as (s' & -> & Hb). by exists s'.
  - destruct (erase_and_dispose_spec s xs live _ w _ Hr (split_first _ _ Hok)) as (s' & -> & Hr' & Hs). exists s'.
    cbn. rewrite union_empty_r_L. done.
  - unfold remove_if. rewrite (slist_begin_spec _ _ _ Hr). cbn [mbind option_bind].
    destruct (remove_loop_spec (slist_fuel s) false pred s xs live [] xs Hr eq_refl (slist_fuel_spec _ _ _ Hr)) as (s' & -> & Hr' & Hf & Hd).
    apply refines_becomes. exists s'. rewrite app_nil_r in Hd. done.
  - unfold remove_if_and_dispose. rewrite (slist_begin_spec _ _ _ Hr). cbn [mbind option_bind].
    destruct (remove_loop_spec (slist_fuel s) true pred s xs live [] xs Hr eq_refl (slist_fuel_spec _ _ _ Hr)) as (s' & -> & Hr' & Hs).
    by exists s'.
  - apply refines_becomes. by apply reverse_spec.
  - apply refines_becomes. by apply (clear_spec s xs).
  - destruct (clear_and_dispose_spec (slist_fuel s) s xs live Hr (slist_fuel_spec _ _ _ Hr)) as (s' & E & Hs). by exists s'.
Qed.

(** C36. The intrusive list behaves as a list: every sequence of its operations, on elements
    that exist and positions that are in the list, terminates without an assertion or an
    access to a deleted object, and then an iteration visits exactly the elements the same
    operations on a functional list leave, in order; size and emptiness agree, and the
    disposed elements are exactly those erased with a disposer, each deleted once. *)
Theorem Slist_refines_list os s xs live :
  slist_repr s xs live -> ops_ok os xs live ->
  exists s', slist_run os s = Some s' /\ slist_elements s' = Some (list_run os xs).1 /\
    slist_size s' = Some (Z.of_nat (length (list_run os xs).1)) /\
    slist_empty s' = Some (bool_decide ((list_run os xs).1 = [])) /\
    hk_disposed s' = hk_disposed s ++ (list_run os xs).2 /\
    slist_repr s' (list_run os xs).1 (live ∖ list_to_set (list_run os xs).2).
Proof.
  revert s xs live. induction os as [|o os IH]; intros s xs live Hr Hok.
  - exists s. cbn. rewrite app_nil_r, difference_empty_L.
    split_and!; [done|by eapply slist_elements_spec|by eapply slist_size_spec|by eapply slist_empty_spec|done|done].
  - destruct Hok as [Ho Hok]. destruct (slist_op_refines o s xs live Hr Ho) as (s1 & E & Hr1 & _ & Hd1).
    cbn [slist_run list_run]. rewrite E. cbn [mbind option_bind]. destruct (list_op o xs) as [xs1 gone]. cbn [fst snd] in *.
    destruct (IH s1 xs1 _ Hr1 Hok) as (s' & -> & H1 & H2 & H3 & H4 & H5). destruct (list_run os xs1) as [xs' gone'].
    cbn [fst snd] in *. exists s'. split_and!; try done.
    + by rewrite H4, Hd1, app_assoc.
    + by rewrite list_to_set_app_L, <-difference_difference_l_L.
Qed.

(** A constructor, in a memory with other objects. *)
Definition new_Slist (first : Z) (objects : gmap Z Z) : option Slist :=
  slist_clear (mkSlist first (<[first := 0]> objects) []).

Lemma Slist_refines_list_witness :
  exists s s', new_Slist 8 {[16 := 0; 24 := 0; 32 := 0]} = Some s /\
    slist_run [SO_push_front 16; SO_push_front 24; SO_insert (Some 16) 32; SO_reverse; SO_erase_and_dispose 32] s = Some s' /\
    slist_elements s' = Some [16; 24] /\ hk_disposed s' = [32].
Proof.
  eexists. destruct (Slist_refines_list
    [SO_push_front 16; SO_push_front 24; SO_insert (Some 16) 32; SO_reverse; SO_erase_and_dispose 32]
    (mkSlist 8 {[8 := 8; 16 := 0; 24 := 0; 32 := 0]} []) [] {[16; 24; 32]}) as (s' & E & He & _ & _ & Hd & _).
  - constructor; cbn.
    + vm_compute. reflexivity.
    + split_and!; [done|set_solver|set_solver].
    + constructor.
    + constructor.
    + split; [done|]. exists 8. by vm_compute.
  - cbn. set_solver by lia.
  - exists s'. split_and!; [by vm_compute|exact E|exact He|exact Hd].
Defined.

(** [erase(end())], which the documentation calls an error that is detected, takes the
    sentinel out of the ring: the list is no list any more. *)
Lemma erase_end_breaks :
  let s := mkSlist 8 {[8 := 16; 16 := 8]} [] in
  slist_elements s = Some [16] /\
  exists s', slist_erase (slist_end s) s = Some (16, s') /\ hk_next s' = {[8 := 0; 16 := 16]} /\ slist_size s' = None.
Proof. split; [done|]. eexists. by vm_compute. Qed.
