(* ===== verification/Devices.v ===== *)
(** Error codes and blocking transfers: [src/common/iobase.hpp],
    [src/common/CDevices.hpp], [src/common/io.cpp].

    A device is a file descriptor with the loops that move a whole buffer through it.
    The results of the successive system calls are a script, on which the loops recurse;
    [None] means that the script ends before the loop does.  [errno] is what
    [getLastError] returns: the error of the last call that failed. *)

From S2P Require Import Prelude.

(** ** Error codes *)

(** [io::error_code]: an [errno] value or one of these. *)
Definition ec_unset : Z := -3.
Definition ec_unspecified : Z := -2.
Definition ec_eof : Z := -1.
Definition ec_ok : Z := 0.

Definition EINTR : Z := 4.
Definition EBADF : Z := 9.
Definition EAGAIN : Z := 11.
Definition EACCES : Z := 13.
Definition EINVAL_ : Z := 22.
Definition EMFILE : Z := 24.
Definition EPIPE : Z := 32.
Definition ECONNABORTED : Z := 103.
Definition ECONNRESET : Z := 104.
Definition EISCONN : Z := 106.
Definition ENOTCONN : Z := 107.
Definition ECONNREFUSED : Z := 111.
Definition EINPROGRESS : Z := 115.

Definition known_errnos : list Z :=
  [EACCES; EAGAIN; EINVAL_; EBADF; EMFILE; ECONNRESET; ECONNREFUSED; EISCONN; ENOTCONN; EPIPE; EINPROGRESS; EINTR].

Definition to_error_code (errno_value : Z) : Z :=
  if existsb (Z.eqb errno_value) known_errnos then errno_value else ec_unspecified.

Definition get_write_some_error_code (rc errno : Z) : Z := if 0 <=? rc then ec_ok else to_error_code errno.

Definition get_write_all_error_code (rc expected errno : Z) : Z :=
  if rc =? expected then ec_ok else to_error_code errno.

Definition get_read_some_error_code (rc errno : Z) : Z :=
  if 0 <? rc then ec_ok else if rc =? 0 then ec_eof else to_error_code errno.

Definition get_read_all_error_code (rc total expected errno : Z) : Z :=
  if total =? expected then ec_ok else if rc =? 0 then ec_eof else to_error_code errno.

(** ** System calls *)

(** The result of a transfer: up to [n] bytes, or an error. *)
Inductive IoResult := IR_some (n : Z) | IR_errno (e : Z).

(** How many of [len] bytes a call moves. *)
Definition moved (n : Z) (len : nat) : nat := Nat.min (Z.to_nat n) len.

(** ** [write_all]

    The loop is on the bytes that are left, [total] are behind it: the bytes written, the
    error code and the rest of the script. *)
Fixpoint write_loop (script : list IoResult) (data : bytes) (total len errno : Z) : option (bytes * Z * list IoResult) :=
  match script with
  | [] => None
  | IR_some n :: script =>
    let rc := moved n (length data) in
    let total := total + Z.of_nat rc in
    if (0 <? Z.of_nat rc) && (total <? len) then
      '(out, ec, script) ← write_loop script (drop rc data) total len errno;
      Some (take rc data ++ out, ec, script)
    else Some (take rc data, get_write_all_error_code total len errno, script)
  | IR_errno e :: script =>
    if e =? EINTR then write_loop script data total len e
    else Some ([], get_write_all_error_code total len e, script)
  end.

Definition write_all (script : list IoResult) (data : bytes) (errno : Z) : option (bytes * Z * list IoResult) :=
  write_loop script data 0 (Z.of_nat (length data)) errno.

(** ** [read_all]

    [input] is what the peer sends; a call that delivers nothing is the end. *)
Fixpoint read_loop (script : list IoResult) (input : bytes) (total len errno : Z) : option (bytes * Z * bytes * list IoResult) :=
  match script with
  | [] => None
  | IR_some n :: script =>
    let rc := Nat.min (moved n (length input)) (Z.to_nat (len - total)) in
    let total := total + Z.of_nat rc in
    let rest := drop rc input in
    if (0 <? Z.of_nat rc) && (total <? len) then
      '(buf, ec, rest, script) ← read_loop script rest total len errno;
      Some (take rc input ++ buf, ec, rest, script)
    else Some (take rc input, get_read_all_error_code (Z.of_nat rc) total len errno, rest, script)
  | IR_errno e :: script =>
    if e =? EINTR then read_loop script input total len e
    else Some ([], get_read_all_error_code (-1) total len e, input, script)
  end.

(** The bytes stored at the beginning of the buffer and the error code. *)
Definition read_all (script : list IoResult) (input : bytes) (len errno : Z) : option (bytes * Z * bytes * list IoResult) :=
  read_loop script input 0 len errno.

(** ** [write_all] of vectors *)

Definition calculate_total_length (iov : list bytes) : Z := foldr (fun v n => Z.of_nat (length v) + n) 0 iov.

(** The loop of [adopt_iov_pointers]: the vectors, and [skip]. *)
Fixpoint adopt_loop (iov : list bytes) (rc : Z) : list bytes * nat :=
  match iov with
  | [] => ([], O)
  | v :: iov' =>
    if 0 <? rc then
      if Z.of_nat (length v) <=? rc then
        let '(iov', skip) := adopt_loop iov' (rc - Z.of_nat (length v)) in (v :: iov', S skip)
      else let '(iov', skip) := adopt_loop iov' rc in (drop (Z.to_nat rc) v :: iov', skip)
    else (iov, O)
  end.

Definition adopt_iov_pointers (iov : list bytes) (rc : Z) : list bytes :=
  let '(iov, skip) := adopt_loop iov rc in drop skip iov.

Fixpoint write_iov_loop (script : list IoResult) (iov : list bytes) (total total_len errno : Z)
    : option (bytes * Z * list IoResult) :=
  match script with
  | [] => None
  | IR_some n :: script =>
    let rc := moved n (length (concat iov)) in
    let out := take rc (concat iov) in
    let total := total + Z.of_nat rc in
    if total <? total_len then
      '(more, ec, script) ← write_iov_loop script (adopt_iov_pointers iov (Z.of_nat rc)) total total_len errno;
      Some (out ++ more, ec, script)
    else Some (out, get_write_all_error_code total total_len errno, script)
  | IR_errno e :: script =>
    if e =? EINTR then
      if total <? total_len then write_iov_loop script iov total total_len e
      else Some ([], get_write_all_error_code total total_len e, script)
    else Some ([], get_write_all_error_code total total_len e, script)
  end.

Definition write_all_iov (script : list IoResult) (iov : list bytes) (errno : Z) : option (bytes * Z * list IoResult) :=
  write_iov_loop script iov 0 (calculate_total_length iov) errno.

(** ** [StreamSocket::connect] with a timeout

    [nonblock] is the result of setting the flag, [conn] that of [connect], [polled] that of
    [poll] and [so_error] that of [getsockopt(SO_ERROR)]: a call that succeeds or its [errno]. *)
Definition try_async_connect (nonblock : Z) (conn : Z) : Z :=
  if nonblock =? ec_ok then (if conn =? 0 then ec_ok else to_error_code conn) else nonblock.

Definition connect_timeout (nonblock conn : Z) (polled : Z + Z) (so_error : Z + Z) : Z :=
  let ec := try_async_connect nonblock conn in
  if ec =? EINPROGRESS then
    match polled with
    | inl ret =>
      if ret =? 0 then EAGAIN
      else if 0 <? ret then
        match so_error with
        | inl result => if result =? 0 then ec_ok else to_error_code result
        | inr e => to_error_code e
        end
      else ec
    | inr e => if e =? EINTR then EAGAIN else to_error_code e
    end
  else ec.

(** ** Transfers over sockets that work *)

(** No call fails, and every call that is not interrupted moves at least a byte. *)
Definition steady (script : list IoResult) : Prop :=
  Forall (fun r => match r with IR_some n => 1 <= n | IR_errno e => e = EINTR end) script.

(** The calls that move something. *)
Fixpoint transfers (script : list IoResult) : nat :=
  match script with
  | [] => O
  | IR_some _ :: script => S (transfers script)
  | _ :: script => transfers script
  end.

Lemma write_loop_spec script data total len errno :
  steady script -> data <> [] -> (length data <= transfers script)%nat -> len = total + Z.of_nat (length data) ->
  exists script', write_loop script data total len errno = Some (data, ec_ok, script').
Proof.
  revert data total errno. induction script as [|r script IH]; intros data total errno Hs Hne Ht Hl; [destruct data; cbn in Ht; [done|lia]|].
  apply Forall_cons in Hs as [Hr Hs]. destruct r as [n|e]; cbn [write_loop transfers] in *.
  - assert (1 <= moved n (length data) <= length data)%nat as Hm by (unfold moved; destruct data; [done|cbn [length] in *; lia]).
    rewrite (proj2 (Z.ltb_lt 0 _)) by lia. cbn [andb]. destruct (_ <? len) eqn:E; reflect_bools.
    + destruct (IH (drop (moved n (length data)) data) (total + Z.of_nat (moved n (length data))) errno Hs) as (script' & E2).
      * intros Hd. apply (f_equal length) in Hd. rewrite length_drop in Hd. cbn in Hd. lia.
      * rewrite length_drop. lia.
      * rewrite length_drop. lia.
      * exists script'. rewrite E2. cbn [mbind option_bind]. by rewrite take_drop.
    + exists script. unfold get_write_all_error_code. replace (moved n (length data)) with (length data) by lia.
      rewrite take_ge by lia. by rewrite (proj2 (Z.eqb_eq _ _)) by lia.
  - subst e. rewrite Z.eqb_refl. by apply IH.
Qed.

(** Everything is written, however the kernel cuts it. *)
Lemma write_all_spec script data errno :
  steady script -> data <> [] -> (length data <= transfers script)%nat ->
  exists script', write_all script data errno = Some (data, ec_ok, script').
Proof. intros. by apply write_loop_spec. Qed.

Lemma read_loop_spec script input total len errno :
  steady script -> 0 <= total < len -> len - total <= Z.of_nat (length input) -> (Z.to_nat (len - total) <= transfers script)%nat ->
  exists script', read_loop script input total len errno =
    Some (take (Z.to_nat (len - total)) input, ec_ok, drop (Z.to_nat (len - total)) input, script').
Proof.
  revert input total errno. induction script as [|r script IH]; intros input total errno Hs Hr Hi Ht; [cbn in Ht; lia|].
  apply Forall_cons in Hs as [Hn Hs]. destruct r as [n|e]; cbn [read_loop transfers] in *.
  - set (rc := Nat.min (moved n (length input)) (Z.to_nat (len - total))).
    assert (1 <= rc <= Z.to_nat (len - total))%nat as Hrc by (unfold rc, moved; lia).
    rewrite (proj2 (Z.ltb_lt 0 _)) by lia. cbn [andb]. destruct (_ <? len) eqn:E; reflect_bools.
    + destruct (IH (drop rc input) (total + Z.of_nat rc) errno Hs) as (script' & E2); [lia|rewrite length_drop; lia|lia|].
      exists script'. rewrite E2. cbn [mbind option_bind]. rewrite drop_drop.
      replace (Z.to_nat (len - total)) with (rc + Z.to_nat (len - (total + Z.of_nat rc)))%nat by lia.
      by rewrite take_take_drop.
    + exists script. assert (rc = Z.to_nat (len - total)) as -> by lia. unfold get_read_all_error_code.
      by rewrite (proj2 (Z.eqb_eq (total + Z.of_nat (Z.to_nat (len - total))) len)) by lia.
  - subst e. rewrite Z.eqb_refl. by apply IH.
Qed.

(** What is read is what was sent, in order. *)
Lemma read_all_spec script input len errno :
  steady script -> 0 < len <= Z.of_nat (length input) -> (Z.to_nat len <= transfers script)%nat ->
  exists script', read_all script input len errno =
    Some (take (Z.to_nat len) input, ec_ok, drop (Z.to_nat len) input, script').
Proof.
  intros Hs Hl Ht. destruct (read_loop_spec script input 0 len errno Hs) as (script' & E); [lia|lia|rewrite Z.sub_0_r; lia|].
  exists script'. unfold read_all. by rewrite E, Z.sub_0_r.
Qed.

Lemma concat_length (iov : list bytes) : Z.of_nat (length (concat iov)) = calculate_total_length iov.
Proof.
  unfold calculate_total_length. induction iov as [|v iov IH]; [done|]. cbn [concat foldr]. rewrite length_app. lia.
Qed.

(** A kernel that takes all vectors in one call. *)
Lemma write_all_iov_once n iov errno :
  calculate_total_length iov <= n ->
  write_all_iov [IR_some n] iov errno = Some (concat iov, ec_ok, []).
Proof.
  intros Hn. unfold write_all_iov. cbn [write_iov_loop]. pose proof (concat_length iov) as Hl.
  replace (moved n (length (concat iov))) with (length (concat iov)) by (unfold moved; lia).
  rewrite take_ge by lia. rewrite Hl, (proj2 (Z.ltb_ge _ _)) by lia.
  unfold get_write_all_error_code. by rewrite (proj2 (Z.eqb_eq _ _)) by lia.
Qed.

(** A single vector, cut anywhere, is adopted correctly. *)
Lemma adopt_single v rc : 0 < rc < Z.of_nat (length v) -> adopt_iov_pointers [v] rc = [drop (Z.to_nat rc) v].
Proof.
  intros Hrc. unfold adopt_iov_pointers. cbn [adopt_loop]. rewrite (proj2 (Z.ltb_lt 0 rc)) by lia.
  by rewrite (proj2 (Z.leb_gt _ rc)) by lia.
Qed.

(** A cut within a vector also takes bytes off the ones behind it: they are lost, and when
    the rest has been sent the loop goes on without vectors for ever. *)
Lemma write_all_iov_loses k :
  exists rest, adopt_iov_pointers [[1; 2; 3; 4]; [5; 6; 7; 8]] 1 = [[2; 3; 4]; rest] /\ rest = [6; 7; 8] /\
  write_all_iov (IR_some 1 :: replicate k (IR_some 9)) [[1; 2; 3; 4]; [5; 6; 7; 8]] 0 = None.
Proof.
  exists [6; 7; 8]. split_and!; [done|done|].
  assert (forall k total, total < 8 -> write_iov_loop (replicate k (IR_some 9)) [] total 8 0 = None) as Hk.
  { clear k. induction k as [|k IH]; intros total Ht; [done|]. cbn. rewrite Z.add_0_r, (proj2 (Z.ltb_lt total 8)) by done. by rewrite IH. }
  destruct k as [|k]; [done|]. change (write_all_iov (IR_some 1 :: replicate (S k) (IR_some 9)) [[1; 2; 3; 4]; [5; 6; 7; 8]] 0)
    with ('(more, ec, script) ← ('(more, ec, script) ← write_iov_loop (replicate k (IR_some 9)) [] 7 8 0;
      Some ([2; 3; 4; 6; 7; 8] ++ more, ec, script)); Some ([1] ++ more, ec, script)).
  by rewrite (Hk k 7).
Qed.
