(* ===== verification/Dispatcher.v ===== *)
(** The event dispatcher: [src/common/CDispatcher.{hpp,cpp}], [CDispatcherT.hpp], the events
    of [src/common/CHandler.{hpp,cpp}] and [CHandlerT.hpp], and [src/common/CTimer.hpp].

    The dispatcher has a table of descriptors for [poll] and one of event objects.  The
    objects are in a store, so that every [delete] and every use after it is visible.  The
    world (kernel, memory and the user's objects) is a type [W]; a completion routine is a
    function on it that also says which operations of the dispatcher it calls and whether
    the event is to be rearmed.  A system call that is repeated when it is interrupted is
    given by its first result that is not [EINTR]. *)

From S2P Require Import Prelude.
From S2P Require Import Devices.

(** ** Poll events *)

Definition POLLIN : Z := 1.
Definition POLLOUT : Z := 4.
Definition POLLERR : Z := 8.
Definition POLLHUP : Z := 16.
Definition POLLNVAL : Z := 32.
Definition POLLRDHUP : Z := 8192.

Definition has (revents mask : Z) : bool := negb (Z.land revents mask =? 0).

(** ** Events *)

(** What a completion routine is called with. *)
Inductive Completion :=
  | Co_io (len ec : Z)
  | Co_connected (ec : Z)
  | Co_accepted (fd ec : Z)
  | Co_timeout (ec : Z)
  | Co_generic (result : Z).

(** [GenericEventBase::Result]. *)
Definition DataAvailable : Z := 0.
Definition CanWriteNow : Z := 1.
Definition DeviceHungup : Z := 2.
Definition InvalidFileDescriptor : Z := 3.
Definition GenericError : Z := 4.

Definition toResultEnum (revents : Z) : Z :=
  if has revents POLLERR then GenericError
  else if has revents (Z.lor POLLHUP POLLRDHUP) then DeviceHungup
  else if has revents POLLNVAL then InvalidFileDescriptor
  else if has revents POLLIN then DataAvailable
  else if has revents POLLOUT then CanWriteNow
  else GenericError.

(** The event classes; [buf] is an address, [cur_] is kept as its offset from [buf]. *)
Inductive IoEvent (F : Type) :=
  | DE_read_some (buf len : Z) (f : F)
  | DE_write_some (buf len : Z) (f : F)
  | DE_read_all (buf len cur total : Z) (f : F)
  | DE_write_all (buf len cur total : Z) (f : F)
  | DE_connect (ec : Z) (f : F)
  | DE_accept (f : F)
  | DE_timer (timeout_ms : Z) (f : F)
  | DE_generic (mask : Z) (f : F).
Arguments DE_read_some {F}. Arguments DE_write_some {F}. Arguments DE_read_all {F}. Arguments DE_write_all {F}.
Arguments DE_connect {F}. Arguments DE_accept {F}. Arguments DE_timer {F}. Arguments DE_generic {F}.

(** [traits_type::poll_mask]; that of a generic event is chosen by its creator. *)
Definition poll_mask {F} (e : IoEvent F) : Z :=
  match e with
  | DE_read_some _ _ _ | DE_read_all _ _ _ _ _ | DE_accept _ | DE_timer _ _ => POLLIN
  | DE_write_some _ _ _ | DE_write_all _ _ _ _ _ | DE_connect _ _ => POLLOUT
  | DE_generic mask _ => mask
  end.

(** The operations of the dispatcher a routine may call: [async_*], [close] and the end of a
    device, [cancel_*], and [stop]. *)
Inductive Act (F : Type) :=
  | DA_enqueue (fd : Z) (e : IoEvent F)
  | DA_removeAll (fd : Z)
  | DA_removeEvent (fd mask : Z)
  | DA_stop (rc : Z).
Arguments DA_enqueue {F}. Arguments DA_removeAll {F}. Arguments DA_removeEvent {F}. Arguments DA_stop {F}.

(** What a poll does: [eval] of an event is called; an event calls its routine, which calls
    operations of the dispatcher. *)
Inductive Trace (F : Type) :=
  | DT_eval (id : Z)
  | DT_call (f : F) (fd : Z) (c : Completion) (acts : list (Act F)).
Arguments DT_eval {F}. Arguments DT_call {F}.

Definition eval_of {F} (t : Trace F) : option Z := match t with DT_eval id => Some id | DT_call _ _ _ _ => None end.
Definition evaluated {F} (tr : list (Trace F)) : list Z := omap eval_of tr.

(** ** State *)

(** An entry of [fds_table_] with the pointer of [events_table_]; free when the descriptor
    is -1. *)
Record Slot := mkSlot { st_fd : Z; st_events : Z; st_revents : Z; st_event : option Z }.
#[export] Instance Eta_Slot : Eta Slot := fun s => mkSlot (st_fd s) (st_events s) (st_revents s) (st_event s).

(** [max_] is the length of [dp_slots].  [dp_objects] are the event objects that exist,
    [dp_next] the address of the next one; [dp_trace] records the evaluations and the calls of
    routines in their order, [dp_deleted] the objects that were deleted. *)
Record Dispatcher (F : Type) := mkDispatcher {
  dp_slots : list Slot;
  dp_capa : nat;
  dp_objects : gmap Z (IoEvent F);
  dp_next : Z;
  dp_trace : list (Trace F);
  dp_deleted : list Z;
  dp_finished : bool;
  dp_rc : Z;
}.
Arguments mkDispatcher {F}. Arguments dp_slots {F}. Arguments dp_capa {F}. Arguments dp_objects {F}.
Arguments dp_next {F}. Arguments dp_trace {F}. Arguments dp_deleted {F}. Arguments dp_finished {F}.
Arguments dp_rc {F}.
#[export] Instance Eta_Dispatcher {F} : Eta (Dispatcher F) := fun d =>
  mkDispatcher (dp_slots d) (dp_capa d) (dp_objects d) (dp_next d) (dp_trace d) (dp_deleted d)
    (dp_finished d) (dp_rc d).

(** What can go wrong: a write behind the tables, or the use of a deleted event. *)
Inductive Fault := DF_overflow | DF_deleted.

Definition Res : Type -> Type := sum Fault.
#[export] Instance Res_ret : MRet Res := fun A a => inr a.
#[export] Instance Res_bind : MBind Res := fun A B k m => match m with inl e => inl e | inr a => k a end.

(** ** The tables *)

Section dispatcher.
Context {F : Type}.

Definition new_Dispatcher (capa : nat) : Dispatcher F := mkDispatcher [] capa ∅ 0 [] [] false 0.

(** [delete events_table_[idx]]. *)
Definition delete_event (e : option Z) (d : Dispatcher F) : Res (Dispatcher F) :=
  match e with
  | None => inr d
  | Some id =>
    match dp_objects d !! id with
    | Some _ => inr (d <| dp_objects ::= delete id |> <| dp_deleted ::= (fun l => l ++ [id]) |>)
    | None => inl DF_deleted
    end
  end.

Definition clearSlot (idx : nat) (d : Dispatcher F) : Res (Dispatcher F) :=
  match dp_slots d !! idx with
  | Some s =>
    let d := d <| dp_slots ::= <[idx := s <| st_fd := -1 |> <| st_event := None |>]> |> in
    delete_event (st_event s) d
  | None => inl DF_overflow
  end.

(** The index of the first entry with a property. *)
Fixpoint first_slot (p : Slot -> bool) (l : list Slot) : option nat :=
  match l with [] => None | s :: l => if p s then Some O else S <$> first_slot p l end.

Definition doEnqueueEvent (fd : Z) (e : IoEvent F) (pollmask : Z) (d : Dispatcher F) : Res (Dispatcher F) :=
  let id := dp_next d in
  let d := d <| dp_objects ::= <[id := e]> |> <| dp_next ::= Z.succ |> in
  let s := mkSlot fd pollmask 0 (Some id) in
  match first_slot (fun s => st_fd s =? -1) (dp_slots d) with
  | Some pos => inr (d <| dp_slots ::= <[pos := s]> |>)
  | None => if Nat.ltb (length (dp_slots d)) (dp_capa d) then inr (d <| dp_slots ::= (fun l => l ++ [s]) |>)
            else inl DF_overflow
  end.

Definition doRemoveAll (fd : Z) (d : Dispatcher F) : Res (Dispatcher F) :=
  match first_slot (fun s => st_fd s =? fd) (dp_slots d) with
  | Some i => clearSlot i d
  | None => inr d
  end.

Definition removeEvent (fd mask : Z) (d : Dispatcher F) : Res (Dispatcher F) :=
  match first_slot (fun s => (st_fd s =? fd) && has (st_events s) mask) (dp_slots d) with
  | Some i => clearSlot i d
  | None => inr d
  end.

Definition dp_stop (rc : Z) (d : Dispatcher F) : Dispatcher F := d <| dp_finished := true |> <| dp_rc := rc |>.

Definition run_act (a : Act F) (d : Dispatcher F) : Res (Dispatcher F) :=
  match a with
  | DA_enqueue fd e => doEnqueueEvent fd e (poll_mask e) d
  | DA_removeAll fd => doRemoveAll fd d
  | DA_removeEvent fd mask => removeEvent fd mask d
  | DA_stop rc => inr (dp_stop rc d)
  end.

Fixpoint run_acts (acts : list (Act F)) (d : Dispatcher F) : Res (Dispatcher F) :=
  match acts with [] => inr d | a :: acts => d ← run_act a d; run_acts acts d end.

(** ** Evaluating events *)

Context {W : Type}.

(** The kernel and the user.  The sum of a transfer is the number of bytes or the [errno]. *)
Class Kernel := {
  k_poll : list (Z * Z) -> Z -> W -> (Z + Z) * list Z * W;
  k_read : Z -> Z -> Z -> W -> (Z + Z) * W;
  k_write : Z -> Z -> Z -> W -> (Z + Z) * W;
  k_so_error : Z -> W -> option Z * W;
  k_reset_nonblock : Z -> W -> W;   (* [F_GETFL] and [F_SETFL] *)
  k_accept : Z -> W -> (Z + Z) * W;
  k_settime : Z -> Z -> W -> bool * W;
  k_expiration : Z -> W -> option Z * W;   (* [None]: eight bytes were read *)
  (** A routine on a descriptor: the world after it, its calls of the dispatcher, rearm. *)
  func : F -> Z -> Completion -> W -> W * list (Act F) * bool;
}.

Context `{Kernel}.

(** [func_(...)]. *)
Definition call (f : F) (fd : Z) (c : Completion) (d : Dispatcher F) (w : W) : Res (bool * Dispatcher F * W) :=
  let '(w, acts, rearm) := func f fd c w in
  d ← run_acts acts (d <| dp_trace ::= (fun l => l ++ [DT_call f fd c acts]) |>); inr (rearm, d, w).

(** A write to a member of the event [id]. *)
Definition set_event (id : Z) (e : IoEvent F) (d : Dispatcher F) : Res (Dispatcher F) :=
  match dp_objects d !! id with
  | Some _ => inr (d <| dp_objects ::= <[id := e]> |>)
  | None => inl DF_deleted
  end.

Definition evalPollErrors (f : F) (fd revents : Z) (d : Dispatcher F) (w : W) : Res (bool * Dispatcher F * W) :=
  if has revents POLLERR then call f fd (Co_io 0 ec_unspecified) d w
  else if has revents (Z.lor POLLHUP POLLRDHUP) then call f fd (Co_io 0 ec_eof) d w
  else if has revents POLLNVAL then call f fd (Co_io 0 EBADF) d w
  else inr (false, d, w).

(** The length and the error code of a read and of a write. *)
Definition read_result (r : Z + Z) : Z * Z :=
  match r with
  | inl len => (len, if len =? 0 then ec_eof else if 0 <? len then ec_ok else ec_unspecified)
  | inr e => (-1, to_error_code e)
  end.
Definition write_result (r : Z + Z) : Z * Z :=
  match r with inl len => (len, ec_ok) | inr e => (-1, to_error_code e) end.

(** [doEval] of [ReadAllEvent] and [WriteAllEvent] after the transfer; [again] rebuilds the
    event from [cur_] and [total_]. *)
Definition all_done (id : Z) (again : Z -> Z -> IoEvent F) (f : F) (fd len cur total : Z) (r : Z * Z)
    (d : Dispatcher F) (w : W) : Res (bool * Dispatcher F * W) :=
  let '(n, ec) := r in
  let cur := if 0 <? n then n else cur in
  let total := if 0 <? n then total + n else total in
  d ← (if 0 <? n then set_event id (again cur total) d else inr d);
  if (total =? len) || (n <=? 0) then
    '(rearm, d, w) ← call f fd (Co_io total ec) d w;
    if (rearm : bool) then d ← set_event id (again 0 0) d; inr (true, d, w)
    else inr (false, d, w)
  else inr (true, d, w).

(** [arm] of a timer reads its members. *)
Definition rearm_timer (id fd timeout_ms : Z) (d : Dispatcher F) (w : W) : Res (bool * Dispatcher F * W) :=
  match dp_objects d !! id with
  | Some _ => let '(ok, w) := k_settime fd timeout_ms w in inr (ok, d, w)
  | None => inl DF_deleted
  end.

(** [eval] of the event [id]. *)
Definition eval_event (id fd revents : Z) (e : IoEvent F) (d : Dispatcher F) (w : W) : Res (bool * Dispatcher F * W) :=
  let d := d <| dp_trace ::= (fun l => l ++ [DT_eval id]) |> in
  match e with
  | DE_read_some buf len f =>
    if has revents POLLIN then
      let '(r, w) := k_read fd buf len w in let '(n, ec) := read_result r in call f fd (Co_io n ec) d w
    else evalPollErrors f fd revents d w
  | DE_write_some buf len f =>
    if has revents POLLOUT then
      let '(r, w) := k_write fd buf len w in let '(n, ec) := write_result r in call f fd (Co_io n ec) d w
    else evalPollErrors f fd revents d w
  | DE_read_all buf len cur total f =>
    if has revents POLLIN then
      let '(r, w) := k_read fd (buf + cur) (len - total) w in
      all_done id (fun cur total => DE_read_all buf len cur total f) f fd len cur total (read_result r) d w
    else evalPollErrors f fd revents d w
  | DE_write_all buf len cur total f =>
    if has revents POLLOUT then
      let '(r, w) := k_write fd (buf + cur) (len - total) w in
      all_done id (fun cur total => DE_write_all buf len cur total f) f fd len cur total (write_result r) d w
    else evalPollErrors f fd revents d w
  | DE_connect ec f =>
    let '(ec, w) :=
      if ec =? EINPROGRESS then
        let '(r, w) := k_so_error fd w in
        (match r with Some success => if success =? 0 then ec_ok else to_error_code success | None => ec_unspecified end, w)
      else (ec, w) in
    let w := k_reset_nonblock fd w in
    '(_, d, w) ← call f fd (Co_connected ec) d w; inr (false, d, w)
  | DE_accept f =>
    if has revents POLLERR then call f fd (Co_accepted (-1) ec_unspecified) d w
    else if has revents (Z.lor POLLHUP POLLRDHUP) then call f fd (Co_accepted (-1) ec_eof) d w
    else if has revents POLLNVAL then call f fd (Co_accepted (-1) EBADF) d w
    else
      let '(r, w) := k_accept fd w in
      match r with
      | inl newfd => call f fd (Co_accepted newfd ec_ok) d w
      | inr e => if e =? ECONNABORTED then inr (true, d, w) else call f fd (Co_accepted (-1) (to_error_code e)) d w
      end
  | DE_timer timeout_ms f =>
    '(rearm, d, w) ←
      (if has revents (Z.lor POLLERR (Z.lor POLLHUP POLLRDHUP)) then call f fd (Co_timeout ec_unspecified) d w
       else if has revents POLLNVAL then call f fd (Co_timeout EBADF) d w
       else let '(r, w) := k_expiration fd w in
            call f fd (Co_timeout match r with None => ec_ok | Some e => to_error_code e end) d w);
    if (rearm : bool) then rearm_timer id fd timeout_ms d w else inr (false, d, w)
  | DE_generic _ f => call f fd (Co_generic (toResultEnum revents)) d w
  end.

(** ** Polling *)

(** The body of the loop of [poll]. *)
Definition poll_slot (i : nat) (d : Dispatcher F) (w : W) : Res (Dispatcher F * W) :=
  match dp_slots d !! i with
  | None => inr (d, w)
  | Some s =>
    if (0 <=? st_fd s) && negb (st_revents s =? 0) then
      match st_event s with
      | Some id =>
        match dp_objects d !! id with
        | Some e =>
          '(rearm, d, w) ← eval_event id (st_fd s) (st_revents s) e d w;
          match dp_slots d !! i with
          | Some s => if negb rearm && negb (st_revents s =? 0) then d ← clearSlot i d; inr (d, w) else inr (d, w)
          | None => inl DF_overflow
          end
        | None => inl DF_deleted
        end
      | None => inl DF_deleted
      end
    else inr (d, w)
  end.

(** [for (i = 0; i < max_ && !finished_; ++i)]: [max_] may grow up to the capacity. *)
Fixpoint poll_loop (indices : list nat) (d : Dispatcher F) (w : W) : Res (Dispatcher F * W) :=
  match indices with
  | [] => inr (d, w)
  | i :: indices =>
    if Nat.ltb i (length (dp_slots d)) && negb (dp_finished d)
    then '(d, w) ← poll_slot i d w; poll_loop indices d w
    else inr (d, w)
  end.

Fixpoint set_revents (rs : list Z) (l : list Slot) : list Slot :=
  match l, rs with
  | s :: l, r :: rs => s <| st_revents := r |> :: set_revents rs l
  | _, _ => l
  end.

(** [poll(timeout_ms)]: its result, -1 for an error. *)
Definition poll (timeout_ms : Z) (d : Dispatcher F) (w : W) : Res (Z * Dispatcher F * W) :=
  let '(ret, rs, w) := k_poll (map (fun s => (st_fd s, st_events s)) (dp_slots d)) timeout_ms w in
  let d := d <| dp_slots ::= set_revents rs |> in
  match ret with
  | inl ret =>
    if 0 <? ret then '(d, w) ← poll_loop (seq 0 (dp_capa d)) d w; inr (ret, d, w) else inr (ret, d, w)
  | inr e => inr (if e =? EINTR then 0 else -1, d, w)
  end.

(** [run]; [None] when the loop has not ended after [fuel] rounds. *)
Fixpoint run_loop (fuel : nat) (ret : Z) (d : Dispatcher F) (w : W) : option (Res (Z * Dispatcher F * W)) :=
  match fuel with
  | O => None
  | S fuel =>
    if negb (dp_finished d) && (0 <=? ret) then
      match poll 1000 d w with
      | inl e => Some (inl e)
      | inr (ret, d, w) => run_loop fuel ret d w
      end
    else
      let d := if negb (dp_finished d) && (ret <? 0) then d <| dp_rc := -1 |> else d in
      Some (inr (dp_rc d, d, w))
  end.

(** The destructor. *)
Fixpoint delete_all (l : list Slot) (d : Dispatcher F) : Res (Dispatcher F) :=
  match l with [] => inr d | s :: l => d ← delete_event (st_event s) d; delete_all l d end.
Definition destroy_Dispatcher (d : Dispatcher F) : Res (Dispatcher F) := delete_all (dp_slots d) d.

Definition dispatcher_loop (fuel : nat) (d : Dispatcher F) (w : W) : option (Res (Z * Dispatcher F * W)) :=
  run_loop fuel 0 (d <| dp_finished := false |> <| dp_rc := 0 |>) w.

(** ** Specification *)

(** A slot is free, or it has a descriptor and an event object of its own. *)
Definition slot_ok (d : Dispatcher F) (s : Slot) : Prop :=
  (st_fd s = -1 /\ st_event s = None) \/
  (0 <= st_fd s /\ exists id, st_event s = Some id /\ id ∈ dom (dp_objects d)).

(** Event objects are in exactly one slot until they are deleted, once. *)
Record dp_inv (d : Dispatcher F) : Prop := {
  di_slots : forall j s, dp_slots d !! j = Some s -> slot_ok d s;
  di_unique : forall j k s t id, dp_slots d !! j = Some s -> dp_slots d !! k = Some t ->
    st_event s = Some id -> st_event t = Some id -> j = k;
  di_objects : forall id, id ∈ dom (dp_objects d) -> exists j s, dp_slots d !! j = Some s /\ st_event s = Some id;
  di_ids : forall id, id ∈ dom (dp_objects d) \/ id ∈ dp_deleted d <-> 0 <= id < dp_next d;
  di_once : NoDup (dp_deleted d) /\ forall id, id ∈ dp_deleted d -> id ∉ dom (dp_objects d);
  di_next : 0 <= dp_next d;
  di_capa : (length (dp_slots d) <= dp_capa d)%nat;
}.

(** How a table may change while events are evaluated: a slot stays, or its event is deleted
    and the slot is free or waits for the next poll; new slots wait for the next poll. *)
Record evolves (d d' : Dispatcher F) : Prop := {
  ev_slot : forall j s, dp_slots d !! j = Some s -> exists s', dp_slots d' !! j = Some s' /\
    (s' = s \/ ((st_fd s' = -1 \/ st_revents s' = 0) /\ forall id, st_event s = Some id -> id ∈ dp_deleted d'));
  ev_new : forall j s', dp_slots d !! j = None -> dp_slots d' !! j = Some s' -> st_fd s' = -1 \/ st_revents s' = 0;
  ev_deleted : forall id, id ∈ dp_deleted d -> id ∈ dp_deleted d';
  ev_capa : dp_capa d' = dp_capa d;
  ev_finished : dp_finished d = true -> dp_finished d' = true;
}.

(** The operation is on an open descriptor. *)
Definition act_ok (a : Act F) : Prop := match a with DA_enqueue fd _ => 0 <= fd | _ => True end.

(** It does not take events of [fd] away. *)
Definition spares (fd : Z) (a : Act F) : Prop :=
  match a with DA_removeAll fd' | DA_removeEvent fd' _ => fd' <> fd | _ => True end.
#[export] Instance spares_dec fd a : Decision (spares fd a).
Proof. destruct a; cbn; apply _. Defined.

(** No routine called does. *)
Definition spared (fd : Z) (tr : list (Trace F)) : Prop :=
  Forall (fun t => match t with DT_call _ _ _ acts => Forall (spares fd) acts | DT_eval _ => True end) tr.

(** The only failure is a table that is full. *)
Definition unless_full {A} (r : Res A) (P : A -> Prop) : Prop :=
  match r with inl e => e = DF_overflow | inr a => P a end.

Lemma unless_full_bind {A B} (m : Res A) (k : A -> Res B) P Q :
  unless_full m P -> (forall a, P a -> unless_full (k a) Q) -> unless_full (m ≫= k) Q.
Proof. destruct m; cbn; [by intros -> _|]. intros Hp Hk. by apply Hk. Qed.

Lemma unless_full_mono {A} (m : Res A) (P Q : A -> Prop) :
  unless_full m P -> (forall a, P a -> Q a) -> unless_full m Q.
Proof. destruct m; cbn; auto. Qed.

Lemma evolves_refl d : evolves d d.
Proof. constructor; try done; [intros j s E; exists s; by split; [|left]|congruence]. Qed.

Lemma evolves_trans d1 d2 d3 : evolves d1 d2 -> evolves d2 d3 -> evolves d1 d3.
Proof.
  intros H1 H2. constructor.
  - intros j s E. destruct (ev_slot _ _ H1 j s E) as (s1 & E1 & C1). destruct (ev_slot _ _ H2 j s1 E1) as (s2 & E2 & C2).
    exists s2. split; [done|]. destruct C1 as [->|[C1 D1]]; [done|]. right. split; [by destruct C2 as [->|[C2 _]]|].
    intros id Hid. by apply (ev_deleted _ _ H2), D1.
  - intros j s' E E'. destruct (dp_slots d2 !! j) as [s1|] eqn:E1; [|by apply (ev_new _ _ H2 j)].
    destruct (ev_slot _ _ H2 j s1 E1) as (s2 & E2 & C2). rewrite E' in E2. injection E2 as <-.
    destruct C2 as [->|[C2 _]]; [|done]. by apply (ev_new _ _ H1 j).
  - intros id Hid. by apply (ev_deleted _ _ H2), (ev_deleted _ _ H1).
  - by rewrite (ev_capa _ _ H2), (ev_capa _ _ H1).
  - intros Hf. by apply (ev_finished _ _ H2), (ev_finished _ _ H1).
Qed.

Lemma first_slot_spec p l i : first_slot p l = Some i -> exists s, l !! i = Some s /\ p s = true.
Proof.
  revert i. induction l as [|s l IH]; intros i; cbn; [done|]. destruct (p s) eqn:E; [intros [= <-]; by exists s|].
  destruct (first_slot p l) as [k|]; [|done]. cbn. intros [= <-]. by apply (IH k).
Qed.

(** An operation that keeps the invariant and evaluates nothing itself. *)
Definition changes (d d' : Dispatcher F) : Prop :=
  dp_inv d' /\ evolves d d' /\ dp_trace d' = dp_trace d.

Lemma changes_refl d : dp_inv d -> changes d d.
Proof. intros Hi. split_and!; [done|apply evolves_refl|done]. Qed.

Lemma changes_trans d1 d2 d3 : changes d1 d2 -> changes d2 d3 -> changes d1 d3.
Proof. intros (_ & H1 & E1) (Hi & H2 & E2). split_and!; [done|by eapply evolves_trans|congruence]. Qed.

(** Freeing a slot. *)
Lemma clearSlot_spec i s d :
  dp_inv d -> dp_slots d !! i = Some s ->
  exists d', clearSlot i d = inr d' /\ changes d d' /\ forall j, j <> i -> dp_slots d' !! j = dp_slots d !! j.
Proof.
  intros Hi E. pose proof (lookup_lt_Some _ _ _ E) as Hlt. unfold clearSlot. rewrite E.
  set (s0 := s <| st_fd := -1 |> <| st_event := None |>).
  destruct (di_slots _ Hi i s E) as [[Hfd Hev]|(Hfd & id & Hev & Hin)]; rewrite Hev; cbn [delete_event].
  - assert (s0 = s) as -> by (unfold s0; destruct s; cbn in *; by subst).
    exists (d <| dp_slots ::= <[i := s]> |>).
    assert (d <| dp_slots ::= <[i := s]> |> = d) as -> by (destruct d; unfold update; cbn; by rewrite list_insert_id).
    split_and!; [done|by apply changes_refl|done].
  - change (dp_objects (d <| dp_slots ::= <[i := s0]> |>)) with (dp_objects d).
    apply elem_of_dom in Hin as [e He]. rewrite He. eexists. split; [reflexivity|].
    assert (forall j t, <[i := s0]> (dp_slots d) !! j = Some t -> (j = i /\ t = s0) \/ (j <> i /\ dp_slots d !! j = Some t)) as Hl.
    { intros j t Ht. apply list_lookup_insert_Some in Ht as [(-> & <- & _)|[? ?]]; [by left|by right]. }
    unfold changes. split_and!; [| |done|].
    + constructor; cbn.
      * intros j t Ht. apply Hl in Ht as [[-> ->]|[Hj Ht]]; [by left|].
        destruct (di_slots _ Hi j t Ht) as [Hf|(Hf & id' & Hev' & Hin')]; [by left|right]. split; [done|]. exists id'.
        split; [done|]. cbn. rewrite dom_delete. apply elem_of_difference. split; [done|]. rewrite elem_of_singleton. intros ->.
        apply Hj. by apply (di_unique _ Hi j i t s id).
      * intros j k t u id' Hj Hk Ht Hu. apply Hl in Hj as [[-> ->]|[Hj Hj']]; [done|].
        apply Hl in Hk as [[-> ->]|[Hk Hk']]; [done|]. by apply (di_unique _ Hi j k t u id').
      * intros id'. rewrite dom_delete, elem_of_difference, elem_of_singleton. intros [Hin Hne].
        destruct (di_objects _ Hi id' Hin) as (j & t & Hj & Ht). exists j, t. split; [|done].
        rewrite list_lookup_insert_ne; [done|]. intros <-. congruence.
      * intros id'. rewrite dom_delete, elem_of_difference, elem_of_singleton, elem_of_app, list_elem_of_singleton.
        rewrite <-(di_ids _ Hi id'). destruct (decide (id' = id)) as [->|]; [|naive_solver].
        split; [intros _; left; by apply elem_of_dom|by right; right].
      * destruct (di_once _ Hi) as [Hnd Hdis]. split.
        -- apply NoDup_app. split_and!; [done| |apply NoDup_singleton]. intros x Hx ->%list_elem_of_singleton.
           apply (Hdis id Hx). by apply elem_of_dom.
        -- intros id' Hx%elem_of_app. rewrite dom_delete, elem_of_difference, elem_of_singleton.
           destruct Hx as [Hx|Hx%list_elem_of_singleton]; [|naive_solver]. intros [Hd _]. by apply (Hdis id' Hx).
      * apply (di_next _ Hi).
      * rewrite length_insert. apply (di_capa _ Hi).
    + constructor; cbn; try done.
      * intros j t Ht. destruct (decide (j = i)) as [->|Hj].
        -- exists s0. rewrite list_lookup_insert_eq by done. split; [done|]. right. split; [by left|].
           rewrite E in Ht. injection Ht as <-. intros id' Hid'. rewrite Hev in Hid'. injection Hid' as <-.
           apply elem_of_app. right. by left.
        -- exists t. rewrite list_lookup_insert_ne by done. by split; [|left].
      * intros j t Hn Ht. apply lookup_lt_Some in Ht. rewrite length_insert in Ht. apply lookup_lt_is_Some_2 in Ht as [? Ht]. congruence.
      * intros id' Hid'. apply elem_of_app. by left.
    + cbn. intros j Hj. by rewrite list_lookup_insert_ne.
Qed.

(** The slots of a descriptor stay. *)
Definition kept (fd : Z) (d d' : Dispatcher F) : Prop :=
  forall j s, dp_slots d !! j = Some s -> st_fd s = fd -> dp_slots d' !! j = Some s.

Lemma kept_refl fd d : kept fd d d.
Proof. by intros ???. Qed.

Lemma kept_trans fd d1 d2 d3 : kept fd d1 d2 -> kept fd d2 d3 -> kept fd d1 d3.
Proof. intros H1 H2 j s E Hf. eapply H2; [by eapply H1|done]. Qed.

(** [removeAll] and [removeEvent]. *)
Lemma remove_first_spec p fd d :
  dp_inv d -> (forall s, p s = true -> st_fd s = fd) ->
  exists d', match first_slot p (dp_slots d) with Some i => clearSlot i d | None => inr d end = inr d' /\
    changes d d' /\ forall fd', fd' <> fd -> kept fd' d d'.
Proof.
  intros Hi Hp. destruct (first_slot p (dp_slots d)) as [i|] eqn:E.
  - apply first_slot_spec in E as (s & E & Ps). destruct (clearSlot_spec i s d Hi E) as (d' & E' & Hc & Ho).
    exists d'. split_and!; [done|done|]. intros fd' Hne j t Ht Hf. rewrite Ho; [done|]. intros ->.
    rewrite E in Ht. injection Ht as ->. apply Hne. rewrite <- Hf. by apply Hp.
  - exists d. split_and!; [done|by apply changes_refl|by intros ???].
Qed.

(** The slot a new event is written to. *)
Lemma enqueue_slot fd e pm pos (d : Dispatcher F) (l : list Slot) :
  let id := dp_next d in
  let s := mkSlot fd pm 0 (Some id) in
  dp_inv d -> 0 <= fd -> (length l <= dp_capa d)%nat ->
  l !! pos = Some s ->
  (forall j, j <> pos -> l !! j = dp_slots d !! j) ->
  (forall t, dp_slots d !! pos = Some t -> st_event t = None) ->
  changes d (d <| dp_objects ::= <[id := e]> |> <| dp_next ::= Z.succ |> <| dp_slots := l |>).
Proof.
  intros id s Hi Hfd Hlen Hpos Hl Hfree.
  assert (forall j t, l !! j = Some t -> (j = pos /\ t = s) \/ (j <> pos /\ dp_slots d !! j = Some t)) as Hcase.
  { intros j t Ht. destruct (decide (j = pos)) as [->|Hj]; [left; split; congruence|right]. by rewrite <- Hl. }
  assert (forall id', id' ∈ dom (dp_objects d) \/ id' ∈ dp_deleted d -> id' <> id) as Hnew.
  { intros id' Hin%(di_ids _ Hi). unfold id. lia. }
  assert (forall j t id', dp_slots d !! j = Some t -> st_event t = Some id' -> id' ∈ dom (dp_objects d)) as Hev.
  { intros j t id' Ht Ht'. destruct (di_slots _ Hi j t Ht) as [[_ Hn]|(_ & id'' & Hs & Hin)]; congruence. }
  split_and!; [| |done].
  - constructor; cbn.
    + intros j t [[-> ->]|[Hj Ht]]%Hcase.
      * right. split; [done|]. exists id. split; [done|]. cbn. rewrite dom_insert. set_solver.
      * destruct (di_slots _ Hi j t Ht) as [Hf|(Hf & id' & Hs & Hin)]; [by left|right]. split; [done|]. exists id'.
        split; [done|]. cbn. rewrite dom_insert. set_solver.
    + intros j k t u id' [[-> ->]|[Hj Ht]]%Hcase [[-> ->]|[Hk Hu]]%Hcase Et Eu; [done| | |by apply (di_unique _ Hi j k t u id')].
      * exfalso. injection Et as <-. by apply (Hnew id); [left; apply (Hev k u)|].
      * exfalso. injection Eu as <-. by apply (Hnew id); [left; apply (Hev j t)|].
    + intros id'. rewrite dom_insert, elem_of_union, elem_of_singleton. intros [->|Hin]; [by exists pos, s|].
      destruct (di_objects _ Hi id' Hin) as (j & t & Ht & Ht'). exists j, t. split; [|done]. rewrite Hl; [done|].
      intros ->. rewrite (Hfree t Ht) in Ht'. done.
    + intros id'. rewrite dom_insert, elem_of_union, elem_of_singleton. pose proof (di_ids _ Hi id'). unfold id in *.
      destruct (decide (id' = dp_next d)) as [->|]; [|naive_solver lia]. split; [|by left; left]. intros _.
      pose proof (di_next _ Hi). lia.
    + destruct (di_once _ Hi) as [Hnd Hdis]. split; [done|]. intros id' Hin. rewrite dom_insert, elem_of_union, elem_of_singleton.
      intros [->|Hd]; [|by apply (Hdis id')]. by apply (Hnew id); [right|].
    + pose proof (di_next _ Hi). lia.
    + done.
  - constructor; cbn; try done.
    + intros j t Ht. destruct (decide (j = pos)) as [->|Hj].
      * exists s. split; [done|]. right. split; [by right|]. intros id'. by rewrite (Hfree t Ht).
      * exists t. rewrite Hl by done. by split; [|left].
    + intros j t Hn [[-> ->]|[Hj Ht]]%Hcase; [by right|congruence].
Qed.

Lemma first_slot_none p l s : first_slot p l = None -> s ∈ l -> p s = false.
Proof.
  induction l as [|s' l IH]; cbn; [by intros _ ?%not_elem_of_nil|]. destruct (p s') eqn:E; [done|].
  destruct (first_slot p l); [done|]. intros _ [->|Hin]%elem_of_cons; [done|by apply IH].
Qed.

(** A slot of an open descriptor is not given to another event. *)
Lemma enqueue_spec fd e pm d :
  dp_inv d -> 0 <= fd ->
  unless_full (doEnqueueEvent fd e pm d) (fun d' => changes d d' /\ forall fd', 0 <= fd' -> kept fd' d d').
Proof.
  intros Hi Hfd. unfold doEnqueueEvent. set (s := mkSlot fd pm 0 (Some (dp_next d))).
  pose proof (di_capa _ Hi) as Hcapa.
  destruct (first_slot _ _) as [pos|] eqn:E; [|destruct (Nat.ltb _ _) eqn:El; [|done]]; cbn.
  - apply first_slot_spec in E as (s0 & E & Ef%Z.eqb_eq). change (dp_slots d !! pos = Some s0) in E. pose proof (lookup_lt_Some _ _ _ E) as Hlt.
    assert (forall j, j <> pos -> <[pos:=s]> (dp_slots d) !! j = dp_slots d !! j) as Ho.
    { intros j Hj. by rewrite list_lookup_insert_ne. }
    split.
    + apply (enqueue_slot fd e pm pos d); [done|done|by rewrite length_insert|by rewrite list_lookup_insert_eq|done|].
      intros t Ht. destruct (di_slots _ Hi pos t Ht) as [[_ ?]|[? _]]; [done|]. rewrite E in Ht. injection Ht as ->. lia.
    + intros fd' Hfd' j t Ht Hf. cbn. rewrite Ho; [done|]. intros ->. rewrite E in Ht. injection Ht as ->. lia.
  - apply Nat.ltb_lt in El. cbn in El. split.
    + apply (enqueue_slot fd e pm (length (dp_slots d)) d); [done|done|rewrite length_app; cbn; lia| | |].
      * by rewrite list_lookup_middle.
      * intros j Hj. destruct (decide (j < length (dp_slots d))%nat); [by rewrite lookup_app_l|].
        rewrite !lookup_ge_None_2; [done|lia|rewrite length_app; cbn; lia].
      * intros t Ht%lookup_lt_Some. lia.
    + intros fd' _ j t Ht _. cbn. by apply lookup_app_l_Some.
Qed.

Lemma run_act_spec a d :
  dp_inv d -> act_ok a ->
  unless_full (run_act a d) (fun d' => changes d d' /\ forall fd, 0 <= fd -> spares fd a -> kept fd d d').
Proof.
  intros Hi Ha. destruct a as [fd e|fd|fd mask|rc]; cbn in *.
  - eapply unless_full_mono; [by apply enqueue_spec|]. intros d' [? Hk]. split; [done|]. intros ? ? _. by apply Hk.
  - destruct (remove_first_spec (fun s => st_fd s =? fd) fd d) as (d' & E & Hc & Hk); [done|intros s; lia|].
    unfold doRemoveAll. rewrite E. split; [done|]. intros fd' _ Hne. by apply Hk.
  - destruct (remove_first_spec (fun s => (st_fd s =? fd) && has (st_events s) mask) fd d) as (d' & E & Hc & Hk);
      [done|intros s [? _]%andb_prop; lia|].
    unfold removeEvent. rewrite E. split; [done|]. intros fd' _ Hne. by apply Hk.
  - split; [|by intros ?????]. split_and!; [|by constructor; [intros j s E; exists s; by split; [|left]|cbn; congruence|..]|done].
    by destruct Hi; constructor.
Qed.

Lemma run_acts_spec acts d :
  dp_inv d -> Forall act_ok acts ->
  unless_full (run_acts acts d)
    (fun d' => changes d d' /\ forall fd, 0 <= fd -> Forall (spares fd) acts -> kept fd d d').
Proof.
  revert d. induction acts as [|a acts IH]; intros d Hi Ha; cbn.
  { split; [by apply changes_refl|by intros ?????]. }
  apply Forall_cons in Ha as [Ha Has]. eapply unless_full_bind; [by apply run_act_spec|]. intros d1 [Hc Hk].
  eapply unless_full_mono; [apply IH; [apply Hc|done]|]. intros d2 [Hc' Hk']. split; [by eapply changes_trans|].
  intros fd Hfd [Hs Hss]%Forall_cons. eapply kept_trans; [by apply Hk|by apply Hk'].
Qed.

(** ** Completion routines *)

(** What is asked of the user: events are armed on open descriptors, and a routine that wants
    its event to be rearmed does not remove events of its descriptor. *)
Definition well_behaved : Prop :=
  forall f fd c w, let '(_, acts, rearm) := func f fd c w in
  Forall act_ok acts /\ (rearm = true -> Forall (spares fd) acts).

(** What a part of an evaluation does: the routines called are recorded, and a slot of whose
    descriptor no routine takes events away stays. *)
Definition acted (tr : list (Trace F)) (d d' : Dispatcher F) : Prop :=
  dp_inv d' /\ evolves d d' /\ dp_trace d' = dp_trace d ++ tr /\ evaluated tr = [] /\
  forall fd, 0 <= fd -> spared fd tr -> kept fd d d'.

Definition handled (fd : Z) (d : Dispatcher F) (r : bool * Dispatcher F * W) : Prop :=
  let '(rearm, d', _) := r in exists tr, acted tr d d' /\ (rearm = true -> spared fd tr).

Lemma changes_acted d d' : changes d d' -> (forall fd, kept fd d d') -> acted [] d d'.
Proof. intros (Hi & Hev & Ht) Hk. split_and!; [done|done|by rewrite app_nil_r|done|by intros]. Qed.

Lemma acted_trans tr tr' d1 d2 d3 : acted tr d1 d2 -> acted tr' d2 d3 -> acted (tr ++ tr') d1 d3.
Proof.
  intros (_ & Hev & Ht & He & Hk) (Hi & Hev' & Ht' & He' & Hk'). split_and!; [done|by eapply evolves_trans| | |].
  - by rewrite Ht', Ht, app_assoc.
  - unfold evaluated in *. by rewrite omap_app, He, He'.
  - intros fd Hfd [Hs Hs']%Forall_app. eapply kept_trans; [by apply Hk|by apply Hk'].
Qed.

Lemma acted_kept fd tr d d' : acted tr d d' -> 0 <= fd -> spared fd tr -> kept fd d d'.
Proof. intros (_ & _ & _ & _ & Hk). apply Hk. Qed.

Lemma acted_inv tr d d' : acted tr d d' -> dp_inv d'.
Proof. by intros [? _]. Qed.

(** The trace does not matter to the table. *)
Lemma traced_changes tr d : dp_inv d ->
  let d1 := d <| dp_trace ::= (fun l => l ++ tr) |> in dp_inv d1 /\ evolves d d1 /\ forall fd, kept fd d d1.
Proof.
  intros Hi. split_and!; [by destruct Hi| |by intros ????]. by constructor; [intros j s E; exists s; by split; [|left]|cbn; congruence|..].
Qed.

Lemma handled_after fd tr d d1 r : acted tr d d1 -> spared fd tr -> handled fd d1 r -> handled fd d r.
Proof.
  destruct r as [[b d'] w]. intros Ha Hs (tr' & Ha' & Hb). exists (tr ++ tr'). split; [by eapply acted_trans|].
  intros E. apply Forall_app. split; [done|by apply Hb].
Qed.

Lemma handled_same fd d b w : dp_inv d -> handled fd d (b, d, w).
Proof. intros Hi. exists []. split; [|by constructor]. apply changes_acted; [by apply changes_refl|by intros ????]. Qed.

Lemma set_event_spec id e d :
  dp_inv d -> id ∈ dom (dp_objects d) ->
  exists d', set_event id e d = inr d' /\ changes d d' /\ dp_slots d' = dp_slots d /\
    dom (dp_objects d') = dom (dp_objects d).
Proof.
  intros Hi Hin. unfold set_event. pose proof Hin as [e' He]%elem_of_dom. rewrite He. eexists. split; [reflexivity|].
  assert (dom (<[id:=e]> (dp_objects d)) = dom (dp_objects d)) as Hd by (rewrite dom_insert_L; set_solver).
  unfold changes. split_and!; [|by constructor; [intros j s E; exists s; by split; [|left]|cbn; congruence|..]|done..].
  constructor; cbn; rewrite ?Hd; [|by destruct Hi..].
  intros j s Hs. destruct (di_slots _ Hi j s Hs) as [?|(? & id' & ? & ?)]; [by left|right]. split; [done|].
  exists id'. cbn. by rewrite Hd.
Qed.

(** The event of a kept slot still exists. *)
Lemma kept_event fd d d' j s id :
  dp_inv d' -> kept fd d d' -> dp_slots d !! j = Some s -> st_fd s = fd -> st_event s = Some id ->
  id ∈ dom (dp_objects d').
Proof.
  intros Hi Hk Hs Hf He. destruct (di_slots _ Hi j s) as [[_ ?]|(_ & id' & E & ?)]; [by eapply Hk|congruence|].
  rewrite He in E. by injection E as ->.
Qed.

Section users.
Context (Hwb : well_behaved).

Lemma call_spec f fd c d w : dp_inv d -> 0 <= fd -> unless_full (call f fd c d w) (handled fd d).
Proof.
  intros Hi Hfd. unfold call. pose proof (Hwb f fd c w) as Hf. destruct (func f fd c w) as [[w' acts] b].
  destruct Hf as [Hok Hsp]. destruct (traced_changes [DT_call f fd c acts] d Hi) as (Hi1 & Hev1 & Hk1).
  eapply unless_full_bind; [by apply run_acts_spec|]. intros d' [(Hi' & Hev' & Ht') Hk']. cbn.
  exists [DT_call f fd c acts]. split; [|intros Hb; by constructor; [apply Hsp|constructor]].
  split_and!; [done|by eapply evolves_trans|by rewrite Ht'|done|].
  intros fd' Hfd' [Hs _]%Forall_cons. eapply kept_trans; [apply Hk1|by apply Hk'].
Qed.

Lemma evalPollErrors_spec f fd revents d w :
  dp_inv d -> 0 <= fd -> unless_full (evalPollErrors f fd revents d w) (handled fd d).
Proof. intros. unfold evalPollErrors. repeat case_match; try by apply call_spec. by apply handled_same. Qed.

Section evaluation.
Context (i : nat) (s : Slot) (id : Z) (d : Dispatcher F).
Context (Hinv : dp_inv d) (Hs : dp_slots d !! i = Some s) (Hid : st_event s = Some id) (Hfd : 0 <= st_fd s).

Lemma event_exists : id ∈ dom (dp_objects d).
Proof. eapply kept_event; [done|apply kept_refl|done..]. Qed.

Lemma all_done_spec again f len cur total r w :
  unless_full (all_done id again f (st_fd s) len cur total r d w) (handled (st_fd s) d).
Proof.
  destruct r as [n ec]. unfold all_done. cbv zeta. set (cur' := if 0 <? n then n else cur).
  set (total' := if 0 <? n then total + n else total).
  eapply (unless_full_bind _ _ (fun d1 => acted [] d d1 /\ id ∈ dom (dp_objects d1))).
  { pose proof event_exists. destruct (0 <? n); [|split; [|done]; apply changes_acted; [by apply changes_refl|by intros ????]].
    destruct (set_event_spec id (again cur' total') d) as (d' & -> & Hc & E & E'); [done..|]. cbn. rewrite E'.
    split; [|done]. apply changes_acted; [done|]. intros fd j t ? _. by rewrite E. }
  intros d1 (Ha & Hin). pose proof (acted_inv _ _ _ Ha) as Hi1. assert (spared (st_fd s) []) as Hnil by constructor.
  destruct (_ || _); [|by eapply handled_after; [..|by apply handled_same]].
  eapply unless_full_bind; [by apply call_spec|]. intros [[b d2] w2] Hd2.
  apply (handled_after _ [] d) in Hd2 as (tr & Ha2 & Hsp); [|done..]. destruct b; [|by exists tr].
  pose proof (acted_inv _ _ _ Ha2) as Hi2.
  destruct (set_event_spec id (again 0 0) d2) as (d3 & -> & Hc3 & E3 & _); [done| |].
  { eapply (kept_event (st_fd s) d); [done|by eapply acted_kept; [..|by apply Hsp]|done..]. }
  exists (tr ++ []). split; [|rewrite app_nil_r; by intros _; apply Hsp]. eapply acted_trans; [done|].
  apply changes_acted; [done|]. intros fd j t ? _. by rewrite E3.
Qed.

End evaluation.

(** An evaluation is recorded; what it does after that is [handled]. *)
Lemma eval_event_spec i s id revents e d w :
  dp_inv d -> dp_slots d !! i = Some s -> st_event s = Some id -> 0 <= st_fd s ->
  unless_full (eval_event id (st_fd s) revents e d w)
    (handled (st_fd s) (d <| dp_trace ::= (fun l => l ++ [DT_eval id]) |>)).
Proof.
  intros Hinv0 Hs0 Hid Hfd. unfold eval_event. cbv zeta. set (d' := d <| dp_trace ::= _ |>).
  assert (dp_inv d') as Hinv by by apply traced_changes. assert (dp_slots d' !! i = Some s) as Hs by exact Hs0.
  clearbody d'. clear d Hinv0 Hs0. rename d' into d.
  destruct e as [buf len f|buf len f|buf len cur total f|buf len cur total f|ec f|f|ms f|mask f].
  - destruct (has _ _); [|by apply evalPollErrors_spec]. destruct (k_read _ _ _ _) as [r w1].
    destruct (read_result r). by apply call_spec.
  - destruct (has _ _); [|by apply evalPollErrors_spec]. destruct (k_write _ _ _ _) as [r w1].
    destruct (write_result r). by apply call_spec.
  - destruct (has _ _); [|by apply evalPollErrors_spec]. destruct (k_read _ _ _ _) as [r w1]. by apply (all_done_spec i).
  - destruct (has _ _); [|by apply evalPollErrors_spec]. destruct (k_write _ _ _ _) as [r w1]. by apply (all_done_spec i).
  - destruct (if ec =? EINPROGRESS then _ else _) as [ec' w1].
    eapply unless_full_bind; [by apply call_spec|]. intros [[b d'] w'] (tr & Ha & _). by exists tr.
  - repeat case_match; try by apply call_spec. by apply handled_same.
  - eapply (unless_full_bind _ _ (handled (st_fd s) d)).
    { repeat case_match; by apply call_spec. }
    intros [[b d'] w'] (tr & Ha & Hsp). destruct b; [|by exists tr]. unfold rearm_timer.
    destruct (dp_objects d' !! id) as [e'|] eqn:E; [destruct (k_settime _ _ _); cbn; exists tr; split; auto|].
    exfalso. apply not_elem_of_dom in E. apply E.
    eapply (kept_event (st_fd s) d); [by eapply acted_inv|by eapply acted_kept; [..|by apply Hsp]|done..].
  - by apply call_spec.
Qed.

(** ** Polling *)

(** The events that are ready, in the order of the table. *)
Definition slot_ready (s : Slot) : option Z :=
  if (0 <=? st_fd s) && negb (st_revents s =? 0) then st_event s else None.
Definition ready (l : list Slot) : list Z := omap slot_ready l.

Lemma slot_ready_waits s : st_fd s = -1 \/ st_revents s = 0 -> slot_ready s = None.
Proof.
  unfold slot_ready. intros Hs. destruct (0 <=? st_fd s) eqn:E; [|done]. apply Z.leb_le in E.
  destruct Hs as [?| ->]; [lia|done].
Qed.

Lemma slot_ready_Some s id : slot_ready s = Some id -> st_event s = Some id.
Proof. unfold slot_ready. by destruct (_ && _). Qed.

Lemma ready_cons s l : ready (s :: l) = match slot_ready s with Some id => id :: ready l | None => ready l end.
Proof. reflexivity. Qed.

(** A ready event was ready before, in the same slot. *)
Lemma ready_before d d' j s id : evolves d d' ->
  dp_slots d' !! j = Some s -> slot_ready s = Some id -> dp_slots d !! j = Some s.
Proof.
  intros Hev Hj Hs. assert (~ (st_fd s = -1 \/ st_revents s = 0)) as Hn by (intros Hw; by rewrite (slot_ready_waits s Hw) in Hs).
  destruct (dp_slots d !! j) as [t|] eqn:E; [|by destruct Hn; apply (ev_new _ _ Hev j)].
  destruct (ev_slot _ _ Hev j t E) as (s' & E' & Hc). rewrite Hj in E'. injection E' as <-.
  by destruct Hc as [->|[? _]].
Qed.

(** The ready events behind a position only become fewer. *)
Lemma ready_sublist d d' : evolves d d' ->
  forall n k, (length (dp_slots d) <= k + n)%nat ->
  sublist (ready (drop k (dp_slots d'))) (ready (drop k (dp_slots d))).
Proof.
  intros Hev. induction n as [|n IH]; intros k Hk.
  - assert (forall id, id ∉ ready (drop k (dp_slots d'))) as Hno.
    { intros id (s & Hin & Hs)%list_elem_of_omap. apply list_elem_of_lookup_1 in Hin as [j Hj]. rewrite lookup_drop in Hj.
      apply (ready_before d d' _ s id Hev) in Hj as ?%lookup_lt_Some; [lia|done]. }
    destruct (ready (drop k (dp_slots d'))) as [|id l]; [apply sublist_nil_l|]. exfalso. apply (Hno id). by left.
  - destruct (dp_slots d !! k) as [s|] eqn:E.
    2:{ apply lookup_ge_None_1 in E. apply IH. lia. }
    destruct (ev_slot _ _ Hev k s E) as (s' & E' & Hs'). specialize (IH (S k)).
    rewrite (drop_S _ s _ E), (drop_S _ s' _ E'), !ready_cons.
    destruct Hs' as [->|[Hw _]]; [|rewrite (slot_ready_waits s' Hw)]; destruct (slot_ready s);
      first [apply sublist_skip, IH; lia|apply sublist_cons, IH; lia|apply IH; lia].
Qed.

(** After [tr1] a routine was called that takes an event of [fd] away. *)
Definition takes (fd : Z) (tr1 tr : list (Trace F)) : Prop :=
  exists f fd' c acts tr2, tr = tr1 ++ DT_call f fd' c acts :: tr2 /\ Exists (fun a => ~ spares fd a) acts.

Lemma spared_or_taken fd tr : spared fd tr \/ exists tr1, takes fd tr1 tr.
Proof.
  induction tr as [|t tr [IH|(tr1 & f & fd' & c & acts & tr2 & -> & IH)]]; [left; constructor| |].
  - destruct t as [id|f fd' c acts]; [left; by constructor|].
    destruct (decide (Forall (spares fd) acts)) as [Hs|Hs]; [left; by constructor|right].
    exists [], f, fd', c, acts, tr. split; [done|]. apply not_Forall_Exists; [apply _|done].
  - right. exists (t :: tr1). by exists f, fd', c, acts, tr2.
Qed.

Lemma takes_later fd tr0 tr1 tr : takes fd tr1 tr -> takes fd (tr0 ++ tr1) (tr0 ++ tr).
Proof. intros (f & fd' & c & acts & tr2 & -> & He). exists f, fd', c, acts, tr2. by rewrite <- app_assoc. Qed.

Lemma takes_app fd tr1 tr tr' : takes fd tr1 tr -> takes fd tr1 (tr ++ tr').
Proof. intros (f & fd' & c & acts & tr2 & -> & He). exists f, fd', c, acts, (tr2 ++ tr'). by rewrite <- app_assoc. Qed.

Lemma evaluated_app (tr tr' : list (Trace F)) : evaluated (tr ++ tr') = evaluated tr ++ evaluated tr'.
Proof. apply omap_app. Qed.

(** One round of the loop evaluates the event of its slot when it is ready, and another ready
    event goes only when the routine called takes events of its descriptor away. *)
Lemma poll_slot_spec i s d w :
  dp_inv d -> dp_slots d !! i = Some s ->
  unless_full (poll_slot i d w) (fun '(d', _) => dp_inv d' /\ evolves d d' /\ exists tr,
    dp_trace d' = dp_trace d ++ tr /\ evaluated tr = option_list (slot_ready s) /\
    forall k t id, k <> i -> dp_slots d !! k = Some t -> slot_ready t = Some id ->
      dp_slots d' !! k = Some t \/
      (id ∈ dp_deleted d' /\ exists tr1, takes (st_fd t) tr1 tr /\ evaluated tr1 = option_list (slot_ready s) /\ evaluated tr1 <> [])).
Proof.
  intros Hi Hs. unfold poll_slot, slot_ready at 1 3. rewrite Hs. destruct (_ && _) eqn:E.
  2:{ cbn. split_and!; [done|apply evolves_refl|]. exists []. rewrite app_nil_r. split_and!; [done..|]. intros; by left. }
  apply andb_prop in E as [Hfd%Z.leb_le _].
  destruct (di_slots _ Hi i s Hs) as [[? _]|(_ & id & Hid & Hin)]; [lia|]. rewrite Hid.
  apply elem_of_dom in Hin as [e He]. rewrite He. destruct (traced_changes [DT_eval id] d Hi) as (Hi1 & Hev1 & Hk1).
  eapply unless_full_bind; [by apply (eval_event_spec i s id)|].
  intros [[b d2] w2] (tr & (Hi2 & Hev2 & Ht2 & Hno & Hk2) & _).
  assert (evolves d d2) as Hev by by eapply evolves_trans.
  assert (forall k t id', dp_slots d !! k = Some t -> slot_ready t = Some id' ->
    dp_slots d2 !! k = Some t \/ (id' ∈ dp_deleted d2 /\ exists tr1, takes (st_fd t) tr1 ([DT_eval id] ++ tr) /\
      evaluated tr1 = [id])) as Hother.
  { intros k t id' Hk Hr. destruct (ev_slot _ _ Hev k t Hk) as (t' & Hk' & [->|[Hw Hd]]); [by left|right].
    split; [by apply Hd, slot_ready_Some|]. assert (0 <= st_fd t) as Hft.
    { unfold slot_ready in Hr. destruct (Z.leb_spec 0 (st_fd t)); [done|]. done. }
    destruct (spared_or_taken (st_fd t) tr) as [Hsp|(tr1 & Ht)].
    - exfalso. pose proof (kept_trans _ _ _ _ (Hk1 _) (Hk2 _ Hft Hsp) k t Hk eq_refl) as Hk''. rewrite Hk'' in Hk'.
      injection Hk' as <-. by rewrite (slot_ready_waits t Hw) in Hr.
    - exists ([DT_eval id] ++ tr1). split; [by apply takes_later|]. rewrite evaluated_app. cbn.
      destruct Ht as (? & ? & ? & ? & ? & -> & _). rewrite evaluated_app in Hno. by apply app_eq_nil in Hno as [-> _]. }
  assert (dp_trace d2 = dp_trace d ++ [DT_eval id] ++ tr) as Htr by by rewrite Ht2, app_assoc.
  assert (evaluated ([DT_eval id] ++ tr) = [id]) as Hlog by by rewrite evaluated_app, Hno.
  destruct (ev_slot _ _ Hev i s Hs) as (s2 & Hs2 & _). rewrite Hs2. destruct (_ && _).
  - destruct (clearSlot_spec i s2 d2 Hi2 Hs2) as (d3 & -> & (Hi3 & Hev3 & Hlog3) & Ho3).
    split_and!; [done|by eapply evolves_trans|]. exists ([DT_eval id] ++ tr). split_and!; [by rewrite Hlog3|done|].
    intros k t id' Hne Hk Hr. rewrite Ho3 by done. destruct (Hother k t id' Hk Hr) as [?|(Hd & tr1 & Ht & Hl)]; [by left|right].
    split; [by apply (ev_deleted _ _ Hev3)|]. exists tr1. by rewrite Hl.
  - split_and!; [done..|]. exists ([DT_eval id] ++ tr). split_and!; [done..|]. intros k t id' _ Hk Hr.
    destruct (Hother k t id' Hk Hr) as [?|(Hd & tr1 & Ht & Hl)]; [by left|right]. split; [done|]. exists tr1. by rewrite Hl.
Qed.

(** The event of slot [k] had no turn: a routine took events of its descriptor away that the
    event of an earlier slot called, when no event but those of earlier slots had been
    evaluated. *)
Definition taken_away (l : list Slot) (k : nat) (s : Slot) (tr : list (Trace F)) : Prop :=
  exists tr1, takes (st_fd s) tr1 tr /\ evaluated tr1 <> [] /\
    forall id, id ∈ evaluated tr1 -> exists j t, (j < k)%nat /\ l !! j = Some t /\ slot_ready t = Some id.

(** What the loop does from slot [i] on. *)
Definition polled (i : nat) (d d' : Dispatcher F) : Prop :=
  dp_inv d' /\ evolves d d' /\ exists tr, dp_trace d' = dp_trace d ++ tr /\
    sublist (evaluated tr) (ready (drop i (dp_slots d))) /\
    (dp_finished d' = false -> forall k s id, (i <= k)%nat -> dp_slots d !! k = Some s -> slot_ready s = Some id ->
      id ∈ evaluated tr \/ (id ∈ dp_deleted d' /\ taken_away (dp_slots d) k s tr)).

Lemma polled_end i d : dp_inv d -> dp_finished d = true \/ (length (dp_slots d) <= i)%nat -> polled i d d.
Proof.
  intros Hi Hend. split_and!; [done|apply evolves_refl|]. exists []. rewrite app_nil_r.
  split_and!; [done|apply sublist_nil_l|]. intros Hf k s id Hk Hs%lookup_lt_Some _. destruct Hend as [?|?]; [congruence|lia].
Qed.

Lemma poll_loop_spec n : forall i d w, dp_inv d -> (dp_capa d <= i + n)%nat ->
  unless_full (poll_loop (seq i n) d w) (fun '(d', _) => polled i d d').
Proof.
  induction n as [|n IH]; intros i d w Hi Hn; cbn [seq poll_loop].
  { apply polled_end; [done|right]. pose proof (di_capa _ Hi). lia. }
  destruct (_ && _) eqn:E.
  2:{ apply polled_end; [done|]. apply andb_false_iff in E as [E|E]; [right; by apply Nat.ltb_ge|left].
      by apply negb_false_iff. }
  apply andb_prop in E as [E%Nat.ltb_lt _]. apply lookup_lt_is_Some_2 in E as [s Hs].
  eapply unless_full_bind; [by apply poll_slot_spec|]. intros [d1 w1] (Hi1 & Hev1 & tr0 & Ht0 & Hlog0 & Hother).
  eapply unless_full_mono; [apply IH; [done|rewrite (ev_capa _ _ Hev1); lia]|].
  intros [d2 w2] (Hi2 & Hev2 & tr & Ht & Hsub & Hall).
  split_and!; [done|by eapply evolves_trans|]. exists (tr0 ++ tr). rewrite evaluated_app, Hlog0.
  split_and!; [by rewrite Ht, Ht0, app_assoc| |].
  - rewrite (drop_S _ s _ Hs), ready_cons. assert (sublist (evaluated tr) (ready (drop (S i) (dp_slots d)))) as Hsub'.
    { etrans; [done|]. apply (ready_sublist d d1 Hev1 (length (dp_slots d))). lia. }
    destruct (slot_ready s); [by apply sublist_skip|done].
  - intros Hf k t id Hk Hkt Hr. destruct (decide (k = i)) as [->|Hne].
    { left. rewrite Hs in Hkt. injection Hkt as ->. rewrite Hr. by left. }
    destruct (Hother k t id Hne Hkt Hr) as [Hk1|(Hd & tr1 & Htk & Hl & Hn1)].
    + destruct (Hall Hf k t id) as [Hin|(Hd & tr1 & Htk & Hn1 & Hl)]; [lia|done|done|left; apply elem_of_app; by right|right].
      split; [done|]. exists (tr0 ++ tr1). split_and!; [by apply takes_later| |].
      * rewrite evaluated_app. intros [_ ?]%app_eq_nil. done.
      * rewrite evaluated_app, Hlog0. intros id' [Hin|Hin]%elem_of_app.
        -- destruct (slot_ready s) as [id0|] eqn:E; [|by apply not_elem_of_nil in Hin]. apply list_elem_of_singleton in Hin as ->.
           exists i, s. split_and!; [lia|done..].
        -- destruct (Hl id' Hin) as (j & u & Hj & Hu & Hru). exists j, u. split_and!; [done| |done]. by eapply ready_before.
    + right. split; [by apply (ev_deleted _ _ Hev2)|]. exists tr1. split_and!; [by apply takes_app|done|].
      rewrite Hl. intros id' Hin. destruct (slot_ready s) as [id0|] eqn:E; [|by apply not_elem_of_nil in Hin].
      apply list_elem_of_singleton in Hin as ->. exists i, s. split_and!; [lia|done..].
Qed.

Lemma set_revents_lookup l : forall rs j s', set_revents rs l !! j = Some s' ->
  exists s, l !! j = Some s /\ st_fd s' = st_fd s /\ st_event s' = st_event s.
Proof.
  induction l as [|s l IH]; intros rs j s'; [by destruct rs|]. destruct rs as [|r rs]; [by exists s'|].
  destruct j as [|j]; cbn; [intros [= <-]; by exists s|]. apply IH.
Qed.

Lemma length_set_revents l : forall rs, length (set_revents rs l) = length l.
Proof. induction l as [|s l IH]; intros [|r rs]; cbn; auto. Qed.

Lemma set_revents_lookup_l l : forall rs j s, l !! j = Some s ->
  exists s', set_revents rs l !! j = Some s' /\ st_fd s' = st_fd s /\ st_event s' = st_event s.
Proof.
  intros rs j s Hj. destruct (set_revents rs l !! j) as [s'|] eqn:E.
  - exists s'. split; [done|]. destruct (set_revents_lookup l rs j s' E) as (s0 & Hs0 & ?). congruence.
  - apply lookup_ge_None_1 in E. rewrite length_set_revents in E. apply lookup_lt_Some in Hj. lia.
Qed.

Lemma set_revents_inv rs d : dp_inv d -> dp_inv (d <| dp_slots ::= set_revents rs |>).
Proof.
  intros Hi. constructor; cbn; [| | |by destruct Hi..|by rewrite length_set_revents; apply (di_capa _ Hi)].
  - intros j s' (s & Hs & Hf & He)%set_revents_lookup. unfold slot_ok. rewrite Hf, He. by apply (di_slots _ Hi j s).
  - intros j k s' t' id (s & Hs & _ & He)%set_revents_lookup (t & Ht & _ & He')%set_revents_lookup.
    rewrite He, He'. by apply (di_unique _ Hi).
  - intros id (j & s & Hs & He)%(di_objects _ Hi). destruct (set_revents_lookup_l _ rs j s Hs) as (s' & ? & _ & ?).
    exists j, s'. split; congruence.
Qed.

Lemma poll_spec t d w ret rs w1 :
  dp_inv d -> k_poll (map (fun s => (st_fd s, st_events s)) (dp_slots d)) t w = (inl ret, rs, w1) -> 0 < ret ->
  unless_full (poll t d w) (fun '(r, d', _) => r = ret /\ polled 0 (d <| dp_slots ::= set_revents rs |>) d').
Proof.
  intros Hi Hp Hret. unfold poll. rewrite Hp. rewrite (proj2 (Z.ltb_lt 0 ret) Hret).
  eapply unless_full_bind; [apply poll_loop_spec; [by apply set_revents_inv|done]|].
  intros [d' w'] Hd'. by split.
Qed.

Lemma poll_inv t d w : dp_inv d -> unless_full (poll t d w) (fun '(_, d', _) => dp_inv d').
Proof.
  intros Hi. destruct (k_poll (map (fun s => (st_fd s, st_events s)) (dp_slots d)) t w) as [[ret rs] w1] eqn:E.
  pose proof (set_revents_inv rs d Hi) as Hi1. destruct ret as [ret|e].
  - destruct (Z.ltb_spec 0 ret) as [Hret|Hret].
    + eapply unless_full_mono; [by apply (poll_spec t d w ret rs w1)|]. intros [[r d'] w'] [_ [Hd _]]. done.
    + unfold poll. rewrite E. destruct (Z.ltb_spec 0 ret); [lia|done].
  - unfold poll. by rewrite E.
Qed.

(** ** Every history *)

Inductive reaches (capa : nat) : Dispatcher F -> W -> Prop :=
  | reaches_new w : reaches capa (new_Dispatcher capa) w
  | reaches_act a d d' w w' : reaches capa d w -> act_ok a -> run_act a d = inr d' -> reaches capa d' w'
  | reaches_poll t d w r d' w' : reaches capa d w -> poll t d w = inr (r, d', w') -> reaches capa d' w'
  | reaches_run fuel d w r d' w' :
    reaches capa d w -> dispatcher_loop fuel d w = Some (inr (r, d', w')) -> reaches capa d' w'.

Lemma reaches_acts capa acts d d' w :
  reaches capa d w -> Forall act_ok acts -> run_acts acts d = inr d' -> reaches capa d' w.
Proof.
  intros Hr Ha. revert d Hr. induction Ha as [|a acts Ha _ IH]; intros d Hr; cbn; [by intros [= ->]|].
  destruct (run_act a d) as [e|d1] eqn:E; [done|]. apply IH. by eapply reaches_act.
Qed.

Lemma new_inv capa : dp_inv (new_Dispatcher capa).
Proof.
  constructor; cbn; rewrite ?dom_empty_L.
  - intros j s. by rewrite lookup_nil.
  - intros j k s t id Hj. by rewrite lookup_nil in Hj.
  - intros id. by rewrite elem_of_empty.
  - intros id. rewrite elem_of_empty, elem_of_nil. lia.
  - split; [constructor|]. intros id ?%elem_of_nil. done.
  - done.
  - lia.
Qed.

Lemma run_loop_inv fuel : forall ret d w, dp_inv d ->
  match run_loop fuel ret d w with Some r => unless_full r (fun '(_, d', _) => dp_inv d') | None => True end.
Proof.
  induction fuel as [|fuel IH]; intros ret d w Hi; cbn; [done|]. destruct (_ && _).
  - pose proof (poll_inv 1000 d w Hi) as Hp. destruct (poll 1000 d w) as [e|[[r d'] w']]; [done|by apply IH].
  - destruct (_ && _); [by destruct Hi|done].
Qed.

Lemma reaches_inv capa d w : reaches capa d w -> dp_inv d.
Proof.
  induction 1 as [w|a d d' w w' _ IH Ha E|t d w r d' w' _ IH E|fuel d w r d' w' _ IH E].
  - apply new_inv.
  - pose proof (run_act_spec a d IH Ha) as Hs. rewrite E in Hs. apply Hs.
  - pose proof (poll_inv t d w IH) as Hs. by rewrite E in Hs.
  - pose proof (run_loop_inv fuel 0 (d <| dp_finished := false |> <| dp_rc := 0 |>) w) as Hs.
    unfold dispatcher_loop in E. rewrite E in Hs. apply Hs. by destruct IH.
Qed.

End users.

Lemma delete_all_spec l : forall d, NoDup (omap st_event l) ->
  (forall id, id ∈ omap st_event l -> id ∈ dom (dp_objects d)) ->
  exists d', delete_all l d = inr d' /\ dp_deleted d' = dp_deleted d ++ omap st_event l /\
    dom (dp_objects d') = dom (dp_objects d) ∖ list_to_set (omap st_event l).
Proof.
  induction l as [|s l IH]; intros d Hnd Hin; cbn.
  { exists d. rewrite app_nil_r. split_and!; [done..|set_solver]. }
  cbn in *. destruct (st_event s) as [id|]; [|by apply IH]. cbn in *. apply NoDup_cons in Hnd as [Hid Hnd].
  assert (is_Some (dp_objects d !! id)) as [e He] by (apply elem_of_dom, Hin; by left). rewrite He.
  destruct (IH (d <| dp_objects ::= delete id |> <| dp_deleted ::= (fun l => l ++ [id]) |>)) as (d' & E & E1 & E2); [done| |].
  { intros id' Hid'. cbn. rewrite dom_delete, elem_of_difference, elem_of_singleton. split; [apply Hin; by right|].
    intros ->. done. }
  exists d'. split_and!; [done|rewrite E1; cbn; by rewrite <- app_assoc|]. rewrite E2. cbn. rewrite dom_delete_L. set_solver.
Qed.

Lemma events_NoDup l :
  (forall j k s t id, l !! j = Some s -> l !! k = Some t -> st_event s = Some id -> st_event t = Some id -> j = k) ->
  NoDup (omap st_event l).
Proof.
  induction l as [|s l IH]; intros Hu; cbn; [constructor|].
  assert (NoDup (omap st_event l)) as Hl.
  { apply IH. intros j k s1 t id Hj Hk E1 E2. specialize (Hu (S j) (S k) s1 t id Hj Hk E1 E2). by injection Hu. }
  destruct (st_event s) as [id|] eqn:E; [|done]. constructor; [|done].
  intros (t & Hin & Ht)%list_elem_of_omap. apply list_elem_of_lookup_1 in Hin as [k Hk].
  by specialize (Hu O (S k) s t id eq_refl Hk E Ht).
Qed.

(** Ready events are distinct. *)
Lemma ready_NoDup l : NoDup (omap st_event l) -> NoDup (ready l).
Proof.
  intros Hnd. eapply sublist_NoDup; [exact Hnd|]. clear Hnd. induction l as [|s l IH]; [done|].
  rewrite ready_cons. cbn. destruct (slot_ready s) as [id|] eqn:E.
  - rewrite (slot_ready_Some s id E). by constructor.
  - destruct (st_event s); [by constructor|done].
Qed.

(** The first ready event. *)
Lemma ready_first l id rest : ready l = id :: rest ->
  exists k s, l !! k = Some s /\ slot_ready s = Some id /\
    forall j t, (j < k)%nat -> l !! j = Some t -> slot_ready t = None.
Proof.
  induction l as [|s l IH]; [done|]. rewrite ready_cons. destruct (slot_ready s) as [id'|] eqn:E.
  - intros [= -> _]. exists O, s. split_and!; [done..|lia].
  - intros (k & t & Ht & Hr & Hb)%IH. exists (S k), t. split_and!; [done..|].
    intros [|j] u Hj Hu; cbn in Hu; [congruence|]. apply (Hb j u); [lia|done].
Qed.

Lemma sublist_head {A} (x : A) l l' : NoDup (x :: l') -> sublist l (x :: l') -> x ∈ l -> head l = Some x.
Proof.
  intros [Hx _]%NoDup_cons Hs Hin. apply sublist_cons_r in Hs as [Hs|(l0 & -> & _)]; [|done].
  destruct Hx. by eapply elem_of_sublist.
Qed.

(** C37. For a user who arms events only on open descriptors ([act_ok], which [reaches] asks of
    the user's own calls and [well_behaved] of those made by completion routines) and whose
    routines, when they want their event to be rearmed, do not take events of its descriptor
    away ([well_behaved]; [timer_closed_and_rearmed] and [armed_on_no_descriptor] show what
    happens otherwise): whatever is armed, removed, polled and run in whatever order, the only
    failure is that more events are armed than the table has places for: no deleted event is
    used and none is deleted twice.  The table overflows only when every place is taken, and
    the destructor leaves no event: every event that was ever armed has been deleted exactly
    once. *)
Theorem dispatcher_safe capa d w :
  well_behaved ->
  reaches capa d w ->
  (forall t, unless_full (poll t d w) (fun _ => True)) /\
  (forall fuel r, dispatcher_loop fuel d w = Some r -> unless_full r (fun _ => True)) /\
  (forall a, act_ok a -> unless_full (run_act a d) (fun _ => True)) /\
  (forall fd e, run_act (DA_enqueue fd e) d = inl DF_overflow ->
    length (dp_slots d) = dp_capa d /\ Forall (fun s => st_fd s <> -1) (dp_slots d)) /\
  exists d', destroy_Dispatcher d = inr d' /\ dp_objects d' = ∅ /\ NoDup (dp_deleted d') /\
    forall id, id ∈ dp_deleted d' <-> 0 <= id < dp_next d.
Proof.
  intros Hwb Hi%(reaches_inv Hwb). split_and!.
  - intros t. eapply unless_full_mono; [by apply poll_inv|done].
  - intros fuel r E. pose proof (run_loop_inv Hwb fuel 0 (d <| dp_finished := false |> <| dp_rc := 0 |>) w) as Hr.
    unfold dispatcher_loop in E. rewrite E in Hr. eapply unless_full_mono; [apply Hr; by destruct Hi|done].
  - intros a Ha. eapply unless_full_mono; [by apply run_act_spec|done].
  - intros fd e Hov. change (doEnqueueEvent fd e (poll_mask e) d = inl DF_overflow) in Hov.
    unfold doEnqueueEvent in Hov. pose proof (di_capa _ Hi).
    destruct (first_slot _ _) eqn:E; [done|]. destruct (Nat.ltb _ _) eqn:El; [done|]. apply Nat.ltb_ge in El. cbn in El.
    split; [lia|]. apply Forall_forall. intros s Hs. pose proof (first_slot_none _ _ s E Hs) as Hf. cbn in Hf. lia.
  - destruct (delete_all_spec (dp_slots d) d) as (d' & E & E1 & E2).
    { by apply events_NoDup, (di_unique _ Hi). }
    { intros id (s & [j Hj]%list_elem_of_lookup & Hid)%list_elem_of_omap.
      eapply (kept_event (st_fd s) d d); [done|apply kept_refl|done..]. }
    assert (forall id, id ∈ omap st_event (dp_slots d) <-> id ∈ dom (dp_objects d)) as Hobj.
    { intros id. rewrite list_elem_of_omap. split.
      - intros (s & [j Hj]%list_elem_of_lookup & Hid). eapply (kept_event (st_fd s) d d); [done|apply kept_refl|done..].
      - intros (j & s & Hj & Hid)%(di_objects _ Hi). exists s. split; [|done]. by eapply list_elem_of_lookup_2. }
    destruct (di_once _ Hi) as [Hnd Hdis]. exists d'. split_and!; [done| | |].
    + apply dom_empty_iff_L. rewrite E2. apply set_eq. intros id.
      rewrite elem_of_difference, elem_of_list_to_set, Hobj. set_solver.
    + rewrite E1. apply NoDup_app. split_and!; [done| |by apply events_NoDup, (di_unique _ Hi)].
      intros id Hd Ho%Hobj. by apply (Hdis id).
    + intros id. rewrite E1, elem_of_app, Hobj, <- (di_ids _ Hi). naive_solver.
Qed.

(** C38. With the same user, one poll that finds events ready and does not overflow the table
    calls [eval] of those events in the order of the table, of each at most once.  When no
    routine calls [stop], every ready event is evaluated, with one exception: the event of slot
    [k] may have been deleted before its turn, by a routine that removed events of its
    descriptor and that was called in the evaluation of an event of an earlier slot, no event
    but those of earlier slots having been evaluated until then ([taken_away]); so the first
    ready event is always evaluated.  An event armed during the poll is not evaluated, even in
    the slot of a ready one. *)
Theorem poll_evaluates t d w ret rs w1 :
  well_behaved ->
  dp_inv d -> k_poll (map (fun s => (st_fd s, st_events s)) (dp_slots d)) t w = (inl ret, rs, w1) -> 0 < ret ->
  let slots := set_revents rs (dp_slots d) in
  unless_full (poll t d w) (fun '(r, d', _) => r = ret /\ exists tr, dp_trace d' = dp_trace d ++ tr /\
    NoDup (evaluated tr) /\ sublist (evaluated tr) (ready slots) /\
    (forall id, id ∈ evaluated tr -> 0 <= id < dp_next d) /\
    (dp_finished d' = false ->
      (forall k s id, slots !! k = Some s -> slot_ready s = Some id ->
        id ∈ evaluated tr \/ (id ∈ dp_deleted d' /\ taken_away slots k s tr)) /\
      head (evaluated tr) = head (ready slots))).
Proof.
  intros Hwb Hi Hp Hret slots. eapply unless_full_mono; [by apply (poll_spec Hwb t d w ret rs w1)|].
  intros [[r d'] w'] (-> & _ & _ & tr & Hlog & Hsub & Hall). split; [done|]. exists tr.
  pose proof (set_revents_inv rs d Hi) as Hi1. rewrite drop_0 in Hsub.
  change (sublist (evaluated tr) (ready slots)) in Hsub. assert (NoDup (ready slots)) as Hnd by apply ready_NoDup, events_NoDup, (di_unique _ Hi1).
  split_and!; [done|by eapply sublist_NoDup|done| |].
  - intros id Hin. apply (di_ids _ Hi1). left. pose proof (elem_of_sublist _ _ _ Hin Hsub) as Hr.
    apply list_elem_of_omap in Hr as (s & [j Hj]%list_elem_of_lookup & Hs%slot_ready_Some).
    destruct (di_slots _ Hi1 j s Hj) as [[_ ?]|(_ & id' & E & ?)]; congruence.
  - intros Hf. split; [intros k s id; apply (Hall Hf k s id); lia|].
    destruct (ready slots) as [|id rest] eqn:E; [by apply sublist_nil_r in Hsub as ->|].
    eapply sublist_head; [exact Hnd|exact Hsub|]. destruct (ready_first _ _ _ E) as (k & s & Hk & Hs & Hb).
    destruct (Hall Hf k s id) as [?|(_ & tr1 & _ & Hne & Hl)]; [lia|done..|].
    destruct (evaluated tr1) as [|id0 l]; [done|]. destruct (Hl id0) as (j & u & Hj & Hu & Hru); [by left|].
    by rewrite (Hb j u Hj Hu) in Hru.
Qed.

End dispatcher.

(** ** A concrete run *)

Module Example.

(** Routine 0 keeps its event armed; 1 takes the events of descriptor 7 away; 2 arms a read
    on descriptor 9 and ends. *)
#[local] Instance kernel : Kernel (F := nat) (W := list Completion) := {
  k_poll fds t w := (inl (Z.of_nat (length fds)), map (fun _ => POLLIN) fds, w);
  k_read fd buf len w := (inl len, w);
  k_write fd buf len w := (inl len, w);
  k_so_error fd w := (Some 0, w);
  k_reset_nonblock fd w := w;
  k_accept fd w := (inl 20, w);
  k_settime fd ms w := (true, w);
  k_expiration fd w := (None, w);
  func f fd c w := (w ++ [c], match f with
    | 1%nat => [DA_removeAll 7]
    | 2%nat => [DA_enqueue 9 (DE_read_some 0 4 0%nat)]
    | _ => [] end, Nat.eqb f 0);
}.

Lemma routines : well_behaved.
Proof.
  intros f fd c w. cbn. destruct f as [|[|[|f]]]; cbn; (split; [repeat constructor; cbn; lia|]); try done.
Qed.

Definition read_with (f : nat) : IoEvent nat := DE_read_some 0 4 f.

Definition arming : list (Act nat) :=
  [DA_enqueue 5 (read_with 1); DA_enqueue 6 (read_with 2); DA_enqueue 7 (read_with 0)].

Definition three : Dispatcher nat :=
  match run_acts arming (new_Dispatcher 4) with
  | inr d => d
  | inl _ => new_Dispatcher 4
  end.

Lemma three_reached : reaches 4 three [].
Proof.
  eapply (reaches_acts 4 arming (new_Dispatcher 4)); [apply reaches_new| |vm_compute; reflexivity].
  repeat constructor; cbn; lia.
Qed.

End Example.

Section witnesses.
Import Example.
#[local] Existing Instance kernel.

(** Descriptor 7 has no turn: routine 1 takes its event away.  The read armed by routine 2
    waits for the next poll. *)
Lemma poll_evaluates_witness :
  well_behaved /\ dp_inv three /\
  k_poll (map (fun s => (st_fd s, st_events s)) (dp_slots three)) 1000 [] = (inl 3, [POLLIN; POLLIN; POLLIN], []) /\
  ready (set_revents [POLLIN; POLLIN; POLLIN] (dp_slots three)) = [0; 1; 2] /\
  match poll 1000 three [] with
  | inr (_, d, w) => dp_trace d = [DT_eval 0; DT_call 1%nat 5 (Co_io 4 ec_ok) [DA_removeAll 7];
        DT_eval 1; DT_call 2%nat 6 (Co_io 4 ec_ok) [DA_enqueue 9 (read_with 0)]] /\
      dp_deleted d = [2; 0; 1] /\ map st_fd (dp_slots d) = [9; -1; -1] /\ w = [Co_io 4 ec_ok; Co_io 4 ec_ok]
  | inl _ => False
  end /\
  let slots := set_revents [POLLIN; POLLIN; POLLIN] (dp_slots three) in
  unless_full (poll 1000 three []) (fun '(r, d', _) => r = 3 /\ exists tr, dp_trace d' = dp_trace three ++ tr /\
    NoDup (evaluated tr) /\ sublist (evaluated tr) (ready slots) /\
    (forall id, id ∈ evaluated tr -> 0 <= id < dp_next three) /\
    (dp_finished d' = false ->
      (forall k s id, slots !! k = Some s -> slot_ready s = Some id ->
        id ∈ evaluated tr \/ (id ∈ dp_deleted d' /\ taken_away slots k s tr)) /\
      head (evaluated tr) = head (ready slots))).
Proof.
  assert (dp_inv three) as Hi by apply (reaches_inv routines 4 three [] three_reached).
  split; [exact routines|]. split; [exact Hi|]. split; [reflexivity|]. split; [reflexivity|].
  split; [vm_compute; repeat split|].
  apply (poll_evaluates 1000 three [] 3 [POLLIN; POLLIN; POLLIN] []); [exact routines|exact Hi|reflexivity|reflexivity].
Defined.

Lemma dispatcher_safe_witness :
  well_behaved /\ reaches 4 three [] /\
  (forall t, unless_full (poll t three []) (fun _ => True)) /\
  (forall fuel r, dispatcher_loop fuel three [] = Some r -> unless_full r (fun _ => True)) /\
  (forall a, act_ok a -> unless_full (run_act a three) (fun _ => True)) /\
  (forall fd e, run_act (DA_enqueue fd e) three = inl DF_overflow ->
    length (dp_slots three) = dp_capa three /\ Forall (fun s => st_fd s <> -1) (dp_slots three)) /\
  exists d', destroy_Dispatcher three = inr d' /\ dp_objects d' = ∅ /\ NoDup (dp_deleted d') /\
    forall id, id ∈ dp_deleted d' <-> 0 <= id < dp_next three.
Proof.
  split; [exact routines|]. split; [apply three_reached|].
  apply (dispatcher_safe 4 three []); [exact routines|apply three_reached].
Defined.

(** ** What the table does not do *)

(** [removeAll] takes away one event of the descriptor. *)
Lemma removeAll_one :
  match run_acts [DA_enqueue 5 (read_with 1); DA_enqueue 5 (DE_write_some 0 4 0%nat); DA_removeAll 5] (new_Dispatcher 4) with
  | inr d => map st_fd (dp_slots d) = [-1; 5]
  | inl _ => False
  end.
Proof. reflexivity. Qed.

(** An event that is armed on the descriptor of a closed device is lost with the next one that
    is armed: its slot counts as free, and the destructor does not delete it. *)
Lemma armed_on_no_descriptor :
  match run_acts [DA_enqueue (-1) (read_with 1); DA_enqueue 5 (read_with 1)] (new_Dispatcher 4) with
  | inr d => map st_fd (dp_slots d) = [5] /\
    match destroy_Dispatcher d with inr d' => dp_deleted d' = [1] /\ dom (dp_objects d') = {[ 0 ]} | inl _ => False end
  | inl _ => False
  end.
Proof. vm_compute. by repeat split. Qed.

(** One event more than there are places is written behind the tables. *)
Lemma enqueue_overflows :
  run_acts [DA_enqueue 5 (read_with 1); DA_enqueue 6 (read_with 1)] (new_Dispatcher 1) = inl DF_overflow.
Proof. reflexivity. Qed.

End witnesses.

(** A timer that is closed by its own routine, which then asks to be rearmed: [arm] is called
    for the event that [close] has deleted. *)
Definition closing_kernel : Kernel (F := nat) (W := unit) := {|
  k_poll fds t w := (inl (Z.of_nat (length fds)), map (fun _ => POLLIN) fds, w);
  k_read fd buf len w := (inl len, w);
  k_write fd buf len w := (inl len, w);
  k_so_error fd w := (Some 0, w);
  k_reset_nonblock fd w := w;
  k_accept fd w := (inl 20, w);
  k_settime fd ms w := (true, w);
  k_expiration fd w := (None, w);
  func f fd c w := (w, [DA_removeAll fd], true);
|}.

Lemma timer_closed_and_rearmed :
  match doEnqueueEvent 5 (DE_timer 100 0%nat) POLLIN (new_Dispatcher 1) with
  | inr d => @poll nat unit closing_kernel 1000 d tt = inl DF_deleted
  | inl _ => False
  end.
Proof. vm_compute. reflexivity. Qed.

(** The third part of a transfer by [ReadAllEvent] is stored over the second: [cur_] is
    [buf_ + len], not [cur_ + len]. *)
Definition parts_kernel : Kernel (F := nat) (W := list (Z * Z)) := {|
  k_poll fds t w := (inl (Z.of_nat (length fds)), map (fun _ => POLLIN) fds, w);
  k_read fd buf len w := (inl (Z.min len 10), w ++ [(buf, Z.min len 10)]);
  k_write fd buf len w := (inl len, w);
  k_so_error fd w := (Some 0, w);
  k_reset_nonblock fd w := w;
  k_accept fd w := (inl 20, w);
  k_settime fd ms w := (true, w);
  k_expiration fd w := (None, w);
  func f fd c w := (w, [DA_stop 0], false);
|}.

Lemma read_all_overwrites :
  match doEnqueueEvent 5 (DE_read_all 100 30 0 0 0%nat) POLLIN (new_Dispatcher 1) with
  | inr d => match @dispatcher_loop nat (list (Z * Z)) parts_kernel 10 d [] with
    | Some (inr (_, _, w)) => w = [(100, 10); (110, 10); (110, 10)]
    | _ => False
    end
  | inl _ => False
  end.
Proof. vm_compute. reflexivity. Qed.
