(* ===== verification/IoDevices.v ===== *)
(** Devices on a dispatcher: [Device], [IODevice], [Acceptor] and [StreamSocket] of
    [src/common/CDevices.hpp] and [NativeTimer] of [src/common/CTimer.{hpp,cpp}].

    A device owns a descriptor, which it closes at its end, and arms events on the dispatcher
    it was created with.  A system call is given by its first result that is not [EINTR]. *)

From S2P Require Import Prelude.
From S2P Require Import Devices.
From S2P Require Import Dispatcher.

(** [Invalid] is -1; the dispatcher is known or 0. *)
Record Device := mkDevice { dv_fd : Z; dv_dispatcher : bool }.
#[export] Instance Eta_Device : Eta Device := fun d => mkDevice (dv_fd d) (dv_dispatcher d).

Definition is_open (dv : Device) : bool := negb (dv_fd dv =? -1).

(** [Device::release]: the descriptor leaves the device. *)
Definition release_fd (dv : Device) : Z * Device := (dv_fd dv, dv <| dv_fd := -1 |>).

(** The copy constructor: the copy and the original. *)
Definition move_device (dv : Device) : Device * Device :=
  let '(fd, dv') := release_fd dv in (mkDevice fd (dv_dispatcher dv), dv').

(** [Device::operator=(fd)]: [None] is a failed assertion. *)
Definition assign_fd (fd : Z) (dv : Device) : option Device :=
  if dv_fd dv =? -1 then Some (dv <| dv_fd := fd |>) else None.

Section devices.
Context {F : Type}.

(** [IODevice::close]; [closed] is the [errno] of [close], 0 for success.  The descriptors
    that were closed are returned with the error code. *)
Definition close_device (closed : Z) (dv : Device) (d : Dispatcher F) : Res (Z * list Z * Device * Dispatcher F) :=
  if is_open dv then
    d ← (if dv_dispatcher dv then doRemoveAll (dv_fd dv) d else inr d);
    inr (if closed =? 0 then ec_ok else to_error_code closed, [dv_fd dv], dv <| dv_fd := -1 |>, d)
  else inr (ec_ok, [], dv, d).

(** [IODevice::operator=(fd)]. *)
Definition assign_device (closed fd : Z) (dv : Device) (d : Dispatcher F) : option (Res (list Z * Device * Dispatcher F)) :=
  match close_device closed dv d with
  | inl e => Some (inl e)
  | inr (_, fds, dv, d) => match assign_fd fd dv with Some dv => Some (inr (fds, dv, d)) | None => None end
  end.

(** The asynchronous operations.  [connect] has the results of [try_async_connect]'s calls,
    the timer that of [timerfd_settime]. *)
Inductive DeviceOp :=
  | DO_read_some (buf len : Z) (f : F)
  | DO_write_some (buf len : Z) (f : F)
  | DO_read_all (buf len : Z) (f : F)
  | DO_write_all (buf len : Z) (f : F)
  | DO_connect (nonblock conn : Z) (f : F)
  | DO_accept (f : F)
  | DO_start (timeout_ms : Z) (armed : bool) (f : F)
  | DO_cancel_read
  | DO_cancel_write.

(** What it asks of the dispatcher. *)
Definition device_acts (o : DeviceOp) (dv : Device) : list (Act F) :=
  match o with
  | DO_read_some buf len f => [DA_enqueue (dv_fd dv) (DE_read_some buf len f)]
  | DO_write_some buf len f => [DA_enqueue (dv_fd dv) (DE_write_some buf len f)]
  | DO_read_all buf len f => [DA_enqueue (dv_fd dv) (DE_read_all buf len 0 0 f)]
  | DO_write_all buf len f => [DA_enqueue (dv_fd dv) (DE_write_all buf len 0 0 f)]
  | DO_connect nonblock conn f => [DA_enqueue (dv_fd dv) (DE_connect (try_async_connect nonblock conn) f)]
  | DO_accept f => [DA_enqueue (dv_fd dv) (DE_accept f)]
  | DO_start ms armed f => if armed then [DA_enqueue (dv_fd dv) (DE_timer ms f)] else []
  | DO_cancel_read => [DA_removeEvent (dv_fd dv) POLLIN]
  | DO_cancel_write => [DA_removeEvent (dv_fd dv) POLLOUT]
  end.

(** The result of [NativeTimer::start]. *)
Definition start_result (armed : bool) : Z := if armed then ec_ok else ec_unspecified.

(** [async_*], [cancel_*] and [start] with the assertion that there is a dispatcher. *)
Definition device_op (o : DeviceOp) (dv : Device) (d : Dispatcher F) : option (Res (Dispatcher F)) :=
  if dv_dispatcher dv then Some (run_acts (device_acts o dv) d) else None.

(** ** Ownership *)

(** The events armed on a descriptor. *)
Definition armed (fd : Z) (d : Dispatcher F) : list Slot := filter (fun s => st_fd s = fd) (dp_slots d).

(** Moving leaves exactly one owner of the descriptor. *)
Lemma move_device_one_owner dv dv1 dv2 :
  move_device dv = (dv1, dv2) -> dv1 = dv /\ is_open dv2 = false.
Proof. destruct dv as [fd b]. intros [= <- <-]. done. Qed.

(** An open device operates on a descriptor, as the dispatcher asks of its users. *)
Lemma device_acts_ok o dv : 0 <= dv_fd dv -> Forall act_ok (device_acts o dv).
Proof. intros Hfd. destruct o; cbn; try destruct armed0; repeat constructor; done. Qed.

(** Removing the first of the events. *)
Lemma filter_remove_first fd s0 l i :
  st_fd s0 <> fd -> first_slot (fun s => st_fd s =? fd) l = Some i ->
  length (filter (fun s => st_fd s = fd) l) = S (length (filter (fun s => st_fd s = fd) (<[i:=s0]> l))).
Proof.
  intros Hs0. revert i. induction l as [|s l IH]; intros i; cbn [first_slot]; [done|].
  destruct (Z.eqb_spec (st_fd s) fd) as [E|E].
  - intros [= <-]. cbn [insert list_insert]. rewrite (filter_cons_True (fun s => st_fd s = fd)) by done.
    by rewrite (filter_cons_False (fun s => st_fd s = fd)).
  - destruct (first_slot _ l) as [k|]; [|done]. cbn [fmap option_fmap option_map]. intros [= <-].
    cbn [insert list_insert]. rewrite !(filter_cons_False (fun s => st_fd s = fd)) by done. by apply IH.
Qed.

(** [close] takes one event of the descriptor away, whatever the number of events armed. *)
Lemma close_disarms closed dv d :
  dp_inv d -> 0 <= dv_fd dv -> dv_dispatcher dv = true ->
  exists ec dv' d', close_device closed dv d = inr (ec, [dv_fd dv], dv', d') /\ is_open dv' = false /\
    dp_inv d' /\ length (armed (dv_fd dv) d') = Nat.pred (length (armed (dv_fd dv) d)).
Proof.
  intros Hi Hfd Hd. unfold close_device, is_open. destruct (Z.eqb_spec (dv_fd dv) (-1)); [lia|]. rewrite Hd. cbn [negb].
  unfold doRemoveAll. destruct (first_slot _ _) as [i|] eqn:E.
  - pose proof (first_slot_spec _ _ _ E) as (s & Hs & _). destruct (clearSlot_spec i s d Hi Hs) as (d' & Ec & (Hi' & _) & _).
    rewrite Ec. do 3 eexists. split; [reflexivity|]. split_and!; [done|done|].
    assert (dp_slots d' = <[i := s <| st_fd := -1 |> <| st_event := None |>]> (dp_slots d)) as Es.
    { unfold clearSlot in Ec. rewrite Hs in Ec. unfold delete_event in Ec. repeat case_match; by simplify_eq. }
    unfold armed. rewrite Es.
    rewrite (filter_remove_first (dv_fd dv) (s <| st_fd := -1 |> <| st_event := None |>) (dp_slots d) i); [done|cbn; lia|done].
  - do 3 eexists. split; [reflexivity|]. split_and!; [done|done|]. unfold armed.
    destruct (filter _ _) as [|s l] eqn:Ef; [done|]. exfalso.
    assert (s ∈ filter (fun s => st_fd s = dv_fd dv) (dp_slots d)) as Hin by (rewrite Ef; by left).
    apply list_elem_of_filter in Hin as [Hs Hin]. pose proof (first_slot_none _ _ s E Hin) as Hn. cbn in Hn. lia.
Qed.

End devices.

Arguments DeviceOp : clear implicits.

(** A device closed while a read and a write are armed leaves the write behind: the next poll
    evaluates it, with the descriptor closed, although its device is gone. *)
Lemma close_leaves_event :
  let dv := mkDevice 5 true in
  match run_acts (device_acts (DO_read_some 0 4 1%nat) dv ++ device_acts (DO_write_all 0 4 1%nat) dv) (new_Dispatcher 4) with
  | inr d => match close_device 0 dv d with
    | inr (ec, fds, dv, d) => ec = ec_ok /\ fds = [5] /\ is_open dv = false /\
        map st_event (armed 5 d) = [Some 1]
    | inl _ => False
    end
  | inl _ => False
  end.
Proof. vm_compute. repeat split. Qed.
