(* ===== verification/Http.v ===== *)
(** The HTTP status service of the servicebroker: [HTTPClient] of
    [src/servicebroker/ServicebrokerServer.{hpp,cpp}] and [setup] of
    [src/servicebroker/util.cpp], which a request can reach.

    A request is collected in an array of 512 bytes; the parsers walk through that memory, and
    [None] is an access outside of it, or behind the array [option] of [setup].  What the
    servicebroker prints for a request is a parameter. *)

From S2P Require Import Prelude.
From S2P Require Import ClientIo.

(** ** C strings in memory *)

Definition chr (s : string) : Z := match bytes_of_string s with b :: _ => b | [] => 0 end.
Definition CR : Z := 13.
Definition LF : Z := 10.
Definition crlf : bytes := [CR; LF].

(** A pointer that runs until [p] holds. *)
Fixpoint run_to (p : Z -> bool) (mem : bytes) : option nat :=
  match mem with [] => None | b :: mem => if p b then Some O else S <$> run_to p mem end.

(** The string at the beginning of [mem]. *)
Fixpoint c_string (mem : bytes) : option bytes :=
  match mem with [] => None | b :: mem => if b =? 0 then Some [] else cons b <$> c_string mem end.

Definition strnlen (mem : bytes) (n : nat) : nat := length (cstr (take n mem)).

(** Whether [mem] begins with [needle]. *)
Fixpoint starts (needle mem : bytes) : option bool :=
  match needle, mem with
  | [], _ => Some true
  | _ :: _, [] => None
  | n :: needle, b :: mem => if b =? n then starts needle mem else Some false
  end.

(** [strstr]: the offset of the first occurrence. *)
Fixpoint strstr (needle mem : bytes) : option (option nat) :=
  match starts needle mem with
  | None => None
  | Some true => Some (Some O)
  | Some false =>
    match mem with
    | [] => None
    | b :: mem => if b =? 0 then Some None else
      match strstr needle mem with Some m => Some (S <$> m) | None => None end
    end
  end.

Definition isspace (b : Z) : bool := (b =? 32) || ((9 <=? b) && (b <=? 13)).

Definition isdigit (b : Z) : bool := (48 <=? b) && (b <=? 57).

Fixpoint skip_while (p : Z -> bool) (s : bytes) : bytes :=
  match s with b :: s' => if p b then skip_while p s' else s | [] => [] end.

Fixpoint take_while (p : Z -> bool) (s : bytes) : bytes :=
  match s with b :: s' => if p b then b :: take_while p s' else [] | [] => [] end.

(** [strtol] saturates; a [long] has 32 bits. *)
Definition saturate (n : Z) : Z := Z.max (- 2 ^ 31) (Z.min n (2 ^ 31 - 1)).

(** A decimal number after white space: the conversion of [atoi] and of [%d]. *)
Definition scan_int (s : bytes) : option Z :=
  match skip_while isspace s with
  | 45 :: s' => if isdigit (default 0 (head s')) then Some (saturate (- fst (number 0 s'))) else None
  | 43 :: s' => if isdigit (default 0 (head s')) then Some (saturate (fst (number 0 s'))) else None
  | s' => if isdigit (default 0 (head s')) then Some (saturate (fst (number 0 s'))) else None
  end.

Definition atoi (s : bytes) : Z := default 0 (scan_int s).

(** [strtok] with one delimiter: the tokens it yields. *)
Fixpoint tokens_from (delim : Z) (s cur : bytes) : list bytes :=
  match s with
  | [] => if bool_decide (cur = []) then [] else [cur]
  | b :: s =>
    if b =? delim then (if bool_decide (cur = []) then tokens_from delim s [] else cur :: tokens_from delim s [])
    else tokens_from delim s (cur ++ [b])
  end.
Definition tokens (delim : string) (s : bytes) : list bytes := tokens_from (chr delim) s [].

(** ** [setup] *)

(** What a command changes. *)
Inductive Command :=
  | CMD_verbose (level : Z)
  | CMD_console (on : bool)
  | CMD_shutdown
  | CMD_stop_worker.

(** The text behind a literal of a format. *)
Definition after_literal (lit : string) (command : bytes) : option bytes :=
  let lit := bytes_of_string lit in
  if bool_decide (take (length lit) command = lit) then Some (drop (length lit) command) else None.

(** [sizeof(option)]. *)
Definition OPTION_SIZE : nat := 32.

Definition setup (command : bytes) : option (bool * list Command) :=
  match after_literal "verbose=" command ≫= scan_int with
  | Some iarg => Some (true, [CMD_verbose iarg])
  | None =>
    match after_literal "console=" command ≫= scan_int with
    | Some iarg => Some (true, [CMD_console (negb (iarg =? 0))])
    | None =>
      match after_literal "shutdown" command with
      | Some _ => Some (true, [CMD_shutdown])
      | None =>
        match take_while (fun b => negb (isspace b)) (skip_while isspace (default [] (after_literal "disconnect=" command))) with
        | [] => Some (false, [])
        | option =>
          if Nat.ltb (length option) OPTION_SIZE then
            if default 0 (head option) =? chr "m" then Some (true, [CMD_stop_worker]) else Some (false, [])
          else None
        end
      end
    end
  end.

(** ** The client *)

Definition BUF_SIZE : nat := 512.

Inductive HttpState := HS_SENDHEADER | HS_SENDBODY.

(** [body_begin_] is an offset or null; [mState] is not initialised by the constructor. *)
Record HTTPClient := mkHTTPClient {
  hc_buf : bytes;
  hc_body_begin : option nat;
  hc_total : nat;
  hc_mState : option HttpState;
  hc_mHeader : bytes;
  hc_mBody : bytes;
}.
#[export] Instance Eta_HTTPClient : Eta HTTPClient := fun c =>
  mkHTTPClient (hc_buf c) (hc_body_begin c) (hc_total c) (hc_mState c) (hc_mHeader c) (hc_mBody c).

Definition new_HTTPClient : HTTPClient := mkHTTPClient (replicate BUF_SIZE 0) None 0 None [] [].

(** What a handler ends with: [async_read_some], [async_write_all] or [delete this]. *)
Inductive HttpReaction := HR_read (offset size : nat) | HR_write (data : bytes) | HR_delete.

Definition http_start (c : HTTPClient) : HttpReaction := HR_read 0 BUF_SIZE.

(** [parseRequestLine]: the offset of the URI, and the memory. *)
Definition parseRequestLine (buf : bytes) : option (option nat * bytes) :=
  if Nat.ltb 4 (strnlen buf (BUF_SIZE - 1)) then
    i ← run_to (fun b => (b =? CR) || (b =? chr "n")) buf;
    let buf := <[i := 0]> buf in
    let stop b := (b =? 32) || (b =? 0) in
    j ← run_to stop buf;
    let uri := if default 0 (buf !! j) =? 32 then S j else j in
    k ← run_to stop (drop uri buf);
    Some (Some uri, <[(uri + k)%nat := 0]> buf)
  else Some (None, buf).

(** [parseContentLength]; the lower-case copy it makes is not used afterwards. *)
Definition parseContentLength (buf : bytes) : option Z :=
  m ← strstr (bytes_of_string "content-length") buf;
  match m with
  | Some p =>
    s ← c_string (drop (p + 15) buf);
    Some (atoi (skip_while (fun b => (b =? chr ":") || (b =? 32)) s))
  | None => Some (-1)
  end.

Inductive Report := RP_servers | RP_clients | RP_connect | RP_disconnect | RP_detach | RP_stats.

(** The report a URI asks for. *)
Definition report_of (uri : bytes) : option Report :=
  let c := default 0 (uri !! 1%nat) in
  if c =? chr "s" then Some RP_servers
  else if c =? chr "a" then Some RP_clients
  else if c =? chr "c" then Some RP_connect
  else if c =? chr "d" then (if bool_decide (length uri = 2%nat) then Some RP_disconnect else Some RP_detach)
  else if c =? chr "f" then None
  else Some RP_stats.

Definition http_header (size : Z) : bytes :=
  bytes_of_string "HTTP/1.1 200 OK" ++ crlf ++
  bytes_of_string "Content-type: text/plain" ++ crlf ++
  bytes_of_string "Content-transfer-encoding: 7-bit" ++ crlf ++
  bytes_of_string "Content-length: " ++ sprintf_d size ++ crlf ++
  bytes_of_string "Connection: close" ++ crlf ++ crlf.

(** The commands of the tokens, one after the other. *)
Fixpoint setup_all (toks : list bytes) : option (list Command) :=
  match toks with
  | [] => Some []
  | tok :: toks => '(_, cmds) ← setup tok; more ← setup_all toks; Some (cmds ++ more)
  end.

Section http.
Context (dump : Report -> bytes).

Definition is_post (buf : bytes) : bool := default 0 (head buf) =? chr "P".

(** [eval] up to the texts: the memory, the body and the commands. *)
Definition eval_body (c : HTTPClient) : option (bytes * bytes * list Command) :=
  let buf := hc_buf c in
  if is_post buf then
    match hc_body_begin c with
    | Some body =>
      if Nat.ltb (hc_total c) BUF_SIZE then
        s ← c_string (drop body buf);
        cmds ← setup_all (tokens "&" (skip_while isspace s));
        Some (buf, bytes_of_string "OK", cmds)
      else Some (buf, bytes_of_string "FAIL", [])
    | None => Some (buf, bytes_of_string "FAIL", [])
    end
  else
    '(uri, buf) ← parseRequestLine buf;
    match uri with
    | Some u =>
      s ← c_string (drop u buf);
      if bool_decide (s = []) then Some (buf, [], [])
      else Some (buf, match report_of s with Some r => dump r | None => [] end, [])
    | None => Some (buf, [], [])
    end.

Definition http_arm (c : HTTPClient) : HttpReaction :=
  match hc_mState c with Some HS_SENDHEADER => HR_write (hc_mHeader c) | _ => HR_write (hc_mBody c) end.

Definition http_eval (c : HTTPClient) : option (HTTPClient * HttpReaction * list Command) :=
  '(buf, body, cmds) ← eval_body c;
  let c := c <| hc_buf := buf |> <| hc_mBody := body |> <| hc_mHeader := http_header (Z.of_nat (length body)) |>
             <| hc_mState := Some HS_SENDHEADER |> in
  Some (c, http_arm c, cmds).

(** [handleRead]: [data] is what the read has stored, [ok] whether it has. *)
Definition http_handleRead (data : bytes) (ok : bool) (c : HTTPClient) : option (HTTPClient * HttpReaction * list Command) :=
  if ok then
    let buf := take (hc_total c) (hc_buf c) ++ data ++ drop (hc_total c + length data) (hc_buf c) in
    let c := c <| hc_buf := buf |> <| hc_total ::= (fun t => t + length data)%nat |> in
    let rearmRead := Nat.ltb (hc_total c) BUF_SIZE in
    m ← strstr (crlf ++ crlf) buf;
    '(c, rearmRead) ←
      match m with
      | Some p =>
        let c := c <| hc_body_begin := Some (p + 2)%nat |> in
        if is_post buf then
          len ← parseContentLength buf;
          Some (c, (Z.of_nat (hc_total c) <? i32 (Z.of_nat (p + 2) + len)) && Nat.ltb (hc_total c) BUF_SIZE)
        else Some (c, false)
      | None => Some (c, rearmRead)
      end;
    if (rearmRead : bool) then Some (c, HR_read (hc_total c) (BUF_SIZE - hc_total c), []) else http_eval c
  else Some (c, HR_delete, []).

Definition http_handleWrite (ok : bool) (c : HTTPClient) : HTTPClient * HttpReaction :=
  if ok then
    match hc_mState c with
    | Some HS_SENDHEADER => let c := c <| hc_mState := Some HS_SENDBODY |> in (c, http_arm c)
    | _ => (c, HR_delete)
    end
  else (c, HR_delete).

End http.

(** ** The memory functions *)

Definition no_nul (s : bytes) : Prop := Forall (fun b => b <> 0) s.

Lemma run_to_elem p mem b : b ∈ mem -> p b = true -> exists i, run_to p mem = Some i.
Proof.
  induction mem as [|b' mem IH]; intros Hin Hp; cbn; [by apply not_elem_of_nil in Hin|].
  destruct (p b') eqn:E; [by exists O|]. apply elem_of_cons in Hin as [->|Hin]; [congruence|].
  destruct (IH Hin Hp) as [i ->]. by exists (S i).
Qed.

Lemma run_to_Some p mem i : run_to p mem = Some i -> exists b, mem !! i = Some b /\ p b = true.
Proof.
  revert i. induction mem as [|b mem IH]; intros i; cbn; [done|]. destruct (p b) eqn:E; [intros [= <-]; by exists b|].
  destruct (run_to p mem) as [k|]; [|done]. cbn. intros [= <-]. by apply IH.
Qed.

Lemma run_to_first p mem i j b : run_to p mem = Some i -> mem !! j = Some b -> p b = true -> (i <= j)%nat.
Proof.
  revert i j. induction mem as [|b' mem IH]; intros i j; cbn; [done|]. destruct (p b') eqn:E; [intros [= <-]; lia|].
  destruct (run_to p mem) as [k|]; [|done]. cbn. intros [= <-] Hj Hp. destruct j as [|j]; cbn in Hj; [congruence|].
  specialize (IH k j eq_refl Hj Hp). lia.
Qed.

Lemma run_to_app p l mem : Forall (fun b => p b = false) l ->
  run_to p (l ++ mem) = (fun i => length l + i)%nat <$> run_to p mem.
Proof.
  induction 1 as [|b l Hb _ IH]; cbn; [by destruct (run_to p mem)|]. rewrite Hb, IH. by destruct (run_to p mem).
Qed.

Lemma c_string_elem mem : 0 ∈ mem -> exists s, c_string mem = Some s.
Proof.
  induction mem as [|b mem IH]; intros Hin; cbn; [by apply not_elem_of_nil in Hin|].
  destruct (Z.eqb_spec b 0); [by exists []|]. apply elem_of_cons in Hin as [Hin|Hin]; [by subst|].
  destruct (IH Hin) as [s ->]. by exists (b :: s).
Qed.

Lemma c_string_app s t : no_nul s -> c_string (s ++ 0 :: t) = Some s.
Proof.
  induction 1 as [|b s Hb _ IH]; cbn; [done|]. destruct (Z.eqb_spec b 0); [done|]. by rewrite IH.
Qed.

Lemma starts_app needle l t : no_nul needle ->
  exists b, starts needle (l ++ 0 :: t) = Some b /\ (b = true -> exists l', l = needle ++ l').
Proof.
  intros Hn. revert l. induction Hn as [|n needle Hn0 _ IH]; intros l; cbn [starts]; [exists true; split; [done|by exists l]|].
  destruct l as [|b l]; cbn [app].
  - destruct (Z.eqb_spec 0 n); [done|]. by exists false.
  - destruct (Z.eqb_spec b n) as [->|]; [|by exists false]. destruct (IH l) as (r & -> & Hr). exists r. split; [done|].
    intros Hb. destruct (Hr Hb) as [l' ->]. by exists l'.
Qed.

(** In memory that ends with a null byte [strstr] stays inside; what it finds lies before it. *)
Lemma strstr_app needle l t : no_nul needle ->
  exists m, strstr needle (l ++ 0 :: t) = Some m /\
    forall p, m = Some p -> exists l', drop p l = needle ++ l'.
Proof.
  intros Hn. induction l as [|b l IH].
  - destruct (starts_app needle [] t Hn) as (r & E & Hr). cbn [app] in *. cbn [strstr]. rewrite E. destruct r.
    + exists (Some O). split; [done|]. intros p [= <-]. by apply Hr.
    + exists None. by split.
  - destruct (starts_app needle (b :: l) t Hn) as (r & E & Hr). cbn [app] in *. cbn [strstr]. rewrite E. destruct r.
    + exists (Some O). split; [done|]. intros p [= <-]. by apply Hr.
    + destruct (b =? 0); [by exists None|]. destruct IH as (m & -> & Hm). exists (S <$> m). split; [done|].
      intros p Hp. destruct m as [q|]; [|done]. injection Hp as <-. by apply Hm.
Qed.

(** What lies behind the null byte does not matter. *)
Lemma starts_tail needle l t : no_nul needle -> starts needle (l ++ 0 :: t) = starts needle (l ++ [0]).
Proof.
  intros Hn. revert l. induction Hn as [|n needle Hn0 _ IH]; intros l; cbn [starts]; [done|].
  destruct l as [|b l]; cbn [app]; [by destruct (Z.eqb_spec 0 n)|]. by destruct (b =? n).
Qed.

Lemma strstr_tail needle l t : no_nul needle -> strstr needle (l ++ 0 :: t) = strstr needle (l ++ [0]).
Proof.
  intros Hn. induction l as [|b l IH].
  - pose proof (starts_tail needle [] t Hn) as E. cbn [app] in *. cbn [strstr]. by rewrite E.
  - pose proof (starts_tail needle (b :: l) t Hn) as E. cbn [app] in *. cbn [strstr]. by rewrite E, IH.
Qed.

Lemma starts_here needle l : starts needle (needle ++ l) = Some true.
Proof. induction needle as [|n needle IH]; cbn [starts app]; [done|]. by rewrite Z.eqb_refl. Qed.

(** [strstr] finds the first occurrence. *)
Lemma strstr_first needle l q p l' : no_nul l ->
  strstr needle (l ++ [0]) = Some (Some q) -> drop p l = needle ++ l' -> (q <= p)%nat.
Proof.
  intros Hl. revert q p. induction Hl as [|b l Hb _ IH]; intros q p.
  - cbn [app strstr]. destruct (starts needle [0]) as [[|]|]; [|done..]. intros [= <-] _. lia.
  - cbn [app strstr]. destruct (starts needle (b :: l ++ [0])) as [[|]|] eqn:E; [intros [= <-] _; lia| |done].
    destruct (Z.eqb_spec b 0); [done|]. destruct (strstr needle (l ++ [0])) as [[r|]|]; [|done..].
    intros [= <-] Hp. destruct p as [|p].
    + cbn in Hp. change (b :: l ++ [0]) with ((b :: l) ++ [0]) in E. rewrite Hp, <- app_assoc, starts_here in E. done.
    + specialize (IH r p eq_refl Hp). lia.
Qed.

(** A proper prefix of a text that ends with its only needle has none. *)
Lemma strstr_prefix needle l k t : no_nul needle -> no_nul l ->
  strstr needle (l ++ [0]) = Some (Some (length l - length needle)%nat) -> (0 < length needle)%nat ->
  (k < length l)%nat -> strstr needle (take k l ++ 0 :: t) = Some None.
Proof.
  intros Hn Hl Hend Hpos Hk. destruct (strstr_app needle (take k l) t Hn) as (m & E & Hm). rewrite E.
  destruct m as [p|]; [exfalso|done]. destruct (Hm p eq_refl) as [l' Hp].
  assert (drop p l = needle ++ l' ++ drop k l) as Hd.
  { assert (p <= k)%nat as Hpk.
    { destruct (decide (p <= k)%nat); [done|]. rewrite drop_ge in Hp by (rewrite length_take; lia).
      destruct needle; [cbn in Hpos; lia|done]. }
    rewrite <- (take_drop k l) at 1. rewrite drop_app_le by (rewrite length_take; lia). by rewrite Hp, <- app_assoc. }
  pose proof (strstr_first needle l _ p _ Hl Hend Hd) as Hle. apply (f_equal length) in Hp.
  rewrite length_drop, length_take, length_app in Hp. lia.
Qed.

(** ** Requests in pieces *)

(** [req] has been received into the zeroed buffer. *)
Definition received (req : bytes) (c : HTTPClient) : Prop :=
  hc_buf c = req ++ replicate (BUF_SIZE - length req) 0 /\ hc_total c = length req.

Lemma received_new : received [] new_HTTPClient.
Proof. by split. Qed.

Lemma take_replicate_drop n k : (n <= k)%nat -> drop n (replicate k 0) = replicate (k - n) 0.
Proof. intros. by rewrite drop_replicate. Qed.

(** The memory after a read. *)
Lemma received_read req data c :
  received req c -> (length req + length data <= BUF_SIZE)%nat ->
  take (hc_total c) (hc_buf c) ++ data ++ drop (hc_total c + length data) (hc_buf c) =
  (req ++ data) ++ replicate (BUF_SIZE - length (req ++ data)) 0.
Proof.
  intros [-> ->] Hlen. rewrite take_app_length. rewrite <- app_assoc. do 2 f_equal.
  rewrite drop_app, drop_ge by lia. cbn [app]. rewrite drop_replicate, length_app. f_equal. lia.
Qed.

(** The rest of the buffer is a null byte and more. *)
Lemma rest_of_buffer n : (n < BUF_SIZE)%nat -> replicate (BUF_SIZE - n) 0 = 0 :: replicate (BUF_SIZE - S n) 0.
Proof. intros Hn. replace (BUF_SIZE - n)%nat with (S (BUF_SIZE - S n)) by lia. done. Qed.

Lemma crlf2_no_nul : no_nul (crlf ++ crlf).
Proof. repeat constructor; done. Qed.

Section requests.
Context (dump : Report -> bytes).

(** The connection while pieces of a request arrive, each no larger than asked for. *)
Fixpoint serve (pieces : list bytes) (c : HTTPClient) (r : HttpReaction) : option (HTTPClient * HttpReaction * list Command) :=
  match pieces with
  | [] => Some (c, r, [])
  | d :: pieces =>
    match r with
    | HR_read _ size =>
      if Nat.leb (length d) size then
        '(c, r, cmds) ← http_handleRead dump d true c; '(c, r, more) ← serve pieces c r; Some (c, r, cmds ++ more)
      else None
    | _ => None
    end
  end.

(** A piece that does not complete the header. *)
Lemma read_incomplete req data c :
  received req c -> (length (req ++ data) < BUF_SIZE)%nat -> strstr (crlf ++ crlf) ((req ++ data) ++ [0]) = Some None ->
  exists c', http_handleRead dump data true c =
      Some (c', HR_read (length (req ++ data)) (BUF_SIZE - length (req ++ data)), []) /\ received (req ++ data) c'.
Proof.
  intros Hr Hlen Hs. pose proof Hr as [_ Ht]. assert (length req + length data <= BUF_SIZE)%nat as Hle by (rewrite length_app in Hlen; lia).
  unfold http_handleRead. rewrite (received_read req data c Hr Hle). cbv zeta.
  rewrite (rest_of_buffer _ Hlen), (strstr_tail _ _ _ crlf2_no_nul), Hs. cbn.
  rewrite Ht, <- length_app. rewrite (proj2 (Nat.leb_le _ 511)) by (unfold BUF_SIZE in Hlen; lia).
  eexists. split; [reflexivity|]. split; [by rewrite (rest_of_buffer _ Hlen)|done].
Qed.

(** The request line of a request that is there. *)
Lemma request_line uri rest t :
  uri <> [] -> Forall (fun b => b <> 32 /\ b <> CR /\ b <> chr "n" /\ b <> 0) uri -> CR ∈ rest ->
  exists buf, parseRequestLine (bytes_of_string "GET " ++ uri ++ 32 :: rest ++ t) = Some (Some 4%nat, buf) /\
    c_string (drop 4 buf) = Some uri.
Proof.
  intros Hne Huri Hcr. set (p := fun b => (b =? CR) || (b =? chr "n")).
  set (stop := fun b => (b =? 32) || (b =? 0)).
  assert (Forall (fun b => p b = false) (bytes_of_string "GET " ++ uri ++ [32])) as Hp.
  { apply Forall_app. split; [repeat constructor|]. apply Forall_app. split; [|by repeat constructor].
    eapply Forall_impl; [exact Huri|]. intros b (_ & Hb1 & Hb2 & _). unfold p. destruct (Z.eqb_spec b CR); [done|].
    by destruct (Z.eqb_spec b (chr "n")). }
  assert (Forall (fun b => stop b = false) uri) as Hstop.
  { eapply Forall_impl; [exact Huri|]. intros b (Hb1 & _ & _ & Hb2). unfold stop. destruct (Z.eqb_spec b 32); [done|].
    by destruct (Z.eqb_spec b 0). }
  destruct (run_to_elem p (rest ++ t) CR) as [i Hi]; [by apply elem_of_app; left|done|].
  set (mem := bytes_of_string "GET " ++ uri ++ 32 :: rest ++ t).
  set (hd := bytes_of_string "GET " ++ uri ++ [32]) in *.
  assert (mem = hd ++ rest ++ t) as Em by (unfold mem, hd; by rewrite <- !app_assoc).
  assert (run_to p mem = Some (length hd + i)%nat) as Hrun.
  { rewrite Em, run_to_app by done. by rewrite Hi. }
  set (buf := <[(length hd + i)%nat := 0]> mem).
  assert (buf = bytes_of_string "GET " ++ uri ++ 32 :: <[i := 0]> (rest ++ t)) as Eb.
  { unfold buf. rewrite Em, insert_app_r. unfold hd. by rewrite <- !app_assoc. }
  assert (Nat.ltb 4 (strnlen mem (BUF_SIZE - 1)) = true) as Hlong.
  { apply Nat.ltb_lt. destruct uri as [|u uri]; [done|]. apply Forall_cons in Huri as [(_ & _ & _ & Hu) _].
    unfold strnlen. change (take (BUF_SIZE - 1) mem) with (71 :: 69 :: 84 :: 32 :: u :: take 506 (uri ++ 32 :: rest ++ t)).
    cbn [cstr Z.eqb]. destruct (Z.eqb_spec u 0); [done|]. cbn. lia. }
  unfold parseRequestLine. fold p stop. rewrite Hlong, Hrun. cbn [mbind option_bind]. fold buf. rewrite Eb.
  change (run_to stop (bytes_of_string "GET " ++ uri ++ 32 :: <[i := 0]> (rest ++ t))) with (Some 3%nat).
  change (drop 4 (bytes_of_string "GET " ++ uri ++ 32 :: <[i := 0]> (rest ++ t))) with (uri ++ 32 :: <[i := 0]> (rest ++ t)).
  cbn [mbind option_bind]. 
  change (default 0 ((bytes_of_string "GET " ++ uri ++ 32 :: <[i := 0]> (rest ++ t)) !! 3%nat) =? 32) with true.
  cbv iota. change (drop 4 (bytes_of_string "GET " ++ uri ++ 32 :: <[i := 0]> (rest ++ t))) with (uri ++ 32 :: <[i := 0]> (rest ++ t)).
  rewrite run_to_app by done. change (run_to stop (32 :: <[i := 0]> (rest ++ t))) with (Some O).
  cbn [fmap option_fmap option_map]. eexists. split; [reflexivity|].
  change (4 + (length uri + 0))%nat with (length (bytes_of_string "GET ") + (length uri + 0))%nat.
  rewrite insert_app_r, insert_app_r. cbn [insert list_insert]. change (drop 4 (bytes_of_string "GET " ++ uri ++ 0 :: <[i:=0]> (rest ++ t))) with (uri ++ 0 :: <[i:=0]> (rest ++ t)).
  apply c_string_app. eapply Forall_impl; [exact Huri|]. intros b Hb. apply Hb.
Qed.

Lemma http_eval_get c uri u buf :
  is_post (hc_buf c) = false -> parseRequestLine (hc_buf c) = Some (Some u, buf) ->
  c_string (drop u buf) = Some uri -> uri <> [] ->
  exists c', let body := match report_of uri with Some r => dump r | None => [] end in
    http_eval dump c = Some (c', HR_write (http_header (Z.of_nat (length body))), []) /\
    hc_mState c' = Some HS_SENDHEADER /\ hc_mBody c' = body.
Proof.
  intros Hp El Es Hne. unfold http_eval, eval_body. rewrite Hp, El. cbn [mbind option_bind]. rewrite Es.
  cbn [mbind option_bind]. rewrite bool_decide_false by done. cbn [mbind option_bind].
  eexists. cbv zeta. split; [reflexivity|]. by split.
Qed.

(** The piece that completes the header of a [GET]. *)
Lemma read_complete req data c uri rest q :
  received req c -> (length (req ++ data) < BUF_SIZE)%nat ->
  strstr (crlf ++ crlf) ((req ++ data) ++ [0]) = Some (Some q) ->
  req ++ data = bytes_of_string "GET " ++ uri ++ 32 :: rest -> CR ∈ rest ->
  uri <> [] -> Forall (fun b => b <> 32 /\ b <> CR /\ b <> chr "n" /\ b <> 0) uri ->
  exists c', let body := match report_of uri with Some r => dump r | None => [] end in
    http_handleRead dump data true c = Some (c', HR_write (http_header (Z.of_nat (length body))), []) /\
    hc_mState c' = Some HS_SENDHEADER /\ hc_mBody c' = body.
Proof.
  intros Hr Hlen Hs Hreq Hcr Hne Huri. pose proof Hr as [_ Ht].
  assert (length req + length data <= BUF_SIZE)%nat as Hle by (rewrite length_app in Hlen; lia).
  unfold http_handleRead. rewrite (received_read req data c Hr Hle). cbv zeta.
  rewrite (rest_of_buffer _ Hlen), (strstr_tail _ _ _ crlf2_no_nul), Hs. cbn [mbind option_bind].
  set (mem := (req ++ data) ++ 0 :: replicate (BUF_SIZE - S (length (req ++ data))) 0).
  assert (mem = bytes_of_string "GET " ++ uri ++ 32 :: rest ++ (0 :: replicate (BUF_SIZE - S (length (req ++ data))) 0)) as Em.
  { unfold mem. rewrite Hreq at 1. by rewrite <- !app_assoc. }
  assert (is_post mem = false) as Hp by (rewrite Em; reflexivity). rewrite Hp.
  destruct (request_line uri rest (0 :: replicate (BUF_SIZE - S (length (req ++ data))) 0) Hne Huri Hcr) as (buf & El & Es). rewrite <- Em in El.
  apply (http_eval_get _ uri 4 buf); done.
Qed.

(** A [GET] request of less than 512 bytes, in whatever pieces it arrives, is answered once it
    is complete and not before: with a header that announces the length of the report its URI
    names, then with that report, and then the connection is closed.  The URI must not contain
    the letter n, at which the server takes the first line to end. *)
Lemma get_answered pieces uri rest :
  let req := bytes_of_string "GET " ++ uri ++ 32 :: rest in
  let body := match report_of uri with Some r => dump r | None => [] end in
  uri <> [] -> Forall (fun b => b <> 32 /\ b <> CR /\ b <> chr "n" /\ b <> 0) uri -> no_nul rest -> CR ∈ rest ->
  (length req < BUF_SIZE)%nat -> strstr (crlf ++ crlf) (req ++ [0]) = Some (Some (length req - 4)%nat) ->
  concat pieces = req -> Forall (fun p => p <> []) pieces ->
  exists c c', serve pieces new_HTTPClient (http_start new_HTTPClient) =
      Some (c, HR_write (http_header (Z.of_nat (length body))), []) /\
    http_handleWrite true c = (c', HR_write body) /\ http_handleWrite true c' = (c', HR_delete).
Proof.
  intros req body Hne Huri Hrest Hcr Hlen Hend Hpieces Hnonempty.
  assert (no_nul req) as Hreq.
  { apply Forall_app. split; [repeat constructor; done|]. apply Forall_app. split; [|by constructor].
    eapply Forall_impl; [exact Huri|]. intros b Hb. apply Hb. }
  enough (forall done c, received done c -> done ++ concat pieces = req -> pieces <> [] ->
    exists c', serve pieces c (HR_read (length done) (BUF_SIZE - length done)) =
      Some (c', HR_write (http_header (Z.of_nat (length body))), []) /\
      hc_mState c' = Some HS_SENDHEADER /\ hc_mBody c' = body) as Hserve.
  { destruct (Hserve [] new_HTTPClient received_new Hpieces) as (c & E & Hst & Hb); [by intros ->; cbn in Hpieces|].
    exists c, (c <| hc_mState := Some HS_SENDBODY |>). split; [exact E|]. unfold http_handleWrite. rewrite Hst.
    split; [|done]. unfold http_arm. cbn. by rewrite Hb. }
  clear Hpieces. induction Hnonempty as [|d pieces Hd Hrec IH]; [done|]. intros prior c Hc Hp _. cbn [concat] in Hp.
  assert (length prior + length d + length (concat pieces) = length req)%nat as Hl.
  { rewrite <- Hp, !length_app. lia. }
  cbn [serve]. rewrite (proj2 (Nat.leb_le _ _)) by lia. destruct pieces as [|d' pieces].
  - cbn in Hp, Hl. rewrite app_nil_r in Hp.
    destruct (read_complete prior d c uri rest (length req - 4) Hc) as (c' & E & Hst & Hb); try done; try (by rewrite Hp).
    rewrite E. cbn. by exists c'.
  - assert (prior ++ d = take (length (prior ++ d)) req) as Ed.
    { rewrite <- Hp, app_assoc, take_app_length. done. }
    assert (length (prior ++ d) < length req)%nat as Hlt.
    { apply Forall_cons in Hrec as [Hd' _]. rewrite length_app. cbn [concat] in Hl. rewrite length_app in Hl.
      destruct d'; [done|]. rewrite <- Hl. cbn [length]. lia. }
    destruct (read_incomplete prior d c Hc) as (c1 & E & Hc1); [exact (Nat.lt_trans _ _ _ Hlt Hlen)| |].
    { rewrite Ed. apply strstr_prefix; [apply crlf2_no_nul|done|exact Hend|cbn; lia|done]. }
    rewrite E. cbn [mbind option_bind].
    destruct (IH (prior ++ d) c1 Hc1) as (c' & E' & Hst & Hb); [by rewrite <- app_assoc|done|].
    rewrite E'. cbn. by exists c'.
Qed.

(** ** Bounds *)

(** The word behind [disconnect=] does not fit into [option]. *)
Definition overlong (tok : bytes) : Prop :=
  (OPTION_SIZE <= length (take_while (fun b => negb (isspace b))
    (skip_while isspace (default [] (after_literal "disconnect=" tok)))))%nat.

Lemma setup_None tok : setup tok = None -> overlong tok.
Proof.
  unfold setup, overlong. destruct (_ ≫= scan_int); [done|]. destruct (_ ≫= scan_int); [done|].
  destruct (after_literal "shutdown" tok); [done|]. destruct (take_while _ _) as [|b l]; [done|].
  destruct (Nat.ltb_spec (length (b :: l)) OPTION_SIZE); [by destruct (_ =? _)|done].
Qed.

(** Such a token is no other command. *)
Lemma setup_overlong tok : overlong tok -> setup tok = None.
Proof.
  unfold overlong. destruct (after_literal "disconnect=" tok) as [w|] eqn:E; [|cbn; unfold OPTION_SIZE; lia].
  assert (exists w', tok = bytes_of_string "disconnect=" ++ w') as (w' & ->).
  { unfold after_literal in E. case_bool_decide as Ht; [|done]. eexists.
    rewrite <- (take_drop (length (bytes_of_string "disconnect=")) tok) at 1. by rewrite Ht. }
  intros Hlong. unfold setup. rewrite E. change (after_literal "verbose=" _) with (@None bytes).
  change (after_literal "console=" _) with (@None bytes). change (after_literal "shutdown" _) with (@None bytes).
  cbn [mbind option_bind default] in Hlong |- *. unfold OPTION_SIZE in *. destruct (take_while _ _) as [|b l]; [cbn in Hlong; lia|].
  by rewrite (proj2 (Nat.ltb_ge _ _) Hlong).
Qed.

Lemma setup_all_None toks : setup_all toks = None <-> Exists overlong toks.
Proof.
  induction toks as [|tok toks IH]; cbn [setup_all]; [by rewrite Exists_nil|]. rewrite Exists_cons, <- IH.
  destruct (setup tok) as [[b cmds]|] eqn:E; cbn [mbind option_bind].
  - destruct (setup_all toks); [|naive_solver]. split; [done|]. intros [Hl%setup_overlong|?]; congruence.
  - split; [|done]. intros _. left. by apply setup_None.
Qed.

Lemma c_string_cstr l t : c_string (l ++ 0 :: t) = Some (cstr l).
Proof. induction l as [|b l IH]; cbn; [done|]. destruct (b =? 0); [done|]. by rewrite IH. Qed.

(** The commands in a complete POST request: the text behind the first empty line, to its first
    null byte and without white space in front, cut at the ampersands. *)
Definition commands (req : bytes) : list bytes :=
  match strstr (crlf ++ crlf) (req ++ [0]) with
  | Some (Some p) => tokens "&" (skip_while isspace (cstr (drop (p + 2) req)))
  | _ => []
  end.

Lemma drop_nul k (l t : bytes) : (k <= length l)%nat -> 0 ∈ drop k (l ++ 0 :: t).
Proof. intros Hk. rewrite drop_app_le by done. apply elem_of_app. right. by left. Qed.

(** The request line is taken apart inside the memory when there is a carriage return. *)
Lemma parseRequestLine_inside l t : CR ∈ l ->
  exists uri buf, parseRequestLine (l ++ 0 :: t) = Some (uri, buf) /\
    match uri with Some u => exists s, c_string (drop u buf) = Some s | None => True end.
Proof.
  intros Hcr. unfold parseRequestLine. destruct (Nat.ltb _ _); [|by exists None, (l ++ 0 :: t)].
  destruct (run_to_elem (fun b => (b =? CR) || (b =? chr "n")) (l ++ 0 :: t) CR) as [i Hi]; [by apply elem_of_app; left|done|].
  rewrite Hi. cbn [mbind option_bind]. destruct (run_to_Some _ _ _ Hi) as (b & Hb & _). apply lookup_lt_Some in Hb.
  set (stop := fun b => (b =? 32) || (b =? 0)). set (buf := <[i:=0]> (l ++ 0 :: t)).
  assert (buf !! i = Some 0) as H0 by (unfold buf; by rewrite list_lookup_insert_eq).
  destruct (run_to_elem stop buf 0) as [j Hj]; [by eapply list_elem_of_lookup_2|done|]. rewrite Hj. cbn [mbind option_bind].
  set (uri := if default 0 (buf !! j) =? 32 then S j else j).
  assert (uri <= i)%nat as Hu.
  { pose proof (run_to_first _ _ _ _ _ Hj H0 eq_refl) as Hle. unfold uri. destruct (Z.eqb_spec (default 0 (buf !! j)) 32) as [E|]; [|done].
    assert (j <> i) by (intros ->; rewrite H0 in E; discriminate). lia. }
  assert (drop uri buf !! (i - uri)%nat = Some 0) as Hd by (rewrite lookup_drop; replace (uri + (i - uri))%nat with i by lia; done).
  destruct (run_to_elem stop (drop uri buf) 0) as [k Hk]; [by eapply list_elem_of_lookup_2|done|]. rewrite Hk. cbn [mbind option_bind].
  pose proof (run_to_first _ _ _ _ _ Hk Hd eq_refl) as Hle.
  exists (Some uri), (<[(uri + k)%nat:=0]> buf). split; [done|]. apply c_string_elem.
  apply (list_elem_of_lookup_2 _ k). rewrite lookup_drop, list_lookup_insert_eq; [done|]. unfold buf. rewrite length_insert. lia.
Qed.

Lemma parseContentLength_inside l t : exists n, parseContentLength (l ++ 0 :: 0 :: t) = Some n.
Proof.
  unfold parseContentLength.
  destruct (strstr_app (bytes_of_string "content-length") l (0 :: t)) as (m & E & Hm); [by repeat constructor|].
  rewrite E. cbn [mbind option_bind]. destruct m as [p|]; [|by exists (-1)]. destruct (Hm p eq_refl) as [l' Hp].
  destruct (c_string_elem (drop (p + 15) (l ++ 0 :: 0 :: t))) as [s ->]; [|by eexists].
  replace (l ++ 0 :: 0 :: t) with ((l ++ [0]) ++ 0 :: t) by (by rewrite <- app_assoc).
  apply drop_nul. rewrite length_app. apply (f_equal length) in Hp. rewrite length_drop, length_app in Hp. cbn in Hp |- *. lia.
Qed.

(** Evaluating a request whose header has been found executes the commands of a POST request,
    unless one of them is overlong; nothing else goes wrong. *)
Lemma http_eval_inside l t p c :
  hc_buf c = l ++ 0 :: t -> CR ∈ l -> (hc_total c < BUF_SIZE)%nat ->
  strstr (crlf ++ crlf) (l ++ [0]) = Some (Some p) -> hc_body_begin c = Some (p + 2)%nat -> (p + 2 <= length l)%nat ->
  match http_eval dump c with
  | Some (_, HR_write _, cmds) => if is_post l then setup_all (commands l) = Some cmds else cmds = []
  | Some _ => False
  | None => is_post l = true /\ Exists overlong (commands l)
  end.
Proof.
  intros Hb Hcr Ht Hp Hbody Hle. unfold http_eval, eval_body. rewrite Hb, Hbody.
  assert (is_post (l ++ 0 :: t) = is_post l) as -> by (by destruct l). destruct (is_post l).
  - rewrite (proj2 (Nat.ltb_lt _ _) Ht), drop_app_le, c_string_cstr by done. cbn [mbind option_bind].
    unfold commands. rewrite Hp. destruct (setup_all _) as [cmds|] eqn:E; cbn [mbind option_bind]; [done|].
    split; [done|]. by apply setup_all_None.
  - destruct (parseRequestLine_inside l t Hcr) as (uri & buf & -> & Huri). cbn [mbind option_bind].
    destruct uri as [u|]; [|done]. destruct Huri as [s ->]. cbn [mbind option_bind]. by destruct (bool_decide _).
Qed.


End requests.

(** ** Concrete requests *)

Definition demo_dump (r : Report) : bytes := match r with RP_servers => bytes_of_string "Media" | _ => [] end.

Definition demo_post (command : string) : bytes :=
  bytes_of_string "POST / HTTP/1.1" ++ crlf ++ crlf ++ bytes_of_string command.

(** A request in two pieces, the second read only. *)
Definition demo_received : HTTPClient :=
  match http_handleRead demo_dump (bytes_of_string "POST / HT") true new_HTTPClient with
  | Some (c, _, _) => c
  | None => new_HTTPClient
  end.
Definition demo_rest : bytes := bytes_of_string "TP/1.1" ++ crlf ++ crlf ++ bytes_of_string "verbose=3&shutdown".


(** [GET /s], in two pieces. *)
Lemma get_answered_example :
  match serve demo_dump [bytes_of_string "GET /s HT"; bytes_of_string "TP/1.1" ++ crlf ++ crlf] new_HTTPClient
          (http_start new_HTTPClient) with
  | Some (c, r, cmds) => r = HR_write (http_header 5) /\ snd (http_handleWrite true c) = HR_write (bytes_of_string "Media")
  | None => False
  end.
Proof. vm_compute. split; reflexivity. Qed.

(** ** What requests can do *)

(** A word of 32 characters overruns the array in [setup]. *)
Lemma option_overrun :
  http_handleRead demo_dump (demo_post "disconnect=mmmmmmmmmmmmmmmmmmmmmmmmmmmmmmmm") true new_HTTPClient = None.
Proof. vm_compute. reflexivity. Qed.

(** A request that fills the buffer leaves no null byte behind it: the search for the end of the
    header runs on. *)
Lemma full_buffer_overread : http_handleRead demo_dump (replicate 512 (chr "x")) true new_HTTPClient = None.
Proof. vm_compute. reflexivity. Qed.

(** The field is searched for in the text as it came, not in the lower-case copy. *)
Lemma content_length_case :
  parseContentLength (bytes_of_string "content-length: 5" ++ [0]) = Some 5 /\
  parseContentLength (bytes_of_string "Content-Length: 5" ++ [0]) = Some (-1).
Proof. split; vm_compute; reflexivity. Qed.

(** The value is looked for behind a colon that need not be there. *)
Lemma content_length_overread : parseContentLength (bytes_of_string "content-length" ++ [0]) = None.
Proof. vm_compute. reflexivity. Qed.

(** The first line ends at the letter n. *)
Lemma uri_cut_at_n :
  match parseRequestLine (bytes_of_string "GET /sn HTTP/1.1" ++ crlf ++ [0]) with
  | Some (Some u, buf) => c_string (drop u buf) = Some (bytes_of_string "/s")
  | _ => False
  end.
Proof. vm_compute. reflexivity. Qed.
