(* ===== verification/Waiting.v ===== *)
(** Every client that waits for the master waits for one job.

    [waiting s] are the clients of the queued jobs, in order.  Over all reachable states the
    jobs of a connection that still exists are as many as its protocol state says: one when
    it is deferred, none otherwise.  An extended attach to a service whose pool is being
    pre-cached is deferred without a job; with such requests there is at most one job, and
    only of a deferred connection.  It follows that a deferred client is answered as soon as
    the jobs up to its own have come back. *)

From S2P Require Import Prelude.
From S2P Require Import Layout.
From S2P Require Import Types.
From S2P Require Import ServerList.
From S2P Require Import ConfigFile.
From S2P Require Import ClientData.
From S2P Require Import JobQueue.
From S2P Require Import Environment.
From S2P Require Import PulseChannelManager.
From S2P Require Import NotificationPool.
From S2P Require Import MessageContext.
From S2P Require Import State.
From S2P Require Import Notifications.
From S2P Require Import Registration.
From S2P Require Import Notify.
From S2P Require Import Attach.
From S2P Require Import Jobs.
From S2P Require Import Dispatch.
From S2P Require Import System.
From S2P Require Import Frames.
From S2P Require Import Protocol.
From S2P Require Import Answers.
From S2P Require Import JobOrder.

(** The clients that wait for the jobs. *)
Definition ctxs (q : list Job) : list Z := omap job_ctx q.
Definition waiting (s : SB) : list Z := ctxs (sb_mQueue s).

Lemma ctxs_app q q' : ctxs (q ++ q') = ctxs q ++ ctxs q'.
Proof. apply omap_app. Qed.

(** ** A request defers once *)

(** Nothing is deferred and the jobs somebody waits for are those of [w]. *)
Definition silent (w : list Z) (n : Z) (q : list Job) (m : option bool) (r : MsgState) (k : Z) : Prop :=
  ctxs q = w /\ r <> State_DEFERRED /\ k = n.

#[export] Instance silent_growing w n : Growing (silent w n).
Proof.
  apply (Build_Growing _ False); unfold silent; [|tauto..]. intros j q m r k [Hj|[]] (Hq & Hr & Hk).
  split; [|done]. rewrite ctxs_app, Hq. cbn. by rewrite Hj, app_nil_r.
Defined.

(** The same between two requests. *)
Definition calm (w : list Z) (n : Z) (q : list Job) (m : option bool) (r : MsgState) (k : Z) : Prop :=
  ctxs q = w /\ k = n.

#[export] Instance calm_growing w n : Growing (calm w n).
Proof.
  apply (Build_Growing _ False); unfold calm; [|tauto..]. intros j q m r k [Hj|[]] (Hq & Hk).
  split; [|done]. rewrite ctxs_app, Hq. cbn. by rewrite Hj, app_nil_r.
Defined.

#[export] Hint Resolve silent_growing calm_growing : preserve.

(** The request of [c] has been dealt with: when it is deferred, a job for [c] has been queued. *)
Definition dealt_on (exact : bool) (c : Z) (w : list Z) (n : Z) (w' : list Z) (r : MsgState) (k : Z) : Prop :=
  k = n /\
  (r <> State_DEFERRED /\ w' = w \/
   r = State_DEFERRED /\ (w' = w ++ [c] \/ exact = false /\ w' = w)).
Definition dealt (exact : bool) (c : Z) (w : list Z) (n : Z) (s : SB) : Prop :=
  dealt_on exact c w n (waiting s) (responseState s) (sb_nextId s).

(** An extended attach may be deferred without a job. *)
Definition foreseen (exact : bool) (r : Request) : Prop :=
  exact = true -> match r with RQ_AttachExtended _ _ => False | _ => True end.

Section requests.
Context `{Env} (exact : bool) (c : Z) (w : list Z) (n : Z).
Notation Silent := (tracked (silent w n)).
Notation Dealt := (dealt exact c w n).

Lemma silent_dealt s : Silent s -> Dealt s.
Proof. intros (Hq & Hr & Hk). split; [done|]. by left. Qed.

Lemma triple_silent {A} (m : M A) : preserves Silent m -> triple Silent m (fun _ => Dealt).
Proof. intros Hm s Hs. apply silent_dealt, Hm, Hs. Qed.

(** Behind the answer. *)
Lemma dealt_upd_data c' f : preserves Dealt (upd_data c' f).
Proof. unfold upd_data. preserve; apply preserves_modify; intros ? Hd; exact Hd. Qed.

(** A job for the client and the deferral, then operations that concern neither. *)
Lemma dealt_defer {A} j (k : M A) :
  job_ctx j = Some c -> preserves Dealt k ->
  triple Silent (master_eval j;; deferResponse;; k) (fun _ => Dealt).
Proof.
  intros Hj Hk s Hs. rewrite !exec_bind. apply Hk. unfold master_eval. rewrite exec_getS, exec_bind.
  assert (Silent (exec (assertM F_master (negb (isMaster s))) s)) as (Hq & _ & Hn) by (revert Hs; apply run_preserves; grow).
  rewrite exec_modify. unfold deferResponse. rewrite exec_modify. split; [done|]. right. split; [done|]. left.
  unfold waiting. cbn. by rewrite ctxs_app, Hq; cbn; rewrite Hj.
Qed.

Lemma dealt_defer_last j :
  job_ctx j = Some c -> triple Silent (master_eval j;; deferResponse) (fun _ => Dealt).
Proof.
  intros Hj s Hs. pose proof (dealt_defer j (skip (S := SB)) Hj ltac:(preserve) s Hs) as Hd.
  rewrite !exec_bind in *. exact Hd.
Qed.

End requests.

(** Walk through a handler to the deferral. *)
Ltac dealt_step :=
  cbv zeta beta;
  lazymatch goal with
  | |- triple _ (mbind _ getS) _ => apply triple_read; intros ? ?
  | |- triple _ (mbind _ (master_eval _)) _ =>
    first [by apply dealt_defer_last | apply dealt_defer; [done|apply dealt_upd_data]]
  | |- triple ?P (mbind _ _) _ => eapply (triple_bind _ _ _ (fun _ => P)); [apply (triple_preserves P); solve [grows]|intros ?]
  | |- triple _ (match ?x with _ => _ end) _ => destruct x eqn:?
  | |- triple _ _ _ => apply triple_silent; solve [grows]
  end.
Ltac deals := repeat dealt_step.

Section handlers.
Context `{Env} (exact : bool) (c : Z) (w : list Z) (n : Z).
Notation Silent := (tracked (silent w n)).
Notation Dealt := (dealt exact c w n).

Lemma dealt_handleAttachInterface d : triple Silent (handleAttachInterface c d) (fun _ => Dealt).
Proof. unfold handleAttachInterface. deals. Qed.

Lemma dealt_handleGetServerInformation d : triple Silent (handleGetServerInformation c d) (fun _ => Dealt).
Proof. unfold handleGetServerInformation. deals. Qed.

Lemma dealt_handleDetachInterface id : triple Silent (handleDetachInterface c id) (fun _ => Dealt).
Proof. unfold handleDetachInterface. deals. Qed.

Lemma dealt_handleGetInterfaceList k : triple Silent (handleGetInterfaceList c k) (fun _ => Dealt).
Proof. unfold handleGetInterfaceList. deals. Qed.

Lemma dealt_handleMatchInterfaceList k re : triple Silent (handleMatchInterfaceList c k re) (fun _ => Dealt).
Proof. unfold handleMatchInterfaceList. deals. Qed.

(** The extended attach is deferred before its job is queued, or without one. *)
Definition parked (s : SB) : Prop :=
  waiting s = w /\ responseState s = State_DEFERRED /\ sb_nextId s = n.

Lemma parked_dealt s : exact = false -> parked s -> Dealt s.
Proof. intros He (Hw & Hr & Hn). split; [done|]. right. split; [done|]. by right. Qed.

Lemma parked_master_eval j : job_ctx j = None -> preserves parked (master_eval j).
Proof.
  intros Hj. unfold master_eval, assertM, fault. preserve; try (apply preserves_modify; intros ? Hp; exact Hp).
  apply preserves_modify. intros s' (Hw & Hr & Hn). split; [|done]. unfold waiting in *. cbn.
  by rewrite ctxs_app, Hw; cbn; rewrite Hj, app_nil_r.
Qed.

Lemma parked_job j : job_ctx j = Some c -> triple parked (master_eval j) (fun _ => Dealt).
Proof.
  intros Hj s Hs. unfold master_eval. rewrite exec_getS, exec_bind.
  assert (parked (exec (assertM F_master (negb (isMaster s))) s)) as (Hw & Hr & Hn).
  { revert Hs. apply run_preserves. unfold assertM, fault. preserve. apply preserves_modify. intros ? Hp. exact Hp. }
  rewrite exec_modify. split; [done|]. right. split; [done|]. left. unfold waiting in *. cbn.
  by rewrite ctxs_app, Hw; cbn; rewrite Hj.
Qed.

Lemma parked_defer : triple Silent deferResponse (fun _ => parked).
Proof. intros s (Hw & _ & Hn). done. Qed.

Lemma parked_pool_update pos f : preserves parked (pool_update pos f).
Proof. unfold pool_update, fault. preserve; apply preserves_modify; intros ? Hp; exact Hp. Qed.

Lemma parked_again : preserves parked deferResponse.
Proof. apply preserves_modify. intros s (Hw & _ & Hn). done. Qed.

#[local] Hint Resolve parked_pool_update parked_again : preserve.

(** What happens to the pool between the two. *)
Lemma parked_pool pos (st : EPoolState) :
  preserves parked (match st with
    | STATE_CONNECTED => pool_update pos (fun e => default e (setState STATE_PRECACHING e))
    | STATE_PRECACHING => deferResponse
    | _ => skip
    end).
Proof. preserve. Qed.

(** Deferred or not, as long as nobody waits for the job. *)
Definition jobless (s : SB) : Prop := Silent s \/ parked s.

Lemma jobless_pool pos (st : EPoolState) :
  preserves jobless (match st with
    | STATE_CONNECTED => pool_update pos (fun e => default e (setState STATE_PRECACHING e))
    | STATE_PRECACHING => deferResponse
    | _ => skip
    end).
Proof.
  split. intros s [Hs|Hs]; [|right; by apply (parked_pool pos st)].
  destruct (decide (st = STATE_PRECACHING)) as [->|Hst]; [right; by apply parked_defer|].
  left. revert Hs. apply run_preserves. destruct st; try done; grows.
Qed.

Lemma jobless_master_eval j : job_ctx j = None -> preserves jobless (master_eval j).
Proof.
  intros Hj. split. intros s [Hs|Hs]; [left|right].
  - revert Hs. apply run_preserves, (grows_master_eval (silent w n)). by left.
  - by apply parked_master_eval.
Qed.

Lemma jobless_dealt s : exact = false -> jobless s -> Dealt s.
Proof. intros He [Hs|Hs]; [by apply silent_dealt|by apply parked_dealt]. Qed.

Lemma dealt_forwardAttachExtended_job p d found pos id :
  exact = false -> triple Silent (forwardAttachExtended_job c p d found pos id) (fun _ => Dealt).
Proof.
  intros He. unfold forwardAttachExtended_job. do 2 dealt_step. cbv zeta.
  destruct (ext_job_needed found a && negb (sb_mAsyncMode s)) eqn:E; cbn [whenM].
  - apply andb_true_iff in E as [-> Ea%negb_true_iff]. rewrite Ea. cbn [whenM].
    eapply triple_bind; [apply parked_defer|]. intros ?.
    eapply triple_bind; [apply triple_preserves, parked_pool|]. intros ?.
    eapply triple_bind; [by apply parked_job|]. by intros ? s' Hs'.
  - apply (triple_conseq _ jobless _ (fun _ => jobless)); [|by left|intros ? s0; by apply jobless_dealt].
    apply triple_preserves, preserves_bind; [apply preserves_skip|intros ?].
    apply preserves_bind; [apply jobless_pool|intros ?]. preserve.
    apply jobless_master_eval. destruct (ext_job_needed found a); [|done]. by destruct (sb_mAsyncMode s).
Qed.

Lemma dealt_forwardAttachExtendedToMaster p d :
  exact = false -> triple Silent (forwardAttachExtendedToMaster c p d) (fun _ => Dealt).
Proof.
  intros He. unfold forwardAttachExtendedToMaster. deals.
  eapply triple_bind; [by apply dealt_forwardAttachExtended_job|]. by intros ? s' Hs'.
Qed.

(** What answers a request unless it is deferred. *)
Lemma dealt_unless_deferred (b : SB -> bool) (m : M unit) :
  (forall s, responseState s = State_DEFERRED -> b s = true) -> preserves Silent m ->
  preserves Dealt (s ← getS; if b s then skip else m).
Proof.
  intros Hb Hm. apply preserves_read. intros s Hs. destruct (b s) eqn:E; [exact Hs|].
  apply silent_dealt, Hm. destruct Hs as [Hn [[Hr Hw]|[Hr _]]]; [done|]. by rewrite (Hb s Hr) in E.
Qed.

Lemma dealt_handleAttachInterfaceExtended p d :
  exact = false -> triple Silent (handleAttachInterfaceExtended c p d) (fun _ => Dealt).
Proof.
  intros He. unfold handleAttachInterfaceExtended. dealt_step.
  eapply (triple_bind _ _ _ (fun _ => Dealt)).
  - deals. eapply triple_bind; [by apply dealt_forwardAttachExtendedToMaster|]. by intros ? s' Hs'.
  - intros [[result connInfo] id]. apply triple_preserves.
    apply (dealt_unless_deferred (fun s => bool_decide (responseState s = State_DEFERRED))); [|grows].
    intros s' Hs'. by apply bool_decide_eq_true.
Qed.

(** Any request: an extended attach only if [exact] is not asked for. *)
Lemma dealt_run_handler r :
  foreseen exact r ->
  triple Silent (run_handler c r) (fun _ => Dealt).
Proof.
  intros He. destruct (may_defer r) eqn:Er; [|apply triple_silent, (grows_run_handler (silent w n)); by left].
  destruct r; try discriminate Er; cbn [run_handler].
  - apply dealt_handleAttachInterface.
  - apply dealt_handleAttachInterfaceExtended. destruct exact; [by destruct He|done].
  - apply dealt_handleGetServerInformation.
  - apply dealt_handleDetachInterface.
  - apply dealt_handleGetInterfaceList.
  - apply dealt_handleMatchInterfaceList.
Qed.

Lemma dealt_dispatch_command cmd f :
  foreseen exact (fr_request f) ->
  triple Silent (dispatch_command c cmd f) (fun _ => Dealt).
Proof.
  intros He. unfold dispatch_command, ensure_answered. do 4 try dealt_step.
  eapply (triple_bind _ _ _ (fun _ => Dealt)).
  - destruct (size_ok cmd a); cbn [whenM]; [by apply dealt_run_handler|]. apply triple_silent, preserves_skip.
  - intros ?. apply triple_preserves.
    apply (dealt_unless_deferred (fun s => bool_decide (responseState s = State_SENT) ||
      bool_decide (responseState s = State_DEFERRED))); [|grows].
    intros s' Hs'. by rewrite (bool_decide_eq_true_2 _ Hs'), orb_true_r.
Qed.

(** A request no handler is called for is answered. *)
Lemma dealt_dispatch f :
  foreseen exact (fr_request f) ->
  triple Silent (dispatch c f) (fun found s => Dealt s /\ (found = false \/ may_defer (fr_request f) = false -> Silent s)).
Proof.
  intros He. destruct (may_defer (fr_request f)) eqn:Em.
  2: { intros s Hs. assert (Silent (exec (dispatch c f) s)) as Hs'.
    { revert Hs. apply run_preserves, (grows_dispatch (silent w n)). by left. }
    split; [by apply silent_dealt|done]. }
  unfold dispatch. destruct (request_dcmd _) as [cmd|] eqn:Ec; [|by destruct (fr_request f)].
  pose proof (dealt_dispatch_command cmd f He) as Hc.
  assert (triple Silent (dispatch_command c cmd f;; mret true)
    (fun found s => Dealt s /\ (found = false \/ true = false -> Silent s))) as Hd.
  { eapply triple_bind; [exact Hc|]. intros ? s' Hs'. split; [exact Hs'|]. by intros [?|?]. }
  destruct cmd; try exact Hd. by destruct (fr_request f).
Qed.

End handlers.

(** ** The protocol states *)

Section states.
Context `{Env}.

(** The states afterwards are those before, apart from connections that satisfy [A]. *)
Definition leaves (A : Z -> ClientState -> Prop) (sts sts' : gmap Z ClientState) : Prop :=
  forall c st, sts' !! c = Some st -> sts !! c = Some st \/ A c st.

Lemma leaves_refl A sts : leaves A sts sts.
Proof. by left. Qed.

Lemma leaves_trans A sts sts' sts'' : leaves A sts sts' -> leaves A sts' sts'' -> leaves A sts sts''.
Proof. intros H1 H2 c st Hc. destruct (H2 c st Hc); [by apply H1|by right]. Qed.

Lemma leaves_delete A c sts : leaves A sts (delete c sts).
Proof. intros c' st [_ Hc]%lookup_delete_Some. by left. Qed.

Lemma leaves_mono (A B : Z -> ClientState -> Prop) sts sts' :
  (forall c st, A c st -> B c st) -> leaves A sts sts' -> leaves B sts sts'.
Proof. intros Hab Hl c st Hc. destruct (Hl c st Hc); [by left|right; by apply Hab]. Qed.

(** A connection that still exists gets a new state. *)
Lemma states_upd_state c st s :
  let s' := exec (upd_conn c (fun cn => cn <| cn_mState := st |>)) s in
  states s' = if decide (is_Some (states s !! c)) then <[c := st]> (states s) else states s.
Proof.
  cbv zeta. destruct (sb_conns s !! c) as [cn|] eqn:Hc.
  - rewrite decide_True by (rewrite states_lookup; unfold conn_state; rewrite Hc; by eexists).
    exact (states_upd_conn c (fun cn => cn <| cn_mState := st |>) s cn Hc).
  - rewrite decide_False by (rewrite states_lookup; unfold conn_state; rewrite Hc; by intros [? [=]]).
    unfold upd_conn. rewrite exec_getS, Hc. unfold fault. by rewrite exec_modify.
Qed.

Lemma leaves_upd_state c st s :
  leaves (fun c' st' => c' = c /\ st' = st) (states s)
    (states (exec (upd_conn c (fun cn => cn <| cn_mState := st |>)) s)).
Proof.
  rewrite states_upd_state. destruct (decide _); [|apply leaves_refl].
  intros c' st' [[<- <-]|[_ Hc]]%lookup_insert_Some; [by right|by left].
Qed.

Lemma leaves_close_client A c s : leaves A (states s) (states (exec (close_client c) s)).
Proof. rewrite (proj2 (dialogue_close_client c s)). apply leaves_delete. Qed.

Lemma leaves_close_clients A l : forall s, leaves A (states s) (states (exec (forM_ l close_client) s)).
Proof.
  induction l as [|c l IH]; intros s; cbn [forM_]; [apply leaves_refl|].
  rewrite exec_bind. eapply leaves_trans; [apply (leaves_close_client A c)|apply IH].
Qed.

Lemma leaves_removeClient A i s : leaves A (states s) (states (exec (removeClient i) s)).
Proof.
  unfold removeClient. rewrite exec_getS, exec_bind, exec_modify.
  match goal with |- context [exec (forM_ ?l _) ?s1] => exact (leaves_close_clients A l s1) end.
Qed.

(** The request of a new slave may close the slave's older connection. *)
Lemma leaves_eval_ping_id A c r s : leaves A (states s) (states (exec (eval_ping_id c r) s)).
Proof.
  destruct r; try apply leaves_refl. cbn [eval_ping_id]. rewrite exec_bind.
  assert (dialogue (exec (get_conn c) s) = dialogue s) as [_ Hd]%pair_equal_spec
    by (apply (run_keeps dialogue), keeps_dialogue_base; auto with preserve).
  unfold states in *. rewrite <- Hd. generalize (exec (get_conn c) s) (eval (get_conn c) s). clear. intros s cn.
  destruct (negb _); [|apply leaves_refl]. cbn [whenM]. rewrite exec_bind. unfold addSlaveClient.
  rewrite exec_modify. pose proof (leaves_removeClient A (cd_mExtendedID (cn_mData cn)) s) as Hl.
  revert Hl. generalize (exec (removeClient (cd_mExtendedID (cn_mData cn))) s). intros s' Hl. exact Hl.
Qed.

Lemma leaves_evaluateWriteResult c wr s :
  leaves (fun c' st => c' = c /\ st <> CS_DEFERRED) (states s) (states (exec (evaluateWriteResult c wr) s)).
Proof.
  destruct wr; cbn [evaluateWriteResult]; [..|apply leaves_close_client];
    eapply leaves_mono, leaves_upd_state; by intros ? ? [-> ->].
Qed.

Lemma keeps_base_unknown_servers : keeps base trigger_unknown_servers.
Proof. base_list. Qed.

#[local] Hint Resolve keeps_base_unknown_servers keeps_dialogue_registerInterfacesMaster : preserve.

(** Signals of the master concern no connection. *)
Lemma keeps_dialogue_signal code v : keeps dialogue (dispatch_pulse code v None).
Proof.
  unfold dispatch_pulse, handleMasterConnected, handleMasterDisconnected, handleMasterServerAvailable,
    handleMasterServerDisconnect, handleMasterClientDetach, handleMasterServerlistChange,
    handleMasterAttachExtended, handleMasterServerAvailable, handleMasterServerDisconnect. preserve.
Qed.

(** Reacting to a request changes at most the state of its connection. *)
Lemma leaves_eval_request c f wr s :
  leaves (fun c' _ => c' = c) (states s) (states (exec (eval_request c f wr) s)).
Proof.
  unfold eval_request. rewrite exec_bind, exec_modify. set (s1 := s <| sb_msg := _ |>).
  rewrite exec_bind. assert (dialogue (exec (dispatch c f) s1) = dialogue s1) as [_ Hd]%pair_equal_spec
    by apply (run_keeps dialogue), keeps_dialogue_dispatch.
  change (states s) with (states s1). unfold states in *. rewrite <- Hd.
  generalize (exec (dispatch c f) s1) (eval (dispatch c f) s1). clear. intros s found.
  rewrite exec_bind. eapply leaves_trans; [apply (leaves_eval_ping_id _ c (fr_request f))|].
  generalize (exec (eval_ping_id c (fr_request f)) s). clear s. intros s.
  rewrite exec_getS. destruct (_ && _).
  - eapply leaves_mono, leaves_upd_state. by intros ? ? [-> _].
  - rewrite exec_bind. unfold emit. rewrite exec_modify.
    eapply leaves_mono; [|exact (leaves_evaluateWriteResult c wr _)]. by intros ? ? [-> _].
Qed.

(** The connection an event is about, and which cannot be deferred then. *)
Definition actor (ev : Event) (s : SB) : option Z :=
  match ev with
  | Ev_connect _ _ => Some (sb_nextId s)
  | Ev_credentials c _ _ _ | Ev_request c _ _ | Ev_written c _ _ | Ev_hangup c => Some c
  | Ev_timeout _ | Ev_job _ _ _ | Ev_link _ | Ev_pulse _ _ => None
  end.

Lemma leaves_run ev s :
  (forall status ret arg, ev <> Ev_job status ret arg) -> enabled ev s ->
  leaves (fun c _ => actor ev s = Some c) (states s) (states (exec (run ev) s)).
Proof.
  intros Hj Hen. destruct ev as [node local|c pid uid ok|c f wr|c ok complete|c|c|status ret arg|b|code v];
    cbn [run actor].
  - unfold new_client. rewrite exec_getS, exec_modify. unfold states, base. cbn.
    rewrite !fmap_insert. intros c st [[<- _]|[_ Hc]]%lookup_insert_Some; [by right|by left].
  - unfold handleCredentials. destruct ok; [|apply leaves_close_client].
    intros c' st Hc. destruct (decide (c' = c)) as [->|Hne]; [by right|left].
    unfold upd_conn in Hc. rewrite exec_getS in Hc. destruct (sb_conns s !! c) as [cn|] eqn:Ec.
    + rewrite exec_modify in Hc. unfold states, base in Hc. cbn in Hc. rewrite !fmap_insert in Hc.
      by rewrite lookup_insert_ne in Hc.
    + unfold fault in Hc. by rewrite exec_modify in Hc.
  - eapply leaves_mono, leaves_eval_request. by intros ? ? ->.
  - unfold handleWrite. destruct ok; [|apply leaves_close_client]. destruct complete; [|apply leaves_refl].
    eapply leaves_mono, leaves_upd_state. by intros ? ? [-> _].
  - apply leaves_close_client.
  - apply leaves_close_client.
  - by destruct (Hj status ret arg).
  - rewrite exec_modify. apply leaves_refl.
  - assert (dialogue (exec (dispatch_pulse code v None) s) = dialogue s) as [_ Hd]%pair_equal_spec
      by apply (run_keeps dialogue), keeps_dialogue_signal.
    rewrite Hd. apply leaves_refl.
Qed.

End states.

(** ** Every request is answered or deferred *)

Section answered.
Context `{Env}.

Lemma answers_close_clients l : forall s, answers (exec (forM_ l close_client) s) = answers s.
Proof.
  induction l as [|c l IH]; intros s; cbn [forM_]; [done|]. rewrite exec_bind, IH.
  apply dialogue_close_client.
Qed.

Lemma answers_removeClient i s : answers (exec (removeClient i) s) = answers s.
Proof.
  unfold removeClient. rewrite exec_getS, exec_bind, exec_modify.
  match goal with |- context [exec (forM_ ?l _) ?s1] => exact (answers_close_clients l s1) end.
Qed.

Lemma answers_eval_ping_id c r s : answers (exec (eval_ping_id c r) s) = answers s.
Proof.
  destruct r; try done. cbn [eval_ping_id]. rewrite exec_bind.
  assert (dialogue (exec (get_conn c) s) = dialogue s) as [Hd _]%pair_equal_spec
    by (apply (run_keeps dialogue), keeps_dialogue_base; auto with preserve).
  rewrite <- Hd. generalize (exec (get_conn c) s) (eval (get_conn c) s). clear. intros s cn.
  destruct (negb _); [|done]. cbn [whenM]. rewrite exec_bind. unfold addSlaveClient.
  rewrite exec_modify. exact (answers_removeClient (cd_mExtendedID (cn_mData cn)) s).
Qed.

(** A ping with an id closes connections and changes no other. *)
Lemma states_eval_ping_id c r s c' :
  states (exec (eval_ping_id c r) s) !! c' = states s !! c' \/
  states (exec (eval_ping_id c r) s) !! c' = None.
Proof.
  destruct (states (exec (eval_ping_id c r) s) !! c') as [st|] eqn:E; [left|by right].
  by destruct (leaves_eval_ping_id (fun _ _ => False) c r s c' st E) as [->|[]].
Qed.

(** The answer to a connection that may be gone. *)
Lemma evaluateWriteResult_any c wr s :
  answers (exec (evaluateWriteResult c wr) s) = answers s /\
  forall c', states (exec (evaluateWriteResult c wr) s) !! c' =
    if bool_decide (c' = c /\ is_Some (states s !! c)) then after_write wr else states s !! c'.
Proof.
  destruct (sb_conns s !! c) as [cn|] eqn:Hc.
  - destruct (evaluateWriteResult_states c wr s cn Hc) as [Ha Hs]. split; [done|].
    intros c'. rewrite Hs. assert (is_Some (states s !! c)) as Hl
      by (rewrite states_lookup; unfold conn_state; rewrite Hc; by eexists).
    rewrite (bool_decide_ext (c' = c) (c' = c /\ is_Some (states s !! c))); [done|tauto].
  - assert (states s !! c = None) as Hn by (rewrite states_lookup; unfold conn_state; by rewrite Hc).
    assert (forall st, states (exec (upd_conn c (fun cn => cn <| cn_mState := st |>)) s) = states s) as Hu.
    { intros st. rewrite states_upd_state. by rewrite decide_False by (rewrite Hn; by intros [? [=]]). }
    split; [destruct wr; cbn [evaluateWriteResult]; [apply answers_upd_conn..|apply dialogue_close_client]|].
    intros c'. rewrite bool_decide_eq_false_2 by (rewrite Hn; by intros [_ [? [=]]]).
    destruct wr; cbn [evaluateWriteResult]; [by rewrite Hu..|].
    rewrite (proj2 (dialogue_close_client c s)).
    destruct (decide (c' = c)) as [->|]; [by rewrite lookup_delete_eq|by rewrite lookup_delete_ne].
Qed.

Definition announces (r : Request) : bool := match r with RQ_MasterPingId _ => true | _ => false end.

(** The request with which a slave announces itself. *)
Lemma announcement_answered c f wr s :
  announces (fr_request f) = true ->
  let s' := exec (eval_request c f wr) s in
  (exists r, answers s' = answers s ++ [O_response c r]) /\
  (conn_state c s' = None \/ conn_state c s' = after_write wr) /\
  forall c', c' <> c -> conn_state c' s' = conn_state c' s \/ conn_state c' s' = None.
Proof.
  intros Hr. cbv zeta. setoid_rewrite <- states_lookup. unfold eval_request.
  rewrite exec_bind, exec_modify. set (s1 := s <| sb_msg := _ |>). rewrite exec_bind.
  assert (dialogue (exec (dispatch c f) s1) = dialogue s1) as [Ha Hs]%pair_equal_spec
    by apply (run_keeps dialogue), keeps_dialogue_dispatch.
  assert (foreseen true (fr_request f)) as Hf by (by destruct (fr_request f)).
  destruct (dealt_dispatch true c (waiting s) (sb_nextId s) f Hf s1) as [_ Hsil]; [done|].
  assert (may_defer (fr_request f) = false) as Hm by (by destruct (fr_request f)).
  specialize (Hsil (or_intror Hm)).
  change (answers s) with (answers s1). change (states s) with (states s1). rewrite <- Ha, <- Hs.
  revert Hsil. generalize (waiting s) (sb_nextId s) (exec (dispatch c f) s1) (eval (dispatch c f) s1).
  clear. intros w n s found Hsil. rewrite exec_bind.
  assert (preserves (tracked (silent w n)) (eval_ping_id c (fr_request f))) as Hp by grows.
  apply (run_preserves _ _ Hp) in Hsil.
  rewrite <- (answers_eval_ping_id c (fr_request f) s).
  pose proof (states_eval_ping_id c (fr_request f) s) as Hst. revert Hsil Hst.
  generalize (exec (eval_ping_id c (fr_request f)) s). intros s' (_ & Hr & _) Hst.
  rewrite exec_getS, (bool_decide_eq_false_2 _ Hr), andb_false_r, exec_bind.
  destruct (evaluateWriteResult_any c wr (exec (emit (O_response c (mc_response (sb_msg s')))) s')) as [Ha Hs].
  assert (states (exec (emit (O_response c (mc_response (sb_msg s')))) s') = states s') as He by done.
  split_and!.
  - eexists. rewrite Ha, answers_emit. done.
  - rewrite Hs, He. case_bool_decide as Hc; [by right|left].
    destruct (states s' !! c) eqn:E; [|done]. exfalso. apply Hc. split; [done|by eexists].
  - intros c' Hne. rewrite Hs, He. rewrite bool_decide_eq_false_2 by (by intros [? _]). apply Hst.
Qed.


End answered.

(** ** The invariant *)

(** How many jobs a connection in state [st] waits for. *)
Definition due (st : ClientState) : nat := if bool_decide (st = CS_DEFERRED) then 1 else 0.

Definition jobs_for (c : Z) (w : list Z) : nat := count_occ Z.eq_dec w c.

(** [n] is the number of the next connection.  If [exact] does not hold a deferred connection
    may wait for nothing. *)
Record waits_on (exact : bool) (w : list Z) (sts : gmap Z ClientState) (n : Z) : Prop := {
  wo_jobs : Forall (fun c => c < n) w;
  wo_conns c st : sts !! c = Some st -> c < n;
  wo_due c st : sts !! c = Some st -> (jobs_for c w <= due st)%nat /\ (exact = true -> jobs_for c w = due st);
}.
Definition waits (exact : bool) (s : SB) : Prop := waits_on exact (waiting s) (states s) (sb_nextId s).

Lemma jobs_for_app c w w' : jobs_for c (w ++ w') = (jobs_for c w + jobs_for c w')%nat.
Proof. apply count_occ_app. Qed.

Lemma jobs_for_none c w n : Forall (fun c => c < n) w -> n <= c -> jobs_for c w = 0%nat.
Proof. intros Hw Hc. apply count_occ_not_In. intros Hin. rewrite Forall_forall in Hw. apply list_elem_of_In, Hw in Hin. lia. Qed.

Section invariant.
Context (exact : bool) (w : list Z) (sts : gmap Z ClientState) (n : Z).
Hypothesis Hwo : waits_on exact w sts n.

(** Connections are closed, or go from one state to another in which as many jobs are due. *)
Lemma waits_on_leaves (A : Z -> ClientState -> Prop) sts' :
  leaves A sts sts' -> (forall c st, A c st -> exists st0, sts !! c = Some st0 /\ due st0 = due st) ->
  waits_on exact w sts' n.
Proof.
  intros Hl HA. assert (forall c st, sts' !! c = Some st -> exists st0, sts !! c = Some st0 /\ due st0 = due st) as Hst.
  { intros c st Hc. destruct (Hl c st Hc); [by exists st|by apply HA]. }
  split; [by apply Hwo|..]; intros c st (st0 & Hc & E)%Hst; [by apply (wo_conns _ _ _ _ Hwo c st0)|].
  rewrite <- E. by apply Hwo.
Qed.

Lemma waits_on_defer c st :
  sts !! c = Some st -> due st = 0%nat -> waits_on exact (w ++ [c]) (<[c := CS_DEFERRED]> sts) n.
Proof.
  intros Hc Hst. pose proof (wo_conns _ _ _ _ Hwo c st Hc) as Hn. split.
  - rewrite Forall_app, Forall_singleton. split; [apply Hwo|done].
  - intros c' st' [[<- _]|[_ Hc']]%lookup_insert_Some; [done|by apply (wo_conns _ _ _ _ Hwo c' st')].
  - intros c' st'. rewrite jobs_for_app. intros [[<- <-]|[Hne Hc']]%lookup_insert_Some.
    + destruct (wo_due _ _ _ _ Hwo c st Hc) as [Hle _]. rewrite Hst in Hle. unfold jobs_for in *. cbn.
      destruct (Z.eq_dec c c); [|done]. change (due CS_DEFERRED) with 1%nat. lia.
    + destruct (wo_due _ _ _ _ Hwo c' st' Hc') as [Hle He]. unfold jobs_for in *. cbn.
      destruct (Z.eq_dec c c'); [done|]. split; [lia|]. intros E. specialize (He E). lia.
Qed.

Lemma waits_on_stuck c st :
  exact = false -> sts !! c = Some st -> due st = 0%nat -> waits_on exact w (<[c := CS_DEFERRED]> sts) n.
Proof.
  intros He Hc Hst. split; [by apply Hwo|..].
  - intros c' st' [[<- _]|[_ Hc']]%lookup_insert_Some; [by apply (wo_conns _ _ _ _ Hwo c st)|by apply (wo_conns _ _ _ _ Hwo c' st')].
  - intros c' st' [[<- <-]|[Hne Hc']]%lookup_insert_Some; [|by apply Hwo].
    destruct (wo_due _ _ _ _ Hwo c st Hc) as [Hle _]. split; [lia|by rewrite He].
Qed.

Lemma waits_on_new st : due st = 0%nat -> waits_on exact w (<[n := st]> sts) (n + 1).
Proof.
  intros Hst. split.
  - eapply Forall_impl; [apply Hwo|]. cbn. intros c Hc. lia.
  - intros c st' [[<- _]|[_ Hc]]%lookup_insert_Some; [lia|]. pose proof (wo_conns _ _ _ _ Hwo c st' Hc). lia.
  - intros c st' [[<- <-]|[_ Hc]]%lookup_insert_Some; [|by apply Hwo].
    by rewrite (jobs_for_none n w n), Hst by (apply Hwo || lia).
Qed.

End invariant.

(** The oldest job comes back: nobody waits for it, *)
Lemma waits_on_done exact c w sts n :
  waits_on exact (c :: w) sts n -> waits_on exact w (if decide (is_Some (sts !! c)) then <[c := CS_WRITING]> sts else sts) n.
Proof.
  intros Hwo. assert (Forall (fun c => c < n) w) as Hw.
  { pose proof (wo_jobs _ _ _ _ Hwo) as Hw. by apply Forall_cons in Hw as [_ Hw]. }
  assert (forall c' st, c' <> c -> sts !! c' = Some st ->
    (jobs_for c' w <= due st)%nat /\ (exact = true -> jobs_for c' w = due st)) as Hne.
  { intros c' st Hc Hst. pose proof (wo_due _ _ _ _ Hwo c' st Hst) as Hd. unfold jobs_for in *. cbn in Hd.
    by destruct (Z.eq_dec c c'). }
  destruct (decide _) as [[st Hst]|Hno]; split; try done.
  - intros c' st' [[<- _]|[_ Hc']]%lookup_insert_Some; [by apply (wo_conns _ _ _ _ Hwo c st)|by apply (wo_conns _ _ _ _ Hwo c' st')].
  - intros c' st' [[<- <-]|[Hc Hc']]%lookup_insert_Some; [|by apply Hne].
    destruct (wo_due _ _ _ _ Hwo c st Hst) as [Hle _]. change (due CS_WRITING) with 0%nat.
    assert (due st <= 1)%nat by (unfold due; case_bool_decide; lia).
    unfold jobs_for in *. cbn in Hle. destruct (Z.eq_dec c c); [|done]. lia.
  - apply (wo_conns _ _ _ _ Hwo).
  - intros c' st' Hc'. apply Hne; [|done]. intros ->. apply Hno. by eexists.
Qed.

Section events.
Context `{Env} (exact : bool).

Lemma waits_eq s s' :
  waiting s' = waiting s -> sb_nextId s' = sb_nextId s -> waits_on exact (waiting s) (states s') (sb_nextId s) -> waits exact s'.
Proof. intros Hw Hn Hwo. unfold waits. by rewrite Hw, Hn. Qed.

(** A computation that queues no job anybody waits for. *)
Lemma calm_waits (A : Z -> ClientState -> Prop) (m : M unit) s :
  preserves (tracked (calm (waiting s) (sb_nextId s))) m -> waits exact s ->
  leaves A (states s) (states (exec m s)) ->
  (forall c st, A c st -> exists st0, states s !! c = Some st0 /\ due st0 = due st) ->
  waits exact (exec m s).
Proof.
  intros Hm Hwo Hl HA. destruct (run_preserves _ _ Hm s) as (Hw & Hn); [done|].
  apply (waits_eq s); [done..|]. by apply (waits_on_leaves _ _ _ _ Hwo A).
Qed.

Lemma not_due st : st <> CS_DEFERRED -> due st = 0%nat.
Proof. intros Hst. unfold due. by rewrite bool_decide_eq_false_2. Qed.

Lemma waits_close_client c s : waits exact s -> waits exact (exec (close_client c) s).
Proof. intros Hwo. apply (calm_waits (fun _ _ => False)); [grows|done|apply leaves_close_client|done]. Qed.

Lemma waits_upd_state c st st0 s :
  states s !! c = Some st0 -> due st0 = due st -> waits exact s ->
  waits exact (exec (upd_conn c (fun cn => cn <| cn_mState := st |>)) s).
Proof.
  intros Hc Hst Hwo. eapply calm_waits; [grows|done|apply leaves_upd_state|].
  intros c' st' [-> ->]. by exists st0.
Qed.

(** The answer is written, or the connection is closed. *)
Lemma waits_evaluateWriteResult c wr s :
  waits exact s -> (forall st, states s !! c = Some st -> due st = 0%nat) -> waits exact (exec (evaluateWriteResult c wr) s).
Proof.
  intros Hwo Hst.
  assert (forall st, st <> CS_DEFERRED -> waits exact (exec (upd_conn c (fun cn => cn <| cn_mState := st |>)) s)) as Hupd.
  { intros st Hne. destruct (states s !! c) as [st0|] eqn:Ec.
    - apply (waits_upd_state c st st0); [done| |done]. rewrite (Hst st0 eq_refl). symmetry. by apply not_due.
    - eapply (calm_waits (fun _ _ => False)); [grows|done| |done]. rewrite states_upd_state, Ec.
      rewrite decide_False by (by intros [? [=]]). apply leaves_refl. }
  destruct wr; cbn [evaluateWriteResult]; [by apply Hupd..|by apply waits_close_client].
Qed.

(** The end of [eval]: the client is deferred, or answered. *)
Lemma waits_eval_end c (found : bool) wr w s :
  dealt exact c w (sb_nextId s) s -> (found = false -> tracked (silent w (sb_nextId s)) s) ->
  waits_on exact w (states s) (sb_nextId s) -> (forall st, states s !! c = Some st -> due st = 0%nat) ->
  (responseState s = State_DEFERRED -> exists st, states s !! c = Some st) ->
  waits exact (exec (s ← getS;
    if found && bool_decide (responseState s = State_DEFERRED)
    then upd_conn c (fun cn => cn <| cn_mState := CS_DEFERRED |>)
    else emit (O_response c (mc_response (sb_msg s)));; evaluateWriteResult c wr) s).
Proof.
  intros Hd Hf Hwo Hst Hlive. rewrite exec_getS. destruct (found && _) eqn:E.
  - apply andb_true_iff in E as [_ Hr%bool_decide_eq_true]. destruct (Hlive Hr) as [st Hc]. specialize (Hst st Hc).
    assert (preserves (tracked (calm (waiting s) (sb_nextId s))) (upd_conn c (fun cn => cn <| cn_mState := CS_DEFERRED |>)))
      as Hq by grows.
    destruct (run_preserves _ _ Hq s) as (Hw & Hn); [done|].
    unfold waits. change (waiting (exec ?m s)) with (ctxs (sb_mQueue (exec m s))). rewrite Hw, Hn.
    rewrite states_upd_state, decide_True by (by eexists).
    destruct Hd as [_ [[? _]|[_ [->|[He ->]]]]]; [done|by apply (waits_on_defer _ _ _ _ Hwo c st)|].
    by apply (waits_on_stuck _ _ _ _ Hwo c st).
  - rewrite exec_bind. unfold emit. rewrite exec_modify.
    apply waits_evaluateWriteResult; [|exact Hst].
    assert (waiting s = w) as Hw.
    { destruct Hd as [_ [[_ ->]|[Hr _]]]; [done|]. destruct found; [|by destruct (Hf eq_refl)].
      cbn in E. by rewrite bool_decide_eq_true_2 in E. }
    unfold waits. change (waits_on exact (waiting s) (states s) (sb_nextId s)). by rewrite Hw.
Qed.

Lemma waits_eval_request c f wr st s :
  foreseen exact (fr_request f) -> states s !! c = Some st -> due st = 0%nat -> waits exact s ->
  waits exact (exec (eval_request c f wr) s).
Proof.
  intros He Hc Hst Hwo. unfold eval_request. rewrite exec_bind, exec_modify. set (s1 := s <| sb_msg := _ |>).
  rewrite exec_bind. assert (dialogue (exec (dispatch c f) s1) = dialogue s1) as [_ Hd]%pair_equal_spec
    by apply (run_keeps dialogue), keeps_dialogue_dispatch.
  destruct (dealt_dispatch exact c (waiting s) (sb_nextId s) f He s1) as [Hdealt Hsil]; [done|].
  change (states s) with (states s1) in Hc. unfold waits in Hwo. change (states s) with (states s1) in Hwo.
  assert (states (exec (dispatch c f) s1) = states s1) as Hs by exact Hd. rewrite <- Hs in Hc, Hwo.
  clear Hs. revert Hdealt Hsil Hc Hwo.
  generalize (exec (dispatch c f) s1) (eval (dispatch c f) s1). clear Hd. clearbody s1.
  generalize (waiting s) (sb_nextId s). intros w n s2 found Hdealt Hsil Hc Hwo. rewrite exec_bind.
  destruct (may_defer (fr_request f)) eqn:Em.
  - assert (exec (eval_ping_id c (fr_request f)) s2 = s2) as -> by by destruct (fr_request f).
    pose proof (proj1 Hdealt) as En. subst n.
    apply (waits_eval_end c found wr w); [done| |done|intros st' Hst'; congruence|intros _; by exists st].
    intros Hf. apply Hsil. by left.
  - assert (tracked (silent w n) s2) as Hs2 by (apply Hsil; by right).
    assert (preserves (tracked (silent w n)) (eval_ping_id c (fr_request f))) as Hp by grows.
    apply (run_preserves _ _ Hp) in Hs2. pose proof (leaves_eval_ping_id (fun _ _ => False) c (fr_request f) s2) as Hl.
    revert Hs2 Hl. generalize (exec (eval_ping_id c (fr_request f)) s2). intros s3 Hs3 Hl.
    pose proof Hs3 as (Hw & Hr & Hn). subst n.
    apply (waits_eval_end c found wr w); [by apply silent_dealt|done| | |done].
    + by apply (waits_on_leaves _ _ _ _ Hwo (fun _ _ => False)).
    + intros st' Hst'. destruct (Hl c st' Hst') as [|[]]. congruence.
Qed.

(** The return of a job. *)
Lemma states_finalize j s :
  states (exec (finalize j) s) =
    match job_ctx j with
    | Some c => if decide (is_Some (states s !! c)) then <[c := CS_WRITING]> (states s) else states s
    | None => states s
    end.
Proof.
  unfold finalize. destruct (job_ctx j) as [c|]; [|done]. rewrite exec_bind.
  assert (dialogue (exec (get_conn c) s) = dialogue s) as [_ Hd]%pair_equal_spec
    by (apply (run_keeps dialogue), keeps_dialogue_base; auto with preserve).
  assert (states (exec (get_conn c) s) = states s) as Hs by exact Hd. rewrite <- Hs. clear Hd Hs.
  generalize (exec (get_conn c) s) (eval (get_conn c) s). clear s. intros s cn. rewrite exec_bind.
  assert (keeps dialogue (assertM F_job (bool_decide (cn_mState cn = CS_DEFERRED)))) as Hk by preserve.
  pose proof (run_keeps _ _ Hk s) as [_ Hd]%pair_equal_spec.
  assert (states (exec (assertM F_job (bool_decide (cn_mState cn = CS_DEFERRED))) s) = states s) as Hs by exact Hd.
  rewrite <- Hs. clear Hk Hd Hs. generalize (exec (assertM F_job (bool_decide (cn_mState cn = CS_DEFERRED))) s).
  clear s. intros s. rewrite exec_bind. unfold emit. rewrite exec_modify.
  exact (states_upd_state c CS_WRITING s).
Qed.

Lemma job_ctx_execute status ret arg j : job_ctx (execute status ret arg j) = job_ctx j.
Proof. unfold execute. by repeat case_match. Qed.

Lemma exec_job_done status ret arg j q s :
  sb_mQueue s = j :: q ->
  exec (run (Ev_job status ret arg)) s = exec (handleJobFinished (execute status ret arg j)) (s <| sb_mQueue := q |>).
Proof. intros Hq. cbn [run]. unfold job_done. by rewrite exec_getS, Hq, exec_bind, exec_modify. Qed.

Lemma states_job_done status ret arg j q s :
  sb_mQueue s = j :: q ->
  states (exec (run (Ev_job status ret arg)) s) =
    match job_ctx j with
    | Some c => if decide (is_Some (states s !! c)) then <[c := CS_WRITING]> (states s) else states s
    | None => states s
    end.
Proof.
  intros Hq. rewrite (exec_job_done _ _ _ j q) by done.
  destruct (handleJobFinished_split (execute status ret arg j) (s <| sb_mQueue := q |>)) as (j' & Hj' & _ & s1 & Hs1 & ->).
  apply pair_equal_spec in Hs1 as [_ Hs]. rewrite states_finalize, Hj', job_ctx_execute.
  assert (states s1 = states s) as -> by exact Hs. done.
Qed.

Lemma waits_job_done status ret arg j q s :
  sb_mQueue s = j :: q -> waits exact s -> waits exact (exec (run (Ev_job status ret arg)) s).
Proof.
  intros Hq Hwo. unfold waits. rewrite (states_job_done _ _ _ j q) by done. rewrite (exec_job_done _ _ _ j q) by done.
  assert (preserves (tracked (calm (ctxs q) (sb_nextId s))) (handleJobFinished (execute status ret arg j))) as Hp by grows.
  destruct (run_preserves _ _ Hp (s <| sb_mQueue := q |>)) as (Hw & Hn); [done|].
  change (waiting (exec ?m ?s)) with (ctxs (sb_mQueue (exec m s))). rewrite Hw, Hn.
  unfold waits, waiting in Hwo. rewrite Hq in Hwo. cbn in Hwo.
  destruct (job_ctx j) as [c|]; [by apply (waits_on_done _ _ _ _ _ Hwo)|done].
Qed.

Definition event_foreseen (ev : Event) : Prop :=
  match ev with Ev_request _ f _ => foreseen exact (fr_request f) | _ => True end.

Lemma reading_due c s : reading c s -> exists st, states s !! c = Some st /\ due st = 0%nat.
Proof. unfold reading. rewrite <- states_lookup. intros [Hc|Hc]; (eexists; split; [exact Hc|done]). Qed.

Lemma waits_run ev s : event_foreseen ev -> enabled ev s -> waits exact s -> waits exact (exec (run ev) s).
Proof.
  intros Hev Hen Hwo. destruct ev as [node local|c pid uid ok|c f wr|c ok complete|c|c|status ret arg|b|code v]; cbn [enabled] in Hen.
  - cbn [run]. unfold new_client. rewrite exec_getS, exec_modify. unfold waits, waiting, states, base. cbn.
    rewrite !fmap_insert. by apply (waits_on_new exact _ _ _ Hwo).
  - cbn [run]. unfold handleCredentials. destruct ok; [|by apply waits_close_client].
    destruct (reading_due c s Hen) as (st & Hc & Hst). eapply (calm_waits (fun c' st' => c' = c /\ st' = st)); [grows|done| |].
    + intros c' st' Hc'. unfold upd_conn in Hc'. rewrite exec_getS in Hc'.
      rewrite states_lookup in Hc. unfold conn_state in Hc. destruct (sb_conns s !! c) as [cn|] eqn:Ec; [|done].
      rewrite exec_modify in Hc'. unfold states, base in Hc'. cbn in Hc', Hc. rewrite !fmap_insert in Hc'.
      apply lookup_insert_Some in Hc' as [[<- <-]|[_ Hc']]; [right; split; [done|by injection Hc]|by left].
    + intros c' st' [-> ->]. by exists st.
  - destruct Hen as [Hr _]. destruct (reading_due c s Hr) as (st & Hc & Hst). by apply (waits_eval_request c f wr st).
  - cbn [run]. unfold handleWrite. destruct ok; [|by apply waits_close_client]. destruct complete; [|done].
    rewrite <- states_lookup in Hen. by apply (waits_upd_state c CS_READING_HEADER CS_WRITING).
  - by apply waits_close_client.
  - by apply waits_close_client.
  - destruct Hen as (j & q & Hq & _). by apply (waits_job_done _ _ _ j q).
  - cbn [run]. by rewrite exec_modify.
  - cbn [run]. eapply (calm_waits (fun _ _ => False)); [grows|done| |done].
    pose proof (run_keeps _ _ (keeps_dialogue_signal code v) s) as [_ Hd]%pair_equal_spec.
    assert (states (exec (dispatch_pulse code v None) s) = states s) as -> by exact Hd. apply leaves_refl.
Qed.

End events.

Lemma waits_reachable `{Env} exact slave file id cacheOpt asyncOpt sig s :
  reachable (event_foreseen exact) (start slave file id cacheOpt asyncOpt sig) s -> waits exact s.
Proof.
  apply reachable_inv; [|intros s' ev Hev Hen; by apply waits_run].
  set (s0 := start slave file id cacheOpt asyncOpt sig).
  assert (waiting s0 = []) as Hw by reflexivity. assert (states s0 = ∅) as Hs by reflexivity.
  unfold waits. rewrite Hw, Hs. by split.
Qed.

(** C11. In every reachable state, whatever the clients, the master and the network do, a
    connection that exists waits for at most one job, and only while it is deferred; if no
    extended attach has been received, a deferred connection waits for exactly one.  The
    jobs of connections that are gone keep numbers that are never given to another one. *)
Theorem client_waits_for_one_job `{Env} exact slave file id cacheOpt asyncOpt sig s :
  reachable (event_foreseen exact) (start slave file id cacheOpt asyncOpt sig) s ->
  (forall c st, conn_state c s = Some st ->
    (jobs_for c (waiting s) <= if bool_decide (st = CS_DEFERRED) then 1 else 0)%nat /\
    (exact = true -> st = CS_DEFERRED -> jobs_for c (waiting s) = 1%nat)) /\
  Forall (fun c => c < sb_nextId s) (waiting s).
Proof.
  intros [Hj Hc Hd]%waits_reachable. split; [|done]. intros c st Hst. rewrite <- states_lookup in Hst.
  destruct (Hd c st Hst) as [Hle He]. split; [done|]. intros E ->. by apply He.
Qed.

(** ** The way to the answer *)

Section answers.
Context `{Env}.

(** [k] jobs have to come back before that of [c], which is still deferred unless it is closed. *)
Record queued_for (c : Z) (k : nat) (s : SB) : Prop := {
  qf_waits : waits false s;
  qf_job : exists j, sb_mQueue s !! k = Some j /\ job_ctx j = Some c;
  qf_state : states s !! c = Some CS_DEFERRED \/ states s !! c = None;
}.

Lemma queued_known c k s : queued_for c k s -> c < sb_nextId s.
Proof.
  intros [[Hw _ _] (j & Hj & Hc) _]. rewrite Forall_forall in Hw. apply Hw. unfold waiting, ctxs.
  apply list_elem_of_omap. exists j. split; [by eapply list_elem_of_lookup_2|done].
Qed.

(** An event about another connection. *)
Lemma queued_not_actor c k ev s : queued_for c k s -> enabled ev s -> actor ev s <> Some c.
Proof.
  intros Hq Hen Ha. pose proof (queued_known c k s Hq) as Hn. destruct (qf_state _ _ _ Hq) as [Hs|Hs];
    destruct ev; cbn in Ha; simplify_eq/=; try lia; unfold reading in *;
    rewrite states_lookup in Hs; rewrite ?Hs in Hen; naive_solver.
Qed.

(** Any event but the return of a job leaves the job where it is. *)
Lemma queued_run c k ev s :
  (forall status ret arg, ev <> Ev_job status ret arg) -> enabled ev s -> queued_for c k s ->
  queued_for c k (exec (run ev) s).
Proof.
  intros Hj Hen Hq. pose proof (queued_not_actor c k ev s Hq Hen) as Ha. split.
  - apply waits_run; [|done|apply Hq]. by destruct ev.
  - destruct (qf_job _ _ _ Hq) as (j & Hlk & Hc). exists j. split; [|done].
    destruct ev as [node local|? pid uid ok|? f wr|? ok complete|?|?|status ret arg|b|code v];
      try (by destruct (Hj status ret arg)); try (cbn [run]; by rewrite exec_modify).
    all: match goal with |- sb_mQueue (exec (run ?e) _) !! _ = _ => destruct (run_queue e s I) as (l & -> & _) end.
    all: by apply lookup_app_l_Some.
  - pose proof (leaves_run ev s Hj Hen) as Hl.
    destruct (states (exec (run ev) s) !! c) as [st|] eqn:E; [|by right]. left.
    destruct (Hl c st E) as [Hst|Hst]; [|done]. destruct (qf_state _ _ _ Hq); congruence.
Qed.

Lemma jobs_for_head c k q j : q !! k = Some j -> job_ctx j = Some c -> (1 <= jobs_for c (ctxs q))%nat.
Proof.
  intros Hj Hc. assert (c ∈ ctxs q) as Hin.
  { unfold ctxs. apply list_elem_of_omap. exists j. split; [by eapply list_elem_of_lookup_2|done]. }
  unfold jobs_for. apply count_occ_In, list_elem_of_In, Hin.
Qed.

(** The return of another client's job brings it forward. *)
Lemma queued_back c k status ret arg s :
  enabled (Ev_job status ret arg) s -> queued_for c (S k) s ->
  queued_for c k (exec (run (Ev_job status ret arg)) s).
Proof.
  intros Hen Hq. split; [by apply waits_run; [| |apply Hq]|..];
    destruct Hen as (j & q & Eq & _); destruct (qf_job _ _ _ Hq) as (j' & Hlk & Hc); rewrite Eq in Hlk; cbn in Hlk.
  - exists j'. destruct (run_job_queue status ret arg j q s Eq) as (l & -> & _). split; [|done].
    by apply lookup_app_l_Some.
  - rewrite (states_job_done _ _ _ j q) by done. destruct (job_ctx j) as [c'|] eqn:Ec; [|apply Hq].
    destruct (decide _) as [Hlive|_]; [|apply Hq]. destruct (decide (c' = c)) as [->|Hne].
    + destruct Hlive as [st Hst]. destruct (wo_due _ _ _ _ (qf_waits _ _ _ Hq) c st Hst) as [Hle _].
      assert (due st <= 1)%nat by (unfold due; case_bool_decide; lia). pose proof (jobs_for_head c k q j' Hlk Hc).
      unfold waiting in Hle. rewrite Eq in Hle. unfold jobs_for in *. cbn in Hle. rewrite Ec in Hle. cbn in Hle.
      destruct (Z.eq_dec c c); [|done]. unfold ctxs in *. lia.
    + rewrite lookup_insert_ne by done. apply Hq.
Qed.

Fixpoint returns (evs : list Event) : nat :=
  match evs with [] => 0%nat | Ev_job _ _ _ :: evs => S (returns evs) | _ :: evs => returns evs end.

Lemma queued_run_all c evs : forall k s,
  all_enabled evs s -> queued_for c (returns evs + k) s -> queued_for c k (exec (run_all evs) s).
Proof.
  induction evs as [|ev evs IH]; intros k s; [done|]. intros [Hen Hall] Hq. cbn [run_all]. rewrite exec_bind.
  apply IH; [done|]. destruct ev; try by apply queued_run.
  apply queued_back; [done|exact Hq].
Qed.

(** Its own return answers the client, if it still exists. *)
Lemma queued_answered c status ret arg s :
  enabled (Ev_job status ret arg) s -> queued_for c 0 s ->
  conn_state c s = None \/
  conn_state c s = Some CS_DEFERRED /\
  exists r, answers (exec (run (Ev_job status ret arg)) s) = answers s ++ [O_deferred c r] /\
    conn_state c (exec (run (Ev_job status ret arg)) s) = Some CS_WRITING.
Proof.
  intros (j & q & Eq & _) Hq. rewrite <- !states_lookup. destruct (qf_state _ _ _ Hq) as [Hs|Hs]; [right|by left].
  split; [done|]. destruct (qf_job _ _ _ Hq) as (j' & Hlk & Hc). rewrite Eq in Hlk. injection Hlk as ->.
  rewrite (exec_job_done _ _ _ j' q) by done. rewrite states_lookup in Hs.
  destruct (finished_job_answers (execute status ret arg j') c (s <| sb_mQueue := q |>)) as (r & Ha & Hst & _);
    [by rewrite job_ctx_execute|exact Hs|].
  exists r. split; [exact Ha|]. rewrite states_lookup, Hst. by rewrite bool_decide_eq_true_2.
Qed.

Lemma waits_weaken exact s : waits exact s -> waits false s.
Proof. intros [Hw Hc Hd]. split; [done..|]. intros c st Hst. split; [by apply Hd|done]. Qed.

Lemma waiting_queued exact c s :
  waits exact s -> conn_state c s = Some CS_DEFERRED -> c ∈ waiting s -> exists k, queued_for c k s.
Proof.
  intros Hwo Hst Hin. rewrite <- states_lookup in Hst.
  unfold waiting, ctxs in Hin. apply list_elem_of_omap in Hin as (j & Hj & Hc).
  apply list_elem_of_lookup in Hj as [k Hk].
  exists k. split; [by apply (waits_weaken exact)|by exists j|by left].
Qed.

Lemma deferred_waiting c s : waits true s -> conn_state c s = Some CS_DEFERRED -> c ∈ waiting s.
Proof.
  intros Hwo Hst. rewrite <- states_lookup in Hst. destruct (wo_due _ _ _ _ Hwo c _ Hst) as [_ He].
  specialize (He eq_refl). change (due CS_DEFERRED) with 1%nat in He.
  apply list_elem_of_In, (count_occ_In Z.eq_dec). unfold jobs_for in He. lia.
Qed.

Lemma all_enabled_app evs evs' s :
  all_enabled (evs ++ evs') s <-> all_enabled evs s /\ all_enabled evs' (exec (run_all evs) s).
Proof.
  revert s. induction evs as [|ev evs IH]; intros s; [cbn; tauto|].
  cbn [all_enabled run_all app]. rewrite exec_bind, IH. tauto.
Qed.

End answers.

(** C12. A deferred client is answered when its job returns: with [k] jobs before its own in the
    queue, it is still deferred after [k] jobs have come back, whatever happens in the
    meantime, unless its connection has been closed, and the next one to come back, with
    whatever result, answers it, after which its response is being written.  Every deferred
    client has such a job as long as no extended attach has been received ([exact]); an
    extended attach can be deferred without one, see [precached_attach_jobless]. *)
Theorem deferred_client_answered `{Env} exact slave file id cacheOpt asyncOpt sig s c :
  reachable (event_foreseen exact) (start slave file id cacheOpt asyncOpt sig) s ->
  conn_state c s = Some CS_DEFERRED ->
  (exact = true -> c ∈ waiting s) /\
  (c ∈ waiting s ->
    exists k, (k < length (sb_mQueue s))%nat /\
    forall evs status ret arg, all_enabled (evs ++ [Ev_job status ret arg]) s -> returns evs = k ->
      let s1 := exec (run_all evs) s in
      let s2 := exec (run (Ev_job status ret arg)) s1 in
      conn_state c s1 = None \/
      conn_state c s1 = Some CS_DEFERRED /\
      exists r, answers s2 = answers s1 ++ [O_deferred c r] /\ conn_state c s2 = Some CS_WRITING).
Proof.
  intros Hwo%waits_reachable Hst. split; [intros ->; by apply deferred_waiting|]. intros Hin.
  destruct (waiting_queued exact c s Hwo Hst Hin) as [k Hq].
  exists k. split; [destruct (qf_job _ _ _ Hq) as (j & Hj & _); by apply lookup_lt_Some in Hj|].
  intros evs status ret arg [Hen [Hjob _]]%all_enabled_app Hk. cbv zeta. apply queued_answered; [done|].
  apply queued_run_all; [done|]. by rewrite Hk, Nat.add_0_r.
Qed.

(** ** Witnesses *)

Lemma demo_attach_enabled : all_enabled demo_attach_events (demo_start true).
Proof.
  cbn [all_enabled demo_attach_events]. split_and!; try done; try (left; by vm_compute).
  split; [left; by vm_compute | done].
Qed.

Lemma demo_deferred_reachable exact : reachable (event_foreseen exact) (demo_start true) demo_deferred.
Proof.
  apply (reachable_run_all _ demo_attach_events (demo_start true)); [constructor|by repeat constructor|apply demo_attach_enabled].
Qed.

Lemma client_waits_for_one_job_witness :
  conn_state 1 demo_deferred = Some CS_DEFERRED /\ jobs_for 1 (waiting demo_deferred) = 1%nat.
Proof.
  assert (conn_state 1 demo_deferred = Some CS_DEFERRED) as Hst by by vm_compute. split; [exact Hst|].
  destruct (client_waits_for_one_job true true None (-1) false false (0, 0) demo_deferred (demo_deferred_reachable true))
    as [Hc _].
  exact (proj2 (Hc 1 CS_DEFERRED Hst) eq_refl eq_refl).
Defined.

(** The master is lost before it answers. *)
Definition demo_lost : Event := Ev_job EIO 0 (job_arg demo_job).

Lemma deferred_client_answered_witness :
  conn_state 1 demo_deferred = Some CS_DEFERRED /\
  exists r, answers (exec (run demo_lost) demo_deferred) = answers demo_deferred ++ [O_deferred 1 r] /\
    conn_state 1 (exec (run demo_lost) demo_deferred) = Some CS_WRITING.
Proof.
  assert (conn_state 1 demo_deferred = Some CS_DEFERRED) as Hst by by vm_compute. split; [exact Hst|].
  destruct (deferred_client_answered true true None (-1) false false (0, 0) demo_deferred 1
    (demo_deferred_reachable true) Hst) as (Hin & Hans). destruct (Hans (Hin eq_refl)) as (k & Hk & Hback).
  assert (k = 0%nat) as -> by (vm_compute in Hk; lia).
  specialize (Hback [] EIO 0 (job_arg demo_job)). cbn [run_all app] in Hback. rewrite exec_skip in Hback.
  destruct Hback as [Hn|[_ Hr]]; [|reflexivity|rewrite Hst in Hn; discriminate Hn|exact Hr].
  split; [|exact I]. exists demo_job, []. split; vm_compute; reflexivity.
Defined.


(** An extended attach to a service whose pool is being pre-cached is deferred without a job. *)
Lemma precached_attach_jobless `{Env} c p d pos id e s :
  np_get pos (sb_mMasterNotificationPool s) = Some e -> pe_mPoolState e = STATE_PRECACHING ->
  let s' := exec (forwardAttachExtended_job c p d true pos id) s in
  responseState s' = State_DEFERRED /\ sb_mQueue s' = sb_mQueue s.
Proof.
  destruct e as [nid pid data st count]. cbn. intros He ->. unfold forwardAttachExtended_job, exec, pool_get.
  rewrite !run_getS, run_assoc, run_getS, He. split; reflexivity.
Qed.

(** The supervision timer also closes a TCP client that is deferred.  Its job is still in the
    queue then, and when it comes back it sends the response through the deleted handle. *)
Definition timed_out_events : list Event :=
  [Ev_link true; Ev_connect 5 6; Ev_credentials 1 100 0 true;
   Ev_request 1 (demo_frame (RQ_Attach demo_descr)) WR_complete; Ev_timeout 1; demo_lost].

Lemma timed_out_client_dangles :
  all_enabled timed_out_events (demo_start true) /\
  sb_faults (exec (run_all timed_out_events) (demo_start true)) = [F_connection; F_job; F_connection].
Proof.
  split; [|by vm_compute]. cbn [all_enabled timed_out_events]. split_and!; try done; try (left; by vm_compute).
  - split; [left; by vm_compute|done].
  - eexists. split; [vm_compute; reflexivity|done].
  - eexists _, _. split; vm_compute; reflexivity.
Qed.
