(* ===== verification/Hosts.v ===== *)
(** No reference to a connection outlives it.

    A notification points to its host and a queued job to the client that waits for it; the
    code follows both pointers without a test.  [Linked] ties them to the live connections: a
    notification's id is in the id list of its host, so [ClientSpecificData::clear] finds it,
    and a job's client is still there.  Every operation preserves it as long as the 32-bit
    notification counter has not reached its reserved value; Faultless draws the conclusion
    for whole runs. *)

From S2P Require Import Prelude.
From S2P Require Import Layout.
From S2P Require Import Types.
From S2P Require Import ServerList.
From S2P Require Import ConfigFile.
From S2P Require Import ClientData.
From S2P Require Import JobQueue.
From S2P Require Import Environment.
From S2P Require Import PulseChannelManager.
From S2P Require Import NotificationPool.
From S2P Require Import MessageContext.
From S2P Require Import State.
From S2P Require Import Notifications.
From S2P Require Import Registration.
From S2P Require Import Notify.
From S2P Require Import Attach.
From S2P Require Import Jobs.
From S2P Require Import Dispatch.
From S2P Require Import System.
From S2P Require Import Frames.
From S2P Require Import Safety.
From S2P Require Import Protocol.
From S2P Require Import Delivery.
From S2P Require Import Answers.
From S2P Require Import JobOrder.
From S2P Require Import Waiting.

(** ** The invariant *)

(** What matters of a notification: its id and its host. *)
Definition Key : Type := Z * option Z.
Definition key (n : Notification) : Key := (n_notificationID n, n_host n).

(** The keys of all lists, of one and of the others. *)
Definition list_keys (k : nlist) (f : nlist -> NotificationList) : list Key := key <$> nl_mList (f k).
Definition all_keys (f : nlist -> NotificationList) : list Key :=
  list_keys mServerDisconnectNotifications f ++ list_keys mClientDetachNotifications f
  ++ list_keys mServerConnectNotifications f ++ list_keys mServerListChangeNotifications f.
Definition other_keys (k : nlist) (f : nlist -> NotificationList) : list Key :=
  all_keys (<[k := mkNotificationList [] 0]> f).

(** The id lists of the connections. *)
Definition id_lists (s : SB) : gmap Z (list Z) := (fun cn => cd_mNotificationList (cn_mData cn)) <$> sb_conns s.

(** The faults in question. *)
Definition link_fault (k : Fault) : bool := match k with F_connection | F_job => true | _ => false end.

(** A job's client is one of [D], and somebody waits for an attach. *)
Definition job_ok (D : gset Z) (j : Job) : Prop :=
  (forall c, job_ctx j = Some c -> c ∈ D) /\
  match job_arg j with JA_Attach _ _ => job_ctx j <> None | _ => True end.

(** [live] are the notifications there are, [hs] the id lists, [next] the last id given out.
    The notification with id [x] need not be in its host's list. *)
Record linked_on (x : option Z) (live : list Key) (hs : gmap Z (list Z)) (next : Z) : Prop := {
  lk_nodup : NoDup live.*1;
  lk_old p : p ∈ live -> p.1 <= next;
  lk_host i c : (i, Some c) ∈ live -> exists l, hs !! c = Some l /\ (x = Some i \/ i ∈ l);
}.

(** [D] are the connections and [Cl] those of the slaves. *)
Record core (x : option Z) (D : gset Z) (Cl : list Z) (live : list Key)
    (part : list Fault * gmap Z (list Z) * Z * list Job * list Z) : Prop := {
  co_faults : part.1.1.1.1 = [];
  co_dom : dom part.1.1.1.2 = D;
  co_linked : linked_on x live part.1.1.1.2 part.1.1.2;
  co_next : 0 <= part.1.1.2 < u32 (-1);
  co_jobs : Forall (job_ok D) part.1.2;
  co_clients : part.2 = Cl;
}.

Definition link_part (s : SB) : list Fault * gmap Z (list Z) * Z * list Job * list Z :=
  (filter (fun k => link_fault k = true) (sb_faults s), id_lists s, sb_sNextNotificationID s, sb_mQueue s,
   sb_mClients s).

(** [V] says which notifications there are, in terms of the lists. *)
Definition Held (x : option Z) (D : gset Z) (Cl : list Z)
    (V : (nlist -> NotificationList) -> list Key -> Prop) (s : SB) : Prop :=
  exists live, V (sb_lists s) live /\ core x D Cl live (link_part s).

(** Those in the lists, where [W] restricts what is in each of them. *)
Definition within (W : nlist -> Key -> Prop) (f : nlist -> NotificationList) (live : list Key) : Prop :=
  live = all_keys f /\ forall k p, p ∈ list_keys k f -> W k p.
Definition anything (k : nlist) (p : Key) : Prop := True.

(** While a list is walked they differ from those in the lists [L]. *)
Definition seen (L : nlist -> NotificationList) (ks : list Key) (f : nlist -> NotificationList) (live : list Key)
    : Prop := f = L /\ live = ks.

Abbreviation Linked x D Cl W := (Held x D Cl (within W)).
Abbreviation Viewing x D Cl L live := (Held x D Cl (seen L live)).

(** ** Lists of keys *)

Lemma all_keys_split k f : all_keys f ≡ₚ list_keys k f ++ other_keys k f.
Proof. destruct k; unfold other_keys, all_keys, list_keys; cbn; solve_Permutation. Qed.

Lemma list_keys_insert k l f : list_keys k (<[k := l]> f) = key <$> nl_mList l.
Proof. unfold list_keys. by rewrite fn_lookup_insert. Qed.

Lemma list_keys_insert_ne k k' l f : k <> k' -> list_keys k' (<[k := l]> f) = list_keys k' f.
Proof. intros Hne. unfold list_keys. by rewrite fn_lookup_insert_ne. Qed.

Lemma other_keys_insert k l f : other_keys k (<[k := l]> f) = other_keys k f.
Proof. by destruct k. Qed.

Section pure.
Context (x : option Z) (hs : gmap Z (list Z)) (next : Z).

Lemma linked_on_perm live live' : live ≡ₚ live' -> linked_on x live hs next -> linked_on x live' hs next.
Proof.
  intros Hp [Hn Ho Hh]. split.
  - by rewrite <- Hp.
  - intros p Hin. apply Ho. by rewrite Hp.
  - intros i c Hin. apply Hh. by rewrite Hp.
Qed.

(** A notification is gone, and its id from the list of its host. *)
Lemma linked_on_gone p live c l :
  linked_on x (p :: live) hs next -> hs !! c = Some l -> linked_on x live (<[c := std_remove p.1 l]> hs) next.
Proof.
  intros [Hn Ho Hh] Hc. rewrite fmap_cons in Hn. apply NoDup_cons in Hn as [Hni Hn]. split; [done|..].
  - intros q Hq. apply Ho. by right.
  - intros i c' Hin. destruct (Hh i c') as (l' & Hl' & Hi); [by right|].
    destruct (decide (c' = c)) as [->|Hne]; [|exists l'; by rewrite lookup_insert_ne].
    assert (l' = l) as -> by congruence. exists (std_remove p.1 l). rewrite lookup_insert_eq. split; [done|].
    destruct Hi as [Hi|Hi]; [by left|right]. apply std_remove_keeps; [|done].
    intros ->. apply Hni. apply list_elem_of_fmap. by exists (p.1, Some c).
Qed.

Lemma linked_on_cons p live : linked_on x (p :: live) hs next -> linked_on x live hs next.
Proof.
  intros [Hn Ho Hh]. rewrite fmap_cons in Hn. apply NoDup_cons in Hn as [_ Hn]. split; [done|..].
  - intros q Hq. apply Ho. by right.
  - intros i c Hin. apply Hh. by right.
Qed.

End pure.

(** ** Elementary operations *)

Section leaves.
Context `{Env} (x : option Z) (D : gset Z) (Cl : list Z) (V : (nlist -> NotificationList) -> list Key -> Prop).
Abbreviation Held := (Held x D Cl V).

Lemma keeps_Held {A} (m : M A) : keeps link_part m -> keeps sb_lists m -> preserves Held m.
Proof.
  intros Hp Hl. split. intros s (live & Hv & Hc). exists live. by rewrite (run_keeps _ _ Hp), (run_keeps _ _ Hl).
Qed.

Lemma Held_live c s : Held s -> c ∈ D -> exists cn, sb_conns s !! c = Some cn.
Proof.
  intros (live & _ & Hc) Hin. rewrite <- (co_dom _ _ _ _ _ Hc) in Hin. apply elem_of_dom in Hin as [l Hl].
  cbn in Hl. unfold id_lists in Hl. rewrite lookup_fmap in Hl. destruct (sb_conns s !! c) as [cn|]; [by exists cn|done].
Qed.

Lemma Held_get_conn c : c ∈ D -> preserves Held (get_conn c).
Proof.
  intros Hin. split. intros s Hs. destruct (Held_live c s Hs Hin) as [cn Hc]. unfold exec.
  by rewrite (run_get_conn c s cn).
Qed.

(** A write to a connection that leaves its id list alone. *)
Lemma id_lists_insert c cn cn' s :
  sb_conns s !! c = Some cn -> cd_mNotificationList (cn_mData cn') = cd_mNotificationList (cn_mData cn) ->
  id_lists (s <| sb_conns ::= <[c := cn']> |>) = id_lists s.
Proof.
  intros Hc Heq. unfold id_lists. cbn. rewrite fmap_insert. apply insert_id. by rewrite lookup_fmap, Hc, Heq.
Qed.

Lemma Held_same_lists s s' : sb_lists s' = sb_lists s -> link_part s' = link_part s -> Held s -> Held s'.
Proof. intros Hl Hp (live & Hv & Hc). exists live. by rewrite Hl, Hp. Qed.

Lemma Held_upd_data c f :
  (forall d, cd_mNotificationList (f d) = cd_mNotificationList d) -> c ∈ D -> preserves Held (upd_data c f).
Proof.
  intros Hf Hin. split. intros s Hs. destruct (Held_live c s Hs Hin) as [cn Hc]. unfold exec.
  rewrite (run_upd_data c f s cn Hc). cbn [snd]. revert Hs. apply Held_same_lists; [done|].
  unfold link_part. rewrite (id_lists_insert c cn) by (done || apply Hf). done.
Qed.

Lemma Held_upd_conn c f : (forall cn, cn_mData (f cn) = cn_mData cn) -> c ∈ D -> preserves Held (upd_conn c f).
Proof.
  intros Hf Hin. split. intros s Hs. destruct (Held_live c s Hs Hin) as [cn Hc]. unfold exec.
  rewrite (run_upd_conn c f s cn Hc). cbn [snd]. revert Hs. apply Held_same_lists; [done|].
  unfold link_part. rewrite (id_lists_insert c cn) by (done || by rewrite Hf). done.
Qed.

Lemma Held_master_eval j : job_ok D j -> preserves Held (master_eval j).
Proof.
  intros Hj. unfold master_eval. apply preserves_read. intros s Hs. rewrite exec_bind.
  assert (Held (exec (assertM F_master (negb (isMaster s))) s)) as (live & Hv & Hc).
  { revert Hs. apply run_preserves. destruct (negb _); apply keeps_Held; by apply keeps_modify || apply keeps_skip. }
  rewrite exec_modify. exists live. split; [done|]. destruct Hc. split; try done. cbn in *. by apply Forall_app_2; [|constructor].
Qed.

End leaves.

(** Operations that change none of it. *)
Ltac held_keep :=
  lazymatch goal with
  | |- keeps _ (modify _) => apply keeps_modify; intros; reflexivity
  | |- keeps _ (with_msg _) => apply keeps_with_msg; intros; reflexivity
  | |- keeps _ (readData _) => apply keeps_with_msg; intros; reflexivity
  | |- keeps _ (readAncillaryData _) => apply keeps_with_msg; intros; reflexivity
  | |- keeps _ (writeAncillaryData _) => apply keeps_with_msg; intros; reflexivity
  | |- keeps _ (prepareResponse _) => apply keeps_with_msg; intros; reflexivity
  | |- keeps _ (prepareResponse_force _) => apply keeps_with_msg; intros; reflexivity
  | |- keeps _ (prepareResponse_data _ _ _) => apply keeps_with_msg; intros; reflexivity
  | |- keeps _ deferResponse => apply keeps_modify; intros; reflexivity
  | |- keeps _ (setGetOffset _) => apply keeps_modify; intros; reflexivity
  | |- keeps _ (emit _) => apply keeps_modify; intros; reflexivity
  | |- keeps _ (sendPulse _ _ _) => apply keeps_modify; intros; reflexivity
  | |- keeps _ (fault _) => apply keeps_modify; intros; reflexivity
  | |- keeps _ (pool_update _ _) => apply keeps_modify; intros; reflexivity
  | |- keeps _ ?m => let h := head_of m in unfold h; preserve; held_keep
  end.

(** A job of a request or of nobody. *)
Ltac job_fits := split; [intros ? [=]; subst; assumption | first [exact I | discriminate]].

#[export] Hint Resolve Held_get_conn : preserve.
#[export] Hint Extern 3 (preserves (Held _ _ _ _) (upd_data _ _)) =>
  (apply Held_upd_data; [intros; reflexivity | assumption]) : preserve.
#[export] Hint Extern 3 (preserves (Held _ _ _ _) (upd_conn _ _)) =>
  (apply Held_upd_conn; [intros; reflexivity | assumption]) : preserve.
#[export] Hint Extern 3 (preserves (Held _ _ _ _) (master_eval _)) =>
  (apply Held_master_eval; job_fits) : preserve.
#[export] Hint Extern 5 (preserves (Held _ _ _ _) _) => (apply keeps_Held; held_keep) : preserve.

(** ** Notifications *)

Section notifications.
Context `{Env} (x : option Z) (D : gset Z) (Cl : list Z).

Section any.
Context (V : (nlist -> NotificationList) -> list Key -> Prop).
Abbreviation Held := (Held x D Cl V).

Lemma Held_createClearNotificationJob id : preserves Held (createClearNotificationJob id).
Proof. unfold createClearNotificationJob. preserve. Qed.

#[local] Hint Resolve Held_createClearNotificationJob : preserve.

Lemma Held_pool_detach pos : preserves Held (pool_detach pos).
Proof. unfold pool_detach. preserve. Qed.

#[local] Hint Resolve Held_pool_detach : preserve.

Lemma Held_detach_channel fd : preserves Held (detach_channel fd).
Proof. unfold detach_channel. preserve. Qed.

#[local] Hint Resolve Held_detach_channel : preserve.

(** A notification without a host. *)
Lemma Held_destroy n : n_host n = None -> preserves Held (destroy n).
Proof. intros Hn. unfold destroy. rewrite Hn. preserve. Qed.

Lemma Held_send n : preserves Held (send n).
Proof. unfold send, doConnect, attach_channel. preserve. Qed.

Lemma Held_copy n : preserves Held (copy_Notification n).
Proof. unfold copy_Notification. preserve. Qed.

Lemma Held_connect cn p n : preserves Held (connect cn p n).
Proof. unfold connect, doConnect, attach_channel. preserve. Qed.

End any.

#[local] Hint Resolve Held_createClearNotificationJob Held_pool_detach Held_detach_channel : preserve.

Lemma id_lists_upd_data c f cn s :
  sb_conns s !! c = Some cn ->
  id_lists (exec (upd_data c f) s) = <[c := cd_mNotificationList (f (cn_mData cn))]> (id_lists s).
Proof.
  intros Hc. unfold exec. rewrite (run_upd_data c f s cn Hc). cbn [snd]. unfold id_lists. cbn.
  by rewrite fmap_insert.
Qed.

Lemma link_part_upd_data c f cn s :
  sb_conns s !! c = Some cn ->
  link_part (exec (upd_data c f) s) =
    (filter (fun k => link_fault k = true) (sb_faults s),
     <[c := cd_mNotificationList (f (cn_mData cn))]> (id_lists s), sb_sNextNotificationID s, sb_mQueue s, sb_mClients s).
Proof.
  intros Hc. rewrite <- (id_lists_upd_data c f cn s Hc). unfold exec. by rewrite (run_upd_data c f s cn Hc).
Qed.

Lemma sb_lists_upd_data c f s : sb_lists (exec (upd_data c f) s) = sb_lists s.
Proof. unfold upd_data. rewrite exec_getS. destruct (sb_conns s !! c); [by rewrite exec_modify|by unfold fault; rewrite exec_modify]. Qed.

Lemma dom_insert_in (hs : gmap Z (list Z)) c l l' : hs !! c = Some l -> dom (<[c := l']> hs) = dom hs.
Proof. intros Hc. rewrite dom_insert_L. apply elem_of_dom_2 in Hc. set_solver. Qed.

Lemma id_lists_lookup c l s :
  id_lists s !! c = Some l -> exists cn, sb_conns s !! c = Some cn /\ cd_mNotificationList (cn_mData cn) = l.
Proof.
  unfold id_lists. rewrite lookup_fmap. destruct (sb_conns s !! c) as [cn|]; [|done]. intros [= <-]. by exists cn.
Qed.

(** The destructor takes the id out of the host's list. *)
Lemma Viewing_destroy L n live :
  triple (Viewing x D Cl L (key n :: live)) (destroy n) (fun _ => Viewing x D Cl L live).
Proof.
  unfold destroy. eapply (triple_bind _ _ _ (fun _ => Viewing x D Cl L (key n :: live))); [apply triple_preserves; preserve|].
  intros ?. eapply (triple_bind _ _ _ (fun _ => Viewing x D Cl L live)); [|intros ?; apply triple_preserves; preserve].
  intros s (live' & [HL ->] & Hc). destruct (n_host n) as [c|] eqn:Hh.
  - destruct (lk_host _ _ _ _ (co_linked _ _ _ _ _ Hc) (n_notificationID n) c) as (l & Hl & _).
    { unfold key. rewrite Hh. left. }
    cbn in Hl. destruct (id_lists_lookup c l s Hl) as (cn & Hcn & Hlist). exists live.
    rewrite sb_lists_upd_data, (link_part_upd_data c _ cn s Hcn). split; [done|].
    cbn. rewrite Hlist. destruct Hc. cbn in *. split; cbn; try done.
    + by rewrite (dom_insert_in _ c l).
    + by apply (linked_on_gone x _ _ (key n) live c l).
  - exists live. split; [done|]. destruct Hc. split; try done. by apply (linked_on_cons _ _ _ (key n)).
Qed.

(** Sending does not change what matters. *)
Lemma key_doConnect n s : key (eval (doConnect n) s).2 = key n.
Proof. unfold doConnect. rewrite eval_bind. by destruct (_ <? 0). Qed.

Lemma key_send n s : key (eval (send n) s) = key n.
Proof.
  unfold send. rewrite eval_bind. destruct (n_coid n <? 0); rewrite !eval_bind; [|done].
  exact (key_doConnect n s).
Qed.

Lemma key_connect cn p n s : key (eval (connect cn p n) s).2 = key n.
Proof.
  unfold connect. destruct (negb (cn_mSlave cn)); [done|]. by rewrite key_doConnect.
Qed.

(** ** Walking a list *)

(** The key of what a step leaves, if anything. *)
Definition rest (r : option Notification) : list Key := match r with Some n => [key n] | None => [] end.

(** A step on [n] either keeps its key, which satisfies [R], or destroys it. *)
Definition stepping (R : Key -> Prop) (n : Notification) (m : M (option Notification)) : Prop :=
  forall L live, triple (Viewing x D Cl L (key n :: live)) m
    (fun r s => Viewing x D Cl L (rest r ++ live) s /\ forall n', r = Some n' -> key n' = key n /\ R (key n)).

Lemma stepping_destroy R n n' : key n' = key n -> stepping R n (destroy n';; mret None).
Proof.
  intros Hk L live. eapply (triple_bind _ _ _ (fun _ => Viewing x D Cl L live)); [rewrite <- Hk; apply Viewing_destroy|].
  intros ? s Hs. by split.
Qed.

Lemma stepping_keep (R : Key -> Prop) n n' : key n' = key n -> R (key n) -> stepping R n (keep n').
Proof. intros Hk HR L live s Hs. unfold keep, exec, eval. cbn. rewrite Hk. split; [done|]. by intros ? [= <-]. Qed.

Lemma stepping_send R n (k : Notification -> M (option Notification)) :
  (forall n', key n' = key n -> stepping R n (k n')) -> stepping R n (n' ← send n; k n').
Proof.
  intros Hk L live s Hs. rewrite eval_bind, exec_bind. apply (Hk _ (key_send n s)).
  revert Hs. apply run_preserves, Held_send.
Qed.

Lemma stepping_send_erase R n : stepping R n (send_erase n).
Proof. apply stepping_send. intros n' Hk. by apply stepping_destroy. Qed.

Lemma stepping_send_keep (R : Key -> Prop) n : R (key n) -> stepping R n (send_keep n).
Proof. intros HR. apply stepping_send. intros n' Hk. by apply stepping_keep. Qed.

Lemma stepping_erase R n : stepping R n (erase n).
Proof. by apply stepping_destroy. Qed.

Lemma stepping_read R n (k : SB -> M (option Notification)) :
  (forall s, stepping R n (k s)) -> stepping R n (s ← getS; k s).
Proof. intros Hk L live. apply triple_read. intros s _. apply Hk. Qed.

Lemma walk_links R body L l : (forall n, stepping R n (body n)) -> forall live,
  triple (Viewing x D Cl L ((key <$> l) ++ live)) (walk body l)
    (fun l' s => Viewing x D Cl L ((key <$> l') ++ live) s /\
       forall p, p ∈ key <$> l' -> p ∈ key <$> l /\ R p).
Proof.
  intros Hb. induction l as [|n l IH]; intros live; cbn [walk].
  { intros s Hs. split; [done|]. by intros p Hp%elem_of_nil. }
  intros s Hs. rewrite eval_bind, exec_bind. destruct (Hb n L (fmap (M := list) key l ++ live) s Hs) as [Hv Hr].
  clear Hs.
  revert Hv Hr. generalize (exec (body n) s) (eval (body n) s). clear s. intros s r Hv Hr.
  rewrite eval_bind, exec_bind.
  assert (Viewing x D Cl L ((key <$> l) ++ rest r ++ live) s) as Hv'.
  { destruct Hv as (live' & [HL ->] & Hc). eexists. split; [by split|]. destruct Hc. split; try done.
    eapply linked_on_perm; [|done]. solve_Permutation. }
  destruct (IH _ s Hv') as [Hw Hin]. revert Hw Hin.
  generalize (exec (walk body l) s) (eval (walk body l) s). clear s Hv Hv'. intros s l' Hw Hin.
  split.
  - rewrite exec_ret, eval_ret. destruct r as [n'|]; cbn [rest app fmap list_fmap] in *; [|done].
    destruct Hw as (live' & [HL ->] & Hc). eexists. split; [by split|]. destruct Hc. split; try done.
    eapply linked_on_perm; [|done]. solve_Permutation.
  - rewrite eval_ret. intros p Hp. rewrite fmap_cons. destruct r as [n'|].
    + destruct (Hr n' eq_refl) as [Hk HR]. rewrite fmap_cons in Hp. apply elem_of_cons in Hp as [->|Hp].
      * rewrite Hk. split; [by left|done].
      * destruct (Hin p Hp). split; [by right|done].
    + destruct (Hin p Hp). split; [by right|done].
Qed.

(** The list is written back. *)
Lemma Held_set k l W W' s :
  Viewing x D Cl (sb_lists s) ((key <$> l) ++ other_keys k (sb_lists s)) s ->
  (forall k' p, k' <> k -> p ∈ list_keys k' (sb_lists s) -> W k' p) ->
  (forall p, p ∈ key <$> l -> W' p) ->
  Linked x D Cl (fun k' p => (k' = k -> W' p) /\ (k' <> k -> W k' p)) (nl_set k l s).
Proof.
  intros (live & [_ ->] & Hc) HW HW'. eexists. split.
  - split; [reflexivity|]. intros k' p Hp. cbn in Hp. destruct (decide (k' = k)) as [->|Hne].
    + rewrite list_keys_insert in Hp. split; [by intros; apply HW'|done].
    + rewrite list_keys_insert_ne in Hp by done. split; [done|]. intros _. by apply HW.
  - destruct Hc. split; try done. cbn [sb_lists]. eapply linked_on_perm; [|done].
    cbn. rewrite (all_keys_split k (<[k:=_]> _)), list_keys_insert, other_keys_insert. done.
Qed.

Lemma Linked_mono W W' s : (forall k p, W k p -> W' k p) -> Linked x D Cl W s -> Linked x D Cl W' s.
Proof. intros Hw (live & [-> Hp] & Hc). eexists. split; [split; [reflexivity|]|exact Hc]. intros k p Hin. by apply Hw, Hp. Qed.

Lemma Viewing_start k W s : Linked x D Cl W s ->
  Viewing x D Cl (sb_lists s) (list_keys k (sb_lists s) ++ other_keys k (sb_lists s)) s.
Proof.
  intros (live & [-> _] & Hc). eexists. split; [by split|]. destruct Hc. split; try done.
  eapply linked_on_perm; [|done]. apply all_keys_split.
Qed.

(** After the loop what is left in the list satisfies [R]. *)
Lemma Linked_on_list_R (R : Key -> Prop) W k body :
  (forall n, stepping R n (body n)) ->
  triple (Linked x D Cl W) (on_list k body)
    (fun _ => Linked x D Cl (fun k' p => W k' p /\ (k' = k -> R p))).
Proof.
  intros Hb s Hs. unfold on_list. rewrite exec_getS, exec_bind, exec_modify.
  destruct (walk_links R body (sb_lists s) (nl_get k s) Hb _ s (Viewing_start k W s Hs)) as [Hv Hin].
  destruct Hs as (live & [-> HW] & _). revert Hv Hin.
  generalize (exec (walk body (nl_get k s)) s) (eval (walk body (nl_get k s)) s). intros s' l Hv Hin.
  assert (sb_lists s' = sb_lists s) as HL by by destruct Hv as (live & [HL _] & _).
  rewrite <- HL in Hv, HW. eapply Linked_mono, (Held_set k l W (fun p => W k p /\ R p) s' Hv).
  - cbn. intros k' p [H1 H2]. destruct (decide (k' = k)) as [->|Hne]; [|tauto]. by destruct (H1 eq_refl).
  - intros k' p _. apply HW.
  - intros p [Hp HR]%Hin. split; [|done]. apply HW. by rewrite HL.
Qed.

Lemma Linked_on_list W k body : (forall n, stepping (fun _ => True) n (body n)) -> preserves (Linked x D Cl W) (on_list k body).
Proof.
  intros Hb. apply preserves_triple. eapply triple_post; [by apply Linked_on_list_R|].
  intros ? s. apply Linked_mono. tauto.
Qed.

Lemma walk_first_links p body L l : (forall n, stepping (fun _ => True) n (body n)) -> forall live,
  triple (Viewing x D Cl L ((key <$> l) ++ live)) (walk_first p body l)
    (fun l' s => Viewing x D Cl L ((key <$> l') ++ live) s /\ forall q, q ∈ key <$> l' -> q ∈ key <$> l).
Proof.
  intros Hb. induction l as [|n l IH]; intros live; cbn [walk_first]; [by intros s Hs|].
  intros s Hs. destruct (p n).
  - rewrite eval_bind, exec_bind. destruct (Hb n L (fmap (M := list) key l ++ live) s Hs) as [Hv Hr].
    revert Hv Hr. generalize (exec (body n) s) (eval (body n) s). clear s Hs. intros s r Hv Hr.
    rewrite exec_ret, eval_ret. destruct r as [n'|]; [|split; [done|intros q Hq; by right]].
    destruct (Hr n' eq_refl) as [Hk _]. split; [done|]. intros q. by rewrite !fmap_cons, Hk.
  - rewrite eval_bind, exec_bind, exec_ret, eval_ret.
    assert (Viewing x D Cl L ((key <$> l) ++ key n :: live) s) as Hv.
    { destruct Hs as (live' & [HL ->] & Hc). eexists. split; [by split|]. destruct Hc. split; try done.
      eapply linked_on_perm; [|done]. rewrite fmap_cons. solve_Permutation. }
    destruct (IH _ s Hv) as [Hw Hin]. split.
    + destruct Hw as (live' & [HL ->] & Hc). eexists. split; [by split|]. destruct Hc. split; try done.
      eapply linked_on_perm; [|done]. rewrite fmap_cons. solve_Permutation.
    + intros q. rewrite !fmap_cons, !elem_of_cons. intros [?|?]; [by left|right; by apply Hin].
Qed.

(** After the loop what is left in the list satisfies [R]. *)
Lemma Linked_on_first_R (R : Key -> Prop) W k p body :
  (forall n, stepping (fun _ => True) n (body n)) ->
  (forall s q, NoDup (key <$> nl_get k s).*1 -> q ∈ key <$> eval (walk_first p body (nl_get k s)) s -> R q) ->
  triple (Linked x D Cl W) (on_first k p body) (fun _ => Linked x D Cl (fun k' q => W k' q /\ (k' = k -> R q))).
Proof.
  intros Hb HR s Hs. unfold on_first. rewrite exec_getS, exec_bind, exec_modify.
  pose proof (Viewing_start k W s Hs) as Hv0.
  destruct (walk_first_links p body (sb_lists s) (nl_get k s) Hb _ s Hv0) as [Hv Hin].
  specialize (HR s). destruct Hv0 as (live0 & [_ ->] & Hc0).
  assert (NoDup (key <$> nl_get k s).*1) as Hnd.
  { pose proof (lk_nodup _ _ _ _ (co_linked _ _ _ _ _ Hc0)) as Hnd. rewrite fmap_app in Hnd.
    by apply NoDup_app in Hnd as [Hnd _]. }
  specialize (fun q => HR q Hnd).
  destruct Hs as (live & [-> HW] & _). revert Hv Hin HR.
  generalize (exec (walk_first p body (nl_get k s)) s) (eval (walk_first p body (nl_get k s)) s). intros s' l Hv Hin HR.
  assert (sb_lists s' = sb_lists s) as HL by by destruct Hv as (live & [HL _] & _).
  rewrite <- HL in Hv, HW. eapply Linked_mono, (Held_set k l W (fun q => W k q /\ R q) s' Hv).
  - cbn. intros k' q [H1 H2]. destruct (decide (k' = k)) as [->|Hne]; [|tauto]. by destruct (H1 eq_refl).
  - intros k' q _. apply HW.
  - intros q Hq. split; [|by apply HR]. apply HW. unfold list_keys. rewrite HL. by apply Hin.
Qed.

Lemma Linked_on_first W k p body :
  (forall n, stepping (fun _ => True) n (body n)) -> preserves (Linked x D Cl W) (on_first k p body).
Proof.
  intros Hb. apply preserves_triple. eapply triple_post; [by apply (Linked_on_first_R (fun _ => True))|].
  intros ? s. apply Linked_mono. tauto.
Qed.

(** [remove(notificationid_t)]: the id is not in the list any more. *)
Lemma Linked_nl_remove W k id :
  triple (Linked x D Cl W) (nl_remove k id) (fun _ => Linked x D Cl (fun k' q => W k' q /\ (k' = k -> q.1 <> id))).
Proof.
  apply Linked_on_first_R; [intros n; apply stepping_erase|]. intros s q. generalize (nl_get k s). intros l.
  induction l as [|n l IH]; cbn [walk_first]; [by intros _ ?%elem_of_nil|].
  rewrite !fmap_cons, NoDup_cons. intros [Hn Hl]. destruct (Z.eqb_spec (n_notificationID n) id) as [<-|Hne].
  - assert (eval (erase n) s = None) as He by by unfold erase; rewrite eval_bind.
    rewrite eval_bind, He, eval_ret. intros Hq Heq. apply Hn. apply list_elem_of_fmap.
    exists q. by split.
  - rewrite eval_bind, eval_ret, fmap_cons, elem_of_cons. intros [->|Hq]; [done|]. by apply IH.
Qed.

(** A write to a notification in a list. *)
Lemma Linked_nl_update W k id f :
  (forall n, key (f n) = key n) -> preserves (Linked x D Cl W) (nl_update k id f).
Proof.
  intros Hf. apply preserves_modify. intros s Hs.
  assert (key <$> update_first (fun n => n_notificationID n =? id) f (nl_get k s) = key <$> nl_get k s) as Heq.
  { induction (nl_get k s) as [|n l IH]; cbn [update_first]; [done|]. destruct (_ =? id); rewrite !fmap_cons; [by rewrite Hf|by rewrite IH]. }
  pose proof (Viewing_start k W s Hs) as Hv. destruct Hs as (live & [-> HW] & _).
  unfold list_keys, nl_get in *. rewrite <- Heq in Hv.
  eapply Linked_mono, (Held_set k _ W (W k) s Hv); [|by intros; apply HW|].
  - cbn. intros k' q [H1 H2]. destruct (decide (k' = k)) as [->|Hne]; [by apply H1|by apply H2].
  - intros q. rewrite Heq. apply HW.
Qed.

End notifications.

#[export] Hint Resolve Held_createClearNotificationJob Held_pool_detach Held_detach_channel Held_send Held_copy
  Held_connect : preserve.
#[export] Hint Extern 3 (preserves (Held _ _ _ _) (destroy _)) => (apply Held_destroy; solve [auto]) : preserve.

(** ** The notification counter *)

(** The counter has reached its reserved value. *)
Definition spent (s : SB) : Prop := sb_exhausted s = true.
Definition Unless (P : SB -> Prop) (s : SB) : Prop := spent s \/ P s.

(** It stays so: walk through a computation, opening the operations on the way. *)
Ltac spend_step :=
  first
    [ preserve_step
    | lazymatch goal with
      | |- preserves spent (modify _) => apply preserves_modify; intros ? Hspent; first [exact Hspent | apply orb_true_r | unfold spent in *; cbn; rewrite Hspent; apply orb_true_r]
      | |- preserves spent ?m => let h := head_of m in unfold h
      end ].
Ltac spend := repeat spend_step.

Lemma triple_unless {A} (P : SB -> Prop) (Q : A -> SB -> Prop) (m : M A) :
  preserves spent m -> triple P m (fun a => Unless (Q a)) -> triple (Unless P) m (fun a => Unless (Q a)).
Proof. intros Hm Ht s [Hs|Hs]; [left; by apply Hm|by apply Ht]. Qed.

Lemma preserves_unless {A} (P : SB -> Prop) (m : M A) :
  preserves spent m -> preserves P m -> preserves (Unless P) m.
Proof. intros Hm Ht. split. intros s [Hs|Hs]; [left; by apply Hm|right; by apply Ht]. Qed.

Section spent.
Context `{Env}.

Lemma spent_destroy n : preserves spent (destroy n).
Proof. spend. Qed.

Lemma spent_send n : preserves spent (send n).
Proof. spend. Qed.

Lemma spent_construct : preserves spent construct.
Proof. spend. Qed.

#[local] Hint Resolve spent_destroy spent_send spent_construct : preserve.

Lemma spent_walk body l : (forall n, preserves spent (body n)) -> preserves spent (walk body l).
Proof. intros Hb. induction l; cbn [walk]; spend; auto. Qed.

Lemma spent_walk_first p body l : (forall n, preserves spent (body n)) -> preserves spent (walk_first p body l).
Proof. intros Hb. induction l; cbn [walk_first]; spend; auto. Qed.

Lemma spent_forward_loop cfg l b : preserves spent (forward_loop cfg l b).
Proof. revert b. induction l; intros b; cbn [forward_loop]; spend; auto. Qed.

End spent.

#[export] Hint Resolve spent_destroy spent_send spent_construct spent_forward_loop : preserve.

Ltac spends :=
  repeat first
    [ lazymatch goal with
      | |- preserves spent (walk _ _) => apply spent_walk; intros ?
      | |- preserves spent (walk_first _ _ _) => apply spent_walk_first; intros ?
      end
    | progress spend_step ].

Section spent_lists.
Context `{Env}.

Lemma spent_nl_add k c p f : preserves spent (nl_add k c p f).
Proof. spends. Qed.

Lemma spent_trigger_party k id : preserves spent (trigger_party k id).
Proof. spends. Qed.

Lemma spent_trigger_ifDescr k d g : preserves spent (trigger_ifDescr k d g).
Proof. spends. Qed.

Lemma spent_forward : preserves spent forwardServerAvailableNotifications.
Proof. spends. Qed.

Lemma spent_bind_disconnect_pool id i : preserves spent (bind_disconnect_pool id i).
Proof. spends. Qed.

Lemma spent_register_loop cfg l d : preserves spent (register_loop cfg l d).
Proof. revert d. induction l; intros d; cbn [register_loop]; spend; auto. Qed.

#[local] Hint Resolve spent_register_loop spent_nl_add spent_trigger_party spent_trigger_ifDescr spent_forward
  spent_bind_disconnect_pool : preserve.

Lemma spent_registerInterfacesMaster : preserves spent registerInterfacesMaster.
Proof. spends. Qed.

Lemma spent_addInterface c d pid chid b g : preserves spent (addInterface c d pid chid b g).
Proof. spends. Qed.

#[local] Hint Resolve spent_registerInterfacesMaster spent_addInterface : preserve.

Lemma spent_registerEx_loop fuel k c arg items : preserves spent (registerEx_loop fuel k c arg items).
Proof. revert k. induction fuel; intros k; cbn [registerEx_loop]; spends; auto. Qed.

Lemma spent_registerMaster_loop fuel k c items : preserves spent (registerMaster_loop fuel k c items).
Proof. revert k. induction fuel; intros k; cbn [registerMaster_loop]; spends; auto. Qed.

Lemma spent_notifyAvailableEx_loop fuel k c items : preserves spent (notifyAvailableEx_loop fuel k c items).
Proof. revert k. induction fuel; intros k; cbn [notifyAvailableEx_loop]; spends; auto. Qed.

Lemma spent_match_loop cn re n l r : preserves spent (match_loop cn re n l r).
Proof. revert r. induction l; intros r; cbn [match_loop]; spends; auto. Qed.

#[local] Hint Resolve spent_registerEx_loop spent_registerMaster_loop spent_notifyAvailableEx_loop
  spent_match_loop : preserve.

Lemma spent_run_handler c r : preserves spent (run_handler c r).
Proof. destruct r; cbn [run_handler]; spends. Qed.

Lemma spent_handleJobFinished j : preserves spent (handleJobFinished j).
Proof. spends. Qed.

Lemma spent_close_client c : preserves spent (close_client c).
Proof. spends. Qed.

#[local] Hint Resolve spent_run_handler spent_handleJobFinished spent_close_client : preserve.

Lemma spent_run ev : preserves spent (run ev).
Proof. destruct ev; cbn [run]; spends. Qed.

End spent_lists.

#[export] Hint Resolve spent_nl_add spent_trigger_party spent_trigger_ifDescr spent_forward
  spent_bind_disconnect_pool spent_register_loop spent_registerInterfacesMaster spent_addInterface
  spent_registerEx_loop spent_registerMaster_loop spent_notifyAvailableEx_loop spent_match_loop
  spent_run_handler spent_close_client : preserve.

(** ** New notifications *)

(** A notification that is in no list yet. *)
Definition built (i : Z) (f : nlist -> NotificationList) (live : list Key) : Prop := live = (i, None) :: all_keys f.

(** The notification [i] is in list [k], hosted by [c] or by nobody. *)
Definition hung (i c : Z) (k : nlist) (f : nlist -> NotificationList) (live : list Key) : Prop :=
  live = all_keys f /\ (forall c', (i, Some c') ∈ live -> c' = c) /\
  exists n, n ∈ nl_mList (f k) /\ n_notificationID n = i.

Abbreviation All D Cl := (Linked None D Cl anything).

Section adding.
Context `{Env} (D : gset Z) (Cl : list Z).
Abbreviation Built i := (Held None D Cl (built i)).
Abbreviation Hung i c k := (Held (Some i) D Cl (hung i c k)).

Lemma Linked_construct :
  triple (All D Cl) construct (fun n s => n_host n = None /\ Unless (Built (n_notificationID n)) s).
Proof.
  intros s (live & [-> _] & Hc). split; [done|]. destruct Hc as [H1 H2 [H3 H4 H5] H6 H7 H8]. cbn in H1, H2, H4, H5, H6, H7, H8.
  destruct (Z.leb_spec (u32 (-1)) (sb_sNextNotificationID s + 1)) as [Hmax|Hmax].
  { left. unfold spent, construct. rewrite exec_bind, exec_modify. cbn -[u32 Z.leb Z.add].
    by rewrite (proj2 (Z.leb_le _ _) Hmax). }
  right. assert (u32 (sb_sNextNotificationID s + 1) = sb_sNextNotificationID s + 1) as Hwrap.
  { apply u32_id. unfold is_u32. assert (u32 (-1) = 2 ^ 32 - 1) by done. lia. }
  set (i := n_notificationID _). assert (i = sb_sNextNotificationID s + 1) as Hi by exact Hwrap. clearbody i. subst i.
  unfold construct. rewrite exec_bind, exec_modify. eexists. split; [reflexivity|].
  assert (forall p, p ∈ all_keys (sb_lists s) -> p.1 < sb_sNextNotificationID s + 1) as Hold by (intros p Hp%H4; lia).
  rewrite exec_getS, exec_ret. split; cbn -[u32]; rewrite ?Hwrap; try done; [|lia]. split.
  - rewrite fmap_cons, NoDup_cons. split; [|done]. intros (p & Hp & Hin%Hold)%list_elem_of_fmap. cbn in Hp. lia.
  - intros p [->|Hin%Hold]%elem_of_cons; cbn; lia.
  - intros i c [[=]|Hin]%elem_of_cons. by apply H5.
Qed.

(** One more notification in the list. *)
Lemma Linked_push_front k c n :
  c ∈ D -> n_host n = None \/ n_host n = Some c ->
  triple (Built (n_notificationID n)) (push_front k n) (fun _ => Hung (n_notificationID n) c k).
Proof.
  intros Hin Hn s Hs. unfold push_front. rewrite exec_bind. unfold copy_Notification.
  rewrite exec_bind, exec_modify, exec_ret, eval_bind, eval_ret. cbv zeta beta iota.
  rewrite exec_bind, exec_modify. apply run_preserves; [by apply Held_destroy|].
  destruct Hs as (live & -> & Hc). set (s' := nl_bump k 1 _).
  assert (list_keys k (sb_lists s') = key n :: list_keys k (sb_lists s)) as Hk
    by (unfold s', list_keys; cbn; by rewrite !fn_lookup_insert).
  assert (other_keys k (sb_lists s') = other_keys k (sb_lists s)) as Ho by (unfold s'; cbn; by rewrite !other_keys_insert).
  assert (all_keys (sb_lists s') ≡ₚ key n :: all_keys (sb_lists s)) as Hall
    by (rewrite !(all_keys_split k), Hk, Ho; done).
  assert (exists n', n' ∈ nl_mList (sb_lists s' k) /\ n_notificationID n' = n_notificationID n) as Hn'
    by (exists n; unfold s'; cbn; rewrite !fn_lookup_insert; split; [by left|done]).
  assert (link_part s' = link_part s) as Hp by done. clearbody s'. rewrite <- Hp in Hc.
  destruct Hc as [H1 H2 [H3 H4 H5] H6 H7 H8]. rewrite fmap_cons in H3. cbn [fst] in H3.
  eexists. split; [split; [reflexivity|]; split; [|exact Hn']|].
  - intros c'. rewrite Hall, elem_of_cons. intros [Heq|Hc'].
    + unfold key in Heq. destruct Hn as [Hn|Hn]; rewrite Hn in Heq; congruence.
    + apply NoDup_cons in H3 as [Hno _]. destruct Hno. apply list_elem_of_fmap. by exists (n_notificationID n, Some c').
  - split; try done. split.
    + by rewrite Hall, fmap_cons.
    + intros p. rewrite Hall, elem_of_cons. intros [->|Hp']; [apply (H4 (n_notificationID n, None)); by left|].
      apply H4. by right.
    + intros i c'. rewrite Hall, elem_of_cons. intros [Heq|Hc'].
      * assert (c' = c) as -> by (unfold key in Heq; destruct Hn as [Hn|Hn]; rewrite Hn in Heq; congruence).
        rewrite <- H2 in Hin. apply elem_of_dom in Hin as [l Hl]. exists l. split; [done|]. left.
        unfold key in Heq. congruence.
      * destruct (H5 i c') as (l & Hl & Hi); [by right|]. exists l. split; [done|]. right. by destruct Hi.
Qed.

(** The id enters the list of the host. *)
Lemma Linked_addNotification i c k :
  c ∈ D -> triple (Hung i c k) (upd_data c (cd_addNotification i)) (fun _ => All D Cl).
Proof.
  intros Hin s Hs. destruct (Held_live _ D Cl _ c s Hs Hin) as [cn Hcn].
  destruct Hs as (live & (-> & Hone & _) & Hc). exists (all_keys (sb_lists s)). split; [by rewrite sb_lists_upd_data|].
  rewrite (link_part_upd_data c _ cn s Hcn). destruct Hc as [H1 H2 [H3 H4 H5] H6 H7 H8]. cbn in H1, H2, H4, H5, H6, H7, H8.
  assert (id_lists s !! c = Some (cd_mNotificationList (cn_mData cn))) as Hl
    by (unfold id_lists; by rewrite lookup_fmap, Hcn).
  split; cbn; try done; [by rewrite (dom_insert_in _ c _ _ Hl)|]. split; [done..|].
  intros j c' Hj. destruct (H5 j c' Hj) as (l & Hl' & Hi). destruct (decide (c' = c)) as [->|Hne].
  - rewrite lookup_insert_eq. eexists. split; [done|]. right. apply elem_of_app. assert (l = cd_mNotificationList (cn_mData cn)) as -> by congruence.
    destruct Hi as [[= <-]|Hi]; [right; by left|by left].
  - rewrite lookup_insert_ne by done. exists l. split; [done|]. right.
    destruct Hi as [[= <-]|Hi]; [by destruct Hne; apply Hone|done].
Qed.

(** What an [add] function returns: the id of the new notification, or none was added. *)
Definition Added (c : Z) (k : nlist) (i : Z) (s : SB) : Prop :=
  i = INVALID_NOTIFICATION_ID /\ All D Cl s \/ i <> INVALID_NOTIFICATION_ID /\ Hung i c k s.

Lemma triple_pure {A} (C : Prop) (P : SB -> Prop) (m : M A) (Q : A -> SB -> Prop) :
  (C -> triple P m Q) -> triple (fun s => C /\ P s) m Q.
Proof. intros Hm s [HC Hs]. by apply Hm. Qed.

Lemma Built_destroy i n : n_host n = None -> triple (Built i) (destroy n) (fun _ => All D Cl).
Proof.
  intros Hn s Hs. apply (run_preserves _ _ (Held_destroy None D Cl (built i) n Hn)) in Hs.
  destruct Hs as (live & -> & Hc). eexists. split; [split; [reflexivity|done]|].
  destruct Hc. split; try done. by apply (linked_on_cons _ _ _ (i, None)).
Qed.

Lemma Hung_valid i c k s : Hung i c k s -> i <> INVALID_NOTIFICATION_ID.
Proof.
  intros (live & (-> & _ & n & Hin & <-) & [_ _ [_ Hold _] Hnext _ _]).
  assert (key n ∈ all_keys (sb_lists s)) as Hk.
  { rewrite (all_keys_split k). apply elem_of_app. left. unfold list_keys. apply list_elem_of_fmap. by exists n. }
  apply Hold in Hk. change INVALID_NOTIFICATION_ID with (u32 (-1)). unfold key in Hk. cbn [fst] in Hk. lia.
Qed.

(** Connecting and pushing a new notification, after [setup]. *)
Lemma Linked_connect_push k c cn pulse n setup :
  c ∈ D -> n_host n = None ->
  (forall n, n_notificationID (setup n) = n_notificationID n) ->
  (forall n, n_host n = None -> n_host (setup n) = None \/ n_host (setup n) = Some c) ->
  triple (Built (n_notificationID n))
    (r ← connect cn pulse n; let '(ok, n) := (r : bool * Notification) in
     if ok then push_front k (setup n);; mret (n_notificationID n)
     else destroy n;; mret INVALID_NOTIFICATION_ID)
    (fun id => Unless (Added c k id)).
Proof.
  intros Hin Hn Hid Hhost.
  eapply (triple_bind _ _ _ (fun r s => key r.2 = key n /\ Built (n_notificationID n) s)).
  { intros s Hs. split; [apply key_connect|]. revert Hs. apply run_preserves. preserve. }
  intros [ok n']. cbn [snd]. apply triple_pure. intros [= Hid' Hh]. rewrite Hn in Hh. destruct ok.
  - eapply (triple_bind _ _ _ (fun _ => Hung (n_notificationID n) c k)).
    + rewrite <- Hid', <- Hid. apply Linked_push_front; [done|by apply Hhost].
    + intros ? s Hs. right. right. rewrite eval_ret, Hid'. split; [by eapply Hung_valid|done].
  - eapply (triple_bind _ _ _ (fun _ => All D Cl)); [by apply Built_destroy|]. intros ? s Hs. right. left. done.
Qed.

Lemma Linked_nl_add k c pulse setup :
  c ∈ D ->
  (forall n, n_notificationID (setup n) = n_notificationID n) ->
  (forall n, n_host n = None -> n_host (setup n) = None \/ n_host (setup n) = Some c) ->
  triple (All D Cl) (nl_add k c pulse setup) (fun id => Unless (Added c k id)).
Proof.
  intros Hin Hid Hhost. unfold nl_add. eapply triple_bind; [apply Linked_construct|]. intros n. cbv beta.
  apply triple_pure. intros Hn. apply triple_unless; [spends|].
  eapply triple_bind; [apply triple_preserves; by apply Held_get_conn|]. intros cn. by apply Linked_connect_push.
Qed.

Lemma Linked_add_regExpr k re c pulse :
  c ∈ D -> triple (All D Cl) (add_regExpr k re c pulse) (fun id => Unless (Added c k id)).
Proof.
  intros Hin. unfold add_regExpr. eapply triple_bind; [apply Linked_construct|]. intros n. cbv beta.
  apply triple_pure. intros Hn. apply triple_unless; [spends|].
  unfold setRegExp. destruct (env_regcomp re =? 0).
  - eapply triple_bind; [apply triple_preserves; by apply Held_get_conn|]. intros cn.
    set (n' := n <| n_regExpr := Some re |>).
    exact (Linked_connect_push k c cn pulse n' (fun n => n) Hin Hn ltac:(done) ltac:(by left)).
  - eapply (triple_bind _ _ _ (fun _ => All D Cl)); [by apply Built_destroy|]. intros ? s Hs. right. left. done.
Qed.

(** The common beginning of the handlers that set a notification. *)
Lemma triple_added {A} (m : M Z) (k : nlist) c (body : Z -> M A) (Q : A -> SB -> Prop) :
  triple (All D Cl) m (fun id => Unless (Added c k id)) ->
  (forall id, preserves spent (body id)) ->
  triple (All D Cl) (body INVALID_NOTIFICATION_ID) (fun a => Unless (Q a)) ->
  (forall id, id <> INVALID_NOTIFICATION_ID -> triple (Hung id c k) (body id) (fun a => Unless (Q a))) ->
  triple (All D Cl) (id ← m; body id) (fun a => Unless (Q a)).
Proof.
  intros Hm Hs Hno Hyes. eapply triple_bind; [exact Hm|]. intros id. cbv beta. apply triple_unless; [done|].
  intros s [[-> Hl]|[Hne Hl]]; [by apply Hno|by apply Hyes].
Qed.

End adding.

(** ** Operations on the lists *)

(** Walk through the body of a loop. *)
Ltac steps :=
  repeat (cbv beta;
    lazymatch goal with
    | |- stepping _ _ _ _ _ (s ← getS; _) => apply stepping_read; intros ?
    | |- stepping _ _ _ _ _ (match ?b with _ => _ end) => destruct b
    | |- stepping _ _ _ _ _ (send_erase _) => apply stepping_send_erase
    | |- stepping _ _ _ _ _ (erase _) => apply stepping_erase
    | |- stepping _ _ _ _ _ (send_keep _) => by apply stepping_send_keep
    | |- stepping _ _ _ _ _ (keep _) => apply stepping_keep; [reflexivity | exact I]
    end).
Ltac linked_list := first [apply Linked_on_list | apply Linked_on_first]; intros ?; steps.

Section lists.
Context `{Env} (x : option Z) (D : gset Z) (Cl : list Z) (W : nlist -> Key -> Prop).
Notation Linked := (Linked x D Cl W).

Lemma Linked_trigger_party k id : preserves Linked (trigger_party k id).
Proof. linked_list. Qed.

Lemma Linked_trigger_ifDescr k d g : preserves Linked (trigger_ifDescr k d g).
Proof. linked_list. Qed.

Lemma Linked_trigger_id k id b : preserves Linked (trigger_id k id b).
Proof. linked_list. Qed.

Lemma Linked_triggerPool k id : preserves Linked (triggerPool k id).
Proof. linked_list. Qed.

Lemma Linked_trigger_ids k l : preserves Linked (trigger_ids k l).
Proof. linked_list. Qed.

Lemma Linked_triggerAll k : preserves Linked (triggerAll k).
Proof. linked_list. Qed.

Lemma Linked_triggerAll_ifDescr k d : preserves Linked (triggerAll_ifDescr k d).
Proof. linked_list. Qed.

Lemma Linked_triggerNotLocal k e : preserves Linked (triggerNotLocal k e).
Proof. linked_list. Qed.

Lemma Linked_trigger_unknown_servers : preserves Linked trigger_unknown_servers.
Proof. linked_list. Qed.

Lemma Linked_clearMasterNotification k : preserves Linked (clearMasterNotification k).
Proof. linked_list; by destruct n. Qed.

(** The forwarding loop writes pool ids only. *)
Lemma key_forward_loop cfg l : forall b s, key <$> (eval (forward_loop cfg l b) s).1 = key <$> l.
Proof.
  induction l as [|n l IH]; intros b s; cbn [forward_loop]; [done|].
  destruct (_ && _); rewrite eval_bind; [|by rewrite eval_ret; cbn [fst]; rewrite !fmap_cons, IH].
  rewrite eval_bind. destruct (eval (if _ =? -1 then _ else _) _) as [pos b'].
  rewrite !eval_bind, eval_ret. cbn [fst]. by rewrite !fmap_cons, IH.
Qed.

Lemma Held_forward_loop V cfg l b : preserves (Held x D Cl V) (forward_loop cfg l b).
Proof.
  revert b. induction l; intros b; cbn [forward_loop]; preserve; auto.
  unfold forward_new_pool, send_notifications. preserve.
Qed.

Lemma Linked_forward : preserves Linked forwardServerAvailableNotifications.
Proof.
  unfold forwardServerAvailableNotifications. apply preserves_read. intros s Hs.
  destruct (isMasterConnected s); [|done]. rewrite exec_bind. set (k := mServerConnectNotifications).
  assert (key <$> (eval (forward_loop (sb_mConfig s) (nl_get k s) []) s).1 = key <$> nl_get k s) as Hk by apply key_forward_loop.
  pose proof (run_preserves _ _ (Held_forward_loop (seen (sb_lists s) (list_keys k (sb_lists s) ++ other_keys k (sb_lists s)))
    (sb_mConfig s) (nl_get k s) []) s (Viewing_start _ _ _ k W s Hs)) as Hv.
  destruct Hs as (live & [-> HW] & _). revert Hk Hv.
  generalize (exec (forward_loop (sb_mConfig s) (nl_get k s) []) s) (eval (forward_loop (sb_mConfig s) (nl_get k s) []) s).
  intros s' r Hk Hv. assert (sb_lists s' = sb_lists s) as HL by by destruct Hv as (live & [HL _] & _).
  rewrite exec_bind, exec_modify. unfold send_notifications. apply (run_preserves Linked); [preserve|].
  unfold list_keys in Hv at 1. change (nl_mList (sb_lists s k)) with (nl_get k s) in Hv. rewrite <- Hk, <- HL in Hv. rewrite <- HL in HW.
  eapply Linked_mono, (Held_set _ _ _ k _ W (W k) s' Hv); [|by intros; apply HW|].
  - cbn. intros k' q [H1 H2]. destruct (decide (k' = k)) as [->|Hne]; [by apply H1|by apply H2].
  - intros q. rewrite Hk. intros Hq. apply HW. unfold list_keys. by rewrite HL.
Qed.

End lists.

#[export] Hint Resolve Linked_trigger_party Linked_trigger_ifDescr Linked_trigger_id Linked_triggerPool
  Linked_trigger_ids Linked_triggerAll Linked_triggerAll_ifDescr Linked_triggerNotLocal
  Linked_trigger_unknown_servers Linked_clearMasterNotification Linked_forward : preserve.

Section removing.
Context `{Env} (D : gset Z) (Cl : list Z) (W : nlist -> Key -> Prop).

(** [remove(const NotificationIDList&)]: no notification of the list is hosted by [c] any more. *)
Lemma Linked_nl_remove_ids k c :
  c ∈ D ->
  triple (Linked None D Cl W) (nl_remove_ids k c)
    (fun _ => Linked None D Cl (fun k' p => W k' p /\ (k' = k -> p.2 <> Some c))).
Proof.
  intros Hin. apply (Linked_on_list_R None D Cl (fun p => p.2 <> Some c)). intros n L live s Hs.
  destruct (Held_live _ D Cl _ c s Hs Hin) as [cn Hcn].
  unfold exec, eval. rewrite (run_bind _ _ _ _ _ (run_get_conn c s cn Hcn)).
  destruct (cd_notificationExists _ _) eqn:Hex;
    [exact (stepping_erase None D Cl (fun p => p.2 <> Some c) n L live s Hs)|].
  apply bool_decide_eq_false in Hex. apply (stepping_keep None D Cl (fun p => p.2 <> Some c) n n); [done| |done].
  destruct Hs as (live' & [_ ->] & Hc). intros Hh. cbn in Hh.
  destruct (lk_host _ _ _ _ (co_linked _ _ _ _ _ Hc) (n_notificationID n) c) as (l & Hl & [[=]|Hi]).
  { unfold key. rewrite Hh. left. }
  destruct (id_lists_lookup c l s Hl) as (cn' & Hcn' & <-). congruence.
Qed.

Lemma nl_remove_Linked x k id : preserves (Linked x D Cl W) (nl_remove k id).
Proof.
  apply preserves_triple. eapply triple_post; [apply Linked_nl_remove|]. intros ? s. apply Linked_mono. tauto.
Qed.

End removing.

#[export] Hint Resolve nl_remove_Linked : preserve.
#[export] Hint Extern 3 (preserves (Held _ _ _ (within _)) (nl_update _ _ _)) =>
  (apply Linked_nl_update; intros; reflexivity) : preserve.

(** ** Requests *)

Section requests.
Context `{Env} (x : option Z) (D : gset Z) (Cl : list Z) (W : nlist -> Key -> Prop).
Notation Linked := (Linked x D Cl W).

Lemma Linked_send_registrations l : preserves Linked (send_registrations l).
Proof. unfold send_registrations. preserve. Qed.

#[local] Hint Resolve Linked_send_registrations : preserve.

Lemma Linked_register_loop cfg l b : preserves Linked (register_loop cfg l b).
Proof. revert b. induction l; intros b; cbn [register_loop]; preserve; auto. Qed.

#[local] Hint Resolve Linked_register_loop : preserve.

Lemma Linked_registerInterfacesMaster : preserves Linked registerInterfacesMaster.
Proof. unfold registerInterfacesMaster. preserve. Qed.

Lemma Linked_unregisterInterfaceMaster id : preserves Linked (unregisterInterfaceMaster id).
Proof. unfold unregisterInterfaceMaster. preserve. Qed.

#[local] Hint Resolve Linked_registerInterfacesMaster Linked_unregisterInterfaceMaster : preserve.

Lemma Linked_addInterface c d pid chid b g : c ∈ D -> preserves Linked (addInterface c d pid chid b g).
Proof. intros Hin. unfold addInterface, construct_ServerListEntry. preserve. Qed.

#[local] Hint Resolve Linked_addInterface : preserve.

Lemma Linked_registerEx_loop fuel k c arg items : c ∈ D -> preserves Linked (registerEx_loop fuel k c arg items).
Proof. intros Hin. revert k. induction fuel; intros k; cbn [registerEx_loop]; preserve; auto. Qed.

Lemma Linked_registerMaster_loop fuel k c items : c ∈ D -> preserves Linked (registerMaster_loop fuel k c items).
Proof.
  intros Hin. revert k. induction fuel; intros k; cbn [registerMaster_loop]; preserve; auto.
  unfold registerMaster_one, construct_ServerListEntry. preserve.
Qed.

Lemma Linked_addClient old c id : c ∈ D -> preserves Linked (addClient old c id).
Proof. intros Hin. unfold addClient. preserve. Qed.

#[local] Hint Resolve Linked_registerEx_loop Linked_registerMaster_loop Linked_addClient : preserve.

Lemma Linked_handleAttachLocalInterface c e : c ∈ D -> preserves Linked (handleAttachLocalInterface c e).
Proof. intros Hin. unfold handleAttachLocalInterface. preserve. Qed.

Lemma Linked_match_loop cn re n l r : preserves Linked (match_loop cn re n l r).
Proof. revert r. induction l; intros r; cbn [match_loop]; preserve; auto. Qed.

#[local] Hint Resolve Linked_handleAttachLocalInterface Linked_match_loop : preserve.

(** The requests that set no notification. *)
Definition sets_notification (r : Request) : bool :=
  match r with
  | RQ_AttachExtended _ _ | RQ_NotifyServerDisconnect _ _ | RQ_NotifyServerAvailable _ _
  | RQ_NotifyServerAvailableEx _ _ | RQ_NotifyClientDetach _ _ | RQ_ClearNotification _
  | RQ_NotifyInterfaceListChange _ | RQ_NotifyInterfaceListMatch _ _ => true
  | _ => false
  end.

Lemma Linked_run_handler c r : c ∈ D -> sets_notification r = false -> preserves Linked (run_handler c r).
Proof.
  intros Hin Hr. destruct r; try discriminate Hr; cbn [run_handler]; preserve.
  - unfold handleRegisterInterface. preserve.
  - unfold handleRegisterInterfaceEx. preserve.
  - unfold handleRegisterInterfaceGroupID. preserve.
  - unfold handleUnregisterInterface. preserve.
  - unfold handleAttachInterface, nextRequestID. preserve.
  - unfold handleGetServerInformation, nextRequestID. preserve.
  - unfold handleDetachInterface. preserve.
  - unfold handleRegisterMasterInterface. preserve.
  - unfold handleGetInterfaceList. preserve.
  - unfold handleMatchInterfaceList. preserve.
  - unfold handleMasterPingId. preserve.
Qed.

End requests.

#[export] Hint Resolve Linked_registerInterfacesMaster Linked_unregisterInterfaceMaster
  Linked_handleAttachLocalInterface Linked_addClient : preserve.

(** *** Requests that set or clear notifications *)

Lemma unless_preserves {A} (P : SB -> Prop) (m : M A) :
  preserves spent m -> triple P m (fun _ => Unless P) -> preserves (Unless P) m.
Proof. intros Hm Ht. apply preserves_triple. exact (triple_unless P (fun _ => P) m Hm Ht). Qed.

Lemma triple_right {A} (P : SB -> Prop) (m : M A) (Q : A -> SB -> Prop) :
  triple P m Q -> triple P m (fun a => Unless (Q a)).
Proof. intros Hm s Hs. right. by apply Hm. Qed.

#[export] Hint Extern 6 (preserves (Unless _) _) =>
  (apply preserves_unless; [solve [spends] | solve [preserve]]) : preserve.

Section notifying.
Context `{Env} (D : gset Z) (Cl : list Z) (c : Z) (Hin : c ∈ D).
Notation Links := (All D Cl).
Notation Kept := (Unless (All D Cl)).

(** The id leaves the list of its host first. *)
Lemma Linked_forget W i :
  triple (Linked None D Cl W) (upd_data c (cd_removeNotification i)) (fun _ => Linked (Some i) D Cl W).
Proof.
  intros s Hs. destruct (Held_live _ D Cl _ c s Hs Hin) as [cn Hcn].
  destruct Hs as (live & Hw & Hc). exists live. split; [by rewrite sb_lists_upd_data|].
  rewrite (link_part_upd_data c _ cn s Hcn). destruct Hc as [H1 H2 [H3 H4 H5] H6 H7 H8]. cbn in H1, H2, H4, H5, H6, H7, H8.
  assert (id_lists s !! c = Some (cd_mNotificationList (cn_mData cn))) as Hl
    by (unfold id_lists; by rewrite lookup_fmap, Hcn).
  split; cbn; try done; [by rewrite (dom_insert_in _ c _ _ Hl)|]. split; [done..|].
  intros j c' Hj. destruct (H5 j c' Hj) as (l & Hl' & [[=]|Hi]). destruct (decide (c' = c)) as [->|Hne].
  - rewrite lookup_insert_eq. eexists. split; [done|].
    assert (l = cd_mNotificationList (cn_mData cn)) as -> by congruence.
    destruct (decide (j = i)) as [->|Hne]; [by left|right; by apply std_remove_keeps].
  - rewrite lookup_insert_ne by done. exists l. split; [done|by right].
Qed.

Lemma Linked_forgotten W i s :
  (forall k p, W k p -> p.1 <> i) -> Linked (Some i) D Cl W s -> Links s.
Proof.
  intros Hw (live & [-> HW] & Hc). eexists. split; [by split|].
  assert (forall p, p ∈ all_keys (sb_lists s) -> p.1 <> i) as Hall.
  { intros p Hp. unfold all_keys in Hp. rewrite !elem_of_app in Hp. destruct_or!; by eapply Hw, HW. }
  destruct Hc as [H1 H2 [H3 H4 H5] H6 H7 H8]. split; try done. split; try done.
  intros j c' Hj. destruct (H5 j c' Hj) as (l & Hl & Hi). exists l. split; [done|]. right.
  destruct Hi as [[= <-]|Hi]; [|done]. by destruct (Hall _ Hj).
Qed.

Lemma Linked_handleClearNofification i : preserves Links (handleClearNofification c i).
Proof.
  unfold handleClearNofification. apply preserves_bind; [preserve|]. intros cn. destruct (cd_notificationExists _ _); [|preserve].
  apply preserves_triple. eapply triple_bind; [apply Linked_forget|]. intros ?. cbv beta.
  do 4 (eapply triple_bind; [apply Linked_nl_remove|]; intros ?; cbv beta).
  eapply triple_pre; [apply triple_preserves; preserve|]. intros s. apply Linked_forgotten.
  intros k p ((((_ & H1) & H2) & H3) & H4). destruct k; auto.
Qed.

(** Behind an [add]: nothing was added, or its id is entered into the list of the client. *)
Ltac added :=
  lazymatch goal with
  | |- triple (All _ _) _ _ =>
    rewrite Z.eqb_refl; cbn [negb]; apply triple_right, triple_preserves; preserve
  | |- forall id, _ -> triple _ _ _ =>
    let i := fresh "i" in let Hne := fresh "Hne" in intros i Hne;
    rewrite ?(proj2 (Z.eqb_neq i _) Hne), ?(proj2 (Z.eqb_neq _ i) (not_eq_sym Hne)); cbn [negb];
    apply triple_right; eapply triple_bind; [by apply Linked_addNotification|];
    intros ?; apply triple_preserves; preserve
  end.

Lemma Kept_notify_available p d b e : preserves Kept (notify_available c p d b e).
Proof.
  unfold notify_available. apply preserves_bind; [preserve|]. intros cn. apply unless_preserves; [spends|].
  apply (triple_added D Cl _ mServerConnectNotifications c); [|intros; spends|added..].
  by apply Linked_nl_add; [..|right].
Qed.

Lemma Kept_handleNotifyServerDisconnectNoResponse id p :
  preserves Kept (handleNotifyServerDisconnectNoResponse c id p).
Proof.
  unfold handleNotifyServerDisconnectNoResponse. apply unless_preserves; [spends|].
  apply (triple_added D Cl _ mServerDisconnectNotifications c); [|intros; spends|added..].
  - by apply Linked_nl_add; [..|right].
  - unfold bind_disconnect_pool, pool_attach. preserve.
Qed.

Lemma Kept_handleNotifyClientDetach id p : preserves Kept (handleNotifyClientDetach c id p).
Proof.
  unfold handleNotifyClientDetach. apply unless_preserves; [spends|].
  apply (triple_added D Cl _ mClientDetachNotifications c); [|intros; spends|added..].
  by apply Linked_nl_add; [..|right].
Qed.

Lemma Kept_handleNotifyInterfaceListChange p : preserves Kept (handleNotifyInterfaceListChange c p).
Proof.
  unfold handleNotifyInterfaceListChange. apply unless_preserves; [spends|].
  apply (triple_added D Cl _ mServerListChangeNotifications c); [|intros; spends|added..].
  by apply Linked_nl_add; [..|left].
Qed.

(** A write through the pointer a search returned. *)
Lemma Linked_replace W k id n n' s :
  nl_find k id s = Some n -> key n' = key n -> Linked None D Cl W s ->
  Linked None D Cl W (exec (nl_update k id (fun _ => n')) s).
Proof.
  intros Hn Hk Hs. unfold nl_update. rewrite exec_modify. unfold nl_find in Hn.
  assert (key <$> update_first (fun n => n_notificationID n =? id) (fun _ => n') (nl_get k s) = key <$> nl_get k s) as Heq.
  { clear Hs. induction (nl_get k s) as [|m l IH]; cbn [update_first find_first] in *; [done|].
    destruct (_ =? id); rewrite !fmap_cons; [by injection Hn as ->; rewrite Hk|by rewrite IH]. }
  pose proof (Viewing_start _ _ _ k W s Hs) as Hv. destruct Hs as (live & [-> HW] & _).
  unfold list_keys in Hv at 1. change (nl_mList (sb_lists s k)) with (nl_get k s) in Hv. rewrite <- Heq in Hv.
  eapply Linked_mono, (Held_set _ _ _ k _ W (W k) s Hv); [|by intros; apply HW|].
  - cbn. intros k' q [H1 H2]. destruct (decide (k' = k)) as [->|Hne]; [by apply H1|by apply H2].
  - intros q. rewrite Heq. apply HW.
Qed.

Lemma Linked_notify_first_match W id : preserves (Linked None D Cl W) (notify_first_match c id).
Proof.
  unfold notify_first_match. apply preserves_read. intros s Hs.
  destruct (Held_live _ D Cl _ c s Hs Hin) as [cn Hcn]. rewrite (exec_get_conn c cn) by done.
  destruct (nl_find _ id s) as [n|] eqn:Hn; [|done]. destruct (find_first _ _); [|done]. rewrite exec_bind.
  apply (Linked_replace W _ id n); [|apply key_send|revert Hs; apply run_preserves; preserve].
  unfold nl_find, nl_get in *. by rewrite (run_keeps _ _ (keeps_lists_send n)).
Qed.

#[local] Hint Resolve Linked_notify_first_match : preserve.

Lemma Kept_handleNotifyInterfaceListMatch p re : preserves Kept (handleNotifyInterfaceListMatch c p re).
Proof.
  unfold handleNotifyInterfaceListMatch. apply unless_preserves; [spends|].
  apply (triple_added D Cl _ mServerListChangeNotifications c); [|intros; spends|added..].
  by apply Linked_add_regExpr.
Qed.

#[local] Hint Resolve Kept_notify_available Kept_handleNotifyServerDisconnectNoResponse : preserve.

Lemma Kept_handleNotifyServerAvailableNoResponse p d :
  preserves Kept (handleNotifyServerAvailableNoResponse c p d).
Proof. unfold handleNotifyServerAvailableNoResponse. preserve. Qed.

Lemma Kept_notifyAvailableEx_loop fuel k items : preserves Kept (notifyAvailableEx_loop fuel k c items).
Proof.
  revert k. induction fuel; intros k; cbn [notifyAvailableEx_loop]; preserve; auto.
  unfold notifyAvailableEx_one. preserve.
Qed.

(** The notification that was just added is found. *)
Lemma Hung_find i k s : Held (Some i) D Cl (hung i c k) s -> nl_find k i s <> None.
Proof.
  intros (live & (_ & _ & n & Hn & Hi) & _). unfold nl_find, nl_get. induction (nl_mList (sb_lists s k)) as [|m l IH].
  - by apply elem_of_nil in Hn.
  - cbn. destruct (Z.eqb_spec (n_notificationID m) i) as [|Hne]; [done|]. apply IH.
    apply elem_of_cons in Hn as [->|]; [by destruct Hne|done].
Qed.

Lemma Kept_forwardAttachExtendedToMaster p d : preserves Kept (forwardAttachExtendedToMaster c p d).
Proof.
  unfold forwardAttachExtendedToMaster. apply preserves_bind; [preserve|]. intros s.
  cbv zeta. apply preserves_bind; [preserve|]. intros pos0. apply preserves_bind; [preserve|]. intros pos.
  apply preserves_bind; [preserve|]. intros cn. apply unless_preserves; [spends|].
  apply (triple_added D Cl _ mServerConnectNotifications c); [by apply Linked_nl_add; [..|right]|intros; spends|added|].
  intros i Hne. rewrite (proj2 (Z.eqb_neq i _) Hne). apply triple_right, triple_read. intros s0 Hs0.
  destruct (nl_find _ i s0) eqn:Hf; [|by apply Hung_find in Hs0].
  eapply triple_bind; [by apply Linked_addNotification|]. intros ?. apply triple_preserves.
  unfold pool_attach, forwardAttachExtended_job. preserve.
  match goal with |- context [sb_mAsyncMode ?s] => destruct (sb_mAsyncMode s) end; preserve.
Qed.

#[local] Hint Resolve Kept_handleNotifyServerAvailableNoResponse Kept_notifyAvailableEx_loop
  Kept_forwardAttachExtendedToMaster Kept_handleNotifyClientDetach Kept_handleNotifyInterfaceListChange
  Kept_handleNotifyInterfaceListMatch Linked_handleClearNofification : preserve.

Lemma Kept_run_handler r : preserves Kept (run_handler c r).
Proof.
  destruct (sets_notification r) eqn:Hr.
  - destruct r; try discriminate Hr; cbn [run_handler]; preserve.
    + unfold handleAttachInterfaceExtended. preserve.
    + unfold handleNotifyServerDisconnect. preserve.
    + unfold handleNotifyServerAvailable. preserve.
    + unfold handleNotifyServerAvailableEx. preserve.
  - apply preserves_unless; [apply spent_run_handler|by apply Linked_run_handler].
Qed.

#[local] Hint Resolve Kept_run_handler : preserve.

Lemma Kept_dispatch f : preserves Kept (dispatch c f).
Proof. unfold dispatch, dispatch_command, ensure_answered. preserve. Qed.

End notifying.

(** ** Closing a connection *)

Section closing.
Context `{Env}.

Lemma Linked_clients D Cl f s : All D Cl s -> All D (f Cl) (s <| sb_mClients ::= f |>).
Proof.
  intros (live & Hw & [H1 H2 H3 H4 H5 H6]). exists live. split; [done|]. split; try done. cbn in *. by rewrite H6.
Qed.

(** [clear] leaves no notification the connection hosts. *)
Lemma Linked_clear D Cl c :
  c ∈ D -> triple (All D Cl) (clear c) (fun _ => Linked None D Cl (fun _ p => p.2 <> Some c)).
Proof.
  intros Hin. unfold clear. eapply triple_bind; [apply triple_preserves; preserve|]. intros cn. cbv zeta.
  do 4 (eapply triple_bind; [apply triple_preserves; unfold clear_server, clear_client; preserve|]; intros ?).
  do 4 (eapply triple_bind; [by apply Linked_nl_remove_ids|]; intros ?; cbv beta).
  eapply triple_pre; [apply triple_preserves; preserve|]. intros s. apply Linked_mono.
  intros k p ((((_ & H1) & H2) & H3) & H4). destruct k; auto.
Qed.

Lemma Linked_close_client D Cl c s :
  c ∈ D -> c ∉ waiting s -> All D Cl s ->
  All (D ∖ {[c]}) (filter (fun v => v <> c) Cl) (exec (close_client c) s).
Proof.
  intros Hin Hw Hs. destruct (run_preserves _ _ (grows_close_client (calm (waiting s) (sb_nextId s)) c) s) as [Hq _]; [done|].
  revert Hq. unfold close_client. rewrite !exec_bind, !exec_modify.
  apply (Linked_clients D Cl (filter (fun v => v <> c))), (Linked_clear _ _ c Hin) in Hs.
  revert Hs. set (s1 := s <| sb_mClients ::= _ |>).
  generalize (exec (clear c) s1). intros s' (live & [-> HW] & [H1 H2 [H3 H4 H5] H6 H7 H8]) Hq. cbn in Hq.
  cbn in H1, H2, H4, H5, H6, H7, H8. eexists. split; [by split|].
  assert (id_lists (s' <| sb_conns ::= delete c |>) = delete c (id_lists s')) as Hids
    by (unfold id_lists; cbn; apply fmap_delete).
  unfold link_part. rewrite Hids. split; cbn [fst snd]; try done.
  - by rewrite dom_delete_L, H2.
  - split; [done..|]. intros i c' Hi. destruct (H5 i c' Hi) as (l & Hl & Hil). exists l. split; [|done].
    rewrite lookup_delete_ne; [done|]. intros <-. unfold all_keys in Hi. rewrite !elem_of_app in Hi.
    destruct_or!; by destruct (HW _ _ Hi).
  - apply Forall_forall. intros j Hj. rewrite Forall_forall in H7. destruct (H7 j Hj) as [Hc Ha]. split; [|done].
    intros c' Hc'. apply elem_of_difference. split; [by apply Hc|]. intros ->%elem_of_singleton. apply Hw. rewrite <- Hq.
    apply list_elem_of_omap. by exists j.
Qed.

Lemma waiting_close_client c s : waiting (exec (close_client c) s) = waiting s.
Proof. by destruct (run_preserves _ _ (grows_close_client (calm (waiting s) (sb_nextId s)) c) s) as [Hq _]. Qed.

Lemma Linked_close_clients l : forall D Cl s,
  NoDup l -> (forall c, c ∈ l -> c ∈ D /\ c ∉ waiting s) -> All D Cl s ->
  exists D' Cl', All D' Cl' (exec (forM_ l close_client) s) /\ (forall c, c ∈ D -> c ∉ l -> c ∈ D') /\
    Cl' `sublist_of` Cl.
Proof.
  induction l as [|c l IH]; intros D Cl s Hnd Hl Hs; cbn [forM_]; [by exists D, Cl|].
  apply NoDup_cons in Hnd as [Hno Hnd]. destruct (Hl c) as [Hc Hw]; [by left|]. rewrite exec_bind.
  apply (Linked_close_client D Cl c s Hc Hw) in Hs.
  assert (forall c', c' ∈ l -> c' ∈ D ∖ {[c]} /\ c' ∉ waiting (exec (close_client c) s)) as Hl'.
  { intros c' Hc'. rewrite waiting_close_client. destruct (Hl c') as [Hd Hw']; [by right|]. split; [|done].
    apply elem_of_difference. split; [done|]. by intros ->%elem_of_singleton. }
  destruct (IH _ _ _ Hnd Hl' Hs) as (D' & Cl' & Hs' & HD & HCl).
  exists D', Cl'. split; [done|]. split.
  - intros c' Hc' Hn. rewrite not_elem_of_cons in Hn. destruct Hn. apply HD; [|done]. set_solver.
  - etrans; [exact HCl|]. apply sublist_filter.
Qed.

End closing.

(** ** Jobs *)

Section jobs.
Context `{Env} (D : gset Z) (Cl : list Z).
Notation Links := (All D Cl).

Lemma Linked_finalize j s :
  (forall c, job_ctx j = Some c -> c ∈ D) ->
  (forall c, job_ctx j = Some c -> conn_state c s = Some CS_DEFERRED) -> Links s -> Links (exec (finalize j) s).
Proof.
  intros Hj Hst Hs. unfold finalize. destruct (job_ctx j) as [c|]; [|done].
  specialize (Hj c eq_refl). specialize (Hst c eq_refl). unfold conn_state in Hst.
  destruct (sb_conns s !! c) as [cn|] eqn:Hcn; [|done]. injection Hst as Hst.
  rewrite (exec_get_conn c cn) by done. rewrite bool_decide_eq_true_2 by done.
  revert Hs. apply run_preserves. cbn [assertM]. preserve.
Qed.

Lemma Linked_job_switch j s :
  job_ok D j -> sb_mPendingAttachExtendedJobs s = ∅ -> Links s -> Links (exec (job_switch j) s).
Proof.
  intros [Hj Ha] Hp Hs. unfold job_switch. rewrite exec_getS. destruct (job_arg j) eqn:Harg;
    unfold finished_NotifyServerAvailableEx, finished_NotifyServerDisconnect, finished_Notify, finished_RegisterMasterEx,
      construct_ServerListEntry.
  2: { unfold exec. by rewrite run_handleJobFinishedAttachExtended. }
  1: { unfold job_conn. destruct (job_ctx j) as [c|]; [|done]. specialize (Hj c eq_refl).
    change (Links (exec (upd_data c (cd_addClient (ci_clientID o));; mret j) s)).
    revert Hs. apply run_preserves. preserve. }
  all: revert Hs; apply run_preserves; preserve.
Qed.

Lemma Linked_job_done status ret arg j q s :
  sb_mQueue s = j :: q -> arg_dcmd arg = arg_dcmd (job_arg j) -> sb_mPendingAttachExtendedJobs s = ∅ ->
  waits false s -> Links s -> Links (exec (run (Ev_job status ret arg)) s).
Proof.
  intros Hq Harg Hp Hw Hs. rewrite (exec_job_done _ _ _ j q) by done.
  set (j1 := execute status ret arg j). set (s1 := s <| sb_mQueue := q |>).
  destruct Hs as (live & Hv & [H1 H2 H3 H4 H5 H6]). cbn in H5. rewrite Hq in H5. apply Forall_cons in H5 as [[Hc Ha] H5].
  assert (job_ok D j1) as Hj1.
  { split; [by intros c; unfold j1; rewrite job_ctx_execute; apply Hc|].
    unfold j1. rewrite job_ctx_execute. assert (job_arg (execute status ret arg j) = arg) as -> by (unfold execute; by repeat case_match).
    destruct arg; try done. by destruct (job_arg j). }
  assert (Links s1) as Hs1 by (exists live; split; [exact Hv|by split]).
  assert (forall c, job_ctx j1 = Some c -> conn_state c s1 = Some CS_DEFERRED) as Hst.
  { intros c. unfold j1. rewrite job_ctx_execute. intros Hjc. specialize (Hc c Hjc). change (conn_state c s = Some CS_DEFERRED).
    destruct Hw as [_ _ Hd]. unfold waiting in Hd. rewrite Hq in Hd. cbn in Hd. rewrite Hjc in Hd.
    rewrite <- H2 in Hc. apply elem_of_dom in Hc as [l Hl]. destruct (id_lists_lookup c l s Hl) as (cn & Hcn & _).
    rewrite <- states_lookup. assert (states s !! c = Some (cn_mState cn)) as Hcs
      by (rewrite states_lookup; unfold conn_state; by rewrite Hcn).
    rewrite Hcs. destruct (Hd c _ Hcs) as [Hle _]. unfold jobs_for in Hle. cbn in Hle. destruct (Z.eq_dec c c); [|done].
    unfold due in Hle. case_bool_decide as Hdef; [by rewrite Hdef|lia]. }
  assert (sb_mPendingAttachExtendedJobs s1 = ∅) as Hp1 by done.
  clearbody s1 j1. clear - Hj1 Hs1 Hst Hp1. unfold handleJobFinished. rewrite exec_bind.
  destruct (job_status j1 =? 0); [|apply Linked_finalize; [apply Hj1|done..]].
  pose proof (job_switch_ctx j1 s1 I) as Hctx. unfold same_ctx in Hctx.
  pose proof (Linked_job_switch j1 s1 Hj1 Hp1 Hs1) as Hs2.
  pose proof (run_keeps _ _ (keeps_dialogue_job_switch j1) s1) as [_ Hd]%pair_equal_spec.
  apply Linked_finalize; [..|done]; intros c; rewrite Hctx; [apply Hj1|].
  intros Hc%Hst. rewrite <- states_lookup in *. unfold states in *. by rewrite Hd.
Qed.

End jobs.
