(* ===== verification/Faultless.v ===== *)
(** Runs without faults.

    With the invariants of Safety, Protocol, Waiting and Hosts a run in which no connection is
    closed that waits for the master, and no slave announces itself twice on a connection, is
    free of faults altogether; both conditions are necessary. *)

From S2P Require Import Prelude.
From S2P Require Import Layout.
From S2P Require Import Types.
From S2P Require Import ServerList.
From S2P Require Import ConfigFile.
From S2P Require Import ClientData.
From S2P Require Import JobQueue.
From S2P Require Import Environment.
From S2P Require Import PulseChannelManager.
From S2P Require Import NotificationPool.
From S2P Require Import MessageContext.
From S2P Require Import State.
From S2P Require Import Notifications.
From S2P Require Import Registration.
From S2P Require Import Notify.
From S2P Require Import Attach.
From S2P Require Import Jobs.
From S2P Require Import Dispatch.
From S2P Require Import System.
From S2P Require Import Frames.
From S2P Require Import Safety.
From S2P Require Import Protocol.
From S2P Require Import Answers.
From S2P Require Import JobOrder.
From S2P Require Import Waiting.
From S2P Require Import Hosts.

(** ** Events *)

(** The id a slave announced itself with. *)
Definition slave_id (c : Z) (s : SB) : option Z := (fun cn => cd_mExtendedID (cn_mData cn)) <$> sb_conns s !! c.

(** No connection is closed while it waits for the master: the supervision timer expires only
    for connections that do not wait; a slave announces itself once on a connection, and no
    older connection of it waits then. *)
Definition careful (ev : Event) (s : SB) : Prop :=
  match ev with
  | Ev_timeout c => conn_state c s <> Some CS_DEFERRED
  | Ev_request c f _ =>
    match fr_request f with
    | RQ_MasterPingId id =>
      c ∉ sb_mClients s /\
      forall v, v ∈ sb_mClients s -> conn_state v s = Some CS_DEFERRED ->
        slave_id v s <> Some (i32 id) /\ slave_id v s <> slave_id c s
    | _ => True
    end
  | _ => True
  end.

(** Every reference to a connection is sound. *)
Definition Sound (s : SB) : Prop := exists D Cl, NoDup Cl /\ All D Cl s.

Section events.
Context `{Env}.

Lemma Held_dom x D Cl V s : Held x D Cl V s -> dom (sb_conns s) = D.
Proof. intros (live & _ & Hc). rewrite <- (co_dom _ _ _ _ _ Hc). cbn. unfold id_lists. by rewrite dom_fmap_L. Qed.

Lemma live_state c s : (exists st, conn_state c s = Some st) <-> c ∈ dom (sb_conns s).
Proof.
  rewrite elem_of_dom. unfold conn_state. destruct (sb_conns s !! c); split; intros [? ?]; try done; by eexists.
Qed.

(** A connection that does not wait has no job. *)
Lemma idle_not_waiting c st s : waits false s -> conn_state c s = Some st -> st <> CS_DEFERRED -> c ∉ waiting s.
Proof.
  intros [_ _ Hd] Hst Hne. rewrite <- states_lookup in Hst. destruct (Hd c st Hst) as [Hle _].
  rewrite (not_due st Hne) in Hle. intros Hin. apply list_elem_of_In, (count_occ_In Z.eq_dec) in Hin.
  unfold jobs_for in Hle. lia.
Qed.

Lemma Sound_close c s : (exists st, conn_state c s = Some st) -> c ∉ waiting s -> Sound s -> Sound (exec (close_client c) s).
Proof.
  intros Hc%live_state Hw (D & Cl & Hnd & Hs). exists (D ∖ {[c]}), (filter (fun v => v <> c) Cl).
  split; [by apply NoDup_filter|]. apply Linked_close_client; [|done..]. by rewrite <- (Held_dom _ _ _ _ _ Hs).
Qed.

Lemma Sound_upd_conn c f s :
  (forall cn, cn_mData (f cn) = cn_mData cn) -> (exists st, conn_state c s = Some st) -> Sound s ->
  Sound (exec (upd_conn c f) s).
Proof.
  intros Hf Hc%live_state (D & Cl & Hnd & Hs). rewrite (Held_dom _ _ _ _ _ Hs) in Hc. exists D, Cl. split; [done|].
  revert Hs. by apply run_preserves, Held_upd_conn.
Qed.

Lemma reading_idle c s : reading c s -> exists st, conn_state c s = Some st /\ st <> CS_DEFERRED.
Proof. by intros [?|?]; eexists. Qed.

Lemma Sound_new_client node local s : waits false s -> Sound s -> Sound (exec (new_client node local) s).
Proof.
  intros [_ Hn _] (D & Cl & Hnd & Hs). exists ({[sb_nextId s]} ∪ D), Cl. split; [done|].
  pose proof (Held_dom _ _ _ _ _ Hs) as Hdom.
  assert (sb_nextId s ∉ dom (sb_conns s)) as Hfresh.
  { rewrite <- live_state. intros [st Hst]. rewrite <- states_lookup in Hst. apply Hn in Hst. lia. }
  unfold new_client. rewrite exec_getS, exec_modify. destruct Hs as (live & Hv & [H1 H2 [H3 H4 H5] H6 H7 H8]).
  cbn in H1, H2, H4, H5, H6, H7, H8. exists live. split; [done|].
  assert (forall f, id_lists (s <| sb_conns ::= <[sb_nextId s := new_Connection node local]> |> <| sb_nextId ::= f |>)
    = <[sb_nextId s := []]> (id_lists s)) as Hids by (intros f; unfold id_lists; cbn; by rewrite fmap_insert).
  unfold link_part. rewrite Hids. split; cbn [fst snd]; try done.
  - by rewrite dom_insert_L, H2.
  - split; [done..|]. intros i c Hi. destruct (H5 i c Hi) as (l & Hl & Hil). exists l. split; [|done].
    rewrite lookup_insert_ne; [done|]. intros <-. apply Hfresh. rewrite Hdom, <- H2. by apply elem_of_dom_2 in Hl.
  - eapply Forall_impl; [exact H7|]. intros j [Hc Ha]. split; [|done]. intros c Hjc. apply elem_of_union_r. by apply Hc.
Qed.

Lemma Sound_signal code v s : code <> PULSE_JOB_EXECUTED -> sb_mAsyncMode s = false -> Sound s -> Sound (exec (dispatch_pulse code v None) s).
Proof.
  intros Hcode Ha (D & Cl & Hnd & Hs). exists D, Cl. split; [done|].
  unfold dispatch_pulse, handleMasterConnected, handleMasterDisconnected, handleMasterServerAvailable,
    handleMasterServerDisconnect, handleMasterClientDetach, handleMasterServerlistChange,
    handleMasterAttachExtended, handleMasterServerAvailable, handleMasterServerDisconnect.
  rewrite (proj2 (Z.eqb_neq _ _) Hcode). revert Hs. apply run_preserves. preserve.
Qed.

(** The announcement of a slave changes no other slave's id. *)
Lemma slave_ids_dispatch c f id s :
  fr_request f = RQ_MasterPingId id ->
  let s' := exec (dispatch c f) s in
  (forall v, v <> c -> slave_id v s' = slave_id v s) /\
  (slave_id c s' = slave_id c s \/ slave_id c s' = Some (i32 id)).
Proof.
  intros Hf. set (P := fun s' => (forall v, v <> c -> slave_id v s' = slave_id v s) /\
    (slave_id c s' = slave_id c s \/ slave_id c s' = Some (i32 id))). cbv zeta. change (P (exec (dispatch c f) s)).
  assert (forall A (m : M A), keeps sb_conns m -> preserves P m) as Hk.
  { intros A m Hm. split. intros s'. unfold P, slave_id. by rewrite (run_keeps _ _ Hm). }
  assert (preserves P (upd_data c (cd_setExtendedID id))) as Hset.
  { unfold upd_data. apply preserves_read. intros s' [H1 H2]. destruct (sb_conns s' !! c) as [cn|] eqn:Hc; [|by split].
    rewrite exec_modify. split.
    - intros v Hv. unfold slave_id. cbn. rewrite lookup_insert_ne by done. by apply H1.
    - right. unfold slave_id. cbn. by rewrite lookup_insert_eq. }
  assert (preserves P (upd_conn c (fun cn => cn <| cn_mSlave := true |>))) as Hslave.
  { unfold upd_conn. apply preserves_read. intros s' [H1 H2]. destruct (sb_conns s' !! c) as [cn|] eqn:Hc; [|by split].
    rewrite exec_modify. split.
    - intros v Hv. unfold slave_id. cbn. rewrite lookup_insert_ne by done. by apply H1.
    - unfold slave_id in *. cbn. rewrite lookup_insert_eq. by rewrite Hc in H2. }
  unfold dispatch. rewrite Hf. cbn [request_dcmd]. apply (run_preserves P); [|by split; [|left]].
  unfold dispatch_command, ensure_answered. rewrite Hf. cbn [run_handler]. unfold handleMasterPingId.
  preserve; apply Hk; preserve.
Qed.

(** A slave that announces itself replaces its older connections. *)
Lemma Sound_ping c r D Cl s :
  NoDup Cl -> c ∈ D -> c ∉ Cl -> All D Cl s ->
  (forall v, v ∈ Cl -> slave_id v s = slave_id c s -> v ∉ waiting s) ->
  exists D' Cl', NoDup Cl' /\ c ∈ D' /\ All D' Cl' (exec (eval_ping_id c r) s).
Proof.
  intros Hnd Hin Hno Hs Hidle. destruct r; try by exists D, Cl. cbn [eval_ping_id].
  destruct (Held_live _ D Cl _ c s Hs Hin) as [cn Hcn]. rewrite (exec_get_conn c cn) by done.
  destruct (negb _); cbn [whenM]; [|by exists D, Cl]. rewrite exec_bind. unfold removeClient.
  rewrite exec_getS, exec_bind, exec_modify. set (same := fun v => match sb_conns s !! v with
    | Some vn => cd_mExtendedID (cn_mData vn) =? cd_mExtendedID (cn_mData cn) | None => false end).
  assert (sb_mClients s = Cl) as -> by by destruct Hs as (? & _ & Hc); apply (co_clients _ _ _ _ _ Hc).
  apply (Linked_clients D Cl (filter (fun v => same v = false))) in Hs. revert Hs.
  set (s1 := s <| sb_mClients ::= _ |>). intros Hs1.
  destruct (Linked_close_clients (filter (fun v => same v = true) Cl) D (filter (fun v => same v = false) Cl) s1) as (D' & Cl' & Hs' & HD & HCl).
  - by apply NoDup_filter.
  - intros v [Hv Hvin]%list_elem_of_filter. unfold same in Hv. destruct (sb_conns s !! v) as [vn|] eqn:Hvn; [|done].
    apply Z.eqb_eq in Hv. split.
    + rewrite <- (Held_dom _ _ _ _ _ Hs1). apply elem_of_dom. by exists vn.
    + apply (Hidle v Hvin). unfold slave_id. rewrite Hvn, Hcn. cbn. by rewrite Hv.
  - exact Hs1.
  - unfold addSlaveClient. rewrite exec_modify. exists D', (c :: Cl'). split_and!.
    + apply NoDup_cons. split.
      * intros Hc. apply Hno. apply (elem_of_sublist _ _ _ Hc) in HCl. by apply list_elem_of_filter in HCl as [_ ?].
      * eapply sublist_NoDup; [|exact HCl]. by apply NoDup_filter.
    + apply HD; [done|]. intros [_ ?]%list_elem_of_filter. done.
    + exact (Linked_clients D' Cl' (cons c) _ Hs').
Qed.

(** The end of [eval]. *)
Lemma Sound_eval_end c (found : bool) wr s :
  (exists st, conn_state c s = Some st) ->
  ((found && bool_decide (responseState s = State_DEFERRED)) = false -> c ∉ waiting s) -> Sound s ->
  Sound (exec (s ← getS;
    if found && bool_decide (responseState s = State_DEFERRED)
    then upd_conn c (fun cn => cn <| cn_mState := CS_DEFERRED |>)
    else emit (O_response c (mc_response (sb_msg s)));; evaluateWriteResult c wr) s).
Proof.
  intros Hc Hw Hs. rewrite exec_getS. destruct (found && _); [by apply Sound_upd_conn|]. rewrite exec_bind.
  unfold emit. rewrite exec_modify. set (s' := s <| sb_out ::= _ |>).
  assert (Sound s') as Hs' by exact Hs. specialize (Hw eq_refl). change (waiting s) with (waiting s') in Hw.
  change (conn_state c s) with (conn_state c s') in Hc. clearbody s'.
  destruct wr; cbn [evaluateWriteResult]; [by apply Sound_upd_conn..|by apply Sound_close].
Qed.

(** [eval] behind [dispatch]; [w] are the clients that waited before. *)
Lemma Sound_eval_rest c f (found : bool) wr w D Cl s :
  NoDup Cl -> c ∈ D -> c ∉ w -> All D Cl s ->
  dealt false c w (sb_nextId s) s ->
  (found = false \/ may_defer (fr_request f) = false -> tracked (silent w (sb_nextId s)) s) ->
  (forall id, fr_request f = RQ_MasterPingId id ->
    c ∉ Cl /\ forall v, v ∈ Cl -> slave_id v s = slave_id c s -> v ∉ w) ->
  Sound (exec (eval_ping_id c (fr_request f);; s ← getS;
    if found && bool_decide (responseState s = State_DEFERRED)
    then upd_conn c (fun cn => cn <| cn_mState := CS_DEFERRED |>)
    else emit (O_response c (mc_response (sb_msg s)));; evaluateWriteResult c wr) s).
Proof.
  intros Hnd Hin Hw Hs Hdealt Hsil Hping. rewrite exec_bind.
  assert (forall D' Cl' s', NoDup Cl' -> c ∈ D' -> All D' Cl' s' -> Sound s' /\ exists st, conn_state c s' = Some st) as Hlive.
  { intros D' Cl' s' Hnd' Hin' Hs'. split; [by exists D', Cl'|]. apply live_state. by rewrite (Held_dom _ _ _ _ _ Hs'). }
  destruct (may_defer (fr_request f)) eqn:Em.
  - assert (exec (eval_ping_id c (fr_request f)) s = s) as -> by by destruct (fr_request f).
    destruct (Hlive D Cl s Hnd Hin Hs) as [Hsound Hc]. apply Sound_eval_end; [done| |done]. intros E.
    destruct Hdealt as [_ [[_ ->]|[Hr _]]]; [done|]. rewrite (bool_decide_eq_true_2 _ Hr), andb_true_r in E.
    destruct (Hsil (or_introl E)) as (Hq & _). unfold waiting. by rewrite Hq.
  - specialize (Hsil (or_intror eq_refl)).
    assert (preserves (tracked (silent w (sb_nextId s))) (eval_ping_id c (fr_request f))) as Hp by grows.
    pose proof (run_preserves _ _ Hp s Hsil) as (Hq & _). destruct Hsil as (Hq0 & _).
    assert (exists D' Cl', NoDup Cl' /\ c ∈ D' /\ All D' Cl' (exec (eval_ping_id c (fr_request f)) s)) as (D' & Cl' & Hnd' & Hin' & Hs').
    { destruct (fr_request f); try by exists D, Cl.
      destruct (Hping _ eq_refl) as [Hno Hold]. apply (Sound_ping c _ D Cl); [done..|]. intros v Hv Hid.
      unfold waiting. rewrite Hq0. by apply Hold. }
    destruct (Hlive D' Cl' _ Hnd' Hin' Hs') as [Hsound Hc]. apply Sound_eval_end; [done| |done]. intros _.
    unfold waiting. by rewrite Hq.
Qed.

Lemma Sound_eval_request c f wr s :
  careful (Ev_request c f wr) s -> reading c s -> waits false s -> Sound s ->
  Unless Sound (exec (eval_request c f wr) s).
Proof.
  intros Hcare Hr Hwait (D & Cl & Hnd & Hs). destruct (reading_idle c s Hr) as (st & Hst & Hidle).
  pose proof (idle_not_waiting c st s Hwait Hst Hidle) as Hnw.
  assert (c ∈ D) as Hin by (rewrite <- (Held_dom _ _ _ _ _ Hs); apply live_state; by exists st).
  assert (sb_mClients s = Cl) as HCl by by destruct Hs as (? & _ & Hc); apply (co_clients _ _ _ _ _ Hc).
  unfold eval_request. rewrite exec_bind, exec_modify. set (s1 := s <| sb_msg := _ |>).
  assert (All D Cl s1) as Hs1 by exact Hs. rewrite exec_bind.
  destruct (run_preserves _ _ (Kept_dispatch D Cl c Hin f) s1 (or_intror Hs1)) as [Hsp|Hs2].
  { left. revert Hsp. apply run_preserves. spends. }
  right. destruct (dealt_dispatch false c (waiting s) (sb_nextId s) f ltac:(done) s1) as [Hdealt Hsil]; [done|].
  destruct Hdealt as [Hn Hdealt]. apply (Sound_eval_rest c f _ wr (waiting s) D Cl); try done.
  - by rewrite Hn.
  - intros id Hf. unfold careful in Hcare. rewrite Hf, HCl in Hcare. destruct Hcare as [Hno Hcare]. split; [done|].
    intros v Hv Heq. assert (v <> c) as Hvc by by intros ->.
    destruct (slave_ids_dispatch c f id s1 Hf) as [Hids Hid]. rewrite (Hids v Hvc) in Heq.
    destruct (conn_state v s) as [stv|] eqn:Hstv.
    + apply (idle_not_waiting v stv); [done..|]. intros ->. destruct (Hcare v Hv Hstv) as [H1 H2].
      destruct Hid as [Hid|Hid]; rewrite Hid in Heq; [by apply H2|by apply H1].
    + exfalso. unfold conn_state in Hstv. unfold slave_id in Heq at 1. change (sb_conns s1) with (sb_conns s) in Heq.
      destruct (sb_conns s !! v); [done|]. destruct (Held_live _ D Cl _ c _ Hs2 Hin) as [cn Hcn].
      unfold slave_id in Heq. by rewrite Hcn in Heq.
Qed.

(** A careful event keeps the references sound, unless the notification counter runs out. *)
Lemma Sound_run slave ev s :
  enabled ev s -> careful ev s -> Safe slave s -> waits false s -> Sound s -> Unless Sound (exec (run ev) s).
Proof.
  intros Hen Hcare Hsafe Hwait Hs.
  destruct ev as [node local|c pid uid ok|c f wr|c ok complete|c|c|status ret arg|b|code v]; cbn [enabled run] in *;
    [right|right|by apply Sound_eval_request; [|destruct Hen..]|right..].
  - by apply Sound_new_client.
  - destruct (reading_idle c s Hen) as (st & Hst & Hidle). unfold handleCredentials. destruct ok.
    + apply Sound_upd_conn; [done|by exists st|done].
    + apply Sound_close; [by exists st|by eapply idle_not_waiting|done].
  - unfold handleWrite. destruct ok; [|apply Sound_close; [by eexists|by eapply idle_not_waiting|done]].
    destruct complete; [|done]. apply Sound_upd_conn; [done|by eexists|done].
  - destruct (reading_idle c s Hen) as (st & Hst & Hidle).
    apply Sound_close; [by exists st|by eapply idle_not_waiting|done].
  - destruct Hen as (cn & Hcn & _). assert (conn_state c s = Some (cn_mState cn)) as Hst by (unfold conn_state; by rewrite Hcn).
    apply Sound_close; [by eexists| |done]. apply (idle_not_waiting c (cn_mState cn)); [done..|]. intros Hd.
    apply Hcare. by rewrite Hst, Hd.
  - destruct Hen as (j & q & Hq & Harg). destruct Hs as (D & Cl & Hnd & Hs). exists D, Cl. split; [done|].
    apply (Linked_job_done D Cl status ret arg j q s); try done. by eapply Safe_pending.
  - rewrite exec_modify. destruct Hs as (D & Cl & Hnd & Hs). exists D, Cl. by split.
  - destruct Hen as [Hcode _]. apply Sound_signal; [done|by eapply Safe_async|done].
Qed.

End events.

(** ** Properties *)

(** A run of careful events whose patterns compile. *)
Fixpoint orderly `{Env} (evs : list Event) (s : SB) : Prop :=
  match evs with
  | [] => True
  | ev :: evs' => enabled ev s /\ careful ev s /\ compilable_event ev /\ orderly evs' (exec (run ev) s)
  end.

Section runs.
Context `{Env} (slave : bool).

(** What the invariants say together. *)
Record steady (s : SB) : Prop := {
  st_safe : Safe slave s;
  st_waits : waits false s;
  st_messages : message_faults s = [];
  st_sound : Unless Sound s;
}.

Lemma steady_run ev s : enabled ev s -> careful ev s -> compilable_event ev -> steady s -> steady (exec (run ev) s).
Proof.
  intros Hen Hcare Hcomp [Hsafe Hwait Hmsg Hsound]. split.
  - by apply Safe_run.
  - apply waits_run; [by destruct ev|done..].
  - by apply faults_run.
  - destruct Hsound as [Hsp|Hs]; [left; by apply spent_run|by eapply Sound_run].
Qed.

Lemma steady_run_all evs : forall s, orderly evs s -> steady s -> steady (exec (run_all evs) s).
Proof.
  induction evs as [|ev evs IH]; intros s Hev Hs; cbn [run_all]; [done|]. destruct Hev as (Hen & Hcare & Hcomp & Hev).
  rewrite exec_bind. apply IH; [done|]. by apply steady_run.
Qed.

Lemma steady_faultless s : steady s -> sb_exhausted s = false -> sb_faults s = [].
Proof.
  intros [(_ & _ & _ & _ & Hcrash) _ Hmsg [Hsp|(D & Cl & _ & (live & _ & Hc))]] Hex; [unfold spent in Hsp; congruence|].
  apply elem_of_nil_inv. intros k Hk. pose proof (co_faults _ _ _ _ _ Hc) as Hlink. cbn in Hcrash, Hlink.
  apply (no_message_fault s) in Hmsg.
  assert (forall p : Fault -> bool, filter (fun k => p k = true) (sb_faults s) = [] -> p k = false) as Hno.
  { intros p Hp. destruct (p k) eqn:Hpk; [|done]. assert (k ∈ filter (fun k => p k = true) (sb_faults s)) as Hin
      by by apply list_elem_of_filter. rewrite Hp in Hin. by apply elem_of_nil in Hin. }
  apply Hno in Hcrash, Hlink. by destruct k.
Qed.

Lemma steady_start file id cacheOpt asyncOpt sig : steady (start slave file id cacheOpt asyncOpt sig).
Proof.
  split; [apply Safe_start| |done|].
  - apply (waits_reachable false slave file id cacheOpt asyncOpt sig). constructor.
  - right. exists ∅, []. split; [constructor|]. exists []. split; [split; [done|by intros]|].
    split; cbn; try done.
    split; [constructor|by intros p ?%elem_of_nil|by intros i c ?%elem_of_nil].
Qed.

End runs.

(** C7. The broker's memory is safe in every run in which no waiting connection is closed:
    whatever requests clients and slaves send, in whatever order connections come and go and
    the master answers, no pointer to a connection outlives it, no entry of the pool is used
    out of range, no master is called that is not there, no message is answered twice and no
    job comes back to a client that does not wait.  The conditions are [careful] (see there),
    that the patterns of requests compile, and that fewer than 2^32 - 1 notifications have
    been created. *)
Theorem orderly_run_faultless `{Env} slave file id cacheOpt asyncOpt sig evs :
  let s := exec (run_all evs) (start slave file id cacheOpt asyncOpt sig) in
  orderly evs (start slave file id cacheOpt asyncOpt sig) -> sb_exhausted s = false ->
  sb_faults s = [] /\
  (forall k n c, n ∈ nl_get k s -> n_host n = Some c ->
    exists cn, sb_conns s !! c = Some cn /\ n_notificationID n ∈ cd_mNotificationList (cn_mData cn)) /\
  (forall j c, j ∈ sb_mQueue s -> job_ctx j = Some c -> conn_state c s = Some CS_DEFERRED).
Proof.
  cbv zeta. intros Hev Hex. pose proof (steady_run_all slave evs _ Hev (steady_start slave file id cacheOpt asyncOpt sig)) as Hs.
  revert Hs Hex. generalize (exec (run_all evs) (start slave file id cacheOpt asyncOpt sig)). intros s Hs Hex.
  split; [by apply (steady_faultless slave)|].
  destruct Hs as [_ [_ _ Hdue] _ [Hsp|(D & Cl & _ & (live & [-> _] & Hc))]]; [unfold spent in Hsp; congruence|].
  destruct Hc as [_ Hdom [_ _ Hhost] _ Hjobs _]. cbn in Hdom, Hhost, Hjobs. split.
  - intros k n c Hn Hh. destruct (Hhost (n_notificationID n) c) as (l & Hl & [[=]|Hi]).
    { rewrite (all_keys_split k). apply elem_of_app. left. apply list_elem_of_fmap. exists n. unfold key. by rewrite Hh. }
    destruct (id_lists_lookup c l s Hl) as (cn & Hcn & <-). by exists cn.
  - intros j c Hj Hjc. rewrite Forall_forall in Hjobs. destruct (Hjobs j Hj) as [Hin _]. specialize (Hin c Hjc).
    rewrite <- Hdom in Hin. apply elem_of_dom in Hin as [l Hl]. destruct (id_lists_lookup c l s Hl) as (cn & Hcn & _).
    rewrite <- states_lookup. assert (states s !! c = Some (cn_mState cn)) as Hst
      by (rewrite states_lookup; unfold conn_state; by rewrite Hcn).
    rewrite Hst. destruct (Hdue c _ Hst) as [Hle _]. assert (c ∈ waiting s) as Hw by (apply list_elem_of_omap; by exists j).
    apply list_elem_of_In, (count_occ_In Z.eq_dec) in Hw. unfold jobs_for in Hle. unfold due in Hle.
    case_bool_decide as Hd; [by rewrite Hd|lia].
Qed.

(** A slave with clients 1, 2 and 3 and its own slave 4: the clients 1 and 3 set notifications,
    2 waits for the master, 4 announces itself and 3 hangs up. *)
Definition hosts_events : list Event :=
  [Ev_link true; Ev_connect 0 0; Ev_connect 0 0; Ev_connect 0 0; Ev_connect 5 6;
   Ev_credentials 1 100 0 true; Ev_credentials 2 100 0 true; Ev_credentials 3 100 0 true;
   Ev_request 1 (demo_frame (RQ_NotifyServerDisconnect (mkParty 7 2000) (mkPulse 1 2 3 4))) WR_complete;
   Ev_request 3 (demo_frame (RQ_NotifyClientDetach (mkParty 8 2000) (mkPulse 1 2 3 4))) WR_complete;
   Ev_request 2 (demo_frame (RQ_Attach demo_descr)) WR_complete;
   Ev_request 4 (demo_frame (RQ_MasterPingId 2000)) WR_complete;
   Ev_hangup 3].

Abbreviation hosts_start := (start true None (-1) false false (0, 0)).
Abbreviation hosts_state := (exec (run_all hosts_events) hosts_start).

Lemma hosts_orderly : orderly hosts_events hosts_start.
Proof.
  cbn [orderly hosts_events].
  split_and!; first [exact I | left; by vm_compute | split; [left; by vm_compute | exact I] | idtac]; [by vm_compute|].
  match goal with |- careful _ ?s => assert (sb_mClients s = []) as Hno by (vm_compute; reflexivity); revert Hno; generalize s end.
  intros s Hno. hnf. rewrite Hno.
  split; [apply not_elem_of_nil|intros v Hv; by apply elem_of_nil in Hv].
Qed.

Lemma orderly_run_faultless_witness :
  sb_faults hosts_state = [] /\
  (exists n cn, nl_get mServerDisconnectNotifications hosts_state = [n] /\ n_host n = Some 1 /\
    sb_conns hosts_state !! 1 = Some cn /\ n_notificationID n ∈ cd_mNotificationList (cn_mData cn)) /\
  (exists j, j ∈ sb_mQueue hosts_state /\ job_ctx j = Some 2 /\ conn_state 2 hosts_state = Some CS_DEFERRED).
Proof.
  pose proof (orderly_run_faultless true None (-1) false false (0, 0) hosts_events hosts_orderly) as Hrun.
  cbv zeta in Hrun. destruct Hrun as (Hf & Hn & Hj); [by vm_compute|].
  split; [exact Hf|]. split.
  - destruct (nl_get mServerDisconnectNotifications hosts_state) as [|n l] eqn:En; [by vm_compute in En|].
    assert (n_host n = Some 1 /\ l = []) as [Hh ->] by (vm_compute in En; injection En as <- <-; by split).
    assert (n ∈ nl_get mServerDisconnectNotifications hosts_state) as Hin by (rewrite En; left).
    destruct (Hn mServerDisconnectNotifications n 1 Hin Hh) as (cn & Hcn & Hi). exists n, cn. split_and!; [reflexivity|exact Hh|exact Hcn|exact Hi].
  - destruct (find_first (fun j => bool_decide (job_ctx j = Some 2)) (sb_mQueue hosts_state)) as [j|] eqn:Ej; [|by vm_compute in Ej].
    apply find_first_Some in Ej as [Hin Hc%bool_decide_eq_true]. exists j. split_and!; [exact Hin|exact Hc|].
    exact (Hj j 2 Hin Hc).
Defined.

(** A slave that announces itself twice on a connection is closed while its request is evaluated. *)
Definition twice_events : list Event :=
  [Ev_connect 5 6; Ev_request 1 (demo_frame (RQ_MasterPingId 2000)) WR_complete;
   Ev_request 1 (demo_frame (RQ_MasterPingId 2000)) WR_complete].

Lemma slave_announced_twice_dangles :
  all_enabled twice_events (demo_start false) /\
  sb_faults (exec (run_all twice_events) (demo_start false)) = [F_connection].
Proof.
  split; [|by vm_compute]. cbn [all_enabled twice_events].
  split_and!; first [exact I | split; [left; by vm_compute | exact I]].
Qed.

(** A slave that connects again while an attach of its old connection waits for the master: the old
    connection is disposed, and the answer is sent through it. *)
Definition again_events : list Event :=
  [Ev_link true; Ev_connect 5 6; Ev_request 1 (demo_frame (RQ_MasterPingId 2000)) WR_complete;
   Ev_request 1 (demo_frame (RQ_Attach demo_descr)) WR_complete;
   Ev_connect 5 6; Ev_request 2 (demo_frame (RQ_MasterPingId 2000)) WR_complete; demo_lost].

Lemma slave_connected_again_dangles :
  all_enabled again_events (demo_start true) /\
  sb_faults (exec (run_all again_events) (demo_start true)) = [F_connection; F_job; F_connection].
Proof.
  split; [|by vm_compute]. cbn [all_enabled again_events].
  split_and!; first [exact I | split; [left; by vm_compute | exact I] | idtac]; [by vm_compute|].
  eexists _, _. split; vm_compute; reflexivity.
Qed.
