(* ===== verification/Accept.v ===== *)
(** The acceptors of the servicebroker: [ServicebrokerServer::run], [initSocket] and the
    handlers of new connections in [src/servicebroker/ServicebrokerServer.{hpp,cpp}], the
    ports of [src/servicebroker/util.cpp] and [AcceptEvent] of [src/common/CHandlerT.hpp].

    The kernel is a parameter: what [socket], [bind] and [listen] return in the [n]-th round of
    the loop of [run].  The one thing the theorems use of it is that [bind] refuses a socket
    that is bound already. *)

From S2P Require Import Prelude.
From S2P Require Import Layout.
From S2P Require Import Types.
From S2P Require Import ServerList.
From S2P Require Import Environment.
From S2P Require Import State.
From S2P Require Import Notify.
From S2P Require Import Dispatch.
From S2P Require Import Frames.
From S2P Require Import Access.
From S2P Require Import Wire.
From S2P Require Import Devices.
From S2P Require Import Dispatcher.
From S2P Require Import Http.

(** ** Ports *)

Definition SB_MASTER_PORT : Z := 3746.
Definition SB_SLAVE_PORT : Z := 3747.
Definition SB_HTTP_PORT : Z := 3744.

(** The environment variable that replaces a port. *)
Definition getPortEnvName (port : Z) : option string :=
  if port =? SB_MASTER_PORT then Some "SB_MASTER_PORT"%string
  else if port =? SB_SLAVE_PORT then Some "SB_SLAVE_PORT"%string
  else if port =? SB_HTTP_PORT then Some "SB_HTTP_PORT"%string
  else None.

(** ** Acceptors *)

(** A listening socket: its descriptor, whether [bind] and [listen] have succeeded on it, the
    address it is bound to, and how many accept events are armed on it. *)
Record Acceptor := mkAcceptor {
  ac_open : bool;
  ac_bound : bool;
  ac_listens : bool;
  ac_ip : Z;
  ac_armed : nat;
}.
#[export] Instance Eta_Acceptor : Eta Acceptor := fun a =>
  mkAcceptor (ac_open a) (ac_bound a) (ac_listens a) (ac_ip a) (ac_armed a).

(** The kernel's answers in round [n]; [k_bind] is told whether the socket is bound. *)
Class NetKernel := {
  k_getenv : string -> option bytes;
  k_socket : nat -> bool;
  k_bind : nat -> bool -> Z -> Z -> Z;
  k_listen : nat -> Z -> Z;
  k_inet_pton : bytes -> option Z;
}.

Section run.
Context `{NetKernel}.

Definition getRealPort (port : Z) : Z :=
  match getPortEnvName port ≫= k_getenv with Some s => atoi s | None => port end.

(** [Acceptor::Acceptor(Dispatcher&)] opens the socket. *)
Definition new_Acceptor (opened : bool) : Acceptor := mkAcceptor opened false false 0 0.

(** [Acceptor::bind] and [Acceptor::listen]: error codes. *)
Definition ac_bind (n : nat) (ip port : Z) (a : Acceptor) : Z * Acceptor :=
  let rc := k_bind n (ac_bound a) ip port in
  if rc =? 0 then (ec_ok, a <| ac_bound := true |> <| ac_ip := ip |>) else (to_error_code rc, a).

Definition ac_listen (n : nat) (port : Z) (a : Acceptor) : Z * Acceptor :=
  let rc := k_listen n port in
  if rc =? 0 then (ec_ok, a <| ac_listens := true |>) else (to_error_code rc, a).

(** [initSocket]; [ip] 0 is any address. *)
Definition initSocket (n : nat) (a : Acceptor) (port ip : Z) : bool * Acceptor :=
  let port := getRealPort port in
  let '(result, a) := if ac_open a then (true, a) else (k_socket n, a <| ac_open := k_socket n |>) in
  if result then
    let '(ec, a) := ac_bind n ip port a in
    if ec =? ec_ok then
      let '(ec, a) := ac_listen n port a in (ec =? ec_ok, a)
    else (false, a)
  else (false, a).

(** [async_accept] arms one event. *)
Definition async_accept (a : Acceptor) : Acceptor := a <| ac_armed ::= S |>.

(** [HTTPMixin::init] and [NotificationMixin::init]. *)
Definition mixin_init (n : nat) (port : Z) (a : Acceptor) : bool * Acceptor :=
  let '(ok, a) := initSocket n a port 0 in
  if ok then (true, async_accept a) else (false, a).

(** ** [ServicebrokerServer::run] *)

Definition MAX_IPS_TO_BIND : nat := 5.

(** [parseIPs]: the addresses stored, in order. *)
Definition parseIPs (dottedIps : bytes) : list Z := omap k_inet_pton (tokens "," dottedIps).

(** [mFlags], whether there is a master, and [mBindIPs]. *)
Record Options := mkOptions {
  op_tcp_master : bool;
  op_tcp_slave : bool;
  op_http : bool;
  op_master : bool;
  op_bindIPs : option bytes;
}.

(** The server's acceptors and the local variables of [run]; [ss_left] is [ipsToBind]. *)
Record Sockets := mkSockets {
  ss_tcp : list Acceptor;
  ss_bindStatus : list bool;
  ss_left : Z;
  ss_http : Acceptor;
  ss_notification : Acceptor;
}.
#[export] Instance Eta_Sockets : Eta Sockets := fun s =>
  mkSockets (ss_tcp s) (ss_bindStatus s) (ss_left s) (ss_http s) (ss_notification s).

Definition bind_ips (o : Options) : list Z := match op_bindIPs o with Some s => parseIPs s | None => [] end.

(** [mBindFeatureActive]. *)
Definition bindFeatureActive (o : Options) : bool := bool_decide (bind_ips o <> []).

(** The beginning of [run]; [opened] tells whether the constructors could open a socket. *)
Definition start_sockets (o : Options) (opened : bool) (http notification : Acceptor) : Sockets :=
  let ipsToBind := match op_bindIPs o with Some s => length (parseIPs s) | None => 1%nat end in
  mkSockets (replicate ipsToBind (new_Acceptor opened)) (replicate MAX_IPS_TO_BIND false) (u16 (Z.of_nat ipsToBind))
    http notification.

(** The loop over the bound addresses; [None] is an access behind [bindStatus] or [ips]. *)
Fixpoint bind_loop (n : nat) (l : list Acceptor) (st : list bool) (ips : list Z) (toBind : Z)
    : option (list Acceptor * list bool * Z) :=
  match l, st, ips with
  | [], _, _ => Some ([], st, toBind)
  | a :: l, true :: st, _ :: ips =>
    '(l, st, toBind) ← bind_loop n l st ips toBind; Some (a :: l, true :: st, toBind)
  | a :: l, false :: st, ip :: ips =>
    let '(ok, a) := initSocket n a SB_MASTER_PORT ip in
    let a := if ok then async_accept a else a in
    '(l, st, toBind) ← bind_loop n l st ips (if ok then u16 (toBind - 1) else toBind);
    Some (a :: l, ok :: st, toBind)
  | _, _, _ => None
  end.

(** The first part of a round: are the slaves' connections accepted?  [None] when the first
    element of an empty [mServerSockets] is used. *)
Definition tcp_init (n : nat) (o : Options) (s : Sockets) : option (bool * Sockets) :=
  if op_tcp_master o then
    if bindFeatureActive o then
      '(l, st, toBind) ← bind_loop n (ss_tcp s) (ss_bindStatus s) (bind_ips o) (ss_left s);
      Some (toBind =? 0, s <| ss_tcp := l |> <| ss_bindStatus := st |> <| ss_left := toBind |>)
    else
      match ss_tcp s with
      | a :: l => let '(ok, a) := mixin_init n SB_MASTER_PORT a in Some (ok, s <| ss_tcp := a :: l |>)
      | [] => None
      end
  else Some (true, s).

Definition http_init (n : nat) (o : Options) (s : Sockets) : bool * Sockets :=
  if op_http o then
    let '(ok, a) := mixin_init n SB_HTTP_PORT (ss_http s) in (ok, s <| ss_http := a |>)
  else (true, s).

Definition notification_init (n : nat) (o : Options) (s : Sockets) : bool * Sockets :=
  if op_master o && op_tcp_slave o then
    let '(ok, a) := mixin_init n SB_SLAVE_PORT (ss_notification s) in (ok, s <| ss_notification := a |>)
  else (true, s).

(** One round up to [mService.run]; false is [continue]. *)
Definition round (n : nat) (o : Options) (s : Sockets) : option (bool * Sockets) :=
  '(ok, s) ← tcp_init n o s;
  Some (if ok : bool then
    let '(ok, s) := http_init n o s in
    if ok then notification_init n o s else (false, s)
  else (false, s)).

(** The loop: [stopped n] is [mStopped] before round [n], [service n] what the dispatcher's
    [run] returns then.  The exit status and the sockets; [None] at the end of the fuel or
    after an access out of bounds. *)
Fixpoint server_loop (fuel : nat) (stopped : nat -> bool) (service : nat -> Z) (n : nat) (o : Options) (rc : Z) (s : Sockets)
    : option (Z * Sockets) :=
  if stopped n then Some (if rc =? 0 then 0 else 1, s)
  else match fuel with
  | O => None
  | S fuel =>
    '(ok, s) ← round n o s;
    if ok : bool then
      if service n =? 0 then Some (0, s) else server_loop fuel stopped service (S n) o (service n) s
    else server_loop fuel stopped service (S n) o rc s
  end.

End run.

(** ** When the service starts *)

Section startup.
Context `{NetKernel}.
Hypothesis rebind_refused : forall n ip port, k_bind n true ip port <> 0.

Lemma error_not_ok e : e <> 0 -> (to_error_code e =? ec_ok) = false.
Proof. intros He. unfold to_error_code. destruct (existsb _ _); [by apply Z.eqb_neq|done]. Qed.

(** A socket that is bound again stays as it is. *)
Lemma initSocket_bound n a port ip : ac_open a = true -> ac_bound a = true -> initSocket n a port ip = (false, a).
Proof.
  destruct a as [[] [] listens ip' armed]; intros [=] [=]. unfold initSocket, ac_bind. cbn -[getRealPort ec_ok].
  pose proof (rebind_refused n ip (getRealPort port)) as Hne. rewrite (proj2 (Z.eqb_neq _ _) Hne).
  by rewrite error_not_ok.
Qed.

(** [bind] and [listen] of a port would succeed. *)
Definition can_bind (n : nat) (port : Z) : bool := k_bind n false 0 (getRealPort port) =? 0.
Definition can_listen (n : nat) (port : Z) : bool := k_listen n (getRealPort port) =? 0.

Lemma initSocket_fresh n a port :
  ac_open a = true -> ac_bound a = false ->
  initSocket n a port 0 =
    (can_bind n port && can_listen n port,
     if can_bind n port then a <| ac_bound := true |> <| ac_ip := 0 |> <| ac_listens ::= orb (can_listen n port) |> else a).
Proof.
  destruct a as [[] [] listens ip' armed]; intros [=] [=].
  unfold initSocket, ac_bind, ac_listen, can_bind, can_listen. cbn -[getRealPort ec_ok to_error_code].
  destruct (Z.eqb_spec (k_bind n false 0 (getRealPort port)) 0) as [E|E]; [|by rewrite error_not_ok].
  cbn -[getRealPort ec_ok to_error_code].
  destruct (Z.eqb_spec (k_listen n (getRealPort port)) 0) as [E'|E']; [done|by rewrite error_not_ok].
Qed.

(** Without a list of addresses and with the slaves' socket. *)
Variable o : Options.
Hypothesis tcp : op_tcp_master o = true.
Hypothesis all_addresses : op_bindIPs o = None.

(** The other sockets could be opened at the start and are not bound. *)
Definition fresh (a : Acceptor) : Prop := ac_open a = true /\ ac_bound a = false.

(** A port is there in round [n]. *)
Definition free (n : nat) (port : Z) : bool := can_bind n port && can_listen n port.

(** The sockets behind that of the slaves can be set up in round [n]. *)
Definition others_free (n : nat) : bool :=
  (negb (op_http o) || free n SB_HTTP_PORT) && (negb (op_master o && op_tcp_slave o) || free n SB_SLAVE_PORT).

Record untouched (s : Sockets) : Prop := {
  un_tcp : exists a, ss_tcp s = [a] /\ fresh a;
  un_http : fresh (ss_http s);
  un_notification : fresh (ss_notification s);
}.

Definition stuck (s : Sockets) : Prop := exists a l, ss_tcp s = a :: l /\ ac_open a = true /\ ac_bound a = true.

Lemma not_active : bindFeatureActive o = false.
Proof. unfold bindFeatureActive, bind_ips. by rewrite all_addresses. Qed.

(** Once the slaves' socket is bound a round fails at it. *)
Lemma round_stuck n s : stuck s -> round n o s = Some (false, s).
Proof.
  intros (a & l & Hl & Ho & Hb). unfold round, tcp_init, mixin_init.
  rewrite tcp, not_active, Hl, initSocket_bound by done. cbn. destruct s. cbn in Hl. by rewrite <- Hl.
Qed.

Lemma mixin_init_fresh n port a : fresh a ->
  exists a', mixin_init n port a = (free n port, a') /\ ac_open a' = true /\ ac_bound a' = can_bind n port.
Proof.
  intros [Ho Hb]. unfold mixin_init, free. rewrite initSocket_fresh by done.
  destruct a as [[] [] listens ip armed]; try done.
  destruct (can_bind n port), (can_listen n port); eexists; repeat split.
Qed.

Lemma http_init_fresh n s : fresh (ss_http s) ->
  exists a, http_init n o s = (negb (op_http o) || free n SB_HTTP_PORT, s <| ss_http := a |>).
Proof.
  intros Hf. unfold http_init. destruct (op_http o); cbn [negb orb].
  - destruct (mixin_init_fresh n SB_HTTP_PORT _ Hf) as (a & -> & _). by eexists.
  - exists (ss_http s). by destruct s.
Qed.

Lemma notification_init_fresh n s : fresh (ss_notification s) ->
  exists a, notification_init n o s =
    (negb (op_master o && op_tcp_slave o) || free n SB_SLAVE_PORT, s <| ss_notification := a |>).
Proof.
  intros Hf. unfold notification_init. destruct (op_master o && op_tcp_slave o); cbn [negb orb].
  - destruct (mixin_init_fresh n SB_SLAVE_PORT _ Hf) as (a & -> & _). by eexists.
  - exists (ss_notification s). by destruct s.
Qed.

(** Before, a round succeeds when all ports are there, and it is the only one that does. *)
Lemma round_untouched n s : untouched s ->
  exists s', round n o s = Some (free n SB_MASTER_PORT && others_free n, s') /\
    if can_bind n SB_MASTER_PORT then stuck s' else untouched s'.
Proof.
  intros [(a & Hl & Hf) Hh Hn]. unfold round, tcp_init. rewrite tcp, not_active, Hl.
  destruct (mixin_init_fresh n SB_MASTER_PORT a Hf) as (a' & -> & Ho' & Hb').
  set (s1 := s <| ss_tcp := [a'] |>). cbn [mbind option_bind].
  assert (forall s', ss_tcp s' = [a'] -> can_bind n SB_MASTER_PORT = true -> stuck s') as Hst.
  { intros s' Hs' Hc. exists a', []. by rewrite Hb'. }
  destruct (free n SB_MASTER_PORT) eqn:Ef; cbn [andb].
  - assert (can_bind n SB_MASTER_PORT = true) as Hc by (by apply andb_true_iff in Ef as [? _]). rewrite Hc.
    destruct (http_init_fresh n s1 Hh) as (h & ->). unfold others_free. cbv beta iota.
    destruct (negb (op_http o) || free n SB_HTTP_PORT); cbn [andb].
    + match goal with |- context [notification_init n o ?s2] =>
        destruct (notification_init_fresh n s2 Hn) as (h' & ->) end.
      eexists. split; [reflexivity|]. by apply Hst.
    + eexists. split; [reflexivity|]. by apply Hst.
  - eexists. split; [reflexivity|]. destruct (can_bind n SB_MASTER_PORT) eqn:Hc; [by apply Hst|].
    split; [exists a'; unfold fresh; by rewrite Hb'|done..].
Qed.

(** The sockets before round [n], if the service has not been left before. *)
Fixpoint rounds (n : nat) (s : Sockets) : option Sockets :=
  match n with
  | O => Some s
  | S n => '(_, s) ← (rounds n s ≫= round n o); Some s
  end.

(** Round [n] begins the service. *)
Definition serves (n : nat) (s : Sockets) : Prop := exists s', rounds n s ≫= round n o = Some (true, s').

(** The slaves' port becomes free in round [n] and all others are then. *)
Definition ports_appear (n : nat) : Prop :=
  (forall m, (m < n)%nat -> can_bind m SB_MASTER_PORT = false) /\ free n SB_MASTER_PORT = true /\ others_free n = true.

Lemma rounds_spec n s : untouched s ->
  exists s', rounds n s = Some s' /\
    (untouched s' /\ (forall m, (m < n)%nat -> can_bind m SB_MASTER_PORT = false) \/
     stuck s' /\ exists m, (m < n)%nat /\ can_bind m SB_MASTER_PORT = true).
Proof.
  intros Hs. induction n as [|n (s' & E & IH)]; cbn [rounds].
  - exists s. split; [done|]. left. split; [done|lia].
  - rewrite E. cbn [mbind option_bind]. destruct IH as [[Hu Hno]|(Hst & m & Hm & Hc)].
    + destruct (round_untouched n s' Hu) as (s'' & -> & Hs''). exists s''. split; [done|].
      destruct (can_bind n SB_MASTER_PORT) eqn:Ec.
      * right. split; [done|]. exists n. split; [lia|done].
      * left. split; [done|]. intros m Hm. destruct (decide (m = n)) as [->|]; [done|]. apply Hno. lia.
    + rewrite (round_stuck n s' Hst). exists s'. split; [done|]. right. split; [done|]. exists m. split; [lia|done].
Qed.

Lemma serves_iff n s : untouched s -> serves n s <-> ports_appear n.
Proof.
  intros Hs. destruct (rounds_spec n s Hs) as (s' & E & H'). unfold serves, ports_appear. rewrite E. cbn [mbind option_bind].
  destruct H' as [[Hu Hno]|(Hst & m & Hm & Hc)].
  - destruct (round_untouched n s' Hu) as (s'' & -> & _). split.
    + intros [? [= [Hf Ho]%andb_true_iff _]]. done.
    + intros (_ & Hf & Ho). rewrite Hf, Ho. by eexists.
  - rewrite (round_stuck n s' Hst). split; [by intros [? [=]]|]. intros (Hno & _). by rewrite Hno in Hc.
Qed.

(** The loop over rounds that do not begin the service, until it is stopped. *)
Lemma server_loop_spins stopped service fuel : forall n rc s,
  (exists s0, untouched s0 /\ rounds n s0 = Some s /\ forall m, (m < n + fuel)%nat -> ~ serves m s0) ->
  (forall m, (m < n + fuel)%nat -> stopped m = false) ->
  exists s', server_loop fuel stopped service n o rc s =
    if stopped (n + fuel)%nat then Some (if rc =? 0 then 0 else 1, s') else None.
Proof.
  induction fuel as [|fuel IH]; intros n rc s (s0 & Hu & Hr & Hno) Hrun; cbn [server_loop].
  { rewrite Nat.add_0_r. exists s. by destruct (stopped n). }
  rewrite Hrun by lia. specialize (Hno n ltac:(lia)) as Hn. unfold serves in Hn. rewrite Hr in Hn. cbn in Hn.
  assert (exists b s', round n o s = Some (b, s')) as (b & s' & E).
  { destruct (rounds_spec n s0 Hu) as (s1 & E1 & H1). rewrite Hr in E1. injection E1 as <-.
    destruct H1 as [[Hu' _]|[Hst _]]; [destruct (round_untouched n s Hu') as (s' & -> & _); by eexists _, _|].
    rewrite (round_stuck n s Hst). by eexists _, _. }
  rewrite E. cbn. destruct b; [destruct Hn; by exists s'|]. rewrite <- Nat.add_succ_comm in *. apply IH; [|done].
  exists s0. split; [done|]. split; [|done]. cbn [rounds]. rewrite Hr. cbn. by rewrite E.
Qed.

(** It reaches the round that begins the service. *)
Lemma server_loop_serves stopped service n s0 : untouched s0 -> ports_appear n -> service n = 0 ->
  (forall m, (m <= n)%nat -> stopped m = false) ->
  forall fuel m rc s, (m <= n)%nat -> (n - m < fuel)%nat -> rounds m s0 = Some s ->
  exists s', server_loop fuel stopped service m o rc s = Some (0, s').
Proof.
  intros Hu Hp Hsv Hrun. induction fuel as [|fuel IH]; intros m rc s Hm Hf Hr; [lia|]. cbn [server_loop]. rewrite Hrun by done.
  destruct (decide (m = n)) as [->|Hne].
  - destruct (proj2 (serves_iff n s0 Hu) Hp) as (s' & E). rewrite Hr in E. cbn in E. rewrite E. cbn.
    rewrite Hsv. by eexists.
  - destruct Hp as (Hno & Hp). specialize (Hno m ltac:(lia)) as Hcm.
    destruct (rounds_spec m s0 Hu) as (s1 & E1 & [[Hu1 _]|(_ & k & Hk & Hck)]); rewrite Hr in E1; injection E1 as <-.
    2: { rewrite Hno in Hck by lia. done. }
    destruct (round_untouched m s Hu1) as (s' & E & _). rewrite E. unfold free. rewrite Hcm. cbn.
    apply IH; [lia..|]. cbn [rounds]. rewrite Hr. cbn. by rewrite E.
Qed.

End startup.

(** C39. A master that accepts slaves, is given no list of addresses to bind (no [mBindIPs];
    [no_address_crashes] and [bound_ports_are_retried] are about lists) and could open its
    sockets begins to serve in exactly one round at most: the first in which the slaves' port
    can be bound, if all its other ports are free in that very round.  If [stop] is not called
    until then (before a round; [stopped]), its loop ends with success when the service does.
    If there is no such round, the loop goes round until [stop] is called, and ends with
    failure then; without [stop] it never ends.  Nothing is ever accessed out of bounds. *)
Theorem startup_decided `{NetKernel} o stopped service :
  (forall n ip port, k_bind n true ip port <> 0) -> op_tcp_master o = true -> op_bindIPs o = None ->
  let s := start_sockets o true (new_Acceptor true) (new_Acceptor true) in
  (forall n, serves o n s <-> ports_appear o n) /\
  (forall n, exists s', rounds o n s = Some s') /\
  (forall n, ports_appear o n -> (forall m, (m <= n)%nat -> stopped m = false) -> service n = 0 ->
     exists s', server_loop (S n) stopped service 0 o (-1) s = Some (0, s')) /\
  (forall n, (forall m, (m < n)%nat -> stopped m = false /\ ~ ports_appear o m) ->
     exists s', server_loop n stopped service 0 o (-1) s = if stopped n then Some (1, s') else None).
Proof.
  intros Hre Ht Ha s. assert (untouched s) as Hu.
  { subst s. unfold start_sockets. rewrite Ha. cbn. split; [by eexists|done..]. }
  split; [intros n; by apply serves_iff|]. split; [|split].
  - intros n. destruct (rounds_spec Hre o Ht Ha n s Hu) as (s' & E & _). by exists s'.
  - intros n Hp Hrun Hsv. apply (server_loop_serves Hre o Ht Ha stopped service n s); by (done || lia).
  - intros n Hno. apply (server_loop_spins Hre o Ht Ha stopped service n 0 (-1) s).
    + exists s. split; [done|]. split; [done|]. intros m Hm Hs. destruct (Hno m Hm) as [_ Hp].
      by apply Hp, (serves_iff Hre o Ht Ha m s Hu).
    + intros m Hm. by apply Hno.
Qed.

(** The poll failing has the same effect: the sockets are bound, and the service is not resumed. *)
Lemma service_not_resumed `{NetKernel} o s fuel service n rc :
  (forall n ip port, k_bind n true ip port <> 0) -> op_tcp_master o = true -> op_bindIPs o = None ->
  stuck s -> server_loop fuel (fun _ => false) service n o rc s = None.
Proof.
  intros Hre Ht Ha Hs. revert n rc. induction fuel as [|fuel IH]; intros n rc; [done|]. cbn [server_loop].
  rewrite (round_stuck Hre o Ht Ha n s Hs). apply IH.
Qed.

(** ** New connections *)

Section connections.
Context `{NetKernel} `{Env}.

(** [getServerSocket]: the position of the acceptor in [mServerSockets], or [None]. *)
Definition getServerSocket (active : bool) (l : list Acceptor) (peer : Z) : option nat :=
  if active then fst <$> list_find (fun a => ac_ip a = peer) l
  else Some 0%nat.

(** [handleNewTcpClient]; [peer] and [local] are the addresses of the new socket.  The result
    tells whether to accept more. *)
Definition handleNewTcpClient (active : bool) (l : list Acceptor) (peer local err : Z) : M bool :=
  match getServerSocket active l peer with
  | None => mret false
  | Some _ =>
    whenM (err =? ec_ok) (new_client peer local);;
    mret true
  end.

Definition handleNewLocalClient (err : Z) : M bool :=
  whenM (err =? ec_ok) (new_client SB_LOCAL_NODE_ADDRESS SB_LOCAL_NODE_ADDRESS);;
  mret true.

(** *** Credentials *)

(** What [recvmsg] delivers: its result, the eight bytes of [auth_request], and the kernel's
    credentials of a local peer, if they come with the message. *)
Record AuthMessage := mkAuthMessage {
  am_len : Z;
  am_request : bytes;
  am_ucred : option (Z * Z);
}.

Definition auth_magic_ok (m : AuthMessage) : bool :=
  (am_len m =? 8) && (default 0 (am_request m !! 0%nat) =? 65) && (default 0 (am_request m !! 3%nat) =? 72).

(** [CredentialsEvent::eval] of a local ([unix]) or a TCP connection: the credentials it hands
    on and whether they are accepted.  A local message without credentials leaves a pointer
    the code does not test. *)
Definition credentials_eval (unix readable : bool) (m : AuthMessage) : option (Z * Z) * bool :=
  if readable then
    (if unix then am_ucred m else Some (i32_of (take 4 (drop 4 (am_request m))), u32 SB_UNKNOWN_USER_ID),
     auth_magic_ok m)
  else (Some (-1, u32 SB_UNKNOWN_USER_ID), false).

(** The event of the connection [c] with what it calls. *)
Definition credentials_event (c : Z) (unix readable : bool) (m : AuthMessage) : M unit :=
  match credentials_eval unix readable m with
  | (Some (pid, uid), ok) => handleCredentials c pid uid ok
  | (None, false) => handleCredentials c 0 0 false
  | (None, true) => fault F_connection
  end.

(** *** The supervision of TCP clients *)

(** [TimerMixin<IPv4::StreamSocket>]: [operations_], an unsigned counter. *)
Definition tick (operations : Z) : Z := u32 (operations + 1).

(** [handleTimeout] of the connection [c]: whether to arm the timer again, and the counter. *)
Definition handleTimeout (c err operations : Z) : M (bool * Z) :=
  if err =? ec_ok then
    if 0 <? operations then mret (true, 0) else close_client c;; mret (false, operations)
  else mret (false, operations).

(** What happens to a supervised connection: [handleRead] is called, or the timer expires. *)
Inductive Watch := W_read | W_timeout.

(** The counter, or [None] after the connection has been closed. *)
Fixpoint watch (l : list Watch) (operations : Z) : option Z :=
  match l with
  | [] => Some operations
  | W_read :: l => watch l (tick operations)
  | W_timeout :: l => if 0 <? operations then watch l 0 else None
  end.

(** [reads] calls of [handleRead], and then the timer, for each period. *)
Definition periods (reads : list nat) : list Watch :=
  reads ≫= fun n => replicate n W_read ++ [W_timeout].

(** *** The master's notification socket *)

(** [TCPMasterNotificationReceiver::handleRead]: goes on reading after a pulse, and is deleted
    otherwise. *)
Definition receive_pulse (err code value : Z) : M bool :=
  if err =? ec_ok then dispatch_pulse code value None;; mret true
  else mret false.

(** *** Who stays *)

Lemma watch_reads n l operations :
  0 <= operations < 2 ^ 32 -> watch (replicate n W_read ++ l) operations = watch l (u32 (operations + Z.of_nat n)).
Proof.
  revert operations. induction n as [|n IH]; intros ops Hops; cbn [replicate app watch].
  - by rewrite Z.add_0_r, u32_id.
  - unfold tick. rewrite IH by apply u32_range. f_equal. unfold u32. rewrite Zplus_mod_idemp_l. f_equal. lia.
Qed.

(** A TCP client stays exactly as long as something is read from it between any two expirations
    of the timer, a multiple of 2^32 reads counting as none. *)
Lemma watch_periods reads : watch (periods reads) 0 = Some 0 <-> Forall (fun n => u32 (Z.of_nat n) <> 0) reads.
Proof.
  induction reads as [|n reads IH]; [done|]. rewrite Forall_cons, <- IH.
  change (periods (n :: reads)) with ((replicate n W_read ++ [W_timeout]) ++ periods reads).
  rewrite <- app_assoc, watch_reads by lia. cbn [app watch]. rewrite Z.add_0_l.
  pose proof (u32_range (Z.of_nat n)). destruct (Z.ltb_spec 0 (u32 (Z.of_nat n))); [naive_solver lia|].
  split; [done|]. intros [Hn _]. unfold is_u32 in *. lia.
Qed.

(** [handleTimeout] is one step of it. *)
Lemma handleTimeout_watch c operations s :
  0 <= operations ->
  match watch [W_timeout] operations with
  | Some n => exec (handleTimeout c ec_ok operations) s = s /\ eval (handleTimeout c ec_ok operations) s = (true, n)
  | None => exec (handleTimeout c ec_ok operations) s = exec (close_client c) s
  end.
Proof.
  intros Hops. unfold handleTimeout. cbn. destruct (Z.ltb_spec 0 operations); [done|]. by rewrite exec_bind.
Qed.

(** *** Who gets in *)

Lemma exec_new_client node local s :
  sb_conns (exec (new_client node local) s) = <[sb_nextId s := new_Connection node local]> (sb_conns s) /\
  sb_nextId (exec (new_client node local) s) = sb_nextId s + 1.
Proof. unfold new_client. by rewrite exec_getS, exec_modify. Qed.

Lemma exec_handleCredentials c pid uid s cn :
  sb_conns s !! c = Some cn ->
  sb_conns (exec (handleCredentials c pid uid true) s) !! c = Some (cn <| cn_mPid := pid |> <| cn_mUid := uid |>).
Proof.
  intros Hc. unfold handleCredentials, upd_conn. rewrite exec_getS, Hc, exec_modify. cbn. apply lookup_insert_eq.
Qed.

(** A client that connects by TCP is given the user nobody knows, whatever it sends: a server
    that is protected by a group is out of its reach. *)
Lemma tcp_client_ungrouped c m s cn e :
  sb_conns s !! c = Some cn -> auth_magic_ok m = true ->
  exists cn', sb_conns (exec (credentials_event c false true m) s) !! c = Some cn' /\
    (may_use cn' e <-> sv_grpid e = SB_UNKNOWN_GROUP_ID).
Proof.
  intros Hc Hm. unfold credentials_event, credentials_eval. rewrite Hm.
  eexists. split; [by apply exec_handleCredentials|]. unfold may_use. cbn. split; [|by left].
  intros [?|(_ & Hu & _)]; [done|]. by destruct Hu.
Qed.

(** A client that is refused, or whose connection breaks before it has introduced itself, is
    closed. *)
Lemma stranger_closed c unix (readable : bool) m s :
  (if readable then auth_magic_ok m else false) = false ->
  exec (credentials_event c unix readable m) s = exec (close_client c) s.
Proof.
  intros Hm. unfold credentials_event, credentials_eval. destruct readable; cbn [fst]; [|done]. rewrite Hm.
  destruct unix; [|done]. by destruct (am_ucred m) as [[pid uid]|].
Qed.

End connections.

(** With a list of addresses the slaves' connections are compared with the address they came to,
    not with the one they come from. *)
Lemma bound_master_refuses_slaves `{NetKernel} `{Env} l peer local s :
  Forall (fun a => ac_ip a <> peer) l ->
  eval (handleNewTcpClient true l peer local ec_ok) s = false /\
  exec (handleNewTcpClient true l peer local ec_ok) s = s.
Proof.
  intros Hl. unfold handleNewTcpClient, getServerSocket.
  destruct (list_find (fun a => ac_ip a = peer) l) as [[i a]|] eqn:E; [|done].
  apply list_find_Some in E as (Hi & Hp & _). rewrite Forall_lookup in Hl. by destruct (Hl i a Hi).
Qed.

(** ** Witnesses *)

(** A host on which ports are taken until a round, and nobody has set a variable. *)
Definition demo_kernel (master http : nat) : NetKernel := {|
  k_getenv := fun _ => None;
  k_socket := fun _ => true;
  k_bind := fun n bound ip port =>
    if bound then 22
    else if (n <? (if Z.eqb port SB_MASTER_PORT then master else if Z.eqb port SB_HTTP_PORT then http else 0%nat))%nat
      then 98 else 0;
  k_listen := fun _ _ => 0;
  k_inet_pton := fun _ => None;
|}.

Definition demo_options : Options := mkOptions true false true false None.

Lemma demo_rebind master http n ip port : @k_bind (demo_kernel master http) n true ip port <> 0.
Proof. done. Qed.

Lemma startup_decided_witness :
  let s := @start_sockets (demo_kernel 2 1) demo_options true (new_Acceptor true) (new_Acceptor true) in
  @serves (demo_kernel 2 1) demo_options 2 s /\ ~ @serves (demo_kernel 2 1) demo_options 3 s /\
  (exists s', @server_loop (demo_kernel 2 1) 3 (fun _ => false) (fun _ => 0) 0 demo_options (-1) s = Some (0, s')) /\
  (exists s', @server_loop (demo_kernel 2 1) 1 (Nat.eqb 1) (fun _ => 0) 0 demo_options (-1) s = Some (1, s')).
Proof.
  destruct (@startup_decided (demo_kernel 2 1) demo_options (fun _ => false) (fun _ => 0) (demo_rebind 2 1) eq_refl eq_refl)
    as (Hs & _ & Hok & _).
  destruct (@startup_decided (demo_kernel 2 1) demo_options (Nat.eqb 1) (fun _ => 0) (demo_rebind 2 1) eq_refl eq_refl)
    as (_ & _ & _ & Hstop).
  assert (@ports_appear (demo_kernel 2 1) demo_options 2) as Hp.
  { split; [|split; reflexivity]. intros m Hm. destruct m as [|[|m]]; [reflexivity..|lia]. }
  split; [by apply Hs|]. split; [|split].
  - intros [Hno _]%Hs. specialize (Hno 2%nat ltac:(lia)). discriminate Hno.
  - by apply Hok.
  - apply (Hstop 1%nat). intros m Hm. assert (m = 0%nat) as -> by lia. split; [reflexivity|].
    intros (_ & Hf & _). discriminate Hf.
Defined.

(** When the port of the status pages becomes free only after that of the slaves, the
    servicebroker goes round for ever. *)
Lemma late_http_port_spins fuel :
  @server_loop (demo_kernel 0 1) fuel (fun _ => false) (fun _ => 0) 0 demo_options (-1)
    (@start_sockets (demo_kernel 0 1) demo_options true (new_Acceptor true) (new_Acceptor true)) = None.
Proof.
  set (s := start_sockets _ _ _ _).
  assert (untouched s) as Hu by (split; [by eexists|done..]).
  destruct (@server_loop_spins (demo_kernel 0 1) (demo_rebind 0 1) demo_options eq_refl eq_refl
    (fun _ => false) (fun _ => 0) fuel 0 (-1) s) as (s' & ->); [|done..].
  exists s. split; [done|]. split; [done|].
  intros m _ [Hno [Hf Ho]]%(@serves_iff (demo_kernel 0 1) (demo_rebind 0 1)); [|done..].
  destruct m as [|m]; [discriminate Ho|]. specialize (Hno 0%nat ltac:(lia)). discriminate Hno.
Qed.

(** With a list of addresses the rounds that follow do not bind the slaves' sockets again: the
    same ports lead to the service. *)
Lemma bound_ports_are_retried :
  let K := {| k_getenv := fun _ => None; k_socket := fun _ => true; k_bind := @k_bind (demo_kernel 0 1);
    k_listen := fun _ _ => 0; k_inet_pton := fun _ => Some 1 |} in
  let o := mkOptions true false true false (Some (bytes_of_string "0.0.0.1")) in
  exists s, @server_loop K 2 (fun _ => false) (fun _ => 0) 0 o (-1)
    (@start_sockets K o true (new_Acceptor true) (new_Acceptor true)) = Some (0, s).
Proof. eexists. vm_compute. reflexivity. Qed.

(** A list without a single address leaves no socket, and the first one is used all the same. *)
Lemma no_address_crashes :
  let o := mkOptions true false true false (Some (bytes_of_string "localhost")) in
  @round (demo_kernel 0 0) 0 o (@start_sockets (demo_kernel 0 0) o true (new_Acceptor true) (new_Acceptor true)) = None.
Proof. by vm_compute. Qed.
