(* ===== verification/Startup.v ===== *)
(** The start of the servicebroker: the options of [main] in [src/servicebroker/Main.cpp], the
    address of the master ([IPv4::Endpoint] of [src/common/CEndPoint.hpp]) and what they make
    of the servicebroker and its sockets. *)

From S2P Require Import Prelude.
From S2P Require Import Types.
From S2P Require Import ConfigFile.
From S2P Require Import State.
From S2P Require Import System.
From S2P Require Import ClientIo.
From S2P Require Import ClientLib.
From S2P Require Import Http.
From S2P Require Import Accept.

(** ** Addresses *)

(** An IPv4 address and a port, both in host byte order. *)
Record IPv4Endpoint := mkIPv4Endpoint { ep_ip : Z; ep_port : Z }.

(** The constructor from a string: what stands before and behind the first colon of the first 31
    characters; [inet_addr] is the library's, with its result in host byte order.  Without a
    colon the address stays zero. *)
Fixpoint split_colon (s : bytes) : option (bytes * bytes) :=
  match s with
  | [] => None
  | b :: s => if b =? 58 then Some ([], s) else prod_map (cons b) id <$> split_colon s
  end.

Definition endpoint_of_string (inet_addr : bytes -> Z) (addr : bytes) : IPv4Endpoint :=
  match split_colon (take 31 addr) with
  | Some (ip, port) => mkIPv4Endpoint (inet_addr ip) (u16 (atoi port))
  | None => mkIPv4Endpoint 0 0
  end.

(** [MasterConnectorSocket::MasterConnectorSocket]: the assertion on the address. *)
Definition master_endpoint (inet_addr : bytes -> Z) (addr : bytes) : option IPv4Endpoint :=
  let e := endpoint_of_string inet_addr addr in
  if negb (ep_ip e =? 0) && negb (ep_port e =? 0) then Some e else None.

(** ** Options *)

(** The results of [getopt], with [optarg] where the option has an argument. *)
Inductive Option_ :=
  | OPT_v | OPT_f (config : bytes) | OPT_p (mountpoint : bytes) | OPT_c | OPT_t | OPT_b (ips : bytes)
  | OPT_m (address : bytes) | OPT_d | OPT_h | OPT_i (id : bytes) | OPT_a | OPT_C
  | OPT_other.

(** The local variables of [main]. *)
Record Settings := mkSettings {
  st_enable_tcp : bool;
  st_verbose : Z;
  st_daemonize : bool;
  st_console : bool;
  st_asyncMode : bool;
  st_useServerCache : bool;
  st_id : Z;
  st_masterAddress : option bytes;
  st_mountpoint : bytes;
  st_config : option bytes;
  st_bindIPs : option bytes;
}.
#[export] Instance Eta_Settings : Eta Settings := fun s =>
  mkSettings (st_enable_tcp s) (st_verbose s) (st_daemonize s) (st_console s) (st_asyncMode s) (st_useServerCache s)
    (st_id s) (st_masterAddress s) (st_mountpoint s) (st_config s) (st_bindIPs s).

Definition FND_SERVICEBROKER_PATHNAME : bytes := bytes_of_string "/servicebroker".

Definition default_settings : Settings :=
  mkSettings false 0 true false false false (-1) None FND_SERVICEBROKER_PATHNAME None None.

(** The loop over the options: the exit status of [main], or the settings. *)
Fixpoint scan_options (opts : list Option_) (s : Settings) : Z + Settings :=
  match opts with
  | [] => inr s
  | OPT_v :: opts => scan_options opts (s <| st_verbose ::= Z.add 1 |>)
  | OPT_f file :: opts => scan_options opts (s <| st_config := Some file |>)
  | OPT_p path :: opts => scan_options opts (s <| st_mountpoint := path |>)
  | OPT_c :: opts => scan_options opts (s <| st_console := true |>)
  | OPT_t :: opts => scan_options opts (s <| st_enable_tcp := true |>)
  | OPT_b ips :: opts => scan_options opts (s <| st_enable_tcp := true |> <| st_bindIPs := Some ips |>)
  | OPT_m address :: opts => scan_options opts (s <| st_masterAddress := Some address |>)
  | OPT_d :: opts => scan_options opts (s <| st_daemonize := false |>)
  | OPT_h :: _ => inl 0
  | OPT_i arg :: opts =>
    let id := atoi arg in
    if id <? 1 then inl (-1) else scan_options opts (s <| st_id := id |>)
  | OPT_a :: opts => scan_options opts (s <| st_asyncMode := true |>)
  | OPT_C :: opts => scan_options opts (s <| st_useServerCache := true |>)
  | OPT_other :: _ => inl (-1)
  end.

Definition is_slave (s : Settings) : bool := bool_decide (st_masterAddress s <> None).

(** The flags of [ServicebrokerServer::init]. *)
Definition server_options (s : Settings) : Options :=
  mkOptions (st_enable_tcp s) (is_slave s) true (is_slave s) (st_bindIPs s).

(** [Servicebroker::init] with what [read] finds in the configuration. *)
Definition main_start (read : option bytes -> option bytes) (s : Settings) (sigAddr : Z * Z) : SB :=
  start (is_slave s) (read (st_config s)) (st_id s) (st_useServerCache s) (st_asyncMode s) sigAddr.

(** [ServicebrokerServer::init]: the calls up to the worker thread have to succeed.  [bound]
    and [listens] are those of the local acceptor, [piped] that of [pipe]; the length of the
    mount point is asserted. *)
Definition server_init (bound listens piped slave : bool) (mountpoint : bytes) : option bool :=
  if Z.of_nat (length mountpoint + length FND_SERVICEBROKER_ROOT) <? UNIX_PATH_MAX then
    Some (bound && listens && (if slave then piped else true))
  else None.

(** ** What the options make *)

Lemma scan_options_id opts : forall s s',
  scan_options opts s = inr s' -> st_id s = -1 \/ 1 <= st_id s -> st_id s' = -1 \/ 1 <= st_id s'.
Proof.
  induction opts as [|o opts IH]; intros s s'; cbn [scan_options]; [by intros [= <-]|].
  destruct o; try done; try (intros Hs Hid; by apply (IH _ _ Hs)).
  destruct (Z.ltb_spec (atoi id) 1) as [Hlt|Hge]; [done|]. intros Hs _. apply (IH _ _ Hs). cbn. lia.
Qed.

(** Whatever the options, the servicebroker starts with the status pages, receives pulses
    exactly when it has a master, caches nothing and never answers an attach before the master
    has, and is in tree mode exactly when it was given a number. *)
Lemma main_settings read opts s sigAddr :
  scan_options opts default_settings = inr s ->
  let o := server_options s in
  let b := main_start read s sigAddr in
  op_http o = true /\ op_tcp_slave o = op_master o /\ (sb_mAster b <> None <-> op_master o = true) /\
  sb_mUseServerCache b = false /\ sb_mAsyncMode b = false /\
  (cf_mTreeMode (sb_mConfig b) = true -> sb_mExtendedID b = st_id s /\ 1 <= st_id s).
Proof.
  intros Hs o b. split; [done|]. split; [done|]. split.
  { cbn. destruct (is_slave s); split; try done; congruence. }
  split; [done|]. split.
  { cbn. unfold main_asyncMode. cbn. rewrite andb_comm. by destruct (st_asyncMode s). }
  change (cf_mTreeMode (sb_mConfig b)) with (0 <? st_id s).
  change (sb_mExtendedID b) with (if 0 <? st_id s then st_id s else if is_slave s then 0 else 1000).
  intros Hid. rewrite Hid. apply Z.ltb_lt in Hid. split; [done|lia].
Qed.

(** The port of the master behind the colon, when it is a decimal number, reaches the socket
    modulo 2^16. *)
Lemma split_colon_app ip port : 58 ∉ ip -> split_colon (ip ++ 58 :: port) = Some (ip, port).
Proof.
  induction ip as [|b ip IH]; intros Hn; cbn [app split_colon]; [done|].
  rewrite not_elem_of_cons in Hn. rewrite (proj2 (Z.eqb_neq b 58)) by naive_solver.
  rewrite IH by naive_solver. done.
Qed.

Lemma endpoint_of_address inet_addr ip port :
  58 ∉ ip -> (length ip + length port < 31)%nat ->
  endpoint_of_string inet_addr (ip ++ 58 :: port) = mkIPv4Endpoint (inet_addr ip) (u16 (atoi port)).
Proof.
  intros Hn Hl. unfold endpoint_of_string. rewrite take_ge by (rewrite length_app; cbn; lia). by rewrite split_colon_app.
Qed.

(** An address that is too long loses digits of its port. *)
Example long_address_cut :
  ep_port (endpoint_of_string (fun _ => 1) (bytes_of_string "000192.000168.000000.000001:003746")) = 3.
Proof. by vm_compute. Qed.
