(* ===== verification/Attributes.v ===== *)
(** Attributes and their partial updates: [include/dsi/private/attributes.hpp] with the setter
    and the update handler the generated stub and proxy build from it
    ([src/gen/templates/CDSIStub.hpp.jet], [CDSIProxy.cpp.jet]).

    A server changes a part of a vector and sends that part; a client applies it to the vector
    it has.  The two functions are different code on both sides and meet in the stream: the
    theorem is that a client which had the server's value has it again after any number of
    updates.  Lemmas at the end show where it does not hold: vectors of more than 32767
    elements, and a client that never had the value. *)

From S2P Require Import Prelude.
From S2P Require Import Buffer.
From S2P Require Import Stream.
From S2P Require Import Serial.
From S2P Require Import Stub.

(** [enum UpdateType]. *)
Definition UPDATE_NONE : Z := -1.
Definition UPDATE_INSERT : Z := 1.
Definition UPDATE_REPLACE : Z := 2.
Definition UPDATE_DELETE : Z := 3.

(** Conversion to [int16_t]. *)
Definition i16 (x : Z) : Z := (x + 2 ^ 15) mod 2 ^ 16 - 2 ^ 15.

(** ** [std::vector]: a range that leaves the vector is undefined *)

Section vectors.
Context {A : Type}.

(** [t.insert(t.begin()+position, vec.begin(), vec.end())]. *)
Definition vec_insert (position : Z) (vec t : list A) : Outcome (list A) :=
  if (0 <=? position) && (position <=? Z.of_nat (length t)) then
    Done (take (Z.to_nat position) t ++ vec ++ drop (Z.to_nat position) t)
  else Undefined.

(** [std::copy(vec.begin(), vec.end(), t.begin()+position)]. *)
Definition vec_copy (position : Z) (vec t : list A) : Outcome (list A) :=
  if (0 <=? position) && (position + Z.of_nat (length vec) <=? Z.of_nat (length t)) then
    Done (take (Z.to_nat position) t ++ vec ++ drop (Z.to_nat position + length vec) t)
  else Undefined.

(** [t.erase(t.begin()+position, t.begin()+position+count)]. *)
Definition vec_erase_range (position count : Z) (t : list A) : Outcome (list A) :=
  if (0 <=? position) && (0 <=? count) && (position + count <=? Z.of_nat (length t)) then
    Done (take (Z.to_nat position) t ++ drop (Z.to_nat (position + count)) t)
  else Undefined.

End vectors.

(** ** Attributes *)

Section attribute.
Context {A : Type}.

Record Attribute := mkAttribute { at_mValue : A; at_mState : DataStateType }.

#[export] Instance Eta_Attribute : Eta Attribute := fun a => mkAttribute (at_mValue a) (at_mState a).

Definition isValid (a : Attribute) : bool := bool_decide (at_mState a = DATA_OK).

(** [ServerAttributeBase]. *)
Definition at_assign (data : A) (a : Attribute) : Attribute := a <| at_mValue := data |> <| at_mState := DATA_OK |>.
Definition at_invalidate (a : Attribute) : Attribute := a <| at_mState := DATA_INVALID |>.
Definition at_setState (state : DataStateType) (a : Attribute) : Attribute := a <| at_mState := state |>.

(** [ClientAttribute]. *)
Definition at_resetState (a : Attribute) : Attribute := a <| at_mState := DATA_NOT_AVAILABLE |>.

End attribute.
Arguments Attribute A : clear implicits.

Section partial.
Context `{Heap} (T : sty).

Abbreviation elements := (list (sty_type T)).

(** [ServerAttribute<std::vector<T> >::set]: the attribute, and the position and the count it
    hands back. *)
Definition at_set (from : elements) (type position count : Z) (a : Attribute elements)
    : Outcome (Attribute elements * Z * Z) :=
  let v := at_mValue a in
  let position := if position <? 0 then 0 else position in
  let size := i16 (Z.of_nat (length from)) in
  '(v, position, count) ←
    (if type =? UPDATE_COMPLETE then Done (from, 0, size)
     else if type =? UPDATE_INSERT then v ← vec_insert position from v; Done (v, position, size)
     else if type =? UPDATE_REPLACE then v ← vec_copy position from v; Done (v, position, size)
     else if type =? UPDATE_DELETE then
       let count := if count <? 0 then i16 (Z.of_nat (length v) - position) else count in
       v ← vec_erase_range position count v; Done (v, position, count)
     else Done (v, position, count));
  Done (mkAttribute v DATA_OK, position, count).

(** [writePartialAttribute]; [None] also stands for reading behind the vector. *)
Definition writePartialAttribute (t : elements) (type position count : Z) (b : CBuffer) : option CBuffer :=
  let position := if position <? 0 then 0 else position in
  let count := if count <? 0 then i16 (Z.of_nat (length t) - position) else count in
  b ← write_scalar SC_uint32 (u32 type) b;
  b ← write_scalar SC_int16 position b;
  b ← write_scalar SC_int16 count b;
  let size := if type =? UPDATE_DELETE then 0 else count in
  b ← write_scalar SC_int32 size b;
  if 0 <? size then
    if position + size <=? Z.of_nat (length t) then
      put_all T (take (Z.to_nat size) (drop (Z.to_nat position) t)) b
    else None
  else Some b.

(** The switch of [readPartialAttribute]. *)
Definition apply_update (type position count : Z) (vec t : elements) : Outcome elements :=
  if type =? UPDATE_COMPLETE then Done vec
  else if type =? UPDATE_INSERT then vec_insert position vec t
  else if type =? UPDATE_REPLACE then vec_copy position vec t
  else if type =? UPDATE_DELETE then vec_erase_range position count t
  else Done t.

(** [readPartialAttribute]: the new value with what it stores through its pointers.  The three
    variables are not initialised before they are read. *)
Definition readPartialAttribute (t : elements) (s : CIStream) : Outcome (elements * (Z * Z * Z) * CIStream) :=
  '(type, s) ← read_scalar SC_uint32 (sty_init (sty_scalar SC_uint32)) s;
  '(position, s) ← read_scalar SC_int16 (sty_init (sty_scalar SC_int16)) s;
  '(count, s) ← read_scalar SC_int16 (sty_init (sty_scalar SC_int16)) s;
  '(vec, s) ← get_vector T [] s;
  t ← apply_update (i32 type) position count vec t;
  Done (t, (i32 type, position, count), s).

(** ** The setter of the stub and the handler of the proxy *)

(** [set<Attribute>] of an attribute with partial updates, up to the data of the notification
    that [sendNotification] sends. *)
Definition publish (from : elements) (type position count : Z) (a : Attribute elements)
    : Outcome (Attribute elements * bytes) :=
  '(a, position, count) ← at_set from type position count a;
  match writePartialAttribute (at_mValue a) type position count (CBuffer_new powerOf2) with
  | Some b => Done (a, contents b)
  | None => Undefined
  end.

(** What a client is sent that registers for the attribute ([REQUEST_NOTIFY]): the value of a
    valid attribute, the state of an invalid one ([sendNotification] writes no value then), and
    nothing as long as there is none. *)
Definition subscribe (a : Attribute elements) : Outcome (option (DataStateType * bytes)) :=
  match at_mState a with
  | DATA_OK =>
    match writePartialAttribute (at_mValue a) UPDATE_COMPLETE (-1) (-1) (CBuffer_new powerOf2) with
    | Some b => Done (Some (DATA_OK, contents b))
    | None => Undefined
    end
  | DATA_INVALID => Done (Some (DATA_INVALID, []))
  | DATA_NOT_AVAILABLE => Done None
  end.

(** The case of the attribute in [processResponse]: [state] comes with the message.  The result
    tells what [on<Attribute>Update] is called with, if it is. *)
Definition process_update (state : DataStateType) (payload : bytes) (a : Attribute elements)
    : Outcome (Attribute elements * option (elements * DataStateType * (Z * Z * Z))) :=
  let a := a <| at_mState := state |> in
  match state with
  | DATA_OK =>
    '(v, args, s) ← readPartialAttribute (at_mValue a) (CIStream_new payload (Z.of_nat (length payload)));
    let a := a <| at_mValue := v |> in
    Done (a, if is_error s =? 0 then Some (v, state, args) else None)
  | DATA_INVALID => Done (a, Some (at_mValue a, state, (UPDATE_NONE, 0, 0)))
  | DATA_NOT_AVAILABLE => Done (a, None)
  end.

End partial.

(** The unit tests of the setters. *)
Example test_setters :
  let orig := mkAttribute [1; 2; 3; 4; 5; 6] DATA_OK in
  let set from type position count :=
    '(a, position, count) ← at_set (sty_scalar SC_int32) from type position count orig; Done (at_mValue a, position, count) in
  set [33; 34; 35] UPDATE_COMPLETE 0 0 = Done ([33; 34; 35], 0, 3) /\
  set [33; 34; 35] UPDATE_INSERT 3 1 = Done ([1; 2; 3; 33; 34; 35; 4; 5; 6], 3, 3) /\
  set [] UPDATE_DELETE 2 3 = Done ([1; 2; 6], 2, 3) /\
  set [] UPDATE_DELETE 2 (-1) = Done ([1; 2], 2, 4) /\
  set [33; 34] UPDATE_REPLACE 3 (-1) = Done ([1; 2; 3; 33; 34; 6], 3, 2).
Proof. vm_compute. done. Qed.

(** ** One update *)

Lemma i16_small x : 0 <= x < 2 ^ 15 -> i16 x = x.
Proof. intros H. unfold i16. rewrite Z.mod_small; lia. Qed.

Definition is_update (type : Z) : Prop := 0 <= type <= 3.

Section updates.
Context `{Heap} (T : sty).

Abbreviation elements := (list (sty_type T)).

(** What the server announces, [vec] being the elements it sends, turns [v] into [v']. *)
Record announced (type position count : Z) (vec v v' : elements) : Prop := {
  an_type : is_update type;
  an_position : 0 <= position < 2 ^ 15;
  an_count : 0 <= count < 2 ^ 15;
  an_deleted : type = UPDATE_DELETE -> vec = [];
  an_sent : type <> UPDATE_DELETE ->
    Z.of_nat (length vec) = count /\ position + count <= Z.of_nat (length v') /\
    take (length vec) (drop (Z.to_nat position) v') = vec;
  an_apply : apply_update T type position count vec v = Done v';
}.

Lemma vec_insert_sent position (vec v v' : elements) :
  vec_insert position vec v = Done v' ->
  0 <= position <= Z.of_nat (length v) /\ length v' = (length v + length vec)%nat /\
  take (length vec) (drop (Z.to_nat position) v') = vec.
Proof.
  unfold vec_insert. destruct (Z.leb_spec 0 position), (Z.leb_spec position (Z.of_nat (length v))); try done.
  intros [= <-]. split; [done|]. split; [rewrite !length_app, length_take, length_drop; lia|].
  rewrite drop_app_ge, length_take by (rewrite length_take; lia).
  replace (Z.to_nat position - Z.to_nat position `min` length v)%nat with 0%nat by lia.
  by rewrite drop_0, take_app_length.
Qed.

Lemma vec_copy_sent position (vec v v' : elements) :
  vec_copy position vec v = Done v' ->
  0 <= position /\ position + Z.of_nat (length vec) <= Z.of_nat (length v) /\ length v' = length v /\
  take (length vec) (drop (Z.to_nat position) v') = vec.
Proof.
  unfold vec_copy. destruct (Z.leb_spec 0 position); [|done].
  destruct (Z.leb_spec (position + Z.of_nat (length vec)) (Z.of_nat (length v))); [|done].
  intros [= <-]. do 2 (split; [done|]). split; [rewrite !length_app, length_take, length_drop; lia|].
  rewrite drop_app_ge, length_take by (rewrite length_take; lia).
  replace (Z.to_nat position - Z.to_nat position `min` length v)%nat with 0%nat by lia.
  by rewrite drop_0, take_app_length.
Qed.

(** What the setter hands back announces its effect. *)
Lemma at_set_announced from type position count a a' p c :
  is_update type -> position < 2 ^ 15 -> count < 2 ^ 15 -> Z.of_nat (length from) < 2 ^ 15 ->
  Z.of_nat (length (at_mValue a)) < 2 ^ 15 ->
  at_set T from type position count a = Done (a', p, c) ->
  announced type p c (if type =? UPDATE_DELETE then [] else from) (at_mValue a) (at_mValue a') /\ at_mState a' = DATA_OK.
Proof.
  intros Ht Hp Hc Hf Hv. unfold at_set. set (p0 := if position <? 0 then 0 else position).
  assert (0 <= p0 < 2 ^ 15) as Hp0 by (subst p0; destruct (Z.ltb_spec position 0); lia).
  rewrite i16_small by lia. assert (type = 0 \/ type = 1 \/ type = 2 \/ type = 3) as Hcase by (unfold is_update in Ht; lia).
  destruct Hcase as [-> |[-> |[-> | ->]]]; cbn -[Z.of_nat vec_insert vec_copy vec_erase_range Z.pow].
  - intros [= <- <- <-]. split; [|done]. split; try done; try lia.
    intros _. cbn. rewrite drop_0, firstn_all. repeat split; lia.
  - destruct (vec_insert p0 from (at_mValue a)) as [v'| |] eqn:E; [|done..].
    intros [= <- <- <-]. split; [|done]. destruct (vec_insert_sent _ _ _ _ E) as (Hp' & Hl & Hs).
    split; try done; try lia. intros _. cbn. split_and!; [done|lia|done].
  - destruct (vec_copy p0 from (at_mValue a)) as [v'| |] eqn:E; [|done..].
    intros [= <- <- <-]. split; [|done]. destruct (vec_copy_sent _ _ _ _ E) as (Hp' & Hle & Hl & Hs).
    split; try done; try lia. intros _. cbn. split_and!; [done|lia|done].
  - set (c0 := if count <? 0 then _ else count).
    destruct (vec_erase_range p0 c0 (at_mValue a)) as [v'| |] eqn:E; [|done..].
    intros [= <- <- <-]. split; [|done].
    assert (0 <= c0 < 2 ^ 15) as Hc0.
    { unfold vec_erase_range in E. destruct (Z.leb_spec 0 p0), (Z.leb_spec 0 c0); try done. cbn [andb] in E.
      destruct (Z.leb_spec (p0 + c0) (Z.of_nat (length (at_mValue a)))); [lia|done]. }
    by split.
Qed.

(** What is written then is a vector behind three scalars. *)
Lemma writePartialAttribute_announced type p c vec v v' b :
  announced type p c vec v v' ->
  writePartialAttribute T v' type p c b =
    (b ← write_scalar SC_uint32 type b; b ← write_scalar SC_int16 p b; b ← write_scalar SC_int16 c b; put_vector T vec b).
Proof.
  intros [Ht Hp Hc Hd Hs _]. unfold writePartialAttribute, put_vector.
  rewrite (proj2 (Z.ltb_ge p 0)), (proj2 (Z.ltb_ge c 0)) by lia. rewrite u32_id by (unfold is_u32, is_update in *; lia).
  destruct (write_scalar SC_uint32 type b) as [b1|]; [|done]. cbn [mbind option_bind].
  destruct (write_scalar SC_int16 p b1) as [b2|]; [|done]. cbn [mbind option_bind].
  destruct (write_scalar SC_int16 c b2) as [b3|]; [|done]. cbn [mbind option_bind].
  destruct (Z.eqb_spec type UPDATE_DELETE) as [He|Hne].
  - rewrite (Hd He). done.
  - destruct (Hs Hne) as (Hl & Hle & Hsl). rewrite <- Hl, i32_small by lia.
    destruct (write_scalar SC_int32 (Z.of_nat (length vec)) b3) as [b4|]; [|done]. cbn [mbind option_bind].
    rewrite Hl. destruct (Z.ltb_spec 0 c).
    + rewrite (proj2 (Z.leb_le _ _)) by lia. rewrite <- Hl, Nat2Z.id. by rewrite Hsl.
    + destruct vec; [done|cbn in Hl; lia].
Qed.

Context `{!Spec T, !Law T}.
Hypothesis Hheap : heap_ample.

Definition update_cost (vec : elements) : Z := 128 + sum_cost sp_cost vec.

(** A scalar in front, read into a variable that is not initialised. *)
Lemma roundtrips_scalar_then {A} t x m cost (g : Z -> CIStream -> Outcome (A * CIStream)) a :
  is_scalar t x -> 0 <= cost -> roundtrips m cost (g x) a ->
  roundtrips (fun b => b ← write_scalar t x b; m b) (32 + cost)
    (fun s => '(y, s) ← read_scalar t (sty_init (sty_scalar t)) s; g y s) a.
Proof. intros Hx Hc Hm. apply (roundtrips_bind _ _ 32 cost _ x); [done|by apply roundtrips_scalar|done]. Qed.

(** Reading it makes of the client's value what the setter made of the server's. *)
Lemma roundtrips_update type p c vec v v' :
  announced type p c vec v v' -> Forall sp_ok vec -> countable vec ->
  roundtrips (writePartialAttribute T v' type p c) (update_cost vec) (readPartialAttribute T v) (v', (type, p, c)).
Proof.
  intros Ha Hok Hcount. pose proof Ha as [Ht Hp Hc _ _ Happly].
  pose proof (sum_cost_nonneg sp_cost vec law_cost) as Hsum.
  assert (i32 type = type) as Hi by (apply i32_small; unfold is_update in Ht; lia).
  pose (k := fun (type p c : Z) (vec : elements) (s : CIStream) =>
    t ← apply_update T (i32 type) p c vec v; Done (t, (i32 type, p, c), s)).
  assert (roundtrips Some 0 (k type p c vec) (v', (type, p, c))) as Hk.
  { eapply roundtrips_ext; [by apply (roundtrips_ret (v', (type, p, c)) 0)|done| |done].
    intros s _. subst k. cbn beta. rewrite Hi, Happly. done. }
  assert (roundtrips (put_vector T vec) (32 + sum_cost sp_cost vec) (get_vector T []) vec) as Hvec.
  { apply (law_roundtrips (Law := vector_law Hheap T) vec []); [by split|constructor]. }
  assert (is_scalar SC_uint32 type) as Hst by (unfold is_update in Ht; apply is_scalar_uint32; lia).
  assert (is_scalar SC_int16 p /\ is_scalar SC_int16 c) as [Hsp Hsc]
    by (split; match goal with |- is_scalar _ ?x => change (- 2 ^ 15 <= x < 2 ^ 15) end; lia).
  pose proof (roundtrips_bind _ Some _ 0 _ _ (k type p c) _ (Z.le_refl 0) Hvec Hk) as R3.
  set (sum := sum_cost sp_cost vec) in *.
  pose (g2 := fun type p c s => '(vec, s) ← get_vector T [] s; k type p c vec s).
  pose (g1 := fun type p s => '(c, s) ← read_scalar SC_int16 (sty_init (sty_scalar SC_int16)) s; g2 type p c s).
  pose (g0 := fun type s => '(p, s) ← read_scalar SC_int16 (sty_init (sty_scalar SC_int16)) s; g1 type p s).
  pose proof (roundtrips_scalar_then SC_int16 c _ (32 + sum + 0) (g2 type p) _ Hsc ltac:(lia) R3) as R2.
  pose proof (roundtrips_scalar_then SC_int16 p _ (32 + (32 + sum + 0)) (g1 type) _ Hsp ltac:(lia) R2) as R1.
  pose proof (roundtrips_scalar_then SC_uint32 type _ (32 + (32 + (32 + sum + 0))) g0 _ Hst ltac:(lia) R1) as R0.
  eapply roundtrips_ext; [exact R0| |done|unfold update_cost; lia].
  intros b. rewrite (writePartialAttribute_announced type p c vec v v' b Ha).
  destruct (write_scalar SC_uint32 type b) as [b1|]; [|done]. cbn [mbind option_bind].
  destruct (write_scalar SC_int16 p b1) as [b2|]; [|done]. cbn [mbind option_bind].
  destruct (write_scalar SC_int16 c b2) as [b3|]; [|done]. cbn [mbind option_bind].
  by destruct (put_vector T vec b3).
Qed.

(** *** The two sides *)

(** Elements that can be sent. *)
Record sendable (vec : elements) : Prop := {
  se_length : Z.of_nat (length vec) < 2 ^ 15;
  se_ok : Forall sp_ok vec;
  se_cost : update_cost vec <= CAPACITY_MAX;
}.

Lemma sendable_nil : sendable [].
Proof. by split; [|constructor|]. Qed.

Lemma process_announced type p c vec v v' b rest a :
  announced type p c vec v v' -> sendable vec -> at_mValue a = v ->
  writePartialAttribute T v' type p c (CBuffer_new powerOf2) = Some b ->
  Z.of_nat (length (contents b ++ rest)) <= STREAM_MAX ->
  process_update T DATA_OK (contents b ++ rest) a =
    Done (mkAttribute v' DATA_OK, Some (v', DATA_OK, (type, p, c))).
Proof.
  intros Ha [Hl Hok Hcost] Hv Hb Hrest.
  destruct (roundtrips_update type p c vec v v' Ha Hok) with (b := CBuffer_new powerOf2) as (b' & ext & Hb' & _ & _ & _ & Hr);
    [unfold countable; lia|apply CBuffer_new_wf|exact Hcost|].
  rewrite Hb in Hb'. injection Hb' as <-. specialize (Hr rest Hrest). unfold process_update.
  change (CIStream_new (contents b ++ rest) (Z.of_nat (length (contents b ++ rest))))
    with (stream_at (contents b ++ rest) (mSize (CBuffer_new powerOf2))).
  cbn [at_mValue]. change (at_mValue (a <| at_mState := DATA_OK |>)) with (at_mValue a). rewrite Hv, Hr. done.
Qed.

(** A call of the setter. *)
Record Update := mkUpdate { up_from : elements; up_type : Z; up_position : Z; up_count : Z }.

Definition update_ok (u : Update) : Prop :=
  is_update (up_type u) /\ up_position u < 2 ^ 15 /\ up_count u < 2 ^ 15 /\ sendable (up_from u).

(** The notifications of a sequence of calls, each with the value after it. *)
Fixpoint publish_all (us : list Update) (a : Attribute elements) : Outcome (list (bytes * elements)) :=
  match us with
  | [] => Done []
  | u :: us =>
    '(a, payload) ← publish T (up_from u) (up_type u) (up_position u) (up_count u) a;
    l ← publish_all us a;
    Done ((payload, at_mValue a) :: l)
  end.

(** The messages for a client: the answer to its registration and the notifications. *)
Definition messages (first : option (DataStateType * bytes)) (pub : list (bytes * elements))
    : list (DataStateType * bytes) :=
  option_list first ++ map (fun x => (DATA_OK, fst x)) pub.

(** The values and states the client is notified of. *)
Fixpoint receive_all (msgs : list (DataStateType * bytes)) (a : Attribute elements)
    : Outcome (list (option (elements * DataStateType))) :=
  match msgs with
  | [] => Done []
  | (state, p) :: msgs =>
    '(a, call) ← process_update T state p a;
    l ← receive_all msgs a;
    Done (match call with Some (v, state, _) => Some (v, state) | None => None end :: l)
  end.

(** A message with stray bytes behind it. *)
Definition padded (m : DataStateType * bytes) (rest : bytes) : DataStateType * bytes :=
  (fst m, snd m ++ rest).

Lemma announced_complete p c vec v w v' :
  announced UPDATE_COMPLETE p c vec v v' -> announced UPDATE_COMPLETE p c vec w v'.
Proof. intros [Ht Hp Hc Hd Hs Ha]. by split. Qed.

(** A complete update needs no value to apply it to. *)
Lemma publish_received u a a' c payload rest :
  update_ok u -> Z.of_nat (length (at_mValue a)) < 2 ^ 15 ->
  at_mValue c = at_mValue a \/ up_type u = UPDATE_COMPLETE ->
  publish T (up_from u) (up_type u) (up_position u) (up_count u) a = Done (a', payload) ->
  Z.of_nat (length (payload ++ rest)) <= STREAM_MAX ->
  exists args, process_update T DATA_OK (payload ++ rest) c = Done (a', Some (at_mValue a', DATA_OK, args)).
Proof.
  intros (Ht & Hp & Hc & Hs) Hl Heq. unfold publish.
  destruct (at_set T _ _ _ _ a) as [[[a1 p] n]| |] eqn:E; [|done..]. cbn [mbind Outcome_bind].
  destruct (writePartialAttribute _ _ _ _ _ _) as [b|] eqn:Eb; [|done]. intros [= -> <-] Hr.
  destruct (at_set_announced _ _ _ _ a a' p n Ht Hp Hc (se_length _ Hs) Hl E) as [Ha Hst].
  assert (announced (up_type u) p n (if up_type u =? UPDATE_DELETE then [] else up_from u)
    (at_mValue c) (at_mValue a')) as Ha'.
  { destruct Heq as [->|Hu]; [done|]. rewrite Hu in *. by eapply announced_complete. }
  eexists. erewrite process_announced; [|exact Ha'| |done|exact Eb|done].
  - destruct a' as [v' st]. cbn in Hst. by subst st.
  - destruct (_ =? _); [apply sendable_nil|done].
Qed.

Lemma subscribe_received a c state payload rest :
  sendable (at_mValue a) -> at_mState a = DATA_OK -> subscribe T a = Done (Some (state, payload)) ->
  Z.of_nat (length (payload ++ rest)) <= STREAM_MAX ->
  exists args, process_update T state (payload ++ rest) c =
    Done (mkAttribute (at_mValue a) DATA_OK, Some (at_mValue a, DATA_OK, args)).
Proof.
  intros Hs Hok. unfold subscribe. rewrite Hok. set (v := at_mValue a) in *.
  pose proof (se_length _ Hs) as Hl.
  assert (writePartialAttribute T v UPDATE_COMPLETE (-1) (-1) (CBuffer_new powerOf2) =
    writePartialAttribute T v UPDATE_COMPLETE 0 (Z.of_nat (length v)) (CBuffer_new powerOf2)) as ->.
  { unfold writePartialAttribute. cbn [Z.ltb Z.compare]. rewrite Z.sub_0_r, i16_small by lia.
    by rewrite (proj2 (Z.ltb_ge (Z.of_nat (length v)) 0)) by lia. }
  destruct (writePartialAttribute _ _ _ _ _ _) as [b|] eqn:Eb; [|done]. intros [= <- <-] Hr.
  assert (announced UPDATE_COMPLETE 0 (Z.of_nat (length v)) v (at_mValue c) v) as Ha.
  { split; [unfold is_update, UPDATE_COMPLETE; lia|lia|lia|discriminate| |reflexivity].
    intros _. cbn [Z.to_nat]. rewrite drop_0, firstn_all. repeat split; lia. }
  eexists. by erewrite process_announced.
Qed.

Lemma receive_all_padded state p r msgs a :
  receive_all (padded (state, p) r :: msgs) a =
    ('(a, call) ← process_update T state (p ++ r) a;
     l ← receive_all msgs a;
     Done (match call with Some (v, state, _) => Some (v, state) | None => None end :: l)).
Proof. reflexivity. Qed.

(** Nothing has to be replicated, or the first call replaces the value. *)
Definition renewed (us : list Update) : Prop :=
  match us with [] => True | u :: _ => up_type u = UPDATE_COMPLETE end.

Definition fits (m : DataStateType * bytes) : Prop := Z.of_nat (length (snd m)) <= STREAM_MAX.

Lemma receive_published us : forall a c pub rests,
  publish_all us a = Done pub -> Forall update_ok us -> at_mValue c = at_mValue a \/ renewed us ->
  Forall (fun v => Z.of_nat (length v) < 2 ^ 15) (at_mValue a :: map snd pub) -> length rests = length pub ->
  Forall fits (zip_with padded (messages None pub) rests) ->
  receive_all (zip_with padded (messages None pub) rests) c = Done (map (fun x => Some (snd x, DATA_OK)) pub).
Proof.
  induction us as [|u us IH]; intros a c pub rests; cbn [publish_all]; [by intros [= <-]|].
  destruct (publish T _ _ _ _ a) as [[a' payload]| |] eqn:E; [|done..]. cbn [mbind Outcome_bind].
  destruct (publish_all us a') as [l| |] eqn:El; [|done..]. cbn [mbind Outcome_bind]. intros [= <-].
  intros [Hu Hus]%Forall_cons Heq [Hla Hl]%Forall_cons. destruct rests as [|r rests]; [done|].
  intros [= Hlen].
  change (zip_with padded (messages None ((payload, at_mValue a') :: l)) (r :: rests))
    with (padded (DATA_OK, payload) r :: zip_with padded (messages None l) rests).
  intros [Hp Hps]%Forall_cons. rewrite receive_all_padded. cbn [map fst snd] in *.
  destruct (publish_received u a a' c payload r Hu Hla Heq E Hp) as (args & ->). cbn [mbind Outcome_bind].
  rewrite (IH a' a' l rests); try done. by left.
Qed.

(** What the registration brings. *)
Definition first_call (a c : Attribute elements) : list (option (elements * DataStateType)) :=
  match at_mState a with
  | DATA_OK => [Some (at_mValue a, DATA_OK)]
  | DATA_INVALID => [Some (at_mValue c, DATA_INVALID)]
  | DATA_NOT_AVAILABLE => []
  end.

End updates.

(** C24. A client that registers for a valid attribute, whatever value it had, is notified of the
    server's value and then, for every call of the setter, of the value the server has after
    it, although only the changed part is sent; each message may be followed by stray bytes.
    When the attribute is invalid the client is only told so, and of one without a value it is
    told nothing; then the values are replicated from the first call of the setter on,
    provided it sets the whole value (otherwise see [update_without_value]).  The vectors
    have less than 32768 elements (see [large_attribute_throws]), messages fit the stream and
    memory suffices. *)
Theorem attribute_replicated `{Heap} T `{!Spec T, !Law T} (us : list (Update T)) a c first pub rests :
  heap_ample -> sendable T (at_mValue a) -> Forall (update_ok T) us ->
  subscribe T a = Done first -> publish_all T us a = Done pub ->
  at_mState a = DATA_OK \/ renewed T us ->
  Forall (fun v => Z.of_nat (length v) < 2 ^ 15) (map snd pub) ->
  length rests = length (messages T first pub) ->
  Forall fits (zip_with padded (messages T first pub) rests) ->
  receive_all T (zip_with padded (messages T first pub) rests) c =
    Done (first_call T a c ++ map (fun x => Some (snd x, DATA_OK)) pub).
Proof.
  intros Hheap Hs Hus H0 Hpub Hfirst Hls. pose proof (se_length _ _ Hs) as Hsl.
  assert (Forall (fun v => Z.of_nat (length v) < 2 ^ 15) (at_mValue a :: map snd pub)) as Hall
    by by constructor.
  pose proof (fun c rests => receive_published T Hheap us a c pub rests Hpub Hus) as Hrec.
  rewrite <- (length_map (fun x => (DATA_OK, fst x)) pub) in Hrec.
  unfold first_call. destruct (at_mState a) eqn:Hst.
  - destruct Hfirst as [Hfirst|Hfirst]; [done|]. unfold subscribe in H0. rewrite Hst in H0. injection H0 as <-.
    intros Hlen Hps. by rewrite (Hrec c rests (or_intror Hfirst) Hall Hlen Hps).
  - destruct Hfirst as [Hfirst|Hfirst]; [done|]. unfold subscribe in H0. rewrite Hst in H0. injection H0 as <-.
    destruct rests as [|r rests]; intros Hlen; [done|]. injection Hlen as Hlen.
    change (zip_with padded (messages T (Some (DATA_INVALID, [])) pub) (r :: rests))
      with (padded (DATA_INVALID, []) r :: zip_with padded (messages T None pub) rests).
    intros [_ Hps]%Forall_cons. rewrite receive_all_padded. cbn [process_update mbind Outcome_bind].
    by rewrite (Hrec (c <| at_mState := DATA_INVALID |>) rests (or_intror Hfirst) Hall Hlen Hps).
  - destruct first as [[state p0]|];
      [|unfold subscribe in H0; rewrite Hst in H0; by destruct (writePartialAttribute T _ _ _ _ _)].
    destruct rests as [|r rests]; intros Hlen; [done|]. injection Hlen as Hlen.
    change (zip_with padded (messages T (Some (state, p0)) pub) (r :: rests))
      with (padded (state, p0) r :: zip_with padded (messages T None pub) rests).
    intros [Hp Hps]%Forall_cons. rewrite receive_all_padded.
    destruct (subscribe_received T Hheap a c state p0 r Hs Hst H0 Hp) as (args & ->).
    cbn [mbind Outcome_bind].
    by rewrite (Hrec (mkAttribute (at_mValue a) DATA_OK) rests (or_introl eq_refl) Hall Hlen Hps).
Qed.

Definition int_element : sty := denote (DScalar SC_int32).

Definition demo_updates : list (Update int_element) :=
  [mkUpdate int_element [9] UPDATE_INSERT 1 (-1); mkUpdate int_element [] UPDATE_DELETE 0 2;
   mkUpdate int_element [5; -6] UPDATE_REPLACE 0 (-1)].

Definition demo_attribute : Attribute (list Z) := mkAttribute [1; 2; 3] DATA_OK.

Lemma sendable_small (l : list Z) :
  bool_decide (Z.of_nat (length l) <= 1000) = true -> Forall (fun x => - 2 ^ 31 <= x < 2 ^ 31) l -> sendable int_element l.
Proof.
  intros Hl%bool_decide_eq_true Hok.
  split; [change (Z.of_nat (length l) < 2 ^ 15); lia|exact Hok|]. unfold update_cost. clear Hok.
  assert (sum_cost (fun _ : Z => 32) l = 32 * Z.of_nat (length l)) as Hs.
  { induction l as [|x l IH]; [done|]. cbn [sum_cost foldr]. fold (sum_cost (fun _ : Z => 32) l).
    cbn [length] in Hl |- *. rewrite IH; lia. }
  change (128 + sum_cost (fun _ : Z => 32) l <= CAPACITY_MAX). rewrite Hs.
  assert (128 + 32 * 1000 <= CAPACITY_MAX) by (vm_compute; congruence). lia.
Qed.

Lemma attribute_replicated_witness :
  exists first pub, subscribe int_element demo_attribute = Done first /\
    publish_all int_element demo_updates demo_attribute = Done pub /\
    receive_all int_element (zip_with padded (messages int_element first pub) [[]; [1]; []; [2; 3]])
      (mkAttribute [7] DATA_NOT_AVAILABLE) =
    Done [Some ([1; 2; 3], DATA_OK); Some ([1; 9; 2; 3], DATA_OK); Some ([2; 3], DATA_OK);
          Some ([5; -6], DATA_OK)].
Proof.
  pose proof (denote_law simple_heap_ample (DScalar SC_int32) eq_refl) as HL.
  eexists _, _. split; [vm_compute; reflexivity|]. split; [vm_compute; reflexivity|].
  refine (attribute_replicated int_element demo_updates demo_attribute (mkAttribute [7] DATA_NOT_AVAILABLE) _ _ _
    simple_heap_ample _ _ _ _ _ _ _ _).
  - apply sendable_small; [reflexivity|repeat constructor; lia].
  - repeat (apply Forall_cons; split; [|try apply Forall_nil_2]); unfold update_ok, is_update; cbn [up_type up_position up_count up_from];
      (split_and!; [vm_compute; congruence|vm_compute; congruence|done|done|]);
      (apply sendable_small; [reflexivity|repeat constructor; lia]).
  - vm_compute. reflexivity.
  - vm_compute. reflexivity.
  - left. reflexivity.
  - repeat constructor; cbn; lia.
  - reflexivity.
  - repeat constructor; vm_compute; congruence.
Defined.

(** ** Where the copies part *)

(** A heap with room for less than 2^31 elements. *)
Definition bounded_heap : Heap :=
  {| heap_alloc := fun _ => true; heap_junk := fun _ => 0xAA; heap_elements := fun n => n <? 2 ^ 31 |}.

(** A vector of 32768 elements does not fit the [int16_t] that counts them: what is sent is a
    vector of -32768 elements, and the client resizes its own to almost 2^32. *)
Lemma large_attribute_throws (T : @sty) (a c : Attribute (list (sty_type T))) :
  Z.of_nat (length (at_mValue a)) = 2 ^ 15 -> at_mState a = DATA_OK ->
  exists payload, @subscribe bounded_heap T a = Done (Some (DATA_OK, payload)) /\
    @process_update bounded_heap T DATA_OK payload c = Thrown.
Proof.
  intros Hl Hok. unfold subscribe, writePartialAttribute. rewrite Hok, Hl.
  change (i16 (2 ^ 15 - (if -1 <? 0 then 0 else -1))) with (- 2 ^ 15).
  assert (exists b, (b ← @write_scalar bounded_heap SC_uint32 (u32 UPDATE_COMPLETE) (@CBuffer_new bounded_heap powerOf2);
    b ← @write_scalar bounded_heap SC_int16 0 b; b ← @write_scalar bounded_heap SC_int16 (- 2 ^ 15) b;
    @write_scalar bounded_heap SC_int32 (- 2 ^ 15) b) = Some b /\
    contents b = [0; 0; 0; 0; 0; 0; 0; 128; 0; 128; 255; 255]) as (b & Hb & Hc) by (eexists; split; [vm_compute; reflexivity|]; vm_compute; reflexivity).
  exists (contents b). split.
  - cbn -[write_scalar CBuffer_new contents] in Hb |- *.
    repeat match type of Hb with context [mbind ?f (write_scalar ?t ?x ?b0)] =>
      destruct (write_scalar t x b0) as [?|]; [|discriminate Hb]; cbn -[write_scalar contents] in Hb |- * end.
    by rewrite Hb.
  - rewrite Hc. vm_compute. reflexivity.
Qed.

(** A server keeps the value of an attribute it has marked invalid.  A client that registers then
    is not sent the value, and cannot apply the next partial update. *)
Lemma update_without_value :
  subscribe int_element (at_invalidate demo_attribute) = Done (Some (DATA_INVALID, [])) /\
  exists payload, publish int_element [9] UPDATE_INSERT 3 (-1) (at_invalidate demo_attribute) =
      Done (mkAttribute [1; 2; 3; 9] DATA_OK, payload) /\
    process_update int_element DATA_OK payload (mkAttribute [] DATA_INVALID) = Undefined.
Proof. split; [reflexivity|]. eexists. split; [vm_compute; reflexivity|]. vm_compute. reflexivity. Qed.

(** A truncated message is applied all the same, with whatever the variables hold. *)
Lemma truncated_update_applied `{Heap} T a :
  process_update T DATA_OK [] a =
    (v ← apply_update T (i32 (sty_init (sty_scalar SC_uint32))) (sty_init (sty_scalar SC_int16))
       (sty_init (sty_scalar SC_int16)) [] (at_mValue a);
     Done (mkAttribute v DATA_OK, None)).
Proof.
  set (e := mkCIStream [] 0 0 ERANGE).
  assert (forall old, read_scalar SC_uint32 old (CIStream_new [] 0) = Done (old, e)) as H1 by reflexivity.
  assert (forall t old, read_scalar t old e = Done (old, e)) as H2 by reflexivity.
  unfold process_update, readPartialAttribute, get_vector. change (Z.of_nat (length (A := Z) [])) with 0.
  rewrite H1. cbn [mbind Outcome_bind]. do 2 (rewrite H2; cbn [mbind Outcome_bind]). rewrite H2. cbn [mbind Outcome_bind].
  change (vector_resize T (u32 0) []) with (@Done (list (sty_type T)) []). cbn [mbind Outcome_bind get_all].
  change (at_mValue (a <| at_mState := DATA_OK |>)) with (at_mValue a).
  by destruct (apply_update T _ _ _ [] (at_mValue a)).
Qed.
