(* ===== verification/Variant.v ===== *)
(** The operations of [TVariant]: [include/dsi/TVariant.hpp], [private/TVariant.hpp] and the type
    lists of [private/TypeListAlgos.hpp] and [private/TTypeList.hpp].

    A variant is an index and storage for one object.  The storage knows nothing of its object:
    constructors and destructors are called through tables, by the index.  The model keeps the
    object that lives in the storage, so that destroying what is not there, constructing over
    what is and using it as another type are errors.  [Serial] has the streaming of variants. *)

From Stdlib Require Import Logic.Eqdep_dec.
From S2P Require Import Prelude.

(** ** C++ types

    The types with their copy constructors, assignments and default constructors, which may
    throw ([None]). *)
Class CppTypes := {
  Ty : Type;
  Ty_eq_dec :: EqDecision Ty;
  val : Ty -> Type;
  ty_copy : forall T, val T -> option (val T);
  ty_assign : forall T, val T -> val T -> option (val T);
  ty_default : forall T, option (val T);
  ty_equal : forall T, val T -> val T -> bool;
  ty_size : Ty -> Z;
  ty_align : Ty -> Z;
}.

Section variant.
Context `{CppTypes}.

(** ** Type lists: the list of their types; [SNilType] is [None] *)

Fixpoint Size (l : list Ty) : Z := match l with [] => 0 | _ :: l => Size l + 1 end.

(** [Find<SearchT, ListT, N>]. *)
Fixpoint Find (T : Ty) (l : list Ty) (N : Z) : Z :=
  match l with
  | [] => -1
  | T' :: l => if decide (T = T') then N else Find T l (N + 1)
  end.

Fixpoint RelaxedTypeAt (N : nat) (l : list Ty) : option Ty :=
  match l, N with
  | [], _ => None
  | T :: _, O => Some T
  | _ :: l, S N => RelaxedTypeAt N l
  end.

(** [TypeAt] has no instance behind the end. *)
Definition TypeAt (N : nat) (l : list Ty) : option Ty := RelaxedTypeAt N l.

Definition PushFront (l : list Ty) (T : Ty) : list Ty := T :: l.

Definition PopFront (l : list Ty) : list Ty := match l with [] => [] | _ :: l => l end.

(** There is no [PushBack] for the empty list. *)
Fixpoint PushBack (l : list Ty) (T : Ty) : option (list Ty) :=
  match l with
  | [] => None
  | [T'] => Some [T'; T]
  | T' :: l => cons T' <$> PushBack l T
  end.

Fixpoint PopBack (l : list Ty) : list Ty :=
  match l with
  | [] | [_] => []
  | T :: l => T :: PopBack l
  end.

(** [SHBMax] of a metafunction. *)
Fixpoint SHBMax (f : Ty -> Z) (l : list Ty) : Z :=
  match l with
  | [] => 0
  | [T] => f T
  | T :: l => if SHBMax f l <? f T then f T else SHBMax f l
  end.

(** ** The storage *)

Definition Object : Type := { T : Ty & val T }.

(** The object as a [T]. *)
Definition object_as (T : Ty) (o : Object) : option (val T) :=
  match decide (projT1 o = T) with
  | left e => Some (eq_rect _ val (projT2 o) _ e)
  | right _ => None
  end.

Record Variant := mkVariant { vt_idx : Z; vt_object : option Object }.

#[export] Instance Eta_Variant : Eta Variant := fun v => mkVariant (vt_idx v) (vt_object v).

(** An operation returns, throws, or misuses the storage. *)
Inductive Effect :=
  | Fine (v : Variant)
  | Threw (v : Variant)
  | Misused.

Definition after (e : Effect) (k : Variant -> Effect) : Effect := match e with Fine v => k v | _ => e end.

(** The list of the types of the variant. *)
Variable types : list Ty.

Definition size : Z := SHBMax ty_size types.
Definition alignment : Z := SHBMax ty_align types.

Definition typeIdOf (T : Ty) : Z := Find T types 0 + 1.

(** *** [TVariantHelper]

    The tables have an entry for each type when there are two to five types, otherwise 15. *)
Definition table_size : Z :=
  match types with
  | [_; _] | [_; _; _] | [_; _; _; _] | [_; _; _; _; _] => Size types
  | _ => 15
  end.

(** The entry [i - 1] of the tables of [construct] and [destruct]. *)
Definition table_entry (i : Z) : option (option Ty) :=
  if (1 <=? i) && (i <=? table_size) then Some (RelaxedTypeAt (Z.to_nat (i - 1)) types) else None.

(** [::new(to) T(x)] in storage that must be free. *)
Definition place (T : Ty) (x : option (val T)) (v : Variant) : Effect :=
  match vt_object v, x with
  | Some _, _ => Misused
  | None, Some x => Fine (v <| vt_object := Some (existT T x) |>)
  | None, None => Threw v
  end.

(** [variant_destroy<T>]. *)
Definition variant_destroy (T : Ty) (v : Variant) : Effect :=
  match vt_object v ≫= object_as T with
  | Some _ => Fine (v <| vt_object := None |>)
  | None => Misused
  end.

(** [variant_construct<T>]. *)
Definition variant_construct (T : Ty) (from v : Variant) : Effect :=
  match vt_object from ≫= object_as T with
  | Some x => place T (ty_copy T x) v
  | None => Misused
  end.

(** An [SNilType] has no state. *)
Definition destruct_ (i : Z) (v : Variant) : Effect :=
  match table_entry i with
  | Some (Some T) => variant_destroy T v
  | Some None => Fine v
  | None => Misused
  end.

Definition construct (i : Z) (from v : Variant) : Effect :=
  match table_entry i with
  | Some (Some T) => variant_construct T from v
  | Some None => Fine v
  | None => Misused
  end.

(** ** [TVariant] *)

Definition unset : Z := 0.

Definition in_range (i : Z) : bool := (0 <? i) && (i <? Size types + 1).

Definition try_destroy (v : Variant) : Effect := if in_range (vt_idx v) then destruct_ (vt_idx v) v else Fine v.

Definition construct_from (from v : Variant) : Effect :=
  let v := v <| vt_idx := vt_idx from |> in
  if in_range (vt_idx v) then construct (vt_idx v) from v else Fine v.

(** The constructors; [None] when one throws. *)
Definition TVariant_new : Variant := mkVariant unset None.
Definition TVariant_of (T : Ty) (t : val T) : option Variant :=
  match place T (ty_copy T t) (mkVariant (typeIdOf T) None) with Fine v => Some v | _ => None end.

(** [get<T>()]: no pointer, a pointer that does not point to a [T], or its object. *)
Definition get (T : Ty) (v : Variant) : option (option (val T)) :=
  if typeIdOf T =? vt_idx v then Some (vt_object v ≫= object_as T) else None.

(** [operator=(const T&)]. *)
Definition assign_value (T : Ty) (t : val T) (v : Variant) : Effect :=
  if vt_idx v =? typeIdOf T then
    match get T v with
    | Some (Some old) =>
      match ty_assign T old t with
      | Some x => Fine (v <| vt_object := Some (existT T x) |>)
      | None => Threw v
      end
    | _ => Misused
    end
  else after (try_destroy v) (fun v => place T (ty_copy T t) (v <| vt_idx := typeIdOf T |>)).

(** [operator=(const TVariant&)] from another object. *)
Definition assign (from v : Variant) : Effect := after (try_destroy v) (construct_from from).

(** [reset()] and [reset<T>()]; [reset<T>(args)] constructs [arg] instead. *)
Definition reset (v : Variant) : Effect := after (try_destroy v) (fun v => Fine (v <| vt_idx := unset |>)).

Definition reset_with (T : Ty) (arg : option (val T)) (v : Variant) : Effect :=
  after (try_destroy v) (fun v => place T arg (v <| vt_idx := typeIdOf T |>)).

Definition reset_as (T : Ty) : Variant -> Effect := reset_with T (ty_default T).

Definition isEmpty (v : Variant) : bool := vt_idx v =? unset.

Definition getTypeId (v : Variant) : Z := (vt_idx v + 2 ^ 7) mod 2 ^ 8 - 2 ^ 7.

(** [staticVisit]: the entry of the table [funcs] of [eval]; [None] is an assertion, a null
    pointer or an access behind the table. *)
Definition staticVisit {R} (empty : R) (visitor : forall T, val T -> R) (v : Variant) : option R :=
  let i := getTypeId v in
  if i =? 0 then Some empty
  else T ← table_entry i ≫= id; x ← get T v; visitor T <$> x.

(** [CEqualityVisitor] and [operator==]. *)
Definition equality_visitor (v : Variant) (T : Ty) (t : val T) : option bool :=
  match get T v with
  | None => Some false
  | Some None => None
  | Some (Some x) => Some (ty_equal T x t)
  end.

Definition equal (v rhs : Variant) : option bool :=
  if vt_idx v =? vt_idx rhs then
    if vt_idx v =? 0 then Some true else staticVisit None (equality_visitor v) rhs ≫= id
  else Some false.

End variant.

(** ** The contract: a variable that holds nothing, or an object of one of the types *)

(** Types that copy without exceptions and compare as their values. *)
Class Regular `{CppTypes} := {
  regular_copy : forall T t, ty_copy T t = Some t;
  regular_assign : forall T old t, ty_assign T old t = Some t;
  regular_default : forall T, is_Some (ty_default T);
  regular_equal : forall T x y, ty_equal T x y = true <-> x = y;
}.

Section typelists.
Context `{CppTypes}.
#[local] Existing Instance Ty_eq_dec.

Lemma Size_length l : Size l = Z.of_nat (length l).
Proof. induction l as [|T l IH]; cbn [Size length]; lia. Qed.

Lemma RelaxedTypeAt_lookup N l : RelaxedTypeAt N l = l !! N.
Proof. revert N. induction l as [|T l IH]; intros [|N]; try done. apply IH. Qed.

Lemma Find_lookup T l N n : l !! n = Some T -> NoDup l -> Find T l N = N + Z.of_nat n.
Proof.
  revert N n. induction l as [|T' l IH]; intros N n Hn Hd; [done|]. apply NoDup_cons in Hd as [Hni Hd]. cbn [Find].
  destruct n as [|n]; cbn in Hn.
  - injection Hn as ->. destruct (decide _); [lia|done].
  - destruct (decide _) as [->|]; [by destruct Hni; eapply list_elem_of_lookup_2|]. rewrite (IH _ n) by done. lia.
Qed.

End typelists.

Section contract.
Context `{CppTypes} (types : list Ty).
#[local] Existing Instance Ty_eq_dec.
Hypothesis distinct : NoDup types.
Hypothesis fits : (length types <= 15)%nat.

(** The position of a type. *)
Lemma typeIdOf_elem T : T ∈ types ->
  exists n, types !! n = Some T /\ (n < length types)%nat /\ typeIdOf types T = Z.of_nat n + 1.
Proof.
  intros [n Hn]%list_elem_of_lookup. exists n. split; [done|]. split; [by apply lookup_lt_Some in Hn|].
  unfold typeIdOf. rewrite (Find_lookup T types 0 n) by done. lia.
Qed.

Lemma typeIdOf_inj T T' : T ∈ types -> T' ∈ types -> typeIdOf types T = typeIdOf types T' -> T = T'.
Proof.
  intros (n & Hn & _ & ->)%typeIdOf_elem (n' & Hn' & _ & ->)%typeIdOf_elem He.
  assert (n = n') as -> by lia. congruence.
Qed.

Lemma table_size_length : Z.of_nat (length types) <= table_size types.
Proof. unfold table_size. rewrite !Size_length. repeat case_match; cbn [length] in *; lia. Qed.

Lemma table_entry_type T : T ∈ types -> table_entry types (typeIdOf types T) = Some (Some T).
Proof.
  intros (n & Hn & Hlt & ->)%typeIdOf_elem. unfold table_entry. pose proof table_size_length.
  rewrite (proj2 (Z.leb_le 1 _)), (proj2 (Z.leb_le _ (table_size types))) by lia. cbn [andb].
  rewrite RelaxedTypeAt_lookup. replace (Z.to_nat _) with n by lia. by rewrite Hn.
Qed.

Lemma in_range_type T : T ∈ types -> in_range types (typeIdOf types T) = true.
Proof.
  intros (n & Hn & Hlt & ->)%typeIdOf_elem. unfold in_range. rewrite Size_length.
  apply andb_true_iff. split; apply Z.ltb_lt; lia.
Qed.

(** The variant that holds [o]. *)
Definition holding (o : option Object) : Variant :=
  match o with Some (existT T x) => mkVariant (typeIdOf types T) (Some (existT T x)) | None => TVariant_new end.

Definition valid (o : option Object) : Prop := match o with Some (existT T x) => T ∈ types | None => True end.

Lemma object_as_self T (x : val T) : object_as T (existT T x) = Some x.
Proof. unfold object_as. cbn. destruct (decide (T = T)) as [e|]; [|done]. by rewrite (proof_irrel e eq_refl). Qed.

Lemma object_as_Some T o x : object_as T o = Some x -> o = existT T x.
Proof. destruct o as [T' y]. unfold object_as. cbn. destruct (decide (T' = T)) as [->|]; [|done]. cbn. by intros [= ->]. Qed.

Lemma try_destroy_holding o : valid o ->
  exists i, try_destroy types (holding o) = Fine (mkVariant i None).
Proof.
  destruct o as [[T x]|]; cbn [valid holding]; [|by eexists]. intros HT. exists (typeIdOf types T).
  unfold try_destroy, destruct_. cbn [vt_idx]. rewrite in_range_type, table_entry_type by done.
  unfold variant_destroy. cbn [vt_object mbind option_bind]. by rewrite !object_as_self.
Qed.

Lemma reset_holding o : valid o -> reset types (holding o) = Fine (holding None).
Proof. intros Ho. unfold reset. by destruct (try_destroy_holding o Ho) as (i & ->). Qed.

Lemma reset_with_holding o T arg : valid o ->
  reset_with types T arg (holding o) =
    match arg with
    | Some x => Fine (holding (Some (existT T x)))
    | None => Threw (mkVariant (typeIdOf types T) None)
    end.
Proof. intros Ho. unfold reset_with. destruct (try_destroy_holding o Ho) as (i & ->). by destruct arg. Qed.

(** [get] finds exactly the object that is there. *)
Lemma get_holding o T : valid o -> T ∈ types ->
  get types T (holding o) =
    match o ≫= object_as T with Some x => Some (Some x) | None => None end.
Proof.
  intros Ho HT. unfold get. destruct o as [[T' x]|]; cbn [holding vt_idx vt_object mbind option_bind TVariant_new].
  - destruct (Z.eqb_spec (typeIdOf types T) (typeIdOf types T')) as [He|Hne].
    + apply typeIdOf_inj in He as ->; [|done..]. by rewrite !object_as_self.
    + destruct (object_as T (existT T' x)) as [y|] eqn:E; [|done]. apply object_as_Some in E.
      apply (f_equal (@projT1 _ _)) in E. cbn in E. by subst T'.
  - destruct (typeIdOf_elem T HT) as (n & _ & _ & ->). by rewrite (proj2 (Z.eqb_neq _ unset)) by (unfold unset; lia).
Qed.

(** A visitor gets the object. *)
Lemma staticVisit_holding {R} (empty : R) visitor o : valid o ->
  staticVisit types empty visitor (holding o) =
    Some (match o with Some (existT T x) => visitor T x | None => empty end).
Proof.
  intros Ho. unfold staticVisit, getTypeId. destruct o as [[T x]|]; [|done]. cbn [holding vt_idx].
  pose proof (get_holding (Some (existT T x)) T Ho Ho) as Hg. cbn [holding mbind option_bind] in Hg. rewrite object_as_self in Hg.
  pose proof (table_entry_type T Ho) as He. cbn [valid] in Ho.
  destruct (typeIdOf_elem T Ho) as (n & _ & Hlt & Hid). rewrite Z.mod_small by lia.
  replace (typeIdOf types T + 2 ^ 7 - 2 ^ 7) with (typeIdOf types T) by lia.
  rewrite (proj2 (Z.eqb_neq _ 0)) by lia. rewrite He. cbn [mbind option_bind id]. by rewrite Hg.
Qed.

Section regular.
Context `{!Regular}.

Lemma assign_value_holding o T t : valid o -> T ∈ types ->
  assign_value types T t (holding o) = Fine (holding (Some (existT T t))).
Proof.
  intros Ho HT. unfold assign_value. rewrite (get_holding o T Ho HT).
  destruct (Z.eqb_spec (vt_idx (holding o)) (typeIdOf types T)) as [He|Hne].
  - destruct o as [[T' x]|]; cbn [holding vt_idx TVariant_new] in He.
    + apply typeIdOf_inj in He as ->; [|done..]. cbn [mbind option_bind]. rewrite object_as_self, regular_assign. done.
    + destruct (typeIdOf_elem T HT) as (n & _ & _ & Hid). unfold unset in He. lia.
  - destruct (try_destroy_holding o Ho) as (i & ->). cbn [after]. unfold place. cbn. by rewrite regular_copy.
Qed.

Lemma construct_from_holding o i : valid o -> construct_from types (holding o) (mkVariant i None) = Fine (holding o).
Proof.
  intros Ho. unfold construct_from. destruct o as [[T x]|]; [|done].
  change (vt_idx (_ <| vt_idx := _ |>)) with (typeIdOf types T). cbn [valid] in Ho.
  rewrite in_range_type by done. unfold construct. rewrite table_entry_type by done. unfold variant_construct.
  cbn [holding vt_object mbind option_bind]. rewrite object_as_self, regular_copy. done.
Qed.

Lemma assign_holding o o' : valid o -> valid o' -> assign types (holding o') (holding o) = Fine (holding o').
Proof.
  intros Ho Ho'. unfold assign. destruct (try_destroy_holding o Ho) as (i & ->). by apply construct_from_holding.
Qed.

(** [==] is equality of what is held. *)
Lemma equal_holding o o' : valid o -> valid o' ->
  exists b, equal types (holding o) (holding o') = Some b /\ (b = true <-> o = o').
Proof.
  intros Ho Ho'. unfold equal. destruct (Z.eqb_spec (vt_idx (holding o)) (vt_idx (holding o'))) as [He|Hne].
  - destruct (Z.eqb_spec (vt_idx (holding o)) 0) as [E0|N0].
    + exists true. split; [done|]. split; [intros _|done].
      destruct o as [[T x]|]; [destruct (typeIdOf_elem T Ho) as (n & _ & _ & Hid); cbn in E0; lia|].
      destruct o' as [[T x]|]; [|done]. destruct (typeIdOf_elem T Ho') as (n & _ & _ & Hid). cbn in He, E0. lia.
    + rewrite staticVisit_holding by done. destruct o' as [[T' x']|]; [|done].
      destruct o as [[T x]|]; [|done]. cbn [holding vt_idx] in He. apply typeIdOf_inj in He as ->; [|done..].
      cbn [mbind option_bind id]. unfold equality_visitor. rewrite get_holding by done.
      cbn [mbind option_bind]. rewrite object_as_self. eexists. split; [done|]. rewrite regular_equal.
      split; [by intros ->|]. intros [= E]. by apply inj_pair2_eq_dec in E; [|intros ? ?; apply Ty_eq_dec].
  - exists false. split; [done|]. split; [done|]. by intros ->.
Qed.

End regular.

End contract.

(** ** Programs over several variants *)

Section programs.
Context `{CppTypes} (types : list Ty).

(** What a program does with its variables; [VO_assign i j] may be a self-assignment. *)
Inductive VariantOp :=
  | VO_value (i : nat) (T : Ty) (t : val T)
  | VO_assign (i j : nat)
  | VO_reset (i : nat)
  | VO_reset_as (i : nat) (T : Ty)
  | VO_reset_with (i : nat) (T : Ty) (arg : val T).

Definition effect_at (i : nat) (vs : list Variant) (e : Effect) : option (list Variant) :=
  match e with Fine v => Some (<[i := v]> vs) | _ => None end.

(** [None] when an operation throws or misuses the storage, or the variable does not exist. *)
Definition variant_op (op : VariantOp) (vs : list Variant) : option (list Variant) :=
  match op with
  | VO_value i T t => v ← vs !! i; effect_at i vs (assign_value types T t v)
  | VO_assign i j =>
    v ← vs !! i; from ← vs !! j;
    if bool_decide (i = j) then Some vs else effect_at i vs (assign types from v)
  | VO_reset i => v ← vs !! i; effect_at i vs (reset types v)
  | VO_reset_as i T => v ← vs !! i; effect_at i vs (reset_as types T v)
  | VO_reset_with i T arg => v ← vs !! i; effect_at i vs (reset_with types T (Some arg) v)
  end.

Fixpoint variant_run (ops : list VariantOp) (vs : list Variant) : option (list Variant) :=
  match ops with [] => Some vs | op :: ops => variant_op op vs ≫= variant_run ops end.

(** The destructors at the end. *)
Definition variant_end (vs : list Variant) : option (list Variant) :=
  mapM (fun v => match try_destroy types v with Fine v => Some v | _ => None end) vs.

(** The same on variables that hold nothing or an object. *)
Definition union_op (op : VariantOp) (os : list (option Object)) : list (option Object) :=
  match op with
  | VO_value i T t | VO_reset_with i T t => <[i := Some (existT T t)]> os
  | VO_assign i j => match os !! j with Some o => <[i := o]> os | None => os end
  | VO_reset i => <[i := None]> os
  | VO_reset_as i T => <[i := existT T <$> ty_default T]> os
  end.

Definition union_run (ops : list VariantOp) (os : list (option Object)) : list (option Object) :=
  foldl (fun os op => union_op op os) os ops.

(** Its variables exist and its types are those of the variant. *)
Definition op_ok (n : nat) (op : VariantOp) : Prop :=
  match op with
  | VO_value i T _ | VO_reset_as i T | VO_reset_with i T _ => (i < n)%nat /\ T ∈ types
  | VO_assign i j => (i < n)%nat /\ (j < n)%nat
  | VO_reset i => (i < n)%nat
  end.

Hypothesis distinct : NoDup types.
Hypothesis fits : (length types <= 15)%nat.
Context `{!Regular}.

Lemma valid_insert i o os : Forall (valid types) os -> valid types o -> Forall (valid types) (<[i := o]> os).
Proof. intros Hos Ho. by apply Forall_insert. Qed.

Lemma variant_op_union op os : op_ok (length os) op -> Forall (valid types) os ->
  variant_op op (map (holding types) os) = Some (map (holding types) (union_op op os)) /\
  Forall (valid types) (union_op op os) /\ length (union_op op os) = length os.
Proof.
  intros Hop Hos.
  assert (forall i, (i < length os)%nat -> exists o, os !! i = Some o /\ map (holding types) os !! i = Some (holding types o) /\
    valid types o) as Hget.
  { intros i Hi. destruct (lookup_lt_is_Some_2 os i Hi) as [o Ho]. exists o. split; [done|].
    split; [by rewrite list_lookup_fmap, Ho|]. by eapply Forall_lookup_1. }
  destruct op as [i T t|i j|i|i T|i T arg]; cbn [op_ok variant_op union_op] in *.
  - destruct Hop as [Hi HT]. destruct (Hget i Hi) as (o & Ho & -> & Hv). cbn [mbind option_bind].
    rewrite (assign_value_holding types) by done. cbn [effect_at]. rewrite length_insert.
    split; [by rewrite list_fmap_insert|]. split; [by apply valid_insert|done].
  - destruct Hop as [Hi Hj]. destruct (Hget i Hi) as (o & Ho & -> & Hv). destruct (Hget j Hj) as (o' & Ho' & -> & Hv').
    cbn [mbind option_bind]. rewrite Ho', length_insert. split; [|by split; [apply valid_insert|]].
    case_bool_decide as Hij.
    + subst j. assert (o' = o) as -> by congruence. by rewrite list_insert_id.
    + rewrite (assign_holding types) by done. cbn [effect_at]. by rewrite list_fmap_insert.
  - destruct (Hget i Hop) as (o & Ho & -> & Hv). cbn [mbind option_bind]. rewrite (reset_holding types) by done.
    cbn [effect_at]. rewrite length_insert. split; [by rewrite list_fmap_insert|]. split; [by apply valid_insert|done].
  - destruct Hop as [Hi HT]. destruct (Hget i Hi) as (o & Ho & -> & Hv). cbn [mbind option_bind]. unfold reset_as.
    destruct (regular_default T) as [x Hx]. rewrite (reset_with_holding types) by done. rewrite Hx. cbn [effect_at fmap option_fmap option_map].
    rewrite length_insert. split; [by rewrite list_fmap_insert|]. split; [by apply valid_insert|done].
  - destruct Hop as [Hi HT]. destruct (Hget i Hi) as (o & Ho & -> & Hv). cbn [mbind option_bind].
    rewrite (reset_with_holding types) by done. cbn [effect_at]. rewrite length_insert.
    split; [by rewrite list_fmap_insert|]. split; [by apply valid_insert|done].
Qed.

(** Every program on variants does what it does on variables that hold nothing or an object; no
    storage is misused, and the destructors at the end leave none in use. *)
Lemma variants_refine_unions ops os :
  Forall (op_ok (length os)) ops -> Forall (valid types) os ->
  exists vs, variant_run ops (map (holding types) os) = Some vs /\ vs = map (holding types) (union_run ops os) /\
    exists vs', variant_end vs = Some vs' /\ Forall (fun v => vt_object v = None) vs'.
Proof.
  intros Hops. revert os Hops. induction ops as [|op ops IH]; intros os Hops Hos.
  - eexists. split; [done|]. split; [done|]. clear Hops. unfold variant_end, union_run. cbn [foldl].
    induction os as [|o os IH]; [by exists []|]. apply Forall_cons in Hos as [Ho Hos].
    destruct (IH Hos) as (vs' & Hm & Hf). cbn [map mapM]. destruct (try_destroy_holding types distinct fits o Ho) as (i & ->).
    cbn [mbind option_bind]. rewrite Hm. eexists. split; [done|]. by constructor.
  - apply Forall_cons in Hops as [Hop Hops]. destruct (variant_op_union op os Hop Hos) as (E & Hv & Hl).
    cbn [variant_run]. rewrite E. cbn [mbind option_bind].
    destruct (IH (union_op op os)) as (vs & Hr & Heq & Hend); [by rewrite Hl|done|]. by exists vs.
Qed.

End programs.

(** ** Where the contract ends *)

(** When a copy throws, the index already names the new type although the old object is gone
    and there is no new one: the destructor then destroys what is not there. *)
Lemma throwing_copy_destroyed_twice `{CppTypes} types o T t :
  NoDup types -> (length types <= 15)%nat -> valid types o -> T ∈ types -> ty_copy T t = None ->
  vt_idx (holding types o) <> typeIdOf types T ->
  exists v, assign_value types T t (holding types o) = Threw v /\ try_destroy types v = Misused.
Proof.
  intros Hd Hf Ho HT Ht Hne. unfold assign_value. rewrite (proj2 (Z.eqb_neq _ _) Hne).
  destruct (try_destroy_holding types Hd Hf o Ho) as (i & ->). cbn [after]. unfold place. cbn. rewrite Ht.
  eexists. split; [done|]. unfold try_destroy, destruct_. cbn [vt_idx].
  by rewrite in_range_type, table_entry_type by done.
Qed.

(** The tables have 15 entries, but [DSI_TYPELIST_16] makes a list of 16 types. *)
Lemma sixteenth_type_misused `{CppTypes} types T t x :
  NoDup types -> length types = 16%nat -> types !! 15%nat = Some T -> ty_copy T t = Some x ->
  exists v, TVariant_of types T t = Some v /\ try_destroy types v = Misused.
Proof.
  intros Hd Hl HT Hx. unfold TVariant_of, place. cbn. rewrite Hx. eexists. split; [done|].
  assert (typeIdOf types T = 16) as Hid by (unfold typeIdOf; by rewrite (Find_lookup T types 0 15)).
  unfold try_destroy, destruct_, in_range, table_entry, table_size. cbn [vt_idx]. rewrite Hid.
  change (vt_idx (mkVariant 16 None <| vt_object := Some (existT T x) |>)) with 16.
  rewrite Size_length, Hl. cbn.
  destruct types as [|? [|? [|? [|? [|? [|? ?]]]]]]; try discriminate Hl. done.
Qed.

(** ** An instance *)

(** Types that differ in size, with the bytes of their values. *)
Definition demo_types : CppTypes := {|
  Ty := nat;
  Ty_eq_dec := Nat.eq_dec;
  val := fun _ => bytes;
  ty_copy := fun _ x => Some x;
  ty_assign := fun _ _ x => Some x;
  ty_default := fun _ => Some [];
  ty_equal := fun _ x y => bool_decide (x = y);
  ty_size := Z.of_nat;
  ty_align := fun T => if (T <? 8)%nat then 4 else 8;
|}.

Lemma demo_regular : Regular (H := demo_types).
Proof. split; [done|done|by eexists|]. intros T x y. apply bool_decide_eq_true. Qed.

Example variant_program :
  size (H := demo_types) [4; 24; 8]%nat = 24 /\ alignment (H := demo_types) [4; 24; 8]%nat = 8 /\
  (vs ← variant_run (H := demo_types) [4; 24]%nat
     [VO_value (H := demo_types) 0 4%nat [42]; VO_assign (H := demo_types) 1 0; VO_value (H := demo_types) 0 24%nat [72; 105];
      VO_reset (H := demo_types) 1] [TVariant_new (H := demo_types); TVariant_new (H := demo_types)];
   Some (map (getTypeId (H := demo_types)) vs)) = Some [2; 0].
Proof. split_and!; vm_compute; reflexivity. Qed.
